(* ===== verification/_CoqProject ===== *)
-Q . S2P
Prelude.v
Mem.v
Str.v
Mmu.v
Kalloc.v
Vm.v
VmFacts.v
VmUser.v
VmSpace.v
VmCopy.v
VmWrite.v
VmClaims.v
Kheap.v
Liballoc.v
LiballocFacts.v
LiballocRun.v
LiballocHeap.v
LiballocClaims.v
Spinlock.v
Sleeplock.v
Bio.v
BioFacts.v
Memide.v
Log.v
LogFacts.v
LogRun.v
LogCrash.v
LogClaims.v
LogSpace.v
Ide.v
Ring.v
Pipe.v
Printf.v
Grep.v
Console.v
Kbd.v
Mp.v
Utils.v
Umalloc.v
UmallocFacts.v
UmallocRun.v
UmallocClaims.v
Proc.v
ProcFacts.v
Wakeup.v
ProcClaims.v
Blocks.v
Fs.v
FsBlocks.v
FsFile.v
FsData.v
FsInode.v
FsDir.v
FsFree.v
FsCache.v
Mkfs.v
MkfsFacts.v
MkfsClaims.v
File.v
Syscall.v
Sysfile.v
Exec.v
Trap.v
TrapClaims.v
Apic.v
Boot.v
ExecPlan.v
ExecFacts.v
ExecRun.v
ExecClaims.v
Sh.v
ShLex.v
ShParse.v
ShSound.v
ShRun.v
ShClaims.v
SysfileFacts.v
LogStore.v
FsClaims.v
SysClaims.v
