(* ===== verification/Prelude.v ===== *)
(** * xv6e: a verification library

    xv6e is a Unix-like kernel for the 32-bit PC with its user programs: xv6 with
    a kernel heap added under src/vm.  This library translates the C sources into
    executable definitions and proves what the parts promise to each other.

    ** The program and its model

    Machine integers are [Z] with the wrap-around written out ([u32], [s32], ...
    in this file), memory is a function from addresses to bytes ([mem] in Mem.v),
    and structures that the code reads and writes through pointers (page tables,
    free lists, heap headers, inodes and directory entries in blocks, pipe and
    console rings) are read and written byte by byte or word by word at their
    addresses.  Tables the code indexes (buffers, inodes, files, processes) are
    lists, a pointer into the table is the index.  Statements are computations of
    the monad [M S A := S → outcome S A] of this file: [Done] with a result and
    the new state, [Panic] for a call of panic, [Fault] for an access that
    traps, [Sleep] for a process that gives up the CPU, [NoFuel] when the bound
    of a loop is used up.  Operations of a component run inside the state of its
    clients by [lift].  Spinlocks that only bracket a critical section are the
    flag of [acquire] and [release] here, which panic where the code does; the
    lock code itself is in Spinlock.v.

    - Memory.  Str.v: string.c and the copies in ulib.c.  Mmu.v: mmu.h and
      memlayout.h.  Kalloc.v: vm/kalloc.c.  Vm.v: vm/vm.c, with VmFacts.v,
      VmUser.v, VmSpace.v, VmCopy.v and VmWrite.v for page tables as functions
      from pages to frames, and VmClaims.v.  Kheap.v: vm/kheap.c, the page source of the
      kernel heap.  Liballoc.v: vm/liballoc.c, the heap, with LiballocFacts.v,
      LiballocRun.v, LiballocHeap.v and LiballocClaims.v; the heap is proved
      over any page source that keeps the contract of vm/liballoc.h
      ([PageStore]).
    - Locks and processes.  Spinlock.v: spinlock.c, as functions of one CPU and
      as a step relation of any number of CPUs.  Sleeplock.v: sleeplock.c.
      Proc.v: proc.c, over an interface for files ([FileOps]); ProcFacts.v: the
      invariant of the process table; Wakeup.v: sleep and wakeup under all
      interleavings; ProcClaims.v.
    - Disk.  Bio.v: bio.c, over the interface [BlockDriver]; Memide.v and Ide.v
      (memide.c, ide.c) implement it.  BioFacts.v: the cache as its
      clients use it.  Log.v: log.c; LogFacts.v and LogRun.v: the block writes of
      commit and recovery; LogCrash.v: crashes; LogSpace.v: concurrent
      operations; LogClaims.v.
    - Files.  Fs.v: fs.c, over the interface of logged blocks in Blocks.v, which
      LogStore.v shows the log and the buffer cache to implement.  FsBlocks.v,
      FsFile.v, FsData.v, FsInode.v, FsDir.v, FsFree.v, FsCache.v: the block
      allocator, file contents, inodes, directories, discarding, the inode
      cache; FsClaims.v.  Pipe.v: pipe.c, over the ring of Ring.v.  File.v: file.c
      and pipealloc.  Syscall.v: the argument functions of syscall.c.
      Sysfile.v: sysfile.c; SysfileFacts.v and SysClaims.v.  Mkfs.v: mkfs.c, the
      program that builds the image, with MkfsFacts.v (the blocks of one file and
      the image under construction) and MkfsClaims.v.
    - Programs.  Exec.v: exec.c and sys_exec, over the file operations they call
      ([ExecOps]).  ExecPlan.v: what a program file and arguments ask for, as a
      function of the bytes of the file, and the contract of the file operations
      ([ExecStore]); ExecFacts.v and ExecRun.v: the address space at each stage;
      ExecClaims.v.
    - Traps.  Trap.v: trap.c with the descriptor tables of mmu.h, the dispatch of
      syscall.c and sysproc.c, over the
      process table of Proc.v; a trap that gives up the CPU is cut at the context
      switch, and resumed from the place in the code where it was.  The calls of
      sysfile.c and the handlers of the devices enter it as interfaces
      ([FileCalls], [TrapDevs]).  TrapClaims.v.
    - Machine.  Apic.v: lapic.c, ioapic.c and picirq.c.  Mp.v: mp.c, the search for
      the processors.  Boot.v: bootmain.c, the boot loader.
    - Console and programs.  Printf.v: printf.c and cprintf of console.c.
      Console.v: the rest of console.c and uart.c.  Kbd.v: kbd.c.  Grep.v: grep.c.
      Utils.v: wc.c and cat.c.  Umalloc.v: umalloc.c, over any sbrk that keeps its
      contract ([SbrkStore]), with UmallocFacts.v, UmallocRun.v and
      UmallocClaims.v.  Sh.v: the parser of sh.c over the text in memory,
      with ShLex.v, ShParse.v and ShSound.v (its tokens, its grammar, and that the
      parser decides it); ShRun.v: runcmd as the system calls of the processes
      of a line, and the loop of main; ShClaims.v.

    ** What the theorems show

    - Crash safety and files: after a crash at any block write of a commit, and
      crashes during recovery, the transaction is on the disk completely or not
      at all; the log never overflows; what writei stores readi returns, other
      files are untouched; discarding a file frees exactly its blocks; directory
      entries, path elements and inode and file reference counts are right
      under any sequence of calls; mkfs builds the file system that its
      arguments ask for, in the state that the theorems on fs.c start from.
    - Memory: address spaces are built, copied, grown, shrunk and freed with
      exactly the pages they should have; the kernel heap and the allocator of
      the user programs hand out disjoint areas and their calls return.
    - Concurrency: mutual exclusion, no lost wakeups, pipes as queues, the
      invariant of the process table, fork; sleep waits for its ticks and is
      woken in time; a killed process does not return to user mode.
    - Programs: exec gives the process exactly the image of the file with its
      arguments on the stack, or fails and changes nothing; sys_exec returns
      whatever the process passes.
    - Start and devices: the boot loader loads the kernel; the descriptor
      tables are well formed; the processors are found; the date read from the clock chip
      is one it showed.
    - Input and output: the console's line discipline, numbers and formats, the
      language of the pattern matcher.
    - The shell: the parser accepts exactly its grammar, and the processes of a
      line exec exactly its programs with the descriptors it asks for.

    Theorems that state a defect of the code: [heap_free_list_cycle] (Kheap.v),
    [malloc_overflow] and [realloc_failure_loses] (LiballocClaims.v),
    [full_log_panics] (LogClaims.v), [grep_loses_partial_line] (Grep.v),
    [kill_zero_kills_newborn] and [growproc_to_zero] (ProcClaims.v),
    [ulib_memmove_overlap] (Str.v), [copyout_no_table] (VmWrite.v),
    [malloc_wraps] (UmallocClaims.v), [mpinit_unknown_hangs] (Mp.v),
    [mkfs_root_hole] and [mk_ialloc_past_end] (MkfsClaims.v), [sleep_negative]
    (TrapClaims.v), [boot_rounding_overwrites] (Boot.v),
    [cd_cuts_last_character] and [long_line_splits] (ShRun.v).

    ** Bounds and fuel

    Loops that are not structural take a fuel argument.  Where the code has a
    bound (the pages of a range, the entries of a table, the bytes of a request)
    the fuel is computed from it and the theorems state that the result is
    reached.  The searches of the heap take the number of blocks and of
    allocations in a block, and [returns] quantifies over all larger fuel;
    [spin] stands for one attempt of acquire's loop, waiting is in the step
    relation.  Processes that sleep are resumed by the [_resume] definitions.

    ** Not modelled

    Assembly, the order of initialisation in main.c, the small user programs and
    the tests.  Hardware appears as state: the CPU's
    interrupt flag, the page table register, the registers of the disk, the
    serial port and the screen. *)

From Stdlib Require Import ZArith Lia.
From stdpp Require Import base numbers list strings.

#[global] Open Scope Z_scope.

Create HintDb xv6.
Create Rewrite HintDb xv6.

(** ** Machine integers *)

(** A C [uint] or pointer is a [Z] in [0, 2^32); arithmetic on it is written
    out with the wrap-around [u32].  [s32] and [s16] read a bit pattern as a C
    [int] or [short]. *)
Definition u32 (x : Z) : Z := x mod 4294967296.
Definition u16 (x : Z) : Z := x mod 65536.
Definition u8 (x : Z) : Z := x mod 256.

Definition s32 (x : Z) : Z :=
  let y := u32 x in if y <? 2147483648 then y else y - 4294967296.

Definition s16 (x : Z) : Z :=
  let y := u16 x in if y <? 32768 then y else y - 65536.

Definition is_u32 (x : Z) : Prop := 0 <= x < 4294967296.
Definition is_u8 (x : Z) : Prop := 0 <= x < 256.

Lemma u32_range x : 0 <= u32 x < 4294967296.
Proof. unfold u32. apply Z.mod_pos_bound. lia. Qed.

Lemma u32_small x : 0 <= x < 4294967296 → u32 x = x.
Proof. intros. unfold u32. apply Z.mod_small. lia. Qed.

Lemma u32_idem x : u32 (u32 x) = u32 x.
Proof. apply u32_small, u32_range. Qed.

Lemma u32_add_l x y : u32 (u32 x + y) = u32 (x + y).
Proof. unfold u32. apply Zplus_mod_idemp_l. Qed.

Lemma u32_add_r x y : u32 (x + u32 y) = u32 (x + y).
Proof. unfold u32. apply Zplus_mod_idemp_r. Qed.

Lemma u32_sub_l x y : u32 (u32 x - y) = u32 (x - y).
Proof. unfold u32. apply Zminus_mod_idemp_l. Qed.

Lemma u32_sub_r x y : u32 (x - u32 y) = u32 (x - y).
Proof. unfold u32. apply Zminus_mod_idemp_r. Qed.

Lemma u8_range x : 0 <= u8 x < 256.
Proof. unfold u8. apply Z.mod_pos_bound. lia. Qed.

Lemma u8_small x : 0 <= x < 256 → u8 x = x.
Proof. intros. unfold u8. apply Z.mod_small. lia. Qed.

Lemma s32_range x : -2147483648 <= s32 x < 2147483648.
Proof. unfold s32. pose proof (u32_range x) as H. case_match; lia. Qed.

Lemma s32_id x : -2147483648 <= x < 2147483648 → s32 x = x.
Proof.
  intros. unfold s32, u32. destruct (decide (0 <= x)).
  - rewrite Z.mod_small by lia. case_match; lia.
  - assert (x mod 4294967296 = x + 4294967296) as ->.
    { symmetry. apply Z.mod_unique with (q := -1); lia. }
    case_match; lia.
Qed.

#[export] Hint Resolve u32_range u8_range : xv6.
#[export] Hint Rewrite u32_idem u32_add_l u32_add_r u32_sub_l u32_sub_r : xv6.

(** [lia] with quotients and remainders by constants. *)
Ltac zlia := Z.to_euclidean_division_equations; lia.

(** [u32s] drops every wrap-around whose argument is provably in range. *)
Ltac u32s := repeat (rewrite u32_small by lia).

(** [zb] turns the boolean tests of the code, in the hypotheses, into the
    propositions they decide. *)
Ltac zb := repeat match goal with
  | H : _ && _ = true |- _ => apply andb_true_iff in H as [? ?]
  | H : _ && _ = false |- _ => apply andb_false_iff in H as [?|?]
  | H : _ || _ = true |- _ => apply orb_true_iff in H as [?|?]
  | H : _ || _ = false |- _ => apply orb_false_iff in H as [? ?]
  | H : negb _ = true |- _ => apply negb_true_iff in H
  | H : negb _ = false |- _ => apply negb_false_iff in H
  | H : (_ >? _) = _ |- _ => rewrite Z.gtb_ltb in H
  | H : (_ >=? _) = _ |- _ => rewrite Z.geb_leb in H
  | H : (_ <=? _) = true |- _ => apply Z.leb_le in H
  | H : (_ <=? _) = false |- _ => apply Z.leb_gt in H
  | H : (_ <? _) = true |- _ => apply Z.ltb_lt in H
  | H : (_ <? _) = false |- _ => apply Z.ltb_ge in H
  | H : (_ =? _) = true |- _ => apply Z.eqb_eq in H
  | H : (_ =? _) = false |- _ => apply Z.eqb_neq in H
  end.

(** [ztest b is v] replaces a comparison that arithmetic decides by its value. *)
Ltac zb_solve := first
  [ apply Z.eqb_eq; lia | apply Z.eqb_neq; lia | apply Z.leb_le; lia
  | apply Z.leb_gt; lia | apply Z.ltb_lt; lia | apply Z.ltb_ge; lia ].
Tactic Notation "ztest" constr(b) "is" constr(v) :=
  replace b with v by (symmetry; rewrite ?Z.gtb_ltb, ?Z.geb_leb; zb_solve).

(** Case analysis on a test of the goal, leaving the hypotheses alone. *)
Ltac case_if :=
  match goal with |- context [if ?b then _ else _] => destruct b eqn:? end; zb.

(** ** Bit masks on aligned values *)

Lemma land_low_zero a f k :
  0 <= k → a mod 2 ^ k = 0 → 0 <= f < 2 ^ k → Z.land a f = 0.
Proof.
  intros Hk Ha Hf. apply Z.bits_inj'. intros n Hn. rewrite Z.land_spec, Z.bits_0.
  destruct (decide (n < k)).
  - assert (Z.testbit a n = false) as ->; [|done].
    rewrite <- (Z.mod_pow2_bits_low a k n) by lia. by rewrite Ha, Z.bits_0.
  - assert (Z.testbit f n = false) as ->; [|by rewrite andb_false_r].
    rewrite <- (Z.mod_small f (2 ^ k)) by lia. by apply Z.mod_pow2_bits_high; lia.
Qed.

Lemma lor_low_add a f k :
  0 <= k → a mod 2 ^ k = 0 → 0 <= f < 2 ^ k → Z.lor a f = a + f.
Proof.
  intros. symmetry. apply Z.add_nocarry_lor. by eapply land_low_zero.
Qed.

(** The same with the power of two as a numeral [p]. *)
Lemma lor_add a f k p :
  p = 2 ^ k → 0 <= k → a mod p = 0 → 0 <= f < p → Z.lor a f = a + f.
Proof. intros ->. apply lor_low_add. Qed.

(** Clearing the low [k] bits of a value of at most [n] bits. *)
Lemma land_high_mask x k n :
  0 <= k <= n → 0 <= x < 2 ^ n →
  Z.land x (2 ^ n - 2 ^ k) = x - x mod 2 ^ k.
Proof.
  intros Hk Hx.
  assert (2 ^ n - 2 ^ k = Z.ldiff (Z.ones n) (Z.ones k)) as ->.
  { rewrite <- Z.sub_nocarry_ldiff.
    - rewrite !Z.ones_equiv. lia.
    - apply Z.bits_inj'. intros i Hi. rewrite Z.ldiff_spec, Z.bits_0.
      destruct (decide (i < k)).
      + rewrite (Z.ones_spec_low n i) by lia. by rewrite andb_false_r.
      + by rewrite (Z.ones_spec_high k i) by lia. }
  rewrite <- (Z.land_ones x k) by lia.
  rewrite Z.sub_nocarry_ldiff.
  - apply Z.bits_inj'. intros i Hi.
    rewrite Z.land_spec, !Z.ldiff_spec, Z.land_spec.
    destruct (decide (i < n)).
    + rewrite (Z.ones_spec_low n i) by lia. by destruct (Z.testbit x i), (Z.testbit (Z.ones k) i).
    + assert (Z.testbit x i = false) as ->; [|done].
      rewrite <- (Z.mod_small x (2 ^ n)) by lia. apply Z.mod_pow2_bits_high; lia.
  - apply Z.bits_inj'. intros i Hi. rewrite Z.ldiff_spec, Z.land_spec, Z.bits_0.
    by destruct (Z.testbit x i), (Z.testbit (Z.ones k) i).
Qed.

(** ** Outcomes of kernel code

    Kernel code either returns a value with the new state, calls [panic] with
    the source's message, dereferences a null pointer ([Fault]), puts the
    running process to sleep on a channel ([Sleep]), or exceeds the fuel of the
    model ([NoFuel], ruled out by the theorems that need it). *)
Inductive outcome (S A : Type) : Type :=
  | Done (a : A) (s : S)
  | Panic (msg : string)
  | Fault
  | Sleep (chan : Z) (s : S)
  | NoFuel.
Arguments Done {S A} a s.
Arguments Panic {S A} msg.
Arguments Fault {S A}.
Arguments Sleep {S A} chan s.
Arguments NoFuel {S A}.

Definition M (S A : Type) : Type := S → outcome S A.

Declare Scope xv6_scope.
Delimit Scope xv6_scope with xv6.
#[global] Open Scope xv6_scope.

Section monad.
Context {S : Type}.

Definition ret {A} (a : A) : M S A := λ s, Done a s.

Definition bind {A B} (m : M S A) (k : A → M S B) : M S B := λ s,
  match m s with
  | Done a s' => k a s'
  | Panic msg => Panic msg
  | Fault => Fault
  | Sleep c s' => Sleep c s'
  | NoFuel => NoFuel
  end.

Definition panic {A} (msg : string) : M S A := λ _, Panic msg.
Definition fault {A} : M S A := λ _, Fault.
Definition sleep_on {A} (chan : Z) : M S A := λ s, Sleep chan s.
Definition nofuel {A} : M S A := λ _, NoFuel.
Definition gets {A} (f : S → A) : M S A := λ s, Done (f s) s.
Definition modify (f : S → S) : M S unit := λ s, Done tt (f s).
Definition when (b : bool) (m : M S unit) : M S unit := if b then m else ret tt.

Lemma bind_Done {A B} (m : M S A) (k : A → M S B) s b s' :
  bind m k s = Done b s' ↔ ∃ a s1, m s = Done a s1 ∧ k a s1 = Done b s'.
Proof.
  unfold bind. split.
  - destruct (m s) as [a s1| | | |]; [eauto|discriminate..].
  - by intros (a & s1 & -> & Hk).
Qed.

Lemma bind_assoc {A B C} (m : M S A) (f : A → M S B) (g : B → M S C) s :
  bind (bind m f) g s = bind m (λ a, bind (f a) g) s.
Proof. unfold bind. by destruct (m s). Qed.

Lemma bind_run {A B} (m : M S A) (k : A → M S B) s a s' :
  m s = Done a s' → bind m k s = k a s'.
Proof. unfold bind. by intros ->. Qed.
End monad.

(** Running a component's code inside a larger state. *)
Definition lift {S T A} (get : S → T) (put : T → S → S) (m : M T A) : M S A := λ s,
  match m (get s) with
  | Done a t => Done a (put t s)
  | Panic msg => Panic msg
  | Fault => Fault
  | Sleep c t => Sleep c (put t s)
  | NoFuel => NoFuel
  end.

(** A spin lock as the CPU that runs the code sees it: [acquire] panics when
    this CPU holds the lock already, [release] when it does not ([Spinlock.v]
    models the per-CPU state behind the two and relates it to this view). *)
Definition acquire {S} (held : S → bool) (set_held : bool → S → S) : M S unit := λ s,
  if held s then Panic "acquire" else Done tt (set_held true s).

Definition release {S} (held : S → bool) (set_held : bool → S → S) : M S unit := λ s,
  if held s then Done tt (set_held false s) else Panic "release".

Notation "x <- m ;; k" := (bind m (λ x, k))
  (at level 100, m at next level, right associativity) : xv6_scope.
Notation "m ;;; k" := (bind m (λ _, k))
  (at level 100, right associativity) : xv6_scope.

(** [mrun] executes the monadic operations at the head of a run; [minv H]
    decomposes a hypothesis that a sequence of operations returned. *)
Ltac mrun := rewrite ?bind_assoc; cbn [bind ret panic fault sleep_on nofuel gets modify when lift acquire release negb].
Tactic Notation "mrun" "in" hyp(H) :=
  cbn [bind ret panic fault sleep_on nofuel gets modify when lift acquire release negb] in H.

(** [mcall H] replaces the next call of a run by its outcome [H : m s = Done a s']. *)
Ltac mcall H := rewrite ?bind_assoc; first [rewrite (bind_run _ _ _ _ _ H) | rewrite H]; mrun.

Lemma acquire_run {S} (held : S → bool) set_held s :
  held s = false → acquire held set_held s = Done tt (set_held true s).
Proof. unfold acquire. by intros ->. Qed.

Lemma release_run {S} (held : S → bool) set_held s :
  held s = true → release held set_held s = Done tt (set_held false s).
Proof. unfold release. by intros ->. Qed.

Ltac minv H :=
  mrun in H;
  repeat match type of H with
  | bind _ _ _ = Done _ _ =>
      let a := fresh "a" in let s := fresh "s" in
      let H1 := fresh "H" in
      apply bind_Done in H as (a & s & H1 & H); mrun in H; mrun in H1
  end.

(** [m2] gives the results of [m1]: more fuel does not change a result. *)
Definition below {S A : Type} (m1 m2 : M S A) : Prop := ∀ s a s', m1 s = Done a s' → m2 s = Done a s'.

Lemma below_refl {S A : Type} (m : M S A) : below m m.
Proof. by unfold below. Qed.
Lemma below_nofuel {S A : Type} (m : M S A) : below nofuel m.
Proof. by unfold below. Qed.
Lemma below_bind {S A B : Type} (m1 m2 : M S A) (k1 k2 : A → M S B) :
  below m1 m2 → (∀ a, below (k1 a) (k2 a)) → below (bind m1 k1) (bind m2 k2).
Proof.
  intros Hm Hk s a s'. unfold bind. destruct (m1 s) as [x t| | | |] eqn:E; try done. rewrite (Hm _ _ _ E). apply Hk.
Qed.

Create HintDb below.
#[export] Hint Resolve below_refl below_nofuel : below.
Ltac below := repeat first [solve [auto with below lia] | apply below_bind; [|intros ?] | case_match].

(** A call returns [a]: the model gives [a] with all large enough fuel. *)
Definition returns {S A : Type} (m : nat → M S A) (s : S) (a : A) (s' : S) : Prop :=
  ∃ F, ∀ fuel, (F <= fuel)%nat → m fuel s = Done a s'.

Lemma returns_det {S A : Type} (m : nat → M S A) s a s' b s'' : returns m s a s' → returns m s b s'' → a = b ∧ s' = s''.
Proof.
  intros (F & HF) (G & HG). specialize (HF (F + G)%nat ltac:(lia)). rewrite (HG (F + G)%nat) in HF by lia. by injection HF as -> ->.
Qed.

Lemma returns_pure {S A : Type} (m : M S A) s a s' : m s = Done a s' ↔ returns (λ _, m) s a s'.
Proof. split; [intros H; exists O; intros; exact H|]. intros (F & HF). by apply (HF F). Qed.

Lemma returns_bind {S A B : Type} (m : nat → M S A) (k : nat → A → M S B) s a s' b s'' :
  returns m s a s' → returns (λ f, k f a) s' b s'' → returns (λ f, bind (m f) (k f)) s b s''.
Proof.
  intros (F & HF) (G & HG). exists (F + G)%nat. intros f Hf. rewrite (bind_run _ _ _ _ _ (HF f ltac:(lia))). apply HG. lia.
Qed.

(** The state a run ends in, to chain runs on concrete states. *)
Definition state_after {S A} (s0 : S) (o : outcome S A) : S := match o with Done _ s => s | _ => s0 end.

Lemma state_after_Done {S A} (s0 : S) (o : outcome S A) a :
  match o with Done x _ => x = a | _ => False end → o = Done a (state_after s0 o).
Proof. by destruct o; [intros ->|..]. Qed.

(** Closing a decidable goal by computation. *)
Ltac vmdec := apply (bool_decide_unpack _); vm_compute; exact I.

(** ** Lists *)

(** [R] relates each element to all later ones. *)
Fixpoint pairwise {A : Type} (R : A → A → Prop) (l : list A) : Prop :=
  match l with [] => True | x :: l' => Forall (R x) l' ∧ pairwise R l' end.

Lemma pairwise_app {A : Type} (R : A → A → Prop) l1 l2 :
  pairwise R (l1 ++ l2) ↔ pairwise R l1 ∧ pairwise R l2 ∧ Forall (λ x, Forall (R x) l2) l1.
Proof. induction l1 as [|x l1 IH]; cbn; [rewrite Forall_nil; tauto|]. rewrite IH, Forall_app, Forall_cons. tauto. Qed.

#[export] Instance pairwise_proper {A : Type} (R : A → A → Prop) `{!Symmetric R} : Proper ((≡ₚ) ==> iff) (pairwise R).
Proof.
  assert (H : ∀ l l', l ≡ₚ l' → pairwise R l → pairwise R l').
  { induction 1 as [|x l l' Hl IH|x y l|l1 l2 l3 H1 IH1 H2 IH2]; cbn; [done|intros [H1 H2]; split; [by rewrite <- Hl|auto]| |tauto].
    rewrite !Forall_cons. intros ((Hy & H1) & H2 & H3). split_and!; [by symmetry|done|done|done]. }
  intros l l' Hl. split; by apply H.
Qed.

Lemma lookup_in_range {A} (l : list A) (i : nat) :
  (i < length l)%nat → ∃ x, l !! i = Some x.
Proof. intros H. apply lookup_lt_is_Some in H. destruct H as [x Hx]. eauto. Qed.

Lemma NoDup_app_cons_comm {A} (l1 l2 : list A) x :
  NoDup (l1 ++ x :: l2) ↔ (x ∉ (l1 ++ l2)) ∧ NoDup (l1 ++ l2).
Proof. rewrite <- Permutation_middle. apply NoDup_cons. Qed.

(** Adding one key to a partial function adds its value to the values listed. *)
Lemma omap_update {A} (f g : Z → option A) (xs : list Z) i u :
  NoDup xs → i ∈ xs → f i = None → g i = Some u → (∀ j, j ≠ i → g j = f j) →
  omap g xs ≡ₚ u :: omap f xs.
Proof.
  intros Hnd Hi Hf Hg Hne.
  assert (∀ l : list Z, i ∉ l → omap g l = omap f l) as Hom.
  { intros l Hnl. induction l as [|j l IH]; [done|]. apply not_elem_of_cons in Hnl as [Hj Hnl].
    cbn. by rewrite IH, Hne by congruence. }
  apply list_elem_of_split in Hi as (l1 & l2 & ->).
  apply NoDup_app_cons_comm in Hnd as [Hni _]. apply not_elem_of_app in Hni as [H1 H2].
  rewrite !omap_app. cbn [omap list_omap]. rewrite Hf, Hg, !Hom by done.
  by rewrite Permutation_middle.
Qed.

(** The values of an injective partial function are listed once each. *)
Lemma omap_NoDup {A} (f : Z → option A) (xs : list Z) :
  NoDup xs → (∀ i j u, f i = Some u → f j = Some u → i = j) → NoDup (omap f xs).
Proof.
  intros Hnd Hinj. induction Hnd as [|i xs Hi Hnd IH]; [constructor|].
  cbn. destruct (f i) as [u|] eqn:E; [|done]. constructor; [|done].
  intros (j & Hj & Hu)%list_elem_of_omap. by rewrite (Hinj _ _ _ E Hu) in Hi.
Qed.
