(* ===== verification/Mem.v ===== *)
(** * Byte-addressed memory

    The kernel's view of memory: a total function from addresses to bytes, with
    the little-endian 32-bit accesses of the i386 and the block operations
    [fill] and [blit] that [Str.v] shows to be what [memset] and [memmove]
    compute. *)

From Stdlib Require Import ZArith Lia.
From stdpp Require Import base numbers list.
From S2P Require Import Prelude.

Definition mem : Type := Z → Z.

Definition load8 (m : mem) (a : Z) : Z := m a.

Definition store8 (m : mem) (a v : Z) : mem := λ x, if x =? a then u8 v else m x.

Definition load32 (m : mem) (a : Z) : Z :=
  m a + 256 * m (a + 1) + 65536 * m (a + 2) + 16777216 * m (a + 3).

Definition store32 (m : mem) (a v : Z) : mem := λ x,
  if (a <=? x) && (x <? a + 4) then u8 (Z.shiftr v (8 * (x - a))) else m x.

Definition fill (m : mem) (d c n : Z) : mem := λ x,
  if (d <=? x) && (x <? d + n) then u8 c else m x.

Definition blit (m : mem) (d s n : Z) : mem := λ x,
  if (d <=? x) && (x <? d + n) then m (s + (x - d)) else m x.

(** Every cell holds a byte. *)
Definition mem_ok (m : mem) : Prop := ∀ a, 0 <= m a < 256.

(** [in_page p x]: address [x] lies in the page at [p]. *)
Definition in_page (p x : Z) : Prop := p <= x < p + 4096.

Ltac mem_case := repeat case_if; try lia.

Lemma store8_eq m a v : store8 m a v a = u8 v.
Proof. unfold store8. mem_case. Qed.

Lemma store8_ne m a v x : x ≠ a → store8 m a v x = m x.
Proof. unfold store8. mem_case. Qed.

Lemma store32_out m a v x : x < a ∨ a + 4 <= x → store32 m a v x = m x.
Proof. intros. unfold store32. mem_case. Qed.

Lemma fill_in m d c n x : d <= x < d + n → fill m d c n x = u8 c.
Proof. intros. unfold fill. mem_case. Qed.

Lemma fill_out m d c n x : x < d ∨ d + n <= x → fill m d c n x = m x.
Proof. intros. unfold fill. mem_case. Qed.

Lemma blit_in m d s n x : d <= x < d + n → blit m d s n x = m (s + (x - d)).
Proof. intros. unfold blit. mem_case. Qed.

Lemma blit_out m d s n x : x < d ∨ d + n <= x → blit m d s n x = m x.
Proof. intros. unfold blit. mem_case. Qed.

#[export] Hint Rewrite store8_eq : xv6.

Lemma mem_ok_store8 m a v : mem_ok m → mem_ok (store8 m a v).
Proof. intros H x. unfold store8. case_match; [apply u8_range|apply H]. Qed.

Lemma mem_ok_store32 m a v : mem_ok m → mem_ok (store32 m a v).
Proof. intros H x. unfold store32. case_match; [apply u8_range|apply H]. Qed.

Lemma mem_ok_fill m d c n : mem_ok m → mem_ok (fill m d c n).
Proof. intros H x. unfold fill. case_match; [apply u8_range|apply H]. Qed.

Lemma mem_ok_blit m d s n : mem_ok m → mem_ok (blit m d s n).
Proof. intros H x. unfold blit. case_match; apply H. Qed.

#[export] Hint Resolve mem_ok_store8 mem_ok_store32 mem_ok_fill mem_ok_blit : xv6.

Lemma load32_range m a : mem_ok m → 0 <= load32 m a < 4294967296.
Proof.
  intros H. unfold load32.
  pose proof (H a). pose proof (H (a + 1)). pose proof (H (a + 2)). pose proof (H (a + 3)). lia.
Qed.

(** Two memories that agree on a word hold the same word. *)
Lemma load32_ext m m' a :
  (∀ x, a <= x < a + 4 → m' x = m x) → load32 m' a = load32 m a.
Proof. intros H. unfold load32. by rewrite !H by lia. Qed.

Lemma load32_store32_eq m a v : 0 <= v < 4294967296 → load32 (store32 m a v) a = v.
Proof.
  intros Hv. unfold load32, store32, u8.
  repeat (rewrite (proj2 (Z.leb_le _ _)) by lia; rewrite (proj2 (Z.ltb_lt _ _)) by lia).
  cbn [andb].
  replace (a - a) with 0 by lia. replace (a + 1 - a) with 1 by lia.
  replace (a + 2 - a) with 2 by lia. replace (a + 3 - a) with 3 by lia.
  rewrite !Z.shiftr_div_pow2 by lia.
  change (2 ^ (8 * 0)) with 1. change (2 ^ (8 * 1)) with 256.
  change (2 ^ (8 * 2)) with 65536. change (2 ^ (8 * 3)) with 16777216.
  Z.to_euclidean_division_equations. lia.
Qed.

Lemma load32_store32_ne m a b v :
  b + 4 <= a ∨ a + 4 <= b → load32 (store32 m a v) b = load32 m b.
Proof. intros. apply load32_ext. intros. apply store32_out. lia. Qed.

Lemma load32_fill_out m d c n a :
  a + 4 <= d ∨ d + n <= a → load32 (fill m d c n) a = load32 m a.
Proof. intros. apply load32_ext. intros. apply fill_out. lia. Qed.

Lemma load32_fill_zero m d n a :
  d <= a → a + 4 <= d + n → load32 (fill m d 0 n) a = 0.
Proof. intros. unfold load32. by rewrite !fill_in by lia. Qed.

Lemma load32_blit_out m d s n a :
  a + 4 <= d ∨ d + n <= a → load32 (blit m d s n) a = load32 m a.
Proof. intros. apply load32_ext. intros. apply blit_out. lia. Qed.

(** The contents of a byte string of known length. *)
Definition bytes_at (m : mem) (a : Z) (n : nat) : list Z :=
  (λ i, m (a + Z.of_nat i)) <$> seq 0 n.

Lemma bytes_at_length m a n : length (bytes_at m a n) = n.
Proof. unfold bytes_at. by rewrite length_fmap, length_seq. Qed.

Lemma bytes_at_lookup m a n i :
  (i < n)%nat → bytes_at m a n !! i = Some (m (a + Z.of_nat i)).
Proof. intros. unfold bytes_at. rewrite list_lookup_fmap, lookup_seq_lt by lia. done. Qed.
