(* ===== verification/Str.v ===== *)
(** * string.c and the string half of ulib.c

    The memory and string routines, as loops over [mem], with the theorems that
    identify them with the block operations of [Mem.v]. *)

From Stdlib Require Import ZArith Lia.
From stdpp Require Import base numbers list.
From S2P Require Import Prelude Mem.

(** ** x86.h: the string instructions *)

Fixpoint stosb (m : mem) (addr data : Z) (cnt : nat) : mem :=
  match cnt with
  | O => m
  | S cnt' => stosb (store8 m addr data) (u32 (addr + 1)) data cnt'
  end.

Fixpoint stosl (m : mem) (addr data : Z) (cnt : nat) : mem :=
  match cnt with
  | O => m
  | S cnt' => stosl (store32 m addr data) (u32 (addr + 4)) data cnt'
  end.

(** ** string.c *)

Definition memset (m : mem) (dst c n : Z) : Z * mem :=
  if (Z.rem (s32 dst) 4 =? 0) && (n mod 4 =? 0) then
    let c := Z.land c 255 in
    (dst, stosl m dst (Z.lor (Z.lor (Z.lor (u32 (Z.shiftl c 24)) (Z.shiftl c 16))
                                    (Z.shiftl c 8)) c) (Z.to_nat (n / 4)))
  else (dst, stosb m dst c (Z.to_nat n)).

Fixpoint memcmp (m : mem) (s1 s2 : Z) (n : nat) : Z :=
  match n with
  | O => 0
  | S n' =>
      if negb (load8 m s1 =? load8 m s2) then load8 m s1 - load8 m s2
      else memcmp m (u32 (s1 + 1)) (u32 (s2 + 1)) n'
  end.

(** [while(n-- > 0) *--d = *--s] and [while(n-- > 0) *d++ = *s++]. *)
Fixpoint copy_backward (m : mem) (d s : Z) (n : nat) : mem :=
  match n with
  | O => m
  | S n' =>
      let d' := u32 (d - 1) in let s' := u32 (s - 1) in
      copy_backward (store8 m d' (load8 m s')) d' s' n'
  end.

Fixpoint copy_forward (m : mem) (d s : Z) (n : nat) : mem :=
  match n with
  | O => m
  | S n' => copy_forward (store8 m d (load8 m s)) (u32 (d + 1)) (u32 (s + 1)) n'
  end.

Definition memmove (m : mem) (dst src n : Z) : Z * mem :=
  if (src <? dst) && (u32 (src + n) >? dst) then
    (dst, copy_backward m (u32 (dst + n)) (u32 (src + n)) (Z.to_nat n))
  else (dst, copy_forward m dst src (Z.to_nat n)).

Definition memcpy (m : mem) (dst src n : Z) : Z * mem := memmove m dst src n.

Fixpoint strncmp (m : mem) (p q : Z) (n : nat) : Z :=
  match n with
  | O => 0
  | S n' =>
      if negb (load8 m p =? 0) && (load8 m p =? load8 m q)
      then strncmp m (u32 (p + 1)) (u32 (q + 1)) n'
      else load8 m p - load8 m q
  end.

(** The first loop of [strncpy]: the memory, the write pointer and the count
    left when it stops. *)
Fixpoint strncpy_copy (m : mem) (s t : Z) (n : nat) : mem * Z * nat :=
  match n with
  | O => (m, s, O)
  | S n' =>
      let c := load8 m t in
      let m' := store8 m s c in
      if c =? 0 then (m', u32 (s + 1), n')
      else strncpy_copy m' (u32 (s + 1)) (u32 (t + 1)) n'
  end.

Definition strncpy (m : mem) (s t n : Z) : Z * mem :=
  let '(m1, s1, n1) := strncpy_copy m s t (Z.to_nat n) in
  (s, stosb m1 s1 0 n1).

(** [while(--n > 0 && ( *s++ = *t++ ) != 0)]: the loop runs at most [n - 1] times. *)
Fixpoint safestrcpy_copy (m : mem) (s t : Z) (n : nat) : mem * Z :=
  match n with
  | O => (m, s)
  | S n' =>
      let c := load8 m t in
      let m' := store8 m s c in
      if c =? 0 then (m', u32 (s + 1))
      else safestrcpy_copy m' (u32 (s + 1)) (u32 (t + 1)) n'
  end.

Definition safestrcpy (m : mem) (s t n : Z) : Z * mem :=
  if n <=? 0 then (s, m)
  else let '(m1, s1) := safestrcpy_copy m s t (Z.to_nat (n - 1)) in
       (s, store8 m1 s1 0).

Fixpoint strlen_loop (fuel : nat) (m : mem) (s n : Z) : option Z :=
  match fuel with
  | O => None
  | S fuel' => if load8 m (u32 (s + n)) =? 0 then Some n
               else strlen_loop fuel' m s (s32 (n + 1))
  end.

Definition strlen (fuel : nat) (m : mem) (s : Z) : option Z := strlen_loop fuel m s 0.

(** ** ulib.c *)

Fixpoint strcpy (fuel : nat) (m : mem) (s t : Z) : option mem :=
  match fuel with
  | O => None
  | S fuel' =>
      let c := load8 m t in
      let m' := store8 m s c in
      if c =? 0 then Some m' else strcpy fuel' m' (u32 (s + 1)) (u32 (t + 1))
  end.

Fixpoint strcmp (fuel : nat) (m : mem) (p q : Z) : option Z :=
  match fuel with
  | O => None
  | S fuel' =>
      if negb (load8 m p =? 0) && (load8 m p =? load8 m q)
      then strcmp fuel' m (u32 (p + 1)) (u32 (q + 1))
      else Some (load8 m p - load8 m q)
  end.

Definition ulib_memset (m : mem) (dst c n : Z) : Z * mem :=
  (dst, stosb m dst c (Z.to_nat n)).

(** [Some 0] is the null pointer the source returns when the byte is absent. *)
Fixpoint strchr (fuel : nat) (m : mem) (s c : Z) : option Z :=
  match fuel with
  | O => None
  | S fuel' =>
      if load8 m s =? 0 then Some 0
      else if load8 m s =? c then Some s
      else strchr fuel' m (u32 (s + 1)) c
  end.

Fixpoint atoi_loop (fuel : nat) (m : mem) (s n : Z) : option Z :=
  match fuel with
  | O => None
  | S fuel' =>
      if (48 <=? load8 m s) && (load8 m s <=? 57)
      then atoi_loop fuel' m (u32 (s + 1)) (s32 (n * 10 + load8 m s - 48))
      else Some n
  end.

Definition atoi (fuel : nat) (m : mem) (s : Z) : option Z := atoi_loop fuel m s 0.

Definition ulib_memmove (m : mem) (vdst vsrc n : Z) : Z * mem :=
  (vdst, copy_forward m vdst vsrc (Z.to_nat n)).

(** ** The loops compute the block operations *)

Lemma stosb_spec n : ∀ m a c x,
  0 <= a → a + Z.of_nat n <= 4294967296 →
  stosb m a c n x = fill m a c (Z.of_nat n) x.
Proof.
  induction n as [|n IH]; intros m a c x Ha Hn; cbn [stosb].
  - unfold fill. mem_case.
  - destruct (decide (n = O)) as [->|Hn0].
    + cbn. unfold store8, fill. mem_case.
    + rewrite u32_small, IH by lia. unfold fill, store8. mem_case.
Qed.

Lemma stosl_spec n : ∀ m a w x,
  0 <= a → a + 4 * Z.of_nat n <= 4294967296 →
  stosl m a w n x =
    if (a <=? x) && (x <? a + 4 * Z.of_nat n)
    then u8 (Z.shiftr w (8 * ((x - a) mod 4))) else m x.
Proof.
  induction n as [|n IH]; intros m a w x Ha Hn; cbn [stosl].
  - mem_case.
  - assert (∀ y, store32 m a w y =
      if (a <=? y) && (y <? a + 4) then u8 (Z.shiftr w (8 * ((y - a) mod 4))) else m y) as Hs.
    { intros y. unfold store32. case_match; [|done]. by rewrite Z.mod_small by lia. }
    destruct (decide (n = O)) as [->|Hn0].
    + cbn [stosl]. rewrite Hs. mem_case; done.
    + rewrite u32_small, IH, Hs by lia.
      assert ((x - (a + 4)) mod 4 = (x - a) mod 4) as ->.
      { replace (x - a) with (x - (a + 4) + 1 * 4) by lia. by rewrite Z_mod_plus_full. }
      mem_case; done.
Qed.

(** The byte replicated in a word is the byte at each of its positions. *)
Lemma replicated_byte c i :
  0 <= c < 256 → 0 <= i < 4 →
  u8 (Z.shiftr (Z.lor (Z.lor (Z.lor (u32 (Z.shiftl c 24)) (Z.shiftl c 16))
                             (Z.shiftl c 8)) c) (8 * i)) = c.
Proof.
  intros Hc Hi. rewrite !Z.shiftl_mul_pow2 by lia.
  change (2 ^ 24) with 16777216. change (2 ^ 16) with 65536. change (2 ^ 8) with 256.
  rewrite u32_small by lia.
  rewrite (lor_add (c * 16777216) (c * 65536) 24 16777216) by (done || zlia).
  rewrite (lor_add (c * 16777216 + c * 65536) (c * 256) 16 65536) by (done || zlia).
  rewrite (lor_add (c * 16777216 + c * 65536 + c * 256) c 8 256) by (done || zlia).
  rewrite Z.shiftr_div_pow2 by lia. unfold u8.
  assert (i = 0 ∨ i = 1 ∨ i = 2 ∨ i = 3) as [-> | [-> | [-> | ->]]] by lia;
    cbn; zlia.
Qed.

Lemma memset_spec m dst c n x :
  0 <= dst → 0 <= n → dst + n <= 4294967296 →
  (memset m dst c n).2 x = fill m dst c n x.
Proof.
  intros Hd Hn Hb. unfold memset. case_match eqn:E; cbn [snd].
  - apply andb_true_iff in E as [_ E%Z.eqb_eq].
    rewrite stosl_spec by zlia.
    rewrite Z2Nat.id by zlia. replace (4 * (n / 4)) with n by zlia.
    unfold fill. case_match; [|done].
    assert (Z.land c 255 = u8 c) as ->.
    { change 255 with (Z.ones 8). by rewrite Z.land_ones by lia. }
    apply replicated_byte; [apply u8_range|zlia].
  - rewrite stosb_spec by lia. by rewrite Z2Nat.id by lia.
Qed.

Lemma copy_forward_spec n : ∀ m d s x,
  mem_ok m → 0 <= d → 0 <= s →
  d + Z.of_nat n <= 4294967296 → s + Z.of_nat n <= 4294967296 →
  d <= s ∨ s + Z.of_nat n <= d →
  copy_forward m d s n x = blit m d s (Z.of_nat n) x.
Proof.
  induction n as [|n IH]; intros m d s x Hm Hd Hs Hdn Hsn Ho; cbn [copy_forward].
  - unfold blit. mem_case.
  - assert (∀ y, store8 m d (load8 m s) y = if y =? d then m s else m y) as Hst.
    { intros y. unfold store8, load8. case_match; [|done]. apply u8_small, Hm. }
    destruct (decide (n = O)) as [->|Hn0].
    + cbn [copy_forward]. rewrite Hst. unfold blit. mem_case; f_equal; lia.
    + rewrite !u32_small by lia. rewrite IH; [|auto with xv6|lia..].
      unfold blit. rewrite !Hst. mem_case; f_equal; lia.
Qed.

Lemma copy_backward_spec n : ∀ m d s x,
  mem_ok m → Z.of_nat n <= d <= 4294967295 → Z.of_nat n <= s <= 4294967295 →
  s <= d →
  copy_backward m d s n x = blit m (d - Z.of_nat n) (s - Z.of_nat n) (Z.of_nat n) x.
Proof.
  induction n as [|n IH]; intros m d s x Hm Hd Hs Ho; cbn [copy_backward].
  - unfold blit. mem_case.
  - rewrite !u32_small by lia.
    assert (∀ y, store8 m (d - 1) (load8 m (s - 1)) y = if y =? d - 1 then m (s - 1) else m y) as Hst.
    { intros y. unfold store8, load8. case_match; [|done]. apply u8_small, Hm. }
    rewrite IH; [|auto with xv6|lia..].
    unfold blit. rewrite !Hst. mem_case; f_equal; lia.
Qed.

Lemma memmove_spec m dst src n x :
  mem_ok m → 0 <= dst → 0 <= src → 0 <= n →
  dst + n < 4294967296 → src + n < 4294967296 →
  (memmove m dst src n).2 x = blit m dst src n x.
Proof.
  intros Hm Hd Hs Hn Hdn Hsn. unfold memmove.
  rewrite !(u32_small (_ + n)) by lia.
  case_match eqn:E; cbn [snd].
  - rewrite copy_backward_spec by (done || lia).
    rewrite Z2Nat.id by lia. f_equal; lia.
  - rewrite copy_forward_spec by (done || lia). by rewrite Z2Nat.id by lia.
Qed.

(** ** Strings *)

(** The first [n] bytes at [t] hold no NUL. *)
Fixpoint nulfree (m : mem) (t : Z) (n : nat) : bool :=
  match n with
  | O => true
  | S n' => negb (m t =? 0) && nulfree m (t + 1) n'
  end.

Lemma nulfree_spec m n : ∀ t,
  nulfree m t n = true ↔ ∀ i, 0 <= i < Z.of_nat n → m (t + i) ≠ 0.
Proof.
  induction n as [|n IH]; intros t; cbn [nulfree].
  - split; [lia|done].
  - rewrite andb_true_iff, IH, negb_true_iff, Z.eqb_neq. split.
    + intros [H0 H1] i Hi. destruct (decide (i = 0)) as [->|]; [by rewrite Z.add_0_r|].
      replace (t + i) with (t + 1 + (i - 1)) by lia. apply H1. lia.
    + intros H. split.
      * rewrite <- (Z.add_0_r t). apply H. lia.
      * intros i Hi. replace (t + 1 + i) with (t + (1 + i)) by lia. apply H. lia.
Qed.

Lemma nulfree_ext m m' n : ∀ t,
  (∀ i, 0 <= i < Z.of_nat n → m' (t + i) = m (t + i)) → nulfree m' t n = nulfree m t n.
Proof.
  induction n as [|n IH]; intros t H; cbn [nulfree]; [done|].
  rewrite (IH (t + 1)).
  - specialize (H 0). rewrite Z.add_0_r in H. by rewrite H by lia.
  - intros i Hi. replace (t + 1 + i) with (t + (1 + i)) by lia. apply H. lia.
Qed.

Lemma strncmp_zero m n : ∀ p q,
  0 <= p → p + Z.of_nat n <= 4294967296 → 0 <= q → q + Z.of_nat n <= 4294967296 →
  strncmp m p q n = 0 ↔
  ∀ i, 0 <= i < Z.of_nat n → nulfree m p (Z.to_nat i) = true → m (p + i) = m (q + i).
Proof.
  induction n as [|n IH]; intros p q Hp Hpn Hq Hqn; cbn [strncmp].
  { split; [lia|done]. }
  unfold load8. case_match eqn:E.
  - zb. destruct (decide (n = O)) as [->|Hn0].
    { cbn [strncmp]. split; [|done]. intros _ i Hi _. replace i with 0 by lia. by rewrite !Z.add_0_r. }
    rewrite !u32_small, IH by lia. split.
    + intros Hall i Hi Hnf. destruct (decide (i = 0)) as [->|]; [by rewrite !Z.add_0_r|].
      replace (p + i) with (p + 1 + (i - 1)) by lia.
      replace (q + i) with (q + 1 + (i - 1)) by lia. apply Hall; [lia|].
      replace (Z.to_nat i) with (S (Z.to_nat (i - 1))) in Hnf by lia.
      cbn [nulfree] in Hnf. by apply andb_true_iff in Hnf as [_ Hnf].
    + intros Hall i Hi Hnf. replace (p + 1 + i) with (p + (i + 1)) by lia.
      replace (q + 1 + i) with (q + (i + 1)) by lia. apply Hall; [lia|].
      replace (Z.to_nat (i + 1)) with (S (Z.to_nat i)) by lia. cbn [nulfree].
      rewrite Hnf, andb_true_r. by apply negb_true_iff, Z.eqb_neq.
  - split.
    + intros Heq i Hi Hnf. destruct (decide (i = 0)) as [->|]; [rewrite !Z.add_0_r; lia|].
      exfalso. replace (Z.to_nat i) with (S (Z.to_nat (i - 1))) in Hnf by lia.
      cbn [nulfree] in Hnf. zb; lia.
    + intros Hall. specialize (Hall 0). rewrite !Z.add_0_r in Hall.
      rewrite Hall by (done || lia). lia.
Qed.

Lemma strncpy_copy_spec n : ∀ m s t m1 s1 n1,
  mem_ok m → 0 <= s → 0 <= t → s + Z.of_nat n < 4294967296 → t + Z.of_nat n < 4294967296 →
  s + Z.of_nat n <= t ∨ t + Z.of_nat n <= s →
  strncpy_copy m s t n = (m1, s1, n1) →
  s1 = s + Z.of_nat n - Z.of_nat n1 ∧ (n1 <= n)%nat ∧
  (∀ x, x < s ∨ s1 <= x → m1 x = m x) ∧
  (∀ i, 0 <= i < s1 - s → m1 (s + i) = m (t + i) ∧ nulfree m t (Z.to_nat i) = true) ∧
  (n1 = O ∨ (s < s1 ∧ m (t + (s1 - s - 1)) = 0)).
Proof.
  induction n as [|n IH]; intros m s t m1 s1 n1 Hm Hs Ht Hsn Htn Hd H; cbn [strncpy_copy] in H.
  { simplify_eq. split_and!; auto; lia. }
  unfold load8 in H. rewrite !u32_small in H by lia.
  assert (Hst : ∀ y, store8 m s (m t) y = if y =? s then m t else m y).
  { intros y. unfold store8. case_if; [|done]. apply u8_small, Hm. }
  case_match eqn:E; zb.
  - simplify_eq. split_and!; [lia..| | |].
    + intros x Hx. rewrite Hst. mem_case.
    + intros i Hi. replace i with 0 by lia. rewrite !Z.add_0_r, Hst. split; [mem_case|done].
    + right. split; [lia|]. by replace (t + (s + 1 - s - 1)) with t by lia.
  - apply IH in H as (Hs1 & Hn1 & Hout & Hin & Hend); [|auto with xv6|lia..].
    split_and!; [lia..| | |].
    + intros x Hx. rewrite Hout, Hst by lia. mem_case.
    + intros i Hi. destruct (decide (i = 0)) as [->|].
      * rewrite !Z.add_0_r, Hout, Hst by lia. split; [mem_case|done].
      * destruct (Hin (i - 1)) as [Hv Hnf]; [lia|].
        replace (s + 1 + (i - 1)) with (s + i) in Hv by lia.
        replace (t + 1 + (i - 1)) with (t + i) in Hv by lia.
        rewrite Hst in Hv. split; [rewrite Hv; mem_case|].
        replace (Z.to_nat i) with (S (Z.to_nat (i - 1))) by lia. cbn [nulfree].
        apply andb_true_iff. split; [by apply negb_true_iff, Z.eqb_neq|].
        rewrite <- Hnf. symmetry. apply nulfree_ext. intros j Hj. rewrite Hst. mem_case.
    + destruct Hend as [?|[? Hz]]; [by left|]. right. split; [lia|].
      rewrite Hst in Hz. replace (t + 1 + (s1 - (s + 1) - 1)) with (t + (s1 - s - 1)) in Hz by lia.
      case_match; zb; [lia|done].
Qed.

Lemma safestrcpy_copy_eq n : ∀ m s t, safestrcpy_copy m s t n = (strncpy_copy m s t n).1.
Proof. induction n as [|n IH]; intros; cbn; [done|]. case_if; [done|apply IH]. Qed.

(** Claims *)

(** [memset], by words when destination and length are aligned and by bytes
    otherwise, returns its destination and leaves exactly the bytes
    [dst .. dst+n-1] equal to the low byte of [c], all others unchanged. *)
Theorem memset_fills m dst c n :
  0 <= dst → 0 <= n → dst + n <= 4294967296 →
  (memset m dst c n).1 = dst ∧
  ∀ x, (memset m dst c n).2 x = if decide (dst <= x < dst + n) then u8 c else m x.
Proof.
  intros. split; [unfold memset; by case_if|]. intros x. rewrite memset_spec by lia.
  unfold fill. repeat case_decide; mem_case.
Qed.

(** [memmove] copies [n] bytes between possibly overlapping regions: every
    destination byte is the source byte before the call, whatever the overlap,
    and no byte outside the destination changes. *)
Theorem memmove_copies m dst src n :
  mem_ok m → 0 <= dst → 0 <= src → 0 <= n →
  dst + n < 4294967296 → src + n < 4294967296 →
  (∀ i, 0 <= i < n → (memmove m dst src n).2 (dst + i) = m (src + i)) ∧
  (∀ x, x < dst ∨ dst + n <= x → (memmove m dst src n).2 x = m x).
Proof.
  intros. split.
  - intros i Hi. rewrite memmove_spec, blit_in by (done || lia). f_equal; lia.
  - intros x Hx. rewrite memmove_spec, blit_out by (done || lia). done.
Qed.

(** An overlapping copy, upwards by two, of the bytes 10, 11, 12, 13. *)
Lemma memmove_copies_witness :
  (memmove (λ x, x mod 256) 12 10 4).2 15 = 13.
Proof.
  destruct (memmove_copies (λ x, x mod 256) 12 10 4) as [H _]; try lia.
  - intros a. apply u8_range.
  - apply (H 3). lia.
Defined.

(** [strncmp] returns 0 exactly when the two strings agree on their first
    [n] bytes, or up to and including the first NUL of the first string. *)
Theorem strncmp_zero_iff m p q n :
  0 <= p → p + Z.of_nat n <= 4294967296 → 0 <= q → q + Z.of_nat n <= 4294967296 →
  strncmp m p q n = 0 ↔
  ∀ i, 0 <= i < Z.of_nat n → (∀ j, 0 <= j < i → m (p + j) ≠ 0) → m (p + i) = m (q + i).
Proof.
  intros. rewrite strncmp_zero by lia.
  split; intros Hall i Hi Hnf; apply Hall; try done.
  - apply nulfree_spec. intros j Hj. apply Hnf. lia.
  - intros j Hj. by apply (proj1 (nulfree_spec m (Z.to_nat i) p) Hnf); lia.
Qed.

(** [strncpy] writes exactly [n] bytes: the source up to its first NUL and
    zeros from there on (so no terminator when the first [n] bytes of the source
    hold no NUL); no other byte changes. *)
Lemma strncpy_pads m s t n :
  mem_ok m → 0 <= s → 0 <= t → 0 <= n → s + n < 4294967296 → t + n < 4294967296 →
  s + n <= t ∨ t + n <= s →
  (∀ i, 0 <= i < n →
     (strncpy m s t n).2 (s + i) = if nulfree m t (Z.to_nat i) then m (t + i) else 0) ∧
  (∀ x, x < s ∨ s + n <= x → (strncpy m s t n).2 x = m x).
Proof.
  intros Hm Hs Ht Hn Hsn Htn Hd. unfold strncpy.
  destruct (strncpy_copy m s t (Z.to_nat n)) as [[m1 s1] n1] eqn:E. cbn [snd].
  apply strncpy_copy_spec in E as (Hs1 & Hn1 & Hout & Hin & Hend); [|done || lia..].
  split.
  - intros i Hi. rewrite stosb_spec by lia. destruct (decide (s + i < s1)).
    + rewrite fill_out by lia. destruct (Hin i) as [-> ->]; [lia|done].
    + rewrite fill_in by lia. destruct (nulfree m t (Z.to_nat i)) eqn:Hnf; [|done].
      exfalso. destruct Hend as [->|[? Hz]]; [lia|].
      apply (proj1 (nulfree_spec _ _ _) Hnf (s1 - s - 1)); [lia|done].
  - intros x Hx. rewrite stosb_spec, fill_out, Hout by lia. done.
Qed.

(** [safestrcpy] always leaves a NUL-terminated string within the [n] bytes
    of the destination: the longest prefix of the source that fits in [n - 1]
    bytes; it writes nothing outside the destination. *)
Theorem safestrcpy_terminates m s t n :
  mem_ok m → 0 <= s → 0 <= t → 0 < n → s + n < 4294967296 → t + n < 4294967296 →
  s + n <= t ∨ t + n <= s →
  let m' := (safestrcpy m s t n).2 in
  (∃ k, 0 <= k < n ∧ m' (s + k) = 0 ∧ (k = n - 1 ∨ m (t + k) = 0) ∧
        ∀ i, 0 <= i < k → m' (s + i) = m (t + i) ∧ m (t + i) ≠ 0) ∧
  (∀ x, x < s ∨ s + n <= x → m' x = m x).
Proof.
  intros Hm Hs Ht Hn Hsn Htn Hd m'. unfold m', safestrcpy.
  replace (n <=? 0) with false by lia. rewrite safestrcpy_copy_eq.
  destruct (strncpy_copy m s t (Z.to_nat (n - 1))) as [[m1 s1] n1] eqn:E. cbn [fst snd].
  apply strncpy_copy_spec in E as (Hs1 & Hn1 & Hout & Hin & Hend); [|done || lia..].
  split.
  - destruct (decide (s < s1 ∧ m (t + (s1 - s - 1)) = 0)) as [[Hlt Hz]|Hnz].
    + exists (s1 - s - 1). split_and!; [lia..| |by right|].
      * rewrite store8_ne by lia. by destruct (Hin (s1 - s - 1)) as [-> _]; [lia|].
      * intros i Hi. rewrite store8_ne by lia. destruct (Hin i) as [-> _]; [lia|]. split; [done|].
        destruct (Hin (s1 - s - 1)) as [_ Hnf]; [lia|].
        apply (proj1 (nulfree_spec _ _ _) Hnf). lia.
    + destruct Hend as [->|?]; [|done]. exists (n - 1). split_and!; [lia..| |by left|].
      { replace (s + (n - 1)) with s1 by lia. by autorewrite with xv6. }
      intros i Hi. rewrite store8_ne by lia. destruct (Hin i) as [-> _]; [lia|]. split; [done|].
      destruct (Hin (n - 2)) as [_ Hnf]; [lia|]. destruct (decide (i = s1 - s - 1)) as [->|].
      * intros Hz. apply Hnz. split; [lia|done].
      * apply (proj1 (nulfree_spec _ _ _) Hnf). lia.
  - intros x Hx. rewrite store8_ne, Hout by lia. done.
Qed.

Lemma safestrcpy_terminates_witness :
  (safestrcpy (λ _, 65) 200 100 16).2 216 = 65 ∧ (safestrcpy (λ _, 65) 200 100 16).2 199 = 65.
Proof.
  destruct (safestrcpy_terminates (λ _, 65) 200 100 16) as [_ H]; try lia.
  - intros a. lia.
  - split; apply H; lia.
Defined.

Lemma strlen_loop_spec k : ∀ fuel m s n,
  (k < fuel)%nat → 0 <= n → n + Z.of_nat k < 2147483648 →
  0 <= s → s + n + Z.of_nat k < 4294967296 →
  nulfree m (s + n) k = true → m (s + n + Z.of_nat k) = 0 →
  strlen_loop fuel m s n = Some (n + Z.of_nat k).
Proof.
  induction k as [|k IH]; intros fuel m s n Hf Hn Hb Hs Hsb Hnf Hz;
    (destruct fuel as [|fuel]; [lia|]); cbn [strlen_loop]; unfold load8; rewrite u32_small by lia.
  - replace (s + n + Z.of_nat 0) with (s + n) in Hz by lia. rewrite Hz. f_equal; lia.
  - cbn [nulfree] in Hnf. zb. case_if; [lia|].
    rewrite s32_id by lia. rewrite IH; [f_equal; lia|lia..| |].
    + by replace (s + (n + 1)) with (s + n + 1) by lia.
    + by replace (s + (n + 1) + Z.of_nat k) with (s + n + Z.of_nat (S k)) by lia.
Qed.

(** [strlen] terminates on every NUL-terminated string shorter than 2^31
    bytes and returns the distance to its first NUL. *)
Theorem strlen_length m s k fuel :
  0 <= s → Z.of_nat k < 2147483648 → s + Z.of_nat k < 4294967296 →
  (∀ i, 0 <= i < Z.of_nat k → m (s + i) ≠ 0) → m (s + Z.of_nat k) = 0 → (k < fuel)%nat →
  strlen fuel m s = Some (Z.of_nat k).
Proof.
  intros. unfold strlen. rewrite (strlen_loop_spec k); try lia; rewrite ?Z.add_0_r.
  - done.
  - by apply nulfree_spec.
  - done.
Qed.

(** The [memmove] of ulib.c always copies upwards: moving the bytes 10..13
    up by two smears the first two of them, where the kernel's [memmove] copies
    correctly. *)
Theorem ulib_memmove_overlap :
  let m := λ x, x mod 256 in
  (bytes_at (ulib_memmove m 12 10 4).2 12 4, bytes_at (memmove m 12 10 4).2 12 4)
  = ([10; 11; 10; 11], [10; 11; 12; 13]).
Proof. vm_compute. reflexivity. Qed.
