(* ===== verification/Mmu.v ===== *)
(** * mmu.h and memlayout.h: the i386 paging constants and macros

    Page-directory and page-table indices, rounding, page-table entries and the
    kernel's direct map, each written with the bit operations of the header, and
    the arithmetic they amount to. *)

From Stdlib Require Import ZArith Lia.
From stdpp Require Import base numbers list.
From S2P Require Import Prelude.

(** memlayout.h *)
Definition EXTMEM : Z := 0x100000.
Definition PHYSTOP : Z := 0xE000000.
Definition DEVSPACE : Z := 0xFE000000.
Definition KERNBASE : Z := 0x80000000.
Definition KERNLINK : Z := KERNBASE + EXTMEM.
Definition V2P (a : Z) : Z := u32 (u32 a - KERNBASE).
Definition P2V (a : Z) : Z := u32 (a + KERNBASE).

(** mmu.h *)
Definition NPDENTRIES : Z := 1024.
Definition PGSIZE : Z := 4096.
Definition PTXSHIFT : Z := 12.
Definition PDXSHIFT : Z := 22.
Definition PDX (va : Z) : Z := Z.land (Z.shiftr (u32 va) PDXSHIFT) 0x3FF.
Definition PTX (va : Z) : Z := Z.land (Z.shiftr (u32 va) PTXSHIFT) 0x3FF.
Definition PGADDR (d t o : Z) : Z :=
  u32 (Z.lor (Z.lor (Z.shiftl d PDXSHIFT) (Z.shiftl t PTXSHIFT)) o).
Definition PGROUNDUP (sz : Z) : Z := Z.land (u32 (sz + PGSIZE - 1)) 0xFFFFF000.
Definition PGROUNDDOWN (a : Z) : Z := Z.land a 0xFFFFF000.
Definition PTE_P : Z := 1.
Definition PTE_W : Z := 2.
Definition PTE_U : Z := 4.
Definition PTE_PS : Z := 128.
Definition PTE_ADDR (pte : Z) : Z := Z.land (u32 pte) 0xFFFFF000.
Definition PTE_FLAGS (pte : Z) : Z := Z.land (u32 pte) 0xFFF.

(** [pte & PTE_P] as the tests of the code read it. *)
Definition present (pte : Z) : bool := negb (Z.land pte PTE_P =? 0).
Definition user_ok (pte : Z) : bool := negb (Z.land pte PTE_U =? 0).

(** The layout constants as numbers. *)
Ltac kconst := unfold KERNLINK, EXTMEM, PHYSTOP, DEVSPACE, KERNBASE in *.

Lemma page_mask x : 0 <= x < 4294967296 → Z.land x 0xFFFFF000 = x - x mod 4096.
Proof. intros. by apply (land_high_mask x 12 32). Qed.

Lemma PDX_div va : 0 <= va < 4294967296 → PDX va = va / 4194304.
Proof.
  intros. unfold PDX, PDXSHIFT. rewrite u32_small, Z.shiftr_div_pow2 by lia.
  change 0x3FF with (Z.ones 10). rewrite Z.land_ones by lia.
  change (2 ^ 22) with 4194304. change (2 ^ 10) with 1024. apply Z.mod_small. zlia.
Qed.

Lemma PTX_div va : 0 <= va < 4294967296 → PTX va = (va / 4096) mod 1024.
Proof.
  intros. unfold PTX, PTXSHIFT. rewrite u32_small, Z.shiftr_div_pow2 by lia.
  change 0x3FF with (Z.ones 10). by rewrite Z.land_ones by lia.
Qed.

Lemma PDX_range va : 0 <= PDX va < 1024.
Proof.
  unfold PDX. change 0x3FF with (Z.ones 10). rewrite Z.land_ones by lia.
  apply Z.mod_pos_bound. lia.
Qed.

Lemma PTX_range va : 0 <= PTX va < 1024.
Proof.
  unfold PTX. change 0x3FF with (Z.ones 10). rewrite Z.land_ones by lia.
  apply Z.mod_pos_bound. lia.
Qed.

Lemma PGROUNDDOWN_eq a : 0 <= a < 4294967296 → PGROUNDDOWN a = a - a mod 4096.
Proof. apply page_mask. Qed.

Lemma PGROUNDUP_eq a :
  0 <= a → a + 4095 < 4294967296 → PGROUNDUP a = (a + 4095) - (a + 4095) mod 4096.
Proof.
  intros. unfold PGROUNDUP, PGSIZE. replace (a + 4096 - 1) with (a + 4095) by lia.
  rewrite u32_small by lia. apply page_mask. lia.
Qed.

Lemma V2P_eq a : KERNBASE <= a < 4294967296 → V2P a = a - KERNBASE.
Proof. unfold V2P, KERNBASE. intros. rewrite (u32_small a), u32_small by lia. done. Qed.

Lemma V2P_range a : 0 <= V2P a < 4294967296.
Proof. unfold V2P, u32. zlia. Qed.

Lemma P2V_eq a : 0 <= a < KERNBASE → P2V a = a + KERNBASE.
Proof. unfold P2V, KERNBASE. intros. u32s. done. Qed.

(** A page-table entry made of a page address and flags, taken apart again. *)
Lemma pte_lor pa f : pa mod 4096 = 0 → 0 <= f < 4096 → Z.lor pa f = pa + f.
Proof. intros. by apply (lor_add pa f 12 4096). Qed.

Lemma PTE_ADDR_add pa f :
  0 <= pa < 4294967296 → pa mod 4096 = 0 → 0 <= f < 4096 → PTE_ADDR (pa + f) = pa.
Proof.
  intros. unfold PTE_ADDR. rewrite u32_small by zlia. rewrite page_mask by zlia. zlia.
Qed.

Lemma PTE_FLAGS_add pa f :
  0 <= pa < 4294967296 → pa mod 4096 = 0 → 0 <= f < 4096 → PTE_FLAGS (pa + f) = f.
Proof.
  intros. unfold PTE_FLAGS. rewrite u32_small by zlia.
  change 0xFFF with (Z.ones 12). rewrite Z.land_ones by lia. change (2 ^ 12) with 4096. zlia.
Qed.

Lemma present_mod pte : present pte = (pte mod 2 =? 1).
Proof.
  unfold present, PTE_P. change 1 with (Z.ones 1) at 1. rewrite Z.land_ones by lia.
  change (2 ^ 1) with 2. pose proof (Z.mod_pos_bound pte 2).
  destruct (pte mod 2 =? 0) eqn:E, (pte mod 2 =? 1) eqn:E'; cbn; zb; lia || done.
Qed.

Lemma present_lor pte : present (Z.lor pte PTE_P) = true.
Proof.
  unfold present, PTE_P. rewrite Z.land_lor_distr_l. change (Z.land 1 1) with 1.
  change 1 with (Z.ones 1) at 1. rewrite Z.land_ones by lia. change (2 ^ 1) with 2.
  assert (pte mod 2 = 0 ∨ pte mod 2 = 1) as [-> | ->] by zlia; done.
Qed.

Lemma present_flags pte : 0 <= pte < 4294967296 → present pte = present (PTE_FLAGS pte).
Proof.
  intros. rewrite !present_mod. unfold PTE_FLAGS. rewrite u32_small by lia.
  change 0xFFF with (Z.ones 12). rewrite Z.land_ones by lia. change (2 ^ 12) with 4096.
  f_equal. zlia.
Qed.

(** Two addresses with the same directory and table index are in one page. *)
Lemma same_index a b :
  0 <= a < 4294967296 → 0 <= b < 4294967296 →
  PDX a = PDX b → PTX a = PTX b → a / 4096 = b / 4096.
Proof. intros. rewrite !PDX_div, !PTX_div in * by lia. zlia. Qed.

Lemma index_page a b :
  0 <= a < 4294967296 → 0 <= b < 4294967296 → a / 4096 = b / 4096 →
  PDX a = PDX b ∧ PTX a = PTX b.
Proof. intros. rewrite !PDX_div, !PTX_div by lia. split; zlia. Qed.

(** Membership in the page of an aligned address. *)
Lemma page_of va a : a mod 4096 = 0 → va / 4096 = a / 4096 ↔ a <= va < a + 4096.
Proof. intros. zlia. Qed.

Lemma page_base va a : a mod 4096 = 0 → a <= va < a + 4096 → va / 4096 * 4096 = a.
Proof. intros. zlia. Qed.

Lemma aligned_next a : a mod 4096 = 0 → (a + 4096) mod 4096 = 0.
Proof. intros. zlia. Qed.

Lemma aligned_room a : a mod 4096 = 0 → a < 4294967296 → a + 4095 < 4294967296.
Proof. intros. zlia. Qed.

Lemma PGADDR_next d :
  0 <= d < 1023 → PGADDR (d + 1) 0 0 = (d + 1) * 4194304.
Proof.
  intros. unfold PGADDR, PDXSHIFT, PTXSHIFT. rewrite !Z.shiftl_mul_pow2 by lia.
  change (2 ^ 22) with 4194304. rewrite Z.mul_0_l, !Z.lor_0_r. apply u32_small. lia.
Qed.

(** A virtual address is recovered from its directory index, table index and
    page offset. *)
Theorem PGADDR_roundtrip va :
  0 <= va < 4294967296 → PGADDR (PDX va) (PTX va) (Z.land va 0xFFF) = va.
Proof.
  intros. change 0xFFF with (Z.ones 12). rewrite Z.land_ones by lia. change (2 ^ 12) with 4096.
  unfold PGADDR, PDXSHIFT, PTXSHIFT.
  pose proof (PTX_range va). rewrite PDX_div, !Z.shiftl_mul_pow2 by lia.
  change (2 ^ 22) with 4194304. change (2 ^ 12) with 4096.
  rewrite (lor_add _ (PTX va * 4096) 22 4194304) by (done || zlia).
  rewrite (lor_add _ (va mod 4096) 12 4096) by (done || zlia).
  rewrite PTX_div by lia. rewrite u32_small by zlia. zlia.
Qed.

Lemma PGADDR_roundtrip_witness : PGADDR (PDX 0x80103abc) (PTX 0x80103abc) (Z.land 0x80103abc 0xFFF) = 0x80103abc.
Proof. apply PGADDR_roundtrip. lia. Defined.

#[global] Opaque PDX PTX PTE_ADDR PTE_FLAGS V2P P2V PGROUNDUP PGROUNDDOWN PGADDR.
