(* ===== verification/Kalloc.v ===== *)
(** * vm/kalloc.c: the physical page allocator

    The free pages form a linked list threaded through their own first words.
    The state [machine] holds the memory the allocator and the page-table code
    of [Vm.v] work on. *)

From Stdlib Require Import ZArith Lia.
From stdpp Require Import base numbers list strings.
From S2P Require Import Prelude Mem Mmu.

(** The kernel's memory, [kmem], and the globals of vm.c; [console] collects
    what [cprintf] is asked to print. *)
Record machine : Type := Machine {
  ram : mem;
  kmem_lock : bool;
  use_lock : bool;
  freelist : Z;
  kpgdir : Z;
  cr3 : Z;
  console : list string
}.

Definition set_ram (m : mem) (s : machine) : machine :=
  Machine m (kmem_lock s) (use_lock s) (freelist s) (kpgdir s) (cr3 s) (console s).
Definition set_kmem_lock (b : bool) (s : machine) : machine :=
  Machine (ram s) b (use_lock s) (freelist s) (kpgdir s) (cr3 s) (console s).
Definition set_use_lock (b : bool) (s : machine) : machine :=
  Machine (ram s) (kmem_lock s) b (freelist s) (kpgdir s) (cr3 s) (console s).
Definition set_freelist (p : Z) (s : machine) : machine :=
  Machine (ram s) (kmem_lock s) (use_lock s) p (kpgdir s) (cr3 s) (console s).
Definition set_kpgdir (p : Z) (s : machine) : machine :=
  Machine (ram s) (kmem_lock s) (use_lock s) (freelist s) p (cr3 s) (console s).
Definition set_cr3 (p : Z) (s : machine) : machine :=
  Machine (ram s) (kmem_lock s) (use_lock s) (freelist s) (kpgdir s) p (console s).
Definition cprintf (msg : string) : M machine unit := modify (λ s,
  Machine (ram s) (kmem_lock s) (use_lock s) (freelist s) (kpgdir s) (cr3 s)
          (console s ++ [msg])).

(** Memory accesses; [memset] and [memmove] are the block operations that
    [Str.v] shows the loops of string.c to compute. *)
Definition ld32 (a : Z) : M machine Z := gets (λ s, load32 (ram s) a).
Definition st32 (a v : Z) : M machine unit :=
  modify (λ s, set_ram (store32 (ram s) a v) s).
Definition memset_at (d c n : Z) : M machine unit :=
  modify (λ s, set_ram (fill (ram s) d c n) s).
Definition memmove_at (d src n : Z) : M machine unit :=
  modify (λ s, set_ram (blit (ram s) d src n) s).

(** The number of pages of a 32-bit address space: the fuel of every loop that
    walks over pages. *)
Definition npages : nat := Z.to_nat 1048576.

Section kalloc.
(** [kend] is the linker symbol [end]: the first address after the kernel. *)
Context (kend : Z).

Definition kfree (v : Z) : M machine unit :=
  if negb (v mod PGSIZE =? 0) || (v <? kend) || (V2P v >=? PHYSTOP)
  then panic "kfree"
  else
    memset_at v 1 PGSIZE ;;;
    ul <- gets use_lock ;;
    when ul (acquire kmem_lock set_kmem_lock) ;;;
    fl <- gets freelist ;;
    st32 v fl ;;;
    modify (set_freelist v) ;;;
    when ul (release kmem_lock set_kmem_lock).

Definition kalloc : M machine Z :=
  ul <- gets use_lock ;;
  when ul (acquire kmem_lock set_kmem_lock) ;;;
  r <- gets freelist ;;
  (if negb (r =? 0) then (next <- ld32 r ;; modify (set_freelist next)) else ret tt) ;;;
  when ul (release kmem_lock set_kmem_lock) ;;;
  ret r.

Fixpoint freerange_loop (fuel : nat) (p vend : Z) : M machine unit :=
  if u32 (p + PGSIZE) <=? vend then
    match fuel with
    | O => nofuel
    | S fuel' => kfree p ;;; freerange_loop fuel' (u32 (p + PGSIZE)) vend
    end
  else ret tt.

Definition freerange (vstart vend : Z) : M machine unit :=
  freerange_loop npages (PGROUNDUP vstart) vend.

Definition kinit1 (vstart vend : Z) : M machine unit :=
  modify (set_kmem_lock false) ;;;
  modify (set_use_lock false) ;;;
  freerange vstart vend.

Definition kinit2 (vstart vend : Z) : M machine unit :=
  freerange vstart vend ;;;
  modify (set_use_lock true).

(** ** The free list as a list of pages *)

Fixpoint free_chain (m : mem) (p : Z) (l : list Z) : Prop :=
  match l with
  | [] => p = 0
  | x :: l' => p = x ∧ free_chain m (load32 m x) l'
  end.

(** A page the allocator may hold: aligned, above the kernel, below PHYSTOP. *)
Definition valid_page (p : Z) : Prop :=
  p mod 4096 = 0 ∧ kend <= p ∧ p < KERNBASE + PHYSTOP.

Record kalloc_inv (s : machine) (l : list Z) : Prop := {
  ki_chain : free_chain (ram s) (freelist s) l;
  ki_nodup : NoDup l;
  ki_valid : Forall valid_page l;
  ki_lock : kmem_lock s = false;
  ki_mem : mem_ok (ram s)
}.

Context (kend_ok : KERNBASE <= kend).

Lemma valid_page_range p : valid_page p → KERNBASE <= p ∧ p + 4096 <= KERNBASE + PHYSTOP.
Proof.
  intros (Ha & Hk & Hp). unfold KERNBASE, PHYSTOP in *. split; [lia|].
  assert (∃ k, p = k * 4096) as [k ->] by (exists (p / 4096); zlia). lia.
Qed.

Lemma valid_page_u32 p : valid_page p → 0 < p ∧ p + 4096 < 4294967296.
Proof. intros H%valid_page_range. unfold KERNBASE, PHYSTOP in *. lia. Qed.

(** Two distinct pages do not overlap. *)
Lemma valid_page_disjoint p q :
  valid_page p → valid_page q → p ≠ q → p + 4096 <= q ∨ q + 4096 <= p.
Proof.
  intros (Hp & _) (Hq & _) Hne.
  assert (∃ k, p = k * 4096) as [k ->] by (exists (p / 4096); zlia).
  assert (∃ j, q = j * 4096) as [j ->] by (exists (q / 4096); zlia). lia.
Qed.

Lemma kfree_guard v :
  0 <= v < 4294967296 →
  (negb (v mod PGSIZE =? 0) || (v <? kend) || (V2P v >=? PHYSTOP) = false ↔ valid_page v).
Proof.
  intros Hv. unfold valid_page, PGSIZE. rewrite Z.geb_leb. split.
  - intros H. zb. rewrite V2P_eq in * by lia. lia.
  - intros (Ha & Hk & Hp). rewrite V2P_eq by (unfold KERNBASE, PHYSTOP in *; lia).
    rewrite Ha. cbn [negb Z.eqb orb].
    apply orb_false_iff. split; [by apply Z.ltb_ge|apply Z.leb_gt; lia].
Qed.

(** The chain only depends on the pages it goes through. *)
Lemma free_chain_ext m m' l : ∀ p,
  (∀ q x, q ∈ l → q <= x < q + 4 → m' x = m x) →
  free_chain m p l → free_chain m' p l.
Proof.
  induction l as [|q l IH]; intros p Hx; cbn [free_chain]; [done|].
  intros [-> Hc]. split; [done|].
  rewrite (load32_ext m m') by (intros; apply Hx with q; [by left|lia]).
  apply IH; [|done]. intros q' x Hq'. apply Hx. by right.
Qed.

Lemma free_chain_zero m l : Forall valid_page l → free_chain m 0 l → l = [].
Proof.
  destruct l as [|x l]; [done|]. intros [Hx _]%Forall_cons [<- _].
  apply valid_page_u32 in Hx. lia.
Qed.

(** ** Operations on the list *)

Lemma kalloc_spec s l :
  kalloc_inv s l →
  match l with
  | [] => kalloc s = Done 0 s
  | p :: l' =>
      ∃ s', kalloc s = Done p s' ∧ ram s' = ram s ∧ kalloc_inv s' l' ∧
            use_lock s' = use_lock s ∧ kpgdir s' = kpgdir s ∧ cr3 s' = cr3 s ∧
            console s' = console s
  end.
Proof.
  intros [Hc Hnd Hv Hl Hm]. destruct s as [m lk ul fl kp c co]. cbn in *. subst lk.
  destruct l as [|p l']; cbn [free_chain] in Hc.
  - subst fl. unfold kalloc. mrun. destruct ul; reflexivity.
  - destruct Hc as [-> Hc]. apply NoDup_cons in Hnd as [Hp Hnd].
    apply Forall_cons in Hv as [Hvp Hv].
    exists (Machine m false ul (load32 m p) kp c co). split_and!; try done.
    pose proof (valid_page_u32 _ Hvp). unfold kalloc, ld32.
    destruct ul; mrun; cbn; (replace (p =? 0) with false by lia); reflexivity.
Qed.

Lemma kfree_spec s l v :
  kalloc_inv s l → valid_page v → v ∉ l →
  ∃ s', kfree v s = Done tt s' ∧ kalloc_inv s' (v :: l) ∧
        (∀ x, x < v ∨ v + 4096 <= x → ram s' x = ram s x) ∧
        (∀ x, v + 4 <= x < v + 4096 → ram s' x = 1) ∧
        use_lock s' = use_lock s ∧ kpgdir s' = kpgdir s ∧ cr3 s' = cr3 s ∧
        console s' = console s.
Proof.
  intros [Hc Hnd Hv Hl Hm] Hvv Hnv.
  destruct s as [m lk ul fl kp c co]. cbn in *. subst lk.
  pose proof (valid_page_u32 _ Hvv) as Hr.
  assert (Hfl : 0 <= fl < 4294967296).
  { destruct l as [|q l]; cbn in Hc; [lia|]. destruct Hc as [-> _].
    apply Forall_cons in Hv as [Hq _]. apply valid_page_u32 in Hq. lia. }
  exists (Machine (store32 (fill m v 1 PGSIZE) v fl) false ul v kp c co).
  split_and!; try done.
  - unfold kfree. rewrite (proj2 (kfree_guard v ltac:(lia)) Hvv).
    unfold memset_at, st32. mrun. destruct ul; reflexivity.
  - split; cbn; [|by constructor|by constructor|done|auto with xv6].
    split; [done|]. rewrite load32_store32_eq by lia.
    eapply free_chain_ext; [|exact Hc]. intros q x Hq Hx.
    pose proof (proj1 (Forall_forall _ _) Hv q Hq) as Hvq.
    destruct (valid_page_disjoint v q); [done..|by intros ->| |];
      rewrite store32_out, fill_out; done || (unfold PGSIZE; lia).
  - intros x Hx. cbn. rewrite store32_out, fill_out; done || (unfold PGSIZE; lia).
  - intros x Hx. cbn. rewrite store32_out, fill_in; done || (unfold PGSIZE; lia).
Qed.

Lemma kfree_panics s v :
  0 <= v < 4294967296 → ¬ valid_page v → kfree v s = Panic "kfree".
Proof.
  intros Hv Hn. unfold kfree.
  destruct (negb _ || _ || _) eqn:E; [done|]. by apply kfree_guard in E.
Qed.

(** The pages [p], [p + PGSIZE], ... ([n] of them). *)
Fixpoint page_seq (p : Z) (n : nat) : list Z :=
  match n with
  | O => []
  | S n' => p :: page_seq (p + 4096) n'
  end.

Lemma page_seq_elem n : ∀ p x,
  x ∈ page_seq p n → ∃ i : nat, (i < n)%nat ∧ x = p + 4096 * Z.of_nat i.
Proof.
  induction n as [|n IH]; intros p x; cbn [page_seq]; [by intros ?%not_elem_of_nil|].
  rewrite elem_of_cons. intros [->|H]; [exists O; lia|].
  apply IH in H as (i & Hi & ->). exists (S i). lia.
Qed.

Lemma page_seq_nodup n : ∀ p, NoDup (page_seq p n).
Proof.
  induction n as [|n IH]; intros p; cbn [page_seq]; constructor; [|apply IH].
  intros (i & _ & Hi)%page_seq_elem. lia.
Qed.

Lemma freerange_loop_spec n : ∀ fuel s l p vend,
  kalloc_inv s l → (n <= fuel)%nat →
  p mod 4096 = 0 → kend <= p → p <= KERNBASE + PHYSTOP →
  p + 4096 * Z.of_nat n <= vend ∨ n = O → vend < p + 4096 * Z.of_nat (S n) →
  vend <= KERNBASE + PHYSTOP →
  (∀ q, q ∈ page_seq p n → q ∉ l) →
  ∃ s', freerange_loop fuel p vend s = Done tt s' ∧
        kalloc_inv s' (rev (page_seq p n) ++ l) ∧ use_lock s' = use_lock s ∧
        (∀ x, x < p ∨ vend <= x → ram s' x = ram s x).
Proof.
  induction n as [|n IH]; intros fuel s l p vend Hi Hf Ha Hk Hp Hlo Hhi Htop Hfresh;
    (assert (p + 4096 < 4294967296 ∧ 0 <= p) by (unfold KERNBASE, PHYSTOP in *; lia)).
  - exists s.
    destruct fuel; cbn [freerange_loop]; unfold PGSIZE; rewrite u32_small by lia;
      (replace (p + 4096 <=? vend) with false by lia); done.
  - destruct fuel as [|fuel]; [lia|].
    cbn [freerange_loop]. unfold PGSIZE. rewrite u32_small by lia.
    replace (p + 4096 <=? vend) with true by lia.
    assert (Hvp : valid_page p) by (split_and!; lia).
    destruct (kfree_spec s l p) as (s1 & Hk1 & Hi1 & Hout & _ & Hul & _);
      [done..|by apply Hfresh; left|].
    unfold bind. rewrite Hk1.
    destruct (IH fuel s1 (p :: l) (p + 4096) vend) as (s2 & H2 & Hi2 & Hul2 & Hout2);
      try done || lia; [zlia| |].
    { intros q Hq. apply not_elem_of_cons. split.
      - apply page_seq_elem in Hq as (i & _ & ->). lia.
      - apply Hfresh. by right. }
    exists s2. split_and!; [done| | |].
    + cbn [page_seq rev]. by rewrite <- app_assoc.
    + congruence.
    + intros x Hx. rewrite Hout2, Hout by lia. done.
Qed.

(** [freerange] hands every whole page of the range to the allocator: after
    it the free list is the pages of the range, last first, then what was free
    before, and no byte outside the range has changed. *)
Theorem freerange_frees s l vstart vend :
  let p := PGROUNDUP vstart in
  let n := Z.to_nat ((vend - p) / 4096) in
  kalloc_inv s l → kend <= vstart → vstart <= vend → vend <= KERNBASE + PHYSTOP →
  (∀ q, q ∈ page_seq p n → q ∉ l) →
  ∃ s', freerange vstart vend s = Done tt s' ∧
        kalloc_inv s' (rev (page_seq p n) ++ l) ∧
        (∀ x, x < p ∨ vend <= x → ram s' x = ram s x).
Proof.
  intros p n Hi Hs Hse Htop Hfresh.
  assert (Hp : p = (vstart + 4095) - (vstart + 4095) mod 4096).
  { unfold p. apply PGROUNDUP_eq; unfold KERNBASE, PHYSTOP in *; lia. }
  assert (Hpt : p <= KERNBASE + PHYSTOP).
  { rewrite Hp. unfold KERNBASE, PHYSTOP in *. zlia. }
  unfold freerange. fold p.
  destruct (freerange_loop_spec n npages s l p vend) as (s' & H1 & H2 & _ & H3); try done.
  - assert ((vend - p) / 4096 <= 1048576) by (unfold KERNBASE, PHYSTOP in *; zlia).
    unfold n, npages. lia.
  - rewrite Hp. zlia.
  - rewrite Hp. zlia.
  - unfold n. destruct (decide (p <= vend)).
    + left. rewrite Z2Nat.id by zlia. zlia.
    + right. assert ((vend - p) / 4096 < 0) by zlia. lia.
  - assert (vend < p + 4096 * ((vend - p) / 4096 + 1)) by zlia. unfold n. lia.
  - eauto.
Qed.

(** C39 [kalloc] takes the first free page: the page it returns was free, is no
    longer on the list, and memory is unchanged; giving it back with [kfree]
    restores the list, and the next [kalloc] returns it again.  With an empty
    list it returns 0 and changes nothing. *)
Theorem kalloc_kfree_exclusive s l :
  kalloc_inv s l →
  ∃ p s', kalloc s = Done p s' ∧ ram s' = ram s ∧
  ((l = [] ∧ p = 0 ∧ s' = s) ∨
   (p ∈ l ∧ valid_page p ∧
    ∃ l', l = p :: l' ∧ kalloc_inv s' l' ∧ (p ∉ l') ∧
    ∃ s2 s3, kfree p s' = Done tt s2 ∧ kalloc_inv s2 l ∧ kalloc s2 = Done p s3 ∧
             kalloc_inv s3 l')).
Proof.
  intros Hi. pose proof (kalloc_spec s l Hi) as Hk. destruct l as [|p l'].
  { exists 0, s. split_and!; [done..|]. by left. }
  destruct Hk as (s' & Hk & Hr & Hi' & _).
  pose proof (ki_nodup _ _ Hi) as [Hp _]%NoDup_cons.
  pose proof (ki_valid _ _ Hi) as [Hv _]%Forall_cons.
  exists p, s'. split_and!; [done..|]. right. split_and!; [by left|done|].
  exists l'. split_and!; [done..|].
  destruct (kfree_spec s' l' p) as (s2 & Hf & Hi2 & _); [done..|].
  pose proof (kalloc_spec s2 _ Hi2) as (s3 & Hk3 & _ & Hi3 & _).
  by exists s2, s3.
Qed.

(** [kfree] panics exactly on an address that is not an aligned page
    between the end of the kernel and PHYSTOP; otherwise it pushes the page and
    fills all of it but the link word with the junk byte 1. *)
Theorem kfree_total s l v :
  kalloc_inv s l → 0 <= v < 4294967296 → v ∉ l →
  (¬ valid_page v ∧ kfree v s = Panic "kfree") ∨
  (valid_page v ∧ ∃ s', kfree v s = Done tt s' ∧ kalloc_inv s' (v :: l) ∧
     (∀ x, v + 4 <= x < v + 4096 → ram s' x = 1) ∧
     (∀ x, x < v ∨ v + 4096 <= x → ram s' x = ram s x)).
Proof.
  intros Hi Hv Hn.
  destruct (decide (negb (v mod PGSIZE =? 0) || (v <? kend) || (V2P v >=? PHYSTOP) = false))
    as [E|E].
  - apply kfree_guard in E; [|done]. right. split; [done|].
    destruct (kfree_spec s l v) as (s' & H1 & H2 & H3 & H4 & _); eauto 10.
  - left. assert (¬ valid_page v) as Hnv by by rewrite <- kfree_guard.
    split; [done|]. by apply kfree_panics.
Qed.
End kalloc.

(** A machine with two free pages, for the witnesses. *)
Definition demo_kend : Z := 0x80110000.
Definition demo_machine : machine :=
  Machine (store32 (λ _, 0) 0x80200000 0x80300000) false true 0x80200000 0 0 [].

Lemma demo_inv : kalloc_inv demo_kend demo_machine [0x80200000; 0x80300000].
Proof.
  split; cbn [demo_machine ram freelist kmem_lock].
  - vm_compute. done.
  - vmdec.
  - repeat constructor; unfold valid_page, demo_kend, KERNBASE, PHYSTOP; lia || done.
  - done.
  - apply mem_ok_store32. intros a. lia.
Qed.

Lemma demo_kend_ok : KERNBASE <= demo_kend.
Proof. unfold KERNBASE, demo_kend. lia. Qed.

Lemma freerange_frees_witness :
  ∃ s', freerange demo_kend 0x80400123 0x80403000 demo_machine = Done tt s' ∧
        kalloc_inv demo_kend s' [0x80402000; 0x80401000; 0x80200000; 0x80300000].
Proof.
  destruct (freerange_frees demo_kend demo_kend_ok demo_machine
              [0x80200000; 0x80300000] 0x80400123 0x80403000) as (s' & H & Hi & _).
  - exact demo_inv.
  - unfold demo_kend. lia.
  - lia.
  - unfold KERNBASE, PHYSTOP. lia.
  - apply Forall_forall. vmdec.
  - exists s'. split; [exact H|exact Hi].
Defined.

Lemma kalloc_kfree_exclusive_witness :
  ∃ p s', kalloc demo_machine = Done p s' ∧ ram s' = ram demo_machine.
Proof.
  destruct (kalloc_kfree_exclusive demo_kend demo_kend_ok demo_machine _ demo_inv)
    as (p & s' & H & Hr & _).
  exists p, s'. split; [exact H|exact Hr].
Defined.
