(* ===== verification/Vm.v ===== *)
(** * vm/vm.c: page tables

    Page directories and page tables as words of the memory of [Kalloc.v]:
    walking and building them, growing, shrinking, copying and freeing address
    spaces, and copying data out to user memory. *)

From Stdlib Require Import ZArith Lia.
From stdpp Require Import base numbers list strings.
From S2P Require Import Prelude Mem Mmu Kalloc.

(** One entry of the kernel's mapping table. *)
Record kmap_entry : Type := Kmap {
  k_virt : Z;
  k_phys_start : Z;
  k_phys_end : Z;
  k_perm : Z
}.

Section vm.
(** The linker symbols [end] and [data]. *)
Context (kend kdata : Z).

(** Returns the address of the PTE, or 0. *)
Definition walkpgdir (pgdir va : Z) (alloc : bool) : M machine Z :=
  let pde := u32 (pgdir + 4 * PDX va) in
  pdev <- ld32 pde ;;
  if present pdev then
    let pgtab := P2V (PTE_ADDR pdev) in
    ret (u32 (pgtab + 4 * PTX va))
  else if negb alloc then ret 0
  else
    pgtab <- kalloc ;;
    if pgtab =? 0 then ret 0
    else
      memset_at pgtab 0 PGSIZE ;;;
      st32 pde (Z.lor (Z.lor (Z.lor (V2P pgtab) PTE_P) PTE_W) PTE_U) ;;;
      ret (u32 (pgtab + 4 * PTX va)).

Fixpoint mappages_loop (fuel : nat) (pgdir a last pa perm : Z) : M machine Z :=
  match fuel with
  | O => nofuel
  | S fuel' =>
      pte <- walkpgdir pgdir a true ;;
      if pte =? 0 then ret (-1)
      else
        v <- ld32 pte ;;
        if present v then panic "remap"
        else
          st32 pte (Z.lor (Z.lor pa perm) PTE_P) ;;;
          if a =? last then ret 0
          else mappages_loop fuel' pgdir (u32 (a + PGSIZE)) last (u32 (pa + PGSIZE)) perm
  end.

Definition mappages (pgdir va size pa perm : Z) : M machine Z :=
  mappages_loop npages pgdir (PGROUNDDOWN va) (PGROUNDDOWN (u32 (va + size - 1))) pa perm.

Definition map_kernel_page (vaddr paddr perm : Z) : M machine Z :=
  pgdir <- gets kpgdir ;;
  pte <- walkpgdir pgdir vaddr true ;;
  if pte =? 0 then ret (-1)
  else
    st32 pte (Z.lor (Z.lor paddr perm) PTE_P) ;;;
    ret 0.

Definition unmap_kernel_page (vaddr : Z) : M machine unit :=
  pgdir <- gets kpgdir ;;
  pte <- walkpgdir pgdir vaddr false ;;
  if pte =? 0 then ret tt
  else
    v <- ld32 pte ;;
    if negb (present v) then ret tt else st32 pte 0.

Definition kfree_and_unmap_page (vaddr : Z) : M machine unit :=
  pgdir <- gets kpgdir ;;
  pte <- walkpgdir pgdir vaddr false ;;
  if pte =? 0 then ret tt
  else
    v <- ld32 pte ;;
    if negb (present v) then ret tt
    else
      let paddr := PTE_ADDR v in
      kfree kend (P2V paddr) ;;;
      st32 pte 0.

Fixpoint deallocuvm_loop (fuel : nat) (pgdir a oldsz : Z) : M machine unit :=
  if a <? oldsz then
    match fuel with
    | O => nofuel
    | S fuel' =>
        pte <- walkpgdir pgdir a false ;;
        a' <- (if pte =? 0 then ret (u32 (PGADDR (PDX a + 1) 0 0 - PGSIZE))
               else
                 v <- ld32 pte ;;
                 if present v then
                   let pa := PTE_ADDR v in
                   if pa =? 0 then panic "kfree"
                   else kfree kend (P2V pa) ;;; st32 pte 0 ;;; ret a
                 else ret a) ;;
        deallocuvm_loop fuel' pgdir (u32 (a' + PGSIZE)) oldsz
    end
  else ret tt.

Definition deallocuvm (pgdir oldsz newsz : Z) : M machine Z :=
  if newsz >=? oldsz then ret oldsz
  else
    deallocuvm_loop npages pgdir (PGROUNDUP newsz) oldsz ;;;
    ret newsz.

Fixpoint freevm_loop (fuel : nat) (pgdir i : Z) : M machine unit :=
  match fuel with
  | O => ret tt
  | S fuel' =>
      v <- ld32 (u32 (pgdir + 4 * i)) ;;
      (if present v then kfree kend (P2V (PTE_ADDR v)) else ret tt) ;;;
      freevm_loop fuel' pgdir (i + 1)
  end.

Definition freevm (pgdir : Z) : M machine unit :=
  if pgdir =? 0 then panic "freevm: no pgdir"
  else
    deallocuvm pgdir KERNBASE 0 ;;;
    freevm_loop 1024 pgdir 0 ;;;
    kfree kend pgdir.

(** The table [kmap]. *)
Definition kmap : list kmap_entry :=
  [ Kmap KERNBASE 0 EXTMEM PTE_W;
    Kmap KERNLINK (V2P KERNLINK) (V2P kdata) 0;
    Kmap kdata (V2P kdata) PHYSTOP PTE_W;
    Kmap DEVSPACE DEVSPACE 0 PTE_W ].

(** [for(k = kmap; ...)]: 0 when every entry was mapped, -1 at the first failure. *)
Fixpoint setupkvm_loop (pgdir : Z) (ks : list kmap_entry) : M machine Z :=
  match ks with
  | [] => ret 0
  | k :: ks' =>
      r <- mappages pgdir (k_virt k) (u32 (k_phys_end k - k_phys_start k))
                    (k_phys_start k) (k_perm k) ;;
      if r <? 0 then ret (-1) else setupkvm_loop pgdir ks'
  end.

Definition setupkvm : M machine Z :=
  pgdir <- kalloc ;;
  if pgdir =? 0 then ret 0
  else
    memset_at pgdir 0 PGSIZE ;;;
    if P2V PHYSTOP >? DEVSPACE then panic "PHYSTOP too high"
    else
      r <- setupkvm_loop pgdir kmap ;;
      if r <? 0 then freevm pgdir ;;; ret 0 else ret pgdir.

Definition switchkvm : M machine unit :=
  p <- gets kpgdir ;;
  modify (set_cr3 (V2P p)).

Definition kvmalloc : M machine unit :=
  p <- setupkvm ;;
  modify (set_kpgdir p) ;;;
  switchkvm.

(** [init] is the address of the code to copy to user address 0.  Writing
    through the null pointer an exhausted [kalloc] returns is a fault. *)
Definition inituvm (pgdir init sz : Z) : M machine unit :=
  if sz >=? PGSIZE then panic "inituvm: more than a page"
  else
    m <- kalloc ;;
    if m =? 0 then fault
    else
      memset_at m 0 PGSIZE ;;;
      mappages pgdir 0 PGSIZE (V2P m) (Z.lor PTE_W PTE_U) ;;;
      memmove_at m init sz.

(** [rd dst off n] stands for [readi(ip, dst, off, n)]. *)
(** [loaduvm] reads the inode through [readi], whose state is not the machine's:
    [get] and [set] are the machine inside the state of both. *)
Section loaduvm.
Context {St : Type} (get : St → machine) (set : machine → St → St).

Fixpoint loaduvm_loop (fuel : nat) (rd : Z → Z → Z → M St Z)
    (pgdir addr offset sz i : Z) : M St Z :=
  if i <? sz then
    match fuel with
    | O => nofuel
    | S fuel' =>
        pte <- lift get set (walkpgdir pgdir (u32 (addr + i)) false) ;;
        if pte =? 0 then panic "loaduvm: address should exist"
        else
          v <- lift get set (ld32 pte) ;;
          let pa := PTE_ADDR v in
          let n := if u32 (sz - i) <? PGSIZE then u32 (sz - i) else PGSIZE in
          r <- rd (P2V pa) (u32 (offset + i)) n ;;
          if negb (r =? n) then ret (-1)
          else loaduvm_loop fuel' rd pgdir addr offset sz (u32 (i + PGSIZE))
    end
  else ret 0.

Definition loaduvm (rd : Z → Z → Z → M St Z) (pgdir addr offset sz : Z) : M St Z :=
  if negb (addr mod PGSIZE =? 0) then panic "loaduvm: addr must be page aligned"
  else loaduvm_loop npages rd pgdir addr offset sz 0.
End loaduvm.

Fixpoint allocuvm_loop (fuel : nat) (pgdir a oldsz newsz : Z) : M machine Z :=
  if a <? newsz then
    match fuel with
    | O => nofuel
    | S fuel' =>
        m <- kalloc ;;
        if m =? 0 then
          cprintf "allocuvm out of memory" ;;;
          deallocuvm pgdir newsz oldsz ;;;
          ret 0
        else
          memset_at m 0 PGSIZE ;;;
          r <- mappages pgdir a PGSIZE (V2P m) (Z.lor PTE_W PTE_U) ;;
          if r <? 0 then
            cprintf "allocuvm out of memory (2)" ;;;
            deallocuvm pgdir newsz oldsz ;;;
            kfree kend m ;;;
            ret 0
          else allocuvm_loop fuel' pgdir (u32 (a + PGSIZE)) oldsz newsz
    end
  else ret newsz.

Definition allocuvm (pgdir oldsz newsz : Z) : M machine Z :=
  if newsz >=? KERNBASE then ret 0
  else if newsz <? oldsz then ret oldsz
  else allocuvm_loop npages pgdir (PGROUNDUP oldsz) oldsz newsz.

Definition clearpteu (pgdir uva : Z) : M machine unit :=
  pte <- walkpgdir pgdir uva false ;;
  if pte =? 0 then panic "clearpteu"
  else v <- ld32 pte ;; st32 pte (Z.land v (4294967295 - PTE_U)).

(** The loop of [copyuvm]; -1 stands for the jump to [bad]. *)
Fixpoint copyuvm_loop (fuel : nat) (pgdir d i sz : Z) : M machine Z :=
  if i <? sz then
    match fuel with
    | O => nofuel
    | S fuel' =>
        pte <- walkpgdir pgdir i false ;;
        if pte =? 0 then panic "copyuvm: pte should exist"
        else
          v <- ld32 pte ;;
          if negb (present v) then panic "copyuvm: page not present"
          else
            let pa := PTE_ADDR v in
            let flags := PTE_FLAGS v in
            m <- kalloc ;;
            if m =? 0 then ret (-1)
            else
              memmove_at m (P2V pa) PGSIZE ;;;
              r <- mappages d i PGSIZE (V2P m) flags ;;
              if r <? 0 then kfree kend m ;;; ret (-1)
              else copyuvm_loop fuel' pgdir d (u32 (i + PGSIZE)) sz
    end
  else ret 0.

Definition copyuvm (pgdir sz : Z) : M machine Z :=
  d <- setupkvm ;;
  if d =? 0 then ret 0
  else
    r <- copyuvm_loop npages pgdir d 0 sz ;;
    if r <? 0 then freevm d ;;; ret 0 else ret d.

(** The source reads [*pte] without testing it: a missing page table is a
    null dereference. *)
Definition uva2ka (pgdir uva : Z) : M machine Z :=
  pte <- walkpgdir pgdir uva false ;;
  if pte =? 0 then fault
  else
    v <- ld32 pte ;;
    if negb (present v) then ret 0
    else if negb (user_ok v) then ret 0
    else ret (P2V (PTE_ADDR v)).

Fixpoint copyout_loop (fuel : nat) (pgdir va buf len : Z) : M machine Z :=
  if len >? 0 then
    match fuel with
    | O => nofuel
    | S fuel' =>
        let va0 := PGROUNDDOWN va in
        pa0 <- uva2ka pgdir va0 ;;
        if pa0 =? 0 then ret (-1)
        else
          let n0 := u32 (PGSIZE - (va - va0)) in
          let n := if n0 >? len then len else n0 in
          memmove_at (u32 (pa0 + (va - va0))) buf n ;;;
          copyout_loop fuel' pgdir (u32 (va0 + PGSIZE)) (u32 (buf + n)) (u32 (len - n))
    end
  else ret 0.

Definition copyout (pgdir va p len : Z) : M machine Z :=
  copyout_loop (S npages) pgdir va p len.
End vm.
