(* ===== verification/VmFacts.v ===== *)
(** * Theorems about page tables (vm/vm.c)

    A page directory is represented by the partial function [tab] from
    directory indices to page-table pages; [pte_of] is the entry a virtual
    address selects.  The invariant [pt_inv] keeps the directory, its tables and
    the free pages apart. *)

From Stdlib Require Import ZArith Lia.
From stdpp Require Import base numbers list strings.
From S2P Require Import Prelude Mem Mmu Kalloc Vm.

Definition tab_set (i t : Z) (tab : Z → option Z) : Z → option Z :=
  λ j, if j =? i then Some t else tab j.

Definition pte_of (m : mem) (tab : Z → option Z) (va : Z) : Z :=
  match tab (PDX va) with
  | None => 0
  | Some t => load32 m (t + 4 * PTX va)
  end.

(** The page-table pages of a directory, in index order. *)
Definition tables (tab : Z → option Z) : list Z := omap tab (seqZ 0 1024).

Section facts.
Context (kend : Z) (kend_ok : KERNBASE <= kend).

Record pt_inv (s : machine) (pgdir : Z) (tab : Z → option Z) (l : list Z) : Prop := {
  pi_alloc : kalloc_inv kend s l;
  pi_dir : valid_page kend pgdir;
  pi_dir_used : pgdir ∉ l;
  pi_none : ∀ i, 0 <= i < 1024 → tab i = None → present (load32 (ram s) (pgdir + 4 * i)) = false;
  pi_some : ∀ i t, tab i = Some t →
    0 <= i < 1024 ∧ valid_page kend t ∧ t ≠ pgdir ∧ (t ∉ l) ∧
    load32 (ram s) (pgdir + 4 * i) = V2P t + 7;
  pi_inj : ∀ i j t, tab i = Some t → tab j = Some t → i = j
}.

(** Bytes outside the directory, its tables and the free pages. *)
Definition outside (pgdir : Z) (tab : Z → option Z) (l : list Z) (x : Z) : Prop :=
  ¬ in_page pgdir x ∧ (∀ i t, tab i = Some t → ¬ in_page t x) ∧ (∀ p, p ∈ l → ¬ in_page p x).

Lemma table_entry t :
  valid_page kend t → Z.lor (Z.lor (Z.lor (V2P t) PTE_P) PTE_W) PTE_U = V2P t + 7.
Proof.
  intros Hv. pose proof (valid_page_range _ kend_ok _ Hv).
  rewrite <- !Z.lor_assoc. change (Z.lor PTE_P (Z.lor PTE_W PTE_U)) with 7.
  apply pte_lor; [|lia]. rewrite V2P_eq by (unfold KERNBASE, PHYSTOP in *; lia).
  destruct Hv as [Ha _]. unfold KERNBASE. zlia.
Qed.

Lemma table_entry_parts t :
  valid_page kend t →
  present (V2P t + 7) = true ∧ P2V (PTE_ADDR (V2P t + 7)) = t ∧ 0 <= V2P t + 7 < 4294967296.
Proof.
  intros Hv. pose proof (valid_page_range _ kend_ok _ Hv) as Hr.
  assert (V2P t = t - KERNBASE) as -> by (apply V2P_eq; unfold KERNBASE, PHYSTOP in *; lia).
  destruct Hv as (Ha & _). unfold KERNBASE, PHYSTOP in *. split_and!; [| |lia..].
  - rewrite present_mod. apply Z.eqb_eq. zlia.
  - rewrite PTE_ADDR_add by zlia. rewrite P2V_eq by (unfold KERNBASE; lia). unfold KERNBASE. lia.
Qed.

Lemma pte_of_none m tab va : tab (PDX va) = None → pte_of m tab va = 0.
Proof. unfold pte_of. by intros ->. Qed.

Lemma pte_of_page m tab va va' :
  0 <= va < 4294967296 → 0 <= va' < 4294967296 → va / 4096 = va' / 4096 →
  pte_of m tab va = pte_of m tab va'.
Proof. intros H1 H2 H. destruct (index_page va va' H1 H2 H) as [Hd Ht]. unfold pte_of. by rewrite Hd, Ht. Qed.

Lemma pte_of_some m tab va t : tab (PDX va) = Some t → pte_of m tab va = load32 m (t + 4 * PTX va).
Proof. unfold pte_of. by intros ->. Qed.

(** A word of a page other than [p] is not in [p]. *)
Lemma word_in_page p i x :
  valid_page kend p → 0 <= i < 1024 → p + 4 * i <= x < p + 4 * i + 4 → in_page p x.
Proof. unfold in_page. lia. Qed.

Lemma pages_apart p q x :
  valid_page kend p → valid_page kend q → p ≠ q → in_page p x → ¬ in_page q x.
Proof.
  intros Hp Hq Hne Hx Hy. destruct (valid_page_disjoint kend p q Hp Hq Hne);
    unfold in_page in *; lia.
Qed.

(** ** walkpgdir *)

(** Installing the fresh table [t] for index [i]. *)
Lemma pt_inv_new_table s s' pgdir tab t l i :
  pt_inv s pgdir tab (t :: l) → 0 <= i < 1024 → tab i = None →
  kalloc_inv kend s' l →
  ram s' = store32 (fill (ram s) t 0 PGSIZE) (pgdir + 4 * i) (V2P t + 7) →
  pt_inv s' pgdir (tab_set i t tab) l.
Proof.
  intros [Ha Hd Hdu Hn Hs Hinj] Hi Hti Ha' Hr.
  pose proof (ki_valid _ _ _ Ha) as [Hvt Hvl]%Forall_cons.
  pose proof (ki_nodup _ _ _ Ha) as [Htl _]%NoDup_cons.
  apply not_elem_of_cons in Hdu as [Hdt Hdl].
  pose proof (table_entry_parts t Hvt) as (_ & _ & Hrange).
  assert (Hold : ∀ j, 0 <= j < 1024 → j ≠ i →
    load32 (ram s') (pgdir + 4 * j) = load32 (ram s) (pgdir + 4 * j)).
  { intros j Hj Hne. destruct (valid_page_disjoint kend pgdir t Hd Hvt Hdt);
      rewrite Hr, load32_store32_ne, load32_fill_out by (unfold PGSIZE; lia); done. }
  split; [done..| | |]; unfold tab_set.
  - intros j Hj. case_if; [done|]. intros Ht. rewrite Hold by lia. by apply Hn.
  - intros j u. case_if; intros Hju.
    + simplify_eq. split_and!; [lia..|done|by apply not_eq_sym|done|].
      rewrite Hr, load32_store32_eq by lia. done.
    + apply Hs in Hju as (? & ? & ? & [? ?]%not_elem_of_cons & Hw).
      split_and!; try done || lia. rewrite Hold by lia. done.
  - assert (Hfresh : ∀ j, tab j ≠ Some t).
    { intros j (_ & _ & _ & [? _]%not_elem_of_cons & _)%Hs. done. }
    intros j k u. repeat case_if; intros; simplify_eq; try done; try congruence.
    eapply Hinj; eassumption.
Qed.

Lemma walkpgdir_spec s pgdir tab l va alloc :
  pt_inv s pgdir tab l →
  (∃ t, tab (PDX va) = Some t ∧
        walkpgdir pgdir va alloc s = Done (t + 4 * PTX va) s) ∨
  (tab (PDX va) = None ∧ (alloc = false ∨ l = []) ∧ walkpgdir pgdir va alloc s = Done 0 s) ∨
  (∃ t l' s', tab (PDX va) = None ∧ alloc = true ∧ l = t :: l' ∧
     walkpgdir pgdir va alloc s = Done (t + 4 * PTX va) s' ∧
     pt_inv s' pgdir (tab_set (PDX va) t tab) l' ∧
     ram s' = store32 (fill (ram s) t 0 PGSIZE) (pgdir + 4 * PDX va) (V2P t + 7) ∧
     kpgdir s' = kpgdir s ∧ cr3 s' = cr3 s ∧ console s' = console s).
Proof.
  intros Hinv. pose proof Hinv as [Ha Hd Hdu Hn Hs Hinj].
  pose proof (PDX_range va) as Hpd. pose proof (PTX_range va) as Hpt.
  pose proof (valid_page_u32 _ kend_ok _ Hd) as Hdr.
  unfold walkpgdir, ld32. mrun. rewrite (u32_small (pgdir + _)) by lia.
  destruct (tab (PDX va)) as [t|] eqn:Et.
  - left. exists t. split; [done|].
    destruct (Hs _ _ Et) as (_ & Hvt & _ & _ & ->).
    destruct (table_entry_parts t Hvt) as (-> & -> & _).
    pose proof (valid_page_u32 _ kend_ok _ Hvt). mrun. by rewrite u32_small by lia.
  - right. rewrite Hn by done. destruct alloc; mrun.
    + pose proof (kalloc_spec kend kend_ok s l Ha) as Hk. destruct l as [|t l'].
      { left. split_and!; [done|by right|]. unfold bind. by rewrite Hk. }
      right. destruct Hk as (s1 & Hk & Hr1 & Ha1 & _ & Hkp & Hc & Hco).
      pose proof (ki_valid _ _ _ Ha) as [Hvt _]%Forall_cons.
      pose proof (valid_page_u32 _ kend_ok _ Hvt) as Htr.
      unfold bind at 1. rewrite Hk. replace (t =? 0) with false by lia.
      unfold memset_at, st32. mrun. rewrite table_entry, (u32_small (t + _)) by (done || lia).
      eexists t, l', _. split_and!; [done..| | | | |]; cbn; [|by rewrite Hr1|done..].
      eapply pt_inv_new_table; [done..| |by cbn; rewrite Hr1].
      destruct Ha1 as [Hc1 Hnd1 Hv1 Hl1 Hm1].
      split; cbn; [|done..|auto with xv6].
      eapply free_chain_ext; [|exact Hc1]. intros q x Hq Hx.
      pose proof (proj1 (Forall_forall _ _) Hv1 q Hq) as Hvq.
      assert (q ≠ t) as Hqt.
      { intros ->. pose proof (ki_nodup _ _ _ Ha) as [? _]%NoDup_cons. done. }
      assert (q ≠ pgdir) as Hqd.
      { intros ->. apply not_elem_of_cons in Hdu as [_ ?]. done. }
      destruct (valid_page_disjoint kend q t Hvq Hvt Hqt),
               (valid_page_disjoint kend q pgdir Hvq Hd Hqd);
        rewrite store32_out, fill_out; unfold PGSIZE; done || lia.
    + left. split_and!; [done|by left|done].
Qed.

(** ** What installing a table or an entry changes *)

Lemma tables_set tab i t :
  0 <= i < 1024 → tab i = None → tables (tab_set i t tab) ≡ₚ t :: tables tab.
Proof.
  intros Hi Ht. apply (omap_update _ _ _ i).
  - apply NoDup_seqZ.
  - apply elem_of_seqZ. lia.
  - done.
  - unfold tab_set. by rewrite Z.eqb_refl.
  - intros j Hj. unfold tab_set. by rewrite (proj2 (Z.eqb_neq j i)).
Qed.

Lemma tables_eq tab n : Z.of_nat n = 1024 → omap tab (seqZ 0 (Z.of_nat n)) = tables tab.
Proof. unfold tables. intros ->. reflexivity. Qed.

Lemma tables_elem tab t : t ∈ tables tab ↔ ∃ i, 0 <= i < 1024 ∧ tab i = Some t.
Proof.
  unfold tables. rewrite list_elem_of_omap. split; intros (i & Hi & Ht); exists i.
  - apply elem_of_seqZ in Hi. split; [lia|exact Ht].
  - split; [apply elem_of_seqZ; lia|exact Ht].
Qed.

Lemma tables_NoDup tab :
  (∀ i j t, tab i = Some t → tab j = Some t → i = j) → NoDup (tables tab).
Proof. apply omap_NoDup, NoDup_seqZ. Qed.

Lemma tables_length tab : (length (tables tab) <= 1024)%nat.
Proof.
  unfold tables. replace 1024%nat with (length (seqZ 0 1024)) by (rewrite length_seqZ; lia).
  generalize (seqZ 0 1024) as ns. induction ns as [|i ns IH]; cbn; [lia|]. destruct (tab i); cbn; lia.
Qed.

Lemma tables_none : tables (λ _, None) = [].
Proof. unfold tables. by induction (seqZ 0 1024). Qed.

#[global] Opaque tables.

Lemma new_table_ptes s s' pgdir tab t l va0 va :
  pt_inv s pgdir tab (t :: l) → tab (PDX va0) = None →
  ram s' = store32 (fill (ram s) t 0 PGSIZE) (pgdir + 4 * PDX va0) (V2P t + 7) →
  pte_of (ram s') (tab_set (PDX va0) t tab) va = pte_of (ram s) tab va.
Proof.
  intros [Ha Hd Hdu Hn Hs Hinj] H0 Hr.
  pose proof (ki_valid _ _ _ Ha) as [Hvt _]%Forall_cons.
  apply not_elem_of_cons in Hdu as [Hdt _].
  pose proof (PDX_range va0). pose proof (PTX_range va).
  unfold pte_of, tab_set. rewrite Hr. case_if.
  - rewrite Heqb, H0. destruct (valid_page_disjoint kend pgdir t Hd Hvt Hdt);
      rewrite load32_store32_ne, load32_fill_zero; unfold PGSIZE; done || lia.
  - destruct (tab (PDX va)) as [u|] eqn:E; [|done].
    apply Hs in E as (_ & Hvu & Hud & [Hut _]%not_elem_of_cons & _).
    destruct (valid_page_disjoint kend u pgdir Hvu Hd Hud), (valid_page_disjoint kend u t Hvu Hvt Hut);
      rewrite load32_store32_ne, load32_fill_out; unfold PGSIZE; done || lia.
Qed.

Lemma new_table_outside s s' pgdir tab t l va0 x :
  pt_inv s pgdir tab (t :: l) →
  ram s' = store32 (fill (ram s) t 0 PGSIZE) (pgdir + 4 * PDX va0) (V2P t + 7) →
  outside pgdir tab (t :: l) x →
  outside pgdir (tab_set (PDX va0) t tab) l x ∧ ram s' x = ram s x.
Proof.
  intros Hinv Hr (Hod & Hot & Hol). pose proof (PDX_range va0).
  pose proof (Hol t ltac:(by left)) as Ht. split.
  - split_and!; [done| |intros p Hp; apply Hol; by right].
    intros i u. unfold tab_set. case_if; intros; simplify_eq; [done|]. by eapply Hot.
  - unfold in_page in *. rewrite Hr, store32_out, fill_out; unfold PGSIZE; done || lia.
Qed.

(** Writing the entry of [va] in an existing table. *)
Lemma store_pte_spec s pgdir tab l va t w :
  pt_inv s pgdir tab l → 0 <= va < 4294967296 → tab (PDX va) = Some t → 0 <= w < 4294967296 →
  let s' := set_ram (store32 (ram s) (t + 4 * PTX va) w) s in
  pt_inv s' pgdir tab l ∧
  (∀ va', 0 <= va' < 4294967296 →
     pte_of (ram s') tab va' = if va' / 4096 =? va / 4096 then w else pte_of (ram s) tab va') ∧
  (∀ x, outside pgdir tab l x → ram s' x = ram s x).
Proof.
  intros Hinv Hva Ht Hw s'. pose proof Hinv as [Ha Hd Hdu Hn Hs Hinj].
  destruct (Hs _ _ Ht) as (_ & Hvt & Htd & Htl & _).
  pose proof (PTX_range va) as Hpt.
  assert (Hother : ∀ p x, valid_page kend p → p ≠ t → in_page p x → ram s' x = ram s x).
  { intros p x Hvp Hne Hx. cbn. apply store32_out.
    destruct (valid_page_disjoint kend p t Hvp Hvt Hne); unfold in_page in Hx; lia. }
  assert (Hdir : ∀ i, 0 <= i < 1024 → load32 (ram s') (pgdir + 4 * i) = load32 (ram s) (pgdir + 4 * i)).
  { intros i Hi. apply load32_ext. intros x Hx. apply (Hother pgdir); [done|done|unfold in_page; lia]. }
  split_and!.
  - split; [|done|done| | |done].
    + destruct Ha as [Hc Hnd Hv Hl Hm]. split; [|done..|cbn; auto with xv6].
      eapply free_chain_ext; [|exact Hc]. intros q x Hq Hx.
      apply (Hother q); [by apply (proj1 (Forall_forall _ _) Hv)|by intros ->|unfold in_page; lia].
    + intros i Hi Hi'. rewrite Hdir by done. by apply Hn.
    + intros i u Hu. destruct (Hs i u Hu) as (? & ? & ? & ? & ?). split_and!; try done || lia.
      by rewrite Hdir by lia.
  - intros va' Hva'. pose proof (PTX_range va') as Hpt'. unfold pte_of.
    destruct (tab (PDX va')) as [u|] eqn:Eu.
    2:{ case_if; [|done]. destruct (index_page va' va) as [Hpd _]; [done..|]. congruence. }
    destruct (Hs _ _ Eu) as (_ & Hvu & _).
    destruct (decide (u = t)) as [->|Hne].
    + assert (PDX va' = PDX va) as Hpd by by eapply Hinj.
      case_if.
      * destruct (index_page va' va) as [_ ->]; [done..|]. cbn. by rewrite load32_store32_eq by lia.
      * cbn. apply load32_store32_ne.
        assert (PTX va' ≠ PTX va); [|lia]. intros Hpx. by destruct Heqb; apply same_index.
    + case_if.
      * destruct (index_page va' va) as [Hpd _]; [done..|]. congruence.
      * apply load32_ext. intros x Hx. apply (Hother u); [done|done|unfold in_page; lia].
  - intros x (_ & Hot & _). cbn. apply store32_out. specialize (Hot _ _ Ht). unfold in_page in Hot. lia.
Qed.

(** One or more updates of an address space: tables are only added, from the
    free list, and bytes outside directory, tables and free pages stay. *)
Record pt_step (pgdir : Z) (s : machine) (tab : Z → option Z) (l : list Z)
               (s' : machine) (tab' : Z → option Z) (l' : list Z) : Prop := {
  ps_inv : pt_inv s' pgdir tab' l';
  ps_keep : ∀ i t, tab i = Some t → tab' i = Some t;
  ps_suffix : ∃ used, l = used ++ l';
  ps_pages : tables tab' ++ l' ≡ₚ tables tab ++ l;
  ps_out : ∀ x, outside pgdir tab l x → outside pgdir tab' l' x ∧ ram s' x = ram s x;
  ps_misc : kpgdir s' = kpgdir s ∧ cr3 s' = cr3 s ∧ console s' = console s
}.

Lemma pt_step_refl pgdir s tab l : pt_inv s pgdir tab l → pt_step pgdir s tab l s tab l.
Proof. intros. split; try done. by exists []. Qed.

Lemma pt_step_trans pgdir s1 t1 l1 s2 t2 l2 s3 t3 l3 :
  pt_step pgdir s1 t1 l1 s2 t2 l2 → pt_step pgdir s2 t2 l2 s3 t3 l3 →
  pt_step pgdir s1 t1 l1 s3 t3 l3.
Proof.
  intros [I1 K1 [u1 ->] P1 O1 (M1 & N1 & C1)] [I2 K2 [u2 ->] P2 O2 (M2 & N2 & C2)]. split.
  - done.
  - auto.
  - exists (u1 ++ u2). by rewrite app_assoc.
  - by rewrite P2, P1.
  - intros x Hx. destruct (O1 x Hx) as [Hx2 E1]. destruct (O2 x Hx2) as [Hx3 E2].
    split; [done|congruence].
  - split_and!; congruence.
Qed.

(** Walking with [alloc] set: either the entry's table exists afterwards and no
    mapping changed, or no page was left. *)
Lemma walk_alloc_step s pgdir tab l va :
  pt_inv s pgdir tab l →
  (tab (PDX va) = None ∧ l = [] ∧ walkpgdir pgdir va true s = Done 0 s) ∨
  ∃ t s' tab' l', walkpgdir pgdir va true s = Done (t + 4 * PTX va) s' ∧
    0 < t + 4 * PTX va ∧ tab' (PDX va) = Some t ∧
    pt_step pgdir s tab l s' tab' l' ∧ (∀ va', pte_of (ram s') tab' va' = pte_of (ram s) tab va').
Proof.
  intros Hinv. pose proof (PTX_range va).
  destruct (walkpgdir_spec s pgdir tab l va true Hinv)
    as [(t & Ht & Hw) | [(Hn & [?| ->] & Hw) | (t & l' & s' & Hn & _ & -> & Hw & Hi & Hr & Hm)]].
  - right. exists t, s, tab, l.
    destruct (pi_some _ _ _ _ Hinv _ _ Ht) as (_ & Hvt & _).
    pose proof (valid_page_u32 _ kend_ok _ Hvt).
    split_and!; try done || lia. by apply pt_step_refl.
  - done.
  - left. done.
  - right. exists t, s', (tab_set (PDX va) t tab), l'.
    pose proof (PDX_range va) as Hpd.
    pose proof (ki_valid _ _ _ (pi_alloc _ _ _ _ Hinv)) as [Hvt _]%Forall_cons.
    pose proof (valid_page_u32 _ kend_ok _ Hvt).
    split_and!; [done|lia|unfold tab_set; by rewrite Z.eqb_refl| |].
    + split; [done| |by exists [t]| | |done].
      * intros i u Hu. unfold tab_set. case_if; [congruence|done].
      * rewrite tables_set by done. cbn [app]. by rewrite Permutation_middle.
      * intros x Hx. by eapply new_table_outside.
    + intros va'. by eapply new_table_ptes.
Qed.

Lemma store_pte_step s pgdir tab l va t w :
  pt_inv s pgdir tab l → 0 <= va < 4294967296 → tab (PDX va) = Some t → 0 <= w < 4294967296 →
  pt_step pgdir s tab l (set_ram (store32 (ram s) (t + 4 * PTX va) w) s) tab l.
Proof.
  intros Hinv Hva Ht Hw.
  destruct (store_pte_spec s pgdir tab l va t w Hinv Hva Ht Hw) as (Hi & _ & Ho).
  split; try done; [by exists []|]. intros x Hx. split; [done|by apply Ho].
Qed.

(** The entry [mappages] writes for the page at offset [d] of its range. *)
Definition map_pte (pa perm : Z) : Z := Z.lor (Z.lor pa perm) PTE_P.

Lemma map_pte_eq pa perm :
  pa mod 4096 = 0 → 0 <= perm < 4096 → map_pte pa perm = pa + Z.lor perm 1 ∧ 0 <= Z.lor perm 1 < 4096.
Proof.
  intros Ha Hp. unfold map_pte, PTE_P. rewrite <- Z.lor_assoc.
  assert (0 <= Z.lor perm 1 < 4096) as Hr.
  { split; [apply Z.lor_nonneg; lia|]. change 4096 with (2 ^ 12).
    destruct (decide (Z.lor perm 1 = 0)) as [->|]; [lia|].
    apply Z.log2_lt_pow2; [pose proof (proj2 (Z.lor_nonneg perm 1)); lia|].
    rewrite Z.log2_lor by lia. change (Z.log2 1) with 0.
    destruct (decide (perm = 0)) as [->|]; [cbn; lia|].
    apply Z.max_lub_lt; [|lia]. apply Z.log2_lt_pow2; lia. }
  split; [|done]. by apply pte_lor.
Qed.

(** One iteration of the loop of [mappages] on an unmapped page. *)
Lemma mappages_iter s pgdir tab l a pa perm :
  pt_inv s pgdir tab l → 0 <= a < 4294967296 → pa mod 4096 = 0 → 0 <= pa < 4294967296 →
  0 <= perm < 4096 → present (pte_of (ram s) tab a) = false →
  (l = [] ∧ ∀ fuel last, mappages_loop (S fuel) pgdir a last pa perm s = Done (-1) s) ∨
  ∃ s' tab' l', pt_step pgdir s tab l s' tab' l' ∧
    (∀ fuel last, mappages_loop (S fuel) pgdir a last pa perm s =
       if a =? last then Done 0 s'
       else mappages_loop fuel pgdir (u32 (a + PGSIZE)) last (u32 (pa + PGSIZE)) perm s') ∧
    ∀ va, 0 <= va < 4294967296 →
      pte_of (ram s') tab' va =
        if va / 4096 =? a / 4096 then map_pte pa perm else pte_of (ram s) tab va.
Proof.
  intros Hinv Ha Hpa Hp Hperm Hun.
  destruct (walk_alloc_step s pgdir tab l a Hinv)
    as [(Hnone & -> & Hw) | (t & s1 & tab1 & l1 & Hw & Hpos & Ht1 & Hst1 & Hsame1)].
  { left. split; [done|]. intros. cbn [mappages_loop]. unfold bind at 1. by rewrite Hw. }
  right. destruct (map_pte_eq pa perm Hpa Hperm) as [Hpte Hlow].
  assert (Hw32 : 0 <= map_pte pa perm < 4294967296) by (rewrite Hpte; pose proof (aligned_room pa Hpa); lia).
  destruct (store_pte_spec s1 pgdir tab1 l1 a t (map_pte pa perm)) as (Hi2 & Hpt2 & _);
    [apply Hst1|done..|].
  eexists _, tab1, l1. split; [|split].
  - eapply pt_step_trans; [exact Hst1|]. apply (store_pte_step _ _ _ _ a t (map_pte pa perm)); [apply Hst1|done..].
  - intros. cbn [mappages_loop]. unfold bind at 1. rewrite Hw.
    replace (t + 4 * PTX a =? 0) with false by lia.
    unfold ld32. mrun. rewrite <- (pte_of_some _ tab1), Hsame1, Hun by done.
    unfold st32. mrun. by case_if.
  - intros va Hva. rewrite Hpt2 by done. case_if; [done|apply Hsame1].
Qed.

Lemma mappages_loop_spec n : ∀ fuel pgdir s tab l a pa perm,
  pt_inv s pgdir tab l → (n < fuel)%nat →
  a mod 4096 = 0 → 0 <= a → a + 4096 * Z.of_nat n < 4294967296 →
  pa mod 4096 = 0 → 0 <= pa → pa + 4096 * Z.of_nat n < 4294967296 → 0 <= perm < 4096 →
  (∀ i, 0 <= i <= Z.of_nat n → present (pte_of (ram s) tab (a + 4096 * i)) = false) →
  ∃ r k s' tab' l',
    mappages_loop fuel pgdir a (a + 4096 * Z.of_nat n) pa perm s = Done r s' ∧
    pt_step pgdir s tab l s' tab' l' ∧
    (r = 0 ∧ k = Z.of_nat n + 1 ∨ r = -1 ∧ l' = [] ∧ 0 <= k <= Z.of_nat n) ∧
    ∀ va, 0 <= va < 4294967296 →
      pte_of (ram s') tab' va =
        if (a <=? va) && (va <? a + 4096 * k)
        then map_pte (pa + (va / 4096 * 4096 - a)) perm else pte_of (ram s) tab va.
Proof.
  induction n as [|n IH]; intros fuel pgdir s tab l a pa perm Hinv Hf Haa Ha Han Hpa Hp Hpn Hperm Hun;
    (destruct fuel as [|fuel]; [lia|]);
    (destruct (mappages_iter s pgdir tab l a pa perm)
      as [(-> & Hl) | (s1 & tab1 & l1 & Hst1 & Hl & Hpt1)];
      [done|lia|done|lia|done|replace a with (a + 4096 * 0) by lia; apply Hun; lia|..]);
    rewrite Hl.
  - exists (-1), 0, s, tab, []. split_and!;
      [done|by apply pt_step_refl|right; split_and!; done || lia|].
    intros va Hva. case_if; done || lia.
  - ztest (a =? a + 4096 * Z.of_nat 0) is true.
    exists 0, 1, s1, tab1, l1. split_and!; [done..|by left|].
    intros va Hva. rewrite Hpt1 by done. pose proof (page_of va a Haa) as Hpg.
    repeat case_if; try done; try lia. rewrite (page_base va a) by (done || lia). f_equal. lia.
  - exists (-1), 0, s, tab, []. split_and!;
      [done|by apply pt_step_refl|right; split_and!; done || lia|].
    intros va Hva. case_if; done || lia.
  - ztest (a =? a + 4096 * Z.of_nat (S n)) is false.
    unfold PGSIZE. rewrite !u32_small by lia.
    replace (a + 4096 * Z.of_nat (S n)) with (a + 4096 + 4096 * Z.of_nat n) by lia.
    destruct (IH fuel pgdir s1 tab1 l1 (a + 4096) (pa + 4096) perm)
      as (r & k & s2 & tab2 & l2 & Hl2 & Hst2 & Hr & Hpt2);
      [apply Hst1|lia|by apply aligned_next|lia|lia|by apply aligned_next|lia|lia|done| |].
    { intros i Hi. rewrite Hpt1 by lia. pose proof (page_of (a + 4096 + 4096 * i) a Haa).
      case_if; [lia|].
      replace (a + 4096 + 4096 * i) with (a + 4096 * (i + 1)) by lia. apply Hun. lia. }
    exists r, (k + 1), s2, tab2, l2. split_and!; [done|by eapply pt_step_trans| |].
    + destruct Hr as [[-> ->]|(-> & -> & ?)]; [left|right]; split_and!; lia || done.
    + intros va Hva. rewrite Hpt2, Hpt1 by done.
      assert (0 <= k) by (destruct Hr as [[-> ->]|(_ & _ & ?)]; lia).
      pose proof (page_of va a Haa) as Hpg.
      repeat case_if; try done; try lia.
      * f_equal. lia.
      * rewrite (page_base va a) by (done || lia). f_equal. lia.
Qed.

(** [mappages] on a range given by address and size. *)
Lemma mappages_spec s pgdir tab l va size pa perm :
  let a := va - va mod 4096 in
  let n := (va + size - 1) / 4096 - va / 4096 in
  pt_inv s pgdir tab l → 0 <= va → 0 < size → va + size <= 4294967296 →
  pa mod 4096 = 0 → 0 <= pa → pa + 4096 * n < 4294967296 → 0 <= perm < 4096 →
  (∀ x, a <= x < a + 4096 * (n + 1) → present (pte_of (ram s) tab x) = false) →
  ∃ r k s' tab' l',
    mappages pgdir va size pa perm s = Done r s' ∧
    pt_step pgdir s tab l s' tab' l' ∧
    (r = 0 ∧ k = n + 1 ∨ r = -1 ∧ l' = [] ∧ 0 <= k <= n) ∧
    ∀ x, 0 <= x < 4294967296 →
      pte_of (ram s') tab' x =
        if (a <=? x) && (x <? a + 4096 * k)
        then map_pte (pa + (x / 4096 * 4096 - a)) perm else pte_of (ram s) tab x.
Proof.
  intros a n Hinv Hva Hsz Hend Hpa Hp Hpn Hperm Hun.
  assert (Hn : 0 <= n < 1048576) by (unfold n; zlia).
  assert (Ha : a mod 4096 = 0 ∧ 0 <= a ∧ a + 4096 * n < 4294967296) by (unfold a, n; zlia).
  assert (Hlast : va + size - 1 - (va + size - 1) mod 4096 = a + 4096 * n) by (unfold a, n; zlia).
  unfold mappages. rewrite (u32_small (va + size - 1)) by lia.
  rewrite !PGROUNDDOWN_eq by lia. fold a. rewrite Hlast.
  destruct (mappages_loop_spec (Z.to_nat n) npages pgdir s tab l a pa perm)
    as (r & k & s' & tab' & l' & Hl & Hst & Hr & Hpt); try done || lia.
  - unfold npages. lia.
  - intros i Hi. apply Hun. lia.
  - rewrite Z2Nat.id in * by lia. exists r, k, s', tab', l'. split_and!; try done.
Qed.
End facts.
