(* ===== verification/VmUser.v ===== *)
(** * User address spaces (vm/vm.c)

    The user half of an address space is abstracted to a finite function [dm]
    from virtual page numbers to the page that backs each of them and its flags.
    [uvm_inv] ties it to the page tables in memory and states ownership: the
    directory, its tables, the data pages and the free pages are all distinct.
    The operations of vm.c that grow, shrink, copy and free an address space are
    proved against it. *)

From Stdlib Require Import ZArith Lia.
From stdpp Require Import base numbers list strings.
From S2P Require Import Prelude Mem Mmu Kalloc Vm VmFacts.

(** Pages of the user half: addresses below KERNBASE. *)
Definition user_pages : Z := 524288.

(** Number of pages that hold the first [sz] bytes. *)
Definition npg (sz : Z) : Z := (sz + 4095) / 4096.

Definition dm_set (pn : Z) (e : Z * Z) (dm : Z → option (Z * Z)) : Z → option (Z * Z) :=
  λ q, if q =? pn then Some e else dm q.

Definition dm_drop (lo hi : Z) (dm : Z → option (Z * Z)) : Z → option (Z * Z) :=
  λ q, if (lo <=? q) && (q <? hi) then None else dm q.

Lemma dm_drop_Some lo hi dm q e :
  dm_drop lo hi dm q = Some e ↔ ¬ (lo <= q < hi) ∧ dm q = Some e.
Proof. unfold dm_drop. case_if; split; intros; destruct_and?; done || (split; [lia|done]) || lia. Qed.

Lemma dm_drop_None lo hi dm q :
  dm_drop lo hi dm q = None ↔ lo <= q < hi ∨ dm q = None.
Proof. unfold dm_drop. case_if; (split; [intros; (by right) || (left; lia)|intros [?|?]; done || lia]). Qed.

(** The data pages of an address space. *)
Definition dpages (dm : Z → option (Z * Z)) : list Z :=
  omap (λ pn, fst <$> dm pn) (seqZ 0 user_pages).

Lemma dpages_set dm pn u f :
  0 <= pn < user_pages → dm pn = None → dpages (dm_set pn (u, f) dm) ≡ₚ u :: dpages dm.
Proof.
  intros Hpn Hn. apply (omap_update _ _ _ pn).
  - apply NoDup_seqZ.
  - apply elem_of_seqZ. lia.
  - by rewrite Hn.
  - unfold dm_set. by rewrite Z.eqb_refl.
  - intros j Hj. unfold dm_set. by rewrite (proj2 (Z.eqb_neq j pn)).
Qed.

Lemma dpages_fst dm dm' : (∀ pn, fst <$> dm pn = fst <$> dm' pn) → dpages dm = dpages dm'.
Proof. intros H. apply list_omap_ext, Forall2_same_length_lookup_2; [done|]. intros i x y Hx Hy. simplify_eq. by rewrite H. Qed.

Lemma dpages_ext dm dm' : (∀ pn, dm pn = dm' pn) → dpages dm = dpages dm'.
Proof. intros H. apply dpages_fst. intros pn. by rewrite H. Qed.

Lemma dpages_drop1 dm pn u f :
  0 <= pn < user_pages → dm pn = Some (u, f) →
  dpages dm ≡ₚ u :: dpages (dm_drop pn (pn + 1) dm).
Proof.
  intros Hpn Hs. rewrite <- (dpages_set _ pn u f Hpn).
  - erewrite dpages_ext; [done|]. intros q. unfold dm_set, dm_drop.
    case_if; [by subst|]. case_if; done || lia.
  - unfold dm_drop. by replace ((pn <=? pn) && (pn <? pn + 1)) with true by lia.
Qed.

Lemma dpages_none : dpages (λ _, None) = [].
Proof. unfold dpages. by induction (seqZ 0 user_pages). Qed.

Lemma dpages_elem dm u : u ∈ dpages dm → ∃ pn f, dm pn = Some (u, f).
Proof.
  unfold dpages. intros (pn & _ & H)%list_elem_of_omap. exists pn. destruct (dm pn) as [[v f]|]; cbn in H; simplify_eq. by exists f.
Qed.

Lemma dpages_length dm n :
  0 <= n <= user_pages → (∀ q, n <= q < user_pages → dm q = None) → Z.of_nat (length (dpages dm)) <= n.
Proof.
  intros Hn H. unfold dpages.
  replace (seqZ 0 user_pages) with (seqZ 0 n ++ seqZ (0 + n) (user_pages - n)) by (rewrite <- seqZ_app by lia; f_equal; lia).
  rewrite omap_app, length_app.
  assert (omap (λ pn, fst <$> dm pn) (seqZ (0 + n) (user_pages - n)) = []) as ->.
  { assert (Hall : Forall (λ q, dm q = None) (seqZ (0 + n) (user_pages - n)))
      by (apply Forall_forall; intros q ?%elem_of_seqZ; apply H; lia).
    induction Hall as [|q qs Hq _ IH]; [done|]. cbn. by rewrite Hq. }
  assert (Hle : ∀ qs : list Z, (length (omap (λ pn, fst <$> dm pn) qs) <= length qs)%nat)
    by (induction qs as [|q qs IH]; cbn; [lia|]; destruct (dm q); cbn; lia).
  specialize (Hle (seqZ 0 n)). rewrite length_seqZ in Hle. cbn. lia.
Qed.

#[global] Opaque dpages.

Section user.
Context (kend : Z) (kend_pos : KERNBASE < kend).

Local Lemma kend_ok : KERNBASE <= kend.
Proof using kend_pos. lia. Qed.

Record uvm_inv (s : machine) (pgdir : Z) (tab : Z → option Z)
               (dm : Z → option (Z * Z)) (l : list Z) : Prop := {
  ui_pt : pt_inv kend s pgdir tab l;
  ui_none : ∀ pn, 0 <= pn < user_pages → dm pn = None →
    present (pte_of (ram s) tab (4096 * pn)) = false;
  ui_some : ∀ pn u f, dm pn = Some (u, f) →
    0 <= pn < user_pages ∧ 0 <= f < 4096 ∧ present f = true ∧
    pte_of (ram s) tab (4096 * pn) = V2P u + f;
  ui_own : ∀ pn u f, dm pn = Some (u, f) →
    valid_page kend u ∧ u ≠ pgdir ∧ (u ∉ l) ∧ ∀ i, tab i ≠ Some u;
  ui_inj : ∀ pn pn' u f f', dm pn = Some (u, f) → dm pn' = Some (u, f') → pn = pn'
}.

(** Bytes of no page of the address space and of no free page. *)
Definition uoutside (pgdir : Z) (tab : Z → option Z) (dm : Z → option (Z * Z))
                    (l : list Z) (x : Z) : Prop :=
  outside pgdir tab l x ∧ ∀ pn u f, dm pn = Some (u, f) → ¬ in_page u x.

(** What an operation on the address space at [pgdir] may change. *)
Record uvm_step (pgdir : Z) (s : machine) (tab : Z → option Z) (dm : Z → option (Z * Z)) (l : list Z)
    (s' : machine) (tab' : Z → option Z) (dm' : Z → option (Z * Z)) (l' : list Z) : Prop := {
  us_inv : uvm_inv s' pgdir tab' dm' l';
  us_pages : tables tab' ++ dpages dm' ++ l' ≡ₚ tables tab ++ dpages dm ++ l;
  us_kern : ∀ va, 2147483648 <= va < 4294967296 →
    pte_of (ram s') tab' va = pte_of (ram s) tab va;
  us_user : ∀ pn u f x, dm pn = Some (u, f) → dm' pn = Some (u, f) → in_page u x →
    ram s' x = ram s x;
  us_out : ∀ x, uoutside pgdir tab dm l x → uoutside pgdir tab' dm' l' x ∧ ram s' x = ram s x;
  us_misc : kpgdir s' = kpgdir s ∧ cr3 s' = cr3 s
}.

Lemma uvm_step_refl pgdir s tab dm l :
  uvm_inv s pgdir tab dm l → uvm_step pgdir s tab dm l s tab dm l.
Proof. by split. Qed.

Lemma uvm_step_trans pgdir s1 t1 d1 l1 s2 t2 d2 l2 s3 t3 d3 l3 :
  uvm_step pgdir s1 t1 d1 l1 s2 t2 d2 l2 → uvm_step pgdir s2 t2 d2 l2 s3 t3 d3 l3 →
  (∀ pn e, d1 pn = Some e → d3 pn = Some e → d2 pn = Some e) →
  uvm_step pgdir s1 t1 d1 l1 s3 t3 d3 l3.
Proof.
  intros [I1 P1 K1 U1 O1 (M1 & N1)] [I2 P2 K2 U2 O2 (M2 & N2)] Hd. split.
  - done.
  - by rewrite P2, P1.
  - intros va Hva. by rewrite K2, K1.
  - intros pn u f x H1 H3 Hx. rewrite (U2 pn u f) by auto. apply (U1 pn u f); auto.
  - intros x Hx. destruct (O1 x Hx) as [Hx2 E1]. destruct (O2 x Hx2) as [Hx3 E2].
    split; [done|congruence].
  - split; congruence.
Qed.

(** Page tables survive a change of the free list and of memory that is not
    theirs. *)
Lemma pt_inv_frame s s' pgdir tab l l' :
  pt_inv kend s pgdir tab l → kalloc_inv kend s' l' →
  (∀ q, q ∈ l' → q ∈ l ∨ q ≠ pgdir ∧ ∀ i, tab i ≠ Some q) →
  (∀ x, in_page pgdir x → ram s' x = ram s x) →
  pt_inv kend s' pgdir tab l'.
Proof.
  intros [Ha Hd Hdu Hn Hs Hinj] Ha' Hl Hx.
  assert (Hdir : ∀ i, 0 <= i < 1024 → load32 (ram s') (pgdir + 4 * i) = load32 (ram s) (pgdir + 4 * i)).
  { intros i Hi. apply load32_ext. intros x Hxx. apply Hx. unfold in_page. lia. }
  split; [done..| | | |done].
  - intros Hin. destruct (Hl _ Hin) as [?|[? _]]; done.
  - intros i Hi Ht. rewrite Hdir by done. by apply Hn.
  - intros i t Ht. destruct (Hs _ _ Ht) as (Hi & Hv & Hne & Hnl & Hw). split_and!; try done || lia.
    + intros Hin. destruct (Hl _ Hin) as [?|[_ H]]; [done|by eapply H].
    + rewrite Hdir by done. done.
Qed.

Lemma pte_of_frame s s' tab va :
  (∀ i t x, tab i = Some t → in_page t x → ram s' x = ram s x) →
  pte_of (ram s') tab va = pte_of (ram s) tab va.
Proof.
  intros H. unfold pte_of. destruct (tab (PDX va)) as [t|] eqn:E; [|done].
  apply load32_ext. intros x Hx. apply (H _ _ _ E). pose proof (PTX_range va).
  unfold in_page. lia.
Qed.

(** A page is detached from the address space: no page of it is this one. *)
Lemma uoutside_page pgdir tab dm l p :
  p ≠ pgdir → (∀ i, tab i ≠ Some p) → p ∉ l → (∀ pn f, dm pn ≠ Some (p, f)) →
  valid_page kend p → valid_page kend pgdir → Forall (valid_page kend) l →
  (∀ i t, tab i = Some t → valid_page kend t) → (∀ pn u f, dm pn = Some (u, f) → valid_page kend u) →
  ∀ x, in_page p x → uoutside pgdir tab dm l x.
Proof.
  intros Hd Ht Hl Hm Hv Hvd Hvl Hvt Hvm x Hx.
  assert (Hq : ∀ q, valid_page kend q → q ≠ p → ¬ in_page q x).
  { intros q Hvq Hne Hqx. destruct (valid_page_disjoint kend q p Hvq Hv Hne);
      unfold in_page in *; lia. }
  split_and!; [split_and!|].
  - by apply Hq.
  - intros i t Hi. apply Hq; [by eapply Hvt|]. intros ->. by eapply Ht.
  - intros q Hin. apply Hq; [by eapply Forall_forall in Hvl|]. by intros ->.
  - intros pn u f Hp. apply Hq; [by eapply Hvm|]. intros ->. by eapply Hm.
Qed.

Lemma uoutside_detached pgdir tab dm l p :
  uoutside pgdir tab dm l p →
  p ≠ pgdir ∧ (∀ i, tab i ≠ Some p) ∧ (p ∉ l) ∧ ∀ pn f, dm pn ≠ Some (p, f).
Proof.
  intros ((H1 & H2 & H3) & H4).
  assert (in_page p p) by (unfold in_page; lia). split_and!.
  - by intros ->.
  - intros i Hi. by eapply H2.
  - intros Hin. by eapply H3.
  - intros pn f Hi. by eapply H4.
Qed.

(** The page [kalloc] returns is zeroed by the caller and belongs to no one. *)
Lemma kalloc_detach s pgdir tab dm m l :
  uvm_inv s pgdir tab dm (m :: l) →
  ∃ s1, kalloc s = Done m s1 ∧ 0 < m ∧ m + 4096 < 4294967296 ∧ valid_page kend m ∧
    kpgdir s1 = kpgdir s ∧ cr3 s1 = cr3 s ∧ console s1 = console s ∧ ram s1 = ram s ∧
    kalloc_inv kend s1 l ∧
    (∀ x, in_page m x → uoutside pgdir tab dm l x) ∧
    ∀ s2, kalloc_inv kend s2 l → (∀ x, ¬ in_page m x → ram s2 x = ram s x) →
      uvm_inv s2 pgdir tab dm l.
Proof using kend_pos.
  intros [Hpt Hn Hs Ho Hi]. pose proof Hpt as [Ha Hd Hdu Hpn Hps Hpi].
  destruct (kalloc_spec _ kend_ok _ _ Ha) as (s1 & Hk & Hr & Ha1 & Hul & Hm).
  pose proof (ki_valid _ _ _ Ha) as [Hvm Hvl]%Forall_cons.
  pose proof (ki_nodup _ _ _ Ha) as [Hml _]%NoDup_cons.
  apply not_elem_of_cons in Hdu as [Hdm Hdl].
  pose proof (valid_page_u32 _ kend_ok _ Hvm).
  assert (Hout : ∀ x, in_page m x → uoutside pgdir tab dm l x).
  { apply uoutside_page; try done.
    - intros i Ht. apply Hps in Ht as (_ & _ & _ & [Ht _]%not_elem_of_cons & _). done.
    - intros pn f Hp. apply Ho in Hp as (_ & _ & [Hp _]%not_elem_of_cons & _). done.
    - intros i t Ht. by apply Hps in Ht as (_ & ? & _).
    - intros pn u f Hp. by apply Ho in Hp as (? & _). }
  destruct Hm as (Hkp & Hc3 & Hco). exists s1. split_and!; try done || lia.
  intros s2 Ha2 Hx.
  assert (Hpte : ∀ va, pte_of (ram s2) tab va = pte_of (ram s) tab va).
  { intros va. apply pte_of_frame. intros i t x Ht Hxt. apply Hx. intros Hxm.
    destruct (Hout x Hxm) as ((_ & H2 & _) & _). by eapply H2. }
  split; [|..|done].
  - eapply pt_inv_frame; [done..| |].
    + intros q Hq. left. by right.
    + intros x Hxd. apply Hx. intros Hxm. by destruct (Hout x Hxm) as ((H1 & _) & _).
  - intros pn Hpn' Hnone. rewrite Hpte. auto.
  - intros pn u f Hp. rewrite Hpte. auto.
  - intros pn u f Hp. destruct (Ho _ _ _ Hp) as (? & ? & [? ?]%not_elem_of_cons & ?). done.
Qed.

(** [kfree] of a detached page. *)
Lemma kfree_detached s pgdir tab dm l m :
  uvm_inv s pgdir tab dm l → valid_page kend m → uoutside pgdir tab dm l m →
  (∀ x, in_page m x → uoutside pgdir tab dm l x) →
  ∃ s', kfree kend m s = Done tt s' ∧ uvm_inv s' pgdir tab dm (m :: l) ∧
    (∀ x, ¬ in_page m x → ram s' x = ram s x) ∧ kpgdir s' = kpgdir s ∧ cr3 s' = cr3 s ∧
    console s' = console s.
Proof using kend_pos.
  intros [Hpt Hn Hs Ho Hi] Hvm Hom Hxm. apply uoutside_detached in Hom as (Hmd & Hmt & Hml & Hmu).
  destruct (kfree_spec _ kend_ok _ _ _ (pi_alloc _ _ _ _ _ Hpt) Hvm Hml)
    as (s' & Hk & Ha & Hout & _ & _ & Hkp & Hc3 & Hco).
  assert (Hout' : ∀ x, ¬ in_page m x → ram s' x = ram s x).
  { intros x Hx. apply Hout. unfold in_page in Hx. lia. }
  assert (Hpte : ∀ va, pte_of (ram s') tab va = pte_of (ram s) tab va).
  { intros va. apply pte_of_frame. intros i t x Ht Hxt. apply Hout'. intros Hx.
    destruct (Hxm x Hx) as ((_ & H2 & _) & _). by eapply H2. }
  exists s'. split_and!; try done. split; [|..|done].
  - eapply pt_inv_frame; [done..| |].
    + intros q [->|Hq]%elem_of_cons; [by right|by left].
    + intros x Hxd. apply Hout'. intros Hx. by destruct (Hxm x Hx) as ((H1 & _) & _).
  - intros pn Hpn' Hnone. rewrite Hpte. auto.
  - intros pn u f Hp. rewrite Hpte. auto.
  - intros pn u f Hp. destruct (Ho _ _ _ Hp) as (? & ? & Hul' & ?). split_and!; try done.
    apply not_elem_of_cons. split; [|done]. intros ->. by eapply Hmu.
Qed.

(** The entry of a mapped user page: its address and flags can be read back. *)
Lemma user_entry u f :
  valid_page kend u → 0 <= f < 4096 → present f = true →
  present (V2P u + f) = true ∧ PTE_ADDR (V2P u + f) = V2P u ∧ PTE_FLAGS (V2P u + f) = f ∧
  V2P u ≠ 0 ∧ P2V (V2P u) = u ∧ 0 <= V2P u + f < 4294967296 ∧ V2P u mod 4096 = 0.
Proof using kend_pos.
  intros Hv Hf Hp. pose proof (valid_page_range _ kend_ok _ Hv) as Hr.
  assert (V2P u = u - KERNBASE) as -> by (apply V2P_eq; unfold KERNBASE, PHYSTOP in *; lia).
  destruct Hv as (Ha & Hk & _).
  assert (Hm : (u - KERNBASE) mod 4096 = 0) by (unfold KERNBASE; zlia).
  unfold KERNBASE, PHYSTOP in *. split_and!; try lia.
  - by rewrite present_flags, PTE_FLAGS_add by lia.
  - rewrite PTE_ADDR_add; lia.
  - rewrite PTE_FLAGS_add; lia.
  - rewrite P2V_eq; unfold KERNBASE; lia.
Qed.

(** One iteration of [deallocuvm] on a mapped page. *)
Lemma dealloc_page s pgdir tab dm l pn u f :
  uvm_inv s pgdir tab dm l → dm pn = Some (u, f) →
  ∃ t s1, tab (PDX (4096 * pn)) = Some t ∧ kfree kend u s = Done tt s1 ∧
    uvm_step pgdir s tab dm l
      (set_ram (store32 (ram s1) (t + 4 * PTX (4096 * pn)) 0) s1) tab (dm_drop pn (pn + 1) dm) (u :: l).
Proof using kend_pos.
  intros Hinv Hpn. pose proof Hinv as [Hpt Hn Hs Ho Hi].
  destruct (Hs _ _ _ Hpn) as (Hr & Hf & Hpf & Hpte).
  destruct (Ho _ _ _ Hpn) as (Hvu & Hud & Hul & Hut).
  destruct (user_entry u f Hvu Hf Hpf) as (Hpres & _).
  destruct (tab (PDX (4096 * pn))) as [t|] eqn:Et; cycle 1.
  { rewrite (pte_of_none _ _ _ Et) in Hpte. by rewrite <- Hpte, present_mod in Hpres. }
  destruct (kfree_spec _ kend_ok _ _ _ (pi_alloc _ _ _ _ _ Hpt) Hvu Hul)
    as (s1 & Hk & Ha & Hout & _ & _ & Hkp & Hc3 & Hco).
  assert (Hx1 : ∀ q x, valid_page kend q → q ≠ u → in_page q x → ram s1 x = ram s x).
  { intros q x Hvq Hne Hx. apply Hout.
    destruct (valid_page_disjoint kend q u Hvq Hvu Hne); unfold in_page in Hx; lia. }
  pose proof (pi_some _ _ _ _ _ Hpt) as Hps. pose proof (pi_dir _ _ _ _ _ Hpt) as Hvd.
  assert (Hpt1 : pt_inv kend s1 pgdir tab (u :: l)).
  { eapply pt_inv_frame; [done..| |].
    - intros q [->|Hq]%elem_of_cons; [by right|by left].
    - intros x Hx. by apply (Hx1 pgdir). }
  assert (Hp1 : ∀ va, pte_of (ram s1) tab va = pte_of (ram s) tab va).
  { intros va. apply pte_of_frame. intros i w x Hw. apply Hx1; [by apply Hps in Hw as (_ & ? & _)|].
    intros ->. by eapply Hut. }
  assert (Hva : 0 <= 4096 * pn < 2147483648) by (unfold user_pages in Hr; lia).
  destruct (store_pte_spec _ s1 _ _ _ (4096 * pn) t 0 Hpt1) as (Hpt2 & Hp2 & Hout2); [lia|done|lia|].
  exists t, s1. split_and!; [done..|]. set (s2 := set_ram _ s1) in *.
  assert (Hd1 : ∀ q e, dm_drop pn (pn + 1) dm q = Some e → q ≠ pn ∧ dm q = Some e).
  { intros q e [Hq He]%dm_drop_Some. split; [lia|done]. }
  split.
  - split.
    + done.
    + intros q Hq Hnone. rewrite Hp2, Hp1 by (unfold user_pages in *; lia).
      case_if; [by rewrite present_mod|]. apply Hn; [done|]. apply dm_drop_None in Hnone as [?|?]; [|done].
      replace q with pn in * by lia. zlia.
    + intros q v g [Hne Hq]%Hd1. destruct (Hs _ _ _ Hq) as (? & ? & ? & ?).
      split_and!; try done || lia. rewrite Hp2, Hp1 by (unfold user_pages in *; lia).
      case_if; [zlia|done].
    + intros q v g [Hne Hq]%Hd1. destruct (Ho _ _ _ Hq) as (? & ? & ? & ?).
      split_and!; try done. apply not_elem_of_cons. split; [|done].
      intros ->. destruct Hne. by eapply Hi.
    + intros q q' v g g' [_ Hq]%Hd1 [_ Hq']%Hd1. by eapply Hi.
  - rewrite (dpages_drop1 dm pn u f) by done. rewrite <- !app_comm_cons. f_equiv.
    by rewrite Permutation_middle.
  - intros va Hv. rewrite Hp2, Hp1 by lia. case_if; [zlia|done].
  - intros q v g x Hq [Hne _]%Hd1 Hx. destruct (Ho _ _ _ Hq) as (Hvv & Hvd' & Hvl & Hvt).
    assert (v ≠ u) by (intros ->; destruct Hne; by eapply Hi).
    rewrite <- (Hx1 v x) by done. apply Hout2.
    eapply (uoutside_page pgdir tab (λ _, None)); try done.
    + apply not_elem_of_cons. done.
    + apply Forall_cons. split; [done|]. apply (ki_valid _ _ _ (pi_alloc _ _ _ _ _ Hpt)).
    + intros i w Hw. by apply Hps in Hw as (_ & ? & _).
  - intros x (Hox & Hux). pose proof (Hux _ _ _ Hpn) as Hxu.
    destruct Hox as (H1 & H2 & H3).
    assert (outside pgdir tab (u :: l) x).
    { split_and!; [done..|]. intros p [->|Hp]%elem_of_cons; [done|by apply H3]. }
    split; [split; [done|]|].
    + intros q v g [_ Hq]%Hd1. by eapply Hux.
    + rewrite (Hout2 x) by done. apply Hout. unfold in_page in Hxu. lia.
  - done.
Qed.

(** What one iteration of the loop of [deallocuvm] does: it drops the pages from
    [p] to [p'], the next one to look at. *)
Lemma dealloc_iter s pgdir tab dm l p :
  uvm_inv s pgdir tab dm l → 0 <= p < user_pages →
  ∃ s' dm' l' p', uvm_step pgdir s tab dm l s' tab dm' l' ∧ p < p' ∧
    (∀ q, dm' q = dm_drop p p' dm q) ∧ (∀ q, p < q < p' → dm q = None) ∧
    (∃ freed, l' = freed ++ l) ∧ console s' = console s ∧
    ∀ fuel oldsz, 4096 * p < oldsz →
      deallocuvm_loop kend (S fuel) pgdir (4096 * p) oldsz s =
      deallocuvm_loop kend fuel pgdir (4096 * p') oldsz s'.
Proof using kend_pos.
  intros Hinv Hp. pose proof Hinv as [Hpt Hn Hs Ho Hi].
  assert (Hva : 0 <= 4096 * p < 2147483648) by (unfold user_pages in Hp; lia).
  destruct (walkpgdir_spec _ kend_ok s pgdir tab l (4096 * p) false Hpt)
    as [(t & Ht & Hw) | [(Hnone & _ & Hw) | (? & ? & ? & _ & ? & _)]]; [| |done].
  - destruct (pi_some _ _ _ _ _ Hpt _ _ Ht) as (_ & Hvt & _).
    pose proof (valid_page_u32 _ kend_ok _ Hvt). pose proof (PTX_range (4096 * p)).
    assert (Hpz : (t + 4 * PTX (4096 * p) =? 0) = false) by lia.
    assert (Hnext : u32 (4096 * p + PGSIZE) = 4096 * (p + 1)) by (unfold PGSIZE; u32s; lia).
    destruct (dm p) as [[u f]|] eqn:E.
    + destruct (dealloc_page s pgdir tab dm l p u f Hinv E) as (t' & s1 & Ht' & Hk & Hst).
      simplify_eq. destruct (Hs _ _ _ E) as (_ & Hf & Hpf & Hpte).
      destruct (Ho _ _ _ E) as (Hvu & _).
      destruct (user_entry u f Hvu Hf Hpf) as (Hpres & Haddr & _ & Hnz & Hback & _ & _).
      eexists _, _, _, (p + 1). split_and!; [exact Hst|lia|done|lia|by exists [u]| |].
      * cbn. destruct (kfree_spec _ kend_ok _ _ _ (pi_alloc _ _ _ _ _ Hpt) Hvu) as (s2 & Hk2 & Hm);
          [by apply Ho in E as (_ & _ & ? & _)|]. rewrite Hk in Hk2. simplify_eq. by apply Hm.
      * intros fuel oldsz Hlt. cbn [deallocuvm_loop]. ztest (4096 * p <? oldsz) is true.
        mcall Hw. rewrite Hpz. unfold ld32, st32. mrun.
        rewrite <- (pte_of_some (ram s) tab (4096 * p) t Ht), Hpte, Hpres, Haddr.
        rewrite (proj2 (Z.eqb_neq (V2P u) 0) Hnz), Hback. mcall Hk. by rewrite Hnext.
    + exists s, dm, l, (p + 1). split_and!; [by apply uvm_step_refl|lia| |lia|by exists []|done|].
      * intros q. unfold dm_drop. case_if; try done. by replace q with p by lia.
      * intros fuel oldsz Hlt. cbn [deallocuvm_loop]. ztest (4096 * p <? oldsz) is true.
        mcall Hw. rewrite Hpz. unfold ld32. mrun.
        rewrite <- (pte_of_some (ram s) tab (4096 * p) t Ht), Hn by done. mrun. by rewrite Hnext.
  - set (d := PDX (4096 * p)) in *.
    assert (Hd : 0 <= d <= 511 ∧ 1024 * d <= p < 1024 * (d + 1))
      by (unfold d; rewrite PDX_div by lia; zlia).
    assert (Hgap : ∀ q, p <= q < 1024 * (d + 1) → dm q = None).
    { intros q Hq. destruct (dm q) as [[u f]|] eqn:E; [|done].
      destruct (Hs _ _ _ E) as (Hqr & Hf & Hpf & Hpte). destruct (Ho _ _ _ E) as (Hvu & _).
      destruct (user_entry u f Hvu Hf Hpf) as (Hpres & _).
      rewrite pte_of_none in Hpte; [by rewrite <- Hpte, present_mod in Hpres|].
      replace (PDX (4096 * q)) with d; [done|]. unfold user_pages in *.
      rewrite PDX_div by lia. zlia. }
    exists s, dm, l, (1024 * (d + 1)).
    split_and!; [by apply uvm_step_refl|lia| |intros; apply Hgap; lia|by exists []|done|].
    + intros q. unfold dm_drop. case_if; try done. apply Hgap. lia.
    + intros fuel oldsz Hlt. cbn [deallocuvm_loop]. ztest (4096 * p <? oldsz) is true.
      mcall Hw. cbn [Z.eqb]. mrun. fold d. rewrite PGADDR_next by lia.
      replace (u32 (u32 ((d + 1) * 4194304 - PGSIZE) + PGSIZE)) with (4096 * (1024 * (d + 1)));
        [done|]. unfold PGSIZE. rewrite u32_add_l, u32_small; lia.
Qed.

Lemma deallocuvm_loop_spec fuel : ∀ s pgdir tab dm l p oldsz,
  uvm_inv s pgdir tab dm l → 0 <= p → oldsz <= 2147483648 → npg oldsz - p <= Z.of_nat fuel →
  ∃ s' dm' l', deallocuvm_loop kend fuel pgdir (4096 * p) oldsz s = Done tt s' ∧
    uvm_step pgdir s tab dm l s' tab dm' l' ∧ console s' = console s ∧
    (∃ freed, l' = freed ++ l) ∧ ∀ q, dm' q = dm_drop p (npg oldsz) dm q.
Proof using kend_pos.
  induction fuel as [|fuel IH]; intros s pgdir tab dm l p oldsz Hinv Hp Hold Hf;
    (destruct (decide (4096 * p < oldsz)) as [Hlt|Hge]; [|
      exists s, dm, l; split_and!; [cbn [deallocuvm_loop]; by ztest (4096 * p <? oldsz) is false|
        by apply uvm_step_refl|done|by exists []|
        intros q; unfold dm_drop; case_if; try done; unfold npg in *; zlia]]).
  - unfold npg in Hf. zlia.
  - destruct (dealloc_iter s pgdir tab dm l p Hinv) as (s1 & d1 & l1 & p1 & Hst & Hp1 & Hd1 & Hgap & [f1 ->] & Hc & Hrun).
    { unfold user_pages. lia. }
    rewrite Hrun by done.
    destruct (IH s1 pgdir tab d1 (f1 ++ l) p1 oldsz) as (s' & dm' & l' & Hr & Hst' & Hc' & [f2 ->] & Hd').
    + apply Hst.
    + lia.
    + done.
    + lia.
    + exists s', dm', (f2 ++ f1 ++ l). split_and!; [done| |congruence|by exists (f2 ++ f1); rewrite app_assoc|].
      * eapply uvm_step_trans; [done..|]. intros q e Hq He. rewrite Hd' in He.
        by apply dm_drop_Some in He as [_ ?].
      * intros q. rewrite Hd'. unfold dm_drop at 1. rewrite Hd1. unfold dm_drop.
        assert (p < npg oldsz) by (unfold npg; zlia).
        repeat case_if; try done || lia; rewrite Hgap by lia; done.
Qed.

Lemma npg_fuel sz : sz <= 2147483648 → npg sz <= Z.of_nat npages.
Proof. intros. unfold npg, npages. zlia. Qed.

Lemma PGROUNDUP_npg sz : 0 <= sz <= 2147483648 → PGROUNDUP sz = 4096 * npg sz.
Proof. intros. rewrite PGROUNDUP_eq by lia. unfold npg. zlia. Qed.

Lemma deallocuvm_spec s pgdir tab dm l oldsz newsz :
  uvm_inv s pgdir tab dm l → 0 <= newsz → oldsz <= 2147483648 →
  ∃ s' dm' l',
    deallocuvm kend pgdir oldsz newsz s = Done (if newsz >=? oldsz then oldsz else newsz) s' ∧
    uvm_step pgdir s tab dm l s' tab dm' l' ∧ console s' = console s ∧
    (∃ freed, l' = freed ++ l) ∧ ∀ q, dm' q = dm_drop (npg newsz) (npg oldsz) dm q.
Proof using kend_pos.
  intros Hinv Hn Ho. unfold deallocuvm. destruct (newsz >=? oldsz) eqn:E.
  - exists s, dm, l. split_and!; [done|by apply uvm_step_refl|done|by exists []|].
    intros q. unfold dm_drop. case_if; try done. unfold npg in *. zlia.
  - rewrite Z.geb_leb in E. zb. rewrite PGROUNDUP_npg by lia.
    destruct (deallocuvm_loop_spec npages s pgdir tab dm l (npg newsz) oldsz)
      as (s' & dm' & l' & Hr & Hst & Hc & Hfr & Hd); [done|unfold npg; zlia|lia| |].
    { pose proof (npg_fuel oldsz). assert (0 <= npg newsz) by (unfold npg; zlia). lia. }
    exists s', dm', l'. split_and!; try done. by mcall Hr.
Qed.

(** Data pages keep clear of the tables a page-table operation adds. *)
Lemma pt_step_out s pgdir tab dm l s' tab' l' x :
  pt_step kend pgdir s tab l s' tab' l' → uoutside pgdir tab dm l x →
  uoutside pgdir tab' dm l' x ∧ ram s' x = ram s x.
Proof. intros Hst [Ho Hu]. by destruct (ps_out _ _ _ _ _ _ _ _ Hst x Ho). Qed.

Lemma data_page_outside s pgdir tab dm l pn u f x :
  uvm_inv s pgdir tab dm l → dm pn = Some (u, f) → in_page u x → outside pgdir tab l x.
Proof.
  intros [Hpt Hn Hs Ho Hi] Hp. destruct (Ho _ _ _ Hp) as (Hv & Hd & Hl & Ht).
  apply (uoutside_page pgdir tab (λ _, None)); try done.
  - apply Hpt.
  - apply (ki_valid _ _ _ (pi_alloc _ _ _ _ _ Hpt)).
  - intros i t Hit. by apply (pi_some _ _ _ _ _ Hpt) in Hit as (_ & ? & _).
Qed.

Lemma data_page_kept s pgdir tab dm l s' tab' l' pn u f :
  uvm_inv s pgdir tab dm l → pt_step kend pgdir s tab l s' tab' l' → dm pn = Some (u, f) →
  u ≠ pgdir ∧ (u ∉ l') ∧ (∀ i, tab' i ≠ Some u) ∧ ∀ x, in_page u x → ram s' x = ram s x.
Proof.
  intros Hinv Hst Hp.
  assert (Hx : ∀ x, in_page u x → outside pgdir tab' l' x ∧ ram s' x = ram s x).
  { intros x Hx. eapply (ps_out _ _ _ _ _ _ _ _ Hst), data_page_outside; done. }
  assert (in_page u u) as Hu by (unfold in_page; lia).
  destruct (uoutside_detached pgdir tab' (λ _, None) l' u) as (? & ? & ? & _).
  { split; [|done]. by apply Hx. }
  split_and!; try done. intros x Hxu. by apply Hx.
Qed.

(** Page-table work that changes no entry. *)
Lemma pt_step_same s pgdir tab dm l s' tab' l' :
  uvm_inv s pgdir tab dm l → pt_step kend pgdir s tab l s' tab' l' →
  (∀ va, 0 <= va < 4294967296 → pte_of (ram s') tab' va = pte_of (ram s) tab va) →
  uvm_step pgdir s tab dm l s' tab' dm l'.
Proof.
  intros Hinv Hst Hpte. pose proof Hinv as [Hpt Hn Hs Ho Hi]. split.
  - split; [by apply Hst|..|done].
    + intros pn Hpn Hnone. rewrite Hpte by (unfold user_pages in Hpn; lia). auto.
    + intros pn u f Hp. destruct (Hs _ _ _ Hp) as (Hpn & ? & ? & ?).
      rewrite Hpte by (unfold user_pages in Hpn; lia). done.
    + intros pn u f Hp. destruct (Ho _ _ _ Hp) as (? & _).
      destruct (data_page_kept _ _ _ _ _ _ _ _ _ _ _ Hinv Hst Hp) as (? & ? & ? & _). done.
  - pose proof (ps_pages _ _ _ _ _ _ _ _ Hst) as Hpg.
    rewrite !(Permutation_app_comm (dpages dm)), !app_assoc, Hpg. done.
  - intros va Hva. apply Hpte. lia.
  - intros pn u f x Hp _ Hx. by eapply data_page_kept.
  - intros x Hx. by eapply pt_step_out.
  - by destruct (ps_misc _ _ _ _ _ _ _ _ Hst) as (? & ? & _).
Qed.

(** Page-table work that enters a detached page at an unmapped page number. *)
Lemma pt_step_map s pgdir tab dm l s' tab' l' pn m f :
  uvm_inv s pgdir tab dm l → valid_page kend m → (∀ x, in_page m x → uoutside pgdir tab dm l x) →
  0 <= pn < user_pages → dm pn = None → 0 <= f < 4096 → present f = true →
  pt_step kend pgdir s tab l s' tab' l' →
  (∀ va, 0 <= va < 4294967296 →
     pte_of (ram s') tab' va = if va / 4096 =? pn then V2P m + f else pte_of (ram s) tab va) →
  uvm_inv s' pgdir tab' (dm_set pn (m, f) dm) l'.
Proof.
  intros Hinv Hvm Hm Hpn Hnone Hf Hpf Hst Hpte. pose proof Hinv as [Hpt Hn Hs Ho Hi].
  destruct (uoutside_detached pgdir tab' dm l' m) as (Hmd & Hmt & Hml & Hmu).
  { eapply pt_step_out; [done|]. apply Hm. unfold in_page. lia. }
  assert (Hset : ∀ q u g, dm_set pn (m, f) dm q = Some (u, g) →
    q = pn ∧ u = m ∧ g = f ∨ q ≠ pn ∧ u ≠ m ∧ dm q = Some (u, g)).
  { intros q u g. unfold dm_set. case_if; intros; simplify_eq; [by left|right].
    split_and!; [done| |done]. intros ->. by eapply Hmu. }
  assert (Hpq : ∀ q, 0 <= q < user_pages → pte_of (ram s') tab' (4096 * q) =
    if q =? pn then V2P m + f else pte_of (ram s) tab (4096 * q)).
  { unfold user_pages. intros q Hq. rewrite Hpte by lia.
    by replace (4096 * q / 4096) with q by zlia. }
  split.
  - by apply Hst.
  - intros q Hq. unfold dm_set. case_if; [done|]. intros Hqn. rewrite Hpq by lia.
    case_if; [done|]. by apply Hn.
  - intros q u g [(-> & -> & ->) | (Hne & _ & Hq)]%Hset.
    + split_and!; try done || lia. rewrite Hpq by lia. by case_if.
    + destruct (Hs _ _ _ Hq) as (? & ? & ? & ?). split_and!; try done || lia.
      rewrite Hpq by lia. by case_if.
  - intros q u g [(-> & -> & ->) | (Hne & _ & Hq)]%Hset; [done|].
    destruct (Ho _ _ _ Hq) as (? & _).
    destruct (data_page_kept _ _ _ _ _ _ _ _ _ _ _ Hinv Hst Hq) as (? & ? & ? & _). done.
  - intros q q' u g g' [(-> & -> & ->) | (Hne & Hum & Hq)]%Hset [(-> & E & ->) | (Hne' & Hum' & Hq')]%Hset;
      try done. by eapply Hi.
Qed.

Lemma grow_mapped s pgdir tab dm m l pn f s2 s3 tab' l' :
  uvm_inv s2 pgdir tab dm l → valid_page kend m →
  (∀ x, in_page m x → uoutside pgdir tab dm l x) → (∀ x, ¬ in_page m x → ram s2 x = ram s x) →
  kpgdir s2 = kpgdir s → cr3 s2 = cr3 s →
  0 <= pn < user_pages → dm pn = None → 0 <= f < 4096 → present f = true →
  pt_step kend pgdir s2 tab l s3 tab' l' →
  (∀ va, 0 <= va < 4294967296 →
     pte_of (ram s3) tab' va = if va / 4096 =? pn then V2P m + f else pte_of (ram s2) tab va) →
  uvm_step pgdir s tab dm (m :: l) s3 tab' (dm_set pn (m, f) dm) l' ∧
  ∀ x, in_page m x → ram s3 x = ram s2 x.
Proof.
  intros Hi2 Hvm Hout Hm2 Hkp Hc3 Hpn Hnone Hf Hpf Hst Hpte.
  destruct (ps_misc _ _ _ _ _ _ _ _ Hst) as (Hkp3 & Hc33 & _).
  split; [split|].
  - by eapply pt_step_map.
  - pose proof (ps_pages _ _ _ _ _ _ _ _ Hst) as Hpg. rewrite (dpages_set dm) by done.
    rewrite (Permutation_app_comm _ l'), (Permutation_app_comm _ (m :: l)), !app_assoc, Hpg.
    rewrite <- !Permutation_middle. done.
  - intros va Hva. rewrite Hpte by lia. unfold user_pages in Hpn. case_if; [zlia|].
    apply pte_of_frame. intros i t x Ht Hx. apply Hm2. intros Hxm.
    destruct (Hout x Hxm) as ((_ & H2 & _) & _). by eapply H2.
  - intros q u g x Hq _ Hx. rewrite <- Hm2.
    + by eapply data_page_kept.
    + intros Hxm. destruct (Hout x Hxm) as (_ & H4). by eapply H4.
  - intros x ((H1 & H2 & H3) & H4). assert (Hxm : ¬ in_page m x) by (apply H3; by left).
    destruct (pt_step_out s2 pgdir tab dm l s3 tab' l' x Hst) as ([H5 H6] & Hr).
    { split; [|done]. split_and!; [done..|]. intros p Hp. apply H3. by right. }
    rewrite Hr, Hm2 by done. split; [|done]. split; [done|].
    intros q u g. unfold dm_set. case_if; intros; simplify_eq; [done|by eapply H6].
  - split; congruence.
  - intros x Hx. by eapply pt_step_out, Hout.
Qed.

(** The common step of [allocuvm], [copyuvm] and [inituvm]: take a page, fill it
    (memory becomes [m2], which differs only on that page) and map it. *)
Lemma grow_page s pgdir tab dm m l pn perm m2 :
  uvm_inv s pgdir tab dm (m :: l) → 0 <= pn < user_pages → dm pn = None → 0 <= perm < 4096 →
  mem_ok m2 → (∀ x, ¬ in_page m x → m2 x = ram s x) →
  ∃ s1, kalloc s = Done m s1 ∧ ram s1 = ram s ∧ 0 < m ∧ m + 4096 < 4294967296 ∧
    valid_page kend m ∧ (∀ x, in_page m x → uoutside pgdir tab dm l x) ∧
    ((∃ s3 tab', mappages pgdir (4096 * pn) PGSIZE (V2P m) perm (set_ram m2 s1) = Done (-1) s3 ∧
        uvm_step pgdir (set_ram m2 s1) tab dm l s3 tab' dm [] ∧ console s3 = console s ∧
        kpgdir s1 = kpgdir s ∧ cr3 s1 = cr3 s) ∨
     (∃ s3 tab' l', mappages pgdir (4096 * pn) PGSIZE (V2P m) perm (set_ram m2 s1) = Done 0 s3 ∧
        uvm_step pgdir s tab dm (m :: l) s3 tab' (dm_set pn (m, Z.lor perm 1) dm) l' ∧
        console s3 = console s ∧ ∀ x, in_page m x → ram s3 x = m2 x)).
Proof using kend_pos.
  intros Hinv Hpn Hnone Hperm Hok Hm2.
  destruct (kalloc_detach s pgdir tab dm m l Hinv)
    as (s1 & Hk & Hm0 & Hmr & Hvm & Hkp & Hc3 & Hco & Hram & Ha1 & Hout & Hinv2).
  assert (Hi2 : uvm_inv (set_ram m2 s1) pgdir tab dm l).
  { apply Hinv2; [|done]. destruct Ha1 as [C1 C2 C3 C4 C5]. split; try done. cbn.
    eapply free_chain_ext; [|exact C1]. intros q x Hq Hx. rewrite Hram. apply Hm2. intros Hxm.
    destruct (Hout x Hxm) as ((_ & _ & H3) & _). eapply H3; [done|]. unfold in_page. lia. }
  assert (HV : V2P m mod 4096 = 0 ∧ 0 <= V2P m < 4294967296).
  { destruct (user_entry m 1) as (_ & _ & _ & _ & _ & ? & ?);
      [done|lia|by rewrite present_mod|]. pose proof (Z.mod_pos_bound (V2P m) 4096).
    pose proof (valid_page_range _ kend_ok _ Hvm). unfold KERNBASE, PHYSTOP in *.
    rewrite V2P_eq in * by (unfold KERNBASE; lia). unfold KERNBASE in *. lia. }
  assert (Hva : 0 <= 4096 * pn < 2147483648) by (unfold user_pages in Hpn; lia).
  assert (Ha0 : 4096 * pn - 4096 * pn mod 4096 = 4096 * pn) by zlia.
  assert (Hn0 : (4096 * pn + PGSIZE - 1) / 4096 - 4096 * pn / 4096 = 0) by (unfold PGSIZE; zlia).
  destruct (mappages_spec _ kend_ok (set_ram m2 s1) pgdir tab l (4096 * pn) PGSIZE (V2P m) perm)
    as (r & k & s3 & tab' & l' & Hr & Hst & Hres & Hpte);
    try rewrite Hn0; try rewrite Ha0; try (unfold PGSIZE; lia); [apply Hi2| |].
  { intros x Hx. rewrite <- (pte_of_page _ _ (4096 * pn) x) by zlia. by apply (ui_none _ _ _ _ _ Hi2). }
  rewrite Hn0, Ha0 in *. exists s1. split_and!; try done.
  destruct (ps_misc _ _ _ _ _ _ _ _ Hst) as (Hkp3 & Hc33 & Hco3). cbn in Hkp3, Hc33, Hco3.
  destruct Hres as [[-> ->]|(-> & -> & Hk0)].
  - right. exists s3, tab', l'.
    destruct (map_pte_eq (V2P m) perm) as [Hmp Hf]; [lia..|].
    destruct (grow_mapped s pgdir tab dm m l pn (Z.lor perm 1) (set_ram m2 s1) s3 tab' l')
      as [Hus Hsame]; try done.
    + apply present_lor.
    + intros va Hv. rewrite Hpte by done. case_if; case_if; try zlia; try done.
      rewrite <- Hmp. f_equal. zlia.
    + split_and!; try done. congruence.
  - left. exists s3, tab'. split_and!; try done; try congruence.
    apply pt_step_same; [done..|]. intros va Hv. rewrite Hpte by done. case_if; done || lia.
Qed.

(** A page taken from the free list, not mapped, and freed again. *)
Lemma give_back s pgdir tab dm m l s2 s4 tab' dm' l' :
  valid_page kend m → (∀ x, in_page m x → uoutside pgdir tab dm l x) →
  (∀ x, ¬ in_page m x → ram s2 x = ram s x) → kpgdir s2 = kpgdir s → cr3 s2 = cr3 s →
  uvm_step pgdir s2 tab dm l s4 tab' dm' l' →
  ∃ s5, kfree kend m s4 = Done tt s5 ∧ console s5 = console s4 ∧
    uvm_step pgdir s tab dm (m :: l) s5 tab' dm' (m :: l').
Proof using kend_pos.
  intros Hvm Hout Hm2 Hkp Hc3 Hst.
  assert (Hout4 : ∀ x, in_page m x → uoutside pgdir tab' dm' l' x)
    by (intros x Hx; by apply (us_out _ _ _ _ _ _ _ _ _ Hst), Hout).
  destruct (kfree_detached s4 pgdir tab' dm' l' m) as (s5 & Hk & Hi5 & Hr5 & Hkp5 & Hc5 & Hco5);
    [apply Hst|done|apply Hout4; unfold in_page; lia|done|].
  exists s5. split_and!; [done..|]. destruct (us_misc _ _ _ _ _ _ _ _ _ Hst) as [Hkp4 Hc4].
  split.
  - done.
  - pose proof (us_pages _ _ _ _ _ _ _ _ _ Hst) as Hp.
    rewrite <- !Permutation_middle, Hp. done.
  - intros va Hva. rewrite (pte_of_frame s4 s5), (us_kern _ _ _ _ _ _ _ _ _ Hst) by
      (done || (intros i t x Ht Hx; apply Hr5; intros Hxm;
                destruct (Hout4 x Hxm) as ((_ & H2 & _) & _); by eapply H2)).
    apply pte_of_frame. intros i t x Ht Hx. apply Hm2. intros Hxm.
    destruct (Hout x Hxm) as ((_ & H2 & _) & _). by eapply H2.
  - intros pn u f x Hp Hp' Hx.
    assert (¬ in_page m x) by (intros Hxm; destruct (Hout x Hxm) as (_ & H4); by eapply H4).
    rewrite Hr5, <- Hm2 by done. by eapply (us_user _ _ _ _ _ _ _ _ _ Hst).
  - intros x ((H1 & H2 & H3) & H4). assert (Hxm : ¬ in_page m x) by (apply H3; by left).
    destruct (us_out _ _ _ _ _ _ _ _ _ Hst x) as (((H5 & H6 & H7) & H8) & Hr).
    { split; [|done]. split_and!; [done..|]. intros p Hp. apply H3. by right. }
    rewrite Hr5, Hr, Hm2 by done. split; [|done]. split; [|done]. split_and!; [done..|].
    intros p [->|Hp]%elem_of_cons; [done|by apply H7].
  - split; congruence.
Qed.

(** Outcome of growing an address space from page [p] to size [newsz]: success
    with fresh zeroed pages mapped user-writable, or failure with every page
    between the old and the new size unmapped and freed, which happens only when
    the free pages [l] do not suffice for the new pages and page tables. *)
Definition short (tab : Z → option Z) (l : list Z) (n : Z) : Prop :=
  Z.of_nat (length (tables tab) + length l) <= 1025 + n.

Lemma short_mono tab l n n' : short tab l n → n <= n' → short tab l n'.
Proof. unfold short. lia. Qed.

Lemma uvm_step_length pgdir s tab dm l s' tab' dm' l' :
  uvm_step pgdir s tab dm l s' tab' dm' l' →
  (length (tables tab') + length (dpages dm') + length l' =
   length (tables tab) + length (dpages dm) + length l)%nat.
Proof. intros Hst. pose proof (Permutation_length (us_pages _ _ _ _ _ _ _ _ _ Hst)) as H. rewrite !length_app in H. lia. Qed.

Definition grown (p oldsz newsz : Z) (tab : Z → option Z) (l : list Z)
    (dm dm' : Z → option (Z * Z)) (r : Z) (s' : machine) : Prop :=
  r = newsz ∧
    (∀ q, p <= q < npg newsz → ∃ u, dm' q = Some (u, 7) ∧ ∀ x, in_page u x → ram s' x = 0) ∧
    (∀ q, ¬ (p <= q < npg newsz) → dm' q = dm q) ∨
  r = 0 ∧ (∀ q, dm' q = dm_drop (npg oldsz) (npg newsz) dm q) ∧ short tab l (npg newsz - p).

Lemma uvm_step_print s pgdir tab dm l msg :
  uvm_inv s pgdir tab dm l →
  ∃ s', cprintf msg s = Done tt s' ∧ uvm_step pgdir s tab dm l s' tab dm l.
Proof.
  intros Hinv. eexists. split; [reflexivity|]. split; try done.
  destruct Hinv as [[[C1 C2 C3 C4 C5] P1 P2 P3 P4 P5] U1 U2 U3 U4].
  split; [split; [by split|done..]|done..].
Qed.

(** The message and the call of [deallocuvm] on the failure paths of [allocuvm]. *)
Lemma alloc_undo s pgdir tab dm l oldsz newsz msg {A} (k : M machine A) :
  uvm_inv s pgdir tab dm l → 0 <= oldsz → newsz <= 2147483648 →
  ∃ s' dm' l', uvm_step pgdir s tab dm l s' tab dm' l' ∧
    (∀ q, dm' q = dm_drop (npg oldsz) (npg newsz) dm q) ∧
    (cprintf msg ;;; deallocuvm kend pgdir newsz oldsz ;;; k) s = k s'.
Proof using kend_pos.
  intros Hinv Ho Hn. destruct (uvm_step_print s pgdir tab dm l msg Hinv) as (s1 & Hc & Hst1).
  destruct (deallocuvm_spec s1 pgdir tab dm l newsz oldsz) as (s2 & dm' & l' & Hr & Hst2 & _ & _ & Hd);
    [apply Hst1|done|lia|].
  exists s2, dm', l'. split_and!; [|done|].
  - eapply uvm_step_trans; [done..|]. by intros.
  - mcall Hc. by mcall Hr.
Qed.

Lemma memset_run s d c n :
  memset_at d c n s = Done tt (set_ram (fill (ram s) d c n) s).
Proof. done. Qed.

(** One iteration of [allocuvm] on an unmapped page: out of memory, or one more
    zeroed page. *)
Lemma alloc_iter s pgdir tab dm l p oldsz newsz :
  uvm_inv s pgdir tab dm l → 0 <= p < user_pages → dm p = None → 4096 * p < newsz →
  0 <= oldsz → newsz <= 2147483648 →
  (∃ s' tab' dm' l', uvm_step pgdir s tab dm l s' tab' dm' l' ∧
     (∀ q, dm' q = dm_drop (npg oldsz) (npg newsz) dm q) ∧ short tab l 0 ∧
     ∀ fuel, allocuvm_loop kend (S fuel) pgdir (4096 * p) oldsz newsz s = Done 0 s') ∨
  (∃ m s' tab' l', uvm_step pgdir s tab dm l s' tab' (dm_set p (m, 7) dm) l' ∧
     (∀ x, in_page m x → ram s' x = 0) ∧
     ∀ fuel, allocuvm_loop kend (S fuel) pgdir (4096 * p) oldsz newsz s =
             allocuvm_loop kend fuel pgdir (4096 * (p + 1)) oldsz newsz s').
Proof using kend_pos.
  intros Hinv Hp Hnone Hlt Hold Hnew. destruct l as [|m l].
  - left. destruct (alloc_undo s pgdir tab dm [] oldsz newsz "allocuvm out of memory" (ret 0))
      as (s' & dm' & l' & Hst & Hd & Hr); [done..|].
    exists s', tab, dm', l'. split_and!; [done..| |].
    { unfold short. pose proof (tables_length tab). cbn [length]. lia. }
    intros fuel. cbn [allocuvm_loop].
    ztest (4096 * p <? newsz) is true.
    pose proof (kalloc_spec _ kend_ok _ _ (pi_alloc _ _ _ _ _ (ui_pt _ _ _ _ _ Hinv))) as Hk.
    change (kalloc s = Done 0 s) in Hk. mcall Hk. cbn [Z.eqb]. by rewrite Hr.
  - destruct (grow_page s pgdir tab dm m l p 6 (fill (ram s) m 0 PGSIZE))
      as (s1 & Hk & Hram & Hm0 & Hmr & Hvm & Hout & Hcase); [done..|lia| | |].
    { apply mem_ok_fill. apply (ki_mem _ _ _ (pi_alloc _ _ _ _ _ (ui_pt _ _ _ _ _ Hinv))). }
    { intros x Hx. apply fill_out. unfold in_page in Hx. unfold PGSIZE. lia. }
    assert (Hrun : ∀ fuel, allocuvm_loop kend (S fuel) pgdir (4096 * p) oldsz newsz s =
      (r <- mappages pgdir (4096 * p) PGSIZE (V2P m) 6 ;;
       if r <? 0 then
         cprintf "allocuvm out of memory (2)" ;;; deallocuvm kend pgdir newsz oldsz ;;;
         kfree kend m ;;; ret 0
       else allocuvm_loop kend fuel pgdir (u32 (4096 * p + PGSIZE)) oldsz newsz)
      (set_ram (fill (ram s) m 0 PGSIZE) s1)).
    { intros fuel. cbn [allocuvm_loop]. ztest (4096 * p <? newsz) is true. mcall Hk.
      ztest (m =? 0) is false. mcall (memset_run s1 m 0 PGSIZE). by rewrite Hram. }
    destruct Hcase as [(s3 & tab' & Hmp & Hst & Hc & Hkp & Hc3) | (s3 & tab' & l' & Hmp & Hst & Hc & Hz)].
    + left. destruct (alloc_undo s3 pgdir tab' dm [] oldsz newsz "allocuvm out of memory (2)" (kfree kend m ;;; ret 0))
        as (s4 & dm' & l' & Hst4 & Hd & Hr); [apply Hst|done..|].
      destruct (give_back s pgdir tab dm m l (set_ram (fill (ram s) m 0 PGSIZE) s1) s4 tab' dm' l')
        as (s5 & Hk5 & _ & Hst5); [done..| |done|done| |].
      * intros x Hx. apply fill_out. unfold in_page in Hx. unfold PGSIZE. lia.
      * eapply uvm_step_trans; [done..|]. by intros.
      * exists s5, tab', dm', (m :: l'). split_and!; [done..| |].
        { pose proof (uvm_step_length _ _ _ _ _ _ _ _ _ Hst) as Hlen. pose proof (tables_length tab').
          unfold short. cbn [length] in *. lia. }
        intros fuel.
        rewrite Hrun. mcall Hmp. cbn [Z.ltb Z.compare]. rewrite Hr. by mcall Hk5.
    + right. exists m, s3, tab', l'. split_and!; [done| |].
      * intros x Hx. rewrite Hz by done. apply fill_in. unfold in_page in Hx. unfold PGSIZE. lia.
      * intros fuel. rewrite Hrun. mcall Hmp. cbn [Z.ltb Z.compare].
        replace (u32 (4096 * p + PGSIZE)) with (4096 * (p + 1)); [done|].
        unfold user_pages, PGSIZE in *. rewrite u32_small; lia.
Qed.

Lemma allocuvm_loop_spec fuel : ∀ s pgdir tab dm l p oldsz newsz,
  uvm_inv s pgdir tab dm l → 0 <= oldsz → npg oldsz <= p → newsz < 2147483648 →
  npg newsz - p <= Z.of_nat fuel → (∀ q, p <= q < npg newsz → dm q = None) →
  ∃ r s' tab' dm' l',
    allocuvm_loop kend fuel pgdir (4096 * p) oldsz newsz s = Done r s' ∧
    uvm_step pgdir s tab dm l s' tab' dm' l' ∧ grown p oldsz newsz tab l dm dm' r s'.
Proof using kend_pos.
  induction fuel as [|fuel IH]; intros s pgdir tab dm l p oldsz newsz Hinv Hold Hp Hnew Hf Hun;
    (assert (Hp0 : 0 <= p) by (unfold npg in Hp; zlia));
    (destruct (decide (4096 * p < newsz)) as [Hlt|Hge]; [|
      exists newsz, s, tab, dm, l; split_and!;
        [cbn [allocuvm_loop]; by ztest (4096 * p <? newsz) is false|by apply uvm_step_refl|
         left; split_and!; [done| |done]; intros q Hq; unfold npg in Hq; zlia]]).
  - unfold npg in Hf. zlia.
  - destruct (alloc_iter s pgdir tab dm l p oldsz newsz)
      as [(s' & tab' & dm' & l' & Hst & Hd & Hsh & Hr) | (m & s1 & tab1 & l1 & Hst1 & Hz & Hr)];
      [done|unfold user_pages; lia|apply Hun; unfold npg; zlia|lia..| |]; rewrite Hr.
    { exists 0, s', tab', dm', l'. split_and!; [done..|]. right. split_and!; [done..|].
      eapply short_mono; [done|]. unfold npg. zlia. }
    destruct (IH s1 pgdir tab1 (dm_set p (m, 7) dm) l1 (p + 1) oldsz newsz)
      as (r & s' & tab' & dm' & l' & Hrun & Hst & Hg); [apply Hst1|lia..| |].
    { intros q Hq. unfold dm_set. case_if; [lia|]. apply Hun. lia. }
    assert (Hpn : dm p = None) by (apply Hun; unfold npg; zlia).
    assert (npg oldsz <= p < npg newsz) by (unfold npg in *; zlia).
    exists r, s', tab', dm', l'. split_and!; [done| |].
    + eapply uvm_step_trans; [done..|]. intros q e Hq _. unfold dm_set. case_if; [congruence|done].
    + destruct Hg as [(-> & Hnew' & Hsame) | (-> & Hd & Hsh)]; [left|right]; split_and!; try done.
      * intros q Hq. destruct (decide (q = p)) as [->|]; [|apply Hnew'; lia].
        exists m. assert (Hp' : dm' p = Some (m, 7))
          by (rewrite Hsame by lia; unfold dm_set; by rewrite Z.eqb_refl).
        split; [done|]. intros x Hx. rewrite <- (Hz x) by done.
        eapply (us_user _ _ _ _ _ _ _ _ _ Hst p); [|done..]. unfold dm_set. by rewrite Z.eqb_refl.
      * intros q Hq. rewrite Hsame by lia. unfold dm_set. case_if; [lia|done].
      * intros q. rewrite Hd. unfold dm_drop, dm_set. repeat case_if; try done; lia.
      * pose proof (uvm_step_length _ _ _ _ _ _ _ _ _ Hst1) as Hlen.
        rewrite (Permutation_length (dpages_set dm p m 7 ltac:(unfold user_pages; lia) Hpn)) in Hlen.
        unfold short in *. cbn [length] in Hlen. lia.
Qed.

Lemma allocuvm_spec s pgdir tab dm l oldsz newsz :
  uvm_inv s pgdir tab dm l → 0 <= oldsz → 0 <= newsz →
  (∀ q, npg oldsz <= q < npg newsz → dm q = None) →
  ∃ r s' tab' dm' l', allocuvm kend pgdir oldsz newsz s = Done r s' ∧
    uvm_step pgdir s tab dm l s' tab' dm' l' ∧
    (r = newsz ∧ oldsz <= newsz < KERNBASE ∧
       (∀ q, npg oldsz <= q < npg newsz →
          ∃ u, dm' q = Some (u, 7) ∧ ∀ x, in_page u x → ram s' x = 0) ∧
       (∀ q, ¬ (npg oldsz <= q < npg newsz) → dm' q = dm q) ∨
     r = 0 ∧ (∀ q, dm' q = dm q) ∧ (KERNBASE <= newsz ∨ short tab l (npg newsz - npg oldsz)) ∨
     r = oldsz ∧ newsz < oldsz ∧ s' = s ∧ tab' = tab ∧ dm' = dm ∧ l' = l).
Proof using kend_pos.
  intros Hinv Ho Hn Hun. unfold allocuvm. rewrite Z.geb_leb.
  destruct (Z.leb_spec KERNBASE newsz) as [Hk|Hk].
  { exists 0, s, tab, dm, l. split_and!; [done|by apply uvm_step_refl|]. right. left. split_and!; try done. by left. }
  destruct (Z.ltb_spec newsz oldsz) as [Hlt|Hge].
  { exists oldsz, s, tab, dm, l. split_and!; [done|by apply uvm_step_refl|]. right. by right. }
  kconst. rewrite PGROUNDUP_npg by lia.
  destruct (allocuvm_loop_spec npages s pgdir tab dm l (npg oldsz) oldsz newsz)
    as (r & s' & tab' & dm' & l' & Hr & Hst & [(-> & H1 & H2)|(-> & Hd & Hsh)]); try done.
  - pose proof (npg_fuel newsz). assert (0 <= npg oldsz) by (unfold npg; zlia). lia.
  - exists newsz, s', tab', dm', l'. split_and!; [done..|]. left. by split_and!.
  - exists 0, s', tab', dm', l'. split_and!; [done..|]. right. left. split_and!; [done| |by right].
    intros q. rewrite Hd. unfold dm_drop. case_if; try done. symmetry. by apply Hun.
Qed.
End user.
