(* ===== verification/VmSpace.v ===== *)
(** * Life of an address space (vm/vm.c)

    Theorems about whole address spaces: growing and shrinking, freeing one
    without leaking a page, building the kernel half ([setupkvm]), copying one
    for [fork] ([copyuvm]) and writing into one ([copyout]). *)

From Stdlib Require Import ZArith Lia.
From stdpp Require Import base numbers list strings.
From S2P Require Import Prelude Mem Mmu Kalloc Vm VmFacts VmUser.

Section space.
Context (kend : Z) (kend_pos : KERNBASE < kend).

Local Lemma kend_le : KERNBASE <= kend.
Proof using kend_pos. lia. Qed.

(** The loop of [freevm] frees the tables that are left: those of [is]. *)
Lemma freevm_loop_spec pgdir tab n : ∀ s l i,
  kalloc_inv kend s l → valid_page kend pgdir → 0 <= i → i + Z.of_nat n <= 1024 →
  NoDup (omap tab (seqZ i (Z.of_nat n)) ++ pgdir :: l) →
  (∀ j, i <= j < i + Z.of_nat n → match tab j with
     | None => present (load32 (ram s) (pgdir + 4 * j)) = false
     | Some t => valid_page kend t ∧ load32 (ram s) (pgdir + 4 * j) = V2P t + 7
     end) →
  ∃ s' l', freevm_loop kend n pgdir i s = Done tt s' ∧ kalloc_inv kend s' l' ∧
    l' ≡ₚ omap tab (seqZ i (Z.of_nat n)) ++ l ∧
    kpgdir s' = kpgdir s ∧ cr3 s' = cr3 s ∧ console s' = console s ∧
    (∀ x, (∀ q, q ∈ l' → ¬ in_page q x) → ram s' x = ram s x).
Proof using kend_pos.
  induction n as [|n IH]; intros s l i Ha Hvd Hi Hn Hnd Htab.
  { exists s, l. by split_and!. }
  rewrite Nat2Z.inj_succ in *.
  rewrite (seqZ_cons i) in * by lia. replace (Z.pred (Z.succ (Z.of_nat n))) with (Z.of_nat n) in * by lia.
  cbn [freevm_loop]. unfold ld32. mrun. pose proof (valid_page_u32 _ kend_le _ Hvd).
  rewrite u32_small by lia. pose proof (Htab i ltac:(lia)) as Hti. cbn [omap list_omap] in *.
  destruct (tab i) as [t|] eqn:E.
  - destruct Hti as [Hvt Hw]. destruct (table_entry_parts _ kend_le _ Hvt) as (Hp & Hb & _).
    rewrite Hw, Hp, Hb. cbn [app] in Hnd. apply NoDup_cons in Hnd as [Ht Hnd].
    apply not_elem_of_app in Ht as [Ht1 [Htd Htl]%not_elem_of_cons].
    destruct (kfree_spec _ kend_le s l t Ha Hvt Htl) as (s1 & Hk & Ha1 & Hout & _ & _ & Hkp & Hc3 & Hco).
    mcall Hk.
    destruct (IH s1 (t :: l) (Z.succ i)) as (s' & l' & Hr & Ha' & Hl' & Hkp' & Hc3' & Hco' & Hx); [done|done|lia|lia| | |].
    + rewrite (Permutation_swap t pgdir), <- Permutation_middle. apply NoDup_cons. split; [|done].
      apply not_elem_of_app. split; [done|]. by apply not_elem_of_cons.
    + intros j Hj. pose proof (Htab j ltac:(lia)) as Htj.
      rewrite (load32_ext (ram s) (ram s1)); [done|]. intros x Hx. apply Hout.
      destruct (valid_page_disjoint kend pgdir t Hvd Hvt); [congruence|lia..].
    + exists s', l'. split_and!; try done; try congruence.
      * rewrite Hl'. by rewrite <- Permutation_middle.
      * intros x Hxq. rewrite Hx by done. apply Hout.
        assert (¬ in_page t x) as Hnt. { apply Hxq. rewrite Hl'. apply elem_of_app. right. by left. }
        unfold in_page in Hnt. lia.
  - rewrite Hti. mrun. destruct (IH s l (Z.succ i)) as (s' & l' & Hr & Hrest); [done..|lia|lia|done| |].
    + intros j Hj. apply Htab. lia.
    + by exists s', l'.
Qed.

(** Tearing down what [uvm_inv] describes, with no user page left. *)
Lemma freevm_spec s pgdir tab dm l :
  uvm_inv kend s pgdir tab dm l →
  ∃ s' l', freevm kend pgdir s = Done tt s' ∧ kalloc_inv kend s' l' ∧
    l' ≡ₚ pgdir :: tables tab ++ dpages dm ++ l ∧
    kpgdir s' = kpgdir s ∧ cr3 s' = cr3 s ∧ console s' = console s ∧
    (∀ x, uoutside pgdir tab dm l x → ram s' x = ram s x).
Proof using kend_pos.
  intros Hinv. pose proof (pi_dir _ _ _ _ _ (ui_pt _ _ _ _ _ _ Hinv)) as Hvd.
  pose proof (valid_page_u32 _ kend_le _ Hvd).
  unfold freevm. ztest (pgdir =? 0) is false.
  destruct (deallocuvm_spec kend kend_pos s pgdir tab dm l KERNBASE 0)
    as (s1 & dm1 & l1 & Hr1 & Hst & Hco & _ & Hd1); [done|lia|unfold KERNBASE; lia|].
  mcall Hr1. pose proof (us_inv _ _ _ _ _ _ _ _ _ _ Hst) as [[Ha1 _ Hdu1 Hn1 Hs1 Hi1] _ Hsome1 _ _].
  assert (Hdm1 : ∀ q, dm1 q = None).
  { intros q. destruct (dm1 q) as [[u f]|] eqn:E; [|done].
    destruct (Hsome1 _ _ _ E) as (Hq & _). rewrite Hd1 in E. apply dm_drop_Some in E as [Hnq _].
    unfold user_pages, npg, KERNBASE in *. zlia. }
  assert (Hp1 : tables tab ++ l1 ≡ₚ tables tab ++ dpages dm ++ l).
  { rewrite <- (us_pages _ _ _ _ _ _ _ _ _ _ Hst). rewrite (dpages_ext dm1 (λ _, None)) by done.
    by rewrite dpages_none. }
  assert (Hdt : pgdir ∉ tables tab).
  { intros (i & _ & Hi)%tables_elem. by apply Hs1 in Hi as (_ & _ & ? & _). }
  pose proof (tables_eq tab 1024 ltac:(lia)) as Htb.
  assert (Z.of_nat 1024 = 1024) as Hz by lia. remember 1024%nat as n eqn:En. clear En.
  destruct (freevm_loop_spec pgdir tab n s1 l1 0)
    as (s2 & l2 & Hr2 & Ha2 & Hl2 & Hkp2 & Hc2 & Hco2 & Hx2); [done|done|lia|lia| | |].
  { rewrite Htb. apply NoDup_app. split_and!.
    - by apply tables_NoDup.
    - intros t (i & _ & Ht)%tables_elem. apply Hs1 in Ht as (_ & _ & ? & ? & _).
      by apply not_elem_of_cons.
    - apply NoDup_cons. split; [done|]. apply Ha1. }
  { intros j Hj. rewrite Hz in Hj. destruct (tab j) as [t|] eqn:E.
    - by apply Hs1 in E as (_ & ? & _ & _ & ?).
    - apply Hn1; [lia|done]. }
  mcall Hr2. rewrite Htb in Hl2.
  assert (Hpl2 : pgdir ∉ l2). { rewrite Hl2. by apply not_elem_of_app. }
  destruct (kfree_spec _ kend_le s2 l2 pgdir Ha2 Hvd Hpl2) as (s3 & Hr3 & Ha3 & Hx3 & _ & _ & Hkp3 & Hc3 & Hco3).
  destruct (us_misc _ _ _ _ _ _ _ _ _ _ Hst) as [Hkp1 Hc1].
  exists s3, (pgdir :: l2). split_and!; try done; try congruence.
  - by rewrite Hl2, Hp1.
  - intros x Hx. destruct (us_out _ _ _ _ _ _ _ _ _ _ Hst x Hx) as (((H1 & H2 & H3) & _) & E).
    rewrite Hx3, Hx2, E; [done| |].
    + intros q Hq. rewrite Hl2 in Hq. apply elem_of_app in Hq as [(i & _ & Hq)%tables_elem|Hq].
      * by eapply H2.
      * by apply H3.
    + unfold in_page in H1. lia.
Qed.

(** ** The kernel half *)

Definition k_size (k : kmap_entry) : Z := u32 (k_phys_end k - k_phys_start k).

Definition k_in (k : kmap_entry) (va : Z) : bool :=
  (k_virt k <=? va) && (va <? k_virt k + k_size k).

(** What [setupkvm] relies on of an entry of [kmap]. *)
Definition kmap_wf (k : kmap_entry) : Prop :=
  2147483648 <= k_virt k ∧ k_virt k mod 4096 = 0 ∧ 0 < k_size k ∧ k_size k mod 4096 = 0 ∧
  k_virt k + k_size k <= 4294967296 ∧ k_phys_start k mod 4096 = 0 ∧ 0 <= k_phys_start k ∧
  k_phys_start k + k_size k <= 4294967296 ∧ 0 <= k_perm k < 4096.

(** The entry a table gives to [va]. *)
Fixpoint kmap_pte (ks : list kmap_entry) (va : Z) : option Z :=
  match ks with
  | [] => None
  | k :: ks' =>
      if k_in k va then Some (map_pte (k_phys_start k + (va / 4096 * 4096 - k_virt k)) (k_perm k))
      else kmap_pte ks' va
  end.

Fixpoint kmap_disjoint (ks : list kmap_entry) : Prop :=
  match ks with
  | [] => True
  | k :: ks' => (∀ va, k_in k va = true → kmap_pte ks' va = None) ∧ kmap_disjoint ks'
  end.

Lemma setupkvm_loop_spec pgdir ks : ∀ s tab l,
  pt_inv kend s pgdir tab l → Forall kmap_wf ks → kmap_disjoint ks →
  (∀ va, 0 <= va < 4294967296 → is_Some (kmap_pte ks va) → present (pte_of (ram s) tab va) = false) →
  ∃ r s' tab' l', setupkvm_loop pgdir ks s = Done r s' ∧ pt_step kend pgdir s tab l s' tab' l' ∧
    (∀ va, 0 <= va < 2147483648 → pte_of (ram s') tab' va = pte_of (ram s) tab va) ∧
    (r = -1 ∧ l' = [] ∨ r = 0 ∧ ∀ va, 0 <= va < 4294967296 →
       pte_of (ram s') tab' va = default (pte_of (ram s) tab va) (kmap_pte ks va)).
Proof using kend_pos.
  induction ks as [|k ks IH]; intros s tab l Hinv Hwf Hdis Hun.
  { exists 0, s, tab, l. split_and!; [done|by apply pt_step_refl|done|by right]. }
  apply Forall_cons in Hwf as [(Hv & Hva & Hs & Hsa & Hve & Hpa & Hp & Hpe & Hperm) Hwf].
  destruct Hdis as [Hd Hdis]. cbn [setupkvm_loop]. fold (k_size k).
  assert (Hn : (k_virt k + k_size k - 1) / 4096 - k_virt k / 4096 + 1 = k_size k / 4096) by zlia.
  assert (Hk4 : 4096 * (k_size k / 4096) = k_size k) by zlia.
  assert (Ha : k_virt k - k_virt k mod 4096 = k_virt k) by lia.
  destruct (mappages_spec _ kend_le s pgdir tab l (k_virt k) (k_size k) (k_phys_start k) (k_perm k))
    as (r & n & s1 & tab1 & l1 & Hr & Hst & Hres & Hpte); try done || lia.
  { rewrite Ha, Hn, Hk4. intros x Hx. apply Hun; [lia|]. cbn [kmap_pte].
    unfold k_in. ztest (k_virt k <=? x) is true. ztest (x <? k_virt k + k_size k) is true. by eexists. }
  mcall Hr. rewrite Ha in Hpte.
  assert (Hlow : ∀ va, 0 <= va < 2147483648 → pte_of (ram s1) tab1 va = pte_of (ram s) tab va).
  { intros va Hvv. rewrite Hpte by lia. by ztest (k_virt k <=? va) is false. }
  destruct Hres as [[-> ->]|(-> & -> & _)]; cbn [Z.ltb Z.compare]; cycle 1.
  { exists (-1), s1, tab1, []. split_and!; try done. by left. }
  rewrite Hn, Hk4 in Hpte.
  destruct (IH s1 tab1 l1) as (r & s' & tab' & l' & Hr' & Hst' & Hlow' & Hres'); [apply Hst|done|done| |].
  { intros va Hvr Hin. rewrite Hpte by done. fold (k_in k va). destruct (k_in k va) eqn:E.
    - apply Hd in E. rewrite E in Hin. by destruct Hin.
    - apply Hun; [done|]. cbn [kmap_pte]. by rewrite E. }
  exists r, s', tab', l'. split_and!; [done|by eapply pt_step_trans| |].
  - intros va Hvv. by rewrite Hlow', Hlow.
  - destruct Hres' as [[-> ->]|[-> Hall]]; [by left|right]. split; [done|].
    intros va Hvv. rewrite Hall, Hpte by done. cbn [kmap_pte]. fold (k_in k va).
    destruct (k_in k va) eqn:E; [|done]. by rewrite (Hd _ E).
Qed.

(** A zeroed page is an empty page directory. *)
Lemma new_directory s m l :
  kalloc_inv kend s (m :: l) →
  ∃ s1, kalloc s = Done m s1 ∧ ram s1 = ram s ∧ 0 < m ∧ valid_page kend m ∧
    kpgdir s1 = kpgdir s ∧ cr3 s1 = cr3 s ∧ console s1 = console s ∧
    pt_inv kend (set_ram (fill (ram s) m 0 PGSIZE) s1) m (λ _, None) l.
Proof using kend_pos.
  intros Ha. destruct (kalloc_spec _ kend_le _ _ Ha) as (s1 & Hk & Hr & Ha1 & _ & Hkp & Hc3 & Hco).
  pose proof (ki_valid _ _ _ Ha) as [Hvm _]%Forall_cons.
  pose proof (ki_nodup _ _ _ Ha) as [Hml _]%NoDup_cons.
  pose proof (valid_page_u32 _ kend_le _ Hvm).
  exists s1. split_and!; try done || lia. split; try done.
  - destruct Ha1 as [C1 C2 C3 C4 C5]. split; try done.
    + cbn. eapply free_chain_ext; [|exact C1]. intros q x Hq Hx. rewrite Hr. apply fill_out.
      pose proof (proj1 (Forall_forall _ _) C3 q Hq) as Hvq. unfold PGSIZE.
      destruct (valid_page_disjoint kend m q Hvm Hvq); [by intros ->|lia..].
    + cbn. apply mem_ok_fill. by rewrite <- Hr.
  - intros i Hi _. cbn. rewrite load32_fill_zero by (unfold PGSIZE; lia). by rewrite present_mod.
Qed.

Lemma uvm_inv_empty s pgdir tab l :
  pt_inv kend s pgdir tab l →
  (∀ va, 0 <= va < 2147483648 → pte_of (ram s) tab va = 0) → uvm_inv kend s pgdir tab (λ _, None) l.
Proof.
  intros Hpt H0. split; try done. intros pn Hpn _. rewrite H0 by (unfold user_pages in Hpn; lia).
  by rewrite present_mod.
Qed.

Context (kdata : Z) (kdata_ok : kdata mod 4096 = 0 ∧ KERNLINK < kdata ∧ kdata <= kend)
        (kend_top : kend < KERNBASE + PHYSTOP).

(** The kernel mappings every address space has. *)
Definition kvm_pte (va : Z) : Z :=
  let page := va - va mod 4096 in
  if (KERNBASE <=? va) && (va <? KERNLINK) then page - KERNBASE + 3
  else if (KERNLINK <=? va) && (va <? kdata) then page - KERNBASE + 1
  else if (kdata <=? va) && (va <? KERNBASE + PHYSTOP) then page - KERNBASE + 3
  else if (DEVSPACE <=? va) then page + 3
  else 0.

Lemma kmap_sizes :
  Forall2 (λ k z, k_size k = z) (kmap kdata)
    [EXTMEM; kdata - KERNLINK; KERNBASE + PHYSTOP - kdata; 0x2000000].
Proof using kdata_ok kend_top.
  unfold kmap, k_size, KERNLINK, EXTMEM, KERNBASE, PHYSTOP, DEVSPACE in *.
  rewrite !V2P_eq by (unfold KERNBASE; lia). unfold KERNBASE.
  repeat constructor; cbn [k_phys_end k_phys_start]; rewrite ?u32_small; lia || done.
Qed.

(** The table with its sizes computed. *)
Lemma kmap_facts :
  Forall kmap_wf (kmap kdata) ∧ kmap_disjoint (kmap kdata) ∧
  ∀ va, 0 <= va < 4294967296 → default 0 (kmap_pte (kmap kdata) va) = kvm_pte va.
Proof using kdata_ok kend_top.
  pose proof kmap_sizes as Hsz. unfold kmap in *.
  rewrite !Forall2_cons in Hsz. destruct Hsz as (S1 & S2 & S3 & S4 & _).
  assert (V1 : V2P KERNLINK = EXTMEM) by done.
  assert (V2 : V2P kdata = kdata - KERNBASE)
    by (apply V2P_eq; kconst; lia).
  rewrite V1, V2 in *.
  split_and!.
  - repeat (apply Forall_cons; split); [unfold kmap_wf; rewrite ?S1, ?S2, ?S3, ?S4;
      cbn [k_virt k_phys_start k_perm]..|done];
      kconst; unfold PTE_W; split_and!; try lia; zlia.
  - cbn [kmap_disjoint kmap_pte]. unfold k_in. rewrite ?S1, ?S2, ?S3, ?S4. cbn [k_virt].
    kconst.
    split_and!; try done; intros va Hva; repeat case_if; done || lia.
  - intros va Hva. cbn [kmap_pte]. unfold k_in, kvm_pte. rewrite ?S1, ?S2, ?S3, ?S4.
    cbn [k_virt k_phys_start k_perm].
    assert (Hw : ∀ pa, pa mod 4096 = 0 → map_pte pa PTE_W = pa + 3)
      by (intros pa Hpa; by rewrite (proj1 (map_pte_eq pa PTE_W Hpa ltac:(unfold PTE_W; lia)))).
    assert (H0 : ∀ pa, pa mod 4096 = 0 → map_pte pa 0 = pa + 1)
      by (intros pa Hpa; by rewrite (proj1 (map_pte_eq pa 0 Hpa ltac:(lia)))).
    kconst. repeat case_if; cbn [default from_option id]; try lia; rewrite ?Hw, ?H0; zlia.
Qed.

Lemma phystop_low : (P2V PHYSTOP >? DEVSPACE) = false.
Proof. done. Qed.

Lemma setupkvm_spec s l :
  kalloc_inv kend s l →
  (∃ s' l', setupkvm kend kdata s = Done 0 s' ∧ kalloc_inv kend s' l' ∧ l' ≡ₚ l ∧
     (∀ x, (∀ q, q ∈ l → ¬ in_page q x) → ram s' x = ram s x) ∧
     kpgdir s' = kpgdir s ∧ cr3 s' = cr3 s ∧ console s' = console s ∧ (length l <= 1025)%nat) ∨
  (∃ pgdir s' tab l', setupkvm kend kdata s = Done pgdir s' ∧ pgdir ≠ 0 ∧
     uvm_inv kend s' pgdir tab (λ _, None) l' ∧
     (∀ va, 0 <= va < 4294967296 → pte_of (ram s') tab va = kvm_pte va) ∧
     pgdir :: tables tab ++ l' ≡ₚ l ∧
     (∀ x, (∀ q, q ∈ l → ¬ in_page q x) →
        uoutside pgdir tab (λ _, None) l' x ∧ ram s' x = ram s x) ∧
     kpgdir s' = kpgdir s ∧ cr3 s' = cr3 s ∧ console s' = console s).
Proof using kend_pos kdata_ok kend_top.
  intros Ha. unfold setupkvm. destruct l as [|m l].
  { left. pose proof (kalloc_spec _ kend_le _ _ Ha) as Hk. change (kalloc s = Done 0 s) in Hk.
    exists s, []. mcall Hk. cbn [Z.eqb]. split_and!; try done. cbn. lia. }
  destruct (new_directory s m l Ha) as (s1 & Hk & Hr & Hm0 & Hvm & Hkp & Hc3 & Hco & Hpt).
  mcall Hk. ztest (m =? 0) is false. mcall (memset_run s1 m 0 PGSIZE).
  rewrite phystop_low, Hr.
  set (s2 := set_ram (fill (ram s) m 0 PGSIZE) s1) in *.
  destruct kmap_facts as (Hwf & Hdis & Hkvm).
  destruct (setupkvm_loop_spec m (kmap kdata) s2 (λ _, None) l)
    as (r & s3 & tab & l3 & Hrun & Hst & Hlow & Hres); [exact Hpt|done|done| |].
  { intros va _ _. rewrite pte_of_none by done. by rewrite present_mod. }
  assert (Hi3 : uvm_inv kend s3 m tab (λ _, None) l3).
  { apply uvm_inv_empty; [apply Hst|]. intros va Hva. rewrite Hlow by done. by apply pte_of_none. }
  pose proof (ps_pages _ _ _ _ _ _ _ _ Hst) as Hpg. rewrite tables_none in Hpg.
  destruct (ps_misc _ _ _ _ _ _ _ _ Hst) as (Hkp3 & Hc33 & Hco3). cbn in Hkp3, Hc33, Hco3.
  assert (Hx3 : ∀ x, (∀ q, q ∈ m :: l → ¬ in_page q x) →
    uoutside m tab (λ _, None) l3 x ∧ ram s3 x = ram s x).
  { intros x Hx. assert (Hxm : ¬ in_page m x) by (apply Hx; by left).
    destruct (ps_out _ _ _ _ _ _ _ _ Hst x) as [Ho E].
    - split_and!; [done..|]. intros p Hp. apply Hx. by right.
    - split; [by split|]. rewrite E. apply fill_out. unfold in_page in Hxm. unfold PGSIZE. lia. }
  mcall Hrun. destruct Hres as [[-> ->]|[-> Hpte]]; cbn [Z.ltb Z.compare].
  - left. destruct (freevm_spec s3 m tab (λ _, None) [] Hi3) as (s4 & l4 & Hf & Ha4 & Hl4 & Hkp4 & Hc4 & Hco4 & Hx4).
    mcall Hf. exists s4, l4. split_and!; try done; try congruence.
    + rewrite Hl4, dpages_none. cbn [app]. by rewrite Hpg.
    + intros x Hx. destruct (Hx3 x Hx) as [Ho E]. by rewrite Hx4.
    + apply Permutation_length in Hpg. rewrite length_app in Hpg. pose proof (tables_length tab). cbn in *. lia.
  - right. exists m, s3, tab, l3. split_and!; try done || lia; try congruence.
    + intros va Hva. rewrite Hpte, <- Hkvm by done. rewrite pte_of_none by done. done.
    + by rewrite Hpg.
Qed.
End space.
