(* ===== verification/VmCopy.v ===== *)
(** * Copying an address space (vm/vm.c, copyuvm)

    [fork] gives the child a copy of the parent's user memory.  The parent's
    pages lie outside the pages the child is built from, so that every step of
    the copy leaves the parent as it was. *)

From Stdlib Require Import ZArith Lia.
From stdpp Require Import base numbers list strings.
From S2P Require Import Prelude Mem Mmu Kalloc Vm VmFacts VmUser VmSpace.

(** Bytes of the pages of an address space. *)
Definition owned (pgdir : Z) (tab : Z → option Z) (dm : Z → option (Z * Z)) (x : Z) : Prop :=
  in_page pgdir x ∨ (∃ i t, tab i = Some t ∧ in_page t x) ∨
  (∃ pn u f, dm pn = Some (u, f) ∧ in_page u x).

Lemma present_lor_id f : 0 <= f < 4096 → present f = true → Z.lor f 1 = f.
Proof.
  rewrite present_mod. intros Hf Hp. zb.
  assert (∃ h, f = 2 * h + 1) as [h ->] by (exists (f / 2); zlia).
  apply Z.bits_inj'. intros n Hn. rewrite Z.lor_spec.
  destruct (decide (n = 0)) as [->|]; [by rewrite Z.testbit_odd_0|].
  replace n with (Z.succ (n - 1)) by lia.
  assert (Z.testbit 1 (Z.succ (n - 1)) = false) as ->; [|by rewrite orb_false_r].
  apply Z.bits_above_log2; [lia|]. change (Z.log2 1) with 0. lia.
Qed.

Section copy.
Context (kend : Z) (kend_pos : KERNBASE < kend).

Local Lemma kend_leq : KERNBASE <= kend.
Proof using kend_pos. lia. Qed.

(** The parent survives what keeps clear of its pages. *)
Lemma uvm_inv_keep s s' pgdir tab dm l l' :
  uvm_inv kend s pgdir tab dm l → kalloc_inv kend s' l' →
  (∀ x, owned pgdir tab dm x → ram s' x = ram s x) →
  (∀ q, q ∈ l' → ¬ owned pgdir tab dm q) →
  uvm_inv kend s' pgdir tab dm l'.
Proof.
  intros [[Ha Hd Hdu Hpn Hps Hpi] Hn Hs Ho Hi] Ha' Hx Hl.
  assert (Hin : ∀ p, in_page p p) by (unfold in_page; lia).
  assert (Hpte : ∀ va, pte_of (ram s') tab va = pte_of (ram s) tab va).
  { intros va. apply pte_of_frame. intros i t x Ht Hxt. apply Hx. right. left. by exists i, t. }
  assert (Hdir : ∀ i, 0 <= i < 1024 → load32 (ram s') (pgdir + 4 * i) = load32 (ram s) (pgdir + 4 * i)).
  { intros i Hir. apply load32_ext. intros x Hxx. apply Hx. left. unfold in_page. lia. }
  split; [split|..]; try done.
  - intros Hq. apply (Hl _ Hq). by left.
  - intros i Hir Ht. rewrite Hdir by done. by apply Hpn.
  - intros i t Ht. destruct (Hps _ _ Ht) as (? & ? & ? & ? & ?).
    rewrite Hdir by done. split_and!; try done || lia. intros Hq. apply (Hl _ Hq). right. left. by exists i, t.
  - intros pn Hr Hnone. rewrite Hpte. auto.
  - intros pn u f Hp. rewrite Hpte. auto.
  - intros pn u f Hp. destruct (Ho _ _ _ Hp) as (? & ? & ? & ?). split_and!; try done.
    intros Hq. apply (Hl _ Hq). right. right. by exists pn, u, f.
Qed.

(** A parent and a child under construction that share the free list. *)
Record family (s : machine) (p : Z) (tp : Z → option Z) (dp : Z → option (Z * Z))
    (c : Z) (tc : Z → option Z) (dc : Z → option (Z * Z)) (l : list Z) : Prop := {
  fa_parent : uvm_inv kend s p tp dp l;
  fa_child : uvm_inv kend s c tc dc l;
  fa_apart : ∀ x, owned p tp dp x → uoutside c tc dc l x
}.

Lemma family_step s p tp dp c tc dc l s' tc' dc' l' :
  family s p tp dp c tc dc l → uvm_step kend c s tc dc l s' tc' dc' l' →
  family s' p tp dp c tc' dc' l' ∧ ∀ x, owned p tp dp x → ram s' x = ram s x.
Proof.
  intros [Hp Hc Ha] Hst.
  assert (Hx : ∀ x, owned p tp dp x → uoutside c tc' dc' l' x ∧ ram s' x = ram s x)
    by (intros x Hx; by apply (us_out _ _ _ _ _ _ _ _ _ _ Hst), Ha).
  split; [|intros x Hxo; by apply Hx]. split.
  - eapply uvm_inv_keep; [done|apply Hst|intros x Hxo; by apply Hx|].
    intros q Hq Hqo. destruct (Hx q Hqo) as (((_ & _ & H3) & _) & _). apply (H3 q Hq).
    unfold in_page. lia.
  - apply Hst.
  - intros x Hxo. by apply Hx.
Qed.

Lemma memmove_run s d src n :
  memmove_at d src n s = Done tt (set_ram (blit (ram s) d src n) s).
Proof. done. Qed.

(** One iteration of [copyuvm] on a mapped page: out of memory, or one more page
    copied with its flags. *)
Lemma copy_iter s p tp dp c tc dc l q u f sz :
  family s p tp dp c tc dc l → dp q = Some (u, f) → dc q = None → 4096 * q < sz →
  (∃ s' tc' l', uvm_step kend c s tc dc l s' tc' dc l' ∧
     ∀ fuel, copyuvm_loop kend (S fuel) p c (4096 * q) sz s = Done (-1) s') ∨
  (∃ m s' tc' l', uvm_step kend c s tc dc l s' tc' (dm_set q (m, f) dc) l' ∧
     (∀ i, 0 <= i < 4096 → ram s' (m + i) = ram s (u + i)) ∧
     ∀ fuel, copyuvm_loop kend (S fuel) p c (4096 * q) sz s =
             copyuvm_loop kend fuel p c (4096 * (q + 1)) sz s').
Proof using kend_pos.
  intros [Hp Hc Hap] Hq Hcq Hlt.
  destruct (ui_some _ _ _ _ _ _ Hp _ _ _ Hq) as (Hqr & Hf & Hpf & Hpte).
  destruct (ui_own _ _ _ _ _ _ Hp _ _ _ Hq) as (Hvu & Hup & Hul & Hut).
  destruct (user_entry kend kend_pos u f Hvu Hf Hpf) as (Hpres & Haddr & Hflags & _ & Hback & _).
  destruct (walkpgdir_spec _ kend_leq s p tp l (4096 * q) false (ui_pt _ _ _ _ _ _ Hp))
    as [(t & Ht & Hw) | [(Hn & _ & Hw) | (? & ? & ? & _ & ? & _)]]; [| |done]; cycle 1.
  { rewrite (pte_of_none _ _ _ Hn) in Hpte. by rewrite <- Hpte, present_mod in Hpres. }
  destruct (pi_some _ _ _ _ _ (ui_pt _ _ _ _ _ _ Hp) _ _ Ht) as (_ & Hvt & _).
  pose proof (valid_page_u32 _ kend_leq _ Hvt). pose proof (PTX_range (4096 * q)).
  assert (Hrun : ∀ fuel, copyuvm_loop kend (S fuel) p c (4096 * q) sz s =
    (m <- kalloc ;;
     if m =? 0 then ret (-1)
     else memmove_at m u PGSIZE ;;;
          r <- mappages c (4096 * q) PGSIZE (V2P m) f ;;
          if r <? 0 then kfree kend m ;;; ret (-1)
          else copyuvm_loop kend fuel p c (u32 (4096 * q + PGSIZE)) sz) s).
  { intros fuel. cbn [copyuvm_loop]. ztest (4096 * q <? sz) is true. mcall Hw.
    ztest (t + 4 * PTX (4096 * q) =? 0) is false. unfold ld32. mrun.
    rewrite <- (pte_of_some (ram s) tp (4096 * q) t Ht), Hpte, Hpres, Haddr, Hflags, Hback. mrun. done. }
  destruct l as [|m l].
  { left. exists s, tc, []. split; [by apply uvm_step_refl|]. intros fuel. rewrite Hrun.
    pose proof (kalloc_spec _ kend_leq _ _ (pi_alloc _ _ _ _ _ (ui_pt _ _ _ _ _ _ Hp))) as Hk.
    change (kalloc s = Done 0 s) in Hk. by mcall Hk. }
  destruct (grow_page kend kend_pos s c tc dc m l q f (blit (ram s) m u PGSIZE))
    as (s1 & Hk & Hram & Hm0 & Hmr & Hvm & Hout & Hcase); [done|done|done|done| | |].
  { apply mem_ok_blit. apply (ki_mem _ _ _ (pi_alloc _ _ _ _ _ (ui_pt _ _ _ _ _ _ Hp))). }
  { intros x Hx. apply blit_out. unfold in_page in Hx. unfold PGSIZE. lia. }
  rewrite present_lor_id in Hcase by done.
  destruct Hcase as [(s3 & tc' & Hmp & Hst & Hc3 & Hkp & Hcr) | (s3 & tc' & l' & Hmp & Hst & _ & Hz)].
  - left. destruct (give_back kend kend_pos s c tc dc m l (set_ram (blit (ram s) m u PGSIZE) s1) s3 tc' dc [])
      as (s5 & Hk5 & _ & Hst5); [done..| |done|done|done|].
    { intros x Hx. apply blit_out. unfold in_page in Hx. unfold PGSIZE. lia. }
    exists s5, tc', [m]. split; [done|]. intros fuel. rewrite Hrun. mcall Hk. ztest (m =? 0) is false.
    mcall (memmove_run s1 m u PGSIZE). rewrite Hram. mcall Hmp. cbn [Z.ltb Z.compare]. by mcall Hk5.
  - right. exists m, s3, tc', l'. split_and!; [done| |].
    + intros i Hi. rewrite Hz by (unfold in_page; lia). rewrite blit_in by (unfold PGSIZE; lia).
      f_equal. lia.
    + intros fuel. rewrite Hrun. mcall Hk. ztest (m =? 0) is false.
      mcall (memmove_run s1 m u PGSIZE). rewrite Hram. mcall Hmp. cbn [Z.ltb Z.compare].
      replace (u32 (4096 * q + PGSIZE)) with (4096 * (q + 1)); [done|].
      unfold user_pages, PGSIZE in *. rewrite u32_small; lia.
Qed.

(** The pages from [lo] to [hi] of [dc'] are copies of those of [dp]. *)
Definition copied (lo hi : Z) (dp dc dc' : Z → option (Z * Z)) (s s' : machine) : Prop :=
  (∀ j u f, lo <= j < hi → dp j = Some (u, f) →
     ∃ u', dc' j = Some (u', f) ∧ ∀ i, 0 <= i < 4096 → ram s' (u' + i) = ram s (u + i)) ∧
  ∀ j, ¬ (lo <= j < hi) → dc' j = dc j.

Lemma copyuvm_loop_spec fuel : ∀ s p tp dp c tc dc l q sz,
  family s p tp dp c tc dc l → 0 <= q → npg sz - q <= Z.of_nat fuel →
  (∀ j, q <= j < npg sz → is_Some (dp j) ∧ dc j = None) →
  ∃ r s' tc' dc' l',
    copyuvm_loop kend fuel p c (4096 * q) sz s = Done r s' ∧
    uvm_step kend c s tc dc l s' tc' dc' l' ∧
    (r = -1 ∨ r = 0 ∧ copied q (npg sz) dp dc dc' s s').
Proof using kend_pos.
  induction fuel as [|fuel IH]; intros s p tp dp c tc dc l q sz Hfam Hq Hf Hmap;
    (destruct (decide (4096 * q < sz)) as [Hlt|Hge]; [|
      exists 0, s, tc, dc, l; split_and!;
        [cbn [copyuvm_loop]; by ztest (4096 * q <? sz) is false|by apply uvm_step_refl, Hfam|
         right; split; [done|]; split; [|done]; intros j ? ? Hj; unfold npg in Hj; zlia]]).
  - unfold npg in Hf. zlia.
  - assert (Hqr : q < npg sz) by (unfold npg; zlia).
    destruct (Hmap q) as [[[u f] Hu] Hcq]; [lia|].
    destruct (copy_iter s p tp dp c tc dc l q u f sz Hfam Hu Hcq Hlt)
      as [(s' & tc' & l' & Hst & Hrun) | (m & s1 & tc1 & l1 & Hst1 & Hcp & Hrun)]; rewrite Hrun.
    { exists (-1), s', tc', dc, l'. split_and!; [done..|by left]. }
    destruct (family_step _ _ _ _ _ _ _ _ _ _ _ _ Hfam Hst1) as [Hfam1 Hkeep].
    destruct (IH s1 p tp dp c tc1 (dm_set q (m, f) dc) l1 (q + 1) sz)
      as (r & s' & tc' & dc' & l' & Hr & Hst & Hres); [done|lia|lia| |].
    { intros j Hj. unfold dm_set. case_if; [lia|]. apply Hmap. lia. }
    exists r, s', tc', dc', l'. split_and!; [done| |].
    + eapply uvm_step_trans; [done..|]. intros j e Hj _. unfold dm_set. case_if; [congruence|done].
    + destruct Hres as [->|[-> [Hc1 Hc2]]]; [by left|right]. split; [done|].
      assert (Hset : dm_set q (m, f) dc q = Some (m, f)) by (unfold dm_set; by rewrite Z.eqb_refl).
      split.
      * intros j v g Hj Hv. destruct (decide (j = q)) as [->|].
        -- simplify_eq. exists m. assert (dc' q = Some (m, f)) as Hm by (by rewrite Hc2 by lia).
           split; [done|]. intros i Hi. rewrite <- Hcp by done.
           eapply (us_user _ _ _ _ _ _ _ _ _ _ Hst q); [done..|]. unfold in_page. lia.
        -- destruct (Hc1 j v g) as (u' & Hu' & He); [lia|done|]. exists u'. split; [done|].
           intros i Hi. rewrite He by done. apply Hkeep. right. right. exists j, v, g.
           split; [done|]. unfold in_page. lia.
      * intros j Hj. rewrite Hc2 by lia. unfold dm_set. case_if; [lia|done].
Qed.

Context (kdata : Z) (kdata_ok : kdata mod 4096 = 0 ∧ KERNLINK < kdata ∧ kdata <= kend)
        (kend_top : kend < KERNBASE + PHYSTOP).

Lemma owned_apart s p tp dp l x :
  uvm_inv kend s p tp dp l → owned p tp dp x → ∀ q, q ∈ l → ¬ in_page q x.
Proof.
  intros [[Ha Hd Hdu _ Hs _] _ _ Ho _] Hx q Hq Hqx.
  pose proof (proj1 (Forall_forall _ _) (ki_valid _ _ _ Ha) q Hq) as Hvq.
  assert (Hone : ∀ w, valid_page kend w → in_page w x → w = q).
  { intros w Hvw Hw. destruct (decide (w = q)) as [|Hne]; [done|].
    destruct (valid_page_disjoint kend w q Hvw Hvq Hne); unfold in_page in *; lia. }
  destruct Hx as [Hx|[(i & t & Ht & Hx)|(pn & u & f & Hu & Hx)]].
  - by rewrite (Hone _ Hd Hx) in Hdu.
  - destruct (Hs _ _ Ht) as (_ & Hv & _ & Hl & _). by rewrite (Hone _ Hv Hx) in Hl.
  - destruct (Ho _ _ _ Hu) as (Hv & _ & Hl & _). by rewrite (Hone _ Hv Hx) in Hl.
Qed.

(** C4 [copyuvm] never disturbs the parent.  When it returns a directory, every
    page below [sz] of the child has the flags and the bytes of the parent's
    page in a page of its own, the child has no other user page, the kernel half
    is the standard one, and the free list shrank by exactly the child's pages;
    when memory runs out it returns 0 and the free list is what it was. *)
Theorem copyuvm_copies s p tp dp l sz :
  uvm_inv kend s p tp dp l → 0 <= sz <= KERNBASE →
  (∀ j, 0 <= j < npg sz → is_Some (dp j)) →
  ∃ r s' l', copyuvm kend kdata p sz s = Done r s' ∧ uvm_inv kend s' p tp dp l' ∧
    (∀ x, owned p tp dp x → ram s' x = ram s x) ∧
    (r = 0 ∧ l' ≡ₚ l ∨
     ∃ tc dc, r ≠ 0 ∧ uvm_inv kend s' r tc dc l' ∧
       copied 0 (npg sz) dp (λ _, None) dc s s' ∧
       (∀ va, KERNBASE <= va < 4294967296 → pte_of (ram s') tc va = kvm_pte kdata va) ∧
       (∀ x, owned p tp dp x → ¬ owned r tc dc x) ∧
       r :: tables tc ++ dpages dc ++ l' ≡ₚ l).
Proof using kend_pos kdata_ok kend_top.
  intros Hp Hsz Hmap. unfold copyuvm. 
  assert (Hap : ∀ x, owned p tp dp x → ∀ q, q ∈ l → ¬ in_page q x) by (intros x; by eapply owned_apart).
  assert (Hnot : ∀ l' q, l' ⊆ l → q ∈ l' → ¬ owned p tp dp q).
  { intros l' q Hl' Hq Ho. apply (Hap q Ho q (Hl' q Hq)). unfold in_page. lia. }
  destruct (setupkvm_spec kend kend_pos kdata kdata_ok kend_top s l
              (pi_alloc _ _ _ _ _ (ui_pt _ _ _ _ _ _ Hp)))
    as [(s1 & l1 & Hr & Ha1 & Hl1 & Hx1 & Hm1) | (c & s1 & t1 & l1 & Hr & Hc0 & Hi1 & Hk1 & Hl1 & Hx1 & Hm1)].
  - mcall Hr. cbn [Z.eqb]. exists 0, s1, l1.
    assert (Hsame : ∀ x, owned p tp dp x → ram s1 x = ram s x)
      by (intros x Hx; by apply Hx1, Hap).
    split_and!; [done| |done|by left].
    eapply uvm_inv_keep; [done..|]. intros q. apply Hnot. by rewrite Hl1.
  - mcall Hr. ztest (c =? 0) is false.
    assert (Hfam : family s1 p tp dp c t1 (λ _, None) l1).
    { split; [|done|intros x Hx; by apply Hx1, Hap].
      eapply uvm_inv_keep; [done|apply Hi1|intros x Hx; by apply Hx1, Hap|].
      intros q. apply Hnot. intros y Hy. rewrite <- Hl1. right. apply elem_of_app. by right. }
    destruct (copyuvm_loop_spec npages s1 p tp dp c t1 (λ _, None) l1 0 sz)
      as (r & s2 & tc & dc & l2 & Hrun & Hst & Hres); [done|lia| | |].
    { pose proof (npg_fuel sz). kconst. lia. }
    { intros j Hj. split; [by apply Hmap|done]. }
    change (4096 * 0) with 0 in Hrun. mcall Hrun.
    destruct (family_step _ _ _ _ _ _ _ _ _ _ _ _ Hfam Hst) as [Hfam2 Hkeep].
    assert (Hsame : ∀ x, owned p tp dp x → ram s2 x = ram s x)
      by (intros x Hx; rewrite Hkeep by done; by apply Hx1, Hap).
    assert (Hpages : c :: tables tc ++ dpages dc ++ l2 ≡ₚ l).
    { by rewrite (us_pages _ _ _ _ _ _ _ _ _ _ Hst), dpages_none. }
    destruct Hres as [->|[-> [Hcp1 Hcp2]]]; cbn [Z.ltb Z.compare].
    + destruct (freevm_spec kend kend_pos s2 c tc dc l2 (fa_child _ _ _ _ _ _ _ _ Hfam2))
        as (s3 & l3 & Hf & Ha3 & Hl3 & _ & _ & _ & Hx3).
      mcall Hf. exists 0, s3, l3. rewrite Hpages in Hl3.
      assert (Hs3 : ∀ x, owned p tp dp x → ram s3 x = ram s x)
        by (intros x Hx; rewrite Hx3, Hsame by (done || by apply Hfam2); done).
      split_and!; [done| |done|by left].
      eapply uvm_inv_keep; [done..|]. intros q. apply Hnot. by rewrite Hl3.
    + exists c, s2, l2. split_and!; [done|apply Hfam2|done|right].
      exists tc, dc. split_and!; [done|apply Hfam2| | | |done].
      * split; [|done]. intros j u f Hj Hu. destruct (Hcp1 j u f Hj Hu) as (u' & Hu' & He).
        exists u'. split; [done|]. intros i Hi. rewrite He by done. apply Hx1, Hap.
        right. right. exists j, u, f. split; [done|]. unfold in_page. lia.
      * intros va Hva. kconst. rewrite (us_kern _ _ _ _ _ _ _ _ _ _ Hst), Hk1 by lia. done.
      * intros x Hx. destruct (fa_apart _ _ _ _ _ _ _ _ Hfam2 x Hx) as ((H1 & H2 & _) & H4).
        intros [?|[(i & t & Ht & Hxt)|(pn & u & f & Hu & Hxu)]]; [done|by eapply H2|by eapply H4].
Qed.
End copy.
