(* ===== verification/VmWrite.v ===== *)
(** * Writing into an address space (vm/vm.c, copyout and clearpteu)

    [exec] fills an address space that is not the current one.  [space_step] is
    what such an operation may change: the pages of the address space and the
    free pages, and nothing else.  [uread] is the memory a program sees through
    the page table. *)

From Stdlib Require Import ZArith Lia.
From stdpp Require Import base numbers list strings.
From S2P Require Import Prelude Mem Mmu Kalloc Vm VmFacts VmUser VmSpace VmCopy.

(** The byte at a user address. *)
Definition uread (m : mem) (d : Z → option (Z * Z)) (va : Z) : Z :=
  match d (va / 4096) with
  | Some (u, _) => m (u + va mod 4096)
  | None => 0
  end.

(** [n] bytes [bs] written at [a]. *)
Definition put (img : Z → Z) (a : Z) (bs : Z → Z) (n : Z) : Z → Z :=
  λ va, if (a <=? va) && (va <? a + n) then bs (va - a) else img va.

Lemma put_in img a bs n va : a <= va < a + n → put img a bs n va = bs (va - a).
Proof. intros. unfold put. case_if; done || lia. Qed.

Lemma put_out img a bs n va : ¬ (a <= va < a + n) → put img a bs n va = img va.
Proof. intros. unfold put. case_if; done || lia. Qed.

(** A page the user may touch. *)
Definition user_page (d : Z → option (Z * Z)) (q : Z) : Prop :=
  ∃ u f, d q = Some (u, f) ∧ user_ok f = true.

Lemma user_ok_mod pte : user_ok pte = ((pte / 4) mod 2 =? 1).
Proof.
  unfold user_ok, PTE_U. change 4 with (2 ^ 2) at 1.
  rewrite (Z.land_comm pte), Z.land_comm.
  assert (Z.land pte (2 ^ 2) = (pte / 4) mod 2 * 4) as ->; [|destruct (Z.eqb_spec ((pte / 4) mod 2) 1); pose proof (Z.mod_pos_bound (pte / 4) 2); zlia].
  apply Z.bits_inj'. intros n Hn. rewrite Z.land_spec, Z.pow2_bits_eqb by lia.
  change (pte / 4) with (pte / 2 ^ 2). change ((pte / 2 ^ 2) mod 2) with ((pte / 2 ^ 2) mod 2 ^ 1). change 4 with (2 ^ 2).
  rewrite Z.mul_pow2_bits by lia. destruct (Z.eqb_spec 2 n) as [<-|Hne].
  - rewrite Z.mod_pow2_bits_low, Z.div_pow2_bits by lia. by rewrite andb_true_r.
  - rewrite andb_false_r. destruct (Z.ltb_spec n 2); [by rewrite Z.testbit_neg_r by lia|].
    by rewrite Z.mod_pow2_bits_high by lia.
Qed.

(** Clearing the user bit of an entry with flags P, W and U. *)
Lemma clear_user a : a mod 4096 = 0 → 0 <= a → a + 7 < 4294967296 → Z.land (a + 7) 4294967291 = a + 3.
Proof.
  intros Ha H0 H1. rewrite <- (pte_lor a 7) by lia. rewrite Z.land_lor_distr_l.
  change (Z.land 7 4294967291) with 3. rewrite <- (pte_lor a 3) by lia. f_equal.
  change 4294967291 with (Z.lor 0xFFFFF000 4091). rewrite Z.land_lor_distr_r.
  pose proof (PGROUNDDOWN_eq a ltac:(lia)) as Hd. with_strategy transparent [PGROUNDDOWN] (unfold PGROUNDDOWN in Hd).
  rewrite Hd, Ha.
  change 4091 with (Z.land (Z.ones 12) 4091). rewrite Z.land_assoc, Z.land_ones by lia.
  change (2 ^ 12) with 4096. rewrite Ha, Z.land_0_l, Z.lor_0_r. lia.
Qed.

Section write.
Context (kend : Z) (kend_pos : KERNBASE < kend).

Local Lemma kend_le' : KERNBASE <= kend.
Proof using kend_pos. lia. Qed.

Record space_step (pgdir : Z) (s : machine) (tab : Z → option Z) (dm : Z → option (Z * Z)) (l : list Z)
    (s' : machine) (tab' : Z → option Z) (dm' : Z → option (Z * Z)) (l' : list Z) : Prop := {
  sp_inv : uvm_inv kend s' pgdir tab' dm' l';
  sp_pages : tables tab' ++ dpages dm' ++ l' ≡ₚ tables tab ++ dpages dm ++ l;
  sp_kern : ∀ va, 2147483648 <= va < 4294967296 →
    pte_of (ram s') tab' va = pte_of (ram s) tab va;
  sp_out : ∀ x, uoutside pgdir tab dm l x → uoutside pgdir tab' dm' l' x ∧ ram s' x = ram s x;
  sp_misc : kpgdir s' = kpgdir s ∧ cr3 s' = cr3 s
}.

Lemma space_step_refl pgdir s tab dm l :
  uvm_inv kend s pgdir tab dm l → space_step pgdir s tab dm l s tab dm l.
Proof. by split. Qed.

Lemma uvm_space_step pgdir s tab dm l s' tab' dm' l' :
  uvm_step kend pgdir s tab dm l s' tab' dm' l' → space_step pgdir s tab dm l s' tab' dm' l'.
Proof. by intros []. Qed.

Lemma space_step_trans pgdir s1 t1 d1 l1 s2 t2 d2 l2 s3 t3 d3 l3 :
  space_step pgdir s1 t1 d1 l1 s2 t2 d2 l2 → space_step pgdir s2 t2 d2 l2 s3 t3 d3 l3 →
  space_step pgdir s1 t1 d1 l1 s3 t3 d3 l3.
Proof.
  intros [I1 P1 K1 O1 (M1 & N1)] [I2 P2 K2 O2 (M2 & N2)]. split.
  - done.
  - by rewrite P2, P1.
  - intros va Hva. by rewrite K2, K1.
  - intros x Hx. destruct (O1 x Hx) as [Hx2 E1]. destruct (O2 x Hx2) as [Hx3 E2].
    split; [done|congruence].
  - split; congruence.
Qed.

(** Memory that changes only in data pages. *)
Lemma space_write pgdir s tab dm l m' :
  uvm_inv kend s pgdir tab dm l → mem_ok m' →
  (∀ x, (∀ pn u f, dm pn = Some (u, f) → ¬ in_page u x) → m' x = ram s x) →
  space_step pgdir s tab dm l (set_ram m' s) tab dm l.
Proof.
  intros Hinv Hok Hx. pose proof Hinv as [Hpt Hn Hs Ho Hi].
  assert (Hout : ∀ x, ¬ outside pgdir tab l x → m' x = ram s x).
  { intros x Hnx. apply Hx. intros pn u f Hp Hxu. apply Hnx. by eapply data_page_outside. }
  assert (Hpte : ∀ va, pte_of m' tab va = pte_of (ram s) tab va).
  { intros va. apply (pte_of_frame s (set_ram m' s)). intros i t x Ht Hxt. apply Hout.
    intros (_ & H2 & _). by eapply H2. }
  split; [|done|by intros; apply Hpte| |done].
  - split; [|by intros; cbn; rewrite Hpte; auto..|done|done].
    eapply pt_inv_frame; [done| |by left|].
    + destruct Hpt as [[C1 C2 C3 C4 C5] _ _ _ _ _]. split; try done. cbn.
      eapply free_chain_ext; [|exact C1]. intros q x Hq Hxq. apply Hout. intros (_ & _ & H3).
      apply (H3 q Hq). unfold in_page. lia.
    + intros x Hxd. cbn. apply Hout. by intros (? & _).
  - intros x [Hox Hux]. split; [done|]. cbn. by apply Hx.
Qed.

(** What the program sees after a write of [n] bytes at offset [o] of a page. *)
Lemma uread_put s pgdir tab dm l pn u f o n m' bs va :
  uvm_inv kend s pgdir tab dm l → dm pn = Some (u, f) → 0 <= o → o + n <= 4096 →
  (∀ i, 0 <= i < n → m' (u + o + i) = bs i) →
  (∀ x, ¬ (u + o <= x < u + o + n) → m' x = ram s x) →
  uread m' dm va = put (uread (ram s) dm) (4096 * pn + o) bs n va.
Proof.
  intros Hinv Hp Ho Hon Hin Hout. unfold uread.
  destruct (decide (4096 * pn + o <= va < 4096 * pn + o + n)) as [Hr|Hr].
  - rewrite put_in by done. replace (va / 4096) with pn by zlia. rewrite Hp.
    rewrite <- (Hin (va - (4096 * pn + o))) by lia. f_equal. zlia.
  - rewrite put_out by done. destruct (dm (va / 4096)) as [[v g]|] eqn:E; [|done].
    apply Hout. intros Hx. destruct (decide (v = u)) as [->|Hne].
    + assert (va / 4096 = pn) by (by eapply (ui_inj _ _ _ _ _ _ Hinv)). zlia.
    + destruct (ui_own _ _ _ _ _ _ Hinv _ _ _ Hp) as (Hvu & _).
      destruct (ui_own _ _ _ _ _ _ Hinv _ _ _ E) as (Hvv & _).
      destruct (valid_page_disjoint kend v u Hvv Hvu Hne); zlia.
Qed.

(** Memory that changes only outside the address space and the free pages. *)
Lemma outside_write m c t d l r :
  uvm_inv kend m c t d l → mem_ok r → (∀ x, ¬ uoutside c t d l x → r x = ram m x) →
  uvm_inv kend (set_ram r m) c t d l ∧ (∀ va, pte_of r t va = pte_of (ram m) t va) ∧
  ∀ va, uread r d va = uread (ram m) d va.
Proof.
  intros Hinv Hok Hx. pose proof Hinv as [Hpt Hn Hs Ho Hi].
  assert (Hpte : ∀ va, pte_of r t va = pte_of (ram m) t va).
  { intros va. apply (pte_of_frame m (set_ram r m)). intros i u x Hu Hxu. apply Hx. intros ((_ & H2 & _) & _). by eapply H2. }
  split_and!; [|done|].
  - split; [|by intros; cbn; rewrite Hpte; auto..|done|done].
    eapply pt_inv_frame; [done| |by left|].
    + destruct Hpt as [[C1 C2 C3 C4 C5] _ _ _ _ _]. split; try done. cbn.
      eapply free_chain_ext; [|exact C1]. intros q x Hq Hxq. apply Hx. intros ((_ & _ & H3) & _).
      apply (H3 q Hq). unfold in_page. lia.
    + intros x Hxd. cbn. apply Hx. by intros ((? & _) & _).
  - intros va. unfold uread. destruct (d (va / 4096)) as [[u f]|] eqn:E; [|done].
    apply Hx. intros (_ & H4). eapply H4; [done|]. unfold in_page. zlia.
Qed.

(** The entry of a mapped page, as the code finds it. *)
Lemma user_walk s pgdir tab dm l pn u f :
  uvm_inv kend s pgdir tab dm l → dm pn = Some (u, f) →
  ∃ t, tab (PDX (4096 * pn)) = Some t ∧ valid_page kend t ∧ 0 < t + 4 * PTX (4096 * pn) ∧
    walkpgdir pgdir (4096 * pn) false s = Done (t + 4 * PTX (4096 * pn)) s ∧
    load32 (ram s) (t + 4 * PTX (4096 * pn)) = V2P u + f.
Proof using kend_pos.
  intros Hinv Hp. destruct (ui_some _ _ _ _ _ _ Hinv _ _ _ Hp) as (Hr & Hf & Hpf & Hpte).
  destruct (ui_own _ _ _ _ _ _ Hinv _ _ _ Hp) as (Hvu & _).
  destruct (user_entry kend kend_pos u f Hvu Hf Hpf) as (Hpres & _).
  destruct (walkpgdir_spec _ kend_le' s pgdir tab l (4096 * pn) false (ui_pt _ _ _ _ _ _ Hinv))
    as [(t & Ht & Hw) | [(Hn & _ & Hw) | (? & ? & ? & _ & ? & _)]]; [| |done].
  - destruct (pi_some _ _ _ _ _ (ui_pt _ _ _ _ _ _ Hinv) _ _ Ht) as (_ & Hvt & _).
    pose proof (valid_page_u32 _ kend_le' _ Hvt). pose proof (PTX_range (4096 * pn)).
    exists t. split_and!; try done || lia. by rewrite <- Hpte, (pte_of_some _ _ _ _ Ht).
  - rewrite (pte_of_none _ _ _ Hn) in Hpte. by rewrite <- Hpte, present_mod in Hpres.
Qed.

Lemma uva2ka_spec s pgdir tab dm l pn u f :
  uvm_inv kend s pgdir tab dm l → dm pn = Some (u, f) →
  uva2ka pgdir (4096 * pn) s = Done (if user_ok f then u else 0) s.
Proof using kend_pos.
  intros Hinv Hp. destruct (user_walk _ _ _ _ _ _ _ _ Hinv Hp) as (t & _ & _ & Ht & Hw & Hld).
  destruct (ui_some _ _ _ _ _ _ Hinv _ _ _ Hp) as (_ & Hf & Hpf & _).
  destruct (ui_own _ _ _ _ _ _ Hinv _ _ _ Hp) as (Hvu & _).
  destruct (user_entry kend kend_pos u f Hvu Hf Hpf) as (Hpres & Haddr & _ & _ & Hback & _ & Hmod).
  unfold uva2ka. mcall Hw. ztest (t + 4 * PTX (4096 * pn) =? 0) is false. unfold ld32. mrun.
  rewrite Hld, Hpres, Haddr, Hback. cbn [negb].
  assert (user_ok (V2P u + f) = user_ok f) as ->.
  { rewrite !user_ok_mod. f_equal. zlia. }
  by destruct (user_ok f).
Qed.

(** A kernel address: its entry is there, but not for the user. *)
Lemma uva2ka_kernel s pgdir tab dm l va :
  uvm_inv kend s pgdir tab dm l → present (pte_of (ram s) tab va) = true →
  user_ok (pte_of (ram s) tab va) = false → uva2ka pgdir va s = Done 0 s.
Proof using kend_pos.
  intros Hinv Hp Hu.
  destruct (walkpgdir_spec _ kend_le' s pgdir tab l va false (ui_pt _ _ _ _ _ _ Hinv))
    as [(t & Ht & Hw) | [(Hn & _ & Hw) | (? & ? & ? & _ & ? & _)]]; [| |done].
  - destruct (pi_some _ _ _ _ _ (ui_pt _ _ _ _ _ _ Hinv) _ _ Ht) as (_ & Hvt & _).
    pose proof (valid_page_u32 _ kend_le' _ Hvt). pose proof (PTX_range va).
    unfold uva2ka. mcall Hw. ztest (t + 4 * PTX va =? 0) is false. unfold ld32. mrun.
    rewrite <- (pte_of_some (ram s) tab va t Ht), Hp, Hu. done.
  - by rewrite (pte_of_none _ _ _ Hn), present_mod in Hp.
Qed.

(** Where the page table is missing [uva2ka] reads through a null pointer, so
    [copyout] faults instead of returning -1. *)
Lemma copyout_no_table fuel s pgdir tab dm l va buf len :
  uvm_inv kend s pgdir tab dm l → tab (PDX (PGROUNDDOWN va)) = None → 0 < len →
  copyout_loop (S fuel) pgdir va buf len s = Fault.
Proof using kend_pos.
  intros Hinv Hn Hlen. cbn [copyout_loop]. rewrite Z.gtb_ltb. ztest (0 <? len) is true.
  destruct (walkpgdir_spec _ kend_le' s pgdir tab l (PGROUNDDOWN va) false (ui_pt _ _ _ _ _ _ Hinv))
    as [(t & Ht & _) | [(_ & _ & Hw) | (? & ? & ? & _ & ? & _)]]; [congruence| |done].
  unfold uva2ka. by mcall Hw.
Qed.

(** [clearpteu] takes a page away from the user and keeps its contents. *)
Lemma clearpteu_spec s pgdir tab dm l pn u :
  uvm_inv kend s pgdir tab dm l → dm pn = Some (u, 7) →
  let dm' := dm_set pn (u, 3) dm in
  ∃ s', clearpteu pgdir (4096 * pn) s = Done tt s' ∧
    space_step pgdir s tab dm l s' tab dm' l ∧ ∀ va, uread (ram s') dm' va = uread (ram s) dm va.
Proof using kend_pos.
  intros Hinv Hp dm'. destruct (user_walk _ _ _ _ _ _ _ _ Hinv Hp) as (t & Ht & _ & Ht0 & Hw & Hld).
  pose proof Hinv as [Hpt Hn Hs Ho Hi].
  destruct (Hs _ _ _ Hp) as (Hr & _). destruct (Ho _ _ _ Hp) as (Hvu & Hud & Hul & Hut).
  destruct (user_entry kend kend_pos u 7 Hvu ltac:(lia) eq_refl) as (_ & _ & _ & _ & _ & Hw32 & Hmod).
  pose proof (V2P_range u).
  assert (Hclr : Z.land (V2P u + 7) (4294967295 - PTE_U) = V2P u + 3).
  { unfold PTE_U. change (4294967295 - 4) with 4294967291. apply clear_user; done || lia. }
  assert (Hva : 0 <= 4096 * pn < 2147483648) by (unfold user_pages in Hr; lia).
  destruct (store_pte_spec kend s pgdir tab l (4096 * pn) t (V2P u + 3) Hpt) as (Hpt' & Hpte & Hout); [lia|done|lia|].
  eexists. split; [unfold clearpteu; mcall Hw; ztest (t + 4 * PTX (4096 * pn) =? 0) is false;
    unfold ld32, st32; mrun; rewrite Hld, Hclr; reflexivity|].
  set (s' := set_ram _ s) in *.
  assert (Hset : ∀ q v g, dm' q = Some (v, g) → ∃ g', dm q = Some (v, g') ∧ (q = pn ∧ g = 3 ∨ q ≠ pn ∧ g' = g)).
  { intros q v g. unfold dm', dm_set. case_if; intros; simplify_eq; [exists 7; split; [congruence|by left]|by exists g; eauto]. }
  assert (Hsame : ∀ q v g x, dm q = Some (v, g) → in_page v x → ram s' x = ram s x).
  { intros q v g x Hq Hx. apply Hout. by eapply data_page_outside. }
  split; [split|].
  - split; [done|..].
    + intros q Hq. unfold dm', dm_set. case_if; [done|]. intros Hqn. rewrite Hpte by (unfold user_pages in *; lia).
      case_if; [zlia|by apply Hn].
    + intros q v g (g' & Hq & Hc)%Hset. destruct (Hs _ _ _ Hq) as (? & ? & ? & ?).
      rewrite Hpte by (unfold user_pages in *; lia). destruct Hc as [[-> ->]|[Hne ->]].
      * simplify_eq. split_and!; try done || lia. by case_if; [|zlia].
      * split_and!; try done || lia. by case_if; [zlia|].
    + intros q v g (g' & Hq & _)%Hset. by eapply Ho.
    + intros q q' v g g' (h & Hq & _)%Hset (h' & Hq' & _)%Hset. by eapply Hi.
  - rewrite (dpages_fst dm' dm); [done|]. intros q. unfold dm', dm_set. case_if; [|done].
    subst. by rewrite Hp.
  - intros va Hv. rewrite Hpte by lia. case_if; [zlia|done].
  - intros x (Hox & Hux). split; [split; [done|]|by apply Hout].
    intros q v g (g' & Hq & _)%Hset. by eapply Hux.
  - done.
  - intros va. unfold uread. destruct (dm' (va / 4096)) as [[v g]|] eqn:E.
    + apply Hset in E as (g' & Hq & _). rewrite Hq. eapply Hsame; [done|]. unfold in_page. zlia.
    + unfold dm', dm_set in E. destruct (Z.eqb_spec (va / 4096) pn); [done|]. by rewrite E.
Qed.

(** [copyout] into pages that are all mapped: all bytes are written, or a page of
    the range is not the user's. *)
Definition copied_out (dm : Z → option (Z * Z)) (va buf len : Z) (s : machine) (r : Z) (s' : machine) : Prop :=
  r = 0 ∧ (∀ q, va / 4096 <= q <= (va + len - 1) / 4096 → user_page dm q) ∧
    (∀ a, uread (ram s') dm a = put (uread (ram s) dm) va (λ i, ram s (buf + i)) len a) ∨
  r = -1 ∧ ∃ q, va / 4096 <= q <= (va + len - 1) / 4096 ∧ ¬ user_page dm q.

Lemma copyout_loop_spec fuel : ∀ s pgdir tab dm l va buf len,
  uvm_inv kend s pgdir tab dm l → 0 <= va → 0 < len → va + len <= 2147483648 →
  0 <= buf → buf + len < 4294967296 → (∀ i, 0 <= i < len → uoutside pgdir tab dm l (buf + i)) →
  (va + len - 1) / 4096 - va / 4096 + 1 < Z.of_nat fuel →
  (∀ q, va / 4096 <= q <= (va + len - 1) / 4096 → is_Some (dm q)) →
  ∃ r s', copyout_loop fuel pgdir va buf len s = Done r s' ∧
    space_step pgdir s tab dm l s' tab dm l ∧ copied_out dm va buf len s r s'.
Proof using kend_pos.
  induction fuel as [|fuel IH]; intros s pgdir tab dm l va buf len Hinv Hva Hlen Hend Hb Hbe Hsrc Hf Hmap; [zlia|].
  set (q := va / 4096). destruct (Hmap q) as [[u f] Hq]; [zlia|].
  assert (Hv0 : PGROUNDDOWN va = 4096 * q) by (rewrite PGROUNDDOWN_eq by lia; zlia).
  cbn [copyout_loop]. rewrite Z.gtb_ltb. ztest (0 <? len) is true. rewrite Hv0.
  mcall (uva2ka_spec s pgdir tab dm l q u f Hinv Hq).
  destruct (ui_own _ _ _ _ _ _ Hinv _ _ _ Hq) as (Hvu & _).
  pose proof (valid_page_u32 _ kend_le' _ Hvu).
  destruct (user_ok f) eqn:Eu; cycle 1.
  { exists (-1), s. split_and!; [done|by apply space_step_refl|]. right. split; [done|].
    exists q. split; [zlia|]. intros (u' & f' & Hq' & ?). congruence. }
  ztest (u =? 0) is false. set (o := va - 4096 * q). assert (Ho : 0 <= o < 4096) by zlia.
  rewrite (u32_small (PGSIZE - o)), Z.gtb_ltb by (unfold PGSIZE; lia).
  set (n := if len <? PGSIZE - o then len else PGSIZE - o).
  assert (Hn : 0 < n ∧ n <= len ∧ o + n <= 4096 ∧ (n = len ∨ o + n = 4096))
    by (unfold n, PGSIZE; case_if; lia).
  rewrite (u32_small (u + o)) by lia. mcall (memmove_run s (u + o) buf n).
  set (m' := blit (ram s) (u + o) buf n).
  assert (Hst : space_step pgdir s tab dm l (set_ram m' s) tab dm l).
  { apply space_write; [done|apply mem_ok_blit; apply (ki_mem _ _ _ (pi_alloc _ _ _ _ _ (ui_pt _ _ _ _ _ _ Hinv)))|].
    intros x Hx. apply blit_out. specialize (Hx _ _ _ Hq). unfold in_page in Hx. lia. }
  assert (Hup : ∀ a, uread m' dm a = put (uread (ram s) dm) va (λ i, ram s (buf + i)) n a).
  { intros a. replace va with (4096 * q + o) by lia.
    apply (uread_put s pgdir tab dm l q u f); try done || lia.
    - intros i Hi. unfold m'. rewrite blit_in by lia. f_equal. lia.
    - intros x Hx. unfold m'. apply blit_out. lia. }
  assert (Hkeep : ∀ i, 0 <= i < len → m' (buf + i) = ram s (buf + i)).
  { intros i Hi. apply (sp_out _ _ _ _ _ _ _ _ _ Hst). by apply Hsrc. }
  assert (Hqu : user_page dm q) by (exists u, f; done).
  unfold PGSIZE. rewrite (u32_small (4096 * q + 4096)), (u32_small (buf + n)), (u32_small (len - n)) by zlia.
  destruct (decide (n = len)) as [E|Hne].
  - destruct fuel as [|fuel]; [zlia|]. cbn [copyout_loop]. rewrite E, Z.sub_diag. cbn.
    exists 0, (set_ram m' s). split_and!; [done..|]. left. split_and!; [done| |by rewrite <- E].
    intros q' Hq'. by replace q' with q by zlia.
  - destruct (IH (set_ram m' s) pgdir tab dm l (4096 * q + 4096) (buf + n) (len - n))
      as (r & s' & Hr & Hst' & Hc); [apply Hst|lia..| |zlia| |].
    { intros i Hi. replace (buf + n + i) with (buf + (n + i)) by lia. apply Hsrc. lia. }
    { intros q' Hq'. apply Hmap. zlia. }
    exists r, s'. split_and!; [done|by eapply space_step_trans|].
    destruct Hc as [(-> & Hall & Hread)|(-> & q' & Hq' & Hnu)].
    + left. split_and!; [done| |].
      * intros q' Hq'. destruct (decide (q' = q)) as [->|]; [done|]. apply Hall. zlia.
      * intros a. rewrite Hread. unfold put at 1. rewrite Hup. cbn [ram set_ram].
        unfold put. repeat case_if; try lia; try done.
        replace (buf + n + (a - (4096 * q + 4096))) with (buf + (a - va)) by lia. apply Hkeep. lia.
    + right. split; [done|]. exists q'. split; [zlia|done].
Qed.
End write.
