(* ===== verification/VmClaims.v ===== *)
(** * Properties of the virtual-memory code (vm/vm.c)

    The theorems about growing, shrinking, building and freeing an address
    space, stated for the functions of vm.c, with a concrete address space that
    they apply to. *)

From Stdlib Require Import ZArith Lia.
From stdpp Require Import base numbers list strings.
From S2P Require Import Prelude Mem Mmu Kalloc Vm VmFacts VmUser VmSpace VmCopy.

Section claims.
Context (kend : Z) (kend_pos : KERNBASE < kend).

(** [mappages] on an unmapped range terminates without the "remap" panic.
    It returns 0 with every page of the range mapped to consecutive physical
    pages with the requested flags and no other entry changed, or -1 when the
    free list ran empty, with some first pages of the range mapped; page tables
    come from the free list, and no byte outside the directory, its tables and
    the pages taken changes. *)
Theorem mappages_maps s pgdir tab l va size pa perm :
  let a := va - va mod 4096 in
  let n := (va + size - 1) / 4096 - va / 4096 in
  pt_inv kend s pgdir tab l → 0 <= va → 0 < size → va + size <= 4294967296 →
  pa mod 4096 = 0 → 0 <= pa → pa + 4096 * n < 4294967296 → 0 <= perm < 4096 →
  (∀ x, a <= x < a + 4096 * (n + 1) → present (pte_of (ram s) tab x) = false) →
  ∃ r k s' tab' l',
    mappages pgdir va size pa perm s = Done r s' ∧
    pt_step kend pgdir s tab l s' tab' l' ∧
    (r = 0 ∧ k = n + 1 ∨ r = -1 ∧ l' = [] ∧ 0 <= k <= n) ∧
    ∀ x, 0 <= x < 4294967296 →
      pte_of (ram s') tab' x =
        if (a <=? x) && (x <? a + 4096 * k)
        then pa + (x / 4096 * 4096 - a) + Z.lor perm PTE_P else pte_of (ram s) tab x.
Proof using kend_pos.
  intros a n Hinv Hva Hsz Hend Hpa Hp Hpn Hperm Hun.
  destruct (mappages_spec kend ltac:(lia) s pgdir tab l va size pa perm)
    as (r & k & s' & tab' & l' & Hr & Hst & Hres & Hpte); try done.
  exists r, k, s', tab', l'. split_and!; try done.
  intros x Hx. rewrite Hpte by done. fold a. case_if; [|done..].
  apply map_pte_eq; [|done]. assert (a mod 4096 = 0) by (unfold a; zlia). zlia.
Qed.

(** C27 [allocuvm] grows an address space whose new pages are unmapped: it
    returns the new size with a fresh zeroed page, writable by the user, at every
    new page number and the old pages with their contents; or 0 when the size
    reaches the kernel or the free pages do not suffice for the new pages and
    page tables, with the address space as it was; or the old size when nothing
    is to be grown.  No page is lost. *)
Theorem allocuvm_grows s pgdir tab dm l oldsz newsz :
  uvm_inv kend s pgdir tab dm l → 0 <= oldsz → 0 <= newsz →
  (∀ q, npg oldsz <= q < npg newsz → dm q = None) →
  ∃ r s' tab' dm' l', allocuvm kend pgdir oldsz newsz s = Done r s' ∧
    uvm_step kend pgdir s tab dm l s' tab' dm' l' ∧
    (r = newsz ∧ oldsz <= newsz < KERNBASE ∧
       (∀ q, npg oldsz <= q < npg newsz →
          ∃ u, dm' q = Some (u, 7) ∧ ∀ x, in_page u x → ram s' x = 0) ∧
       (∀ q, ¬ (npg oldsz <= q < npg newsz) → dm' q = dm q) ∨
     r = 0 ∧ (∀ q, dm' q = dm q) ∧ (KERNBASE <= newsz ∨ short tab l (npg newsz - npg oldsz)) ∨
     r = oldsz ∧ newsz < oldsz ∧ s' = s ∧ dm' = dm).
Proof using kend_pos.
  intros Hinv Ho Hn Hun.
  destruct (allocuvm_spec kend kend_pos s pgdir tab dm l oldsz newsz)
    as (r & s' & tab' & dm' & l' & Hr & Hst & Hres); [done..|].
  exists r, s', tab', dm', l'. split_and!; [done..|]. destruct Hres as [?|[?|(? & ? & ? & _ & ? & _)]]; [by left|right; by left|right; by right].
Qed.

(** [deallocuvm] terminates without panic, unmaps exactly the pages from the
    new size to the old one, puts their pages on the free list and leaves the
    other pages, their contents and the kernel half alone. *)
Theorem deallocuvm_shrinks s pgdir tab dm l oldsz newsz :
  uvm_inv kend s pgdir tab dm l → 0 <= newsz → oldsz <= KERNBASE →
  ∃ s' dm' l',
    deallocuvm kend pgdir oldsz newsz s = Done (if newsz >=? oldsz then oldsz else newsz) s' ∧
    uvm_step kend pgdir s tab dm l s' tab dm' l' ∧
    (∀ q, dm' q = dm_drop (npg newsz) (npg oldsz) dm q) ∧
    dpages dm' ++ l' ≡ₚ dpages dm ++ l.
Proof using kend_pos.
  intros Hinv Hn Ho. kconst.
  destruct (deallocuvm_spec kend kend_pos s pgdir tab dm l oldsz newsz)
    as (s' & dm' & l' & Hr & Hst & _ & _ & Hd); [done..|].
  exists s', dm', l'. split_and!; try done.
  pose proof (us_pages _ _ _ _ _ _ _ _ _ _ Hst) as Hp. by apply Permutation_app_inv_l in Hp.
Qed.

(** C16 [freevm] gives back every page of the address space: the user pages, the
    page tables and the directory are on the free list, each once, and nothing
    else changed. *)
Theorem freevm_returns_all s pgdir tab dm l :
  uvm_inv kend s pgdir tab dm l →
  ∃ s' l', freevm kend pgdir s = Done tt s' ∧ kalloc_inv kend s' l' ∧
    l' ≡ₚ pgdir :: tables tab ++ dpages dm ++ l ∧ NoDup l' ∧
    (∀ x, uoutside pgdir tab dm l x → ram s' x = ram s x).
Proof using kend_pos.
  intros Hinv. destruct (freevm_spec kend kend_pos s pgdir tab dm l Hinv)
    as (s' & l' & Hr & Ha & Hl & _ & _ & _ & Hx).
  exists s', l'. split_and!; try done. apply (ki_nodup _ _ _ Ha).
Qed.

Context (kdata : Z) (kdata_ok : kdata mod 4096 = 0 ∧ KERNLINK < kdata ∧ kdata <= kend)
        (kend_top : kend < KERNBASE + PHYSTOP).

(** [setupkvm] builds a directory whose entries are exactly the kernel's
    mappings: I/O space, text read-only, data and free memory, devices, and no
    user page; or it returns 0 with every page it took back on the free list. *)
Theorem setupkvm_maps s l :
  kalloc_inv kend s l →
  (∃ s' l', setupkvm kend kdata s = Done 0 s' ∧ kalloc_inv kend s' l' ∧ l' ≡ₚ l) ∨
  (∃ pgdir s' tab l', setupkvm kend kdata s = Done pgdir s' ∧ pgdir ≠ 0 ∧
     uvm_inv kend s' pgdir tab (λ _, None) l' ∧
     (∀ va, 0 <= va < 4294967296 → pte_of (ram s') tab va = kvm_pte kdata va) ∧
     pgdir :: tables tab ++ l' ≡ₚ l).
Proof using kend_pos kdata_ok kend_top.
  intros Ha. destruct (setupkvm_spec kend kend_pos kdata kdata_ok kend_top s l Ha)
    as [(s' & l' & H)|(pgdir & s' & tab & l' & H)].
  - left. exists s', l'. by destruct H as (? & ? & ? & _).
  - right. exists pgdir, s', tab, l'. by destruct H as (? & ? & ? & ? & ? & _).
Qed.
End claims.

(** ** A small address space

    One page table and one user page at address 0, two free pages. *)
Definition demo_data : Z := 0x80108000.
Definition demo_space : machine :=
  Machine (store32 (store32 (store32 (λ _, 0) 0x80200000 0x80300000)
                    0x80400000 0x00401007) 0x80401000 0x00402007)
          false true 0x80200000 0 0 [].
Definition demo_tab : Z → option Z := tab_set 0 0x80401000 (λ _, None).
Definition demo_dm : Z → option (Z * Z) := dm_set 0 (0x80402000, 7) (λ _, None).

Lemma demo_page p : p mod 4096 = 0 → demo_kend <= p < KERNBASE + PHYSTOP → valid_page demo_kend p.
Proof. unfold valid_page. lia. Qed.

Lemma demo_tab_Some i t : demo_tab i = Some t → i = 0 ∧ t = 0x80401000.
Proof. unfold demo_tab, tab_set. case_if; intros; by simplify_eq. Qed.

Lemma demo_dm_Some pn u f : demo_dm pn = Some (u, f) → pn = 0 ∧ u = 0x80402000 ∧ f = 7.
Proof. unfold demo_dm, dm_set. case_if; intros; by simplify_eq. Qed.

Lemma demo_load a : (∀ b, b ∈ [0x80200000; 0x80400000; 0x80401000] → a + 4 <= b ∨ b + 4 <= a) →
  load32 (ram demo_space) a = 0.
Proof.
  intros H. unfold demo_space. cbn [ram].
  rewrite !load32_store32_ne; [done|..]; apply H; repeat (by left) || right.
Qed.

Lemma demo_pt : pt_inv demo_kend demo_space 0x80400000 demo_tab [0x80200000; 0x80300000].
Proof.
  split.
  - split; cbn [demo_space freelist kmem_lock].
    + vm_compute. done.
    + vmdec.
    + repeat constructor; unfold valid_page, demo_kend; kconst; lia || done.
    + done.
    + repeat apply mem_ok_store32. intros a. lia.
  - apply demo_page; [done|]. unfold demo_kend. kconst. lia.
  - vmdec.
  - intros i Hi. unfold demo_tab, tab_set. case_if; [done|]. intros _. rewrite demo_load; [by rewrite present_mod|].
    intros b Hb. rewrite !elem_of_cons in Hb. destruct Hb as [->|[->|[->|Hb]]]; [lia..|by apply elem_of_nil in Hb].
  - intros i t [-> ->]%demo_tab_Some. split_and!; try lia; [|vmdec|by vm_compute].
    apply demo_page; [done|]. unfold demo_kend. kconst. lia.
  - intros i j t [-> _]%demo_tab_Some [-> _]%demo_tab_Some. done.
Qed.

Lemma demo_uvm : uvm_inv demo_kend demo_space 0x80400000 demo_tab demo_dm [0x80200000; 0x80300000].
Proof.
  split.
  - exact demo_pt.
  - intros pn Hpn. unfold demo_dm, dm_set, user_pages in *. case_if; [done|]. intros _.
    unfold pte_of. pose proof (PTX_range (4096 * pn)). destruct (demo_tab _) as [t|] eqn:E; [|by rewrite present_mod].
    apply demo_tab_Some in E as [E ->]. rewrite demo_load; [by rewrite present_mod|].
    rewrite PDX_div, PTX_div in * by lia.
    intros b Hb. rewrite !elem_of_cons in Hb. destruct Hb as [->|[->|[->|Hb]]]; [zlia..|by apply elem_of_nil in Hb].
  - intros pn u f (-> & -> & ->)%demo_dm_Some. split_and!; try (unfold user_pages; lia); by vm_compute.
  - intros pn u f (-> & -> & ->)%demo_dm_Some. split_and!.
    + apply demo_page; [done|]. unfold demo_kend. kconst. lia.
    + done.
    + vmdec.
    + by intros i [_ ?]%demo_tab_Some.
  - by intros pn pn' u f f' (-> & _)%demo_dm_Some (-> & _)%demo_dm_Some.
Qed.

Lemma demo_kend_pos : KERNBASE < demo_kend.
Proof. unfold demo_kend. kconst. lia. Qed.

Lemma demo_kdata_ok : demo_data mod 4096 = 0 ∧ KERNLINK < demo_data ∧ demo_data <= demo_kend.
Proof. split; [done|]. unfold demo_kend, demo_data. kconst. lia. Qed.

Lemma demo_kend_top : demo_kend < KERNBASE + PHYSTOP.
Proof. unfold demo_kend. kconst. lia. Qed.

Lemma mappages_maps_witness :
  ∃ r s', mappages 0x80400000 0x3000 8192 0x500000 6 demo_space = Done r s'.
Proof.
  destruct (mappages_maps demo_kend demo_kend_pos demo_space 0x80400000 demo_tab _ 0x3000 8192 0x500000 6 demo_pt)
    as (r & k & s' & tab' & l' & Hr & _); [lia|lia|lia|done|lia|by vm_compute|lia| |].
  - intros x Hx. change (0x3000 - 0x3000 mod 4096) with 12288 in Hx.
    change ((0x3000 + 8192 - 1) / 4096 - 0x3000 / 4096 + 1) with 2 in Hx.
    rewrite (pte_of_page _ _ x (4096 * (x / 4096))) by zlia.
    assert (x / 4096 = 3 ∨ x / 4096 = 4) as [-> | ->] by zlia; by vm_compute.
  - exists r, s'. exact Hr.
Defined.

Lemma allocuvm_grows_witness :
  ∃ r s', allocuvm demo_kend 0x80400000 4096 8192 demo_space = Done r s'.
Proof.
  destruct (allocuvm_grows demo_kend demo_kend_pos demo_space 0x80400000 demo_tab demo_dm _ 4096 8192 demo_uvm)
    as (r & s' & tab' & dm' & l' & Hr & _); [lia|lia| |].
  - intros q Hq. unfold demo_dm, dm_set. change (npg 4096) with 1 in Hq. case_if; [lia|done].
  - exists r, s'. exact Hr.
Defined.

Lemma deallocuvm_shrinks_witness :
  ∃ s', deallocuvm demo_kend 0x80400000 4096 0 demo_space = Done 0 s'.
Proof.
  destruct (deallocuvm_shrinks demo_kend demo_kend_pos demo_space 0x80400000 demo_tab demo_dm _ 4096 0 demo_uvm)
    as (s' & dm' & l' & Hr & _); [lia|kconst; lia|].
  exists s'. exact Hr.
Defined.

Lemma freevm_returns_all_witness :
  ∃ s' l', freevm demo_kend 0x80400000 demo_space = Done tt s' ∧ NoDup (l' : list Z).
Proof.
  destruct (freevm_returns_all demo_kend demo_kend_pos demo_space 0x80400000 demo_tab demo_dm _ demo_uvm)
    as (s' & l' & Hr & _ & _ & Hl & _).
  exists s', l'. split; [exact Hr|exact Hl].
Defined.

Lemma setupkvm_maps_witness :
  ∃ r s', setupkvm demo_kend demo_data demo_machine = Done r s'.
Proof.
  destruct (setupkvm_maps demo_kend demo_kend_pos demo_data demo_kdata_ok demo_kend_top demo_machine _ demo_inv)
    as [(s' & l' & H & _)|(r & s' & tab & l' & H & _)].
  - exists 0, s'. exact H.
  - exists r, s'. exact H.
Defined.

Lemma copyuvm_copies_witness :
  ∃ r s', copyuvm demo_kend demo_data 0x80400000 4096 demo_space = Done r s'.
Proof.
  destruct (copyuvm_copies demo_kend demo_kend_pos demo_data demo_kdata_ok demo_kend_top
              demo_space 0x80400000 demo_tab demo_dm _ 4096 demo_uvm)
    as (r & s' & l' & H & _); [kconst; lia| |].
  - intros j Hj. change (npg 4096) with 1 in Hj. assert (j = 0) as -> by lia. by eexists.
  - exists r, s'. exact H.
Defined.
