(* ===== verification/Kheap.v ===== *)
(** * The kernel heap's pages (vm/kheap.c, vm/kheap.h)

    The free virtual pages between physical memory and the devices are kept in a
    linked list of [struct vmem_region], whose nodes are slots of metadata pages.
    Nodes and pages are read and written in the memory of [Kalloc.v]. *)

From Stdlib Require Import ZArith Lia.
From stdpp Require Import base numbers list strings.
From S2P Require Import Prelude Mem Mmu Kalloc Vm.

Definition KHEAP_START : Z := P2V PHYSTOP.
Definition KHEAP_END : Z := DEVSPACE.

(** The fields of a node and of a metadata page, by their addresses. *)
Definition r_base (r : Z) : Z := r.
Definition r_pages (r : Z) : Z := r + 4.
Definition r_next (r : Z) : Z := r + 8.
Definition r_meta (r : Z) : Z := r + 12.
Definition m_next (p : Z) : Z := p.
Definition m_count (p : Z) : Z := p + 4.
Definition m_region (p k : Z) : Z := p + 8 + 16 * k.
Definition REGIONS_PER_PAGE : Z := (PGSIZE - 8) / 16.

Record hstate : Type := HState {
  h_m : machine;
  metadata_pages : Z;
  vmem_free_list_head : Z
}.

Definition set_h_m (m : machine) (s : hstate) : hstate := HState m (metadata_pages s) (vmem_free_list_head s).
Definition set_metadata_pages (v : Z) (s : hstate) : hstate := HState (h_m s) v (vmem_free_list_head s).
Definition set_free_head (v : Z) (s : hstate) : hstate := HState (h_m s) (metadata_pages s) v.
Definition on_hm {A} (m : M machine A) : M hstate A := lift h_m set_h_m m.
Definition hld (a : Z) : M hstate Z := on_hm (ld32 a).
Definition hst (a v : Z) : M hstate unit := on_hm (st32 a v).

Section kheap.
Context (kend : Z).
(** Bounds the steps along a list of nodes or pages. *)
Context (fuel : nat).

(** The first slot of a page with room: the new region. *)
Fixpoint find_slot (fuel : nat) (p : Z) : M hstate Z :=
  if p =? 0 then ret 0
  else
    match fuel with
    | O => nofuel
    | S fuel' =>
        n <- hld (m_count p) ;;
        if n <? REGIONS_PER_PAGE then
          hst (m_count p) (n + 1) ;;;
          hst (r_meta (m_region p n)) p ;;;
          ret (m_region p n)
        else
          p' <- hld (m_next p) ;;
          find_slot fuel' p'
    end.

Definition get_new_vmem_region : M hstate Z :=
  p <- gets metadata_pages ;;
  r <- find_slot fuel p ;;
  if negb (r =? 0) then ret r
  else
    q <- on_hm kalloc ;;
    if q =? 0 then ret 0
    else
      hst (m_count q) 0 ;;;
      p <- gets metadata_pages ;;
      hst (m_next q) p ;;;
      modify (set_metadata_pages q) ;;;
      hst (m_count q) 1 ;;;
      hst (r_meta (m_region q 0)) q ;;;
      ret (m_region q 0).

(** The predecessor of [page] in the list, and whether it is there. *)
Fixpoint find_page (fuel : nat) (page prev cur : Z) : M hstate (Z * Z) :=
  if (cur =? page) || (cur =? 0) then ret (prev, cur)
  else
    match fuel with
    | O => nofuel
    | S fuel' => next <- hld (m_next cur) ;; find_page fuel' page cur next
    end.

Definition recycle_vmem_region (r : Z) : M hstate unit :=
  if r =? 0 then ret tt
  else
    page <- hld (r_meta r) ;;
    if page =? 0 then ret tt
    else
      n <- hld (m_count page) ;;
      hst (m_count page) (u32 (n - 1)) ;;;
      when (u32 (n - 1) =? 0) (
        first <- gets metadata_pages ;;
        f <- find_page fuel page 0 first ;;
        let '(prev, cur) := f in
        if cur =? 0 then ret tt
        else
          next <- hld (m_next cur) ;;
          (if negb (prev =? 0) then hst (m_next prev) next else modify (set_metadata_pages next)) ;;;
          on_hm (kfree kend page)).

(** The pages of a new allocation, from page [i] on. *)
Fixpoint map_heap (k : nat) (va i : Z) : M hstate unit :=
  match k with
  | O => ret tt
  | S k' =>
      p <- on_hm kalloc ;;
      if p =? 0 then panic "kheap_alloc_pages: out of physical memory"
      else
        on_hm (map_kernel_page (u32 (va + i * PGSIZE)) (V2P p) (Z.lor PTE_W PTE_P)) ;;;
        map_heap k' va (i + 1)
  end.

Definition out_of_vm : string := "kheap_alloc_pages: out of virtual memory".

Fixpoint alloc_loop (fuel : nat) (n prev cur : Z) : M hstate Z :=
  if cur =? 0 then
    on_hm (cprintf out_of_vm) ;;;
    ret 0
  else
    match fuel with
    | O => nofuel
    | S fuel' =>
        np <- hld (r_pages cur) ;;
        if np >=? n then
          va <- hld (r_base cur) ;;
          (if np =? n then
             next <- hld (r_next cur) ;;
             (if negb (prev =? 0) then hst (r_next prev) next else modify (set_free_head next)) ;;;
             recycle_vmem_region cur
           else
             hst (r_base cur) (u32 (va + n * PGSIZE)) ;;;
             hst (r_pages cur) (np - n)) ;;;
          map_heap (Z.to_nat n) va 0 ;;;
          ret va
        else
          next <- hld (r_next cur) ;;
          alloc_loop fuel' n cur next
    end.

Definition liballoc_alloc (n : Z) : M hstate Z :=
  if n =? 0 then ret 0
  else
    head <- gets vmem_free_list_head ;;
    alloc_loop fuel n 0 head.

Fixpoint unmap_heap (k : nat) (va i : Z) : M hstate unit :=
  match k with
  | O => ret tt
  | S k' =>
      on_hm (kfree_and_unmap_page kend (u32 (va + i * PGSIZE))) ;;;
      unmap_heap k' va (i + 1)
  end.

(** The node before the freed range and the one behind it. *)
Fixpoint find_place (fuel : nat) (va prev cur : Z) : M hstate (Z * Z) :=
  if cur =? 0 then ret (prev, cur)
  else
    b <- hld (r_base cur) ;;
    if b <? va then
      match fuel with
      | O => nofuel
      | S fuel' => next <- hld (r_next cur) ;; find_place fuel' va cur next
      end
    else ret (prev, cur).

(** [r->base_vaddr + r->num_pages * PGSIZE]. *)
Definition region_end (r : Z) : M hstate Z :=
  b <- hld (r_base r) ;;
  n <- hld (r_pages r) ;;
  ret (u32 (b + n * PGSIZE)).

(** The node that covers the freed range: the previous one, extended, or a new one. *)
Definition free_node (va n prev cur : Z) : M hstate Z :=
  joins <- (if negb (prev =? 0) then e <- region_end prev ;; ret (e =? va) else ret false) ;;
  if joins : bool then
    np <- hld (r_pages prev) ;;
    hst (r_pages prev) (u32 (np + n)) ;;;
    ret prev
  else
    r <- get_new_vmem_region ;;
    if r =? 0 then panic "kheap_free_pages: out of metadata"
    else
      hst (r_base r) va ;;;
      hst (r_pages r) n ;;;
      hst (r_next r) cur ;;;
      (if negb (prev =? 0) then hst (r_next prev) r else modify (set_free_head r)) ;;;
      ret r.

Definition liballoc_free (va n : Z) : M hstate Z :=
  if (va =? 0) || (n =? 0) then ret (-1)
  else
    unmap_heap (Z.to_nat n) va 0 ;;;
    head <- gets vmem_free_list_head ;;
    f <- find_place fuel va 0 head ;;
    let '(prev, cur) := f in
    r <- free_node va n prev cur ;;
    when (negb (cur =? 0)) (
      e <- region_end r ;;
      b <- hld (r_base cur) ;;
      when (e =? b) (
        np <- hld (r_pages r) ;;
        nc <- hld (r_pages cur) ;;
        hst (r_pages r) (u32 (np + nc)) ;;;
        next <- hld (r_next cur) ;;
        hst (r_next r) next ;;;
        recycle_vmem_region cur)) ;;;
    ret 0.

Definition kheap_init : M hstate unit :=
  r <- get_new_vmem_region ;;
  if r =? 0 then panic "kheap_init: failed to allocate initial metadata page"
  else
    hst (r_base r) KHEAP_START ;;;
    hst (r_pages r) ((KHEAP_END - KHEAP_START) / PGSIZE) ;;;
    hst (r_next r) 0 ;;;
    modify (set_free_head r).
End kheap.

(** ** Recycling a node can put two regions into one slot

    The machine has enough free pages; four one-page allocations are made, then
    the first, the fourth and the third are freed, each once.  Freeing the fourth
    merges it with the rest of the heap and recycles the slot of the rest, by
    decrementing the page's count.  The count now names the slot of a node that
    is still in the list, so that freeing the third takes this slot: the node is
    overwritten, points to itself, and the rest of the heap is lost. *)
Definition heap_fuel : nat := 100.
Definition heap_machine : machine :=
  state_after demo_machine (freerange demo_kend 0x80401000 0x80410000 demo_machine).
Definition heap_0 : hstate := HState (set_kpgdir 0x80400000 heap_machine) 0 0.
Definition heap_1 : hstate := state_after heap_0 (kheap_init heap_fuel heap_0).
Definition heap_calls : M hstate (list Z) :=
  a <- liballoc_alloc demo_kend heap_fuel 1 ;;
  b <- liballoc_alloc demo_kend heap_fuel 1 ;;
  c <- liballoc_alloc demo_kend heap_fuel 1 ;;
  d <- liballoc_alloc demo_kend heap_fuel 1 ;;
  _ <- liballoc_free demo_kend heap_fuel a 1 ;;
  _ <- liballoc_free demo_kend heap_fuel d 1 ;;
  r <- liballoc_free demo_kend heap_fuel c 1 ;;
  ret [a; b; c; d; r].
Definition heap_2 : hstate := state_after heap_0 (heap_calls heap_1).

Lemma hld_run a s : hld a s = Done (load32 (ram (h_m s)) a) s.
Proof. by destruct s. Qed.

(** A node that is too small and its own successor is never left. *)
Lemma alloc_loop_stuck kend fuel n prev r s :
  r ≠ 0 → load32 (ram (h_m s)) (r_pages r) < n → load32 (ram (h_m s)) (r_next r) = r →
  ∀ fuel', alloc_loop kend fuel fuel' n prev r s = NoFuel.
Proof.
  intros Hr Hn Hs fuel'. revert prev. induction fuel' as [|fuel' IH]; intros prev; cbn [alloc_loop]; ztest (r =? 0) is false; [done|].
  mcall (hld_run (r_pages r) s). rewrite Z.geb_leb. ztest (n <=? load32 (ram (h_m s)) (r_pages r)) is false.
  mcall (hld_run (r_next r) s). rewrite Hs. apply IH.
Qed.

Lemma alloc_stuck kend fuel n h r s :
  n ≠ 0 → vmem_free_list_head s = h → h ≠ 0 → load32 (ram (h_m s)) (r_pages h) < n → load32 (ram (h_m s)) (r_next h) = r →
  r ≠ 0 → load32 (ram (h_m s)) (r_pages r) < n → load32 (ram (h_m s)) (r_next r) = r →
  liballoc_alloc kend fuel n s = NoFuel.
Proof.
  intros Hn0 Hh Hh0 Hn Hs Hr0 Hr Hrs. unfold liballoc_alloc. ztest (n =? 0) is false. mrun. rewrite Hh.
  destruct fuel as [|fuel]; cbn [alloc_loop]; ztest (h =? 0) is false; [done|].
  mcall (hld_run (r_pages h) s). rewrite Z.geb_leb. ztest (n <=? load32 (ram (h_m s)) (r_pages h)) is false.
  mcall (hld_run (r_next h) s). rewrite Hs. by apply alloc_loop_stuck.
Qed.

(** C40 The four allocations return consecutive pages and the three frees succeed;
    then the free list is cyclic, and a request for two pages, of the more than
    400 MB that are free, does not terminate. *)
Theorem heap_free_list_cycle :
  heap_calls heap_1 = Done [KHEAP_START; KHEAP_START + 4096; KHEAP_START + 8192; KHEAP_START + 12288; 0] heap_2 ∧
  ∀ fuel, liballoc_alloc demo_kend fuel 2 heap_2 = NoFuel.
Proof.
  split; [unfold heap_2; apply (state_after_Done heap_0 (heap_calls heap_1)); vm_compute; reflexivity|]. intros fuel.
  apply (alloc_stuck _ _ _ 2151739416 2151739432); [lia| |lia| | |lia| |].
  all: first [vm_compute; reflexivity | apply Z.ltb_lt; vm_compute; reflexivity].
Qed.
