(* ===== verification/Liballoc.v ===== *)
(** * The kernel heap (vm/liballoc.c)

    [kheap_malloc], [kheap_free], [kheap_calloc] and [kheap_realloc] over blocks
    of pages ("majors") that the page source delivers.  A major holds a chain of
    allocations ("minors"), each with a header of 24 bytes in front of its
    bytes.  Headers are read and written in the heap's memory, field by field, by
    address.  The page source is the class [PageOps], which vm/kheap.c
    implements ([kheap_pages] below). *)

From Stdlib Require Import ZArith Lia.
From stdpp Require Import base numbers list.
From S2P Require Import Prelude Mem Mmu Kalloc Vm Kheap.

(** [liballoc_alloc] and [liballoc_free]. *)
Class PageOps (P : Type) : Type := {
  pg_alloc : Z → M P Z;
  pg_free : Z → Z → M P Z
}.

#[export] Instance kheap_pages (kend : Z) (fuel : nat) : PageOps hstate := {|
  pg_alloc := liballoc_alloc kend fuel;
  pg_free := liballoc_free kend fuel
|}.

Definition ALIGNMENT : Z := 16.
Definition ALIGN_INFO : Z := 16.
Definition LIBALLOC_MAGIC : Z := 0xc001c0de.
Definition LIBALLOC_DEAD : Z := 0xdeaddead.

(** The fields of [struct liballoc_major], by their addresses, and its size. *)
Definition maj_prev (p : Z) : Z := p.
Definition maj_next (p : Z) : Z := p + 4.
Definition maj_pages (p : Z) : Z := p + 8.
Definition maj_size (p : Z) : Z := p + 12.
Definition maj_usage (p : Z) : Z := p + 16.
Definition maj_first (p : Z) : Z := p + 20.
Definition MAJOR : Z := 24.

(** The same for [struct liballoc_minor]. *)
Definition min_prev (p : Z) : Z := p.
Definition min_next (p : Z) : Z := p + 4.
Definition min_block (p : Z) : Z := p + 8.
Definition min_magic (p : Z) : Z := p + 12.
Definition min_size (p : Z) : Z := p + 16.
Definition min_req (p : Z) : Z := p + 20.
Definition MINOR : Z := 24.

Definition l_pageSize : Z := 4096.
Definition l_pageCount : Z := 16.

Definition u64 (x : Z) : Z := x mod 18446744073709551616.

(** The heap's memory, the static variables and the page source. *)
Record lheap {P : Type} : Type := LHeap {
  l_mem : mem;
  l_memRoot : Z;
  l_bestBet : Z;
  l_allocated : Z;
  l_inuse : Z;
  l_warningCount : Z;
  l_errorCount : Z;
  l_possibleOverruns : Z;
  l_src : P
}.
#[global] Arguments lheap P : clear implicits.
#[global] Arguments LHeap {P}.

Section liballoc.
Context {P : Type} `{!PageOps P}.
Implicit Types s : lheap P.

Definition set_l_mem v s := LHeap v (l_memRoot s) (l_bestBet s) (l_allocated s) (l_inuse s) (l_warningCount s) (l_errorCount s) (l_possibleOverruns s) (l_src s).
Definition set_memRoot v s := LHeap (l_mem s) v (l_bestBet s) (l_allocated s) (l_inuse s) (l_warningCount s) (l_errorCount s) (l_possibleOverruns s) (l_src s).
Definition set_bestBet v s := LHeap (l_mem s) (l_memRoot s) v (l_allocated s) (l_inuse s) (l_warningCount s) (l_errorCount s) (l_possibleOverruns s) (l_src s).
Definition set_allocated v s := LHeap (l_mem s) (l_memRoot s) (l_bestBet s) v (l_inuse s) (l_warningCount s) (l_errorCount s) (l_possibleOverruns s) (l_src s).
Definition set_inuse v s := LHeap (l_mem s) (l_memRoot s) (l_bestBet s) (l_allocated s) v (l_warningCount s) (l_errorCount s) (l_possibleOverruns s) (l_src s).
Definition set_warnings v s := LHeap (l_mem s) (l_memRoot s) (l_bestBet s) (l_allocated s) (l_inuse s) v (l_errorCount s) (l_possibleOverruns s) (l_src s).
Definition set_errors v s := LHeap (l_mem s) (l_memRoot s) (l_bestBet s) (l_allocated s) (l_inuse s) (l_warningCount s) v (l_possibleOverruns s) (l_src s).
Definition set_overruns v s := LHeap (l_mem s) (l_memRoot s) (l_bestBet s) (l_allocated s) (l_inuse s) (l_warningCount s) (l_errorCount s) v (l_src s).
Definition set_l_src (v : P) s : lheap P := LHeap (l_mem s) (l_memRoot s) (l_bestBet s) (l_allocated s) (l_inuse s) (l_warningCount s) (l_errorCount s) (l_possibleOverruns s) v.

Definition on_src {A} (m : M P A) : M (lheap P) A := lift l_src set_l_src m.
Definition ld (a : Z) : M (lheap P) Z := gets (λ s, load32 (l_mem s) a).
Definition st (a v : Z) : M (lheap P) unit := modify (λ s, set_l_mem (store32 (l_mem s) a v) s).

(** [ALIGN(ptr)]: the new pointer. *)
Definition align_up (p : Z) : Z :=
  let p1 := u32 (p + ALIGN_INFO) in
  let diff := Z.land p1 (ALIGNMENT - 1) in
  if negb (diff =? 0) then u32 (p1 + (ALIGNMENT - diff)) else p1.
(** The byte it stores, before truncation. *)
Definition align_info (p : Z) : Z :=
  let diff := Z.land (u32 (p + ALIGN_INFO)) (ALIGNMENT - 1) in
  (if negb (diff =? 0) then ALIGNMENT - diff else 0) + ALIGN_INFO.

Definition ALIGN (p : Z) : M (lheap P) Z :=
  modify (λ s, set_l_mem (store8 (l_mem s) (u32 (align_up p - ALIGN_INFO)) (align_info p)) s) ;;;
  ret (align_up p).

(** A [char] as a [uintptr_t]: sign-extended. *)
Definition char_uptr (c : Z) : Z := u32 (if c <? 128 then c else c - 256).

Definition UNALIGN (p : Z) : M (lheap P) Z :=
  c <- gets (λ s, l_mem s (u32 (p - ALIGN_INFO))) ;;
  let diff := char_uptr c in
  ret (if diff <? ALIGNMENT + ALIGN_INFO then u32 (p - diff) else p).

Definition allocate_new_page (size : Z) : M (lheap P) Z :=
  let st0 := u32 (u32 (size + MAJOR) + MINOR) in
  let st1 := if st0 mod l_pageSize =? 0 then st0 / l_pageSize else st0 / l_pageSize + 1 in
  let st2 := if st1 <? l_pageCount then l_pageCount else st1 in
  maj <- on_src (pg_alloc st2) ;;
  if maj =? 0 then
    modify (λ s, set_warnings (l_warningCount s + 1) s) ;;;
    ret 0
  else
    st (maj_prev maj) 0 ;;;
    st (maj_next maj) 0 ;;;
    st (maj_pages maj) st2 ;;;
    st (maj_size maj) (u32 (st2 * l_pageSize)) ;;;
    st (maj_usage maj) MAJOR ;;;
    st (maj_first maj) 0 ;;;
    modify (λ s, set_allocated (u64 (l_allocated s + u32 (st2 * l_pageSize))) s) ;;;
    ret maj.

(** [maj->usage += size + sizeof(struct liballoc_minor); l_inuse += size], and
    the pointer for the minor. *)
Definition account_minor (maj min size : Z) : M (lheap P) Z :=
  u <- ld (maj_usage maj) ;;
  st (maj_usage maj) (u32 (u + u32 (size + MINOR))) ;;;
  modify (λ s, set_inuse (u64 (l_inuse s + size)) s) ;;;
  ALIGN (u32 (min + MINOR)).

(** CASE 2: a block without minors. *)
Definition place_new (maj size req : Z) : M (lheap P) Z :=
  let min := u32 (maj + MAJOR) in
  st (maj_first maj) min ;;;
  st (min_magic min) LIBALLOC_MAGIC ;;;
  st (min_prev min) 0 ;;;
  st (min_next min) 0 ;;;
  st (min_block min) maj ;;;
  st (min_size min) size ;;;
  st (min_req min) req ;;;
  account_minor maj min size.

(** CASE 3: space in front of the first minor. *)
Definition place_front (maj first size req : Z) : M (lheap P) Z :=
  let min := u32 (maj + MAJOR) in
  st (min_prev first) min ;;;
  st (min_next min) first ;;;
  st (maj_first maj) min ;;;
  st (min_magic min) LIBALLOC_MAGIC ;;;
  st (min_prev min) 0 ;;;
  st (min_block min) maj ;;;
  st (min_size min) size ;;;
  st (min_req min) req ;;;
  account_minor maj min size.

(** CASE 4.1: space behind the last minor, [last]. *)
Definition place_last (maj last lsize size req : Z) : M (lheap P) Z :=
  let min := u32 (last + MINOR + lsize) in
  st (min_next last) min ;;;
  st (min_prev min) last ;;;
  st (min_next min) 0 ;;;
  st (min_magic min) LIBALLOC_MAGIC ;;;
  st (min_block min) maj ;;;
  st (min_size min) size ;;;
  st (min_req min) req ;;;
  account_minor maj min size.

(** CASE 4.2: space between two minors, [prev] and [next]. *)
Definition place_between (maj prev psize next size req : Z) : M (lheap P) Z :=
  let min := u32 (prev + MINOR + psize) in
  st (min_magic min) LIBALLOC_MAGIC ;;;
  st (min_next min) next ;;;
  st (min_prev min) prev ;;;
  st (min_size min) size ;;;
  st (min_req min) req ;;;
  st (min_block min) maj ;;;
  st (min_prev next) min ;;;
  st (min_next prev) min ;;;
  account_minor maj min size.

(** CASE 4: the loop over the minors. *)
Fixpoint minor_loop (fuel : nat) (maj min size req : Z) : M (lheap P) (option Z) :=
  if min =? 0 then ret None
  else
    match fuel with
    | O => nofuel
    | S fuel' =>
        next <- ld (min_next min) ;;
        msize <- ld (min_size min) ;;
        if next =? 0 then
          bsize <- ld (maj_size maj) ;;
          let diff := u32 (maj + bsize - min - MINOR - msize) in
          if diff >=? u32 (size + MINOR) then p <- place_last maj min msize size req ;; ret (Some p)
          else minor_loop fuel' maj next size req
        else
          let diff := u32 (next - min - MINOR - msize) in
          if diff >=? u32 (size + MINOR) then p <- place_between maj min msize next size req ;; ret (Some p)
          else minor_loop fuel' maj next size req
    end.

(** CASES 2 to 4: the allocation is placed in block [maj], if it fits. *)
Definition place (fuel : nat) (maj size req : Z) : M (lheap P) (option Z) :=
  first <- ld (maj_first maj) ;;
  if first =? 0 then p <- place_new maj size req ;; ret (Some p)
  else if u32 (first - maj - MAJOR) >=? u32 (size + MINOR) then p <- place_front maj first size req ;; ret (Some p)
  else minor_loop fuel maj first size req.

(** A new block at the end of the list, behind [maj]; 0 without memory. *)
Definition append_block (maj size : Z) : M (lheap P) Z :=
  n <- allocate_new_page size ;;
  st (maj_next maj) n ;;;
  when (negb (n =? 0)) (st (maj_prev n) maj) ;;;
  ret n.

(** The loop over the blocks.  [mfuel] bounds the minors of a block. *)
Fixpoint malloc_loop (fuel mfuel : nat) (size req maj : Z) (startedBet : bool) (bestSize : Z) : M (lheap P) Z :=
  if maj =? 0 then ret 0
  else
    match fuel with
    | O => nofuel
    | S fuel' =>
        msize <- ld (maj_size maj) ;;
        usage <- ld (maj_usage maj) ;;
        let diff := u32 (msize - usage) in
        best <- (if bestSize <? diff then modify (set_bestBet maj) ;;; ret diff else ret bestSize) ;;
        next <- ld (maj_next maj) ;;
        root <- gets l_memRoot ;;
        if diff <? u32 (size + MINOR) then
          if negb (next =? 0) then malloc_loop fuel' mfuel size req next startedBet best
          else if startedBet then malloc_loop fuel' mfuel size req root false best
          else
            n <- append_block maj size ;;
            if n =? 0 then ret 0
            else
              r <- place mfuel n size req ;;
              match r with
              | Some p => ret p
              | None => after_block fuel' mfuel size req n startedBet best
              end
        else
          r <- place mfuel maj size req ;;
          match r with
          | Some p => ret p
          | None => after_block fuel' mfuel size req maj startedBet best
          end
    end
(** CASE 5 and the step to the next block. *)
with after_block (fuel mfuel : nat) (size req maj : Z) (startedBet : bool) (bestSize : Z) : M (lheap P) Z :=
  match fuel with
  | O => nofuel
  | S fuel' =>
      next <- ld (maj_next maj) ;;
      if next =? 0 then
        if startedBet then
          root <- gets l_memRoot ;;
          malloc_loop fuel' mfuel size req root false bestSize
        else
          n <- append_block maj size ;;
          if n =? 0 then ret 0
          else malloc_loop fuel' mfuel size req n startedBet bestSize
      else malloc_loop fuel' mfuel size req next startedBet bestSize
  end.
(** The block to start with: the best bet, if it has room, else the root; and
    the initial [bestSize]. *)
Definition start_block (size : Z) : M (lheap P) (Z * bool * Z) :=
  root <- gets l_memRoot ;;
  bet <- gets l_bestBet ;;
  if bet =? 0 then ret (root, false, 0)
  else
    bsize <- ld (maj_size bet) ;;
    usage <- ld (maj_usage bet) ;;
    let best := u32 (bsize - usage) in
    if best >? u32 (size + MINOR) then ret (bet, true, best) else ret (root, false, best).

(** [kheap_malloc] for a size that is not 0 after the addition for alignment.
    [fuel] bounds the blocks, [mfuel] the minors of a block. *)
Definition malloc_sized (fuel mfuel : nat) (size req : Z) : M (lheap P) Z :=
  root <- gets l_memRoot ;;
  root <- (if root =? 0 then n <- allocate_new_page size ;; modify (set_memRoot n) ;;; ret n else ret root) ;;
  if root =? 0 then ret 0
  else
    b <- start_block size ;;
    let '(maj, startedBet, best) := b in
    malloc_loop fuel mfuel size req maj startedBet best.

Definition kheap_malloc (fuel mfuel : nat) (req_size : Z) : M (lheap P) Z :=
  let size := u32 (req_size + (ALIGNMENT + ALIGN_INFO)) in
  if size =? 0 then
    modify (λ s, set_warnings (l_warningCount s + 1) s) ;;;
    malloc_sized fuel mfuel (u32 (1 + (ALIGNMENT + ALIGN_INFO))) 1
  else malloc_sized fuel mfuel size req_size.

(** A header without the magic number: one to three bytes may be intact. *)
Definition possible_overrun (magic : Z) : bool :=
  (Z.land magic 0xFFFFFF =? Z.land LIBALLOC_MAGIC 0xFFFFFF) ||
  (Z.land magic 0xFFFF =? Z.land LIBALLOC_MAGIC 0xFFFF) ||
  (Z.land magic 0xFF =? Z.land LIBALLOC_MAGIC 0xFF).

Definition bad_magic (magic : Z) : M (lheap P) unit :=
  modify (λ s, set_errors (l_errorCount s + 1) s) ;;;
  when (possible_overrun magic) (modify (λ s, set_overruns (l_possibleOverruns s + 1) s)).

(** The minor leaves the chain of its block. *)
Definition unlink_minor (maj min : Z) : M (lheap P) unit :=
  size <- ld (min_size min) ;;
  modify (λ s, set_inuse (u64 (l_inuse s - size)) s) ;;;
  u <- ld (maj_usage maj) ;;
  st (maj_usage maj) (u32 (u - u32 (size + MINOR))) ;;;
  st (min_magic min) LIBALLOC_DEAD ;;;
  next <- ld (min_next min) ;;
  prev <- ld (min_prev min) ;;
  when (negb (next =? 0)) (st (min_prev next) prev) ;;;
  when (negb (prev =? 0)) (st (min_next prev) next) ;;;
  when (prev =? 0) (st (maj_first maj) next).

(** The block leaves the list and its pages are returned. *)
Definition release_block (maj : Z) : M (lheap P) unit :=
  next <- ld (maj_next maj) ;;
  prev <- ld (maj_prev maj) ;;
  root <- gets l_memRoot ;;
  when (root =? maj) (modify (set_memRoot next)) ;;;
  bet <- gets l_bestBet ;;
  when (bet =? maj) (modify (set_bestBet 0)) ;;;
  when (negb (prev =? 0)) (st (maj_next prev) next) ;;;
  when (negb (next =? 0)) (st (maj_prev next) prev) ;;;
  size <- ld (maj_size maj) ;;
  modify (λ s, set_allocated (u64 (l_allocated s - size)) s) ;;;
  pages <- ld (maj_pages maj) ;;
  _ <- on_src (pg_free maj pages) ;;
  ret tt.

(** [l_bestBet] after a minor of [maj] was freed; the sizes are [int]s. *)
Definition update_bet (maj : Z) : M (lheap P) unit :=
  bet <- gets l_bestBet ;;
  when (negb (bet =? 0)) (
    bsize <- ld (maj_size bet) ;;
    busage <- ld (maj_usage bet) ;;
    msize <- ld (maj_size maj) ;;
    musage <- ld (maj_usage maj) ;;
    when (s32 (msize - musage) >? s32 (bsize - busage)) (modify (set_bestBet maj))).

Definition kheap_free (ptr : Z) : M (lheap P) unit :=
  if ptr =? 0 then modify (λ s, set_warnings (l_warningCount s + 1) s)
  else
    ptr <- UNALIGN ptr ;;
    let min := u32 (ptr - MINOR) in
    magic <- ld (min_magic min) ;;
    if negb (magic =? LIBALLOC_MAGIC) then bad_magic magic
    else
      maj <- ld (min_block min) ;;
      unlink_minor maj min ;;;
      first <- ld (maj_first maj) ;;
      if first =? 0 then release_block maj else update_bet maj.

Fixpoint memset_loop (k : nat) (m : mem) (p c : Z) : mem :=
  match k with
  | O => m
  | S k' => memset_loop k' (store8 m p c) (p + 1) c
  end.
Definition liballoc_memset (p c n : Z) : M (lheap P) unit :=
  modify (λ s, set_l_mem (memset_loop (Z.to_nat n) (l_mem s) p c) s).
(** Words first, then bytes, upwards. *)
Fixpoint memcpy_loop (fuel : nat) (m : mem) (d s n : Z) : mem :=
  match fuel with
  | O => m
  | S fuel' =>
      if n >=? 4 then memcpy_loop fuel' (store32 m d (load32 m s)) (d + 4) (s + 4) (n - 4)
      else if n >? 0 then memcpy_loop fuel' (store8 m d (m s)) (d + 1) (s + 1) (n - 1)
      else m
  end.
Definition liballoc_memcpy (d src n : Z) : M (lheap P) unit :=
  modify (λ s, set_l_mem (memcpy_loop (Z.to_nat n) (l_mem s) d src n) s).

Definition kheap_calloc (fuel mfuel : nat) (nobj size : Z) : M (lheap P) Z :=
  let real_size := u32 (nobj * size) in
  p <- kheap_malloc fuel mfuel real_size ;;
  liballoc_memset p 0 real_size ;;;
  ret p.

Definition kheap_realloc (fuel mfuel : nat) (p size : Z) : M (lheap P) Z :=
  if size =? 0 then kheap_free p ;;; ret 0
  else if p =? 0 then kheap_malloc fuel mfuel size
  else
    ptr <- UNALIGN p ;;
    let min := u32 (ptr - MINOR) in
    magic <- ld (min_magic min) ;;
    if negb (magic =? LIBALLOC_MAGIC) then bad_magic magic ;;; ret 0
    else
      real_size <- ld (min_req min) ;;
      if real_size >=? size then st (min_req min) size ;;; ret p
      else
        q <- kheap_malloc fuel mfuel size ;;
        liballoc_memcpy q p real_size ;;;
        kheap_free p ;;;
        ret q.
End liballoc.
