(* ===== verification/LiballocFacts.v ===== *)
(** * The shape of the kernel heap (vm/liballoc.c)

    A block holds a list of allocations in ascending order ([fits]); [chain] says
    how the headers in memory represent it.  Linking a new header into the chain
    and unlinking one change the list as they should. *)

From Stdlib Require Import ZArith Lia.
From stdpp Require Import base numbers list.
From S2P Require Import Prelude Mem Mmu Kalloc Vm Kheap Liballoc.

(** ** Alignment *)

Lemma land_15 x : Z.land x 15 = x mod 16.
Proof. change 15 with (Z.ones 4). rewrite Z.land_ones by lia. done. Qed.

Lemma align_up_spec p :
  0 <= p → p + 32 < 4294967296 →
  align_up p mod 16 = 0 ∧ p + 16 <= align_up p <= p + 31 ∧ align_info p = align_up p - p.
Proof.
  intros Hp Hb. unfold align_up, align_info. change (ALIGNMENT - 1) with 15. change ALIGNMENT with 16. change ALIGN_INFO with 16.
  rewrite (u32_small (p + 16)) by lia. rewrite !land_15. pose proof (Z.mod_pos_bound (p + 16) 16 ltac:(lia)).
  destruct (Z.eqb_spec ((p + 16) mod 16) 0); cbn [negb]; [lia|]. rewrite u32_small by lia.
  pose proof (Z.div_mod (p + 16) 16 ltac:(lia)). split; [|lia].
  replace (p + 16 + (16 - (p + 16) mod 16)) with (((p + 16) / 16 + 1) * 16) by lia. apply Z_mod_mult.
Qed.

Section run.
Context {P : Type} `{!PageOps P}.
Implicit Types s : lheap P.

Lemma ALIGN_run p s : ALIGN p s = Done (align_up p) (set_l_mem (store8 (l_mem s) (u32 (align_up p - 16)) (align_info p)) s).
Proof. done. Qed.

(** [UNALIGN] undoes [ALIGN] as long as the byte in front is kept. *)
Lemma UNALIGN_run p s :
  0 <= p → p + 32 < 4294967296 → l_mem s (align_up p - 16) = align_info p → UNALIGN (align_up p) s = Done p s.
Proof.
  intros Hp Hb Hm. destruct (align_up_spec p Hp Hb) as (_ & Hr & Hi). unfold UNALIGN. mrun. change ALIGN_INFO with 16.
  rewrite (u32_small (align_up p - 16)) by lia. rewrite Hm, Hi. unfold char_uptr. change (ALIGNMENT + 16) with 32.
  ztest (align_up p - p <? 128) is true. rewrite u32_small by lia. ztest (align_up p - p <? 32) is true. rewrite u32_small by lia.
  unfold ret. do 2 f_equal. lia.
Qed.

Lemma set_l_mem_twice m m' s : set_l_mem m' (set_l_mem m s) = set_l_mem m' s.
Proof. done. Qed.
End run.

(** ** Allocations of a block *)

Record minor : Type := Minor { mn_addr : Z; mn_size : Z; mn_req : Z }.

(** The first byte behind the allocation. *)
Definition mn_end (x : minor) : Z := mn_addr x + 24 + mn_size x.

(** The header of [x] but for its link words. *)
Definition header (m : mem) (blk prev : Z) (x : minor) : Prop :=
  load32 m (min_prev (mn_addr x)) = prev ∧ load32 m (min_block (mn_addr x)) = blk ∧
  load32 m (min_magic (mn_addr x)) = LIBALLOC_MAGIC ∧ load32 m (min_size (mn_addr x)) = mn_size x ∧
  load32 m (min_req (mn_addr x)) = mn_req x.

(** [chain m blk link prev l]: the word at [link] leads to the minors [l]; the
    first one has [prev] as its predecessor.  [pre] is the chain without its
    end. *)
Fixpoint pre (m : mem) (blk link prev : Z) (l : list minor) : Prop :=
  match l with
  | [] => True
  | x :: l' => load32 m link = mn_addr x ∧ header m blk prev x ∧ pre m blk (min_next (mn_addr x)) (mn_addr x) l'
  end.

Fixpoint link_after (link : Z) (l : list minor) : Z :=
  match l with [] => link | x :: l' => link_after (min_next (mn_addr x)) l' end.
Fixpoint prev_after (prev : Z) (l : list minor) : Z :=
  match l with [] => prev | x :: l' => prev_after (mn_addr x) l' end.

Definition chain (m : mem) (blk link prev : Z) (l : list minor) : Prop :=
  pre m blk link prev l ∧ load32 m (link_after link l) = 0.

Definition head_addr (l : list minor) : Z := match l with [] => 0 | x :: _ => mn_addr x end.

Lemma pre_app m blk link prev l1 l2 :
  pre m blk link prev (l1 ++ l2) ↔ pre m blk link prev l1 ∧ pre m blk (link_after link l1) (prev_after prev l1) l2.
Proof. revert link prev. induction l1 as [|x l1 IH]; intros link prev; cbn; [tauto|]. rewrite IH. tauto. Qed.

Lemma link_after_app link l1 l2 : link_after link (l1 ++ l2) = link_after (link_after link l1) l2.
Proof. revert link. induction l1 as [|x l1 IH]; intros link; cbn; [done|apply IH]. Qed.

Lemma prev_after_app prev l1 l2 : prev_after prev (l1 ++ l2) = prev_after (prev_after prev l1) l2.
Proof. revert prev. induction l1 as [|x l1 IH]; intros prev; cbn; [done|apply IH]. Qed.

Lemma chain_app m blk link prev l1 l2 :
  chain m blk link prev (l1 ++ l2) ↔ pre m blk link prev l1 ∧ chain m blk (link_after link l1) (prev_after prev l1) l2.
Proof. unfold chain. rewrite pre_app, link_after_app. tauto. Qed.

Lemma chain_head m blk link prev l : chain m blk link prev l → load32 m link = head_addr l.
Proof. destruct l; cbn; [by intros [_ H]|by intros [[H _] _]]. Qed.

(** The allocations lie one behind the other between [lo] and [hi]. *)
Fixpoint fits (lo hi : Z) (l : list minor) : Prop :=
  match l with
  | [] => lo <= hi
  | x :: l' => lo <= mn_addr x ∧ 32 <= mn_size x ∧ fits (mn_end x) hi l'
  end.

Fixpoint last_end (lo : Z) (l : list minor) : Z :=
  match l with [] => lo | x :: l' => last_end (mn_end x) l' end.

Lemma fits_app lo hi l1 l2 : fits lo hi (l1 ++ l2) ↔ fits lo (last_end lo l1) l1 ∧ fits (last_end lo l1) hi l2.
Proof.
  revert lo. induction l1 as [|x l1 IH]; intros lo; cbn; [split; [intros H; split; [lia|done]|tauto]|]. rewrite IH. tauto.
Qed.

Lemma last_end_app lo l1 l2 : last_end lo (l1 ++ l2) = last_end (last_end lo l1) l2.
Proof. revert lo. induction l1 as [|x l1 IH]; intros lo; [done|]. apply IH. Qed.

Lemma fits_le lo hi l : fits lo hi l → lo <= hi.
Proof. revert lo. induction l as [|x l IH]; intros lo; cbn; [done|]. intros (H1 & H2 & H3%IH). unfold mn_end in H3. lia. Qed.

Lemma last_end_le lo hi l : fits lo hi l → lo <= last_end lo l <= hi.
Proof.
  revert lo. induction l as [|x l IH]; intros lo; cbn; [lia|]. intros (H1 & H2 & H3%IH). unfold mn_end in *. lia.
Qed.

Lemma fits_weaken lo lo' hi hi' l : lo' <= lo → hi <= hi' → fits lo hi l → fits lo' hi' l.
Proof.
  revert lo lo'. induction l as [|x l IH]; intros lo lo' Hlo Hhi; cbn; [lia|]. intros (H1 & H2 & H3). split_and!; [lia|done|].
  eapply IH; [|done|done]. lia.
Qed.

Lemma fits_elem lo hi l x : fits lo hi l → x ∈ l → lo <= mn_addr x ∧ 32 <= mn_size x ∧ mn_end x <= hi.
Proof.
  intros Hf Hx. apply list_elem_of_split in Hx as (l1 & l2 & ->). apply fits_app in Hf as [H1 (H2 & H3 & H4)].
  pose proof (fits_le _ _ _ H1). pose proof (fits_le _ _ _ H4). lia.
Qed.

(** Two allocations of a block do not overlap. *)
Lemma fits_apart lo hi l i j x y :
  fits lo hi l → l !! i = Some x → l !! j = Some y → (i < j)%nat → mn_end x <= mn_addr y.
Proof.
  revert lo i j. induction l as [|z l IH]; intros lo [|i] [|j] Hf Hi Hj Hij; cbn in *; try done; try lia.
  - injection Hi as ->. destruct Hf as (_ & _ & Hf). apply (fits_elem _ _ _ y Hf). by eapply list_elem_of_lookup_2.
  - destruct Hf as (_ & _ & Hf). eapply IH; [done|done|done|lia].
Qed.

Definition used (l : list minor) : Z := foldr (λ x n, 24 + mn_size x + n) 0 l.

Lemma used_app l1 l2 : used (l1 ++ l2) = used l1 + used l2.
Proof. induction l1 as [|x l1 IH]; cbn; [done|]. fold (used (l1 ++ l2)) (used l1). rewrite IH. lia. Qed.

Lemma used_fits lo hi l : fits lo hi l → 0 <= used l <= hi - lo.
Proof.
  revert lo. induction l as [|x l IH]; intros lo; cbn; [lia|]. intros (H1 & H2 & H3%IH). fold (used l). unfold mn_end in *. lia.
Qed.

(** ** Frames *)

(** The bytes that [pre] looks at. *)
Fixpoint pre_bytes (link : Z) (l : list minor) (y : Z) : Prop :=
  match l with
  | [] => False
  | x :: l' =>
      link <= y < link + 4 ∨ mn_addr x <= y < mn_addr x + 4 ∨ mn_addr x + 8 <= y < mn_addr x + 24 ∨
      pre_bytes (min_next (mn_addr x)) l' y
  end.

Definition chain_bytes (link : Z) (l : list minor) (y : Z) : Prop :=
  pre_bytes link l y ∨ link_after link l <= y < link_after link l + 4.

Lemma header_frame m m' blk prev x :
  (∀ y, mn_addr x <= y < mn_addr x + 4 ∨ mn_addr x + 8 <= y < mn_addr x + 24 → m' y = m y) →
  header m blk prev x → header m' blk prev x.
Proof.
  unfold header, min_prev, min_block, min_magic, min_size, min_req. intros He (H1 & H2 & H3 & H4 & H5).
  split_and!; (etrans; [apply load32_ext|eassumption]); intros y Hy; apply He; lia.
Qed.

Lemma pre_frame m m' blk link prev l :
  (∀ y, pre_bytes link l y → m' y = m y) → pre m blk link prev l → pre m' blk link prev l.
Proof.
  revert link prev. induction l as [|x l IH]; intros link prev He; cbn; [done|]. intros (H1 & H2 & H3). split_and!.
  - rewrite <- H1. apply load32_ext. intros y Hy. apply He. cbn. lia.
  - eapply header_frame; [|exact H2]. intros y Hy. apply He. cbn. lia.
  - apply IH; [|done]. intros y Hy. apply He. cbn. auto.
Qed.

Lemma chain_frame m m' blk link prev l :
  (∀ y, chain_bytes link l y → m' y = m y) → chain m blk link prev l → chain m' blk link prev l.
Proof.
  unfold chain, chain_bytes. intros He [H1 H2]. split.
  - eapply pre_frame; [|exact H1]. intros y Hy. apply He. by left.
  - rewrite <- H2. apply load32_ext. intros y Hy. apply He. by right.
Qed.

(** Where these bytes are: the link in front, or in the headers. *)
Lemma pre_bytes_in lo hi link l y :
  fits lo hi l → link + 4 <= lo → pre_bytes link l y →
  (link <= y < link + 4 ∨ lo <= y < hi) ∧ ¬ link_after link l <= y < link_after link l + 4 ∧
  (∀ x, x ∈ l → mn_addr x + 24 <= y → mn_end x <= y).
Proof.
  revert lo link. induction l as [|x l IH]; intros lo link; cbn; [done|]. intros (H1 & H2 & H3) Hl Hy. pose proof (fits_le _ _ _ H3) as Hle.
  assert (Hlink : link_after (min_next (mn_addr x)) l = min_next (mn_addr x) ∧ l = [] ∨
    mn_end x <= link_after (min_next (mn_addr x)) l).
  { destruct l as [|z l]; [by left|right]. cbn in H3 |- *. destruct H3 as (Hz1 & Hz2 & Hz3). clear -Hz1 Hz2 Hz3.
    revert z Hz1 Hz2 Hz3. induction l as [|w l IH]; intros z H1 H2 H3; cbn; [unfold min_next; lia|].
    cbn in H3. destruct H3 as (H4 & H5 & H6). unfold mn_end in *. apply (IH w); [lia|done|done]. }
  unfold mn_end, min_next in *. destruct Hy as [Hy|[Hy|[Hy|Hy]]].
  - split_and!; [lia|destruct Hlink as [[-> ->]|?]; lia|]. intros z [->|Hz]%elem_of_cons; [lia|].
    pose proof (fits_elem _ _ _ z H3 Hz). lia.
  - split_and!; [lia|destruct Hlink as [[-> ->]|?]; lia|]. intros z [->|Hz]%elem_of_cons; [lia|].
    pose proof (fits_elem _ _ _ z H3 Hz). lia.
  - split_and!; [lia|destruct Hlink as [[-> ->]|?]; lia|]. intros z [->|Hz]%elem_of_cons; [lia|].
    pose proof (fits_elem _ _ _ z H3 Hz). lia.
  - destruct (IH (mn_addr x + 24 + mn_size x) (mn_addr x + 4) H3 ltac:(lia) Hy) as (A1 & A2 & A3).
    split_and!; [lia|done|]. intros z [->|Hz]%elem_of_cons Hle'; [lia|by apply A3].
Qed.

Lemma link_after_in lo hi link l :
  fits lo hi l → link + 4 <= lo → (l = [] ∧ link_after link l = link) ∨ lo <= link_after link l ∧ link_after link l + 4 <= last_end lo l - 16.
Proof.
  revert lo link. induction l as [|x l IH]; intros lo link; cbn; [by left|]. intros (H1 & H2 & H3) Hl. right.
  destruct (IH (mn_end x) (min_next (mn_addr x)) H3 ltac:(unfold mn_end, min_next; lia)) as [[-> Hlk]|[A1 A2]].
  - cbn in *. unfold mn_end, min_next in *. lia.
  - unfold mn_end in *. lia.
Qed.

Lemma prev_after_in lo hi prev l :
  fits lo hi l → (l = [] ∧ prev_after prev l = prev) ∨ lo <= prev_after prev l ∧ prev_after prev l + 56 <= last_end lo l ∧
  ∀ link, link_after link l = min_next (prev_after prev l).
Proof.
  revert lo prev. induction l as [|x l IH]; intros lo prev; cbn; [by left|]. intros (H1 & H2 & H3). right.
  destruct (IH (mn_end x) (mn_addr x) H3) as [[-> Hlk]|(A1 & A2 & A3)].
  - cbn in *. unfold mn_end in *. split_and!; [lia|lia|done].
  - unfold mn_end in *. split_and!; [lia|lia|]. intros link. apply A3.
Qed.

(** The last link word is in a header, not among the bytes of an allocation. *)
Lemma link_not_bytes lo hi link l z y :
  fits lo hi l → link + 4 <= lo → z ∈ l → mn_addr z + 24 <= y < mn_end z → ¬ link_after link l <= y < link_after link l + 4.
Proof.
  revert lo link. induction l as [|x l IH]; intros lo link; cbn; [by intros _ _ ?%elem_of_nil|]. intros (H1 & H2 & H3) Hl Hz Hy.
  destruct (link_after_in _ _ (min_next (mn_addr x)) _ H3 ltac:(unfold mn_end, min_next; lia)) as [[-> E]|[A1 A2]].
  - cbn in *. apply list_elem_of_singleton in Hz as ->. unfold mn_end, min_next in *. lia.
  - apply elem_of_cons in Hz as [->|Hz]; [lia|]. eapply IH; [exact H3|unfold mn_end, min_next; lia|done|done].
Qed.

(** ** Inserting and removing an allocation *)

(** The prev field of the first of [l]. *)
Definition head_prev (l : list minor) (y : Z) : Prop :=
  match l with [] => False | x :: _ => mn_addr x <= y < mn_addr x + 4 end.

Record inserts (m m' : mem) (blk : Z) (l1 : list minor) (x : minor) (l2 : list minor) : Prop := {
  in_link : load32 m' (link_after (maj_first blk) l1) = mn_addr x;
  in_header : header m' blk (prev_after 0 l1) x;
  in_next : load32 m' (min_next (mn_addr x)) = head_addr l2;
  in_prev : match l2 with [] => True | z :: _ => load32 m' (min_prev (mn_addr z)) = mn_addr x end;
  in_frame : ∀ y, ¬ link_after (maj_first blk) l1 <= y < link_after (maj_first blk) l1 + 4 → ¬ mn_addr x <= y < mn_end x →
    ¬ head_prev l2 y → ¬ maj_usage blk <= y < maj_usage blk + 4 → m' y = m y
}.

Lemma inserts_chain m m' blk hi l1 x l2 :
  chain m blk (maj_first blk) 0 (l1 ++ l2) → fits (blk + 24) hi (l1 ++ x :: l2) → inserts m m' blk l1 x l2 →
  chain m' blk (maj_first blk) 0 (l1 ++ x :: l2).
Proof.
  intros Hc Hf [I1 I2 I3 I4 I5]. apply chain_app in Hc as [Hp Hc]. apply fits_app in Hf as [Hf1 (Hx1 & Hx2 & Hf2)].
  pose proof (last_end_le _ _ _ Hf1) as Hle1. pose proof (last_end_le _ _ _ Hf2) as Hle2. unfold maj_first, maj_usage in *.
  destruct (link_after_in _ _ (blk + 20) _ Hf1 ltac:(lia)) as [[El1 Elink]|[Hlk1 Hlk2]].
  all: apply chain_app; split.
  1,3: eapply pre_frame; [|exact Hp]; intros y Hy; destruct (pre_bytes_in _ _ (blk + 20) _ y Hf1 ltac:(lia) Hy) as (A1 & A2 & _); apply I5; [done|lia| |lia];
    (destruct l2 as [|z l2]; cbn in *; [tauto|destruct Hf2 as (Hz1 & Hz2 & _); unfold mn_end in *; lia]).
  all: unfold chain; cbn [pre link_after].
  all: destruct l2 as [|z l2]; [cbn; rewrite I3; tauto|]; destruct Hc as [(Hz & Hhz & Hpz) Hend]; cbn [pre link_after fits] in *;
    destruct Hf2 as (Hz1 & Hz2 & Hf3); pose proof (fits_le _ _ _ Hf3) as Hle3; unfold mn_end, min_next in *.
  all: split; [split_and!; [done|done|done| |]|].
  all: try (destruct Hhz as (_ & B2 & B3 & B4 & B5); unfold header, min_prev, min_block, min_magic, min_size, min_req in *;
    split_and!; [done|..]; (etrans; [apply load32_ext; intros y Hy; apply I5; cbn; lia|eassumption])).
  all: try (eapply pre_frame; [|exact Hpz]; intros y Hy;
    destruct (pre_bytes_in _ _ (mn_addr z + 4) _ y Hf3 ltac:(lia) Hy) as (A1 & _); apply I5; cbn; lia).
  all: rewrite <- Hend; apply load32_ext; intros y Hy; destruct (link_after_in _ _ (mn_addr z + 4) _ Hf3 ltac:(lia)) as [[-> E]|[A1 A2]];
    [rewrite E in Hy|]; apply I5; cbn; lia.
Qed.

Record removes (m m' : mem) (blk : Z) (l1 : list minor) (x : minor) (l2 : list minor) : Prop := {
  rm_link : load32 m' (link_after (maj_first blk) l1) = head_addr l2;
  rm_prev : match l2 with [] => True | z :: _ => load32 m' (min_prev (mn_addr z)) = prev_after 0 l1 end;
  rm_frame : ∀ y, ¬ link_after (maj_first blk) l1 <= y < link_after (maj_first blk) l1 + 4 → ¬ mn_addr x <= y < mn_addr x + 24 →
    ¬ head_prev l2 y → ¬ maj_usage blk <= y < maj_usage blk + 4 → m' y = m y
}.

Lemma removes_chain m m' blk hi l1 x l2 :
  chain m blk (maj_first blk) 0 (l1 ++ x :: l2) → fits (blk + 24) hi (l1 ++ x :: l2) → removes m m' blk l1 x l2 →
  chain m' blk (maj_first blk) 0 (l1 ++ l2).
Proof.
  intros Hc Hf [I1 I2 I5]. apply chain_app in Hc as [Hp Hc]. apply fits_app in Hf as [Hf1 (Hx1 & Hx2 & Hf2)].
  pose proof (last_end_le _ _ _ Hf1) as Hle1. pose proof (last_end_le _ _ _ Hf2) as Hle2. unfold maj_first, maj_usage in *.
  destruct (link_after_in _ _ (blk + 20) _ Hf1 ltac:(lia)) as [[El1 Elink]|[Hlk1 Hlk2]].
  all: apply chain_app; split.
  1,3: eapply pre_frame; [|exact Hp]; intros y Hy; destruct (pre_bytes_in _ _ (blk + 20) _ y Hf1 ltac:(lia) Hy) as (A1 & A2 & _); apply I5; [done|lia| |lia];
    (destruct l2 as [|z l2]; cbn in *; [tauto|destruct Hf2 as (Hz1 & Hz2 & _); unfold mn_end in *; lia]).
  all: destruct Hc as [(_ & _ & Hc) Hend]; cbn [link_after] in Hend.
  all: destruct l2 as [|z l2]; [split; [done|exact I1]|]; destruct Hc as (Hz & Hhz & Hpz); cbn [link_after fits] in *;
    destruct Hf2 as (Hz1 & Hz2 & Hf3); pose proof (fits_le _ _ _ Hf3) as Hle3; unfold mn_end, min_next in *.
  all: split; [cbn [pre]; split_and!; [exact I1| |]|].
  all: try (destruct Hhz as (_ & B2 & B3 & B4 & B5); unfold header, min_prev, min_block, min_magic, min_size, min_req in *;
    split_and!; [done|..]; (etrans; [apply load32_ext; intros y Hy; apply I5; cbn; lia|eassumption])).
  all: try (eapply pre_frame; [|exact Hpz]; intros y Hy;
    destruct (pre_bytes_in _ _ (mn_addr z + 4) _ y Hf3 ltac:(lia) Hy) as (A1 & _); apply I5; cbn; lia).
  all: rewrite <- Hend; apply load32_ext; intros y Hy; cbn [link_after] in Hy; unfold min_next in Hy;
    destruct (link_after_in _ _ (mn_addr z + 4) _ Hf3 ltac:(lia)) as [[-> E]|[A1 A2]];
    [rewrite E in Hy|]; apply I5; unfold min_next in *; cbn; lia.
Qed.
