(* ===== verification/LiballocRun.v ===== *)
(** * Allocating in and releasing from a block (vm/liballoc.c)

    The four placements of [kheap_malloc], its search through a block, the
    unlinking of [kheap_free] and the writes of the callers, each as a step
    between blocks that are well formed in memory ([block_at]). *)

From Stdlib Require Import ZArith Lia.
From stdpp Require Import base numbers list.
From S2P Require Import Prelude Mem Mmu Kalloc Vm Kheap Liballoc LiballocFacts.

(** A block of pages with its allocations. *)
Record major : Type := Major { mj_addr : Z; mj_pages : Z; mj_minors : list minor }.
Definition mj_end (b : major) : Z := mj_addr b + 4096 * mj_pages b.
Definition set_minors (l : list minor) (b : major) : major := Major (mj_addr b) (mj_pages b) l.

(** An allocation has room for the bytes requested and for their alignment, and
    the byte in front of the aligned pointer says where it starts. *)
Definition user_ptr (x : minor) : Z := align_up (mn_addr x + 24).
Definition minor_ok (m : mem) (x : minor) : Prop :=
  0 <= mn_req x ∧ mn_req x + 32 <= mn_size x ∧ m (user_ptr x - 16) = align_info (mn_addr x + 24).

(** Blocks are whole pages below the top of the address space. *)
Record range_ok (a n : Z) : Prop := {
  ro_pages : 0 < n;
  ro_addr : 0 < a;
  ro_top : a + 4096 * n <= 0xFFFFF000
}.

Record block_at (m : mem) (b : major) : Prop := {
  bl_range : range_ok (mj_addr b) (mj_pages b);
  bl_pages : load32 m (maj_pages (mj_addr b)) = mj_pages b;
  bl_size : load32 m (maj_size (mj_addr b)) = 4096 * mj_pages b;
  bl_usage : load32 m (maj_usage (mj_addr b)) = 24 + used (mj_minors b);
  bl_chain : chain m (mj_addr b) (maj_first (mj_addr b)) 0 (mj_minors b);
  bl_fits : fits (mj_addr b + 24) (mj_end b) (mj_minors b);
  bl_minors : Forall (minor_ok m) (mj_minors b)
}.

(** The byte in front of the user's pointer is in the allocation, the user's
    bytes are behind it. *)
Lemma user_ptr_spec m b x :
  block_at m b → x ∈ mj_minors b →
  user_ptr x mod 16 = 0 ∧ mn_addr x + 40 <= user_ptr x <= mn_addr x + 55 ∧ user_ptr x + mn_req x < mn_end x ∧
  mj_addr b + 24 <= mn_addr x ∧ mn_end x <= mj_end b.
Proof.
  intros [[? ? Ht] _ _ _ _ Hf Hm] Hx. destruct (fits_elem _ _ _ x Hf Hx) as (H1 & H2 & H3).
  rewrite Forall_forall in Hm. destruct (Hm x Hx) as (Hr1 & Hr2 & _). unfold user_ptr, mj_end, mn_end in *.
  destruct (align_up_spec (mn_addr x + 24)) as (A1 & A2 & _); [lia|lia|]. split_and!; [done|lia..].
Qed.

Lemma chain_bytes_in lo hi link l y :
  fits lo hi l → link + 4 <= lo → chain_bytes link l y → link <= y < link + 4 ∨ lo <= y < hi.
Proof.
  intros Hf Hl [Hy|Hy]; [by destruct (pre_bytes_in _ _ _ _ y Hf Hl Hy) as [? _]|].
  pose proof (last_end_le _ _ _ Hf). destruct (link_after_in _ _ link _ Hf Hl) as [[-> E]|[A1 A2]]; [cbn in Hy|]; lia.
Qed.

(** A block depends on its own bytes only, and not on its link words. *)
Lemma block_frame m m' b :
  (∀ y, mj_addr b + 8 <= y < mj_end b → m' y = m y) → block_at m b → block_at m' b.
Proof.
  intros He Hb. pose proof Hb as [Hr H1 H2 H3 H4 H5 H6]. pose proof (fits_le _ _ _ H5) as Hle. pose proof Hr as [Hn _ _].
  unfold mj_end in *. unfold maj_pages, maj_size, maj_usage, maj_first in *. split; try done.
  - rewrite <- H1. apply load32_ext. intros y Hy. apply He. unfold maj_pages in *. lia.
  - rewrite <- H2. apply load32_ext. intros y Hy. apply He. unfold maj_size in *. lia.
  - rewrite <- H3. apply load32_ext. intros y Hy. apply He. unfold maj_usage in *. lia.
  - eapply chain_frame; [|exact H4]. intros y Hy. apply He. unfold maj_first in *.
    destruct (chain_bytes_in _ _ (mj_addr b + 20) _ y H5 ltac:(lia) Hy); lia.
  - rewrite Forall_forall in *. intros x Hx. destruct (H6 x Hx) as (A1 & A2 & A3). split_and!; [done|done|]. rewrite <- A3. apply He.
    destruct (user_ptr_spec m b x Hb Hx) as (_ & B1 & B2 & B3 & B4). unfold mj_end in *. lia.
Qed.

(** What placing the allocation [x] between [l1] and [l2] of block [b] leaves
    alone: the links of the block, the other allocations, all other memory. *)
Definition placed (m m' : mem) (b : major) (x : minor) : Prop :=
  (∀ y, y < mj_addr b + 8 ∨ mj_end b <= y → m' y = m y) ∧
  (∀ z y, z ∈ mj_minors b → mn_addr z + 24 <= y < mn_end z → m' y = m y).

Ltac stores := unfold st; mrun; cbn [l_mem set_l_mem]; repeat rewrite set_l_mem_twice.
Ltac fields := unfold maj_first, maj_usage, min_prev, min_next, min_block, min_magic, min_size, min_req, LIBALLOC_MAGIC, mn_end in *.
Ltac ldst := repeat first [rewrite load32_store32_eq by lia | rewrite load32_store32_ne by lia]; done.
Ltac inserting :=
  split; unfold header; rewrite ?link_after_app, ?prev_after_app; cbn [mn_addr mn_size mn_req head_addr head_prev link_after prev_after]; fields;
  [ldst | split_and!; ldst | ldst | first [exact I | ldst]
  |cbn [mn_addr mn_size]; intros y Y1 Y2 Y3 Y4; rewrite !store32_out by lia; done].

Section run.
Context {P : Type} `{!PageOps P}.
Implicit Types s : lheap P.

Lemma ld_run a s : ld a s = Done (load32 (l_mem s) a) s.
Proof. done. Qed.
Lemma st_run a v s : st a v s = Done tt (set_l_mem (store32 (l_mem s) a v) s).
Proof. done. Qed.

(** The last step of every placement: usage, [l_inuse] and alignment. *)
Lemma account_run b l1 x l2 m1 s :
  block_at (l_mem s) b → mj_minors b = l1 ++ l2 → fits (mj_addr b + 24) (mj_end b) (l1 ++ x :: l2) →
  0 <= mn_req x → mn_req x + 32 <= mn_size x →
  inserts (l_mem s) m1 (mj_addr b) l1 x l2 → (∀ y, maj_usage (mj_addr b) <= y < maj_usage (mj_addr b) + 4 → m1 y = l_mem s y) →
  ∃ m', account_minor (mj_addr b) (mn_addr x) (mn_size x) (set_l_mem m1 s) =
      Done (user_ptr x) (set_inuse (u64 (l_inuse s + mn_size x)) (set_l_mem m' s)) ∧
    block_at m' (set_minors (l1 ++ x :: l2) b) ∧ placed (l_mem s) m' b x.
Proof.
  intros Hb Hl Hf Hq0 Hq Hin Hus. pose proof Hb as [[Hn Ha Ht] B1 B2 B3 B4 B5 B6]. set (m := l_mem s) in *.
  pose proof Hf as Hf0. apply fits_app in Hf as [Hf1 (Hx1 & Hx2 & Hf2)]. pose proof (last_end_le _ _ _ Hf1) as Hle1.
  pose proof (fits_le _ _ _ Hf2) as Hle2. pose proof (used_fits _ _ _ Hf0) as Hu. rewrite used_app in Hu. cbn [used foldr] in Hu. fold (used l2) in Hu.
  assert (Hxe : mj_addr b + 24 <= mn_addr x ∧ mn_end x <= mj_end b) by lia. unfold mn_end, mj_end in *.
  destruct (align_up_spec (mn_addr x + 24)) as (A1 & A2 & A3); [lia|lia|].
  unfold account_minor. change MINOR with 24. mcall (ld_run (maj_usage (mj_addr b)) (set_l_mem m1 s)). cbn [l_mem set_l_mem].
  assert (Eu : load32 m1 (maj_usage (mj_addr b)) = 24 + used (l1 ++ l2)) by (rewrite <- Hl, <- B3; apply load32_ext; exact Hus).
  rewrite Eu, used_app. rewrite (u32_small (mn_size x + 24)), (u32_small (mn_addr x + 24)), u32_small by lia.
  set (v := 24 + (used l1 + used l2) + (mn_size x + 24)).
  mcall (st_run (maj_usage (mj_addr b)) v (set_l_mem m1 s)). rewrite ALIGN_run. cbn. fold (user_ptr x) in *.
  rewrite (u32_small (user_ptr x - 16)) by lia. set (m' := store8 _ _ _). exists m'. split; [done|].
  assert (Hm' : ∀ y, ¬ maj_usage (mj_addr b) <= y < maj_usage (mj_addr b) + 4 → y ≠ user_ptr x - 16 → m' y = m1 y).
  { intros y Hy1 Hy2. unfold m'. rewrite store8_ne, store32_out by lia. done. }
  unfold maj_usage in *. pose proof Hin as [I1 I2 I3 I4 I5]. unfold maj_first, maj_usage in *.
  assert (HL : mj_addr b + 20 <= link_after (mj_addr b + 20) l1 ∧ link_after (mj_addr b + 20) l1 + 4 <= mn_addr x).
  { destruct (link_after_in _ _ (mj_addr b + 20) _ Hf1 ltac:(lia)) as [[-> E]|[C1 C2]]; [cbn in *|]; lia. }
  assert (Hl2 : ∀ z, z ∈ l2 → mn_end x <= mn_addr z).
  { intros z Hz. by destruct (fits_elem _ _ _ z Hf2 Hz). }
  assert (Hin' : inserts m m' (mj_addr b) l1 x l2).
  { unfold mn_end in *. split; unfold maj_first, maj_usage.
    - rewrite <- I1. apply load32_ext. intros y Hy. apply Hm'; lia.
    - eapply header_frame; [|exact I2]. intros y Hy. apply Hm'; lia.
    - rewrite <- I3. apply load32_ext. unfold min_next. intros y Hy. apply Hm'; lia.
    - destruct l2 as [|z l2]; [done|]. rewrite <- I4. specialize (Hl2 z ltac:(left)). apply load32_ext. unfold min_prev. intros y Hy. apply Hm'; lia.
    - intros y Y1 Y2 Y3 Y4. unfold mn_end in Y2. rewrite Hm' by lia. by apply I5. }
  assert (Hpl : ∀ z y, z ∈ mj_minors b → mn_addr z + 24 <= y < mn_end z → m' y = m y).
  { intros z y Hz Hy. destruct Hin' as [_ _ _ _ I5']. rewrite Hl in Hz. unfold maj_first, maj_usage in *.
    apply elem_of_app in Hz as [Hz|Hz].
    - destruct (fits_elem _ _ _ z Hf1 Hz) as (? & ? & ?). pose proof (link_not_bytes _ _ (mj_addr b + 20) _ z y Hf1 ltac:(lia) Hz Hy) as HnL.
      apply I5'; [exact HnL|unfold mn_end in *; lia| |lia]. destruct l2 as [|w l2]; cbn; [tauto|]. specialize (Hl2 w ltac:(left)). unfold mn_end in *. lia.
    - pose proof (Hl2 z Hz) as Hxz. apply I5'; [unfold mn_end in *; lia|unfold mn_end in *; lia| |unfold mn_end in *; lia].
      destruct l2 as [|w l2]; cbn; [tauto|]. apply elem_of_cons in Hz as [->|Hz]; [lia|].
      destruct Hf2 as (_ & ? & Hf3). destruct (fits_elem _ _ _ z Hf3 Hz) as (? & _). unfold mn_end in *. lia. }
  assert (Hout : ∀ y, y < mj_addr b + 16 ∨ mj_addr b + 4096 * mj_pages b <= y → m' y = m y).
  { intros y Hy. destruct Hin' as [_ _ _ _ I5']. unfold maj_first, maj_usage, mn_end in *. apply I5'; [lia|lia| |lia].
    destruct l2 as [|w l2]; cbn; [tauto|]. destruct Hf2 as (? & ? & Hf3). apply fits_le in Hf3. unfold mn_end in *. lia. }
  split; [|split; [intros y Hy; apply Hout; unfold mj_end in *; lia|done]].
  split; cbn [mj_addr mj_pages mj_minors set_minors]; try done.
  - rewrite <- B1. apply load32_ext. unfold maj_pages. intros y Hy. apply Hout. lia.
  - rewrite <- B2. apply load32_ext. unfold maj_size. intros y Hy. apply Hout. lia.
  - unfold m', maj_usage. transitivity (load32 (store32 m1 (mj_addr b + 16) v) (mj_addr b + 16)).
    { apply load32_ext. intros y Hy. apply store8_ne. lia. }
    rewrite load32_store32_eq by lia. rewrite used_app. cbn [used foldr]. fold (used l2). unfold v. lia.
  - apply (inserts_chain m m' _ (mj_end b)); [by rewrite <- Hl|done|done].
  - rewrite Hl in B6. rewrite Forall_app in B6. destruct B6 as [M1 M2]. assert (Hold : ∀ z, z ∈ mj_minors b → minor_ok m z → minor_ok m' z).
    { intros z Hz (C1 & C2 & C3). split_and!; [done|done|]. rewrite <- C3. destruct (user_ptr_spec m b z Hb Hz) as (_ & ? & ? & _).
      apply (Hpl z); [done|]. lia. }
    rewrite Forall_forall in M1, M2. apply Forall_app. split; [|constructor].
    + apply Forall_forall. intros z Hz. apply Hold; [rewrite Hl; apply elem_of_app; by left|auto].
    + split_and!; [done|done|]. unfold m'. rewrite store8_eq. rewrite u8_small; [done|]. unfold user_ptr in *. lia.
    + apply Forall_forall. intros z Hz. apply Hold; [rewrite Hl; apply elem_of_app; by right|auto].
Qed.

(** The outcome of a placement of [size] bytes in block [b]: the allocation [x]. *)
Definition placement b size req s (p : Z) s' : Prop :=
  ∃ l1 x l2 m', mj_minors b = l1 ++ l2 ∧ mn_size x = size ∧ mn_req x = req ∧ p = user_ptr x ∧
    s' = set_inuse (u64 (l_inuse s + size)) (set_l_mem m' s) ∧
    block_at m' (set_minors (l1 ++ x :: l2) b) ∧ placed (l_mem s) m' b x.

Lemma finish b l1 a size req l2 m1 s :
  block_at (l_mem s) b → mj_minors b = l1 ++ l2 → 0 <= req → req + 32 <= size →
  last_end (mj_addr b + 24) l1 <= a → fits (a + 24 + size) (mj_end b) l2 →
  inserts (l_mem s) m1 (mj_addr b) l1 (Minor a size req) l2 →
  (∀ y, maj_usage (mj_addr b) <= y < maj_usage (mj_addr b) + 4 → m1 y = l_mem s y) →
  ∃ p s', account_minor (mj_addr b) a size (set_l_mem m1 s) = Done p s' ∧ placement b size req s p s'.
Proof.
  intros Hb Hl Hr Hs Ha Hf Hin Hu.
  destruct (account_run b l1 (Minor a size req) l2 m1 s) as (m' & R & B & Pl); try done.
  { apply fits_app. split; [by pose proof (bl_fits _ _ Hb) as H; rewrite Hl in H; apply fits_app in H as [H _]|].
    cbn. split_and!; [done|lia|done]. }
  cbn [mn_addr mn_size mn_req] in R. rewrite R. eexists _, _. split; [done|]. by exists l1, (Minor a size req), l2, m'.
Qed.

Lemma place_new_run b size req s :
  block_at (l_mem s) b → mj_minors b = [] → 0 <= req → req + 32 <= size → 24 + 24 + size <= 4096 * mj_pages b →
  ∃ p s', place_new (mj_addr b) size req s = Done p s' ∧ placement b size req s p s'.
Proof.
  intros Hb Hl Hr Hs Hroom. pose proof Hb as [[Hn Ha Ht] _ _ _ _ _ _].
  unfold place_new. change MAJOR with 24. rewrite u32_small by lia. stores.
  apply (finish b [] _ _ _ []); try done; [cbn; unfold mj_end; lia| |].
  - inserting.
  - fields. intros y Hy. rewrite !store32_out by lia. done.
Qed.

Lemma place_front_run b x l size req s :
  block_at (l_mem s) b → mj_minors b = x :: l → 0 <= req → req + 32 <= size → size + 24 <= mn_addr x - mj_addr b - 24 →
  ∃ p s', place_front (mj_addr b) (mn_addr x) size req s = Done p s' ∧ placement b size req s p s'.
Proof.
  intros Hb Hl Hr Hs Hroom. pose proof Hb as [[Hn Ha Ht] _ _ _ _ Hf _]. rewrite Hl in Hf. destruct Hf as (Hf1 & Hf2 & Hf3).
  pose proof (fits_le _ _ _ Hf3) as Hle. unfold mj_end, mn_end in *.
  unfold place_front. change MAJOR with 24. rewrite u32_small by lia. stores.
  apply (finish b [] _ _ _ (x :: l)); try done.
  - cbn. unfold mn_end. split_and!; [lia|done|done].
  - inserting.
  - fields. intros y Hy. rewrite !store32_out by lia. done.
Qed.

Lemma place_last_run b l x size req s :
  block_at (l_mem s) b → mj_minors b = l ++ [x] → 0 <= req → req + 32 <= size → mn_end x + size + 24 <= mj_end b →
  ∃ p s', place_last (mj_addr b) (mn_addr x) (mn_size x) size req s = Done p s' ∧ placement b size req s p s'.
Proof.
  intros Hb Hl Hr Hs Hroom. pose proof Hb as [[Hn Ha Ht] _ _ _ _ Hf _]. rewrite Hl in Hf. apply fits_app in Hf as [Hf0 (Hf1 & Hf2 & Hf3)].
  pose proof (last_end_le _ _ _ Hf0) as Hle. unfold mj_end, mn_end in *.
  unfold place_last. change MINOR with 24. rewrite u32_small by lia. stores.
  apply (finish b (l ++ [x]) _ _ _ []); [done|by rewrite app_nil_r|done|done| | | |].
  - clear -Hle. rewrite last_end_app. cbn. unfold mn_end. lia.
  - cbn. unfold mj_end. lia.
  - inserting.
  - fields. intros y Hy. rewrite !store32_out by lia. done.
Qed.

Lemma place_between_run b l x z l' size req s :
  block_at (l_mem s) b → mj_minors b = l ++ x :: z :: l' → 0 <= req → req + 32 <= size → mn_end x + size + 24 <= mn_addr z →
  ∃ p s', place_between (mj_addr b) (mn_addr x) (mn_size x) (mn_addr z) size req s = Done p s' ∧ placement b size req s p s'.
Proof.
  intros Hb Hl Hr Hs Hroom. pose proof Hb as [[Hn Ha Ht] _ _ _ _ Hf _]. rewrite Hl in Hf.
  apply fits_app in Hf as [Hf0 (Hf1 & Hf2 & Hf3 & Hf4 & Hf5)].
  pose proof (last_end_le _ _ _ Hf0) as Hle. pose proof (fits_le _ _ _ Hf5) as Hle'. unfold mj_end, mn_end in *.
  unfold place_between. change MINOR with 24. rewrite u32_small by lia. stores.
  apply (finish b (l ++ [x]) _ _ _ (z :: l')); [done|by rewrite <- app_assoc|done|done| | | |].
  - clear -Hle. rewrite last_end_app. cbn. unfold mn_end. lia.
  - cbn. unfold mn_end. split_and!; [lia|done|done].
  - inserting.
  - fields. intros y Hy. rewrite !store32_out by lia. done.
Qed.

(** What searching a block for room gives: a placement or the block unchanged. *)
Definition searched b size req s (r : option Z) s' : Prop :=
  match r with Some p => placement b size req s p s' | None => s' = s end.

Lemma minor_loop_run b l1 l2 size req s fuel :
  block_at (l_mem s) b → mj_minors b = l1 ++ l2 → 0 <= req → req + 32 <= size → size + 24 < 4294967296 → (length l2 <= fuel)%nat →
  ∃ r s', minor_loop fuel (mj_addr b) (head_addr l2) size req s = Done r s' ∧ searched b size req s r s'.
Proof.
  intros Hb Hl Hr Hs Hsz. pose proof Hb as [[Hn Ha Ht] _ B2 _ B4 B5 _].
  revert l1 fuel Hl. induction l2 as [|x l2 IH]; intros l1 fuel Hl Hfu.
  { exists None, s. by destruct fuel. }
  destruct fuel as [|fuel]; cbn [length] in Hfu; [lia|].
  pose proof Hl as Hc. rewrite Hl in B4, B5. apply chain_app in B4 as [_ B4]. destruct B4 as [(_ & Hh & _) _].
  assert (Hnext : load32 (l_mem s) (min_next (mn_addr x)) = head_addr l2).
  { pose proof (bl_chain _ _ Hb) as C. rewrite Hl in C. apply chain_app in C as [_ C]. apply (chain_app _ _ _ _ [x] l2) in C as [_ C]. by apply chain_head in C. }
  apply fits_app in B5 as [F0 (F1 & F2 & F3)]. pose proof (last_end_le _ _ _ F0) as Hle. pose proof (fits_le _ _ _ F3) as Hle'.
  destruct Hh as (_ & _ & _ & Hsize & _). unfold mj_end, mn_end in *. cbn [minor_loop head_addr].
  ztest (mn_addr x =? 0) is false. rewrite (bind_run _ _ _ _ _ (ld_run (min_next (mn_addr x)) s)), Hnext.
  rewrite (bind_run _ _ _ _ _ (ld_run (min_size (mn_addr x)) s)), Hsize. change MINOR with 24. rewrite (u32_small (size + 24)) by lia.
  destruct l2 as [|z l2]; cbn [head_addr].
  - cbn [Z.eqb]. rewrite (bind_run _ _ _ _ _ (ld_run (maj_size (mj_addr b)) s)), B2. rewrite u32_small by lia. case_if.
    + destruct (place_last_run b l1 x size req s) as (p & s' & R & Pl); [done|done|done|done|unfold mj_end, mn_end; zlia|].
      rewrite (bind_run _ _ _ _ _ R). by exists (Some p), s'.
    + apply (IH (l1 ++ [x])); [by rewrite <- app_assoc|cbn in *; lia].
  - destruct F3 as (G1 & G2 & G3). pose proof (fits_le _ _ _ G3). unfold mn_end in *. ztest (mn_addr z =? 0) is false. rewrite u32_small by lia. case_if.
    + destruct (place_between_run b l1 x z l2 size req s) as (p & s' & R & Pl); [done|done|done|done|unfold mn_end; zlia|].
      rewrite (bind_run _ _ _ _ _ R). by exists (Some p), s'.
    + apply (IH (l1 ++ [x])); [by rewrite <- app_assoc|cbn in *; lia].
Qed.

Lemma place_run b size req s fuel :
  block_at (l_mem s) b → 0 <= req → req + 32 <= size → 24 + used (mj_minors b) + size + 24 <= 4096 * mj_pages b →
  (length (mj_minors b) <= fuel)%nat →
  ∃ r s', place fuel (mj_addr b) size req s = Done r s' ∧ searched b size req s r s' ∧ (mj_minors b = [] → is_Some r).
Proof.
  intros Hb Hr Hs Hroom Hfu. pose proof Hb as [[Hn Ha Ht] _ B2 _ B4 B5 _]. pose proof (used_fits _ _ _ B5) as Hu.
  unfold place. rewrite (bind_run _ _ _ _ _ (ld_run (maj_first (mj_addr b)) s)). rewrite (chain_head _ _ _ _ _ B4).
  destruct (mj_minors b) as [|x l] eqn:El; cbn [head_addr].
  - cbn [Z.eqb]. cbn in Hroom. destruct (place_new_run b size req s) as (p & s' & R & Pl); [done|done|done|done|lia|].
    rewrite (bind_run _ _ _ _ _ R). exists (Some p), s'. split_and!; [done|done|by eexists].
  - destruct B5 as (F1 & F2 & F3). pose proof (fits_le _ _ _ F3). unfold mj_end, mn_end in *. ztest (mn_addr x =? 0) is false.
    change MAJOR with 24. change MINOR with 24. rewrite !u32_small by lia. case_if.
    + destruct (place_front_run b x l size req s) as (p & s' & R & Pl); [done|done|done|done|zlia|].
      rewrite (bind_run _ _ _ _ _ R). exists (Some p), s'. done.
    + destruct (minor_loop_run b [] (x :: l) size req s fuel) as (r & s' & R & Pl); [done|done|done|done|lia|lia|].
      exists r, s'. cbn [head_addr] in R. done.
Qed.

(** ** Releasing an allocation *)

(** What the release of [x] leaves alone. *)
Definition unlinked (m m' : mem) (b : major) (l : list minor) : Prop :=
  (∀ y, y < mj_addr b + 8 ∨ mj_end b <= y → m' y = m y) ∧
  (∀ z y, z ∈ l → mn_addr z + 24 <= y < mn_end z → m' y = m y).

Lemma removes_block m m' b l1 x l2 :
  block_at m b → mj_minors b = l1 ++ x :: l2 → removes m m' (mj_addr b) l1 x l2 →
  load32 m' (maj_usage (mj_addr b)) = 24 + used (l1 ++ l2) →
  block_at m' (set_minors (l1 ++ l2) b) ∧ unlinked m m' b (l1 ++ l2).
Proof.
  intros Hb Hl Hrm Hus. pose proof Hb as [[Hn Ha Ht] B1 B2 B3 B4 B5 B6]. rewrite Hl in B4, B5, B6. pose proof B5 as B5'.
  apply fits_app in B5 as [F1 (X1 & X2 & F2)]. pose proof (last_end_le _ _ _ F1) as Hle. pose proof (fits_le _ _ _ F2) as Hle2.
  pose proof (removes_chain m m' _ (mj_end b) l1 x l2 B4 B5' Hrm) as Hch. destruct Hrm as [R1 R2 R3]. fields. unfold mj_end in *.
  assert (HL : mj_addr b + 20 <= link_after (mj_addr b + 20) l1 ∧ link_after (mj_addr b + 20) l1 + 4 <= mn_addr x).
  { destruct (link_after_in _ _ (mj_addr b + 20) _ F1 ltac:(lia)) as [[-> E]|[C1 C2]]; [cbn in *|]; lia. }
  assert (Hout : ∀ y, y < mj_addr b + 16 ∨ mj_addr b + 4096 * mj_pages b <= y → m' y = m y).
  { intros y Hy. apply R3; [lia|lia| |lia]. destruct l2 as [|w l2]; cbn; [tauto|]. destruct F2 as (? & ? & F3). apply fits_le in F3. fields. lia. }
  assert (Hpay : ∀ z y, z ∈ l1 ++ l2 → mn_addr z + 24 <= y < mn_end z → m' y = m y).
  { intros z y Hz Hy. fields. apply elem_of_app in Hz as [Hz|Hz].
    - destruct (fits_elem _ _ _ z F1 Hz) as (? & ? & ?). pose proof (link_not_bytes _ _ (mj_addr b + 20) _ z y F1 ltac:(lia) Hz Hy) as HnL.
      fields. apply R3; [exact HnL|lia| |lia]. destruct l2 as [|w l2]; cbn; [tauto|]. destruct F2 as (? & _). fields. lia.
    - destruct (fits_elem _ _ _ z F2 Hz) as (? & ? & ?). fields. apply R3; [lia|lia| |lia].
      destruct l2 as [|w l2]; cbn; [tauto|]. apply elem_of_cons in Hz as [->|Hz]; [lia|].
      destruct F2 as (_ & ? & F3). destruct (fits_elem _ _ _ z F3 Hz) as (? & _). fields. lia. }
  split; [|split; [intros y Hy; apply Hout; unfold mj_end in *; lia|exact Hpay]].
  split; cbn [mj_addr mj_pages mj_minors set_minors]; try done.
  - rewrite <- B1. apply load32_ext. unfold maj_pages. intros y Hy. apply Hout. lia.
  - rewrite <- B2. apply load32_ext. unfold maj_size. intros y Hy. apply Hout. lia.
  - apply fits_app. split; [done|]. eapply fits_weaken; [|reflexivity|exact F2]. fields. lia.
  - apply Forall_forall. intros z Hz. assert (Hz' : z ∈ l1 ++ x :: l2) by (rewrite elem_of_app, elem_of_cons in *; tauto).
    rewrite Forall_forall in B6. destruct (B6 z Hz') as (C1 & C2 & C3). split_and!; [done|done|]. rewrite <- C3.
    rewrite <- Hl in Hz'. destruct (user_ptr_spec m b z Hb Hz') as (_ & ? & ? & _). apply (Hpay z); [done|]. fields. lia.
Qed.

(** The word that links to the minor behind [l1]. *)
Lemma link_after_prev lo hi link l1 :
  0 < lo → fits lo hi l1 → link_after link l1 = if prev_after 0 l1 =? 0 then link else min_next (prev_after 0 l1).
Proof.
  intros Hlo. destruct l1 as [|x l1] using rev_ind; [done|]. intros Hf. rewrite link_after_app, prev_after_app. cbn [link_after prev_after].
  apply fits_app in Hf as [F1 (F2 & _)]. pose proof (last_end_le _ _ _ F1). ztest (mn_addr x =? 0) is false. done.
Qed.

(** The stores of [unlink_minor]. *)
Definition unlink_mem (m : mem) b l1 x l2 : mem :=
  let m1 := store32 (store32 m (maj_usage (mj_addr b)) (24 + used (l1 ++ l2))) (min_magic (mn_addr x)) LIBALLOC_DEAD in
  let m2 := if head_addr l2 =? 0 then m1 else store32 m1 (min_prev (head_addr l2)) (prev_after 0 l1) in
  store32 m2 (link_after (maj_first (mj_addr b)) l1) (head_addr l2).

Lemma unlink_removes m b l1 x l2 :
  block_at m b → mj_minors b = l1 ++ x :: l2 →
  removes m (unlink_mem m b l1 x l2) (mj_addr b) l1 x l2 ∧
  load32 (unlink_mem m b l1 x l2) (maj_usage (mj_addr b)) = 24 + used (l1 ++ l2).
Proof.
  intros [[Hn Ha Ht] _ _ _ _ B5 _] Hl. rewrite Hl in B5. apply fits_app in B5 as [F1 (X1 & X2 & F2)].
  pose proof (last_end_le _ _ _ F1) as Hle. pose proof (fits_le _ _ _ F2) as Hle2.
  pose proof (link_after_in _ _ (maj_first (mj_addr b)) l1 F1 ltac:(unfold maj_first; lia)) as HL.
  pose proof (prev_after_in _ _ 0 l1 F1) as HP.
  pose proof (used_fits _ _ _ F1). pose proof (used_fits _ _ _ F2). unfold mj_end in *. rewrite used_app. unfold unlink_mem, LIBALLOC_DEAD. rewrite used_app.
  assert (HL' : mj_addr b + 20 <= link_after (maj_first (mj_addr b)) l1 ∧ link_after (maj_first (mj_addr b)) l1 + 4 <= mn_addr x).
  { fields. destruct HL as [[-> E]|[C1 C2]]; [cbn in *|]; lia. }
  fields. assert (HP' : 0 <= prev_after 0 l1 < 4294967296) by (destruct HP as [[_ ->]|(? & ? & _)]; lia).
  clear HL HP. destruct l2 as [|z l2]; cbn [head_addr].
  - cbn [Z.eqb]. split; [split|].
    + ldst.
    + done.
    + cbn. intros y Y1 Y2 _ Y4. fields. rewrite !store32_out by lia. done.
    + fields. ldst.
  - destruct F2 as (Z1 & Z2 & F3). pose proof (fits_le _ _ _ F3). fields. ztest (mn_addr z =? 0) is false. split; [split|]; fields.
    + cbn [head_addr]. ldst.
    + ldst.
    + cbn. intros y Y1 Y2 Y3 Y4. fields. rewrite !store32_out by lia. done.
    + ldst.
Qed.

Lemma unlink_eval b l1 x l2 s :
  block_at (l_mem s) b → mj_minors b = l1 ++ x :: l2 →
  unlink_minor (mj_addr b) (mn_addr x) s = Done tt (set_l_mem (unlink_mem (l_mem s) b l1 x l2) (set_inuse (u64 (l_inuse s - mn_size x)) s)).
Proof.
  intros Hb Hl. pose proof Hb as [[Hn Ha Ht] B1 B2 B3 B4 B5 B6]. rewrite Hl in B3, B4, B5. pose proof (used_fits _ _ _ B5) as Hu.
  rewrite used_app in B3, Hu. cbn [used foldr] in B3, Hu. fold (used l2) in B3, Hu.
  apply chain_app in B4 as [_ B4]. pose proof B4 as [(_ & (Hprev & _ & _ & Hsize & _) & _) _].
  apply (chain_app _ _ _ _ [x] l2) in B4 as [_ Hnext%chain_head]. cbn [link_after] in Hnext.
  apply fits_app in B5 as [F1 (X1 & X2 & F2)]. pose proof (last_end_le _ _ _ F1) as Hle. pose proof (fits_le _ _ _ F2) as Hle2.
  pose proof (link_after_prev (mj_addr b + 24) _ (maj_first (mj_addr b)) l1 ltac:(lia) F1) as Hlink.
  pose proof (used_fits _ _ _ F1). pose proof (used_fits _ _ _ F2). unfold mj_end, mn_end in *.
  unfold unlink_minor. rewrite (bind_run _ _ _ _ _ (ld_run _ _)), Hsize. unfold modify at 1. cbn [bind].
  set (s1 := set_inuse _ s). rewrite (bind_run _ _ _ _ _ (ld_run _ s1)). change (l_mem s1) with (l_mem s). rewrite B3. change MINOR with 24.
  rewrite (u32_small (mn_size x + 24)), u32_small by lia.
  replace (24 + (used l1 + (24 + mn_size x + used l2)) - (mn_size x + 24)) with (24 + used (l1 ++ l2)) by (rewrite used_app; lia).
  rewrite (bind_run _ _ _ _ _ (st_run _ _ _)), (bind_run _ _ _ _ _ (st_run _ _ _)), set_l_mem_twice. cbn [l_mem set_l_mem]. change (l_mem s1) with (l_mem s).
  rewrite (bind_run _ _ _ _ _ (ld_run _ _)), (bind_run _ _ _ _ _ (ld_run _ _)). cbn [l_mem set_l_mem].
  assert (Hw : ∀ a v w, mn_addr x <= a → a + 4 <= mn_addr x + 8 →
    load32 (store32 (store32 (l_mem s) (maj_usage (mj_addr b)) v) (min_magic (mn_addr x)) w) a = load32 (l_mem s) a).
  { intros a v w A1 A2. fields. rewrite !load32_store32_ne by lia. done. }
  rewrite !Hw by (unfold min_next, min_prev; lia). rewrite Hnext, Hprev. unfold unlink_mem. rewrite Hlink.
  destruct (head_addr l2 =? 0), (prev_after 0 l1 =? 0); done.
Qed.

Lemma unlink_run b l1 x l2 s :
  block_at (l_mem s) b → mj_minors b = l1 ++ x :: l2 →
  ∃ s', unlink_minor (mj_addr b) (mn_addr x) s = Done tt s' ∧ l_memRoot s' = l_memRoot s ∧ l_bestBet s' = l_bestBet s ∧ l_src s' = l_src s ∧
    block_at (l_mem s') (set_minors (l1 ++ l2) b) ∧ unlinked (l_mem s) (l_mem s') b (l1 ++ l2).
Proof.
  intros Hb Hl. rewrite (unlink_eval b l1 x l2 s Hb Hl). destruct (unlink_removes _ _ _ _ _ Hb Hl) as [H1 H2].
  destruct (removes_block _ _ b l1 x l2 Hb Hl H1 H2) as [H3 H4]. eexists. split; [done|]. done.
Qed.

(** ** Writes to an allocation *)

Lemma minors_apart m b x z :
  block_at m b → x ∈ mj_minors b → z ∈ mj_minors b → x = z ∨ mn_end x <= mn_addr z ∨ mn_end z <= mn_addr x.
Proof.
  intros Hb (i & Hi)%list_elem_of_lookup (j & Hj)%list_elem_of_lookup. destruct (lt_eq_lt_dec i j) as [[Hij| -> ]|Hij].
  - right. left. by eapply fits_apart; [apply (bl_fits _ _ Hb)|..].
  - left. congruence.
  - right. right. by eapply fits_apart; [apply (bl_fits _ _ Hb)|..].
Qed.

(** The bytes of an allocation may change. *)
Lemma block_write m m' b x :
  block_at m b → x ∈ mj_minors b → (∀ y, ¬ user_ptr x <= y < user_ptr x + mn_req x → m' y = m y) → block_at m' b.
Proof.
  intros Hb Hx He. pose proof Hb as [[Hn Ha Ht] B1 B2 B3 B4 B5 B6]. destruct (user_ptr_spec m b x Hb Hx) as (_ & U2 & U3 & U4 & U5).
  unfold maj_pages, maj_size, maj_usage, maj_first in *. unfold mn_end, mj_end in *.
  split; unfold maj_pages, maj_size, maj_usage, maj_first; [done| | | | |done|].
  1-3: etrans; [apply load32_ext; intros y Hy; apply He; lia|eassumption].
  - eapply chain_frame; [|exact B4]. intros y [Hy|Hy]; apply He; intros Hxy.
    + destruct (pre_bytes_in _ _ (mj_addr b + 20) _ y B5 ltac:(lia) Hy) as (_ & _ & Q). specialize (Q x Hx). unfold mn_end in Q. lia.
    + eapply (link_not_bytes _ _ (mj_addr b + 20) _ x y B5); [lia|done|unfold mn_end; lia|done].
  - apply Forall_forall. intros z Hz. rewrite Forall_forall in B6. destruct (B6 z Hz) as (C1 & C2 & C3). split_and!; [done|done|]. rewrite <- C3.
    destruct (user_ptr_spec m b z Hb Hz) as (_ & V2 & V3 & V4 & V5). apply He. unfold mn_end in *.
    destruct (minors_apart m b x z Hb Hx Hz) as [->|[?|?]]; unfold mn_end in *; lia.
Qed.

(** The size requested may become smaller. *)
Definition resize (req : Z) (x : minor) : minor := Minor (mn_addr x) (mn_size x) req.

Lemma block_resize m b l1 x l2 req :
  block_at m b → mj_minors b = l1 ++ x :: l2 → 0 <= req <= mn_req x →
  block_at (store32 m (min_req (mn_addr x)) req) (set_minors (l1 ++ resize req x :: l2) b).
Proof.
  intros Hb Hl Hr. pose proof Hb as [[Hn Ha Ht] B1 B2 B3 B4 B5 B6]. rewrite Hl in B3, B4, B5, B6.
  pose proof B5 as [F1 (X1 & X2 & F2)]%fits_app. pose proof (last_end_le _ _ _ F1) as Hle. pose proof (fits_le _ _ _ F2) as Hle2. unfold mj_end, mn_end in *.
  assert (Hx : x ∈ mj_minors b) by (rewrite Hl, elem_of_app; right; left). destruct (user_ptr_spec m b x Hb Hx) as (_ & U2 & U3 & _).
  assert (Hframe : ∀ y, y < mn_addr x + 20 ∨ mn_addr x + 24 <= y → store32 m (min_req (mn_addr x)) req y = m y).
  { intros y Hy. unfold min_req. rewrite store32_out by lia. done. }
  assert (Hq : req < 4294967296) by (unfold mn_end in *; lia).
  split; cbn [mj_addr mj_pages mj_minors set_minors]; [done|..].
  1-3: unfold maj_pages, maj_size, maj_usage, min_req in *; rewrite load32_store32_ne by lia; first [done|rewrite B3, !used_app; cbn; lia].
  - apply chain_app in B4 as [P1 P2]. unfold maj_first in *. apply chain_app. split.
    { eapply pre_frame; [|exact P1]. intros y Hy. apply Hframe. destruct (pre_bytes_in _ _ (mj_addr b + 20) _ y F1 ltac:(lia) Hy) as (A1 & _). lia. }
    apply (chain_app _ _ _ _ [x]) in P2 as [(Q1 & Q2 & _) P2]. apply (chain_app _ _ _ _ [resize req x]). split; [split_and!; [..|done]|].
    + transitivity (load32 m (link_after (mj_addr b + 20) l1)); [|exact Q1]. apply load32_ext. intros y Hy. apply Hframe. destruct (link_after_in _ _ (mj_addr b + 20) l1 F1 ltac:(lia)) as [[-> E]|[A1 A2]]; cbn in *; lia.
    + destruct Q2 as (H1 & H2 & H3 & H4 & H5). unfold header, resize. fields. cbn [mn_addr mn_size mn_req]. split_and!; [..|apply load32_store32_eq; lia].
      all: rewrite load32_store32_ne by lia; done.
    + cbn [link_after prev_after resize mn_addr] in *. eapply chain_frame; [|exact P2]. intros y Hy. apply Hframe.
      destruct (chain_bytes_in _ _ (min_next (mn_addr x)) _ y F2 ltac:(unfold min_next; lia) Hy); unfold min_next in *; lia.
  - apply fits_app. split; [done|]. cbn. done.
  - apply Forall_forall. intros z Hz. rewrite Forall_forall in B6.
    assert (Hz' : z = resize req x ∨ z ∈ l1 ++ x :: l2) by (rewrite elem_of_app, elem_of_cons in *; tauto). destruct Hz' as [->|Hz'].
    + destruct (B6 x ltac:(rewrite elem_of_app; right; left)) as (C1 & C2 & C3). split_and!; cbn; [lia|lia|]. rewrite <- C3. apply Hframe.
      change (user_ptr (resize req x)) with (user_ptr x). lia.
    + destruct (B6 z Hz') as (C1 & C2 & C3). split_and!; [done|done|]. rewrite <- C3. rewrite <- Hl in Hz'. apply Hframe.
      destruct (user_ptr_spec m b z Hb Hz') as (_ & V2 & V3 & V4 & V5). unfold mn_end in *.
      destruct (minors_apart m b x z Hb Hx Hz') as [->|[?|?]]; unfold mn_end in *; lia.
Qed.
End run.
