(* ===== verification/LiballocHeap.v ===== *)
(** * The kernel heap as a whole (vm/liballoc.c)

    The doubly linked list of blocks over any page source that keeps its contract
    ([PageStore]), and the calls [kheap_malloc] and [kheap_free] as steps between
    well formed heaps ([heap_at]). *)

From Stdlib Require Import ZArith Lia.
From stdpp Require Import base numbers list list_tactics.
From S2P Require Import Prelude Mem Mmu Kalloc Vm Kheap Liballoc LiballocFacts LiballocRun.

(** ** What the heap relies on: the contract of [liballoc_alloc] and
    [liballoc_free] in vm/liballoc.h. *)

Definition range_apart (r1 r2 : Z * Z) : Prop :=
  r1.1 + 4096 * r1.2 <= r2.1 ∨ r2.1 + 4096 * r2.2 <= r1.1.

(** [ps_ok p l]: the source has handed out the page ranges [l].  An allocation
    gives nothing or a range apart from them, a release takes one back. *)
Class PageStore (P : Type) `{!PageOps P} := {
  ps_ok : P → list (Z * Z) → Prop;
  ps_perm p l l' : l ≡ₚ l' → ps_ok p l → ps_ok p l';
  ps_alloc p l n : ps_ok p l → 0 < n →
    ∃ a p', pg_alloc n p = Done a p' ∧
      (a = 0 ∧ ps_ok p' l ∨ range_ok a n ∧ Forall (range_apart (a, n)) l ∧ ps_ok p' ((a, n) :: l));
  ps_free p l a n : ps_ok p ((a, n) :: l) → ∃ r p', pg_free a n p = Done r p' ∧ ps_ok p' l
}.

(** ** The list of blocks *)

Definition range (b : major) : Z * Z := (mj_addr b, mj_pages b).
Definition apart (b1 b2 : major) : Prop := mj_end b1 <= mj_addr b2 ∨ mj_end b2 <= mj_addr b1.
Definition head_blk (l : list major) (nxt : Z) : Z := match l with [] => nxt | b :: _ => mj_addr b end.
Fixpoint last_blk (prev : Z) (l : list major) : Z := match l with [] => prev | b :: l' => last_blk (mj_addr b) l' end.

Fixpoint linked (m : mem) (prev : Z) (l : list major) (nxt : Z) : Prop :=
  match l with
  | [] => True
  | b :: l' => load32 m (maj_prev (mj_addr b)) = prev ∧ load32 m (maj_next (mj_addr b)) = head_blk l' nxt ∧
      block_at m b ∧ linked m (mj_addr b) l' nxt
  end.

Fixpoint all_apart (l : list major) : Prop :=
  match l with [] => True | b :: l' => Forall (apart b) l' ∧ all_apart l' end.

(** The live allocations, as pointer and length. *)
Definition live_in (b : major) : list (Z * Z) := (λ x, (user_ptr x, mn_req x)) <$> mj_minors b.
Definition live (l : list major) : list (Z * Z) := l ≫= live_in.
Definition filled (l : list major) : Prop := Forall (λ b, mj_minors b ≠ []) l.

Lemma linked_app m prev l1 l2 nxt :
  linked m prev (l1 ++ l2) nxt ↔ linked m prev l1 (head_blk l2 nxt) ∧ linked m (last_blk prev l1) l2 nxt.
Proof.
  revert prev. induction l1 as [|b l1 IH]; intros prev; cbn; [tauto|]. rewrite IH.
  replace (head_blk (l1 ++ l2) nxt) with (head_blk l1 (head_blk l2 nxt)); [tauto|]. by destruct l1.
Qed.

Lemma linked_elem m prev l nxt b : linked m prev l nxt → b ∈ l → block_at m b.
Proof.
  revert prev. induction l as [|c l IH]; intros prev Hl Hb; [by apply elem_of_nil in Hb|]. destruct Hl as (_ & _ & Hc & Hl).
  apply elem_of_cons in Hb as [->|Hb]; [done|]. by eapply IH.
Qed.

Lemma linked_frame m m' prev l nxt :
  (∀ b y, b ∈ l → mj_addr b <= y < mj_end b → m' y = m y) → linked m prev l nxt → linked m' prev l nxt.
Proof.
  revert prev. induction l as [|b l IH]; intros prev He Hl; [done|]. destruct Hl as (H1 & H2 & H3 & H4).
  pose proof H3 as [[Hn _ _] _ _ _ _ _ _]. assert (Hb : ∀ y, mj_addr b <= y < mj_end b → m' y = m y) by (intros y Hy; apply (He b); [left|done]).
  unfold mj_end in *. cbn. split_and!.
  - rewrite <- H1. apply load32_ext. unfold maj_prev. intros y Hy. apply Hb. lia.
  - rewrite <- H2. apply load32_ext. unfold maj_next. intros y Hy. apply Hb. lia.
  - eapply block_frame; [|done]. intros y Hy. apply Hb. unfold mj_end in *. lia.
  - apply IH; [|done]. intros c y Hc Hy. apply (He c); [by right|done].
Qed.

Lemma all_apart_app l1 l2 : all_apart (l1 ++ l2) ↔ all_apart l1 ∧ all_apart l2 ∧ Forall (λ b, Forall (apart b) l2) l1.
Proof. induction l1 as [|b l1 IH]; cbn; [rewrite Forall_nil; tauto|]. rewrite IH, Forall_app, Forall_cons. tauto. Qed.

Lemma apart_sym b c : apart b c → apart c b.
Proof. unfold apart. tauto. Qed.

(** A block in the list is apart from the blocks before and behind it. *)
Lemma all_apart_middle l1 b l2 :
  all_apart (l1 ++ b :: l2) ↔ all_apart (l1 ++ l2) ∧ ∀ c, c ∈ l1 ++ l2 → apart b c.
Proof.
  rewrite !all_apart_app. cbn [all_apart]. rewrite !Forall_forall. split.
  - intros (H1 & (H2 & H3) & H4). split_and!; [done|done| |].
    + intros c Hc. by pose proof (H4 c Hc) as [_ H]%Forall_cons.
    + intros c [Hc|Hc]%elem_of_app; [|auto]. apply apart_sym. by pose proof (H4 c Hc) as [H _]%Forall_cons.
  - intros ((H1 & H2 & H3) & H4). split_and!; [done| |done|].
    + intros c Hc. apply H4, elem_of_app. by right.
    + intros c Hc. constructor; [|auto]. apply apart_sym, H4, elem_of_app. by left.
Qed.

Lemma all_apart_elem l c d : all_apart l → c ∈ l → d ∈ l → c = d ∨ apart c d.
Proof.
  induction l as [|b l IH]; intros Ha Hc Hd; [by apply elem_of_nil in Hc|]. destruct Ha as [Hb Ha]. rewrite Forall_forall in Hb.
  apply elem_of_cons in Hc as [->|Hc]; apply elem_of_cons in Hd as [->|Hd]; auto using apart_sym.
Qed.

(** Changing the link word of the last block or of the first one. *)
Lemma relink_next m m' prev l c nxt nxt' :
  linked m prev (l ++ [c]) nxt → all_apart (l ++ [c]) → load32 m' (maj_next (mj_addr c)) = nxt' →
  (∀ d y, d ∈ l ++ [c] → mj_addr d <= y < mj_end d → ¬ maj_next (mj_addr c) <= y < maj_next (mj_addr c) + 4 → m' y = m y) →
  linked m' prev (l ++ [c]) nxt'.
Proof.
  intros (L1 & L2 & L3 & L4 & _)%linked_app [_ Hap]%all_apart_middle Hn He. pose proof L4 as [[Hp _ _] _ _ _ _ _ _]. rewrite app_nil_r in Hap. unfold maj_next in *.
  assert (Hc : ∀ y, mj_addr c <= y < mj_end c → ¬ mj_addr c + 4 <= y < mj_addr c + 4 + 4 → m' y = m y).
  { intros y. apply (He c). apply elem_of_app. right. left. }
  unfold mj_end in *. apply linked_app. split.
  - eapply linked_frame; [|exact L1]. intros d y Hd Hy. apply (He d); [apply elem_of_app; by left|done|]. destruct (Hap d Hd); unfold mj_end in *; lia.
  - cbn. split_and!; [|done| |done].
    + rewrite <- L2. apply load32_ext. unfold maj_prev. intros y Hy. apply Hc; lia.
    + eapply block_frame; [|done]. unfold mj_end. intros y Hy. apply Hc; lia.
Qed.

Lemma relink_prev m m' prev prev' c l nxt :
  linked m prev (c :: l) nxt → all_apart (c :: l) → load32 m' (maj_prev (mj_addr c)) = prev' →
  (∀ d y, d ∈ c :: l → mj_addr d <= y < mj_end d → ¬ maj_prev (mj_addr c) <= y < maj_prev (mj_addr c) + 4 → m' y = m y) →
  linked m' prev' (c :: l) nxt.
Proof.
  intros (L2 & L3 & L4 & L5) [Hap _] Hn He. pose proof L4 as [[Hp _ _] _ _ _ _ _ _]. unfold maj_prev in *. rewrite Forall_forall in Hap.
  assert (Hc : ∀ y, mj_addr c <= y < mj_end c → ¬ mj_addr c <= y < mj_addr c + 4 → m' y = m y) by (intros y; apply (He c); left).
  unfold mj_end in *. cbn. split_and!; [done|..].
  - rewrite <- L3. apply load32_ext. unfold maj_next. intros y Hy. apply Hc; lia.
  - eapply block_frame; [|done]. unfold mj_end. intros y Hy. apply Hc; lia.
  - eapply linked_frame; [|exact L5]. intros d y Hd Hy. apply (He d); [by right|done|]. destruct (Hap d Hd); unfold mj_end in *; lia.
Qed.

Lemma live_app l1 l2 : live (l1 ++ l2) = live l1 ++ live l2.
Proof. apply bind_app. Qed.

Section heap.
Context {P : Type} `{!PageOps P, !PageStore P}.
Implicit Types s : lheap P.

(** The heap consists of the blocks [l]. *)
Record heap_at s (l : list major) : Prop := {
  ha_root : l_memRoot s = head_blk l 0;
  ha_linked : linked (l_mem s) 0 l 0;
  ha_apart : all_apart l;
  ha_bet : l_bestBet s = 0 ∨ ∃ b, b ∈ l ∧ l_bestBet s = mj_addr b;
  ha_src : ps_ok (l_src s) (range <$> l)
}.

(** The bytes of the live allocations are the same in both memories. *)
Definition kept (m m' : mem) (v : list (Z * Z)) : Prop :=
  ∀ p n y, (p, n) ∈ v → p <= y < p + n → m' y = m y.

Lemma live_elem l p n : (p, n) ∈ live l ↔ ∃ b x, b ∈ l ∧ x ∈ mj_minors b ∧ p = user_ptr x ∧ n = mn_req x.
Proof.
  unfold live, live_in. rewrite list_elem_of_bind. split.
  - intros (b & H & Hb). apply list_elem_of_fmap in H as (x & [= -> ->] & Hx). eauto 10.
  - intros (b & x & Hb & Hx & -> & ->). exists b. split; [|done]. apply list_elem_of_fmap. eauto.
Qed.

(** A live allocation lies in its block, behind the header of the block. *)
Lemma live_in_block s l p n :
  heap_at s l → (p, n) ∈ live l →
  ∃ b x, b ∈ l ∧ x ∈ mj_minors b ∧ p = user_ptr x ∧ n = mn_req x ∧ block_at (l_mem s) b ∧
    mj_addr b + 24 <= mn_addr x ∧ mn_end x <= mj_end b ∧ mn_addr x + 40 <= p ∧ p + n < mn_end x ∧ p mod 16 = 0.
Proof.
  intros Ha (b & x & Hb & Hx & -> & ->)%live_elem. exists b, x. pose proof (linked_elem _ _ _ _ b (ha_linked _ _ Ha) Hb) as Hat.
  destruct (user_ptr_spec _ _ _ Hat Hx) as (H1 & H2 & H3 & H4 & H5). split_and!; auto; lia.
Qed.

Lemma kept_blocks s l m' :
  heap_at s l → (∀ b y, b ∈ l → mj_addr b + 24 <= y < mj_end b → m' y = l_mem s y) → kept (l_mem s) m' (live l).
Proof.
  intros Ha He p n y Hp Hy. destruct (live_in_block _ _ _ _ Ha Hp) as (b & x & Hb & _ & _ & _ & _ & H1 & H2 & H3 & H4 & _).
  apply (He b); [done|lia].
Qed.

(** A change of block [b] behind its links that keeps the payload of its
    allocations changes the list of blocks at that place only. *)
Lemma replace_block s l1 b b' l2 m' :
  heap_at s (l1 ++ b :: l2) → block_at m' b' → range b' = range b →
  (∀ y, y < mj_addr b + 8 ∨ mj_end b <= y → m' y = l_mem s y) →
  heap_at (set_l_mem m' s) (l1 ++ b' :: l2).
Proof.
  intros [H1 H2 H3 H4 H5] Hb' Hr Hout. unfold range in Hr. injection Hr as Ea Ep. apply all_apart_middle in H3 as [A1 A2].
  apply linked_app in H2 as [L1 (L2 & L3 & L4 & L5)]. pose proof L4 as [[Hn _ _] _ _ _ _ _ _].
  assert (Hfr : ∀ c y, c ∈ l1 ++ l2 → mj_addr c <= y < mj_end c → m' y = l_mem s y).
  { intros c y Hc Hy. apply Hout. destruct (A2 c Hc); lia. }
  split; cbn [l_memRoot set_l_mem l_mem l_bestBet l_src].
  - rewrite H1. destruct l1; [done|done].
  - apply linked_app. cbn [linked head_blk]. rewrite Ea. split_and!; [|..|done|].
    + eapply linked_frame; [|exact L1]. intros c y Hc. apply Hfr, elem_of_app. by left.
    + rewrite <- L2. apply load32_ext. unfold maj_prev. intros y Hy. apply Hout. lia.
    + rewrite <- L3. apply load32_ext. unfold maj_next. intros y Hy. apply Hout. lia.
    + eapply linked_frame; [|exact L5]. intros c y Hc. apply Hfr, elem_of_app. by right.
  - apply all_apart_middle. split; [done|]. intros c Hc. specialize (A2 c Hc). unfold apart, mj_end in *. by rewrite Ea, Ep.
  - destruct H4 as [H4|(c & Hc & H4)]; [by left|right]. apply elem_of_app in Hc as [Hc|[->|Hc]%elem_of_cons].
    + exists c. split; [apply elem_of_app; by left|done].
    + exists b'. split; [apply elem_of_app; right; by left|by rewrite Ea].
    + exists c. split; [apply elem_of_app; right; by right|done].
  - rewrite fmap_app, fmap_cons in *. by replace (range b') with (range b) by (unfold range; by rewrite Ea, Ep).
Qed.

(** Placing an allocation in a block of the heap. *)
Lemma place_heap s l1 b l2 size req p s' :
  heap_at s (l1 ++ b :: l2) → placement b size req s p s' →
  ∃ b', heap_at s' (l1 ++ b' :: l2) ∧ p ≠ 0 ∧ mj_minors b' ≠ [] ∧ live (l1 ++ b' :: l2) ≡ₚ (p, req) :: live (l1 ++ b :: l2) ∧
    kept (l_mem s) (l_mem s') (live (l1 ++ b :: l2)).
Proof.
  intros Ha (k1 & x & k2 & m' & Hk & <- & <- & -> & -> & Hb' & Hout & Hpay). exists (set_minors (k1 ++ x :: k2) b).
  pose proof (replace_block s l1 b _ l2 m' Ha Hb' eq_refl Hout) as [G1 G2 G3 G4 G5].
  pose proof (bl_range _ _ Hb') as [? ? ?]. cbn in *.
  destruct (user_ptr_spec _ _ x Hb' ltac:(apply elem_of_app; right; left)) as (_ & U2 & _ & U4 & _). cbn in U4. split_and!; [by split|lia|by destruct k1| |].
  - rewrite !live_app. unfold live. cbn. unfold live_in at 2 4. cbn. rewrite Hk, !fmap_app, fmap_cons. solve_Permutation.
  - intros q n y Hq Hy. destruct (live_in_block _ _ _ _ Ha Hq) as (c & z & Hc & Hz & -> & -> & Hat & Z1 & Z2 & Z3 & Z4 & _). cbn.
    apply elem_of_app in Hc as [Hc|[->|Hc]%elem_of_cons]; [|apply (Hpay z); [done|lia]|].
    all: apply Hout; pose proof (ha_apart _ _ Ha) as [_ A]%all_apart_middle; destruct (A c ltac:(apply elem_of_app; auto)); lia.
Qed.

(** ** New blocks *)

Definition new_block (m m' : mem) (R : list (Z * Z)) size b : Prop :=
  mj_minors b = [] ∧ 24 + size + 24 <= 4096 * mj_pages b ∧ block_at m' b ∧
  load32 m' (maj_prev (mj_addr b)) = 0 ∧ load32 m' (maj_next (mj_addr b)) = 0 ∧
  Forall (range_apart (range b)) R ∧ ∀ y, y < mj_addr b ∨ mj_addr b + 24 <= y → m' y = m y.

Lemma new_page_run size s R :
  ps_ok (l_src s) R → 0 <= size → size + 48 < 4294967296 →
  ∃ a s', allocate_new_page size s = Done a s' ∧ l_memRoot s' = l_memRoot s ∧ l_bestBet s' = l_bestBet s ∧
    (a = 0 ∧ l_mem s' = l_mem s ∧ ps_ok (l_src s') R ∨
     ∃ b, a = mj_addr b ∧ new_block (l_mem s) (l_mem s') R size b ∧ ps_ok (l_src s') (range b :: R)).
Proof.
  intros Hok Hs1 Hs2. unfold allocate_new_page. change MAJOR with 24. change MINOR with 24. unfold l_pageSize, l_pageCount.
  rewrite (u32_small (size + 24)), u32_small by lia. set (n0 := if _ =? 0 then _ else _). set (n := if n0 <? 16 then 16 else n0).
  assert (Hn0 : size + 48 <= 4096 * n0) by (unfold n0; case_if; Z.to_euclidean_division_equations; zlia).
  assert (Hn : 16 <= n ∧ size + 48 <= 4096 * n) by (unfold n; case_if; zlia).
  destruct (ps_alloc (l_src s) R n Hok ltac:(lia)) as (a & p' & Ra & Hcase).
  assert (R1 : on_src (pg_alloc n) s = Done a (set_l_src p' s)) by (unfold on_src, lift; by rewrite Ra).
  rewrite (bind_run _ _ _ _ _ R1). destruct Hcase as [[-> Hp]|([Hr1 Hr2 Hr3] & Hap & Hp)].
  - eexists 0, _. split; [done|]. split_and!; [done|done|]. left. done.
  - ztest (a =? 0) is false. rewrite (Z.mul_comm n), u32_small by lia. clearbody n. unfold st. mrun. eexists a, _. split; [done|]. split_and!; [done|done|right].
    exists (Major a n []). cbn. split_and!; [done| |done]. unfold new_block, maj_prev, maj_next, maj_pages, maj_size, maj_usage, maj_first; cbn.
    assert (Hdone : 24 < 4294967296) by lia. repeat (split; [first [done|lia]|]). split_and!; [|..|done|].
    + split; cbn; unfold maj_prev, maj_next, maj_pages, maj_size, maj_usage, maj_first; [done|ldst|ldst|ldst| |unfold mj_end; cbn; lia|constructor].
      split; [done|]. cbn. ldst.
    + ldst.
    + ldst.
    + intros y Hy. rewrite !store32_out by lia. done.
Qed.

Lemma new_block_apart l m m' size b c :
  new_block m m' (range <$> l) size b → c ∈ l → apart b c.
Proof.
  intros (_ & _ & _ & _ & _ & Hf & _) Hc. rewrite Forall_forall in Hf. apply (Hf (range c)). by apply list_elem_of_fmap_2.
Qed.

(** A byte behind the header of a block is in no header. *)
Lemma after_header s l c d y :
  heap_at s l → c ∈ l → d ∈ l → mj_addr d + 24 <= y < mj_end d → y < mj_addr c ∨ mj_addr c + 24 <= y.
Proof.
  intros [_ H2 H3 _ _] Hc Hd Hy. destruct (all_apart_elem _ _ _ H3 Hc Hd) as [->|Hap]; [lia|].
  pose proof (linked_elem _ _ _ _ c H2 Hc) as [[? ? ?] _ _ _ _ _ _]. unfold apart, mj_end in *. lia.
Qed.

(** A new block behind the last one. *)
Lemma append_run l c size s :
  heap_at s (l ++ [c]) → 0 <= size → size + 48 < 4294967296 →
  ∃ a s', append_block (mj_addr c) size s = Done a s' ∧
    (a = 0 ∧ heap_at s' (l ++ [c]) ∧ kept (l_mem s) (l_mem s') (live (l ++ [c])) ∨
     ∃ b, a = mj_addr b ∧ mj_minors b = [] ∧ 24 + size + 24 <= 4096 * mj_pages b ∧ heap_at s' ((l ++ [c]) ++ [b]) ∧
       kept (l_mem s) (l_mem s') (live (l ++ [c]))).
Proof.
  intros Ha Hs1 Hs2. pose proof Ha as [H1 H2 H3 H4 H5].
  destruct (new_page_run size s _ H5 Hs1 Hs2) as (a & s1 & R1 & Er & Eb & Hcase).
  unfold append_block. rewrite (bind_run _ _ _ _ _ R1). rewrite (bind_run _ _ _ _ _ (st_run (maj_next (mj_addr c)) a s1)).
  pose proof (linked_elem _ _ _ _ c H2 ltac:(apply elem_of_app; right; left)) as [[Hc1 Hc2 Hc3] _ _ _ _ _ _].
  destruct Hcase as [(-> & Em & Hps)|(b & -> & Hnew & Hps)].
  - cbn. eexists 0, _. split; [done|]. left. split_and!; [done|split; cbn; try done; [by rewrite Er| |by rewrite Eb]|].
    + apply (relink_next (l_mem s) _ _ _ _ 0); [done|done| |].
      * by apply load32_store32_eq.
      * intros d y _ _ Hy. rewrite store32_out, Em by lia. done.
    + apply (kept_blocks s); [done|]. intros d y Hd Hy. cbn. 
      pose proof (after_header s _ c d y Ha ltac:(apply elem_of_app; right; left) Hd Hy). unfold maj_next. rewrite store32_out, Em by lia. done.
  - assert (Hapb : ∀ d, d ∈ l ++ [c] → apart b d) by (intros d; by apply (new_block_apart _ _ _ _ _ _ Hnew)).
    pose proof Hnew as (N1 & N2 & N3 & N4 & N5 & _ & N7). pose proof N3 as [[Hb1 Hb2 Hb3] _ _ _ _ _ _].
    assert (Hpos : ∀ d y, d ∈ l ++ [c] → mj_addr d <= y < mj_end d → y < mj_addr b ∨ mj_end b <= y).
    { intros d y Hd Hy. destruct (Hapb d Hd); lia. }
    assert (Hend : mj_addr b + 24 <= mj_end b ∧ mj_addr c + 24 <= mj_end c) by (unfold mj_end; lia).
    pose proof (Hpos c (mj_addr c) ltac:(apply elem_of_app; right; left) ltac:(lia)) as Hcb1.
    pose proof (Hapb c ltac:(apply elem_of_app; right; left)) as Hcb.
    ztest (mj_addr b =? 0) is false. cbn. eexists _, _. split; [done|right]. exists b. split_and!; [done|done|done| |].
    + split; cbn; unfold maj_prev, maj_next.
      * rewrite Er, H1. by destruct l.
      * apply linked_app. split.
        -- apply (relink_next (l_mem s) _ _ _ _ 0); [done|done| |].
           ++ unfold maj_next. rewrite load32_store32_ne by (destruct Hcb; lia). apply load32_store32_eq. cbn. lia.
           ++ unfold maj_next. intros d y Hd Hy Hne. specialize (Hpos d y Hd Hy). rewrite !store32_out, N7 by lia. done.
        -- replace (last_blk 0 (l ++ [c])) with (mj_addr c) by (clear; generalize 0; induction l as [|d l IH]; intros; [done|apply IH]).
           apply (relink_prev (l_mem s1) _ 0); [done|done| |].
           ++ unfold maj_prev. apply load32_store32_eq. lia.
           ++ unfold maj_prev. intros d y ->%list_elem_of_singleton Hy Hne. rewrite !store32_out by (destruct Hcb; lia). done.
      * apply all_apart_middle. by rewrite app_nil_r.
      * rewrite Eb. destruct H4 as [|(d & Hd & ?)]; [by left|right]. exists d. split; [apply elem_of_app; by left|done].
      * rewrite fmap_app. eapply ps_perm; [|exact Hps]. cbn. apply Permutation_cons_append.
    + apply (kept_blocks s); [done|]. intros d y Hd Hy. pose proof (after_header s _ c d y Ha ltac:(apply elem_of_app; right; left) Hd Hy).
      specialize (Hpos d y Hd ltac:(lia)). cbn. unfold maj_prev, maj_next in *. rewrite !store32_out, N7 by lia. done.
Qed.

(** ** Allocation *)

Lemma set_bet_heap s l b : heap_at s l → b ∈ l → heap_at (set_bestBet (mj_addr b) s) l.
Proof. intros [H1 H2 H3 H4 H5] Hb. split; try done. right. by exists b. Qed.

(** The allocation of [req] bytes in the heap [l] gave [r]. *)
Definition allocated s l req (r : Z) s' : Prop :=
  ∃ l', heap_at s' l' ∧ filled l' ∧ kept (l_mem s) (l_mem s') (live l) ∧
    (r = 0 ∧ l' = l ∨ r ≠ 0 ∧ live l' ≡ₚ (r, req) :: live l).

Lemma kept_bytes_trans m1 m2 m3 v : kept m1 m2 v → kept m2 m3 v → kept m1 m3 v.
Proof. intros H1 H2 p n y Hp Hy. rewrite (H2 p n) by done. by apply (H1 p n). Qed.

(** The head of the loop, at block [b]. *)
Definition room (b : major) : Z := 4096 * mj_pages b - (24 + used (mj_minors b)).
Lemma malloc_step fuel mfuel size req l1 b l2 sb best s :
  heap_at s (l1 ++ b :: l2) → 0 <= size → size + 48 < 4294967296 →
  ∃ best' s1, l_mem s1 = l_mem s ∧ heap_at s1 (l1 ++ b :: l2) ∧
    malloc_loop (S fuel) mfuel size req (mj_addr b) sb best s =
      (if room b <? size + 24 then
         if negb (head_blk l2 0 =? 0) then malloc_loop fuel mfuel size req (head_blk l2 0) sb best'
         else if sb then malloc_loop fuel mfuel size req (head_blk (l1 ++ b :: l2) 0) false best'
         else n <- append_block (mj_addr b) size ;;
           if n =? 0 then ret 0
           else r <- place mfuel n size req ;;
             match r with Some p => ret p | None => after_block fuel mfuel size req n sb best' end
       else r <- place mfuel (mj_addr b) size req ;;
         match r with Some p => ret p | None => after_block fuel mfuel size req (mj_addr b) sb best' end) s1.
Proof.
  intros Ha Hs1 Hs2. pose proof Ha as [H1 H2 _ _ _]. apply linked_app in H2 as [_ (_ & L3 & L4 & _)].
  pose proof L4 as [[Hn Hp Ht] _ B2 B3 _ B5 _]. pose proof (used_fits _ _ _ B5) as Hu. unfold mj_end in Hu.
  cbn [malloc_loop]. ztest (mj_addr b =? 0) is false.
  rewrite (bind_run _ _ _ _ _ (ld_run (maj_size (mj_addr b)) s)), B2.
  rewrite (bind_run _ _ _ _ _ (ld_run (maj_usage (mj_addr b)) s)), B3. change MINOR with 24.
  rewrite (u32_small (_ - _)), (u32_small (size + 24)) by lia. fold (room b).
  destruct (best <? room b).
  - exists (room b), (set_bestBet (mj_addr b) s). split_and!; [done|apply set_bet_heap; [done|apply elem_of_app; right; left]|].
    rewrite (bind_run _ _ s (room b) (set_bestBet (mj_addr b) s)) by done.
    rewrite (bind_run _ _ _ _ _ (ld_run _ _)). cbn [l_mem set_bestBet]. rewrite L3.
    rewrite (bind_run _ _ (set_bestBet (mj_addr b) s) (head_blk (l1 ++ b :: l2) 0) (set_bestBet (mj_addr b) s)) by (unfold gets; cbn [l_memRoot set_bestBet]; by rewrite H1). done.
  - exists best, s. split_and!; [done|done|]. rewrite (bind_run _ _ s best s) by done.
    rewrite (bind_run _ _ _ _ _ (ld_run _ _)), L3. rewrite (bind_run _ _ s (head_blk (l1 ++ b :: l2) 0) s) by (unfold gets; cbn [l_memRoot set_bestBet]; by rewrite H1). done.
Qed.

(** A new block has room: the allocation is placed there at once. *)
Lemma place_fresh mfuel size req l b s :
  heap_at s (l ++ [b]) → filled l → mj_minors b = [] → 24 + size + 24 <= 4096 * mj_pages b → 0 <= req → req + 32 <= size →
  ∃ p s', place mfuel (mj_addr b) size req s = Done (Some p) s' ∧ p ≠ 0 ∧ allocated s l req p s'.
Proof.
  intros Ha Hf Hb Hroom Hr Hs. pose proof (linked_elem _ _ _ _ b (ha_linked _ _ Ha) ltac:(apply elem_of_app; right; left)) as Hat.
  destruct (place_run b size req s mfuel) as (r & s' & R & Hse & Hsome); [done|done|done|rewrite Hb; cbn; lia|rewrite Hb; cbn; lia|].
  destruct (Hsome Hb) as [p ->]. destruct (place_heap s l b [] size req p s' Ha Hse) as (b' & G1 & G2 & G3 & G4 & G5).
  assert (E : live (l ++ [b]) = live l) by (rewrite live_app; unfold live at 2; cbn; unfold live_in; rewrite Hb; cbn; by rewrite app_nil_r).
  rewrite E in G4, G5. exists p, s'. split_and!; [done|done|]. exists (l ++ [b']). split_and!; [done| |done|by right].
  apply Forall_app. split; [done|by constructor].
Qed.

Lemma malloc_fresh fuel mfuel size req l b sb best s :
  heap_at s (l ++ [b]) → filled l → mj_minors b = [] → 24 + size + 24 <= 4096 * mj_pages b → 0 <= req → req + 32 <= size →
  size + 48 < 4294967296 →
  ∃ p s', malloc_loop (S fuel) mfuel size req (mj_addr b) sb best s = Done p s' ∧ p ≠ 0 ∧ allocated s l req p s'.
Proof.
  intros Ha Hf Hb Hroom Hr Hs Hsz. destruct (malloc_step fuel mfuel size req l b [] sb best s) as (best' & s1 & Em & Ha1 & ->); [done|lia|done|].
  unfold room. rewrite Hb. cbn [used foldr]. ztest (4096 * mj_pages b - (24 + 0) <? size + 24) is false.
  destruct (place_fresh mfuel size req l b s1) as (p & s' & R & Hp & Hal); [done..|]. rewrite (bind_run _ _ _ _ _ R).
  exists p, s'. split_and!; [done|done|]. unfold allocated in *. by rewrite <- Em.
Qed.

Lemma allocated_after s s1 l req r s' :
  kept (l_mem s) (l_mem s1) (live l) → allocated s1 l req r s' → allocated s l req r s'.
Proof. intros Hk (l' & H1 & H2 & H3 & H4). exists l'. split_and!; [done|done|by eapply kept_bytes_trans|done]. Qed.

Lemma kept_refl m v : kept m m v.
Proof. done. Qed.

(** CASE 1 and CASE 5 at the last block: a new block is appended. *)
Lemma append_place {A} (k : Z → M (lheap P) A) (Q : A → lheap P → Prop) size l c s req :
  heap_at s (l ++ [c]) → filled (l ++ [c]) → 0 <= size → size + 48 < 4294967296 →
  (∀ s1, allocated s (l ++ [c]) req 0 s1 → ∃ r s', k 0 s1 = Done r s' ∧ Q r s') →
  (∀ b s1, heap_at s1 ((l ++ [c]) ++ [b]) → mj_minors b = [] → 24 + size + 24 <= 4096 * mj_pages b → 0 < mj_addr b →
    kept (l_mem s) (l_mem s1) (live (l ++ [c])) → ∃ r s', k (mj_addr b) s1 = Done r s' ∧ Q r s') →
  ∃ r s', (n <- append_block (mj_addr c) size ;; k n) s = Done r s' ∧ Q r s'.
Proof.
  intros Ha Hf Hs1 Hs2 H0 H1. destruct (append_run l c size s Ha Hs1 Hs2) as (a & s1 & R & Hcase).
  rewrite (bind_run _ _ _ _ _ R). destruct Hcase as [(-> & G1 & G2)|(b & -> & G1 & G2 & G3 & G4)].
  - apply H0. exists (l ++ [c]). split_and!; auto.
  - apply H1; [done..| |done]. pose proof (linked_elem _ _ _ _ b (ha_linked _ _ G3) ltac:(apply elem_of_app; right; left)) as [[? ? ?] _ _ _ _ _ _]. done.
Qed.

(** The loop returns, with an allocation or with 0 and the heap as it was.  Each
    block takes at most two calls, and from the best bet there are two passes. *)
Lemma malloc_loop_run mfuel size req fuel : ∀ l1 b l2 (sb : bool) best s,
  heap_at s (l1 ++ b :: l2) → filled (l1 ++ b :: l2) → Forall (λ c, length (mj_minors c) <= mfuel)%nat (l1 ++ b :: l2) →
  0 <= req → req + 32 <= size → size + 48 < 4294967296 →
  (2 * length (b :: l2) + (if sb then 2 * length (l1 ++ b :: l2) else 0) + 2 <= fuel)%nat →
  ∃ r s', malloc_loop fuel mfuel size req (mj_addr b) sb best s = Done r s' ∧ allocated s (l1 ++ b :: l2) req r s'.
Proof.
  induction fuel as [fuel IH] using lt_wf_ind. intros l1 b l2 sb best s Ha Hf Hm Hr Hs Hsz Hfu. cbn [length] in Hfu.
  destruct fuel as [|[|fuel]]; [lia|lia|].
  destruct (malloc_step (S fuel) mfuel size req l1 b l2 sb best s) as (best' & s1 & Em & Ha1 & ->); [done|lia|done|].
  assert (Hal : ∀ r s', allocated s1 (l1 ++ b :: l2) req r s' → allocated s (l1 ++ b :: l2) req r s').
  { intros r s'. apply allocated_after. rewrite Em. apply kept_refl. }
  pose proof (ha_linked _ _ Ha1) as [_ (_ & Lnext & Hat & L5)]%linked_app.
  (* the next block, or the root again *)
  assert (Hnext : ∀ c l3 fuel' bst, l2 = c :: l3 → (fuel <= fuel' <= S fuel)%nat →
    ∃ r s', malloc_loop fuel' mfuel size req (mj_addr c) sb bst s1 = Done r s' ∧ allocated s (l1 ++ b :: l2) req r s').
  { intros c l3 fuel' bst -> Hf'. replace (l1 ++ b :: c :: l3) with ((l1 ++ [b]) ++ c :: l3) in * by (by rewrite <- app_assoc).
    destruct (IH fuel' ltac:(lia) (l1 ++ [b]) c l3 sb bst s1) as (r & s' & R & G); try done; [cbn [length] in *; lia|]. eauto. }
  assert (Hroot : ∀ fuel' bst, sb = true → (fuel <= fuel' <= S fuel)%nat →
    ∃ r s', malloc_loop fuel' mfuel size req (head_blk (l1 ++ b :: l2) 0) false bst s1 = Done r s' ∧ allocated s (l1 ++ b :: l2) req r s').
  { intros fuel' bst -> Hf'. destruct (l1 ++ b :: l2) as [|c l3] eqn:El; [by destruct l1|].
    destruct (IH fuel' ltac:(lia) [] c l3 false bst s1) as (r & s' & R & G); try done; [cbn [length app] in *; lia|]. eauto. }
  assert (Hsearch : ∀ r s', searched b size req s1 (Some r) s' → allocated s (l1 ++ b :: l2) req r s').
  { intros r s' Hse. destruct (place_heap s1 l1 b l2 size req r s' Ha1 Hse) as (b' & G1 & G2 & G3 & G4 & G5). apply Hal.
    exists (l1 ++ b' :: l2). split_and!; [done| |done|by right]. unfold filled in *. rewrite Forall_app, Forall_cons in *. tauto. }
  destruct (Z.ltb_spec (room b) (size + 24)) as [Hroom|Hroom].
  - destruct l2 as [|c l2]; cbn [head_blk].
    + cbn [Z.eqb negb]. destruct sb; [apply Hroot; [done|lia]|].
      apply (append_place (λ n, if n =? 0 then ret 0 else _) _ size l1 b s1 req); [done|done|lia|done| |].
      * intros s2 G. eexists 0, s2. split; [done|]. by apply Hal.
      * intros n s2 G1 G2 G3 G4 G5. ztest (mj_addr n =? 0) is false.
        destruct (place_fresh mfuel size req _ n s2 G1 Hf G2 G3 Hr Hs) as (p & s' & R & _ & G). rewrite (bind_run _ _ _ _ _ R).
        exists p, s'. split; [done|]. apply Hal. by eapply allocated_after.
    + pose proof (linked_elem _ _ _ _ c L5 ltac:(left)) as [[? ? ?] _ _ _ _ _ _]. ztest (mj_addr c =? 0) is false. cbn [negb]. apply (Hnext c l2); [done|lia].
  - pose proof (bl_range _ _ Hat) as [? ? ?]. unfold room in Hroom. rewrite Forall_app, Forall_cons in Hm.
    destruct (place_run b size req s1 mfuel) as (r & s' & R & Hse & _); [done|done|done|lia|tauto|]. rewrite (bind_run _ _ _ _ _ R).
    destruct r as [p|]; [exists p, s'; split; [done|by apply Hsearch]|]. cbn in Hse. subst s'. cbn [after_block].
    rewrite (bind_run _ _ _ _ _ (ld_run _ _)), Lnext. destruct l2 as [|c l2]; cbn [head_blk].
    + cbn [Z.eqb]. destruct sb.
      * rewrite (bind_run _ _ s1 (head_blk (l1 ++ [b]) 0) s1) by (unfold gets; by rewrite (ha_root _ _ Ha1)). apply Hroot; [done|lia].
      * apply (append_place (λ n, if n =? 0 then ret 0 else _) _ size l1 b s1 req); [done|done|lia|done| |].
        -- intros s2 G. eexists 0, s2. split; [done|]. by apply Hal.
        -- intros n s2 G1 G2 G3 G4 G5. ztest (mj_addr n =? 0) is false. destruct fuel as [|fuel]; [cbn in Hfu; lia|].
           destruct (malloc_fresh fuel mfuel size req _ n false best' s2 G1 Hf G2 G3 Hr Hs Hsz) as (p & s' & R' & _ & G).
           exists p, s'. split; [done|]. apply Hal. by eapply allocated_after.
    + pose proof (linked_elem _ _ _ _ c L5 ltac:(left)) as [[? ? ?] _ _ _ _ _ _]. ztest (mj_addr c =? 0) is false. apply (Hnext c l2); [done|lia].
Qed.

(** The first block. *)
Lemma root_run size s :
  heap_at s [] → 0 <= size → size + 48 < 4294967296 →
  ∃ n s', allocate_new_page size s = Done n s' ∧
    (n = 0 ∧ heap_at (set_memRoot n s') [] ∨
     ∃ b, n = mj_addr b ∧ heap_at (set_memRoot n s') [b] ∧ mj_minors b = [] ∧ 24 + size + 24 <= 4096 * mj_pages b).
Proof.
  intros [H1 H2 H3 H4 H5] Hs1 Hs2. destruct (new_page_run size s _ H5 Hs1 Hs2) as (n & s' & R & Er & Eb & Hcase).
  assert (Hbet : l_bestBet s' = 0) by (rewrite Eb; by destruct H4 as [|(? & []%elem_of_nil & _)]).
  exists n, s'. split; [done|]. destruct Hcase as [(-> & Em & Hps)|(b & -> & (N1 & N2 & N3 & N4 & N5 & _) & Hps)]; [left|right; exists b].
  - split; [done|]. split; try done. by left.
  - split_and!; try done. split; cbn; [done|done| |by left|done]. split; [constructor|done].
Qed.

Lemma start_run size l s :
  heap_at s l → l ≠ [] → 0 <= size → size + 48 < 4294967296 →
  ∃ l1 b l2 (sb : bool) best, l = l1 ++ b :: l2 ∧ start_block size s = Done (mj_addr b, sb, best) s.
Proof.
  intros Ha Hl Hs1 Hs2. destruct Ha as [H1 H2 _ H4 _]. destruct l as [|c l]; [done|]. unfold start_block.
  rewrite (bind_run _ _ s (mj_addr c) s) by (unfold gets; by rewrite H1).
  rewrite (bind_run _ _ s (l_bestBet s) s) by done. destruct H4 as [->|(b & Hb & ->)].
  { by exists [], c, l, false, 0. }
  pose proof (linked_elem _ _ _ _ b H2 Hb) as [[? ? ?] _ _ _ _ _ _]. ztest (mj_addr b =? 0) is false.
  rewrite (bind_run _ _ _ _ _ (ld_run _ _)), (bind_run _ _ _ _ _ (ld_run _ _)). cbv zeta. destruct (_ >? _).
  - apply list_elem_of_split in Hb as (l1 & l2 & ->). by eexists l1, b, l2, true, _.
  - by eexists [], c, l, false, _.
Qed.

(** [kheap_malloc] returns, for every request that does not overflow the
    additions made to it. *)
Lemma malloc_run fuel mfuel req l s :
  heap_at s l → filled l → Forall (λ c, length (mj_minors c) <= mfuel)%nat l → (4 * length l + 2 <= fuel)%nat →
  0 <= req → req + 80 < 4294967296 →
  ∃ r s', kheap_malloc fuel mfuel req s = Done r s' ∧ allocated s l req r s'.
Proof.
  intros Ha Hf Hm Hfu Hr Hsz. unfold kheap_malloc, ALIGNMENT, ALIGN_INFO. change (16 + 16) with 32. rewrite u32_small by lia.
  cbv zeta. ztest (req + 32 =? 0) is false. unfold malloc_sized. pose proof (ha_root _ _ Ha) as Hroot.
  rewrite (bind_run _ _ s (head_blk l 0) s) by (unfold gets; by rewrite Hroot).
  destruct l as [|c l]; cbn [head_blk].
  - cbn [Z.eqb]. destruct (root_run (req + 32) s Ha) as (n & s1 & R & Hcase); [lia|lia|].
    rewrite (bind_run _ _ s n (set_memRoot n s1)) by (by rewrite (bind_run _ _ _ _ _ R)).
    destruct Hcase as [[-> G]|(b & -> & G1 & G2 & G3)].
    + eexists 0, _. split; [done|]. exists []. split_and!; [done|done|by intros ? ? ? ?%elem_of_nil|by left].
    + pose proof (linked_elem _ _ _ _ b (ha_linked _ _ G1) ltac:(left)) as [[? ? ?] _ _ _ _ _ _]. ztest (mj_addr b =? 0) is false.
      destruct (start_run (req + 32) [b] _ G1) as (l1 & b' & l2 & sb & best & E & R2); [done|lia|lia|].
      assert (b' = b) as -> by (destruct l1 as [|? [|]]; by injection E). rewrite (bind_run _ _ _ _ _ R2). destruct fuel as [|fuel]; [lia|].
      destruct (malloc_fresh fuel mfuel (req + 32) req [] b sb best _ G1 Hf G2 G3) as (p & s' & R3 & _ & G); [lia..|].
      exists p, s'. split; [done|]. eapply allocated_after; [|exact G]. by intros ? ? ? ?%elem_of_nil.
  - pose proof (linked_elem _ _ _ _ c (ha_linked _ _ Ha) ltac:(left)) as [[? ? ?] _ _ _ _ _ _]. ztest (mj_addr c =? 0) is false.
    rewrite (bind_run _ _ s (mj_addr c) s) by done. ztest (mj_addr c =? 0) is false.
    destruct (start_run (req + 32) (c :: l) s Ha) as (l1 & b & l2 & sb & best & E & R); [done|lia|lia|]. rewrite (bind_run _ _ _ _ _ R).
    rewrite E in *. apply malloc_loop_run; [done|done|done|lia|lia|lia|]. rewrite length_app in *. cbn [length] in *. destruct sb; lia.
Qed.

(** ** Release *)

Lemma last_blk_snoc prev l c : last_blk prev (l ++ [c]) = mj_addr c.
Proof. revert prev. induction l as [|d l IH]; intros prev; [done|apply IH]. Qed.

(** The stores of [release_block]. *)
Definition bypass (m : mem) (prev next : Z) : mem :=
  let m1 := if prev =? 0 then m else store32 m (maj_next prev) next in
  if next =? 0 then m1 else store32 m1 (maj_prev next) prev.

Lemma bypass_out m prev next y :
  (y < prev ∨ prev + 8 <= y) → (y < next ∨ next + 8 <= y) → bypass m prev next y = m y.
Proof.
  intros H1 H2. unfold bypass, maj_next, maj_prev. destruct (next =? 0), (prev =? 0); rewrite ?store32_out by lia; done.
Qed.

Lemma bypass_linked m l1 b l2 :
  linked m 0 (l1 ++ b :: l2) 0 → all_apart (l1 ++ b :: l2) →
  linked (bypass m (last_blk 0 l1) (head_blk l2 0)) 0 (l1 ++ l2) 0.
Proof.
  intros Hl Hap. apply all_apart_middle in Hap as [Hap _]. pose proof Hl as [L1 (_ & _ & _ & L2)]%linked_app.
  assert (Hpos : ∀ c, c ∈ l1 ++ l2 → range_ok (mj_addr c) (mj_pages c)).
  { intros c Hc. apply (bl_range m). eapply linked_elem; [exact Hl|]. rewrite elem_of_app, elem_of_cons in *. tauto. }
  pose proof Hap as (A1 & A2 & A3)%all_apart_app. rewrite Forall_forall in A3. apply linked_app.
  destruct l1 as [|c l1 _] using rev_ind; [|rewrite last_blk_snoc in *]; split.
  - done.
  - destruct l2 as [|d l2]; [done|]. destruct (Hpos d ltac:(left)) as [D1 D2 D3].
    cbn [last_blk head_blk] in *. unfold bypass. cbn [Z.eqb]. ztest (mj_addr d =? 0) is false.
    apply (relink_prev m _ (mj_addr b)); [done|done|by apply load32_store32_eq|]. intros e y _ _ Hy. by rewrite store32_out by lia.
  - destruct (Hpos c ltac:(rewrite !elem_of_app; left; right; left)) as [C1 C2 C3]. specialize (A3 c ltac:(apply elem_of_app; right; left)). rewrite Forall_forall in A3.
    assert (Hc24 : mj_addr c + 24 <= mj_end c) by (unfold mj_end; lia).
    apply (relink_next m _ 0 l1 c (mj_addr b)); [done|done|..]; unfold bypass; ztest (mj_addr c =? 0) is false;
      (destruct l2 as [|d l2]; cbn [head_blk];
       [cbn [Z.eqb]|destruct (Hpos d ltac:(rewrite elem_of_app; right; left)) as [D1 D2 D3]; ztest (mj_addr d =? 0) is false]); unfold maj_next, maj_prev.
    + by apply load32_store32_eq.
    + destruct (A3 d ltac:(left)) as [?|?]; unfold mj_end in *; ldst.
    + intros e y _ _ Hy. by rewrite store32_out by lia.
    + intros e y He Hy Hne. rewrite !store32_out; [done|lia|]. pose proof Hap as (_ & _ & A4)%all_apart_app. rewrite Forall_forall in A4.
      specialize (A4 e He). rewrite Forall_forall in A4. destruct (A4 d ltac:(left)); unfold mj_end in *; lia.
  - destruct l2 as [|d l2]; [done|]. destruct (Hpos d ltac:(rewrite elem_of_app; right; left)) as [D1 D2 D3]. cbn [head_blk].
    destruct (Hpos c ltac:(rewrite !elem_of_app; left; right; left)) as [C1 C2 C3]. specialize (A3 c ltac:(apply elem_of_app; right; left)). rewrite Forall_forall in A3.
    unfold bypass. ztest (mj_addr c =? 0) is false. ztest (mj_addr d =? 0) is false.
    apply (relink_prev m _ (mj_addr b)); [done|done|apply load32_store32_eq; lia|]. unfold maj_next, maj_prev.
    intros e y He Hy Hne. rewrite !store32_out; [done| |lia]. destruct (A3 e He); unfold mj_end in *; lia.
Qed.

Lemma release_eval maj prev next r p' s :
  load32 (l_mem s) (maj_next maj) = next → load32 (l_mem s) (maj_prev maj) = prev →
  pg_free maj (load32 (bypass (l_mem s) prev next) (maj_pages maj)) (l_src s) = Done r p' →
  ∃ s', release_block maj s = Done tt s' ∧ l_mem s' = bypass (l_mem s) prev next ∧ l_src s' = p' ∧
    l_memRoot s' = (if l_memRoot s =? maj then next else l_memRoot s) ∧ l_bestBet s' = (if l_bestBet s =? maj then 0 else l_bestBet s).
Proof.
  intros Hn Hp Hf. unfold release_block. rewrite (bind_run _ _ _ _ _ (ld_run _ _)), (bind_run _ _ _ _ _ (ld_run _ _)), Hn, Hp.
  unfold bypass in *. cbv zeta in *.
  destruct (l_memRoot s =? maj) eqn:E1, (l_bestBet s =? maj) eqn:E2, (prev =? 0) eqn:E3, (next =? 0) eqn:E4;
    do 3 (cbn -[load32 store32 maj_next maj_prev maj_pages maj_size u64]; rewrite ?E1, ?E2, ?E3, ?E4);
    unfold on_src, lift, bind; cbn [l_src set_allocated set_bestBet set_memRoot set_l_mem]; rewrite Hf; by eexists.
Qed.

Lemma elem_addr l1 b l2 m c :
  linked m 0 (l1 ++ b :: l2) 0 → all_apart (l1 ++ b :: l2) → c ∈ l1 ++ l2 →
  mj_addr c ≠ mj_addr b ∧ apart b c ∧ block_at m c.
Proof.
  intros Hl [_ Hap]%all_apart_middle Hc. specialize (Hap c Hc).
  pose proof (linked_elem _ _ _ _ c Hl ltac:(rewrite elem_of_app, elem_of_cons in *; tauto)) as Hat.
  pose proof (linked_elem _ _ _ _ b Hl ltac:(rewrite elem_of_app; right; left)) as [[? ? ?] _ _ _ _ _ _].
  pose proof Hat as [[? ? ?] _ _ _ _ _ _]. split_and!; [|done|done]. unfold apart, mj_end in *. lia.
Qed.

Lemma bypass_frame m l1 b l2 y :
  linked m 0 (l1 ++ b :: l2) 0 →
  (∀ c, c ∈ l1 ++ l2 → y < mj_addr c ∨ mj_addr c + 8 <= y) → 8 <= y → bypass m (last_blk 0 l1) (head_blk l2 0) y = m y.
Proof.
  intros Hl Hc Hy. apply bypass_out.
  - destruct l1 as [|c l1 _] using rev_ind; [cbn; lia|]. rewrite last_blk_snoc. apply Hc. rewrite !elem_of_app. left. right. left.
  - destruct l2 as [|d l2]; cbn; [lia|]. apply Hc. rewrite elem_of_app. right. left.
Qed.

(** The block leaves the list, its pages go back to the source. *)
Lemma release_block_run l1 b l2 s :
  heap_at s (l1 ++ b :: l2) →
  ∃ s', release_block (mj_addr b) s = Done tt s' ∧ heap_at s' (l1 ++ l2) ∧ kept (l_mem s) (l_mem s') (live (l1 ++ l2)).
Proof.
  intros Ha. pose proof Ha as [H1 H2 H3 H4 H5]. pose proof (bypass_linked _ _ _ _ H2 H3) as Hby.
  pose proof H2 as [_ (Lp & Ln & Hat & _)]%linked_app. pose proof Hat as [[Hb1 Hb2 Hb3] Hpg _ _ _ _ _].
  set (m' := bypass (l_mem s) (last_blk 0 l1) (head_blk l2 0)) in *.
  assert (Hpages : load32 m' (maj_pages (mj_addr b)) = mj_pages b).
  { rewrite <- Hpg. apply load32_ext. intros y Hy. unfold maj_pages in Hy. apply (bypass_frame _ _ b); [done| |lia]. intros c Hc.
    destruct (elem_addr _ _ _ _ c H2 H3 Hc) as (_ & Hap & [[? ? ?] _ _ _ _ _ _]). unfold apart, mj_end in Hap. lia. }
  destruct (ps_free (l_src s) (range <$> (l1 ++ l2)) (mj_addr b) (mj_pages b)) as (r & p' & Rf & Hps).
  { eapply ps_perm; [|exact H5]. rewrite !fmap_app, fmap_cons. unfold range at 2. solve_Permutation. }
  destruct (release_eval (mj_addr b) (last_blk 0 l1) (head_blk l2 0) r p' s) as (s' & R & E1 & E2 & E3 & E4); [done|done|by fold m'; rewrite Hpages|].
  exists s'. split; [done|]. fold m' in E1. split.
  - split.
    + rewrite E3, H1. destruct l1 as [|c l1]; cbn [app head_blk]; [by rewrite Z.eqb_refl|].
      destruct (elem_addr _ _ _ _ c H2 H3 ltac:(left)) as (Hne & _). by ztest (mj_addr c =? mj_addr b) is false.
    + by rewrite E1.
    + by apply all_apart_middle in H3 as [? _].
    + rewrite E4. destruct H4 as [->|(c & Hc & ->)]; [left; by destruct (0 =? _)|]. destruct (Z.eqb_spec (mj_addr c) (mj_addr b)) as [|Hne]; [by left|right].
      exists c. split; [|done]. rewrite elem_of_app, elem_of_cons in *. destruct Hc as [?|[->|?]]; tauto.
    + by rewrite E2.
  - rewrite E1. intros p n y Hp Hy. assert (Hp' : (p, n) ∈ live (l1 ++ b :: l2)).
    { rewrite live_app in *. unfold live at 2. cbn. fold (live l2). rewrite !elem_of_app in *. tauto. }
    destruct (live_in_block _ _ _ _ Ha Hp') as (c & x & Hc & _ & _ & _ & [[? ? ?] _ _ _ _ _ _] & G1 & G2 & G3 & G4 & _).
    apply (bypass_frame _ _ b); [done| |lia]. intros d Hd. assert (Hd' : d ∈ l1 ++ b :: l2) by (rewrite elem_of_app, elem_of_cons in *; tauto).
    pose proof (after_header s _ d c y Ha Hd' Hc ltac:(lia)). lia.
Qed.

Lemma update_bet_run l b s :
  heap_at s l → b ∈ l → ∃ s', update_bet (mj_addr b) s = Done tt s' ∧ heap_at s' l ∧ l_mem s' = l_mem s.
Proof.
  intros Ha Hb. unfold update_bet. rewrite (bind_run _ _ s (l_bestBet s) s) by done. destruct (l_bestBet s =? 0); [by exists s|]. cbn [negb when].
  do 4 rewrite (bind_run _ _ _ _ _ (ld_run _ _)). destruct (_ >? _); [|by exists s].
  exists (set_bestBet (mj_addr b) s). split_and!; [done|by apply set_bet_heap|done].
Qed.

Lemma heap_at_ext s s' l :
  l_mem s' = l_mem s → l_memRoot s' = l_memRoot s → l_bestBet s' = l_bestBet s → l_src s' = l_src s → heap_at s l → heap_at s' l.
Proof. intros E1 E2 E3 E4 [H1 H2 H3 H4 H5]. split; by rewrite ?E1, ?E2, ?E3, ?E4. Qed.

(** The allocation of [p] is undone. *)
Definition released s l (p n : Z) s' : Prop :=
  ∃ l', heap_at s' l' ∧ filled l' ∧ live l ≡ₚ (p, n) :: live l' ∧ kept (l_mem s) (l_mem s') (live l').

(** The head of [kheap_free] and of [kheap_realloc]: from the pointer to its header. *)
Lemma header_run s l b x :
  heap_at s l → b ∈ l → x ∈ mj_minors b →
  UNALIGN (user_ptr x) s = Done (mn_addr x + 24) s ∧ u32 (mn_addr x + 24 - MINOR) = mn_addr x ∧ user_ptr x ≠ 0 ∧
  header (l_mem s) (mj_addr b) (load32 (l_mem s) (min_prev (mn_addr x))) x.
Proof.
  intros Ha Hb Hx. pose proof (linked_elem _ _ _ _ b (ha_linked _ _ Ha) Hb) as Hat.
  destruct (user_ptr_spec _ _ _ Hat Hx) as (U1 & U2 & U3 & U4 & U5). pose proof Hat as [[? ? ?] _ _ _ B4 _ B6].
  rewrite Forall_forall in B6. destruct (B6 x Hx) as (V1 & V2 & V3). unfold mj_end, mn_end in *. split_and!.
  - apply UNALIGN_run; [lia|lia|done].
  - change MINOR with 24. rewrite u32_small by lia. lia.
  - lia.
  - apply list_elem_of_split in Hx as (k1 & k2 & E). rewrite E in B4. apply chain_app in B4 as [_ [(_ & Hh & _) _]].
    pose proof Hh as (-> & _). done.
Qed.

Lemma unlink_heap s l1 b l2 k1 x k2 :
  heap_at s (l1 ++ b :: l2) → mj_minors b = k1 ++ x :: k2 →
  ∃ s', unlink_minor (mj_addr b) (mn_addr x) s = Done tt s' ∧ heap_at s' (l1 ++ set_minors (k1 ++ k2) b :: l2) ∧
    kept (l_mem s) (l_mem s') (live (l1 ++ set_minors (k1 ++ k2) b :: l2)).
Proof.
  intros Ha Ek. pose proof (linked_elem _ _ _ _ b (ha_linked _ _ Ha) ltac:(rewrite elem_of_app; right; left)) as Hat.
  destruct (unlink_run b k1 x k2 s Hat Ek) as (s1 & R & E1 & E2 & E3 & Hb' & Hout & Hpay).
  exists s1. split; [done|]. assert (Hh : heap_at s1 (l1 ++ set_minors (k1 ++ k2) b :: l2)).
  { apply (heap_at_ext (set_l_mem (l_mem s1) s)); try done. by eapply replace_block. }
  split; [done|]. intros p n y Hp Hy.
  destruct (live_in_block _ _ _ _ Hh Hp) as (c & z & Hc & Hz & -> & -> & Hat' & Z1 & Z2 & Z3 & Z4 & _).
  apply elem_of_app in Hc as [Hc|[->|Hc]%elem_of_cons]; [|apply (Hpay z); [done|lia]|].
  all: apply Hout; pose proof (ha_apart _ _ Ha) as [_ A]%all_apart_middle; destruct (A c ltac:(apply elem_of_app; auto)); lia.
Qed.

(** [kheap_free] of a live allocation returns, and only that one is gone. *)
Lemma free_run s l p n :
  heap_at s l → filled l → (p, n) ∈ live l → ∃ s', kheap_free p s = Done tt s' ∧ released s l p n s'.
Proof.
  intros Ha Hf (b & x & Hb & Hx & -> & ->)%live_elem. destruct (header_run s l b x Ha Hb Hx) as (R1 & E1 & Hp & (_ & W1 & W2 & _)).
  unfold kheap_free. ztest (user_ptr x =? 0) is false. rewrite (bind_run _ _ _ _ _ R1). rewrite E1.
  rewrite (bind_run _ _ _ _ _ (ld_run _ _)), W2. cbn [Z.eqb]. ztest (LIBALLOC_MAGIC =? LIBALLOC_MAGIC) is true. cbn [negb].
  rewrite (bind_run _ _ _ _ _ (ld_run _ _)), W1.
  apply list_elem_of_split in Hx as (k1 & k2 & Ek). apply list_elem_of_split in Hb as (l1 & l2 & ->).
  destruct (unlink_heap s l1 b l2 k1 x k2 Ha Ek) as (s1 & R2 & Ha1 & Hk1). rewrite (bind_run _ _ _ _ _ R2). rewrite (bind_run _ _ _ _ _ (ld_run _ _)).
  set (b' := set_minors (k1 ++ k2) b) in *. pose proof (linked_elem _ _ _ _ b' (ha_linked _ _ Ha1) ltac:(rewrite elem_of_app; right; left)) as [[? ? ?] _ _ _ B4 B5 _].
  assert (Hlive : live (l1 ++ b :: l2) ≡ₚ (user_ptr x, mn_req x) :: live (l1 ++ b' :: l2)).
  { rewrite !live_app. unfold live. cbn. unfold live_in at 2 4. cbn. rewrite Ek, !fmap_app, fmap_cons. solve_Permutation. }
  unfold filled in *. rewrite Forall_app, Forall_cons in Hf. change (mj_addr b) with (mj_addr b'). rewrite (chain_head _ _ _ _ _ B4).
  destruct (mj_minors b') as [|z k] eqn:Em; cbn [head_addr].
  - cbn [Z.eqb]. destruct (release_block_run l1 b' l2 s1 Ha1) as (s' & R3 & Ha' & Hk').
    assert (Hlive' : live (l1 ++ b' :: l2) = live (l1 ++ l2)) by (rewrite !live_app; change (live (b' :: l2)) with (live_in b' ++ live l2); unfold live_in; by rewrite Em).
    rewrite Hlive' in *. exists s'. split; [done|]. exists (l1 ++ l2). split_and!; [done|apply Forall_app; tauto|done|by eapply kept_bytes_trans].
  - destruct B5 as (F1 & _). ztest (mn_addr z =? 0) is false.
    destruct (update_bet_run _ b' s1 Ha1 ltac:(rewrite elem_of_app; right; left)) as (s' & R3 & Ha' & Em').
    exists s'. split; [done|]. exists (l1 ++ b' :: l2). split_and!; [done| |done|by rewrite Em'].
    apply Forall_app. rewrite Forall_cons. rewrite Em. naive_solver.
Qed.
End heap.
