(* ===== verification/LiballocClaims.v ===== *)
(** * What the kernel heap promises its callers (vm/liballoc.c)

    The callers own areas of memory.  Under any sequence of calls and of writes
    to owned areas the areas stay disjoint and keep their bytes, and every call
    returns.  The loops of the model take fuel: [returns] says that a result is
    reached with all large enough fuel. *)

From Stdlib Require Import ZArith Lia.
From stdpp Require Import base numbers list list_tactics relations.
From S2P Require Import Prelude Mem Mmu Kalloc Vm Kheap Liballoc LiballocFacts LiballocRun LiballocHeap.

(** ** More fuel does not change a result *)

Section fuel.
Context {P : Type} `{!PageOps P}.

Lemma minor_loop_below fuel fuel' maj min size req :
  (fuel <= fuel')%nat → below (S := lheap P) (minor_loop fuel maj min size req) (minor_loop fuel' maj min size req).
Proof.
  revert fuel' min. induction fuel as [|fuel IH]; intros [|fuel'] min Hf; cbn [minor_loop]; below.
Qed.

Lemma place_below fuel fuel' maj size req : (fuel <= fuel')%nat → below (S := lheap P) (place fuel maj size req) (place fuel' maj size req).
Proof. intros Hf. unfold place. pose proof minor_loop_below. below. Qed.

Lemma malloc_loop_below mfuel mfuel' size req fuel : (mfuel <= mfuel')%nat → ∀ fuel' maj sb best, (fuel <= fuel')%nat →
  below (S := lheap P) (malloc_loop fuel mfuel size req maj sb best) (malloc_loop fuel' mfuel' size req maj sb best) ∧
  below (S := lheap P) (after_block fuel mfuel size req maj sb best) (after_block fuel' mfuel' size req maj sb best).
Proof.
  intros Hm. pose proof (λ maj, place_below mfuel mfuel' maj size req Hm) as Hp. induction fuel as [|fuel IH]; intros [|fuel'] maj sb best Hf; try lia.
  - split; cbn [malloc_loop after_block]; below.
  - split; cbn [malloc_loop after_block]; below.
  - assert (IH1 : ∀ maj sb best, below (S := lheap P) (malloc_loop fuel mfuel size req maj sb best) (malloc_loop fuel' mfuel' size req maj sb best)) by (intros; apply IH; lia).
    assert (IH2 : ∀ maj sb best, below (S := lheap P) (after_block fuel mfuel size req maj sb best) (after_block fuel' mfuel' size req maj sb best)) by (intros; apply IH; lia).
    clear IH. split; cbn [malloc_loop after_block]; below.
Qed.

Lemma kheap_malloc_below fuel fuel' req : (fuel <= fuel')%nat → below (S := lheap P) (kheap_malloc fuel fuel req) (kheap_malloc fuel' fuel' req).
Proof.
  intros Hf. pose proof (λ size req maj sb best, proj1 (malloc_loop_below fuel fuel' size req fuel Hf fuel' maj sb best Hf)).
  unfold kheap_malloc, malloc_sized. below.
Qed.
End fuel.

(** ** Loops over bytes *)

Ltac inrange :=
  match goal with |- context [(?a <=? ?y) && (?y <? ?b)] => destruct (Z.leb_spec a y), (Z.ltb_spec y b); cbn [andb]; try (exfalso; lia) end.

Lemma memset_loop_spec k m p c y : memset_loop k m p c y = if (p <=? y) && (y <? p + Z.of_nat k) then u8 c else m y.
Proof.
  revert m p. induction k as [|k IH]; intros m p; cbn [memset_loop].
  - inrange; done.
  - rewrite IH. destruct (Z.eq_dec y p) as [->|Hne].
    + inrange. inrange. by rewrite store8_eq.
    + rewrite store8_ne by done. repeat inrange; done.
Qed.

Lemma store32_load32 m m0 d s y :
  (∀ i, s <= i < s + 4 → 0 <= m i < 256) → d <= y < d + 4 → store32 m0 d (load32 m s) y = m (s + (y - d)).
Proof.
  intros Hb Hy. unfold store32. inrange. unfold load32, u8.
  pose proof (Hb s). pose proof (Hb (s + 1)). pose proof (Hb (s + 2)). pose proof (Hb (s + 3)).
  rewrite Z.shiftr_div_pow2 by lia.
  assert (Hc : y - d = 0 ∨ y - d = 1 ∨ y - d = 2 ∨ y - d = 3) by lia.
  destruct Hc as [->|[->|[->| ->]]]; rewrite ?Z.add_0_r.
  - change (2 ^ (8 * 0)) with 1. Z.to_euclidean_division_equations. lia.
  - change (2 ^ (8 * 1)) with 256. Z.to_euclidean_division_equations. lia.
  - change (2 ^ (8 * 2)) with 65536. Z.to_euclidean_division_equations. lia.
  - change (2 ^ (8 * 3)) with 16777216. Z.to_euclidean_division_equations. lia.
Qed.

(** [liballoc_memcpy] copies, when the areas do not overlap. *)
Lemma memcpy_loop_spec fuel m d s n y :
  n <= Z.of_nat fuel → (∀ i, s <= i < s + n → 0 <= m i < 256) → d + n <= s ∨ s + n <= d →
  memcpy_loop fuel m d s n y = if (d <=? y) && (y <? d + n) then m (s + (y - d)) else m y.
Proof.
  revert m d s n. induction fuel as [|fuel IH]; intros m d s n Hf Hb Hap; cbn [memcpy_loop].
  - inrange; done.
  - destruct (Z.geb_spec n 4) as [Hn|Hn]; [|destruct (Z.gtb_spec n 0) as [Hn0|Hn0]].
    + rewrite IH; [|lia|intros i Hi; rewrite store32_out by lia; apply Hb; lia|lia].
      destruct (Z_lt_dec y d) as [Hyd|Hyd]; [|destruct (Z_lt_dec y (d + 4)) as [Hy4|Hy4]].
      * repeat inrange; by rewrite store32_out by lia.
      * inrange. inrange.
        apply store32_load32; [intros i Hi; apply Hb; lia|lia].
      * repeat inrange; rewrite store32_out by lia; first [done|f_equal; lia].
    + rewrite IH; [|lia|intros i Hi; rewrite store8_ne by lia; apply Hb; lia|lia].
      destruct (Z.eq_dec y d) as [->|Hyd].
      * inrange. inrange.
        rewrite store8_eq, u8_small by (apply Hb; lia). f_equal. lia.
      * repeat inrange; rewrite store8_ne by lia; first [done|f_equal; lia].
    + inrange; done.
Qed.

(** ** Disjoint areas *)

(** Areas of memory, as start and length. *)
Definition disjoint_areas (a b : Z * Z) : Prop := a.1 + a.2 <= b.1 ∨ b.1 + b.2 <= a.1.
#[export] Instance disjoint_areas_sym : Symmetric disjoint_areas.
Proof. intros a b. unfold disjoint_areas. tauto. Qed.

Lemma live_in_disjoint m b : block_at m b → pairwise disjoint_areas (live_in b).
Proof.
  intros Hb. assert (H : ∀ l lo, fits lo (mj_end b) l → (∀ x, x ∈ l → x ∈ mj_minors b) →
    pairwise disjoint_areas ((λ x, (user_ptr x, mn_req x)) <$> l)).
  { induction l as [|x l IH]; intros lo; cbn; [done|]. intros (F1 & F2 & F3) Hin. split.
    - apply Forall_forall. intros a (z & -> & Hz)%list_elem_of_fmap. left. cbn.
      pose proof (user_ptr_spec m b x Hb (Hin x ltac:(left))). pose proof (user_ptr_spec m b z Hb (Hin z ltac:(by right))).
      pose proof (fits_elem _ _ _ z F3 Hz). lia.
    - apply (IH _ F3). intros z Hz. apply Hin. by right. }
  eapply H; [apply (bl_fits _ _ Hb)|done].
Qed.

Section owns.
Context {P : Type} `{!PageOps P, !PageStore P}.
Implicit Types s : lheap P.

(** The heap is well formed and [v] are the allocations its callers own. *)
Definition owns s (v : list (Z * Z)) : Prop := ∃ l, heap_at s l ∧ filled l ∧ live l ≡ₚ v.

(** The heap before the first call. *)
Definition heap_init (m : mem) (p : P) : lheap P := LHeap m 0 0 0 0 0 0 0 p.

Lemma init_owns m p : ps_ok p [] → owns (heap_init m p) [].
Proof. intros Hp. exists []. split_and!; [split; try done; by left|by constructor|done]. Qed.

#[export] Instance owns_proper s : Proper ((≡ₚ) ==> iff) (owns s).
Proof. intros v v' Hv. unfold owns. by setoid_rewrite Hv. Qed.

#[export] Instance kept_proper m m' : Proper ((≡ₚ) ==> iff) (kept m m').
Proof. intros v v' Hv. unfold kept. by setoid_rewrite Hv. Qed.

Lemma malloc_owns s v n :
  owns s v → 0 <= n → n + 80 < 4294967296 →
  ∃ p s', returns (λ f, kheap_malloc f f n) s p s' ∧ kept (l_mem s) (l_mem s') v ∧
    (p = 0 ∧ owns s' v ∨ p ≠ 0 ∧ owns s' ((p, n) :: v)).
Proof.
  intros (l & Ha & Hf & Hv) Hn1 Hn2. set (F := (4 * length l + 2 + max_list ((λ c, length (mj_minors c)) <$> l))%nat).
  destruct (malloc_run F F n l s Ha Hf) as (p & s' & R & l' & Ha' & Hf' & Hk & Hr); [|lia|done|done|].
  { apply Forall_forall. intros c Hc. transitivity (max_list ((λ c, length (mj_minors c)) <$> l)); [|unfold F; lia].
    apply max_list_elem_of_le, list_elem_of_fmap. eauto. }
  exists p, s'. split_and!.
  - exists F. intros f HF. by apply (kheap_malloc_below F f n HF).
  - by rewrite <- Hv.
  - destruct Hr as [[-> ->]|[Hp Hl']]; [left|right]; (split; [done|]); eexists; split_and!; try done. by rewrite Hl', Hv.
Qed.

Lemma free_owns s v p n :
  owns s ((p, n) :: v) → ∃ s', kheap_free p s = Done tt s' ∧ owns s' v ∧ kept (l_mem s) (l_mem s') v.
Proof.
  intros (l & Ha & Hf & Hv). destruct (free_run s l p n Ha Hf) as (s' & R & l' & Ha' & Hf' & Hl & Hk); [rewrite Hv; left|].
  assert (Hv' : live l' ≡ₚ v) by (apply (Permutation_cons_inv (a := (p, n))); by rewrite <- Hl, <- Hv).
  exists s'. split_and!; [done|by exists l'|by rewrite <- Hv'].
Qed.

(** An owner may write to its bytes. *)
Lemma write_owns s v p n m' :
  owns s v → (p, n) ∈ v → (∀ y, ¬ p <= y < p + n → m' y = l_mem s y) → owns (set_l_mem m' s) v.
Proof.
  intros (l & Ha & Hf & Hv) Hp He. rewrite <- Hv in Hp. exists l. split_and!; [|done|done].
  destruct (live_in_block _ _ _ _ Ha Hp) as (b & x & Hb & Hx & -> & -> & Hat & G1 & G2 & G3 & G4 & _).
  apply list_elem_of_split in Hb as (l1 & l2 & ->). apply (replace_block s l1 b b l2); [done|by eapply block_write|done|].
  intros y Hy. apply He. lia.
Qed.

(** Owned allocations are aligned and do not overlap. *)
Lemma owns_elem s v p n : owns s v → (p, n) ∈ v → p mod 16 = 0 ∧ 0 < p ∧ 0 <= n ∧ p + n < 4294967296.
Proof.
  intros (l & Ha & Hf & Hv) Hp. rewrite <- Hv in Hp.
  destruct (live_in_block _ _ _ _ Ha Hp) as (b & x & Hb & Hx & -> & -> & Hat & G1 & G2 & G3 & G4 & G5).
  pose proof Hat as [[? ? ?] _ _ _ _ _ B6]. rewrite Forall_forall in B6. destruct (B6 x Hx) as (? & _). unfold mj_end in *. split_and!; [done|lia..].
Qed.

Lemma owns_disjoint s v : owns s v → pairwise disjoint_areas v.
Proof.
  intros (l & Ha & _ & Hv). rewrite <- Hv. clear v Hv. pose proof (ha_apart _ _ Ha) as Hap.
  assert (Hat : ∀ b, b ∈ l → block_at (l_mem s) b) by (intros b; apply (linked_elem _ _ _ _ _ (ha_linked _ _ Ha))). clear Ha.
  induction l as [|b l IH]; [done|]. destruct Hap as [Hb Hap]. change (live (b :: l)) with (live_in b ++ live l). apply pairwise_app. split_and!.
  - apply (live_in_disjoint (l_mem s)), Hat. left.
  - apply IH; [done|]. intros c Hc. apply Hat. by right.
  - apply Forall_forall. intros a (x & -> & Hx)%list_elem_of_fmap. apply Forall_forall. intros [p n] (c & z & Hc & Hz & -> & ->)%live_elem.
    rewrite Forall_forall in Hb. pose proof (user_ptr_spec _ b x (Hat b ltac:(left)) Hx) as (_ & X1 & X2 & X3 & X4).
    pose proof (user_ptr_spec _ c z (Hat c ltac:(by right)) Hz) as (_ & Z1 & Z2 & Z3 & Z4). unfold disjoint_areas. cbn. destruct (Hb c Hc); lia.
Qed.

(** ** [kheap_calloc] and [kheap_realloc] *)

Lemma kept_write s m' v p n :
  owns s ((p, n) :: v) → (∀ y, ¬ p <= y < p + n → m' y = l_mem s y) → kept (l_mem s) m' v.
Proof.
  intros [Hd _]%owns_disjoint He q k y Hq Hy. rewrite Forall_forall in Hd. apply He. specialize (Hd _ Hq). unfold disjoint_areas in Hd. cbn in Hd. lia.
Qed.

Lemma calloc_owns s v nobj size :
  owns s v → 0 <= nobj * size → nobj * size + 80 < 4294967296 →
  ∃ p s', returns (λ f, kheap_calloc f f nobj size) s p s' ∧
    (p ≠ 0 → owns s' ((p, nobj * size) :: v) ∧ kept (l_mem s) (l_mem s') v ∧ ∀ y, p <= y < p + nobj * size → l_mem s' y = 0).
Proof.
  intros Ho Hn1 Hn2. destruct (malloc_owns s v (nobj * size) Ho Hn1 Hn2) as (p & s1 & R & Hk & Hr).
  set (m' := memset_loop (Z.to_nat (nobj * size)) (l_mem s1) p 0). exists p, (set_l_mem m' s1). split.
  - unfold kheap_calloc. rewrite u32_small by lia. eapply returns_bind; [exact R|]. exists O. intros. done.
  - intros Hp. destruct Hr as [[? _]|[_ Ho1]]; [done|].
    assert (Hout : ∀ y, ¬ p <= y < p + nobj * size → m' y = l_mem s1 y).
    { intros y Hy. unfold m'. rewrite memset_loop_spec. inrange; done. }
    split_and!; [eapply write_owns; [done|left|done]|eapply kept_bytes_trans; [done|by eapply kept_write]|].
    intros y Hy. cbn. unfold m'. rewrite memset_loop_spec. inrange; done.
Qed.

(** Shrinking changes the header only. *)
Lemma shrink_owns s v p n size :
  owns s ((p, n) :: v) → 0 < size <= n →
  ∃ s', returns (λ f, kheap_realloc f f p size) s p s' ∧ owns s' ((p, size) :: v) ∧ kept (l_mem s) (l_mem s') ((p, n) :: v).
Proof.
  intros (l & Ha & Hf & Hv) Hsz. assert (Hp : (p, n) ∈ live l) by (rewrite Hv; left).
  apply live_elem in Hp as (b & x & Hb & Hx & -> & ->). destruct (header_run s l b x Ha Hb Hx) as (R1 & E1 & Hp & (_ & W1 & W2 & _ & W4)).
  set (m' := store32 (l_mem s) (min_req (mn_addr x)) size). exists (set_l_mem m' s). split.
  { exists O. intros f _. unfold kheap_realloc. ztest (size =? 0) is false. ztest (user_ptr x =? 0) is false.
    rewrite (bind_run _ _ _ _ _ R1), E1. rewrite (bind_run _ _ _ _ _ (ld_run _ _)), W2. ztest (LIBALLOC_MAGIC =? LIBALLOC_MAGIC) is true. cbn [negb].
    rewrite (bind_run _ _ _ _ _ (ld_run _ _)), W4. ztest (mn_req x >=? size) is true. done. }
  pose proof (linked_elem _ _ _ _ b (ha_linked _ _ Ha) Hb) as Hat. destruct (user_ptr_spec _ _ _ Hat Hx) as (_ & U2 & U3 & U4 & U5).
  pose proof Hx as (k1 & k2 & Ek)%list_elem_of_split. pose proof Hb as (l1 & l2 & ->)%list_elem_of_split. unfold mn_end in *.
  set (b' := set_minors (k1 ++ resize size x :: k2) b). split.
  - exists (l1 ++ b' :: l2). split_and!.
    + apply (replace_block s l1 b b' l2); [done|by apply block_resize; [..|lia]|done|]. intros y Hy. unfold m', min_req. rewrite store32_out by lia. done.
    + unfold filled in *. rewrite Forall_app, Forall_cons in *. destruct Hf as (? & _ & ?). split_and!; [done| |done]. by destruct k1.
    + apply (Permutation_cons_inv (a := (user_ptr x, mn_req x))). rewrite perm_swap, <- Hv. rewrite !live_app. unfold live. cbn.
      unfold live_in at 2 4. cbn. rewrite Ek, !fmap_app, !fmap_cons. change (user_ptr (resize size x)) with (user_ptr x). cbn. solve_Permutation.
  - rewrite <- Hv. intros q k y Hq Hy. cbn. unfold m', min_req. rewrite store32_out; [done|].
    destruct (live_in_block _ _ _ _ Ha Hq) as (c & z & Hc & Hz & -> & -> & _ & G1 & G2 & G3 & G4 & _). unfold mn_end in *.
    destruct (all_apart_elem _ _ _ (ha_apart _ _ Ha) Hb Hc) as [<-|[?|?]]; [|lia..].
    destruct (minors_apart _ b x z Hat Hx Hz) as [->|[?|?]]; unfold mn_end in *; lia.
Qed.

(** Growing: a new allocation, the copy, the release of the old one. *)
Lemma grow_owns s v p n size q s1 :
  owns s ((p, n) :: v) → n < size → size + 80 < 4294967296 → (∀ y, p <= y < p + n → 0 <= l_mem s y < 256) →
  returns (λ f, kheap_malloc f f size) s q s1 → q ≠ 0 →
  ∃ s', returns (λ f, kheap_realloc f f p size) s q s' ∧ owns s' ((q, size) :: v) ∧ kept (l_mem s) (l_mem s') v ∧
    ∀ i, 0 <= i < n → l_mem s' (q + i) = l_mem s (p + i).
Proof.
  intros Ho Hlt Hsz Hbytes R Hq. destruct (owns_elem s _ p n Ho ltac:(left)) as (_ & Hp0 & Hn0 & _).
  destruct (malloc_owns s _ size Ho) as (q' & s1' & R' & Hk & Hr); [lia|lia|]. destruct (returns_det _ _ _ _ _ _ R' R) as [-> ->].
  destruct Hr as [[? _]|[_ Ho1]]; [done|]. pose proof (owns_disjoint _ _ Ho1) as [Hd _]. rewrite Forall_cons in Hd. destruct Hd as [Hd _].
  unfold disjoint_areas in Hd. cbn in Hd.
  set (m2 := memcpy_loop (Z.to_nat n) (l_mem s1) q p n).
  assert (Hm2 : ∀ y, m2 y = if (q <=? y) && (y <? q + n) then l_mem s1 (p + (y - q)) else l_mem s1 y).
  { intros y. apply memcpy_loop_spec; [lia| |lia]. intros i Hi. rewrite (Hk p n i ltac:(left) Hi). auto. }
  assert (Hout : ∀ y, ¬ q <= y < q + size → m2 y = l_mem s1 y) by (intros y Hy; rewrite Hm2; inrange; done).
  assert (Ho2 : owns (set_l_mem m2 s1) ((p, n) :: (q, size) :: v)).
  { rewrite perm_swap. eapply write_owns; [done|left|done]. }
  destruct (free_owns _ _ _ _ Ho2) as (s' & R3 & Ho3 & Hk3). exists s'. split_and!.
  - destruct Ho as (l & Ha & Hf & Hv). assert (Hp : (p, n) ∈ live l) by (rewrite Hv; left).
    apply live_elem in Hp as (b & x & Hb & Hx & -> & ->). destruct (header_run s l b x Ha Hb Hx) as (R1 & E1 & Hp & (_ & W1 & W2 & _ & W4)).
    destruct R as (F & HF). exists F. intros f Hf'. unfold kheap_realloc. ztest (size =? 0) is false. ztest (user_ptr x =? 0) is false.
    rewrite (bind_run _ _ _ _ _ R1), E1. rewrite (bind_run _ _ _ _ _ (ld_run _ _)), W2. ztest (LIBALLOC_MAGIC =? LIBALLOC_MAGIC) is true. cbn [negb].
    rewrite (bind_run _ _ _ _ _ (ld_run _ _)), W4. ztest (mn_req x >=? size) is false. rewrite (bind_run _ _ _ _ _ (HF f Hf')).
    rewrite (bind_run _ _ s1 tt (set_l_mem m2 s1)) by done. by rewrite (bind_run _ _ _ _ _ R3).
  - done.
  - intros a k y Hav Hy. rewrite (Hk3 a k y ltac:(by right) Hy). cbn. rewrite <- (Hk a k y ltac:(by right) Hy).
    apply (kept_write s1 m2 ((p, n) :: v) q size Ho1 Hout a k y ltac:(by right) Hy).
  - intros i Hi. rewrite (Hk3 q size (q + i) ltac:(left)) by lia. cbn. rewrite Hm2. inrange.
    replace (p + (q + i - q)) with (p + i) by lia. apply (Hk p n); [left|lia].
Qed.

(** ** The heap and its callers *)

(** One call, or one write to an owned allocation.  [v] are the allocations the
    callers own.  The calls of [kheap_calloc] and [kheap_realloc] that find no
    memory are not among the steps: they go on with a null pointer. *)
Inductive heap_step : lheap P * list (Z * Z) → lheap P * list (Z * Z) → Prop :=
| step_malloc s v n p s' : 0 <= n → n + 80 < 4294967296 → returns (λ f, kheap_malloc f f n) s p s' →
    heap_step (s, v) (s', if p =? 0 then v else (p, n) :: v)
| step_calloc s v nobj size p s' : 0 <= nobj * size → nobj * size + 80 < 4294967296 → returns (λ f, kheap_calloc f f nobj size) s p s' → p ≠ 0 →
    heap_step (s, v) (s', (p, nobj * size) :: v)
| step_shrink s v p n size s' : 0 < size <= n → returns (λ f, kheap_realloc f f p size) s p s' →
    heap_step (s, (p, n) :: v) (s', (p, size) :: v)
| step_grow s v p n size q s1 s' : n < size → size + 80 < 4294967296 → (∀ y, p <= y < p + n → 0 <= l_mem s y < 256) →
    returns (λ f, kheap_malloc f f size) s q s1 → q ≠ 0 → returns (λ f, kheap_realloc f f p size) s q s' →
    heap_step (s, (p, n) :: v) (s', (q, size) :: v)
| step_free s v p n s' : kheap_free p s = Done tt s' → heap_step (s, (p, n) :: v) (s', v)
| step_write s v p n m' : (p, n) ∈ v → (∀ y, ¬ p <= y < p + n → m' y = l_mem s y) → heap_step (s, v) (set_l_mem m' s, v)
| step_order s v v' : v ≡ₚ v' → heap_step (s, v) (s, v').

Definition heap_reach (m : mem) (p : P) s v : Prop := ps_ok p [] ∧ rtc heap_step (heap_init m p, []) (s, v).

Lemma step_owns s v s' v' : heap_step (s, v) (s', v') → owns s v → owns s' v'.
Proof.
  inversion 1 as [? ? n p ? Hn1 Hn2 R|? ? nobj size p ? Hn1 Hn2 R Hp|? ? p n size ? Hsz R|? ? p n size q s1 ? Hlt Hsz Hby Rm Hq R|? ? p n ? R|? ? p n m' Hin He|? ? ? Hv]; subst; intros Ho.
  - destruct (malloc_owns s v n Ho Hn1 Hn2) as (p' & s1 & R' & _ & Hr). destruct (returns_det _ _ _ _ _ _ R' R) as [-> ->].
    destruct Hr as [[-> Hr]|[Hp Hr]]; [done|]. by ztest (p =? 0) is false.
  - destruct (calloc_owns s v nobj size Ho Hn1 Hn2) as (p' & s1 & R' & Hr). destruct (returns_det _ _ _ _ _ _ R' R) as [-> ->]. by apply Hr.
  - destruct (shrink_owns s _ p n size Ho Hsz) as (s1 & R' & Hr & _). by destruct (returns_det _ _ _ _ _ _ R' R) as [_ ->].
  - destruct (grow_owns s _ p n size q s1 Ho Hlt Hsz Hby Rm Hq) as (s2 & R' & Hr & _). by destruct (returns_det _ _ _ _ _ _ R' R) as [_ ->].
  - destruct (free_owns s v' p n Ho) as (s1 & R' & Hr & _). rewrite R in R'. by injection R' as ->.
  - by eapply write_owns.
  - by rewrite <- Hv.
Qed.

Lemma reach_owns m p s v : heap_reach m p s v → owns s v.
Proof.
  intros [Hp Hr]. remember (heap_init m p, []) as c eqn:Ec. remember (s, v) as d eqn:Ed.
  assert (Ho : owns c.1 c.2) by (subst c; by apply init_owns). clear Ec.
  revert Ed. induction Hr as [c|[s1 v1] [s2 v2] d Hs _ IH]; intros ->; [done|]. apply IH; [|done]. cbn in *. by eapply step_owns.
Qed.

Lemma reach_step m p s v s' v' : heap_reach m p s v → heap_step (s, v) (s', v') → heap_reach m p s' v'.
Proof. intros [Hp Hr] Hs. split; [done|]. by eapply rtc_r. Qed.


End owns.

(** ** A page source: pages in ascending order, never used again *)

#[export] Instance bump_pages : PageOps Z := {|
  pg_alloc n := λ next, if next + 4096 * n <=? 0xFFFFF000 then Done next (next + 4096 * n) else Done 0 next;
  pg_free _ _ := ret 0
|}.

#[export, program] Instance bump_store : PageStore Z := {|
  ps_ok next l := 0 < next ∧ Forall (λ r, r.1 + 4096 * r.2 <= next) l
|}.
Next Obligation. intros p l l' Hl [H1 H2]. by rewrite <- Hl. Qed.
Next Obligation.
  intros p l n [H1 H2] Hn. cbn. destruct (Z.leb_spec (p + 4096 * n) 0xFFFFF000) as [Hle|Hgt]; [|exists 0, p; auto].
  exists p, (p + 4096 * n). split; [done|right]. split_and!; [by split|eapply Forall_impl; [done|]|lia|constructor; [cbn; lia|eapply Forall_impl; [done|]]].
  - intros r Hr. right. cbn in *. lia.
  - intros r Hr. cbn in *. lia.
Qed.
Next Obligation. intros p l a n [H1 H2]. rewrite Forall_cons in H2. exists 0, p. cbn. tauto. Qed.

(** A heap with two allocations. *)
Definition used_heap0 : lheap Z := heap_init (λ _, 0) 65536.
Definition used_heap1 : lheap Z := state_after used_heap0 (kheap_malloc 4 4 100 used_heap0).
Definition used_heap2 : lheap Z := state_after used_heap0 (kheap_malloc 8 8 200 used_heap1).

Lemma malloc_returns f n p (s s' : lheap Z) : kheap_malloc f f n s = Done p s' → returns (λ f, kheap_malloc f f n) s p s'.
Proof. intros R. exists f. intros f' Hf. by apply (kheap_malloc_below f f' n Hf). Qed.

Lemma used_heap_reach : heap_reach (λ _, 0) 65536 used_heap2 [(65760, 200); (65600, 100)].
Proof.
  assert (R1 : kheap_malloc 4 4 100 used_heap0 = Done 65600 used_heap1).
  { unfold used_heap1. apply (state_after_Done used_heap0 (kheap_malloc 4 4 100 used_heap0)). vm_compute. reflexivity. }
  assert (R2 : kheap_malloc 8 8 200 used_heap1 = Done 65760 used_heap2).
  { unfold used_heap2. apply (state_after_Done used_heap0 (kheap_malloc 8 8 200 used_heap1)). vm_compute. reflexivity. }
  assert (H0 : heap_reach (λ _, 0) 65536 used_heap0 []) by (split; [split; [lia|constructor]|apply rtc_refl]).
  assert (H1 : heap_reach (λ _, 0) 65536 used_heap1 [(65600, 100)]).
  { apply (reach_step _ _ _ _ _ _ H0). apply (step_malloc _ _ 100 65600); [lia|lia|exact (malloc_returns _ _ _ _ _ R1)]. }
  apply (reach_step _ _ _ _ _ _ H1). apply (step_malloc _ _ 200 65760); [lia|lia|exact (malloc_returns _ _ _ _ _ R2)].
Qed.



(** ** A request near 4 GB is taken for a small one *)

(** The size with the room for alignment wraps around: [kheap_malloc] of
    0xFFFFFFF0 bytes succeeds, in a block of 16 pages. *)
Theorem malloc_overflow :
  ∃ s', kheap_malloc 4 4 0xFFFFFFF0 used_heap0 = Done 65600 s' ∧ load32 (l_mem s') (maj_size 65536) = 65536.
Proof.
  eexists. split; [apply (state_after_Done used_heap0 (kheap_malloc 4 4 0xFFFFFFF0 used_heap0)); vm_compute; reflexivity|]. vm_compute. reflexivity.
Qed.

(** [kheap_realloc] to a size for which there is no memory frees the old
    allocation, copies it to the null pointer and returns 0. *)
Theorem realloc_failure_loses :
  ∃ s', kheap_realloc 8 8 65600 0xFFFFE000 used_heap1 = Done 0 s' ∧ l_memRoot s' = 0.
Proof.
  eexists. split; [apply (state_after_Done used_heap0 (kheap_realloc 8 8 65600 0xFFFFE000 used_heap1)); vm_compute; reflexivity|].
  vm_compute. reflexivity.
Qed.
