(* ===== verification/Spinlock.v ===== *)
(** * Spin locks (spinlock.c)

    The per-CPU interrupt state ([pushcli]/[popcli]), the operations on one
    lock, and the interleaving of several CPUs on it.  The other components use
    the view [Prelude.acquire]/[Prelude.release] of a lock; [acquire_view] and
    [release_view] relate it to the code. *)

From Stdlib Require Import ZArith Lia.
From stdpp Require Import base numbers list strings relations.
From S2P Require Import Prelude Mem Mmu.

(** [struct cpu], the fields spinlock.c uses, and the IF bit of the CPU's eflags. *)
Record cpu : Type := Cpu {
  ncli : Z;
  intena : bool;
  eflags_if : bool
}.

Record spinlock : Type := Spinlock {
  locked : Z;
  lk_cpu : option nat;
  pcs : list Z
}.

(** What the code of one CPU sees: its own [struct cpu] and the lock. *)
Record lockview : Type := View {
  v_cpu : cpu;
  v_lock : spinlock
}.

Definition initlock : spinlock := Spinlock 0 None [].

Definition pushcli : M cpu unit := λ c,
  let eflags := eflags_if c in
  let c1 := Cpu (ncli c) (intena c) false in
  let c2 := if ncli c1 =? 0 then Cpu (ncli c1) eflags (eflags_if c1) else c1 in
  Done tt (Cpu (ncli c2 + 1) (intena c2) (eflags_if c2)).

Definition popcli : M cpu unit := λ c,
  if eflags_if c then Panic "popcli - interruptible"
  else
    let c1 := Cpu (ncli c - 1) (intena c) (eflags_if c) in
    if ncli c1 <? 0 then Panic "popcli"
    else if (ncli c1 =? 0) && intena c1 then Done tt (Cpu (ncli c1) (intena c1) true)
    else Done tt c1.

Definition on_cpu {A} (m : M cpu A) : M lockview A :=
  lift v_cpu (λ c v, View c (v_lock v)) m.

Definition holding (me : nat) : M lockview bool :=
  on_cpu pushcli ;;;
  r <- gets (λ v, negb (locked (v_lock v) =? 0) && bool_decide (lk_cpu (v_lock v) = Some me)) ;;
  on_cpu popcli ;;;
  ret r.

(** Walks the chain of saved frame pointers from the frame of the argument at
    [v]; [m] is the memory it reads. *)
Fixpoint getcallerpcs_loop (fuel : nat) (m : mem) (ebp : Z) : list Z :=
  match fuel with
  | O => []
  | S fuel' =>
      if (ebp =? 0) || (ebp <? KERNBASE) || (ebp =? 0xffffffff) then replicate fuel 0
      else load32 m (ebp + 4) :: getcallerpcs_loop fuel' m (load32 m ebp)
  end.

Definition getcallerpcs (m : mem) (v : Z) : list Z := getcallerpcs_loop 10 m (u32 (v - 8)).

(** [xchg(&lk->locked, 1)]. *)
Definition xchg1 : M lockview Z := λ v,
  Done (locked (v_lock v)) (View (v_cpu v) (Spinlock 1 (lk_cpu (v_lock v)) (pcs (v_lock v)))).

(** The loop [while(xchg(&lk->locked, 1) != 0)]: with no other CPU running, a
    lock that is taken stays taken and the loop spins. *)
Definition spin : M lockview unit :=
  r <- xchg1 ;;
  if r =? 0 then ret tt else nofuel.

(** [stack] is what [getcallerpcs] finds. *)
Definition acquire_lk (me : nat) (stack : list Z) : M lockview unit :=
  on_cpu pushcli ;;;
  h <- holding me ;;
  if h then panic "acquire"
  else
    spin ;;;
    modify (λ v, View (v_cpu v) (Spinlock (locked (v_lock v)) (Some me) stack)).

Definition release_lk (me : nat) : M lockview unit :=
  h <- holding me ;;
  if negb h then panic "release"
  else
    modify (λ v, View (v_cpu v) (Spinlock (locked (v_lock v)) None (<[0%nat := 0]> (pcs (v_lock v))))) ;;;
    modify (λ v, View (v_cpu v) (Spinlock 0 (lk_cpu (v_lock v)) (pcs (v_lock v)))) ;;;
    on_cpu popcli.

(** ** Nesting of [pushcli] and [popcli] *)

(** A sequence of calls: [true] is [pushcli], [false] is [popcli]. *)
Fixpoint run_cli (ops : list bool) : M cpu unit :=
  match ops with
  | [] => ret tt
  | op :: ops' => (if op then pushcli else popcli) ;;; run_cli ops'
  end.

Fixpoint depth (ops : list bool) (d : Z) : Z :=
  match ops with
  | [] => d
  | op :: ops' => depth ops' (if op then d + 1 else d - 1)
  end.

Fixpoint balanced (ops : list bool) (d : Z) : bool :=
  match ops with
  | [] => true
  | op :: ops' => let d' := if op then d + 1 else d - 1 in (0 <=? d') && balanced ops' d'
  end.

(** State at nesting depth [d] of a CPU whose interrupts were [f] at depth 0. *)
Definition cli_state (f : bool) (d : Z) (c : cpu) : Prop :=
  0 <= d ∧ ncli c = d ∧ (if d =? 0 then eflags_if c = f else eflags_if c = false ∧ intena c = f).

Lemma pushcli_state f d c :
  cli_state f d c → ∃ c', pushcli c = Done tt c' ∧ cli_state f (d + 1) c'.
Proof.
  intros (Hd & Hn & Hf). unfold pushcli. cbn [ncli intena eflags_if]. rewrite Hn.
  eexists. split; [done|]. unfold cli_state. cbn. ztest (d + 1 =? 0) is false.
  destruct (d =? 0) eqn:E; cbn; split_and!; try lia; try done; tauto || congruence.
Qed.

Lemma popcli_state f d c :
  cli_state f d c → 0 < d → ∃ c', popcli c = Done tt c' ∧ cli_state f (d - 1) c'.
Proof.
  intros (Hd & Hn & Hf) Hpos. revert Hf. ztest (d =? 0) is false. intros [He Hi].
  unfold popcli. rewrite He. cbn [ncli intena eflags_if]. rewrite Hn, Hi.
  ztest (d - 1 <? 0) is false. unfold cli_state. destruct (d - 1 =? 0) eqn:E; cbn [andb].
  - destruct f; eexists; (split; [done|]); cbn; split_and!; try lia; done.
  - eexists. split; [done|]. cbn. split_and!; try lia; done.
Qed.

Lemma run_cli_state f ops : ∀ d c,
  cli_state f d c → balanced ops d = true →
  ∃ c', run_cli ops c = Done tt c' ∧ cli_state f (depth ops d) c'.
Proof.
  induction ops as [|op ops IH]; intros d c Hc Hb; cbn [run_cli depth balanced] in *; [by exists c|].
  apply andb_true_iff in Hb as [Hd Hb]. zb.
  destruct op.
  - destruct (pushcli_state f d c Hc) as (c1 & Hr & Hc1). mcall Hr. by apply IH.
  - destruct (popcli_state f d c Hc) as (c1 & Hr & Hc1); [lia|]. mcall Hr. by apply IH.
Qed.

(** [pushcli] and [popcli] nest: over any sequence of calls in which no
    [popcli] lacks its [pushcli], none of them panics, interrupts are off while
    the nesting depth is positive, and at depth 0 they are what they were before
    the first call. *)
Theorem cli_nesting ops c :
  ncli c = 0 → balanced ops 0 = true →
  ∃ c', run_cli ops c = Done tt c' ∧ ncli c' = depth ops 0 ∧
    (if depth ops 0 =? 0 then eflags_if c' = eflags_if c else eflags_if c' = false).
Proof.
  intros Hn Hb. destruct (run_cli_state (eflags_if c) ops 0 c) as (c' & Hr & _ & Hd & Hf); [|done|].
  { by split_and!. }
  exists c'. split_and!; [done..|]. destruct (depth ops 0 =? 0); [done|apply Hf].
Qed.

Lemma cli_nesting_witness :
  ∃ c', run_cli [true; true; false; true; false; false] (Cpu 0 false true) = Done tt c' ∧
        eflags_if c' = true.
Proof.
  destruct (cli_nesting [true; true; false; true; false; false] (Cpu 0 false true))
    as (c' & Hr & _ & Hf); [reflexivity|reflexivity|].
  exists c'. split; [exact Hr|exact Hf].
Defined.

(** ** One CPU's view of a lock *)

(** The lock is free or held by CPU [me], which is at depth [d]. *)
Definition view_rel (me : nat) (f : bool) (d : Z) (v : lockview) (held : bool) : Prop :=
  cli_state f d (v_cpu v) ∧
  (if held then locked (v_lock v) = 1 ∧ lk_cpu (v_lock v) = Some me ∧ 0 < d
   else locked (v_lock v) = 0).

Lemma holding_view me f d v held :
  view_rel me f d v held →
  ∃ v', holding me v = Done held v' ∧ v_lock v' = v_lock v ∧ cli_state f d (v_cpu v').
Proof.
  intros [Hc Hl]. unfold holding, on_cpu.
  destruct (pushcli_state f d _ Hc) as (c1 & Hp & Hc1).
  destruct (popcli_state f (d + 1) c1 Hc1) as (c2 & Hq & Hc2); [destruct Hc; lia|].
  exists (View c2 (v_lock v)). replace (d + 1 - 1) with d in Hc2 by lia.
  split_and!; [|done..]. unfold bind, lift, gets, ret. rewrite Hp. cbn [v_cpu v_lock]. rewrite Hq. f_equal.
  destruct held.
  - destruct Hl as (-> & -> & _). by rewrite bool_decide_eq_true_2.
  - by rewrite Hl.
Qed.

(** The view of a spin lock that the other components use is a refinement of
    the code: for a lock that is free or held by this CPU, [acquire] and
    [release] return or panic exactly as the one-bit lock does, and each
    completed [acquire] adds one level of disabled interrupts that the matching
    [release] takes away. *)
Theorem lock_refines me f d stack v held :
  view_rel me f d v held →
  match acquire id (λ b _, b) held with
  | Done _ held' => ∃ v', acquire_lk me stack v = Done tt v' ∧ view_rel me f (d + 1) v' held'
  | Panic msg => acquire_lk me stack v = Panic msg
  | _ => False
  end ∧
  match release id (λ b _, b) held with
  | Done _ held' => ∃ v', release_lk me v = Done tt v' ∧ view_rel me f (d - 1) v' held'
  | Panic msg => release_lk me v = Panic msg
  | _ => False
  end.
Proof.
  intros [Hc Hl]. destruct (pushcli_state f d _ Hc) as (c1 & Hp & Hc1).
  assert (Hv1 : view_rel me f (d + 1) (View c1 (v_lock v)) held).
  { split; [done|]. destruct held; [|done]. cbn. destruct Hl as (? & ? & ?). split_and!; done || lia. }
  destruct (holding_view _ _ _ _ _ Hv1) as (v2 & Hh & Hl2 & Hc2).
  destruct (holding_view me f d v held) as (v3 & Hh3 & Hl3 & Hc3); [by split|].
  assert (Ha : acquire_lk me stack v =
    (if held then panic "acquire"
     else spin ;;; modify (λ v, View (v_cpu v) (Spinlock (locked (v_lock v)) (Some me) stack))) v2).
  { unfold acquire_lk, on_cpu. unfold bind at 1, lift. rewrite Hp. by mcall Hh. }
  assert (Hr : release_lk me v = (if negb held then panic "release" else
    modify (λ v, View (v_cpu v) (Spinlock (locked (v_lock v)) None (<[0%nat := 0]> (pcs (v_lock v))))) ;;;
    modify (λ v, View (v_cpu v) (Spinlock 0 (lk_cpu (v_lock v)) (pcs (v_lock v)))) ;;;
    on_cpu popcli) v3) by (unfold release_lk; by mcall Hh3).
  rewrite Ha, Hr. destruct held; cbn [acquire release id negb]; (split; [|]); try done.
  - destruct Hl as (_ & _ & Hpos). destruct (popcli_state f d _ Hc3 Hpos) as (c4 & Hq & Hc4).
    mrun. unfold on_cpu, lift. cbn [v_cpu v_lock]. rewrite Hq.
    eexists. split; [done|]. by split.
  - unfold spin, xchg1, bind. rewrite Hl2. cbn [v_lock]. rewrite Hl. cbn.
    eexists. split; [done|]. split; [done|]. cbn. split_and!; try done. destruct Hc. lia.
Qed.

Lemma lock_refines_witness :
  acquire_lk 1 [] (View (Cpu 0 false true) initlock) =
  Done tt (View (Cpu 1 true false) (Spinlock 1 (Some 1%nat) [])).
Proof.
  destruct (lock_refines 1 true 0 [] (View (Cpu 0 false true) initlock) false) as [H _].
  - split; [split_and!; done|reflexivity].
  - destruct H as (v' & H & _). rewrite H. vm_compute in H. injection H as <-. reflexivity.
Defined.

(** ** Several CPUs *)

(** Where a CPU is with respect to the lock: outside, spinning in [acquire], past
    the [xchg] but with [lk->cpu] not yet set, inside the critical section, past
    [lk->cpu = 0] in [release], or panicked. *)
Inductive point : Type :=
  | Outside | Spinning | Taken | Inside | Releasing | Panicked.

#[export] Instance point_eq_dec : EqDecision point.
Proof. solve_decision. Defined.

Record config : Type := Config { lk : spinlock; at_ : nat → point }.

Definition move (c : nat) (p : point) (f : nat → point) : nat → point :=
  λ c', if decide (c' = c) then p else f c'.

(** The test of [holding], as CPU [c] reads the lock. *)
Definition holds (c : nat) (l : spinlock) : bool :=
  negb (locked l =? 0) && bool_decide (lk_cpu l = Some c).

Inductive lock_step : config → config → Prop :=
  | st_acquire c l f : f c = Outside →
      lock_step (Config l f) (Config l (move c (if holds c l then Panicked else Spinning) f))
  | st_xchg c l f cp r cp' l' : f c = Spinning → xchg1 (View cp l) = Done r (View cp' l') →
      lock_step (Config l f) (Config l' (move c (if r =? 0 then Taken else Spinning) f))
  | st_record c l f stack : f c = Taken →
      lock_step (Config l f) (Config (Spinlock (locked l) (Some c) stack) (move c Inside f))
  | st_release c l f : f c = Inside →
      lock_step (Config l f)
        (if holds c l then Config (Spinlock (locked l) None (<[0%nat := 0]> (pcs l))) (move c Releasing f)
         else Config l (move c Panicked f))
  | st_unlock c l f : f c = Releasing →
      lock_step (Config l f) (Config (Spinlock 0 (lk_cpu l) (pcs l)) (move c Outside f)).

Definition owns (p : point) : bool :=
  match p with Taken | Inside | Releasing => true | _ => false end.

(** No CPU has panicked; the lock word says whether some CPU owns the lock; an
    owner past [lk->cpu = mycpu()] is the recorded one, and no other is. *)
Record lock_inv (s : config) : Prop := {
  li_alive : ∀ c, at_ s c ≠ Panicked;
  li_one : ∀ c c', owns (at_ s c) = true → owns (at_ s c') = true → c = c';
  li_word : ∀ c, owns (at_ s c) = true → locked (lk s) = 1;
  li_inside : ∀ c, at_ s c = Inside → lk_cpu (lk s) = Some c;
  li_cpu : ∀ c, lk_cpu (lk s) = Some c → at_ s c = Inside
}.

Lemma move_case c p f c' : move c p f c' = p ∧ c' = c ∨ move c p f c' = f c' ∧ c' ≠ c.
Proof. unfold move. destruct (decide (c' = c)); tauto. Qed.

Ltac moves :=
  repeat match goal with
  | H : context [move ?c ?p ?f ?c'] |- _ =>
      destruct (move_case c p f c') as [[Hm ->]|[Hm ?]]; rewrite Hm in H; clear Hm
  | |- context [move ?c ?p ?f ?c'] =>
      destruct (move_case c p f c') as [[Hm ->]|[Hm ?]]; rewrite Hm; clear Hm
  end.

Lemma lock_inv_holds l f c : lock_inv (Config l f) → holds c l = bool_decide (f c = Inside).
Proof.
  intros [_ _ Hw Hi Hc]. cbn in *. unfold holds. destruct (decide (f c = Inside)) as [E|E].
  - rewrite (Hw c) by (by rewrite E). by rewrite !bool_decide_eq_true_2 by auto.
  - rewrite (bool_decide_eq_false_2 (f c = Inside)) by done.
    rewrite bool_decide_eq_false_2; [by rewrite andb_false_r|]. intros H. by apply E, Hc.
Qed.

Lemma lock_step_inv s s' : lock_step s s' → lock_inv s → lock_inv s'.
Proof.
  intros Hst Hinv. pose proof Hinv as [Ha Ho Hw Hi Hc].
  destruct Hst as [c l f Hf|c l f cp r cp' l' Hf Hx|c l f stack Hf|c l f Hf|c l f Hf]; cbn in *.
  - rewrite (lock_inv_holds l f c Hinv), Hf. cbn.
    split; cbn; intros; moves; eauto; try done. specialize (Hc _ H). congruence.
  - unfold xchg1 in Hx. cbn in Hx. injection Hx as <- _ <-. destruct (locked l =? 0) eqn:E; zb.
    + assert (Hno : ∀ c', owns (f c') = false).
      { intros c'. destruct (owns (f c')) eqn:Eo; [|done]. apply Hw in Eo. lia. }
      split; cbn; intros; moves; eauto; try done; try (rewrite Hno in *; done).
      * specialize (Hc _ H). congruence.
    + split; cbn; intros; moves; eauto; try done. specialize (Hc _ H). congruence.
  - assert (Hown : owns (f c) = true) by by rewrite Hf.
    split; cbn; intros; moves; eauto; try done; try congruence.
    + destruct (Ho c c0); [done|by rewrite H|done].
  - rewrite (lock_inv_holds l f c Hinv), bool_decide_eq_true_2 by done.
    assert (Hown : owns (f c) = true) by by rewrite Hf.
    split; cbn; intros; moves; eauto; try done.
    + destruct (Ho c c0); [done|by rewrite H|done].
  - assert (Hown : owns (f c) = true) by by rewrite Hf.
    split; cbn; intros; moves; eauto; try done.
    + destruct (Ho c c0); done.
    + specialize (Hc _ H). congruence.
Qed.

Lemma lock_inv_init : lock_inv (Config initlock (λ _, Outside)).
Proof. by split. Qed.

Lemma lock_inv_reachable s s' : rtc lock_step s s' → lock_inv s → lock_inv s'.
Proof. induction 1; eauto using lock_step_inv. Qed.

(** C3 However the CPUs interleave inside [acquire] and [release], at most one
    of them is in the critical section, none of them ever panics, and [holding]
    is true for a CPU exactly while it is inside. *)
Theorem mutual_exclusion s :
  rtc lock_step (Config initlock (λ _, Outside)) s →
  (∀ c c', at_ s c = Inside → at_ s c' = Inside → c = c') ∧
  (∀ c, at_ s c ≠ Panicked) ∧
  (∀ c, holds c (lk s) = bool_decide (at_ s c = Inside)).
Proof.
  intros Hr. pose proof (lock_inv_reachable _ _ Hr lock_inv_init) as Hinv. split_and!.
  - intros c c' Hc Hc'. apply (li_one _ Hinv); by rewrite ?Hc, ?Hc'.
  - apply Hinv.
  - intros c. destruct s. by apply lock_inv_holds.
Qed.

Lemma mutual_exclusion_witness :
  ∃ s, rtc lock_step (Config initlock (λ _, Outside)) s ∧ at_ s 0%nat = Inside ∧
       ∀ c, at_ s c = Inside → c = 0%nat.
Proof.
  assert (Hr : ∃ s, rtc lock_step (Config initlock (λ _, Outside)) s ∧ at_ s 0%nat = Inside).
  { eexists. split.
    - eapply rtc_l; [apply (st_acquire 0); reflexivity|]. cbn.
      eapply rtc_l; [eapply (st_xchg 0 _ _ (Cpu 0 false false)); reflexivity|]. cbn.
      eapply rtc_l; [apply (st_record 0 _ _ []); reflexivity|]. apply rtc_refl.
    - reflexivity. }
  destruct Hr as (s & Hr & H0). exists s. split_and!; [exact Hr|exact H0|].
  destruct (mutual_exclusion s Hr) as [Hm _]. intros c Hc. exact (Hm c 0%nat Hc H0).
Defined.
