(* ===== verification/Sleeplock.v ===== *)
(** * Sleep locks (sleeplock.c)

    The operations on one sleep lock, run by the process [pid]; [chan] is the
    address of the lock, on which waiters sleep.  [sleep] releases the inner spin
    lock and gives up the CPU; the process that is woken runs the loop of
    [acquiresleep] again from its test, which is what running [acquiresleep]
    again does.  The channels passed to [wakeup] are recorded for the scheduler. *)

From Stdlib Require Import ZArith Lia.
From stdpp Require Import base numbers list strings.
From S2P Require Import Prelude.

Record sleeplock : Type := SleepLock {
  sl_locked : bool;
  sl_lk : bool;
  sl_pid : Z
}.

(** A lock and the channels woken so far. *)
Record slview : Type := SlView {
  sv_lock : sleeplock;
  sv_woken : list Z
}.

Definition initsleeplock : sleeplock := SleepLock false false 0.

Definition sv_held (v : slview) : bool := sl_lk (sv_lock v).
Definition sv_set_held (b : bool) (v : slview) : slview :=
  SlView (SleepLock (sl_locked (sv_lock v)) b (sl_pid (sv_lock v))) (sv_woken v).

Definition acquiresleep (chan pid : Z) : M slview unit :=
  acquire sv_held sv_set_held ;;;
  locked <- gets (λ v, sl_locked (sv_lock v)) ;;
  if (locked : bool) then (λ v, Sleep chan (sv_set_held false v))
  else
    modify (λ v, SlView (SleepLock true (sl_lk (sv_lock v)) pid) (sv_woken v)) ;;;
    release sv_held sv_set_held.

Definition releasesleep (chan : Z) : M slview unit :=
  acquire sv_held sv_set_held ;;;
  modify (λ v, SlView (SleepLock false (sl_lk (sv_lock v)) 0) (sv_woken v)) ;;;
  modify (λ v, SlView (sv_lock v) (sv_woken v ++ [chan])) ;;;
  release sv_held sv_set_held.

Definition holdingsleep (pid : Z) : M slview bool :=
  acquire sv_held sv_set_held ;;;
  r <- gets (λ v, sl_locked (sv_lock v) && (sl_pid (sv_lock v) =? pid)) ;;
  release sv_held sv_set_held ;;;
  ret r.

(** The inner spin lock is free whenever none of the operations runs. *)
Lemma acquiresleep_run chan pid l w :
  sl_lk l = false →
  acquiresleep chan pid (SlView l w) =
    if sl_locked l then Sleep chan (SlView l w)
    else Done tt (SlView (SleepLock true false pid) w).
Proof. destruct l as [b k p]. cbn. intros ->. by destruct b. Qed.

Lemma releasesleep_run chan l w :
  sl_lk l = false → releasesleep chan (SlView l w) = Done tt (SlView (SleepLock false false 0) (w ++ [chan])).
Proof. destruct l as [b k p]. cbn. by intros ->. Qed.

Lemma holdingsleep_run pid l w :
  sl_lk l = false →
  holdingsleep pid (SlView l w) = Done (sl_locked l && (sl_pid l =? pid)) (SlView l w).
Proof. destruct l as [b k p]. cbn. by intros ->. Qed.
