(* ===== verification/Bio.v ===== *)
(** * Buffer cache (bio.c, buf.h) and the disk driver's interface

    Buffers are the elements of [bcache.buf], named by their index; the circular
    list through [prev] and [next] is the list [lru] of indices, most recently
    used first.  A block is its [BSIZE] bytes.  The class [BlockDriver] states
    what bio.c relies on of [iderw]; [Memide.v] and [Ide.v] discharge it. *)

From Stdlib Require Import ZArith Lia.
From stdpp Require Import base numbers list strings.
From S2P Require Import Prelude Mem Sleeplock.

Definition BSIZE : Z := 512.
Definition MAXOPBLOCKS : Z := 10.
Definition LOGSIZE : Z := MAXOPBLOCKS * 3.
Definition NBUF : nat := 30.
Definition FSSIZE : Z := 1000.
Definition B_VALID : Z := 2.
Definition B_DIRTY : Z := 4.

(** The bytes of a block, by offset. *)
Definition blk : Type := mem.

Record buf : Type := Buf {
  b_flags : Z;
  b_dev : Z;
  b_blockno : Z;
  b_lock : sleeplock;
  b_refcnt : Z;
  b_data : blk
}.

(** The cache, the driver's queue, the disks and the writes they received. *)
Record bstate : Type := BState {
  bc_lock : bool;
  bufs : list buf;
  lru : list nat;
  curpid : Z;
  woken : list Z;
  ide_lock : bool;
  idequeue : list nat;
  havedisk1 : bool;
  disksize : Z;
  disk : Z → Z → blk;
  wlog : list (Z * Z * blk)
}.

Definition set_bc_lock (b : bool) (s : bstate) : bstate :=
  BState b (bufs s) (lru s) (curpid s) (woken s) (ide_lock s) (idequeue s) (havedisk1 s) (disksize s) (disk s) (wlog s).
Definition set_bufs (l : list buf) (s : bstate) : bstate :=
  BState (bc_lock s) l (lru s) (curpid s) (woken s) (ide_lock s) (idequeue s) (havedisk1 s) (disksize s) (disk s) (wlog s).
Definition set_lru (l : list nat) (s : bstate) : bstate :=
  BState (bc_lock s) (bufs s) l (curpid s) (woken s) (ide_lock s) (idequeue s) (havedisk1 s) (disksize s) (disk s) (wlog s).
Definition set_woken (w : list Z) (s : bstate) : bstate :=
  BState (bc_lock s) (bufs s) (lru s) (curpid s) w (ide_lock s) (idequeue s) (havedisk1 s) (disksize s) (disk s) (wlog s).

Definition buf0 : buf := Buf 0 0 0 initsleeplock 0 (λ _, 0).
Definition the_buf (i : nat) (s : bstate) : buf := default buf0 (bufs s !! i).

Definition upd_buf (i : nat) (f : buf → buf) (s : bstate) : bstate := set_bufs (alter f i (bufs s)) s.

Definition set_flags (f : Z) (b : buf) : buf := Buf f (b_dev b) (b_blockno b) (b_lock b) (b_refcnt b) (b_data b).
Definition set_refcnt (r : Z) (b : buf) : buf := Buf (b_flags b) (b_dev b) (b_blockno b) (b_lock b) r (b_data b).
Definition set_data (d : blk) (b : buf) : buf := Buf (b_flags b) (b_dev b) (b_blockno b) (b_lock b) (b_refcnt b) d.
Definition set_block (dev blockno : Z) (b : buf) : buf := Buf (b_flags b) dev blockno (b_lock b) (b_refcnt b) (b_data b).
Definition set_b_lock (l : sleeplock) (b : buf) : buf := Buf (b_flags b) (b_dev b) (b_blockno b) l (b_refcnt b) (b_data b).

(** The addresses, relative to [bcache.buf], of buffer [i] and of its lock: the
    channels to sleep on. *)
Definition buf_chan (i : nat) : Z := 604 * Z.of_nat i.
Definition lock_chan (i : nat) : Z := buf_chan i + 12.

Definition on_lock {A} (i : nat) (m : M slview A) : M bstate A :=
  lift (λ s, SlView (b_lock (the_buf i s)) (woken s))
       (λ v s, set_woken (sv_woken v) (upd_buf i (set_b_lock (sv_lock v)) s)) m.

Definition dirty (b : buf) : bool := negb (Z.land (b_flags b) B_DIRTY =? 0).
Definition valid (b : buf) : bool := negb (Z.land (b_flags b) B_VALID =? 0).

(** [iderw] has nothing to do for a buffer that is valid and clean. *)
Definition in_sync (b : buf) : bool := Z.land (b_flags b) (Z.lor B_VALID B_DIRTY) =? B_VALID.

Definition upd_disk (dev blockno : Z) (d : blk) (dk : Z → Z → blk) : Z → Z → blk :=
  λ dv bn, if (dv =? dev) && (bn =? blockno) then d else dk dv bn.

(** A block reaches the disk. *)
Definition write_block (dev blockno : Z) (d : blk) (s : bstate) : bstate :=
  BState (bc_lock s) (bufs s) (lru s) (curpid s) (woken s) (ide_lock s) (idequeue s) (havedisk1 s)
         (disksize s) (upd_disk dev blockno d (disk s)) (wlog s ++ [(dev, blockno, d)]).

(** Effect of a transfer: a dirty buffer is written, another one is read. *)
Definition transfer (i : nat) (s : bstate) : bstate :=
  let b := the_buf i s in
  let f := Z.land (Z.lor (b_flags b) B_VALID) (Z.lnot B_DIRTY) in
  if dirty b then
    write_block (b_dev b) (b_blockno b) (b_data b) (upd_buf i (set_flags f) s)
  else upd_buf i (λ b, set_flags f (set_data (disk s (b_dev b) (b_blockno b)) b)) s.

(** [binit] on the zeroed cache of the loaded kernel: each buffer in turn is
    linked in at the head. *)
Fixpoint binit_loop (n : nat) (i : nat) (l : list nat) : list nat :=
  match n with
  | O => l
  | S n' => binit_loop n' (S i) (i :: l)
  end.

Definition binit : M bstate unit :=
  modify (λ s, set_lru (binit_loop NBUF 0 []) (set_bufs (map (set_b_lock initsleeplock) (bufs s)) s)).

(** The two scans of [bget]. *)
Fixpoint find_cached (l : list nat) (dev blockno : Z) (s : bstate) : option nat :=
  match l with
  | [] => None
  | i :: l' =>
      if (b_dev (the_buf i s) =? dev) && (b_blockno (the_buf i s) =? blockno) then Some i
      else find_cached l' dev blockno s
  end.

Fixpoint find_unused (l : list nat) (s : bstate) : option nat :=
  match l with
  | [] => None
  | i :: l' =>
      if (b_refcnt (the_buf i s) =? 0) && negb (dirty (the_buf i s)) then Some i
      else find_unused l' s
  end.

Definition bget (dev blockno : Z) : M bstate nat :=
  acquire bc_lock set_bc_lock ;;;
  l <- gets lru ;;
  cached <- gets (find_cached l dev blockno) ;;
  match cached with
  | Some i =>
      modify (λ s, upd_buf i (set_refcnt (u32 (b_refcnt (the_buf i s) + 1))) s) ;;;
      release bc_lock set_bc_lock ;;;
      p <- gets curpid ;;
      on_lock i (acquiresleep (lock_chan i) p) ;;;
      ret i
  | None =>
      unused <- gets (find_unused (reverse l)) ;;
      match unused with
      | Some i =>
          modify (upd_buf i (λ b, set_refcnt 1 (set_flags 0 (set_block dev blockno b)))) ;;;
          release bc_lock set_bc_lock ;;;
          p <- gets curpid ;;
          on_lock i (acquiresleep (lock_chan i) p) ;;;
          ret i
      | None => panic "bget: no buffers"
      end
  end.

(** What bio.c relies on of a driver: for a locked buffer of an existing block
    ([drv_good]) that is not in sync, [iderw] returns with the transfer done. *)
Class BlockDriver (iderw : nat → M bstate unit) : Type := {
  drv_good : bstate → Z → Z → bool;
  drv_frame : ∀ s s' dev blockno, havedisk1 s' = havedisk1 s → disksize s' = disksize s →
    drv_good s' dev blockno = drv_good s dev blockno;
  drv_rw : ∀ s i b, bufs s !! i = Some b →
    ide_lock s = false → idequeue s = [] →
    b_lock b = SleepLock true false (curpid s) →
    in_sync b = false → drv_good s (b_dev b) (b_blockno b) = true →
    iderw i s = Done tt (transfer i s)
}.

Section bio.
(** [iderw], from the disk driver the kernel is linked with. *)
Context (iderw : nat → M bstate unit).

Definition bread (dev blockno : Z) : M bstate nat :=
  i <- bget dev blockno ;;
  v <- gets (λ s, valid (the_buf i s)) ;;
  (if negb v then iderw i else ret tt) ;;;
  ret i.

Definition bwrite (i : nat) : M bstate unit :=
  p <- gets curpid ;;
  h <- on_lock i (holdingsleep p) ;;
  if negb h then panic "bwrite"
  else
    modify (λ s, upd_buf i (set_flags (Z.lor (b_flags (the_buf i s)) B_DIRTY)) s) ;;;
    iderw i.
End bio.

Definition brelse (i : nat) : M bstate unit :=
  p <- gets curpid ;;
  h <- on_lock i (holdingsleep p) ;;
  if negb h then panic "brelse"
  else
    on_lock i (releasesleep (lock_chan i)) ;;;
    acquire bc_lock set_bc_lock ;;;
    modify (λ s, upd_buf i (set_refcnt (u32 (b_refcnt (the_buf i s) - 1))) s) ;;;
    r <- gets (λ s, b_refcnt (the_buf i s)) ;;
    when (r =? 0) (modify (λ s, set_lru (i :: filter (λ j, j ≠ i) (lru s)) s)) ;;;
    release bc_lock set_bc_lock.

(** ** Basic facts about buffers *)

Lemma the_buf_lookup i s b : bufs s !! i = Some b → the_buf i s = b.
Proof. unfold the_buf. by intros ->. Qed.

Lemma alter_insert {A} (f : A → A) (l : list A) i x :
  l !! i = Some x → alter f i l = <[i := f x]> l.
Proof.
  intros Hx. apply list_eq. intros j. rewrite list_lookup_alter, list_lookup_insert.
  apply lookup_lt_Some in Hx as Hlt. destruct (decide (i = j)) as [->|Hne].
  - by rewrite Hx, decide_True.
  - by rewrite decide_False by tauto.
Qed.

(** Storing buffer [i]. *)
Definition put_buf (i : nat) (b : buf) (s : bstate) : bstate := set_bufs (<[i := b]> (bufs s)) s.

Lemma upd_buf_put i f s b : bufs s !! i = Some b → upd_buf i f s = put_buf i (f b) s.
Proof. intros Hb. unfold upd_buf, put_buf. by rewrite (alter_insert f _ i b). Qed.

Lemma put_buf_same i s b : bufs s !! i = Some b → put_buf i b s = s.
Proof. intros Hb. unfold put_buf. rewrite list_insert_id by done. by destruct s. Qed.

Lemma put_put i b b' s : put_buf i b (put_buf i b' s) = put_buf i b s.
Proof. unfold put_buf, set_bufs. cbn. by rewrite list_insert_insert_eq. Qed.

Lemma put_lookup i b b0 s : bufs s !! i = Some b0 → bufs (put_buf i b s) !! i = Some b.
Proof. intros H%lookup_lt_Some. cbn. by apply list_lookup_insert_eq. Qed.

Lemma put_the i b b0 s : bufs s !! i = Some b0 → the_buf i (put_buf i b s) = b.
Proof. intros H. apply the_buf_lookup. by eapply put_lookup. Qed.

Lemma on_lock_same {A} i (m : M slview A) s b r :
  bufs s !! i = Some b → m (SlView (b_lock b) (woken s)) = Done r (SlView (b_lock b) (woken s)) →
  on_lock i m s = Done r s.
Proof.
  intros Hb Hm. unfold on_lock, lift. rewrite (the_buf_lookup i s b Hb), Hm. f_equal. cbn.
  rewrite (upd_buf_put _ _ _ b Hb). replace (set_b_lock (b_lock b) b) with b by by destruct b.
  rewrite put_buf_same by done. by destruct s.
Qed.
