(* ===== verification/BioFacts.v ===== *)
(** * Theorems about the buffer cache (bio.c)

    [bio_inv H s] describes a cache in which the running process holds exactly
    the buffers [H].  [cview] is the content of a block as the cache shows it: a
    valid buffer's data, or the disk's. *)

From Stdlib Require Import ZArith Lia.
From stdpp Require Import base numbers list strings.
From S2P Require Import Prelude Mem Sleeplock Bio.

Record bio_inv (H : list nat) (s : bstate) : Prop := {
  bi_len : length (bufs s) = NBUF;
  bi_lru : lru s ≡ₚ seq 0 NBUF;
  bi_bc : bc_lock s = false;
  bi_ide : ide_lock s = false ∧ idequeue s = [];
  bi_H : NoDup H ∧ ∀ i, i ∈ H → (i < NBUF)%nat;
  bi_held : ∀ i b, bufs s !! i = Some b → i ∈ H →
    b_refcnt b = 1 ∧ b_lock b = SleepLock true false (curpid s) ∧ (b_flags b = 2 ∨ b_flags b = 6);
  bi_idle : ∀ i b, bufs s !! i = Some b → i ∉ H →
    b_refcnt b = 0 ∧ b_lock b = SleepLock false false 0 ∧
    (b_flags b = 0 ∨ b_flags b = 6 ∨ b_flags b = 2 ∧ b_data b = disk s (b_dev b) (b_blockno b));
  bi_uniq : ∀ i j bi bj, bufs s !! i = Some bi → bufs s !! j = Some bj →
    b_dev bi ≠ 0 → b_dev bi = b_dev bj → b_blockno bi = b_blockno bj → i = j
}.

Definition cview (s : bstate) (dev blockno : Z) : blk :=
  match find_cached (lru s) dev blockno s with
  | Some i => if valid (the_buf i s) then b_data (the_buf i s) else disk s dev blockno
  | None => disk s dev blockno
  end.

Definition is_block (dev blockno : Z) (b : buf) : Prop := b_dev b = dev ∧ b_blockno b = blockno.

Lemma find_cached_spec l dev blockno s :
  match find_cached l dev blockno s with
  | Some i => i ∈ l ∧ is_block dev blockno (the_buf i s)
  | None => ∀ i, i ∈ l → ¬ is_block dev blockno (the_buf i s)
  end.
Proof.
  induction l as [|i l IH]; cbn [find_cached]; [intros i Hi; by apply elem_of_nil in Hi|].
  destruct ((b_dev (the_buf i s) =? dev) && (b_blockno (the_buf i s) =? blockno)) eqn:E.
  - zb. split; [by left|done].
  - destruct (find_cached l dev blockno s) as [j|].
    + destruct IH as [Hj ?]. split; [by right|done].
    + intros j [->|Hj]%elem_of_cons; [|by apply IH].
      intros [<- <-]. by rewrite !Z.eqb_refl in E.
Qed.

Lemma find_unused_spec l s :
  match find_unused l s with
  | Some i => i ∈ l ∧ b_refcnt (the_buf i s) = 0 ∧ dirty (the_buf i s) = false
  | None => ∀ i, i ∈ l → b_refcnt (the_buf i s) = 0 → dirty (the_buf i s) = true
  end.
Proof.
  induction l as [|i l IH]; cbn [find_unused]; [intros i Hi; by apply elem_of_nil in Hi|].
  destruct ((b_refcnt (the_buf i s) =? 0) && negb (dirty (the_buf i s))) eqn:E.
  - apply andb_true_iff in E as [E1 E2%negb_true_iff]. zb. split; [by left|done].
  - destruct (find_unused l s) as [j|].
    + destruct IH as [Hj ?]. split; [by right|done].
    + intros j [->|Hj]%elem_of_cons; [|by apply IH]. intros Hr. rewrite Hr in E. cbn in E.
      by apply negb_false_iff in E.
Qed.

Lemma find_cached_ext l dev blockno s s' :
  bufs s' = bufs s → find_cached l dev blockno s' = find_cached l dev blockno s.
Proof. intros E. induction l as [|i l IH]; [done|]. cbn [find_cached]. unfold the_buf. by rewrite E, IH. Qed.

Lemma find_unused_ext l s s' : bufs s' = bufs s → find_unused l s' = find_unused l s.
Proof. intros E. induction l as [|i l IH]; [done|]. cbn [find_unused]. unfold the_buf. by rewrite E, IH. Qed.

Section bio_facts.
Context {H : list nat} {s : bstate} (Hinv : bio_inv H s).

Lemma bi_in_lru i : i ∈ lru s ↔ is_Some (bufs s !! i).
Proof using Hinv.
  rewrite (bi_lru _ _ Hinv), lookup_lt_is_Some, (bi_len _ _ Hinv), elem_of_seq. lia.
Qed.

(** The first scan of [bget] finds the buffer of a cached block. *)
Lemma find_cached_lookup dev blockno i b :
  dev ≠ 0 → bufs s !! i = Some b → is_block dev blockno b →
  find_cached (lru s) dev blockno s = Some i.
Proof using Hinv.
  intros Hd Hb [Hbd Hbb]. pose proof (find_cached_spec (lru s) dev blockno s) as Hf.
  destruct (find_cached _ _ _ _) as [j|].
  - destruct Hf as [Hj [Hjd Hjb]]. apply bi_in_lru in Hj as [bj Hj].
    rewrite (the_buf_lookup _ _ _ Hj) in *. f_equal.
    eapply (bi_uniq _ _ Hinv); [done..| | |]; congruence.
  - exfalso. apply (Hf i); [apply bi_in_lru; eauto|]. by rewrite (the_buf_lookup _ _ _ Hb).
Qed.

Lemma find_cached_absent dev blockno :
  find_cached (lru s) dev blockno s = None ↔
  ∀ i b, bufs s !! i = Some b → ¬ is_block dev blockno b.
Proof using Hinv.
  pose proof (find_cached_spec (lru s) dev blockno s) as Hf. split.
  - intros E. rewrite E in Hf. intros i b Hb Hm. apply (Hf i); [apply bi_in_lru; eauto|].
    by rewrite (the_buf_lookup _ _ _ Hb).
  - destruct (find_cached _ _ _ _) as [j|]; [|done]. intros Hn. destruct Hf as [Hj Hm].
    apply bi_in_lru in Hj as [bj Hj]. rewrite (the_buf_lookup _ _ _ Hj) in Hm. by destruct (Hn j bj).
Qed.

Lemma cview_cached dev blockno i b :
  dev ≠ 0 → bufs s !! i = Some b → is_block dev blockno b →
  cview s dev blockno = if valid b then b_data b else disk s dev blockno.
Proof using Hinv.
  intros Hd Hb Hm. unfold cview. rewrite (find_cached_lookup dev blockno i b) by done.
  by rewrite (the_buf_lookup _ _ _ Hb).
Qed.

Lemma cview_absent dev blockno :
  (∀ i b, bufs s !! i = Some b → ¬ is_block dev blockno b) → cview s dev blockno = disk s dev blockno.
Proof using Hinv. intros Hn%find_cached_absent. unfold cview. by rewrite Hn. Qed.
End bio_facts.

(** Flag words of the three states of a buffer. *)
Lemma flags_cases b :
  b_flags b = 0 ∨ b_flags b = 2 ∨ b_flags b = 6 →
  (b_flags b = 0 ∧ valid b = false ∧ dirty b = false ∧ in_sync b = false) ∨
  (b_flags b = 2 ∧ valid b = true ∧ dirty b = false ∧ in_sync b = true) ∨
  (b_flags b = 6 ∧ valid b = true ∧ dirty b = true ∧ in_sync b = false).
Proof.
  unfold valid, dirty, in_sync. intros [-> | [-> | ->]]; [left|right; left|right; right]; done.
Qed.

(** The end of [bget], common to its two scans. *)
Definition bget_tail (i : nat) : M bstate nat :=
  release bc_lock set_bc_lock ;;;
  p <- gets curpid ;;
  on_lock i (acquiresleep (lock_chan i) p) ;;;
  ret i.

Lemma bget_lock i b1 s :
  bc_lock s = true → bufs s !! i = Some b1 → b_lock b1 = SleepLock false false 0 →
  bget_tail i s =
  Done i (set_bc_lock false (put_buf i (set_b_lock (SleepLock true false (curpid s)) b1) s)).
Proof.
  intros Hl Hb Hlk. unfold bget_tail, bind, release, gets, on_lock, lift, ret. rewrite Hl.
  rewrite (the_buf_lookup i (set_bc_lock false s) b1 Hb), Hlk, acquiresleep_run by done.
  cbn [sl_locked sv_woken sv_lock]. rewrite (upd_buf_put i _ (set_bc_lock false s) b1 Hb). by destruct s.
Qed.

Lemma bget_run dev blockno s :
  bc_lock s = false →
  bget dev blockno s =
    match find_cached (lru s) dev blockno s with
    | Some i => bget_tail i (upd_buf i (set_refcnt (u32 (b_refcnt (the_buf i s) + 1))) (set_bc_lock true s))
    | None =>
        match find_unused (reverse (lru s)) s with
        | Some i => bget_tail i (upd_buf i (λ b, set_refcnt 1 (set_flags 0 (set_block dev blockno b))) (set_bc_lock true s))
        | None => Panic "bget: no buffers"
        end
    end.
Proof.
  intros Hl. unfold bget, bind at 1, acquire. rewrite Hl. mrun. set (s1 := set_bc_lock true s).
  change (lru s1) with (lru s). rewrite (find_cached_ext _ _ _ s s1) by done.
  destruct (find_cached _ _ _ _); mrun; [done|]. rewrite (find_unused_ext _ s s1) by done.
  by destruct (find_unused _ _).
Qed.

Lemma bget_spec H s dev blockno :
  bio_inv H s → dev ≠ 0 →
  (∀ i b, bufs s !! i = Some b → is_block dev blockno b → i ∉ H) →
  ((∃ i b, bufs s !! i = Some b ∧ is_block dev blockno b) ∨
   ∃ i b, bufs s !! i = Some b ∧ (i ∉ H) ∧ dirty b = false) →
  ∃ i b0, bufs s !! i = Some b0 ∧ (i ∉ H) ∧
    ((is_block dev blockno b0 ∧
      bget dev blockno s = Done i (put_buf i
        (Buf (b_flags b0) dev blockno (SleepLock true false (curpid s)) 1 (b_data b0)) s)) ∨
     ((∀ j b, bufs s !! j = Some b → ¬ is_block dev blockno b) ∧ dirty b0 = false ∧
      bget dev blockno s = Done i (put_buf i
        (Buf 0 dev blockno (SleepLock true false (curpid s)) 1 (b_data b0)) s))).
Proof.
  intros Hinv Hd HH Hex. rewrite bget_run by apply Hinv. set (s1 := set_bc_lock true s).
  assert (Hput : ∀ i b, set_bc_lock false (put_buf i b s1) = put_buf i b s)
    by (intros i b; unfold put_buf, set_bufs, s1, set_bc_lock; cbn; by rewrite (bi_bc _ _ Hinv)).
  destruct (find_cached (lru s) dev blockno s) as [i|] eqn:E.
  - pose proof (find_cached_spec (lru s) dev blockno s) as Hf. rewrite E in Hf. destruct Hf as [Hi Hm].
    apply (bi_in_lru Hinv) in Hi as [b0 Hb]. rewrite (the_buf_lookup _ _ _ Hb) in Hm.
    destruct (bi_idle _ _ Hinv i b0 Hb) as (Hr & Hlk & _); [by eapply HH|].
    exists i, b0. split_and!; [done|by eapply HH|]. left. split; [done|].
    rewrite (the_buf_lookup i s b0 Hb), Hr. rewrite (upd_buf_put i _ s1 b0 Hb).
    erewrite bget_lock; [|done|by eapply put_lookup|done].
    rewrite put_put, Hput. destruct b0, Hm; cbn in *; by subst.
  - pose proof E as Hno. rewrite (find_cached_absent Hinv) in Hno.
    destruct Hex as [(i & b & Hb & Hm)|(k & bk & Hk & HkH & Hkd)]; [by destruct (Hno i b)|].
    pose proof (find_unused_spec (reverse (lru s)) s) as Hu.
    destruct (find_unused (reverse (lru s)) s) as [i|].
    + destruct Hu as (Hi & Hr & Hdi). rewrite elem_of_reverse in Hi.
      apply (bi_in_lru Hinv) in Hi as [b0 Hb]. rewrite (the_buf_lookup _ _ _ Hb) in *.
      assert (HiH : i ∉ H). { intros Hin. destruct (bi_held _ _ Hinv i b0 Hb Hin) as (? & _). lia. }
      destruct (bi_idle _ _ Hinv i b0 Hb HiH) as (_ & Hlk & _).
      exists i, b0. split_and!; [done..|]. right. split_and!; [done..|].
      rewrite (upd_buf_put i _ s1 b0 Hb).
      erewrite bget_lock; [|done|by eapply put_lookup|done]. rewrite put_put, Hput. done.
    + exfalso. destruct (bi_idle _ _ Hinv k bk Hk HkH) as (Hr & _).
      rewrite <- (the_buf_lookup _ _ _ Hk) in Hkd, Hr. rewrite Hu in Hkd; try done.
      apply elem_of_reverse, (bi_in_lru Hinv). eauto.
Qed.

(** A buffer as its holder has it. *)
Definition held_buf (s : bstate) (f dev blockno : Z) (d : blk) : buf :=
  Buf f dev blockno (SleepLock true false (curpid s)) 1 d.

(** Replacing buffer [i] keeps the invariant when the new one is in order for a
    held buffer and no other buffer has its block. *)
Lemma bio_inv_put H s i b0 f dev blockno d :
  bio_inv H s → bufs s !! i = Some b0 → f = 2 ∨ f = 6 →
  (∀ j b, bufs s !! j = Some b → j ≠ i → ¬ is_block dev blockno b) →
  i ∉ H → bio_inv (i :: H) (put_buf i (held_buf s f dev blockno d) s).
Proof.
  intros Hinv Hb Hf Hoth Hi. pose proof Hinv as [Hlen Hlru Hbc Hide [HN HH] Hheld Hidle Hu].
  assert (Hlook : ∀ j b, bufs (put_buf i (held_buf s f dev blockno d) s) !! j = Some b →
    j = i ∧ b = held_buf s f dev blockno d ∨ j ≠ i ∧ bufs s !! j = Some b).
  { intros j b [(<- & <- & _)|[? ?]]%list_lookup_insert_Some; auto. }
  split; try done.
  - cbn. by rewrite length_insert.
  - split; [by constructor|]. intros j [->|Hj]%elem_of_cons; [|auto].
    apply lookup_lt_Some in Hb. lia.
  - intros j b [(-> & ->)|(Hne & Hbj)]%Hlook; [done|]. intros [?|Hj]%elem_of_cons; [done|].
    by apply (Hheld j).
  - intros j b [(-> & ->)|(Hne & Hbj)]%Hlook [H1 H2]%not_elem_of_cons; [done|]. by apply (Hidle j).
  - intros j k bj bk [(-> & ->)|(Hne & Hbj)]%Hlook [(-> & ->)|(Hne' & Hbk)]%Hlook Hd He Hee; try done.
    + exfalso. by apply (Hoth k bk).
    + exfalso. by apply (Hoth j bj).
    + by eapply Hu.
Qed.

Lemma put_lookup_cases i b0 b s j b1 :
  bufs s !! i = Some b0 → bufs (put_buf i b s) !! j = Some b1 →
  j = i ∧ b1 = b ∨ j ≠ i ∧ bufs s !! j = Some b1.
Proof. intros Hb [(<- & <- & _)|[? ?]]%list_lookup_insert_Some; auto. Qed.

(** What the cache shows after buffer [i] was given to another block, or its
    data changed: the new data for its block, and the same for all others. *)
Lemma cview_put H s i b0 f dev blockno d dev' blockno' :
  bio_inv H s → bufs s !! i = Some b0 → dev ≠ 0 → f = 2 ∨ f = 6 → i ∉ H →
  (∀ j b, bufs s !! j = Some b → j ≠ i → ¬ is_block dev blockno b) →
  is_block dev blockno b0 ∨ b_flags b0 ≠ 6 → dev' ≠ 0 →
  cview (put_buf i (held_buf s f dev blockno d) s) dev' blockno' =
    if (dev' =? dev) && (blockno' =? blockno) then d else cview s dev' blockno'.
Proof.
  intros Hinv Hb Hd Hf Hi Hoth Hkeep Hd'. set (s' := put_buf _ _ _).
  assert (Hinv' : bio_inv (i :: H) s') by (by eapply bio_inv_put).
  destruct ((dev' =? dev) && (blockno' =? blockno)) eqn:E0.
  - zb. rewrite (cview_cached Hinv' dev' blockno' i (held_buf s f dev blockno d));
      [|done|by eapply put_lookup|by split].
    unfold valid. cbn. by destruct Hf as [-> | ->].
  - assert (Hneq : ¬ (dev' = dev ∧ blockno' = blockno)).
    { intros [-> ->]. by rewrite !Z.eqb_refl in E0. }
    clear E0. destruct (find_cached (lru s) dev' blockno' s) as [j|] eqn:E.
    + pose proof (find_cached_spec (lru s) dev' blockno' s) as Hc. rewrite E in Hc. destruct Hc as [Hj Hm].
      apply (bi_in_lru Hinv) in Hj as [bj Hj]. rewrite (the_buf_lookup _ _ _ Hj) in Hm.
      rewrite (cview_cached Hinv dev' blockno' j bj) by done.
      destruct (decide (j = i)) as [->|Hne].
      * simplify_eq. destruct Hkeep as [[E1 E2]|Hn6]; [destruct Hm, Hneq; by subst|].
        destruct (bi_idle _ _ Hinv i b0 Hb Hi) as (_ & _ & Hfl). destruct Hm as [M1 M2].
        rewrite (cview_absent Hinv'); cycle 1.
        { intros k bk Hk [K1 K2]. destruct (put_lookup_cases i b0 _ s k bk Hb Hk) as [[-> ->]|[Hne Hk']].
          - cbn in K1, K2. destruct Hneq. by subst.
          - apply Hne. eapply (bi_uniq _ _ Hinv); [done|done|congruence..]. }
        change (disk s') with (disk s). unfold valid.
        destruct Hfl as [-> |[?|[-> Hdd]]]; [done|lia|]. cbn. by rewrite Hdd, M1, M2.
      * rewrite (cview_cached Hinv' dev' blockno' j bj); [done..| |done].
        cbn. by rewrite list_lookup_insert_ne.
    + rewrite (find_cached_absent Hinv) in E. rewrite (cview_absent Hinv) by done.
      rewrite (cview_absent Hinv'); [done|].
      intros k bk Hk Hmk. destruct (put_lookup_cases i b0 _ s k bk Hb Hk) as [[-> ->]|[Hne Hk']].
      * destruct Hmk as [K1 K2]. cbn in K1, K2. destruct Hneq. by subst.
      * by eapply E.
Qed.

(** Two caches show the same content of a block when its buffer, if any, has the
    same data in both. *)
Lemma cview_ext H s H' s' dev blockno :
  bio_inv H s → bio_inv H' s' → dev ≠ 0 → disk s' dev blockno = disk s dev blockno →
  (∀ i b, bufs s !! i = Some b → is_block dev blockno b →
     ∃ b', bufs s' !! i = Some b' ∧ is_block dev blockno b' ∧ valid b' = valid b ∧ b_data b' = b_data b) →
  (∀ i b', bufs s' !! i = Some b' → is_block dev blockno b' →
     ∃ b, bufs s !! i = Some b ∧ is_block dev blockno b) →
  cview s' dev blockno = cview s dev blockno.
Proof.
  intros Hinv Hinv' Hd Hdk H1 H2. destruct (find_cached (lru s) dev blockno s) as [j|] eqn:E.
  - pose proof (find_cached_spec (lru s) dev blockno s) as Hc. rewrite E in Hc. destruct Hc as [Hj Hm].
    apply (bi_in_lru Hinv) in Hj as [bj Hj]. rewrite (the_buf_lookup _ _ _ Hj) in Hm.
    destruct (H1 j bj Hj Hm) as (b' & Hj' & Hm' & Hv & Hdd).
    by rewrite (cview_cached Hinv' dev blockno j b'), (cview_cached Hinv dev blockno j bj), Hv, Hdd, Hdk by done.
  - rewrite (find_cached_absent Hinv) in E. rewrite (cview_absent Hinv) by done.
    rewrite (cview_absent Hinv'); [done|]. intros k bk Hk Hm. destruct (H2 k bk Hk Hm) as (b & Hb & Hmb).
    by eapply E.
Qed.

(** The holder of a buffer may change its data and set or clear B_DIRTY. *)
Lemma held_put H s i f dev blockno d f' d' :
  bio_inv H s → i ∈ H → bufs s !! i = Some (held_buf s f dev blockno d) → dev ≠ 0 → f' = 2 ∨ f' = 6 →
  bio_inv H (put_buf i (held_buf s f' dev blockno d') s) ∧
  ∀ dev' blockno', dev' ≠ 0 →
    cview (put_buf i (held_buf s f' dev blockno d') s) dev' blockno' =
      if (dev' =? dev) && (blockno' =? blockno) then d' else cview s dev' blockno'.
Proof.
  intros Hinv Hi Hb Hd Hf. pose proof Hinv as [Hlen Hlru Hbc Hide [HN HH] Hheld Hidle Hu].
  set (s' := put_buf _ _ _).
  assert (Hlook : ∀ j b, bufs s' !! j = Some b →
    j = i ∧ b = held_buf s f' dev blockno d' ∨ j ≠ i ∧ bufs s !! j = Some b)
    by (intros j b; by eapply put_lookup_cases).
  assert (Hinv' : bio_inv H s').
  { split; try done.
    - cbn. by rewrite length_insert.
    - intros j b [(-> & ->)|(Hne & Hbj)]%Hlook; [done|by apply (Hheld j)].
    - intros j b [(-> & ->)|(Hne & Hbj)]%Hlook; [done|by apply (Hidle j)].
    - intros j k bj bk [(-> & ->)|(Hne & Hbj)]%Hlook [(-> & ->)|(Hne' & Hbk)]%Hlook Hdd He Hee; try done.
      + by eapply (Hu i k (held_buf s f dev blockno d)).
      + by eapply (Hu j i bj (held_buf s f dev blockno d)).
      + by eapply Hu. }
  split; [done|]. intros dev' blockno' Hd'.
  assert (Hbi : bufs s' !! i = Some (held_buf s f' dev blockno d')) by (by eapply put_lookup).
  destruct ((dev' =? dev) && (blockno' =? blockno)) eqn:E0.
  - zb. rewrite (cview_cached Hinv' dev' blockno' i _ Hd' Hbi) by (by split).
    unfold valid. cbn. by destruct Hf as [-> | ->].
  - assert (Hneq : ¬ (dev' = dev ∧ blockno' = blockno)).
    { intros [-> ->]. by rewrite !Z.eqb_refl in E0. }
    eapply cview_ext; [exact Hinv|exact Hinv'|done|done| |].
    + intros j b Hj [M1 M2]. exists b. split_and!; try done. cbn. rewrite list_lookup_insert_ne; [done|].
      intros ->. simplify_eq. cbn in *. by destruct Hneq.
    + intros j b [(-> & ->)|(Hne & Hbj)]%Hlook [M1 M2]; [cbn in *; by destruct Hneq|by exists b].
Qed.

Lemma write_block_inv H s i b dev blockno d :
  bio_inv H s → i ∈ H → bufs s !! i = Some b → is_block dev blockno b → dev ≠ 0 →
  bio_inv H (write_block dev blockno d s) ∧
  ∀ dev' blockno', dev' ≠ 0 → cview (write_block dev blockno d s) dev' blockno' = cview s dev' blockno'.
Proof.
  intros Hinv Hi Hb [M1 M2] Hd. pose proof Hinv as [Hlen Hlru Hbc Hide HNH Hheld Hidle Hu].
  assert (Hdisk : ∀ j bj, bufs s !! j = Some bj → j ∉ H →
    upd_disk dev blockno d (disk s) (b_dev bj) (b_blockno bj) = disk s (b_dev bj) (b_blockno bj)).
  { intros j bj Hj HjH. unfold upd_disk. case_if; [|done..]. destruct HjH.
    by rewrite <- (Hu i j b bj) by (done || congruence). }
  assert (Hinv' : bio_inv H (write_block dev blockno d s)).
  { split; try done. intros j bj Hj HjH. cbn. rewrite (Hdisk j bj) by done. by apply (Hidle j). }
  split; [done|]. intros dev' blockno' Hd'.
  destruct (decide (dev' = dev ∧ blockno' = blockno)) as [[-> ->]|Hne].
  - rewrite (cview_cached Hinv' dev blockno i b), (cview_cached Hinv dev blockno i b) by done.
    destruct (Hheld i b Hb Hi) as (_ & _ & F). unfold valid. by destruct F as [-> | ->].
  - eapply cview_ext; [exact Hinv|exact Hinv'|done| | |].
    + cbn. unfold upd_disk. case_if; [|done..]. tauto.
    + intros j bj Hj Hm. by exists bj.
    + intros j bj Hj Hm. by exists bj.
Qed.

Section with_driver.
Context {iderw : nat → M bstate unit} `{Hdrv : BlockDriver iderw}.

Lemma bread_spec H s dev blockno :
  bio_inv H s → dev ≠ 0 → drv_good s dev blockno = true →
  (∀ i b, bufs s !! i = Some b → is_block dev blockno b → i ∉ H) →
  ((∃ i b, bufs s !! i = Some b ∧ is_block dev blockno b) ∨
   ∃ i b, bufs s !! i = Some b ∧ (i ∉ H) ∧ dirty b = false) →
  ∃ i b0 f, bufs s !! i = Some b0 ∧ (i ∉ H) ∧
    (f = 6 ∧ b_flags b0 = 6 ∧ is_block dev blockno b0 ∨ f = 2 ∧ b_flags b0 ≠ 6) ∧
    bread iderw dev blockno s = Done i (put_buf i (held_buf s f dev blockno (cview s dev blockno)) s) ∧
    (∀ j b, bufs s !! j = Some b → j ≠ i → ¬ is_block dev blockno b).
Proof using Hdrv.
  intros Hinv Hd Hgood HH Hex. destruct (bget_spec H s dev blockno Hinv Hd HH Hex)
    as (i & b0 & Hb & Hi & Hcase). unfold bread.
  destruct (bi_idle _ _ Hinv i b0 Hb Hi) as (Hr & Hlk & Hfl).
  assert (Hread : ∀ b1, b_flags b1 = 0 → b_dev b1 = dev → b_blockno b1 = blockno →
    b_lock b1 = SleepLock true false (curpid s) → b_refcnt b1 = 1 →
    (v <- gets (λ s, valid (the_buf i s)) ;; (if negb v then iderw i else ret tt) ;;; ret i) (put_buf i b1 s) =
    Done i (put_buf i (held_buf s 2 dev blockno (disk s dev blockno)) s)).
  { intros b1 H1 H2 H3 H4 H5. mrun. rewrite (put_the i b1 b0 s Hb).
    assert (valid b1 = false) as -> by (unfold valid; by rewrite H1). mrun.
    rewrite (bind_run _ _ _ _ _ (drv_rw (put_buf i b1 s) i b1 ltac:(by eapply put_lookup)
      (proj1 (bi_ide _ _ Hinv)) (proj2 (bi_ide _ _ Hinv)) H4 ltac:(unfold in_sync; by rewrite H1)
      ltac:(rewrite H2, H3, (drv_frame s); done))).
    unfold transfer. rewrite (put_the i b1 b0 s Hb).
    assert (dirty b1 = false) as -> by (unfold dirty; by rewrite H1). cbv iota.
    rewrite (upd_buf_put i _ (put_buf i b1 s) b1) by (by eapply put_lookup). rewrite put_put.
    unfold ret. do 2 f_equal. unfold held_buf. destruct b1; cbn in *. by subst. }
  assert (Hoth : ∀ j b, bufs s !! j = Some b → is_block dev blockno b → is_block dev blockno b0 → j = i).
  { intros j b Hj [E1 E2] [E3 E4]. eapply (bi_uniq _ _ Hinv); [done|done|congruence..]. }
  destruct Hcase as [[Hm Hrun]|(Hno & Hdi & Hrun)].
  - pose proof (cview_cached Hinv dev blockno i b0 Hd Hb Hm) as Hv.
    assert (Hfl3 : b_flags b0 = 0 ∨ b_flags b0 = 2 ∨ b_flags b0 = 6) by tauto.
    destruct (flags_cases b0 Hfl3) as [(F & V & D & _)|[(F & V & D & _)|(F & V & D & _)]]; rewrite V in Hv.
    + exists i, b0, 2. split_and!; try done; [right; split; [done|lia]| |].
      * mcall Hrun. rewrite Hv, F. by apply (Hread (Buf 0 dev blockno _ 1 _)).
      * intros j b Hj Hne Hmj. apply Hne. by eapply Hoth.
    + exists i, b0, 2. split_and!; try done; [right; split; [done|lia]| |].
      * mcall Hrun. rewrite (put_the i _ b0 s Hb). unfold valid at 1. cbn [b_flags]. rewrite F. cbn. by rewrite Hv.
      * intros j b Hj Hne Hmj. apply Hne. by eapply Hoth.
    + exists i, b0, 6. split_and!; try done; [by left| |].
      * mcall Hrun. rewrite (put_the i _ b0 s Hb). unfold valid at 1. cbn [b_flags]. rewrite F. cbn. by rewrite Hv.
      * intros j b Hj Hne Hmj. apply Hne. by eapply Hoth.
  - exists i, b0, 2. split_and!; try done.
    + right. split; [done|]. intros F. unfold dirty in Hdi. by rewrite F in Hdi.
    + mcall Hrun. rewrite (cview_absent Hinv) by done. by apply (Hread (Buf 0 dev blockno _ 1 _)).
    + intros j b Hj _. by eapply Hno.
Qed.

Lemma bwrite_spec H s i f dev blockno d :
  bio_inv H s → i ∈ H → bufs s !! i = Some (held_buf s f dev blockno d) → dev ≠ 0 →
  drv_good s dev blockno = true →
  bwrite iderw i s = Done tt (write_block dev blockno d (put_buf i (held_buf s 2 dev blockno d) s)).
Proof using Hdrv.
  intros Hinv Hi Hb Hd Hgood. destruct (bi_held _ _ Hinv i _ Hb Hi) as (_ & _ & Hf). cbn in Hf.
  unfold bwrite. mrun. rewrite (bind_run _ _ _ _ _ (on_lock_same i _ s _ _ Hb
    ltac:(apply holdingsleep_run; done))).
  cbn [held_buf b_lock sl_locked sl_pid andb]. rewrite Z.eqb_refl. mrun.
  rewrite (the_buf_lookup i s _ Hb), (upd_buf_put i _ s _ Hb). cbn [set_flags held_buf b_flags b_dev b_blockno b_lock b_refcnt b_data].
  assert (Z.lor f B_DIRTY = 6) as -> by (by destruct Hf as [-> | ->]).
  set (b6 := Buf 6 dev blockno (SleepLock true false (curpid s)) 1 d). assert (H6 : bufs (put_buf i b6 s) !! i = Some b6) by (by eapply put_lookup).
  rewrite (drv_rw (put_buf i b6 s) i b6); [|done|apply Hinv|apply Hinv|done|done|by rewrite (drv_frame s)].
  unfold transfer. rewrite (the_buf_lookup i _ _ H6). change (dirty b6) with true. cbv iota.
  by rewrite (upd_buf_put i _ _ b6 H6), put_put.
Qed.
End with_driver.

Lemma lru_move (i : nat) (l : list nat) : i ∈ l → NoDup l → i :: filter (λ j, j ≠ i) l ≡ₚ l.
Proof.
  intros Hi Hn. apply list_elem_of_split in Hi as (l1 & l2 & ->).
  apply NoDup_app_cons_comm in Hn as [Hni _]. apply not_elem_of_app in Hni as [H1 H2].
  rewrite filter_app, filter_cons_False by (intros Hx; by apply Hx).
  assert (Hf : ∀ k : list nat, i ∉ k → filter (λ j, j ≠ i) k = k).
  { intros k Hk. induction k as [|j k IH]; [done|]. apply not_elem_of_cons in Hk as [Hj Hk].
    rewrite filter_cons_True by congruence. by rewrite IH. }
  rewrite !Hf by done. by rewrite Permutation_middle.
Qed.

(** The state [brelse] leaves. *)
Definition released (i : nat) (f dev blockno : Z) (d : blk) (s : bstate) : bstate :=
  set_lru (i :: filter (λ j, j ≠ i) (lru s))
    (set_woken (woken s ++ [lock_chan i])
       (put_buf i (Buf f dev blockno (SleepLock false false 0) 0 d) s)).

Lemma brelse_run H s i f dev blockno d :
  bio_inv H s → i ∈ H → bufs s !! i = Some (held_buf s f dev blockno d) →
  brelse i s = Done tt (released i f dev blockno d s).
Proof.
  intros Hinv Hi Hb. unfold brelse. mrun.
  rewrite (bind_run _ _ _ _ _ (on_lock_same i _ s _ _ Hb ltac:(apply holdingsleep_run; done))).
  cbn [held_buf b_lock sl_locked sl_pid andb]. rewrite Z.eqb_refl. mrun.
  unfold on_lock at 1, lift at 1, bind at 1. rewrite (the_buf_lookup i s _ Hb).
  cbn [held_buf b_lock]. rewrite releasesleep_run by done. cbn [sv_woken sv_lock].
  rewrite (upd_buf_put i _ s _ Hb). cbn [set_b_lock held_buf b_flags b_dev b_blockno b_lock b_refcnt b_data].
  set (b1 := Buf f dev blockno (SleepLock false false 0) 1 d). unfold bind, acquire, release, modify, gets, when, ret.
  cbn [bc_lock set_woken put_buf set_bufs]. rewrite (bi_bc _ _ Hinv).
  set (s1 := set_bc_lock true _). assert (H1 : bufs s1 !! i = Some b1) by (by eapply put_lookup).
  rewrite (the_buf_lookup i s1 b1 H1), (upd_buf_put i _ s1 b1 H1), (put_the i _ b1 s1 H1).
  cbn [set_refcnt b_refcnt b1]. change (u32 (1 - 1)) with 0. cbn [Z.eqb]. cbn.
  unfold s1, released, set_lru, set_woken, put_buf, set_bufs, set_bc_lock.
  cbn [bc_lock bufs lru curpid woken ide_lock idequeue havedisk1 disksize disk wlog].
  by rewrite list_insert_insert_eq, (bi_bc _ _ Hinv).
Qed.

Lemma released_inv H s i f dev blockno d :
  bio_inv (i :: H) s → bufs s !! i = Some (held_buf s f dev blockno d) → dev ≠ 0 →
  f = 6 ∨ d = disk s dev blockno →
  bio_inv H (released i f dev blockno d s) ∧
  ∀ dev' blockno', dev' ≠ 0 → cview (released i f dev blockno d s) dev' blockno' = cview s dev' blockno'.
Proof.
  intros Hinv Hb Hd Hco. pose proof Hinv as [Hlen Hlru Hbc Hide [HN HH] Hheld Hidle Hu].
  apply NoDup_cons in HN as [HiH HN].
  destruct (Hheld i _ Hb ltac:(by left)) as (_ & _ & Hf). cbn in Hf.
  set (s' := released _ _ _ _ _ _). set (b' := Buf f dev blockno (SleepLock false false 0) 0 d) in *.
  assert (Hlook : ∀ j b, bufs s' !! j = Some b → j = i ∧ b = b' ∨ j ≠ i ∧ bufs s !! j = Some b)
    by (intros j b; by eapply (put_lookup_cases i _ b' s)).
  assert (Hbi : bufs s' !! i = Some b') by (by eapply (put_lookup i b')).
  assert (Hinv' : bio_inv H s').
  { split; try done.
    - cbn. by rewrite length_insert.
    - cbn. rewrite <- Hlru. apply lru_move; [|rewrite Hlru; apply NoDup_seq].
      apply (bi_in_lru Hinv). eauto.
    - split; [done|]. intros j Hj. apply HH. by right.
    - intros j b [(-> & ->)|(Hne & Hbj)]%Hlook Hj; [done|]. apply (Hheld j); [done|by right].
    - intros j b [(-> & ->)|(Hne & Hbj)]%Hlook Hj.
      + cbn. split_and!; [done..|]. destruct Hco as [-> | ->]; [auto|]. destruct Hf as [-> | ->]; auto.
      + apply (Hidle j); [done|]. by apply not_elem_of_cons.
    - intros j k bj bk [(-> & ->)|(Hne & Hbj)]%Hlook [(-> & ->)|(Hne' & Hbk)]%Hlook Hdd He Hee; try done.
      + by eapply (Hu i k (held_buf s f dev blockno d)).
      + by eapply (Hu j i bj (held_buf s f dev blockno d)).
      + by eapply Hu. }
  split; [done|]. intros dev' blockno' Hd'. eapply cview_ext; [exact Hinv|exact Hinv'|done|done| |].
  - intros j b Hj Hm. destruct (decide (j = i)) as [->|Hne].
    + simplify_eq. exists b'. by split_and!.
    + exists b. split_and!; try done. cbn. by rewrite list_lookup_insert_ne.
  - intros j b [(-> & ->)|(Hne & Hbj)]%Hlook Hm; [|by exists b]. by eexists.
Qed.

(** ** The buffer cache as its clients use it (bio.c)

    Each operation as a step between invariants: what [bread], a change of the
    data, [log_write]'s pinning, [bwrite] and [brelse] do to the content the
    cache shows ([cview]), to the disk and to the set of pinned blocks. *)


(** A block with modified data that must not leave the cache. *)
Definition pinned (s : bstate) (dev blockno : Z) : Prop :=
  ∃ i b, bufs s !! i = Some b ∧ dirty b = true ∧ is_block dev blockno b.

(** What no operation of bio.c changes. *)
Definition same_env (s s' : bstate) : Prop :=
  curpid s' = curpid s ∧ havedisk1 s' = havedisk1 s ∧ disksize s' = disksize s.

Lemma same_env_trans s1 s2 s3 : same_env s1 s2 → same_env s2 s3 → same_env s1 s3.
Proof. unfold same_env. intros (?&?&?) (?&?&?). split_and!; congruence. Qed.

(** Some buffer can be given to a block that is not cached. *)
Definition available (H : list nat) (s : bstate) : Prop :=
  ∃ i b, bufs s !! i = Some b ∧ (i ∉ H) ∧ dirty b = false.

Definition set_view (dev blockno : Z) (d : blk) (v : Z → Z → blk) : Z → Z → blk :=
  λ dv bn, if (dv =? dev) && (bn =? blockno) then d else v dv bn.

Definition same_view (v v' : Z → Z → blk) : Prop := ∀ dv bn, dv ≠ 0 → v' dv bn = v dv bn.

Lemma pinned_put s i b0 b dev blockno :
  bufs s !! i = Some b0 →
  pinned (put_buf i b s) dev blockno ↔
  (dirty b = true ∧ is_block dev blockno b) ∨
  ∃ j bj, j ≠ i ∧ bufs s !! j = Some bj ∧ dirty bj = true ∧ is_block dev blockno bj.
Proof.
  intros Hb. split.
  - intros (j & bj & Hj & Hd & Hm). destruct (put_lookup_cases i b0 b s j bj Hb Hj) as [[-> ->]|[? ?]];
      [by left|right]. by exists j, bj.
  - intros [[Hd Hm]|(j & bj & Hne & Hj & Hd & Hm)].
    + exists i, b. split; [by eapply put_lookup|done].
    + exists j, bj. split; [|done]. cbn. by rewrite list_lookup_insert_ne.
Qed.

Lemma pinned_split s i b0 dev blockno :
  bufs s !! i = Some b0 →
  pinned s dev blockno ↔
  (dirty b0 = true ∧ is_block dev blockno b0) ∨
  ∃ j bj, j ≠ i ∧ bufs s !! j = Some bj ∧ dirty bj = true ∧ is_block dev blockno bj.
Proof. intros Hb. rewrite <- (put_buf_same i s b0 Hb) at 1. by eapply pinned_put. Qed.

Section steps.
Context {iderw : nat → M bstate unit} `{Hdrv : BlockDriver iderw}.

Lemma bread_step H s dev blockno :
  bio_inv H s → dev ≠ 0 → drv_good s dev blockno = true →
  (∀ i b, i ∈ H → bufs s !! i = Some b → ¬ is_block dev blockno b) →
  pinned s dev blockno ∨ available H s →
  ∃ i f s', bread iderw dev blockno s = Done i s' ∧ bio_inv (i :: H) s' ∧
    bufs s' !! i = Some (held_buf s' f dev blockno (cview s dev blockno)) ∧
    same_view (cview s) (cview s') ∧ disk s' = disk s ∧ wlog s' = wlog s ∧
    (∀ dv bn, pinned s' dv bn ↔ pinned s dv bn) ∧ (f = 6 ↔ pinned s dev blockno) ∧
    (∀ j, j ∈ H → bufs s' !! j = bufs s !! j) ∧ same_env s s'.
Proof using Hdrv.
  intros Hinv Hd Hgood HH Hav.
  destruct (bread_spec H s dev blockno Hinv Hd Hgood) as (i & b0 & f & Hb & Hi & Hf & Hrun & Hoth).
  { intros j b Hj Hm HjH. by apply (HH j b). }
  { destruct Hav as [(j & b & Hj & _ & Hm)|Hav]; [left; by exists j, b|by right]. }
  assert (Hf26 : f = 2 ∨ f = 6) by tauto.
  exists i, f, (put_buf i (held_buf s f dev blockno (cview s dev blockno)) s).
  destruct (bi_idle _ _ Hinv i b0 Hb Hi) as (_ & _ & Hfl).
  assert (Hfl3 : b_flags b0 = 0 ∨ b_flags b0 = 2 ∨ b_flags b0 = 6) by tauto.
  assert (Hno : ∀ P : Prop, (∃ j bj, j ≠ i ∧ bufs s !! j = Some bj ∧ dirty bj = true ∧ is_block dev blockno bj) → P).
  { intros P (j & bj & Hne & Hj & _ & Hm). exfalso. by apply (Hoth j bj Hj Hne). }
  split_and!; try done.
  - by eapply bio_inv_put.
  - by eapply put_lookup.
  - intros dv bn Hdv. rewrite (cview_put H s i b0); try done; [|tauto].
    case_if; by subst.
  - intros dv bn. rewrite (pinned_put s i b0) by done. rewrite (pinned_split s i b0) by done.
    apply or_iff_compat_r. unfold dirty, is_block. cbn.
    destruct Hf as [(-> & -> & -> & ->)|[-> Hn6]]; [done|].
    destruct Hfl3 as [F|[F|F]]; [..|done]; rewrite F; by split; intros [? ?].
  - split.
    + intros ->. destruct Hf as [(_ & F6 & Hm)|[? _]]; [|done]. exists i, b0.
      split_and!; try done. unfold dirty. by rewrite F6.
    + rewrite (pinned_split s i b0) by done. intros [[Hdi Hm]|Hex]; [|by apply Hno].
    destruct Hf as [(? & _)|[_ Hn6]]; [done|]. unfold dirty in Hdi.
    destruct Hfl3 as [F|[F|F]]; rewrite F in *; done.
  - intros j Hj. cbn. rewrite list_lookup_insert_ne; [done|]. by intros ->.
Qed.

(** The holder changes the data of its buffer, or pins it ([f']). *)
Lemma put_step H s i f dev blockno d f' d' :
  bio_inv H s → i ∈ H → bufs s !! i = Some (held_buf s f dev blockno d) → dev ≠ 0 → f' = 2 ∨ f' = 6 →
  let s' := put_buf i (held_buf s f' dev blockno d') s in
  bio_inv H s' ∧ bufs s' !! i = Some (held_buf s' f' dev blockno d') ∧
  same_view (set_view dev blockno d' (cview s)) (cview s') ∧ disk s' = disk s ∧ wlog s' = wlog s ∧
  (∀ dv bn, pinned s' dv bn ↔ if (dv =? dev) && (bn =? blockno) then f' = 6 else pinned s dv bn) ∧
  (∀ j, j ≠ i → bufs s' !! j = bufs s !! j) ∧ same_env s s'.
Proof.
  intros Hinv Hi Hb Hd Hf s'. destruct (held_put H s i f dev blockno d f' d' Hinv Hi Hb Hd Hf) as [Hinv' Hv].
  split_and!; try done.
  - by eapply put_lookup.
  - intros dv bn. unfold s'. rewrite (pinned_put s i _) by done.
    assert (Hdf : dirty (held_buf s f' dev blockno d') = true ↔ f' = 6).
    { unfold dirty. cbn. by destruct Hf as [-> | ->]. }
    destruct ((dv =? dev) && (bn =? blockno)) eqn:E.
    + zb. rewrite Hdf. split; [|by left; split_and!].
      intros [[? _]|(j & bj & Hne & Hj & _ & Hm)]; [done|]. destruct Hne.
      destruct Hm as [M1 M2]. eapply (bi_uniq _ _ Hinv); [done|done|cbn; congruence..].
    + assert (Hneq : ¬ is_block dv bn (held_buf s f' dev blockno d')).
      { intros [M1 M2]. cbn in M1, M2. subst. by rewrite !Z.eqb_refl in E. }
      rewrite (pinned_split s i _) by done. split; (intros [[_ ?]|?]; [done|by right]).
  - intros j Hj. cbn. by rewrite list_lookup_insert_ne.
Qed.

Lemma bwrite_step H s i f dev blockno d :
  bio_inv H s → i ∈ H → bufs s !! i = Some (held_buf s f dev blockno d) → dev ≠ 0 →
  drv_good s dev blockno = true →
  ∃ s', bwrite iderw i s = Done tt s' ∧ bio_inv H s' ∧
    bufs s' !! i = Some (held_buf s' 2 dev blockno d) ∧ same_view (cview s) (cview s') ∧
    disk s' = upd_disk dev blockno d (disk s) ∧ wlog s' = wlog s ++ [(dev, blockno, d)] ∧
    (∀ dv bn, pinned s' dv bn ↔ pinned s dv bn ∧ ¬ (dv = dev ∧ bn = blockno)) ∧
    (∀ j, j ≠ i → bufs s' !! j = bufs s !! j) ∧ same_env s s'.
Proof using Hdrv.
  intros Hinv Hi Hb Hd Hgood. rewrite (bwrite_spec H s i f dev blockno d) by done.
  destruct (put_step H s i f dev blockno d 2 d Hinv Hi Hb Hd) as (Hinv1 & Hb1 & Hv1 & Hdk1 & Hw1 & Hp1 & Hj1 & He1);
    [by left|]. set (s1 := put_buf i _ s) in *.
  destruct (write_block_inv H s1 i _ dev blockno d Hinv1 Hi Hb1) as [Hinv2 Hv2]; [by split|done|].
  assert (Hcd : cview s dev blockno = d).
  { rewrite (cview_cached Hinv dev blockno i _ Hd Hb) by (by split).
    destruct (bi_held _ _ Hinv i _ Hb Hi) as (_ & _ & F). cbn in F. unfold valid. cbn. by destruct F as [-> | ->]. }
  eexists. split_and!; [done|done|done| |done|done| |done|done].
  - intros dv bn Hdv. rewrite Hv2, Hv1 by done. unfold set_view. case_if; by subst.
  - intros dv bn. change (pinned (write_block dev blockno d s1) dv bn) with (pinned s1 dv bn).
    rewrite Hp1. destruct ((dv =? dev) && (bn =? blockno)) eqn:E; [zb|].
    + split; [done|]. intros [_ ?]. tauto.
    + split; [|tauto]. intros Hp. split; [done|]. intros [-> ->]. by rewrite !Z.eqb_refl in E.
Qed.
End steps.

Lemma bio_inv_perm H H' s : H ≡ₚ H' → bio_inv H s → bio_inv H' s.
Proof.
  intros HP [Hlen Hlru Hbc Hide [HN HH] Hheld Hidle Hu]. split; try done.
  - split; [by rewrite <- HP|]. intros i. rewrite <- HP. apply HH.
  - intros i b Hb. rewrite <- HP. by apply Hheld.
  - intros i b Hb. rewrite <- HP. by apply Hidle.
Qed.

Lemma brelse_step H H' s i f dev blockno d :
  bio_inv H s → H ≡ₚ i :: H' → bufs s !! i = Some (held_buf s f dev blockno d) → dev ≠ 0 →
  f = 6 ∨ d = disk s dev blockno →
  ∃ s', brelse i s = Done tt s' ∧ bio_inv H' s' ∧ same_view (cview s) (cview s') ∧
    disk s' = disk s ∧ wlog s' = wlog s ∧ (∀ dv bn, pinned s' dv bn ↔ pinned s dv bn) ∧
    (∀ j, j ≠ i → bufs s' !! j = bufs s !! j) ∧ same_env s s'.
Proof.
  intros Hinv HP Hb Hd Hco.
  rewrite (brelse_run H s i f dev blockno d) by (done || rewrite HP; by left).
  destruct (released_inv H' s i f dev blockno d) as [Hinv' Hv]; [by eapply bio_inv_perm|done..|].
  eexists. split_and!; try done.
  - intros dv bn. set (b' := Buf f dev blockno (SleepLock false false 0) 0 d).
    change (pinned (put_buf i b' s) dv bn ↔ pinned s dv bn).
    rewrite (pinned_put s i _ b') by done. rewrite (pinned_split s i _) by done. reflexivity.
  - intros j Hj. cbn. by rewrite list_lookup_insert_ne.
Qed.
