(* ===== verification/Memide.v ===== *)
(** * The in-memory disk (memide.c)

    The fake IDE driver that keeps the file system image in memory; it performs
    each request at once and satisfies the driver interface of bio.c. *)

From Stdlib Require Import ZArith Lia.
From stdpp Require Import base numbers list strings.
From S2P Require Import Prelude Mem Sleeplock Bio.

(** [fs_img_size] is the size in bytes of the linked image. *)
Definition memide_init (fs_img_size : Z) : M bstate unit := modify (λ s,
  BState (bc_lock s) (bufs s) (lru s) (curpid s) (woken s) (ide_lock s) (idequeue s) (havedisk1 s)
         (fs_img_size / BSIZE) (disk s) (wlog s)).

Definition memide_intr : M bstate unit := ret tt.

Definition memide_rw (i : nat) : M bstate unit :=
  p <- gets curpid ;;
  h <- on_lock i (holdingsleep p) ;;
  if negb h then panic "iderw: buf not locked"
  else
    b <- gets (the_buf i) ;;
    size <- gets disksize ;;
    if in_sync b then panic "iderw: nothing to do"
    else if negb (b_dev b =? 1) then panic "iderw: request not for disk 1"
    else if b_blockno b >=? size then panic "iderw: block out of range"
    else
      (if dirty b then
         modify (upd_buf i (set_flags (Z.land (b_flags b) (Z.lnot B_DIRTY)))) ;;;
         modify (write_block (b_dev b) (b_blockno b) (b_data b))
       else modify (λ s, upd_buf i (set_data (disk s (b_dev b) (b_blockno b))) s)) ;;;
      modify (λ s, upd_buf i (set_flags (Z.lor (b_flags (the_buf i s)) B_VALID)) s).

Lemma valid_clean_flags f :
  Z.land (Z.lor f B_VALID) (Z.lnot B_DIRTY) = Z.lor (Z.land f (Z.lnot B_DIRTY)) B_VALID.
Proof. by rewrite Z.land_lor_distr_l. Qed.

Lemma clean_flags f : Z.land f B_DIRTY = 0 → Z.land f (Z.lnot B_DIRTY) = f.
Proof.
  intros H. apply Z.bits_inj'. intros n Hn. apply (f_equal (λ z, Z.testbit z n)) in H.
  rewrite Z.land_spec, Z.bits_0 in H. rewrite Z.land_spec, Z.lnot_spec by lia.
  by destruct (Z.testbit f n), (Z.testbit B_DIRTY n).
Qed.

#[export] Instance memide_driver : BlockDriver memide_rw.
Proof.
  refine {| drv_good := λ s dev blockno, (dev =? 1) && (blockno <? disksize s) |}.
  - by intros s s' dev blockno _ ->.
  - intros s i b Hb Hil Hq Hlk Hs [Hd Hbn]%andb_true_iff. zb.
    unfold memide_rw. mrun.
    rewrite (bind_run _ _ _ _ _ (on_lock_same i _ s _ _ Hb ltac:(rewrite Hlk; apply holdingsleep_run; done))).
    cbn [sl_locked sl_pid andb]. rewrite Z.eqb_refl. mrun.
    rewrite (the_buf_lookup i s b Hb), Hs. ztest (b_dev b =? 1) is true. mrun.
    rewrite Z.geb_leb. ztest (disksize s <=? b_blockno b) is false. cbv iota.
    unfold transfer. rewrite (the_buf_lookup i s b Hb). destruct (dirty b) eqn:E; mrun.
    + rewrite valid_clean_flags. rewrite !(upd_buf_put i _ s b Hb).
      set (s1 := write_block _ _ _ _). set (b1 := set_flags (Z.land _ _) b) in *.
      assert (H1 : bufs s1 !! i = Some b1) by (by eapply (put_lookup i b1)).
      unfold modify. rewrite (the_buf_lookup i s1 b1 H1), (upd_buf_put i _ s1 b1 H1).
      f_equal. unfold s1, write_block, put_buf, set_bufs. cbn. by rewrite list_insert_insert_eq.
    + apply negb_false_iff, Z.eqb_eq in E. rewrite valid_clean_flags, clean_flags by done.
      rewrite (upd_buf_put i (set_data _) s b Hb). set (b1 := set_data _ b).
      unfold modify. rewrite (put_the i b1 b s Hb), (upd_buf_put i _ _ b1) by (by eapply put_lookup).
      by rewrite put_put, (upd_buf_put i _ s b Hb).
Defined.
