(* ===== verification/Log.v ===== *)
(** * The log (log.c)

    The state is the buffer cache with the structure [log].  Numbers of the log
    header are kept as the code has them: [n] is an [int], the block numbers are
    compared as [uint].  [begin_op] that has to wait is the outcome [Sleep]; the
    process that is woken runs its loop again. *)

From Stdlib Require Import ZArith Lia.
From stdpp Require Import base numbers list strings.
From S2P Require Import Prelude Mem Sleeplock Bio.

Record log : Type := Log {
  l_lock : bool;
  l_start : Z;
  l_size : Z;
  l_outstanding : Z;
  l_committing : bool;
  l_dev : Z;
  lh_n : Z;
  lh_block : list Z
}.

Record lstate : Type := LState { l_bio : bstate; l_log : log }.

Definition set_l_log (l : log) (s : lstate) : lstate := LState (l_bio s) l.
Definition set_l_lock (b : bool) (s : lstate) : lstate :=
  let l := l_log s in
  set_l_log (Log b (l_start l) (l_size l) (l_outstanding l) (l_committing l) (l_dev l) (lh_n l) (lh_block l)) s.
Definition set_outstanding (o : Z) (s : lstate) : lstate :=
  let l := l_log s in
  set_l_log (Log (l_lock l) (l_start l) (l_size l) o (l_committing l) (l_dev l) (lh_n l) (lh_block l)) s.
Definition set_committing (c : bool) (s : lstate) : lstate :=
  let l := l_log s in
  set_l_log (Log (l_lock l) (l_start l) (l_size l) (l_outstanding l) c (l_dev l) (lh_n l) (lh_block l)) s.
Definition set_lh (n : Z) (bl : list Z) (s : lstate) : lstate :=
  let l := l_log s in
  set_l_log (Log (l_lock l) (l_start l) (l_size l) (l_outstanding l) (l_committing l) (l_dev l) n bl) s.

Definition held_log (s : lstate) : bool := l_lock (l_log s).

Definition on_bio {A} (m : M bstate A) : M lstate A := lift l_bio (λ b s, LState b (l_log s)) m.

(** The address of [log], as a channel. *)
Definition log_chan : Z := -1.

Definition wakeup_log : M lstate unit :=
  on_bio (modify (λ s, set_woken (woken s ++ [log_chan]) s)).

(** [log.lh.block[i]]; an index past the array is a memory error. *)
Definition lh_at (i : nat) : M lstate Z := λ s,
  match lh_block (l_log s) !! i with
  | Some b => Done b s
  | None => Fault
  end.

(** The header block: [n] at offset 0, [block[i]] at offset 4 + 4 i. *)
Definition hb_n (d : blk) : Z := s32 (load32 d 0).
Definition hb_block (d : blk) (i : nat) : Z := load32 d (4 + 4 * Z.of_nat i).

Fixpoint hb_store (d : blk) (bl : list Z) (i : nat) : blk :=
  match bl with
  | [] => d
  | b :: bl' => hb_store (store32 d (4 + 4 * Z.of_nat i) b) bl' (S i)
  end.

Section log.
Context (iderw : nat → M bstate unit).

Definition install_trans_body (tail : nat) : M lstate unit :=
  l <- gets l_log ;;
  lbuf <- on_bio (bread iderw (l_dev l) (u32 (l_start l + Z.of_nat tail + 1))) ;;
  bn <- lh_at tail ;;
  dbuf <- on_bio (bread iderw (l_dev l) bn) ;;
  on_bio (modify (λ s, upd_buf dbuf (set_data (b_data (the_buf lbuf s))) s)) ;;;
  on_bio (bwrite iderw dbuf) ;;;
  on_bio (brelse lbuf) ;;;
  on_bio (brelse dbuf).

(** [for (tail = 0; tail < log.lh.n; tail++)]; [k] iterations are left. *)
Fixpoint for_tail (body : nat → M lstate unit) (k tail : nat) : M lstate unit :=
  match k with
  | O => ret tt
  | S k' => body tail ;;; for_tail body k' (S tail)
  end.

Definition install_trans : M lstate unit :=
  n <- gets (λ s, lh_n (l_log s)) ;;
  for_tail install_trans_body (Z.to_nat n) 0.

(** [log.lh.block[i] = lh->block[i]] for the first [n] entries; the array has
    LOGSIZE of them. *)
Definition read_head : M lstate unit :=
  l <- gets l_log ;;
  i <- on_bio (bread iderw (l_dev l) (l_start l)) ;;
  d <- gets (λ s, b_data (the_buf i (l_bio s))) ;;
  let n := hb_n d in
  if LOGSIZE <? n then fault
  else
    modify (λ s, set_lh n (map (hb_block d) (seq 0 (Z.to_nat n)) ++
                           drop (Z.to_nat n) (lh_block (l_log s))) s) ;;;
    on_bio (brelse i).

Definition write_head : M lstate unit :=
  l <- gets l_log ;;
  i <- on_bio (bread iderw (l_dev l) (l_start l)) ;;
  on_bio (modify (λ s, upd_buf i (λ b, set_data
     (hb_store (store32 (b_data b) 0 (u32 (lh_n l))) (take (Z.to_nat (lh_n l)) (lh_block l)) 0) b) s)) ;;;
  on_bio (bwrite iderw i) ;;;
  on_bio (brelse i).

Definition recover_from_log : M lstate unit :=
  read_head ;;;
  install_trans ;;;
  modify (λ s, set_lh 0 (lh_block (l_log s)) s) ;;;
  write_head.

(** [struct superblock] and [readsb] of fs.c. *)
Record superblock : Type := Superblock {
  sb_size : Z; sb_nblocks : Z; sb_ninodes : Z; sb_nlog : Z;
  sb_logstart : Z; sb_inodestart : Z; sb_bmapstart : Z
}.

Definition sb_decode (d : blk) : superblock :=
  Superblock (load32 d 0) (load32 d 4) (load32 d 8) (load32 d 12)
             (load32 d 16) (load32 d 20) (load32 d 24).

Definition readsb (dev : Z) : M lstate superblock :=
  i <- on_bio (bread iderw dev 1) ;;
  sb <- gets (λ s, sb_decode (b_data (the_buf i (l_bio s)))) ;;
  on_bio (brelse i) ;;;
  ret sb.

(** [sizeof(struct logheader)] is 4 + 4 LOGSIZE. *)
Definition initlog (dev : Z) : M lstate unit :=
  if 4 + 4 * LOGSIZE >=? BSIZE then panic "initlog: too big logheader"
  else
    sb <- readsb dev ;;
    modify (λ s, let l := l_log s in
      set_l_log (Log false (sb_logstart sb) (sb_nlog sb) (l_outstanding l) (l_committing l) dev
                     (lh_n l) (lh_block l)) s) ;;;
    recover_from_log.

Definition begin_op : M lstate unit :=
  acquire held_log set_l_lock ;;;
  l <- gets l_log ;;
  if l_committing l then (λ s, Sleep log_chan (set_l_lock false s))
  else if lh_n l + (l_outstanding l + 1) * MAXOPBLOCKS >? LOGSIZE then
    (λ s, Sleep log_chan (set_l_lock false s))
  else
    modify (set_outstanding (l_outstanding l + 1)) ;;;
    release held_log set_l_lock.

Definition write_log_body (tail : nat) : M lstate unit :=
  l <- gets l_log ;;
  to <- on_bio (bread iderw (l_dev l) (u32 (l_start l + Z.of_nat tail + 1))) ;;
  bn <- lh_at tail ;;
  from <- on_bio (bread iderw (l_dev l) bn) ;;
  on_bio (modify (λ s, upd_buf to (set_data (b_data (the_buf from s))) s)) ;;;
  on_bio (bwrite iderw to) ;;;
  on_bio (brelse from) ;;;
  on_bio (brelse to).

Definition write_log : M lstate unit :=
  n <- gets (λ s, lh_n (l_log s)) ;;
  for_tail write_log_body (Z.to_nat n) 0.

Definition commit : M lstate unit :=
  n <- gets (λ s, lh_n (l_log s)) ;;
  when (n >? 0) (
    write_log ;;;
    write_head ;;;
    install_trans ;;;
    modify (λ s, set_lh 0 (lh_block (l_log s)) s) ;;;
    write_head).

Definition end_op : M lstate unit :=
  acquire held_log set_l_lock ;;;
  modify (λ s, set_outstanding (l_outstanding (l_log s) - 1) s) ;;;
  l <- gets l_log ;;
  if l_committing l then panic "log.committing"
  else
    do_commit <- (if l_outstanding l =? 0 then modify (set_committing true) ;;; ret true
                  else wakeup_log ;;; ret false) ;;
    release held_log set_l_lock ;;;
    when do_commit (
      commit ;;;
      acquire held_log set_l_lock ;;;
      modify (set_committing false) ;;;
      wakeup_log ;;;
      release held_log set_l_lock).

(** The scan for log absorption: the index of the block, or [n]. *)
Fixpoint absorb (bl : list Z) (blockno : Z) (n : nat) (i : nat) : nat :=
  match n, bl with
  | S n', b :: bl' => if b =? blockno then i else absorb bl' blockno n' (S i)
  | _, _ => i
  end.

Definition log_write (b : nat) : M lstate unit :=
  l <- gets l_log ;;
  if (lh_n l >=? LOGSIZE) || (lh_n l >=? l_size l - 1) then panic "too big a transaction"
  else if l_outstanding l <? 1 then panic "log_write outside of trans"
  else
    acquire held_log set_l_lock ;;;
    blockno <- gets (λ s, b_blockno (the_buf b (l_bio s))) ;;
    modify (λ s,
      let l := l_log s in
      let i := absorb (lh_block l) blockno (Z.to_nat (lh_n l)) 0 in
      set_lh (if Z.of_nat i =? lh_n l then lh_n l + 1 else lh_n l) (<[i := blockno]> (lh_block l)) s) ;;;
    on_bio (modify (λ s, upd_buf b (set_flags (Z.lor (b_flags (the_buf b s)) B_DIRTY)) s)) ;;;
    release held_log set_l_lock.
End log.
