(* ===== verification/LogFacts.v ===== *)
(** * Theorems about the log (log.c)

    The loops of [commit] and [recover_from_log] copy blocks through the buffer
    cache; their effect on the disk is the sequence of block writes they issue
    ([wlog]).  The crash theorems are about every prefix of that sequence. *)

From Stdlib Require Import ZArith Lia.
From stdpp Require Import base numbers list strings.
From S2P Require Import Prelude Mem Sleeplock Bio BioFacts Log.

(** When fewer blocks are pinned than there are other buffers, one is available. *)
Lemma available_count H s dev bl :
  bio_inv H s → dev ≠ 0 → (∀ dv bn, pinned s dv bn → dv = dev ∧ bn ∈ bl) →
  (length H + length bl < NBUF)%nat → available H s.
Proof.
  intros Hinv Hd Hpin Hlen. pose proof (find_unused_spec (lru s) s) as Hu.
  destruct (find_unused (lru s) s) as [i|].
  - destruct Hu as (Hi & Hr & Hdi). apply (bi_in_lru Hinv) in Hi as [b Hb].
    rewrite (the_buf_lookup _ _ _ Hb) in *. exists i, b. split_and!; try done.
    intros HiH. destruct (bi_held _ _ Hinv i b Hb HiH) as (? & _). lia.
  - exfalso. set (g := λ i, if decide (i ∈ H) then inl i else inr (b_blockno (the_buf i s))).
    assert (Hdirty : ∀ i b, bufs s !! i = Some b → i ∉ H → dirty b = true).
    { intros i b Hb Hi. destruct (bi_idle _ _ Hinv i b Hb Hi) as (Hr & _).
      rewrite <- (the_buf_lookup _ _ _ Hb) in *. apply Hu; [apply (bi_in_lru Hinv); eauto|done]. }
    assert (Hblk : ∀ i b, bufs s !! i = Some b → i ∉ H → b_dev b = dev ∧ b_blockno b ∈ bl).
    { intros i b Hb Hi. apply Hpin. exists i, b. split_and!; [done|by eapply Hdirty|by split]. }
    assert (Hsub : map g (seq 0 NBUF) ⊆+ map inl H ++ map inr bl).
    { apply NoDup_submseteq.
      - apply NoDup_fmap_2_strong; [|apply NoDup_seq]. intros i j Hi Hj.
        rewrite <- (bi_lru _ _ Hinv) in Hi, Hj.
        apply (bi_in_lru Hinv) in Hi as [bi Hi], Hj as [bj Hj]. unfold g.
        destruct (decide (i ∈ H)), (decide (j ∈ H)); intros E; simplify_eq; try done.
        rewrite (the_buf_lookup _ _ _ Hi), (the_buf_lookup _ _ _ Hj) in *.
        destruct (Hblk i bi), (Hblk j bj); try done.
        eapply (bi_uniq _ _ Hinv); [done|done|congruence..].
      - intros x (i & -> & Hi)%list_elem_of_fmap. rewrite <- (bi_lru _ _ Hinv) in Hi.
        apply (bi_in_lru Hinv) in Hi as [b Hb]. unfold g. apply elem_of_app.
        destruct (decide (i ∈ H)); [left|right]; apply list_elem_of_fmap; [by eexists|].
        eexists. split; [done|]. rewrite (the_buf_lookup _ _ _ Hb). by eapply Hblk. }
    apply submseteq_length in Hsub. rewrite length_app, !length_map, length_seq in Hsub. lia.
Qed.

(** ** Copying one block *)

(** What copying block [src] to block [dst] does. *)
Record copied_block (dev src dst : Z) (s s' : bstate) : Prop := {
  cb_inv : bio_inv [] s';
  cb_disk : disk s' = upd_disk dev dst (cview s dev src) (disk s);
  cb_wlog : wlog s' = wlog s ++ [(dev, dst, cview s dev src)];
  cb_view : same_view (set_view dev dst (cview s dev src) (cview s)) (cview s');
  cb_pin : ∀ dv bn, pinned s' dv bn ↔ pinned s dv bn ∧ ¬ (dv = dev ∧ bn = dst);
  cb_env : same_env s s'
}.

Section copy.
Context {iderw : nat → M bstate unit} `{Hdrv : BlockDriver iderw}.

(** The part common to [write_log] and [install_trans], from two held buffers
    on: copy, write, release the source, release the destination. *)
Lemma copy_tail H s x y fx fy dev src dst ds dd :
  bio_inv H s → H ≡ₚ [x; y] → src ≠ dst → dev ≠ 0 → drv_good s dev dst = true →
  bufs s !! x = Some (held_buf s fx dev src ds) → bufs s !! y = Some (held_buf s fy dev dst dd) →
  fx = 6 ∨ ds = disk s dev src →
  ∃ s', (modify (λ s, upd_buf y (set_data (b_data (the_buf x s))) s) ;;;
         bwrite iderw y ;;; brelse x ;;; brelse y) s = Done tt s' ∧
    bio_inv [] s' ∧ disk s' = upd_disk dev dst ds (disk s) ∧ wlog s' = wlog s ++ [(dev, dst, ds)] ∧
    same_view (set_view dev dst ds (cview s)) (cview s') ∧
    (∀ dv bn, pinned s' dv bn ↔ pinned s dv bn ∧ ¬ (dv = dev ∧ bn = dst)) ∧ same_env s s'.
Proof using Hdrv.
  intros Hinv HP Hne Hd Hgood Hx Hy Hco.
  assert (Hxy : x ≠ y). { intros ->. rewrite Hx in Hy. by simplify_eq. }
  assert (HyH : y ∈ H) by (rewrite HP; right; by left).
  destruct (bi_held _ _ Hinv y _ Hy HyH) as (_ & _ & Hfy). cbn in Hfy.
  destruct (put_step H s y fy dev dst dd fy ds Hinv HyH Hy Hd Hfy)
    as (I1 & B1 & V1 & D1 & W1 & P1 & J1 & E1).
  set (s1 := put_buf y (held_buf s fy dev dst ds) s) in *.
  destruct (bwrite_step H s1 y fy dev dst ds I1 HyH B1 Hd) as (s2 & R2 & I2 & B2 & V2 & D2 & W2 & P2 & J2 & E2).
  { rewrite (drv_frame s); [done|apply E1..]. }
  assert (Hx2 : bufs s2 !! x = Some (held_buf s2 fx dev src ds)).
  { rewrite J2, J1 by done. rewrite Hx. unfold held_buf. by destruct E2 as [-> _]. }
  destruct (brelse_step H [y] s2 x fx dev src ds I2 HP Hx2 Hd) as (s3 & R3 & I3 & V3 & D3 & W3 & P3 & J3 & E3).
  { rewrite D2, D1. unfold upd_disk. destruct Hco as [?| ->]; [by left|right].
    case_if; [|done..]. by destruct Hne. }
  assert (By3 : bufs s3 !! y = Some (held_buf s3 2 dev dst ds)).
  { rewrite J3 by congruence. rewrite B2. unfold held_buf. by destruct E3 as [-> _]. }
  destruct (brelse_step [y] [] s3 y 2 dev dst ds I3) as (s4 & R4 & I4 & V4 & D4 & W4 & P4 & J4 & E4); [done|done|done| |].
  { right. rewrite D3, D2. unfold upd_disk. by rewrite !Z.eqb_refl. }
  exists s4. split_and!.
  - mrun. rewrite (the_buf_lookup x s _ Hx), (upd_buf_put y _ s _ Hy).
    change (put_buf y _ s) with s1. mcall R2. mcall R3. done.
  - done.
  - by rewrite D4, D3, D2, D1.
  - by rewrite W4, W3, W2, W1.
  - intros dv bn Hdv. by rewrite V4, V3, V2, V1.
  - intros dv bn. rewrite P4, P3, P2, P1.
    destruct ((dv =? dev) && (bn =? dst)) eqn:E; [zb|]; [|done]. tauto.
  - eapply same_env_trans; [done|]. eapply same_env_trans; [done|]. by eapply same_env_trans.
Qed.

Lemma on_bio_run {A} (m : M bstate A) s a b :
  m (l_bio s) = Done a b → on_bio m s = Done a (LState b (l_log s)).
Proof. unfold on_bio, lift. by intros ->. Qed.

Lemma on_bio_at {A} (m : M bstate A) b lg a b' :
  m b = Done a b' → on_bio m (LState b lg) = Done a (LState b' lg).
Proof. unfold on_bio, lift. cbn. by intros ->. Qed.

Lemma on_bio_tail (a b c d : M bstate unit) s :
  (on_bio a ;;; on_bio b ;;; on_bio c ;;; on_bio d) s = on_bio (a ;;; b ;;; c ;;; d) s.
Proof.
  unfold on_bio, lift, bind. destruct s as [bi lg]. cbn.
  destruct (a bi) as [[] b1| | | |]; try done. cbn. destruct (b b1) as [[] b2| | | |]; try done. cbn.
  by destruct (c b2) as [[] b3| | | |].
Qed.

(** An unpinned block shows what is on the disk. *)
Lemma cview_clean s dev blockno :
  bio_inv [] s → dev ≠ 0 → ¬ pinned s dev blockno → cview s dev blockno = disk s dev blockno.
Proof.
  intros Hinv Hd Hnp. destruct (find_cached (lru s) dev blockno s) as [j|] eqn:E.
  - pose proof (find_cached_spec (lru s) dev blockno s) as Hc. rewrite E in Hc. destruct Hc as [Hj Hm].
    apply (bi_in_lru Hinv) in Hj as [bj Hj]. rewrite (the_buf_lookup _ _ _ Hj) in Hm.
    rewrite (cview_cached Hinv dev blockno j bj) by done.
    destruct (bi_idle _ _ Hinv j bj Hj) as (_ & _ & F); [by intros ?%elem_of_nil|].
    destruct Hm as [M1 M2]. unfold valid. destruct F as [-> |[F|[-> Hdd]]]; [done| |].
    + destruct Hnp. exists j, bj. split_and!; try done. unfold dirty. by rewrite F.
    + cbn. by rewrite Hdd, M1, M2.
  - rewrite (find_cached_absent Hinv) in E. by apply (cview_absent Hinv).
Qed.

Lemma install_body_spec s tail bn :
  let b := l_bio s in let dev := l_dev (l_log s) in let src := l_start (l_log s) + Z.of_nat tail + 1 in
  bio_inv [] b → dev ≠ 0 → 0 <= src < 4294967296 → lh_block (l_log s) !! tail = Some bn →
  src ≠ bn → drv_good b dev src = true → drv_good b dev bn = true →
  ¬ pinned b dev src → available [] b → pinned b dev bn ∨ (∀ dv bno, ¬ pinned b dv bno) →
  ∃ b', install_trans_body iderw tail s = Done tt (LState b' (l_log s)) ∧ copied_block dev src bn b b'.
Proof using Hdrv.
  intros b dev src Hinv Hd Hsrc Hbn Hne Hg1 Hg2 Hnp Hav Hav2.
  assert (Hnil : ∀ i : nat, i ∉ ([] : list nat)) by (intros i Hi; by apply elem_of_nil in Hi).
  destruct (bread_step [] b dev src Hinv Hd Hg1) as (x & fx & b1 & R1 & I1 & X1 & V1 & D1 & W1 & P1 & F1 & J1 & E1);
    [by intros i ? Hi; destruct (Hnil i)|by right|].
  destruct (bread_step [x] b1 dev bn I1 Hd) as (y & fy & b2 & R2 & I2 & Y2 & V2 & D2 & W2 & P2 & F2 & J2 & E2).
  { rewrite (drv_frame b); [done|apply E1..]. }
  { intros i bf ->%list_elem_of_singleton Hi [M1 M2]. rewrite X1 in Hi. simplify_eq. }
  { rewrite P1. destruct Hav2 as [?|Hno]; [by left|right].
    apply (available_count [x] b1 dev []); [done|done| |cbn; unfold NBUF; lia].
    intros dv bno Hp. rewrite P1 in Hp. by destruct (Hno dv bno). }
  assert (X2 : bufs b2 !! x = Some (held_buf b2 fx dev src (cview b dev src))).
  { rewrite J2 by (by left). rewrite X1. unfold held_buf. by destruct E2 as [-> _]. }
  destruct (copy_tail [y; x] b2 x y fx fy dev src bn (cview b dev src) (cview b1 dev bn))
    as (b3 & R3 & I3 & D3 & W3 & V3 & P3 & E3); try done.
  { apply Permutation_swap. }
  { rewrite (drv_frame b1), (drv_frame b); [done|apply E1..|apply E2|apply E2]. }
  { right. rewrite D2, D1. by apply cview_clean. }
  exists b3. split.
  - unfold install_trans_body. mrun. fold dev. rewrite (u32_small (_ + 1)) by done. fold src.
    mcall (on_bio_run _ s _ _ R1). unfold lh_at at 1. unfold bind at 1. cbn [l_log]. rewrite Hbn.
    mcall (on_bio_run _ (LState b1 (l_log s)) _ _ R2). rewrite on_bio_tail.
    cbn [l_log]. by rewrite (on_bio_run _ (LState b2 (l_log s)) _ _ R3).
  - split; try done.
    + by rewrite D3, D2, D1.
    + by rewrite W3, W2, W1.
    + intros dv bno Hdv. rewrite V3 by done. unfold set_view. case_if; [done|..]; by rewrite V2, V1.
    + intros dv bno. by rewrite P3, P2, P1.
    + eapply same_env_trans; [done|]. by eapply same_env_trans.
Qed.

Lemma write_log_body_spec s tail bn :
  let b := l_bio s in let dev := l_dev (l_log s) in let dst := l_start (l_log s) + Z.of_nat tail + 1 in
  bio_inv [] b → dev ≠ 0 → 0 <= dst < 4294967296 → lh_block (l_log s) !! tail = Some bn →
  dst ≠ bn → drv_good b dev dst = true → drv_good b dev bn = true →
  available [] b → pinned b dev bn →
  ∃ b', write_log_body iderw tail s = Done tt (LState b' (l_log s)) ∧ copied_block dev bn dst b b'.
Proof using Hdrv.
  intros b dev dst Hinv Hd Hdst Hbn Hne Hg1 Hg2 Hav Hpin.
  destruct (bread_step [] b dev dst Hinv Hd Hg1) as (y & fy & b1 & R1 & I1 & Y1 & V1 & D1 & W1 & P1 & F1 & J1 & E1);
    [by intros i ? ?%elem_of_nil|by right|].
  destruct (bread_step [y] b1 dev bn I1 Hd) as (x & fx & b2 & R2 & I2 & X2 & V2 & D2 & W2 & P2 & F2 & J2 & E2).
  { rewrite (drv_frame b); [done|apply E1..]. }
  { intros i bf ->%list_elem_of_singleton Hi [M1 M2]. rewrite Y1 in Hi. simplify_eq. }
  { left. by rewrite P1. }
  assert (Y2 : bufs b2 !! y = Some (held_buf b2 fy dev dst (cview b dev dst))).
  { rewrite J2 by (by left). rewrite Y1. unfold held_buf. by destruct E2 as [-> _]. }
  rewrite V1 in X2 by done.
  destruct (copy_tail [x; y] b2 x y fx fy dev bn dst (cview b dev bn) (cview b dev dst))
    as (b3 & R3 & I3 & D3 & W3 & V3 & P3 & E3); try done.
  { rewrite (drv_frame b1), (drv_frame b); [done|apply E1..|apply E2|apply E2]. }
  { left. apply F2. by rewrite P1. }
  exists b3. split.
  - unfold write_log_body. mrun. fold dev. rewrite (u32_small (_ + 1)) by done. fold dst.
    mcall (on_bio_run _ s _ _ R1). unfold lh_at at 1. unfold bind at 1. cbn [l_log]. rewrite Hbn.
    mcall (on_bio_run _ (LState b1 (l_log s)) _ _ R2). rewrite on_bio_tail.
    cbn [l_log]. by rewrite (on_bio_run _ (LState b2 (l_log s)) _ _ R3).
  - split; try done.
    + by rewrite D3, D2, D1.
    + by rewrite W3, W2, W1.
    + intros dv bno Hdv. rewrite V3 by done. unfold set_view. case_if; [done|..]; by rewrite V2, V1.
    + intros dv bno. by rewrite P3, P2, P1.
    + eapply same_env_trans; [done|]. by eapply same_env_trans.
Qed.
End copy.
