(* ===== verification/LogRun.v ===== *)
(** * What [commit] and [recover_from_log] write (log.c)

    The loops of log.c as the sequences of block writes they issue. *)

From Stdlib Require Import ZArith Lia.
From stdpp Require Import base numbers list strings.
From S2P Require Import Prelude Mem Sleeplock Bio BioFacts Log LogFacts.

(** The disk after a sequence of block writes. *)
Fixpoint apply_writes (ws : list (Z * Z * blk)) (dk : Z → Z → blk) : Z → Z → blk :=
  match ws with
  | [] => dk
  | (dv, bn, d) :: ws' => apply_writes ws' (upd_disk dv bn d dk)
  end.

Lemma apply_writes_app ws ws' dk : apply_writes (ws ++ ws') dk = apply_writes ws' (apply_writes ws dk).
Proof. revert dk. induction ws as [|[[dv bn] d] ws IH]; [done|]. intros dk. cbn. apply IH. Qed.

(** Blocks of data [ds] written to the log from slot [tail] on. *)
Fixpoint log_writes (dev start tail : Z) (ds : list blk) : list (Z * Z * blk) :=
  match ds with
  | [] => []
  | d :: ds' => (dev, start + tail + 1, d) :: log_writes dev start (tail + 1) ds'
  end.

Definition home_writes (dev : Z) (bl : list Z) (ds : list blk) : list (Z * Z * blk) :=
  zip_with (λ bn d, (dev, bn, d)) bl ds.

(** Reading back after a sequence of writes. *)
Definition writes_to (ws : list (Z * Z * blk)) (dv bn : Z) : Prop := ∃ d, (dv, bn, d) ∈ ws.

Lemma upd_disk_ne dv bn d dk dv' bn' :
  ¬ (dv' = dv ∧ bn' = bn) → upd_disk dv bn d dk dv' bn' = dk dv' bn'.
Proof. unfold upd_disk. intros H. case_if; [|done..]. tauto. Qed.

Lemma upd_disk_eq dv bn d dk : upd_disk dv bn d dk dv bn = d.
Proof. unfold upd_disk. by rewrite !Z.eqb_refl. Qed.

Lemma apply_writes_other ws dk dv bn : ¬ writes_to ws dv bn → apply_writes ws dk dv bn = dk dv bn.
Proof.
  revert dk. induction ws as [|[[dv' bn'] d] ws IH]; intros dk Hn; [done|]. cbn. rewrite IH.
  - apply upd_disk_ne. intros [-> ->]. apply Hn. exists d. by left.
  - intros [d' Hd']. apply Hn. exists d'. by right.
Qed.

Lemma log_writes_to dev start tail ds dv bn :
  writes_to (log_writes dev start tail ds) dv bn → dv = dev ∧ start + tail + 1 <= bn < start + tail + 1 + Z.of_nat (length ds).
Proof.
  intros [d Hd]. revert tail Hd. induction ds as [|d' ds IH]; intros tail Hd; [by apply elem_of_nil in Hd|].
  cbn in Hd. apply elem_of_cons in Hd as [[= -> -> _]|Hd]; [cbn; lia|]. apply IH in Hd. cbn. lia.
Qed.

Lemma home_writes_to dev bl ds dv bn : writes_to (home_writes dev bl ds) dv bn → dv = dev ∧ bn ∈ bl.
Proof.
  intros [d Hd]. revert ds Hd. induction bl as [|b bl IH]; intros ds Hd; [by apply elem_of_nil in Hd|].
  destruct ds as [|d' ds]; [by apply elem_of_nil in Hd|]. cbn in Hd.
  apply elem_of_cons in Hd as [[= -> -> _]|Hd]; [split; [done|by left]|].
  destruct (IH _ Hd) as [-> ?]. split; [done|by right].
Qed.

Lemma log_writes_get dev start ds : ∀ tail dk j d,
  ds !! j = Some d → apply_writes (log_writes dev start tail ds) dk dev (start + tail + Z.of_nat j + 1) = d.
Proof.
  induction ds as [|d' ds IH]; intros tail dk j d Hj; [done|]. destruct j as [|j]; cbn in *.
  - simplify_eq. rewrite apply_writes_other.
    + rewrite <- (upd_disk_eq dev (start + tail + 1) d dk) at 2. f_equal. lia.
    + intros [_ ?]%log_writes_to. lia.
  - rewrite <- (IH (tail + 1) (upd_disk dev (start + tail + 1) d' dk) j d Hj). f_equal. lia.
Qed.

(** The header block for the block numbers [bl], over its old content. *)
Definition header (bl : list Z) (hd : blk) : blk :=
  hb_store (store32 hd 0 (u32 (Z.of_nat (length bl)))) bl 0.

(** The blocks of the log's area exist, and the device is a disk. *)
Record geom (b : bstate) (l : log) {iderw : nat → M bstate unit} `{BlockDriver iderw} : Prop := {
  ge_dev : l_dev l ≠ 0;
  ge_start : 0 <= l_start l ∧ l_start l + LOGSIZE + 1 < 4294967296;
  ge_good : ∀ k, 0 <= k <= LOGSIZE → drv_good b (l_dev l) (l_start l + k) = true
}.

Definition in_log (l : log) (bn : Z) : Prop := l_start l <= bn <= l_start l + LOGSIZE.

(** A block outside the log. *)
Definition home (b : bstate) (l : log) {iderw : nat → M bstate unit} `{BlockDriver iderw} (bn : Z) : Prop :=
  drv_good b (l_dev l) bn = true ∧ 0 <= bn < 4294967296 ∧ ¬ in_log l bn.

(** Exactly the blocks [bl] of [dev] are pinned. *)
Definition pins (b : bstate) (dev : Z) (bl : list Z) : Prop :=
  ∀ dv bn, pinned b dv bn ↔ dv = dev ∧ bn ∈ bl.

Lemma pins_available b dev bl :
  bio_inv [] b → dev ≠ 0 → pins b dev bl → (length bl < NBUF)%nat → available [] b.
Proof. intros Hi Hd Hp Hl. apply (available_count [] b dev bl); [done|done|apply Hp|cbn; lia]. Qed.

Lemma pins_other b b' dev x bl :
  pins b dev bl → (∀ dv bn, pinned b' dv bn ↔ pinned b dv bn ∧ ¬ (dv = dev ∧ bn = x)) → x ∉ bl →
  pins b' dev bl.
Proof.
  intros Hp Hp' Hx dv bn. rewrite Hp', (Hp dv bn). split; [tauto|]. intros [-> Hbn].
  split; [done|]. intros [_ ->]. done.
Qed.

Lemma pins_first b b' dev x bl :
  pins b dev (x :: bl) → (∀ dv bn, pinned b' dv bn ↔ pinned b dv bn ∧ ¬ (dv = dev ∧ bn = x)) → x ∉ bl →
  pins b' dev bl.
Proof.
  intros Hp Hp' Hx dv bn. rewrite Hp', (Hp dv bn), elem_of_cons. split.
  - intros [[-> [->|?]] Hn]; [by destruct Hn|done].
  - intros [-> Hbn]. split; [by auto|]. intros [_ ->]. done.
Qed.

Lemma view_other dev x d v v' bn :
  dev ≠ 0 → same_view (set_view dev x d v) v' → bn ≠ x → v' dev bn = v dev bn.
Proof.
  intros Hd Hv Hne. rewrite Hv by done. unfold set_view.
  by rewrite (proj2 (Z.eqb_neq bn x)), andb_false_r.
Qed.

Section run.
Context {iderw : nat → M bstate unit} `{Hdrv : BlockDriver iderw}.

Lemma geom_env b b' l : same_env b b' → geom b l → geom b' l.
Proof. intros (_ & E1 & E2) [? ? Hg]. split; try done. intros k Hk. rewrite (drv_frame b); auto. Qed.

Lemma home_env b b' l bn : same_env b b' → home b l bn → home b' l bn.
Proof. intros (_ & E1 & E2) (? & ? & ?). split_and!; try done || lia. rewrite (drv_frame b); auto. Qed.

Lemma homes_env b b' l bl : same_env b b' → Forall (home b l) bl → Forall (home b' l) bl.
Proof. intros He H. eapply Forall_impl; [exact H|]. intros bn. by apply home_env. Qed.

(** [write_log] from slot [tail] on. *)
Lemma write_log_loop_spec l bl pre : ∀ b tail,
  bio_inv [] b → geom b l → Forall (home b l) (pre ++ bl) → pins b (l_dev l) (pre ++ bl) →
  (length (pre ++ bl) < NBUF)%nat → length pre = tail →
  take (length bl) (drop tail (lh_block l)) = bl →
  ∃ b', for_tail (write_log_body iderw) (length bl) tail (LState b l) = Done tt (LState b' l) ∧
    bio_inv [] b' ∧ pins b' (l_dev l) (pre ++ bl) ∧ same_env b b' ∧
    (let ws := log_writes (l_dev l) (l_start l) (Z.of_nat tail) (map (cview b (l_dev l)) bl) in
     wlog b' = wlog b ++ ws ∧ disk b' = apply_writes ws (disk b)) ∧
    (∀ bn, ¬ in_log l bn → cview b' (l_dev l) bn = cview b (l_dev l) bn).
Proof using Hdrv.
  revert pre. induction bl as [|bn bl IH]; intros pre b tail Hinv Hg Hh Hp Hlen Htail Hbl.
  { exists b. cbn. rewrite !app_nil_r in *. by split_and!. }
  assert (Hat : lh_block l !! tail = Some bn).
  { destruct (drop tail (lh_block l)) as [|x r] eqn:E; [done|]. cbn in Hbl. simplify_eq.
    rewrite <- (Nat.add_0_r (length pre)), <- lookup_drop, E. done. }
  assert (Hnext : take (length bl) (drop (S tail) (lh_block l)) = bl).
  { destruct (drop tail (lh_block l)) as [|x r] eqn:E; [done|]. cbn in Hbl. injection Hbl as -> Hbl.
    by rewrite <- Nat.add_1_r, <- drop_drop, E. }
  rewrite Forall_app, Forall_cons in Hh. destruct Hh as (Hh1 & Hbn & Hh2).
  destruct (ge_start _ _ Hg) as [Hs1 Hs2]. rewrite length_app in Hlen. cbn in Hlen.
  assert (Hdst : 0 <= l_start l + Z.of_nat tail + 1 < 4294967296 ∧ in_log l (l_start l + Z.of_nat tail + 1)).
  { unfold in_log, LOGSIZE, MAXOPBLOCKS, NBUF in *. lia. }
  destruct (write_log_body_spec (iderw := iderw) (LState b l) tail bn) as (b1 & R1 & [I1 D1 W1 V1 P1 E1]); try done.
  { apply Hg. } { apply Hdst. } { intros E. cbn in E. apply Hbn. rewrite <- E. apply Hdst. }
  { cbn. rewrite <- Z.add_assoc. apply Hg. unfold LOGSIZE, MAXOPBLOCKS, NBUF in *. lia. }
  { apply Hbn. } { eapply pins_available; [done|apply Hg|done|]. rewrite length_app. cbn. lia. }
  { apply Hp. split; [done|]. apply elem_of_app. right. by left. }
  cbn [l_bio l_log] in *.
  assert (Hlog : ∀ x, ¬ in_log l x → x ≠ l_start l + Z.of_nat tail + 1) by (intros x Hx ->; by apply Hx, Hdst).
  assert (Hv : ∀ x, ¬ in_log l x → cview b1 (l_dev l) x = cview b (l_dev l) x).
  { intros x Hx. eapply view_other; [apply Hg|done|auto]. }
  assert (Hall : ∀ x, x ∈ pre ++ bn :: bl → ¬ in_log l x).
  { intros x. rewrite elem_of_app, elem_of_cons. rewrite Forall_forall in Hh1, Hh2.
    intros [Hx|[->|Hx]]; [by apply Hh1|apply Hbn|by apply Hh2]. }
  destruct (IH (pre ++ [bn]) b1 (S tail)) as (b' & R & I & P & E & [W D] & V); try done.
  { by eapply geom_env. }
  { eapply homes_env; [done|]. rewrite <- app_assoc. apply Forall_app. split; [done|]. by apply Forall_cons. }
  { rewrite <- app_assoc. eapply pins_other; [done..|]. intros Hx%Hall. by apply Hx, Hdst. }
  { rewrite !length_app. cbn. lia. }
  { rewrite length_app. cbn. lia. }
  exists b'. rewrite <- app_assoc in P.
  assert (Hmap : map (cview b1 (l_dev l)) bl = map (cview b (l_dev l)) bl).
  { apply map_ext_in. intros x Hx%list_elem_of_In. apply Hv, Hall, elem_of_app. right. by right. }
  assert (Htl : Z.of_nat (S tail) = Z.of_nat tail + 1) by lia.
  split_and!; try done.
  - cbn [for_tail length]. by mcall R1.
  - by eapply same_env_trans.
  - by rewrite W, W1, <- app_assoc, Hmap, Htl.
  - by rewrite D, D1, Hmap, Htl.
  - intros x Hx. by rewrite V, Hv.
Qed.

(** [install_trans] from slot [tail] on; the pinned blocks are the ones still to
    install (in [commit]) or there are none (in recovery). *)
Lemma install_loop_spec l bl : ∀ ds b tail pn,
  bio_inv [] b → geom b l → Forall (home b l) bl →
  pn = bl ∧ NoDup bl ∨ pn = [] → pins b (l_dev l) pn →
  (tail + length bl <= 30)%nat → (length bl < NBUF)%nat → length ds = length bl →
  take (length bl) (drop tail (lh_block l)) = bl →
  (∀ j d, ds !! j = Some d → disk b (l_dev l) (l_start l + Z.of_nat tail + Z.of_nat j + 1) = d) →
  ∃ b', for_tail (install_trans_body iderw) (length bl) tail (LState b l) = Done tt (LState b' l) ∧
    bio_inv [] b' ∧ pins b' (l_dev l) [] ∧ same_env b b' ∧
    wlog b' = wlog b ++ home_writes (l_dev l) bl ds ∧
    disk b' = apply_writes (home_writes (l_dev l) bl ds) (disk b).
Proof using Hdrv.
  induction bl as [|bn bl IH]; intros ds b tail pn Hinv Hg Hh Hpn Hp Htl Hlen Hds Hbl Hdk.
  { destruct ds; [|done]. exists b. cbn. rewrite app_nil_r. split_and!; try done.
    by destruct Hpn as [[-> _]| ->]. }
  destruct ds as [|d ds]; [done|]. cbn in Hds, Hlen, Htl.
  assert (Hat : lh_block l !! tail = Some bn ∧ take (length bl) (drop (S tail) (lh_block l)) = bl).
  { destruct (drop tail (lh_block l)) as [|x r] eqn:E; [done|]. cbn in Hbl. injection Hbl as -> Hbl.
    rewrite <- Nat.add_1_r, <- drop_drop, E. split; [|done].
    rewrite <- (Nat.add_0_r tail), <- lookup_drop, E. done. }
  apply Forall_cons in Hh as [Hbn Hh]. destruct (ge_start _ _ Hg) as [Hs1 Hs2].
  set (src := l_start l + Z.of_nat tail + 1) in *.
  assert (Hsrc : 0 <= src < 4294967296 ∧ in_log l src).
  { unfold src, in_log, LOGSIZE, MAXOPBLOCKS in *. lia. }
  assert (Hlp : ¬ pinned b (l_dev l) src).
  { rewrite (Hp (l_dev l) src). intros [_ Hin]. destruct Hpn as [[-> _]| ->]; [|by apply elem_of_nil in Hin].
    apply elem_of_cons in Hin as [->|Hin]; [by apply Hbn, Hsrc|].
    rewrite Forall_forall in Hh. by apply (Hh _ Hin), Hsrc. }
  assert (Hd0 : cview b (l_dev l) src = d).
  { rewrite cview_clean by (done || apply Hg). rewrite <- (Hdk 0%nat d) by done. f_equal. unfold src. lia. }
  destruct (install_body_spec (iderw := iderw) (LState b l) tail bn) as (b1 & R1 & [I1 D1 W1 V1 P1 E1]); try done.
  { apply Hg. } { apply Hsrc. } { apply Hat. } { intros E. cbn in E. apply Hbn. rewrite <- E. apply Hsrc. }
  { cbn. rewrite <- Z.add_assoc. apply Hg. unfold LOGSIZE, MAXOPBLOCKS in *. lia. }
  { apply Hbn. } { eapply pins_available; [done|apply Hg|done|]. destruct Hpn as [[-> _]| ->]; cbn; unfold NBUF in *; lia. }
  { cbn. destruct Hpn as [[-> _]| ->]; [left; apply Hp; split; [done|by left]|right].
    intros dv bno. rewrite (Hp dv bno). by intros [_ ?%elem_of_nil]. }
  cbn [l_bio l_log] in *. fold src in D1, W1, V1. rewrite Hd0 in *.
  assert (Hpn1 : ∃ pn', (pn' = bl ∧ NoDup bl ∨ pn' = []) ∧ pins b1 (l_dev l) pn').
  { destruct Hpn as [[-> Hnd]| ->].
    - apply NoDup_cons in Hnd as [Hx Hnd]. exists bl. split; [by left|]. by eapply pins_first.
    - exists []. split; [by right|]. eapply pins_other; [done..|]. by intros ?%elem_of_nil. }
  destruct Hpn1 as (pn' & Hpn' & Hp').
  destruct (IH ds b1 (S tail) pn') as (b' & R & I & P & E & W & D); try done || lia.
  { by eapply geom_env. } { by eapply homes_env. } { apply Hat. }
  { intros j dj Hj. rewrite D1. unfold upd_disk. rewrite <- (Hdk (S j) dj) by done.
    rewrite (proj2 (Z.eqb_neq _ bn)), andb_false_r; [f_equal; lia|].
    intros Ebn. apply Hbn. rewrite <- Ebn. apply lookup_lt_Some in Hj.
    unfold in_log, LOGSIZE, MAXOPBLOCKS in *. lia. }
  exists b'. split_and!; try done.
  - cbn [for_tail length]. by mcall R1.
  - by eapply same_env_trans.
  - rewrite W, W1, <- app_assoc. done.
  - rewrite D, D1. done.
Qed.

(** [write_head]: the header block with the current header's contents. *)
Lemma write_head_spec l b pn :
  bio_inv [] b → geom b l → pins b (l_dev l) pn → (length pn < NBUF)%nat → l_start l ∉ pn →
  let hd := hb_store (store32 (disk b (l_dev l) (l_start l)) 0 (u32 (lh_n l)))
                     (take (Z.to_nat (lh_n l)) (lh_block l)) 0 in
  ∃ b', write_head iderw (LState b l) = Done tt (LState b' l) ∧ bio_inv [] b' ∧
    pins b' (l_dev l) pn ∧ same_env b b' ∧ wlog b' = wlog b ++ [(l_dev l, l_start l, hd)] ∧
    disk b' = upd_disk (l_dev l) (l_start l) hd (disk b) ∧
    ∀ bn, ¬ in_log l bn → cview b' (l_dev l) bn = cview b (l_dev l) bn.
Proof using Hdrv.
  intros Hinv Hg Hp Hlen Hst hd. pose proof (ge_dev _ _ Hg) as Hd.
  pose proof (ge_good _ _ Hg 0 ltac:(unfold LOGSIZE, MAXOPBLOCKS; lia)) as Hgd. rewrite Z.add_0_r in Hgd.
  assert (Hnp : ¬ pinned b (l_dev l) (l_start l)) by (rewrite (Hp (l_dev l) (l_start l)); tauto).
  destruct (bread_step [] b (l_dev l) (l_start l) Hinv Hd Hgd)
    as (i & f & b1 & R1 & I1 & B1 & V1 & D1 & W1 & P1 & F1 & J1 & E1);
    [by intros ? ? ?%elem_of_nil|right; by eapply pins_available|].
  rewrite cview_clean in B1 by done.
  assert (Hi : i ∈ [i]) by by left.
  destruct (bi_held _ _ I1 i _ B1 Hi) as (_ & _ & Hf). cbn in Hf.
  destruct (put_step [i] b1 i f (l_dev l) (l_start l) _ f hd I1 Hi B1 Hd Hf)
    as (I2 & B2 & V2 & D2 & W2 & P2 & J2 & E2). set (b2 := put_buf i _ b1) in *.
  destruct (bwrite_step [i] b2 i f (l_dev l) (l_start l) hd I2 Hi B2 Hd)
    as (b3 & R3 & I3 & B3 & V3 & D3 & W3 & P3 & J3 & E3).
  { rewrite (drv_frame b1), (drv_frame b); [done|apply E1..|apply E2|apply E2]. }
  destruct (brelse_step [i] [] b3 i 2 (l_dev l) (l_start l) hd I3) as (b4 & R4 & I4 & V4 & D4 & W4 & P4 & J4 & E4);
    [done|done|done| |].
  { right. rewrite D3. unfold upd_disk. by rewrite !Z.eqb_refl. }
  assert (R2 : modify (λ s, upd_buf i (λ b, set_data (hb_store (store32 (b_data b) 0 (u32 (lh_n l)))
      (take (Z.to_nat (lh_n l)) (lh_block l)) 0) b) s) b1 = Done tt b2).
  { unfold modify. by rewrite (upd_buf_put i _ b1 _ B1). }
  exists b4. split_and!; try done.
  - unfold write_head. mrun. mcall (on_bio_run _ (LState b l) _ _ R1).
    rewrite (bind_run _ _ _ _ _ (on_bio_run _ (LState b1 l) _ _ R2)).
    mcall (on_bio_run _ (LState b2 l) _ _ R3). cbn [l_log]. by rewrite (on_bio_run _ (LState b3 l) _ _ R4).
  - intros dv bn. rewrite P4, P3, P2, <- (Hp dv bn).
    destruct ((dv =? l_dev l) && (bn =? l_start l)) eqn:E; [zb|].
    + subst. split; [tauto|intros ?; by destruct Hnp].
    + rewrite P1. split; [tauto|]. intros ?. split; [done|]. intros [-> ->]. by rewrite !Z.eqb_refl in E.
  - eapply same_env_trans; [done|]. eapply same_env_trans; [done|]. by eapply same_env_trans.
  - by rewrite W4, W3, W2, W1.
  - by rewrite D4, D3, D2, D1.
  - intros bn Hbn. rewrite V4, V3 by done. rewrite (view_other _ _ _ _ _ bn Hd V2), V1; [done|done|].
    intros ->. apply Hbn. unfold in_log, LOGSIZE, MAXOPBLOCKS. lia.
Qed.

(** A transaction ready to commit: the blocks [bl] are modified in the cache
    and recorded in the header. *)
Record txn (b : bstate) (l : log) (bl : list Z) : Prop := {
  tx_inv : bio_inv [] b;
  tx_geom : geom b l;
  tx_home : Forall (home b l) bl;
  tx_nodup : NoDup bl;
  tx_pins : pins b (l_dev l) bl;
  tx_len : (length bl < NBUF)%nat;
  tx_n : lh_n l = Z.of_nat (length bl);
  tx_block : take (length bl) (lh_block l) = bl
}.

Definition clear_n (l : log) : log :=
  Log (l_lock l) (l_start l) (l_size l) (l_outstanding l) (l_committing l) (l_dev l) 0 (lh_block l).

Definition commit_writes (dev start : Z) (bl : list Z) (ds : list blk) (hd : blk) : list (Z * Z * blk) :=
  log_writes dev start 0 ds ++ [(dev, start, header bl hd)] ++
  home_writes dev bl ds ++ [(dev, start, header [] (header bl hd))].

Lemma start_not_home b l bl : geom b l → Forall (home b l) bl → l_start l ∉ bl.
Proof.
  intros Hg Hh Hin. rewrite Forall_forall in Hh. apply (Hh _ Hin).
  unfold in_log, LOGSIZE, MAXOPBLOCKS. lia.
Qed.

Lemma commit_run b l bl :
  txn b l bl → bl ≠ [] →
  let ds := map (cview b (l_dev l)) bl in
  let ws := commit_writes (l_dev l) (l_start l) bl ds (disk b (l_dev l) (l_start l)) in
  ∃ b', commit iderw (LState b l) = Done tt (LState b' (clear_n l)) ∧ bio_inv [] b' ∧
    pins b' (l_dev l) [] ∧ same_env b b' ∧ wlog b' = wlog b ++ ws ∧ disk b' = apply_writes ws (disk b).
Proof using Hdrv.
  intros [Hinv Hg Hh Hnd Hp Hlen Hn Hbl] Hne ds ws.
  pose proof (start_not_home b l bl Hg Hh) as Hst. pose proof (ge_dev _ _ Hg) as Hd.
  assert (Hlds : length ds = length bl) by apply length_map.
  assert (Htn : Z.to_nat (lh_n l) = length bl) by (rewrite Hn; lia).
  destruct (write_log_loop_spec l bl [] b 0) as (b1 & R1 & I1 & P1 & E1 & [W1 D1] & V1); try done.
  destruct (write_head_spec l b1 bl) as (b2 & R2 & I2 & P2 & E2 & W2 & D2 & V2); try done.
  { by eapply geom_env. }
  rewrite Htn, Hbl in W2, D2. set (hd0 := disk b (l_dev l) (l_start l)) in *.
  assert (Hhd : disk b1 (l_dev l) (l_start l) = hd0).
  { rewrite D1. apply apply_writes_other. intros [_ ?]%log_writes_to. lia. }
  rewrite Hhd, Hn in W2, D2. fold (header bl hd0) in W2, D2.
  assert (E02 : same_env b b2) by (by eapply same_env_trans).
  destruct (install_loop_spec l bl ds b2 0 bl) as (b3 & R3 & I3 & P3 & E3 & W3 & D3); try done.
  { by eapply geom_env. } { by eapply homes_env. } { by left. } { unfold NBUF in Hlen. lia. }
  { intros j d Hj. rewrite D2, upd_disk_ne, D1 by lia. by apply log_writes_get. }
  assert (Hg3 : geom b3 (clear_n l)).
  { eapply geom_env; [exact E3|]. eapply geom_env; [exact E02|]. by destruct Hg. }
  destruct (write_head_spec (clear_n l) b3 []) as (b4 & R4 & I4 & P4 & E4 & W4 & D4 & V4); try done.
  { cbn. unfold NBUF. lia. } { by intros ?%elem_of_nil. }
  cbn [clear_n l_dev l_start lh_n lh_block] in W4, D4, P4. change (take (Z.to_nat 0) (lh_block l)) with (@nil Z) in W4, D4.
  assert (Hhd3 : disk b3 (l_dev l) (l_start l) = header bl hd0).
  { rewrite D3, apply_writes_other, D2; [apply upd_disk_eq|]. by intros [_ ?]%home_writes_to. }
  rewrite Hhd3 in W4, D4. change (hb_store (store32 (header bl hd0) 0 (u32 0)) [] 0) with (header [] (header bl hd0)) in W4, D4.
  exists b4. split_and!; try done.
  - unfold commit. mrun. cbn [l_log]. rewrite Hn.
    assert ((Z.of_nat (length bl) >? 0) = true) as -> by (apply Z.gtb_lt; destruct bl; [done|cbn [length]; lia]).
    assert (Rw : write_log iderw (LState b l) = Done tt (LState b1 l))
      by (unfold write_log; mrun; cbn [l_log]; by rewrite Htn).
    assert (Ri : install_trans iderw (LState b2 l) = Done tt (LState b3 l))
      by (unfold install_trans; mrun; cbn [l_log]; by rewrite Htn).
    cbn [when]. mcall Rw. mcall R2. mcall Ri. exact R4.
  - by eapply same_env_trans, same_env_trans.
  - unfold ws, commit_writes. rewrite W4, W3, W2, W1, <- !app_assoc. done.
  - unfold ws, commit_writes. rewrite !apply_writes_app. cbn. by rewrite D4, D3, D2, D1.
Qed.

(** The transaction a header block describes, and its data in the log. *)
Definition logged_blocks (hd : blk) : list Z := map (hb_block hd) (seq 0 (Z.to_nat (hb_n hd))).
Definition logged_data (dk : Z → Z → blk) (dev start : Z) (hd : blk) : list blk :=
  map (λ j, dk dev (start + Z.of_nat j + 1)) (seq 0 (Z.to_nat (hb_n hd))).

Definition recover_writes (dev start : Z) (dk : Z → Z → blk) : list (Z * Z * blk) :=
  let hd := dk dev start in
  home_writes dev (logged_blocks hd) (logged_data dk dev start hd) ++ [(dev, start, header [] hd)].

Definition set_head (n : Z) (bl : list Z) (l : log) : log :=
  Log (l_lock l) (l_start l) (l_size l) (l_outstanding l) (l_committing l) (l_dev l) n bl.

Lemma read_head_spec l b :
  bio_inv [] b → geom b l → pins b (l_dev l) [] →
  let hd := disk b (l_dev l) (l_start l) in
  hb_n hd <= LOGSIZE →
  ∃ b', read_head iderw (LState b l) = Done tt (LState b' (set_head (hb_n hd)
      (logged_blocks hd ++ drop (Z.to_nat (hb_n hd)) (lh_block l)) l)) ∧
    bio_inv [] b' ∧ pins b' (l_dev l) [] ∧ same_env b b' ∧ wlog b' = wlog b ∧ disk b' = disk b.
Proof using Hdrv.
  intros Hinv Hg Hp hd Hn. pose proof (ge_dev _ _ Hg) as Hd.
  pose proof (ge_good _ _ Hg 0 ltac:(unfold LOGSIZE, MAXOPBLOCKS; lia)) as Hgd. rewrite Z.add_0_r in Hgd.
  assert (Hnp : ¬ pinned b (l_dev l) (l_start l)) by (rewrite (Hp (l_dev l) (l_start l)); intros [_ H]; by apply elem_of_nil in H).
  destruct (bread_step [] b (l_dev l) (l_start l) Hinv Hd Hgd)
    as (i & f & b1 & R1 & I1 & B1 & V1 & D1 & W1 & P1 & F1 & J1 & E1);
    [by intros ? ? ?%elem_of_nil|right; eapply pins_available; [done..|cbn; unfold NBUF; lia]|].
  rewrite cview_clean in B1 by done.
  destruct (brelse_step [i] [] b1 i f (l_dev l) (l_start l) hd I1) as (b2 & R2 & I2 & V2 & D2 & W2 & P2 & J2 & E2);
    [done|done|done|right; by rewrite D1|].
  exists b2. split_and!; try done.
  - unfold read_head. mrun. mcall (on_bio_run _ (LState b l) _ _ R1). cbn [l_bio l_log].
    rewrite (the_buf_lookup i b1 _ B1). cbn [held_buf b_data]. fold hd.
    ztest (LOGSIZE <? hb_n hd) is false. mrun.
    unfold set_lh, set_l_log. cbn [l_bio l_log]. by rewrite (on_bio_at _ _ _ _ _ R2).
  - intros dv bn. by rewrite P2, P1.
  - by eapply same_env_trans.
  - by rewrite W2.
  - by rewrite D2.
Qed.

Lemma recover_run l b :
  bio_inv [] b → geom b l → pins b (l_dev l) [] →
  let hd := disk b (l_dev l) (l_start l) in
  hb_n hd < Z.of_nat NBUF → Forall (home b l) (logged_blocks hd) →
  let ws := recover_writes (l_dev l) (l_start l) (disk b) in
  ∃ b' l', recover_from_log iderw (LState b l) = Done tt (LState b' l') ∧ lh_n l' = 0 ∧
    bio_inv [] b' ∧ pins b' (l_dev l) [] ∧ same_env b b' ∧
    wlog b' = wlog b ++ ws ∧ disk b' = apply_writes ws (disk b).
Proof using Hdrv.
  intros Hinv Hg Hp hd Hn Hh ws.
  assert (Hlen : length (logged_blocks hd) = Z.to_nat (hb_n hd)) by (unfold logged_blocks; by rewrite length_map, length_seq).
  destruct (read_head_spec l b Hinv Hg Hp) as (b1 & R1 & I1 & P1 & E1 & W1 & D1).
  { fold hd. unfold LOGSIZE, MAXOPBLOCKS, NBUF in *. lia. }
  fold hd in R1. set (l1 := set_head _ _ l) in *.
  assert (Hg1 : geom b1 l1) by (eapply geom_env; [exact E1|]; by destruct Hg).
  destruct (install_loop_spec l1 (logged_blocks hd) (logged_data (disk b) (l_dev l) (l_start l) hd) b1 0 [])
    as (b2 & R2 & I2 & P2 & E2 & W2 & D2); try done.
  { eapply homes_env; [exact E1|]. done. } { by right. }
  { rewrite Hlen. unfold NBUF in Hn. lia. } { rewrite Hlen. unfold NBUF in *. lia. }
  { unfold logged_data. by rewrite length_map, length_seq. }
  { cbn [l1 set_head lh_block]. by rewrite drop_0, take_app_length. }
  { intros j d Hj. rewrite D1. unfold logged_data in Hj. apply list_lookup_fmap_Some in Hj as (k & -> & Hk).
    apply lookup_seq in Hk as [-> _]. cbn [l1 set_head l_dev l_start]. f_equal. lia. }
  assert (Hg2 : geom b2 (clear_n l1)) by (eapply geom_env; [exact E2|]; by destruct Hg1).
  destruct (write_head_spec (clear_n l1) b2 []) as (b3 & R3 & I3 & P3 & E3 & W3 & D3 & V3); try done.
  { cbn. unfold NBUF. lia. } { by intros ?%elem_of_nil. }
  cbn [clear_n l1 set_head l_dev l_start lh_n lh_block] in W2, D2, W3, D3, P3.
  assert (Hhd2 : disk b2 (l_dev l) (l_start l) = hd).
  { rewrite D2, apply_writes_other, D1; [done|]. intros [_ Hin]%home_writes_to.
    by apply (start_not_home b l _ Hg Hh). }
  rewrite Hhd2 in W3, D3. change (take (Z.to_nat 0) _) with (@nil Z) in W3, D3.
  change (hb_store (store32 hd 0 (u32 0)) [] 0) with (header [] hd) in W3, D3.
  exists b3, (clear_n l1). split_and!; try done.
  - unfold recover_from_log. mcall R1.
    assert (Ri : install_trans iderw (LState b1 l1) = Done tt (LState b2 l1)).
    { unfold install_trans. mrun. cbn [l_log l1 set_head lh_n]. by rewrite <- Hlen. }
    mcall Ri. exact R3.
  - by eapply same_env_trans, same_env_trans.
  - unfold ws, recover_writes. fold hd. by rewrite W3, W2, W1, <- app_assoc.
  - unfold ws, recover_writes. fold hd. rewrite apply_writes_app. cbn. by rewrite D3, D2, D1.
Qed.
End run.
