(* ===== verification/LogCrash.v ===== *)
(** * Crash safety of the log (log.c)

    The disk may stop after any of the block writes of a commit, and again during
    any recovery.  Whatever the sequence of crashes, a completed recovery leaves
    either all blocks of the transaction as they were or all of them updated. *)

From Stdlib Require Import ZArith Lia.
From stdpp Require Import base numbers list strings relations.
From S2P Require Import Prelude Mem Sleeplock Bio BioFacts Log LogFacts LogRun.

(** ** The header block *)

Lemma hb_store_before bl : ∀ d i off,
  off + 4 <= 4 + 4 * Z.of_nat i → load32 (hb_store d bl i) off = load32 d off.
Proof.
  induction bl as [|b bl IH]; intros d i off Ho; [done|]. cbn [hb_store].
  rewrite IH by lia. apply load32_store32_ne. lia.
Qed.

Lemma hb_store_get bl : ∀ d i j b,
  Forall (λ x, 0 <= x < 4294967296) bl → bl !! j = Some b →
  load32 (hb_store d bl i) (4 + 4 * Z.of_nat (i + j)) = b.
Proof.
  induction bl as [|x bl IH]; intros d i j b Hall Hj; [done|].
  apply Forall_cons in Hall as [Hx Hall]. destruct j as [|j]; cbn [hb_store] in *.
  - cbn in Hj. simplify_eq. rewrite Nat.add_0_r, hb_store_before by lia. by apply load32_store32_eq.
  - rewrite <- (IH (store32 d (4 + 4 * Z.of_nat i) x) (S i) j b Hall Hj). f_equal. lia.
Qed.

Lemma header_n bl hd : Z.of_nat (length bl) <= LOGSIZE → hb_n (header bl hd) = Z.of_nat (length bl).
Proof.
  intros Hn. unfold LOGSIZE, MAXOPBLOCKS in Hn. unfold hb_n, header. rewrite hb_store_before by lia.
  rewrite u32_small, load32_store32_eq by lia. apply s32_id. lia.
Qed.

Lemma header_blocks bl hd :
  Z.of_nat (length bl) <= LOGSIZE → Forall (λ x, 0 <= x < 4294967296) bl →
  logged_blocks (header bl hd) = bl.
Proof.
  intros Hn Hall. unfold logged_blocks. rewrite header_n by done. rewrite Nat2Z.id.
  apply list_eq. intros j. destruct (bl !! j) as [b|] eqn:E.
  - assert (Hj : (j < length bl)%nat) by by eapply lookup_lt_Some.
    change (map ?f ?l) with (f <$> l). rewrite list_lookup_fmap, lookup_seq_lt by done.
    cbn. f_equal. by apply (hb_store_get bl _ 0 j b).
  - apply lookup_ge_None. rewrite length_map, length_seq. by apply lookup_ge_None.
Qed.

Section crash.
Context {iderw : nat → M bstate unit} `{Hdrv : BlockDriver iderw}.
Context (b : bstate) (l : log) (bl : list Z) (Htx : txn b l bl).

Let dev : Z := l_dev l.
Let start : Z := l_start l.
Let old : Z → blk := disk b dev.
Let new : Z → blk := cview b dev.
Let ds : list blk := map new bl.

(** No transaction in the log; the home blocks are [v]. *)
Definition empty_log (v : Z → blk) (d : Z → Z → blk) : Prop :=
  hb_n (d dev start) = 0 ∧ ∀ bn, home b l bn → d dev bn = v bn.

(** The transaction is in the log; only its own home blocks may be out of date. *)
Definition committed (d : Z → Z → blk) : Prop :=
  hb_n (d dev start) = Z.of_nat (length bl) ∧ logged_blocks (d dev start) = bl ∧
  logged_data d dev start (d dev start) = ds ∧
  ∀ bn, home b l bn → bn ∉ bl → d dev bn = new bn.

Lemma tx_small : Z.of_nat (length bl) <= LOGSIZE ∧ Forall (λ x, 0 <= x < 4294967296) bl.
Proof using Htx.
  split.
  - pose proof (tx_len _ _ _ Htx). unfold NBUF, LOGSIZE, MAXOPBLOCKS in *. lia.
  - eapply Forall_impl; [apply (tx_home _ _ _ Htx)|]. intros x Hx. apply Hx.
Qed.

Lemma new_old bn : home b l bn → bn ∉ bl → new bn = old bn.
Proof using Htx.
  intros Hh Hn. apply cview_clean; [apply Htx|apply Htx|].
  intros Hp. by apply (tx_pins _ _ _ Htx) in Hp as [_ ?].
Qed.

Lemma home_not_start bn : home b l bn → bn ≠ start.
Proof. intros (_ & _ & Hn) ->. apply Hn. unfold in_log, LOGSIZE, MAXOPBLOCKS. fold start. lia. Qed.

Lemma header_nil_n hd : hb_n (header [] hd) = 0.
Proof. by rewrite (header_n []). Qed.

(** A block that is neither the header nor a log slot nor of the transaction is
    written by none of the sequences. *)
Lemma writes_prefix ws k dv bn : writes_to (take k ws) dv bn → writes_to ws dv bn.
Proof. intros [d Hd]. exists d. by eapply elem_of_take in Hd as (i & Hi%list_elem_of_lookup_2 & _). Qed.

Lemma home_writes_take k : ∀ bl' ds', take k (home_writes dev bl' ds') = home_writes dev (take k bl') ds'.
Proof.
  induction k as [|k IH]; intros [|x bl'] [|d ds']; try done. cbn. f_equal. apply IH.
Qed.

(** Installing blocks of the transaction gives them their new content. *)
Lemma home_writes_get bl' dk bn : ∀ dk',
  (∀ x, dk' x = dk dev x) → bl' ⊆ bl →
  apply_writes (home_writes dev bl' (map new bl')) dk dev bn =
    if decide (bn ∈ bl') then new bn else dk' bn.
Proof.
  revert dk. induction bl' as [|x bl' IH]; intros dk dk' Hdk Hsub.
  { cbn. rewrite decide_False; [done|]. by intros ?%elem_of_nil. }
  cbn. unfold home_writes in IH. rewrite (IH _ (upd_disk dev x (new x) dk dev));
    [|done|intros y Hy; apply Hsub; by right].
  destruct (decide (bn ∈ bl')) as [Hin|Hin].
  - rewrite decide_True; [done|by right].
  - destruct (decide (bn = x)) as [->|Hne].
    + rewrite upd_disk_eq, decide_True; [done|by left].
    + rewrite upd_disk_ne by tauto. rewrite decide_False; [done|].
      intros [?|?]%elem_of_cons; done.
Qed.

Lemma home_writes_map k : home_writes dev (take k bl) ds = home_writes dev (take k bl) (map new (take k bl)).
Proof.
  unfold ds. clear. revert k. induction bl as [|x r IH]; intros [|k]; try done. cbn. f_equal. apply IH.
Qed.

Lemma slot_not_home j : 0 <= j < LOGSIZE → start + j + 1 ∉ bl.
Proof using Htx.
  intros Hj Hin. pose proof (tx_home _ _ _ Htx) as Hh. rewrite Forall_forall in Hh.
  apply (Hh _ Hin). unfold in_log. fold start. lia.
Qed.

Lemma start_not_in : start ∉ bl.
Proof using Htx. eapply start_not_home; apply Htx. Qed.

Lemma committed_install k d : committed d → committed (apply_writes (take k (home_writes dev bl ds)) d).
Proof using Htx.
  intros (H1 & H2 & H3 & H4).
  assert (Hoth : ∀ bn, bn ∉ bl → apply_writes (take k (home_writes dev bl ds)) d dev bn = d dev bn).
  { intros bn Hbn. apply apply_writes_other. intros Hw%writes_prefix%home_writes_to. tauto. }
  assert (Hst := Hoth start start_not_in). unfold committed. rewrite Hst. split_and!; try done.
  - etrans; [|exact H3]. unfold logged_data. apply map_ext_in. intros j Hj%in_seq. apply Hoth.
    apply slot_not_home. rewrite H1 in Hj. pose proof (proj1 tx_small). lia.
  - intros bn Hh Hn. rewrite Hoth by done. by apply H4.
Qed.

Lemma committed_installed d :
  committed d → ∀ bn, home b l bn → apply_writes (home_writes dev bl ds) d dev bn = new bn.
Proof using Htx.
  intros (H1 & H2 & H3 & H4) bn Hh. unfold ds. rewrite (home_writes_get bl d bn (d dev)) by done.
  case_decide; [done|by apply H4].
Qed.

(** ** Recovery from each kind of disk *)

Lemma recover_empty v k d :
  empty_log v d → empty_log v (apply_writes (take k (recover_writes dev start d)) d).
Proof.
  intros [H0 Hv]. unfold recover_writes, logged_blocks, logged_data. rewrite H0.
  change (seq 0 (Z.to_nat 0)) with (@nil nat). cbn [map home_writes zip_with app].
  destruct k as [|k]; [by split|]. cbn [take]. rewrite take_nil. cbn [apply_writes]. split.
  - by rewrite upd_disk_eq, header_nil_n.
  - intros bn Hh. rewrite upd_disk_ne; [by apply Hv|]. intros [_ E]. by eapply home_not_start.
Qed.

Lemma recover_committed k d :
  committed d →
  let d' := apply_writes (take k (recover_writes dev start d)) d in
  if decide (k <= length bl)%nat then committed d' else empty_log new d'.
Proof using Htx.
  intros Hc d'. pose proof Hc as (H1 & H2 & H3 & H4). unfold d', recover_writes. rewrite H2, H3.
  assert (Hl : length (home_writes dev bl ds) = length bl).
  { unfold home_writes, ds. rewrite length_zip_with, length_map. lia. }
  rewrite take_app, Hl. case_decide as Hk.
  - replace (k - length bl)%nat with 0%nat by lia. rewrite take_0, app_nil_r. by apply committed_install.
  - rewrite take_ge by lia. rewrite take_ge by (cbn; lia). rewrite apply_writes_app. cbn [apply_writes]. split.
    + by rewrite upd_disk_eq, header_nil_n.
    + intros bn Hh. rewrite upd_disk_ne; [by apply committed_installed|].
      intros [_ E]. by eapply home_not_start.
Qed.

(** ** A commit cut short *)

Lemma commit_prefix k :
  hb_n (old start) = 0 →
  let d := apply_writes (take k (commit_writes dev start bl ds (old start))) (disk b) in
  if decide (k <= length bl)%nat then empty_log old d
  else committed d ∨ empty_log new d.
Proof using Htx.
  intros H0 d. unfold d, commit_writes. destruct tx_small as [Hn Hu].
  assert (Hlds : length ds = length bl) by apply length_map.
  assert (Hll : ∀ t ds', length (log_writes dev start t ds') = length ds').
  { intros t ds'. revert t. induction ds' as [|e r IH]; intros t; [done|]. cbn. by rewrite IH. }
  rewrite take_app, Hll, Hlds. case_decide as Hk.
  - replace (k - length bl)%nat with 0%nat by lia. rewrite take_0, app_nil_r.
    split.
    + rewrite apply_writes_other; [done|]. intros [_ ?]%writes_prefix%log_writes_to. lia.
    + intros bn Hh. rewrite apply_writes_other; [done|].
      intros [_ Hb]%writes_prefix%log_writes_to. apply Hh. unfold in_log. fold start. lia.
  - rewrite take_ge by (rewrite Hll; lia). set (k' := (k - length bl)%nat).
    assert (Hk' : k' = S (k' - 1)) by lia. rewrite Hk'. cbn [take app].
    rewrite apply_writes_app. cbn [apply_writes].
    set (d1 := upd_disk _ _ _ _).
    assert (Hc : committed d1).
    { assert (Hs : d1 dev start = header bl (old start)) by apply upd_disk_eq.
      unfold committed. rewrite Hs. split_and!; [by apply header_n|by apply header_blocks| |].
      - unfold logged_data. rewrite header_n, Nat2Z.id by done. apply list_eq. intros j.
        destruct (ds !! j) as [e|] eqn:E.
        + assert (Hj : (j < length bl)%nat) by (rewrite <- Hlds; by eapply lookup_lt_Some).
          change (map ?f ?q) with (f <$> q). rewrite list_lookup_fmap, lookup_seq_lt by done. cbn. f_equal.
          unfold d1. rewrite upd_disk_ne by lia. rewrite <- (log_writes_get dev start ds 0 (disk b) j e E). f_equal. lia.
        + apply lookup_ge_None. rewrite length_map, length_seq, <- Hlds. by apply lookup_ge_None.
      - intros bn Hh Hnb. unfold d1. rewrite upd_disk_ne, apply_writes_other, new_old; try done.
        + intros [_ Hb]%log_writes_to. apply Hh. unfold in_log. fold start. lia.
        + intros [_ E]. by eapply home_not_start. }
    assert (Hl : length (home_writes dev bl ds) = length bl)
      by (unfold home_writes; rewrite length_zip_with; lia).
    rewrite take_app, Hl. destruct (decide (k' - 1 <= length bl)%nat) as [Hle|Hgt].
    + left. replace (k' - 1 - length bl)%nat with 0%nat by lia. rewrite take_0, app_nil_r.
      by apply committed_install.
    + right. rewrite take_ge by lia. rewrite take_ge by (cbn; lia). rewrite apply_writes_app. cbn [apply_writes]. split.
      * by rewrite upd_disk_eq, header_nil_n.
      * intros bn Hh. rewrite upd_disk_ne; [by apply committed_installed|].
        intros [_ E]. by eapply home_not_start.
Qed.

(** ** Reboots *)

(** A kernel that has just initialised its buffer cache on disk [d]. *)
Definition boots (bb : bstate) (ll : log) (d : Z → Z → blk) : Prop :=
  bio_inv [] bb ∧ pins bb dev [] ∧ disk bb = d ∧ havedisk1 bb = havedisk1 b ∧
  disksize bb = disksize b ∧ l_dev ll = dev ∧ l_start ll = start.

(** A recovery that started on [d] was cut short and left [d']. *)
Definition interrupted (d d' : Z → Z → blk) : Prop :=
  ∃ bb ll b2 l2 ws k, boots bb ll d ∧ recover_from_log iderw (LState bb ll) = Done tt (LState b2 l2) ∧
    wlog b2 = wlog bb ++ ws ∧ d' = apply_writes (take k ws) d.

(** A disk on which recovery will bring about the old or the new contents. *)
Definition will_be (is_new : bool) (d : Z → Z → blk) : Prop :=
  if is_new then committed d ∨ empty_log new d else empty_log old d.

Lemma boots_recover bb ll d v :
  boots bb ll d → will_be v d →
  ∃ b2 l2, recover_from_log iderw (LState bb ll) = Done tt (LState b2 l2) ∧
    wlog b2 = wlog bb ++ recover_writes dev start d ∧
    disk b2 = apply_writes (recover_writes dev start d) d.
Proof using Htx Hdrv.
  intros (Hi & Hp & <- & H1 & H2 & Hd & Hs) Hv. pose proof (tx_geom _ _ _ Htx) as [G1 G2 G3].
  assert (Hg : geom bb ll).
  { split; rewrite ?Hd, ?Hs; try done. intros k Hk. rewrite (drv_frame b); auto. }
  assert (Hhome : ∀ x, home b l x → home bb ll x).
  { intros x (? & ? & Hx). unfold home, in_log. rewrite Hd, Hs. split_and!; try done || lia.
    rewrite (drv_frame b); auto. }
  assert (Hh : hb_n (disk bb dev start) < Z.of_nat NBUF ∧ Forall (home bb ll) (logged_blocks (disk bb dev start))).
  { assert (He : hb_n (disk bb dev start) = 0 →
      hb_n (disk bb dev start) < Z.of_nat NBUF ∧ Forall (home bb ll) (logged_blocks (disk bb dev start))).
    { intros E. unfold logged_blocks. rewrite E. by split. }
    destruct v; [destruct Hv as [(C1 & C2 & _)|[C1 _]]|destruct Hv as [C1 _]]; [|by apply He..].
    rewrite C1, C2. pose proof (tx_len _ _ _ Htx). split; [lia|].
    eapply Forall_impl; [apply (tx_home _ _ _ Htx)|done]. }
  destruct (recover_run ll bb Hi Hg) as (b2 & l2 & R & _ & _ & _ & _ & W & D).
  { by rewrite Hd. } { rewrite Hd, Hs. apply Hh. } { rewrite Hd, Hs. apply Hh. }
  exists b2, l2. rewrite Hd, Hs in W, D. done.
Qed.

Lemma will_be_step v d d' : interrupted d d' → will_be v d → will_be v d'.
Proof using Htx Hdrv.
  intros (bb & ll & b2 & l2 & ws & k & Hb & R & W & ->) Hv.
  destruct (boots_recover bb ll d v Hb Hv) as (b2' & l2' & R' & W' & _).
  rewrite R in R'. injection R' as <- <-. rewrite W in W'. apply app_inv_head in W' as ->.
  destruct v; [destruct Hv as [Hc|He]|].
  - pose proof (recover_committed k d Hc) as H. cbn zeta in H. unfold will_be. case_decide; [by left|by right].
  - right. by apply recover_empty.
  - by apply recover_empty.
Qed.

Lemma will_be_end v d bn :
  will_be v d → home b l bn →
  apply_writes (recover_writes dev start d) d dev bn = if v then new bn else old bn.
Proof using Htx.
  intros Hv Hh.
  rewrite <- (take_ge (recover_writes dev start d) (length (recover_writes dev start d))) by lia.
  destruct v; [destruct Hv as [Hc|He]|].
  - pose proof (recover_committed (length (recover_writes dev start d)) d Hc) as H. cbn zeta in H.
    assert (Hl : length (recover_writes dev start d) = S (length bl)).
    { destruct Hc as (_ & C2 & C3 & _). unfold recover_writes. rewrite C2, C3.
      unfold home_writes, ds. rewrite length_app, length_zip_with, length_map. cbn. lia. }
    rewrite Hl in *. rewrite decide_False in H by lia. by apply H.
  - by apply (recover_empty new).
  - by apply (recover_empty old).
Qed.

Lemma commit_crash k d bb ll :
  bl ≠ [] → hb_n (disk b dev start) = 0 →
  rtc interrupted (apply_writes (take k (commit_writes dev start bl ds (old start))) (disk b)) d →
  boots bb ll d →
  ∃ b2 l2, recover_from_log iderw (LState bb ll) = Done tt (LState b2 l2) ∧
    ∀ bn, home b l bn → disk b2 dev bn = if decide (k <= length bl)%nat then old bn else new bn.
Proof using Htx Hdrv.
  intros Hne H0 Hr Hb. pose proof (commit_prefix k H0) as Hp. cbn zeta in Hp.
  set (v := if decide (k <= length bl)%nat then false else true).
  assert (Hw : will_be v (apply_writes (take k (commit_writes dev start bl ds (old start))) (disk b))).
  { unfold v, will_be. by case_decide. }
  assert (Hwd : will_be v d).
  { revert Hw. clear Hp. induction Hr; [done|]. intros Hw. apply IHHr; [done|]. by eapply will_be_step. }
  destruct (boots_recover bb ll d v Hb Hwd) as (b2 & l2 & R & _ & D).
  exists b2, l2. split; [done|]. intros bn Hh. rewrite D, (will_be_end v) by done.
  unfold v. by case_decide.
Qed.
End crash.

