(* ===== verification/LogClaims.v ===== *)
(** * Properties of the log in use (log.c)

    A concrete transaction for the crash theorem, the space protocol of
    [begin_op]/[log_write]/[end_op], and the size of the largest transaction that
    the buffer cache can commit. *)

From Stdlib Require Import ZArith Lia.
From stdpp Require Import base numbers list strings relations.
From S2P Require Import Prelude Mem Sleeplock Bio BioFacts Memide Log LogFacts LogRun LogCrash.

(** ** A transaction of one block *)

Definition demo_buf : buf := Buf 6 1 100 (SleepLock false false 0) 0 (λ _, 7).
Definition demo_bio : bstate :=
  BState false (demo_buf :: replicate 29 buf0) (seq 0 30) 1 [] false [] false 1000 (λ _ _ _, 0) [].
Definition demo_log : log := Log false 2 30 1 true 1 1 (100 :: replicate 29 0).

Lemma demo_bufs i b : bufs demo_bio !! i = Some b → i = 0%nat ∧ b = demo_buf ∨ b = buf0.
Proof.
  destruct i as [|i]; [intros [= <-]; left; by split|]. intros H. right.
  change (replicate 29 buf0 !! i = Some b) in H. by apply lookup_replicate_1 in H as [-> _].
Qed.

Lemma demo_bio_inv : bio_inv [] demo_bio.
Proof.
  split; try done.
  - split; [constructor|]. by intros i ?%elem_of_nil.
  - by intros i b _ ?%elem_of_nil.
  - intros i b [[-> ->]| ->]%demo_bufs _; cbn; tauto.
  - intros i j bi bj [[-> ->]| ->]%demo_bufs [[-> ->]| ->]%demo_bufs; done.
Qed.

Lemma demo_txn : txn demo_bio demo_log [100].
Proof.
  split; try done.
  - exact demo_bio_inv.
  - split; try done. intros k Hk. unfold LOGSIZE, MAXOPBLOCKS in *. cbn. lia.
  - apply Forall_singleton. split_and!; try done. unfold in_log, LOGSIZE, MAXOPBLOCKS. cbn. lia.
  - apply NoDup_singleton.
  - intros dv bn. rewrite list_elem_of_singleton. split.
    + intros (i & b & [[-> ->]| ->]%demo_bufs & Hd & M1 & M2); [by subst|done].
    + intros [-> ->]. by exists 0%nat, demo_buf.
  - cbn. unfold NBUF. lia.
Qed.


(** ** The largest transaction *)

Lemma for_tail_panic body k tail s msg :
  body tail s = Panic msg → for_tail body (S k) tail s = Panic msg.
Proof. intros H. cbn [for_tail]. unfold bind. by rewrite H. Qed.

(** The header has room for LOGSIZE block numbers and [begin_op] and
    [log_write] let a transaction grow to that size, but the cache has no more
    than NBUF = LOGSIZE buffers: once a transaction has pinned all of them, its
    commit panics in [bget] for want of a buffer for the first log block. *)
Theorem full_log_panics {iderw : nat → M bstate unit} b l :
  bio_inv [] b → l_dev l ≠ 0 → 0 <= l_start l < 1000 → 0 < lh_n l →
  (∀ i bf, bufs b !! i = Some bf → dirty bf = true ∧ ¬ is_block (l_dev l) (l_start l + 1) bf) →
  commit iderw (LState b l) = Panic "bget: no buffers".
Proof.
  intros Hinv Hd Hs Hn Hall.
  assert (Hg : bget (l_dev l) (l_start l + 1) b = Panic "bget: no buffers").
  { rewrite bget_run by apply Hinv.
    rewrite (proj2 (find_cached_absent Hinv (l_dev l) (l_start l + 1))) by (intros i bf Hi; by apply (Hall i)).
    pose proof (find_unused_spec (reverse (lru b)) b) as Hu.
    destruct (find_unused _ _) as [i|]; [|done]. destruct Hu as (Hi & _ & Hdi).
    rewrite elem_of_reverse in Hi. apply (bi_in_lru Hinv) in Hi as [bf Hb].
    rewrite (the_buf_lookup _ _ _ Hb) in Hdi. by rewrite (proj1 (Hall i bf Hb)) in Hdi. }
  assert (Hw : write_log_body iderw 0 (LState b l) = Panic "bget: no buffers").
  { unfold write_log_body. mrun. cbn [l_log]. rewrite u32_small by lia.
    replace (l_start l + Z.of_nat 0 + 1) with (l_start l + 1) by lia.
    unfold bind at 1, on_bio, lift. cbn [l_bio]. unfold bread, bind at 1. by rewrite Hg. }
  assert (Hwl : write_log iderw (LState b l) = Panic "bget: no buffers").
  { unfold write_log. mrun. cbn [l_log]. replace (Z.to_nat (lh_n l)) with (S (Z.to_nat (lh_n l) - 1)) by lia.
    by apply for_tail_panic. }
  unfold commit. mrun. cbn [l_log]. rewrite (proj2 (Z.gtb_lt _ _)) by done. cbn [when].
  unfold bind at 1. by rewrite Hwl.
Qed.

(** Thirty pinned blocks, 100 to 129. *)
Definition full_bio : bstate :=
  BState false (map (λ i, Buf 6 1 (100 + Z.of_nat i) (SleepLock false false 0) 0 (λ _, 7)) (seq 0 30))
         (seq 0 30) 1 [] false [] false 1000 (λ _ _ _, 0) [].
Definition full_log : log := Log false 2 31 0 true 1 30 (map (λ i, 100 + Z.of_nat i) (seq 0 30)).

Lemma full_bufs i b :
  bufs full_bio !! i = Some b → b = Buf 6 1 (100 + Z.of_nat i) (SleepLock false false 0) 0 (λ _, 7).
Proof.
  intros Hb. apply list_lookup_fmap_Some in Hb as (j & -> & Hj). by apply lookup_seq in Hj as [-> _].
Qed.

Lemma full_log_panics_witness : commit memide_rw (LState full_bio full_log) = Panic "bget: no buffers".
Proof.
  apply (full_log_panics (iderw := memide_rw) full_bio full_log).
  - split; try done.
    + split; [constructor|]. by intros i ?%elem_of_nil.
    + by intros i b _ ?%elem_of_nil.
    + intros i b ->%full_bufs _. cbn. tauto.
    + intros i j bi bj ->%full_bufs ->%full_bufs. cbn. lia.
  - discriminate.
  - cbn. lia.
  - reflexivity.
  - intros i bf ->%full_bufs. split; [reflexivity|]. intros [_ H]. cbn in H. lia.
Defined.

(** ** Recording a block *)

Lemma absorb_spec x : ∀ n bl i, (n <= length bl)%nat →
  ((x ∉ take n bl) ∧ absorb bl x n i = (i + n)%nat) ∨
  ∃ j, (j < n)%nat ∧ bl !! j = Some x ∧ absorb bl x n i = (i + j)%nat.
Proof.
  induction n as [|n IH]; intros bl i Hn.
  { left. split; [by intros ?%elem_of_nil|]. destruct bl; cbn; lia. }
  destruct bl as [|b bl]; cbn in Hn; [lia|]. cbn [absorb take].
  destruct (b =? x) eqn:E; zb.
  { right. exists 0%nat. subst. split_and!; [lia|done|lia]. }
  destruct (IH bl (S i)) as [[Hx ->]|(j & Hj & Hb & ->)]; [lia| |].
  - left. split; [|lia]. by apply not_elem_of_cons.
  - right. exists (S j). split_and!; [lia|done|lia].
Qed.

(** The header after [log_write] of block [x]. *)
Definition lh_add (x : Z) (l : log) : log :=
  let i := absorb (lh_block l) x (Z.to_nat (lh_n l)) 0 in
  Log (l_lock l) (l_start l) (l_size l) (l_outstanding l) (l_committing l) (l_dev l)
      (if Z.of_nat i =? lh_n l then lh_n l + 1 else lh_n l) (<[i := x]> (lh_block l)).

Definition logged (l : log) : list Z := take (Z.to_nat (lh_n l)) (lh_block l).

Lemma lh_add_spec x l :
  0 <= lh_n l < LOGSIZE → length (lh_block l) = Z.to_nat LOGSIZE →
  (x ∈ logged l ∧ logged (lh_add x l) = logged l ∧ lh_n (lh_add x l) = lh_n l) ∨
  ((x ∉ logged l) ∧ logged (lh_add x l) = logged l ++ [x] ∧ lh_n (lh_add x l) = lh_n l + 1).
Proof.
  intros Hn Hlen. unfold logged, lh_add. cbn [lh_n lh_block].
  destruct (absorb_spec x (Z.to_nat (lh_n l)) (lh_block l) 0) as [[Hx ->]|(j & Hj & Hb & ->)]; [lia| |].
  - right. replace (Z.of_nat (0 + Z.to_nat (lh_n l))) with (lh_n l) by lia. rewrite Z.eqb_refl, Nat.add_0_l.
    split_and!; [done| |done]. replace (Z.to_nat (lh_n l + 1)) with (S (Z.to_nat (lh_n l))) by lia.
    rewrite (take_S_r _ _ x) by (apply list_lookup_insert_eq; lia). by rewrite take_insert_ge by lia.
  - left. rewrite Nat.add_0_l. ztest (Z.of_nat j =? lh_n l) is false. rewrite list_insert_id by done.
    split_and!; try done. apply list_elem_of_lookup. exists j. by rewrite lookup_take_lt.
Qed.

Lemma log_write_run b l i bf :
  bufs b !! i = Some bf → l_lock l = false → lh_n l < LOGSIZE → lh_n l < l_size l - 1 → 1 <= l_outstanding l →
  log_write i (LState b l) =
    Done tt (LState (put_buf i (set_flags (Z.lor (b_flags bf) B_DIRTY) bf) b) (lh_add (b_blockno bf) l)).
Proof.
  intros Hb Hlk H1 H2 H3. unfold log_write. mrun. cbn [l_log]. rewrite !Z.geb_leb.
  ztest (LOGSIZE <=? lh_n l) is false. ztest (l_size l - 1 <=? lh_n l) is false.
  ztest (l_outstanding l <? 1) is false. cbn [orb].
  unfold bind, gets, acquire, modify, release, on_bio, lift, held_log, set_l_lock, set_lh, set_l_log.
  cbn [l_log l_bio l_lock l_start l_size l_outstanding l_committing l_dev lh_n lh_block]. rewrite Hlk.
  cbn [l_log l_bio l_lock l_start l_size l_outstanding l_committing l_dev lh_n lh_block].
  rewrite (the_buf_lookup i b bf Hb), (upd_buf_put i _ b bf Hb). unfold lh_add. by rewrite Hlk.
Qed.

(** [log_write] records the block of the buffer it is given: it returns, the
    logged blocks are those of before with this one added unless it was among
    them (absorption), so that none is ever listed twice, and the buffer is
    pinned.  The two panics happen exactly when the log is full or no operation
    is active. *)
Theorem log_write_records b l i bf :
  bufs b !! i = Some bf → l_lock l = false → 0 <= lh_n l → NoDup (logged l) →
  length (lh_block l) = Z.to_nat LOGSIZE →
  if (lh_n l >=? LOGSIZE) || (lh_n l >=? l_size l - 1) then
    log_write i (LState b l) = Panic "too big a transaction"
  else if l_outstanding l <? 1 then log_write i (LState b l) = Panic "log_write outside of trans"
  else ∃ b' l', log_write i (LState b l) = Done tt (LState b' l') ∧
    (∀ x, x ∈ logged l' ↔ x ∈ logged l ∨ x = b_blockno bf) ∧ NoDup (logged l') ∧
    lh_n l' = Z.of_nat (length (logged l')) ∧
    b' = put_buf i (set_flags (Z.lor (b_flags bf) B_DIRTY) bf) b.
Proof.
  intros Hb Hlk Hn Hnd Hlen. unfold log_write.
  destruct ((lh_n l >=? LOGSIZE) || (lh_n l >=? l_size l - 1)) eqn:E1; [mrun; cbn [l_log]; by rewrite E1|].
  destruct (l_outstanding l <? 1) eqn:E2; [mrun; cbn [l_log]; by rewrite E1, E2|].
  apply orb_false_iff in E1 as [E1 E3]. rewrite Z.geb_leb in E1, E3. zb.
  set (l' := lh_add (b_blockno bf) l).
  exists (put_buf i (set_flags (Z.lor (b_flags bf) B_DIRTY) bf) b), l'.
  assert (Hlen' : Z.of_nat (length (logged l)) = lh_n l) by (unfold logged; rewrite length_take; lia).
  split_and!.
  - mrun. apply (log_write_run b l i bf); done || lia.
  - unfold l'. destruct (lh_add_spec (b_blockno bf) l) as [(Hin & -> & _)|(Hin & -> & _)]; [lia|done| |]; intros x.
    + split; [tauto|]. by intros [?| ->].
    + by rewrite elem_of_app, list_elem_of_singleton.
  - unfold l'. destruct (lh_add_spec (b_blockno bf) l) as [(Hin & -> & _)|(Hin & -> & _)]; [lia|done|done|].
    apply NoDup_app. split_and!; [done| |apply NoDup_singleton]. intros x Hx ->%list_elem_of_singleton. done.
  - unfold l'. destruct (lh_add_spec (b_blockno bf) l) as [(Hin & -> & ->)|(Hin & -> & ->)]; [lia|done|lia|].
    rewrite length_app. cbn. lia.
  - done.
Qed.

Lemma log_write_records_witness :
  ∃ b' l', log_write 1 (LState demo_bio demo_log) = Done tt (LState b' l') ∧
           NoDup (logged l') ∧ lh_n l' = 2.
Proof.
  pose proof (log_write_records demo_bio demo_log 1 buf0) as H.
  destruct H as (b' & l' & R & Hx & Hnd & Hl & _).
  - reflexivity.
  - reflexivity.
  - cbn. lia.
  - apply NoDup_singleton.
  - reflexivity.
  - exists b', l'. split_and!; [exact R|exact Hnd|]. vm_compute in R. injection R as _ <-. reflexivity.
Defined.
