(* ===== verification/LogSpace.v ===== *)
(** * The space protocol of the log (log.c)

    File system operations run concurrently between [begin_op] and [end_op].
    Each is entitled to MAXOPBLOCKS calls of [log_write]; the steps below
    interleave the operations' calls in any order. *)

From Stdlib Require Import ZArith Lia.
From stdpp Require Import base numbers list strings relations.
From S2P Require Import Prelude Mem Sleeplock Bio BioFacts Memide Log LogClaims.

Section space.
Context (iderw : nat → M bstate unit).

(** ** The file system code below [commit] does not touch the log's state *)

Definition keeps_log {A} (m : M lstate A) : Prop := ∀ s a s', m s = Done a s' → l_log s' = l_log s.

Lemma keeps_on_bio {A} (m : M bstate A) : keeps_log (on_bio m).
Proof. intros s a s'. unfold on_bio, lift. by destruct (m (l_bio s)); intros; simplify_eq. Qed.

Lemma keeps_bind {A B} (m : M lstate A) (k : A → M lstate B) :
  keeps_log m → (∀ a, keeps_log (k a)) → keeps_log (bind m k).
Proof.
  intros Hm Hk s b s' H. apply bind_Done in H as (a & s1 & H1 & H2).
  rewrite (Hk _ _ _ _ H2). by eapply Hm.
Qed.

Lemma keeps_gets {A} (f : lstate → A) : keeps_log (gets f).
Proof. intros s a s' H. by injection H as _ <-. Qed.

Lemma keeps_lh_at i : keeps_log (lh_at i).
Proof. intros s a s'. unfold lh_at. by destruct (_ !! _); intros; simplify_eq. Qed.

Ltac keeps := repeat (first [apply keeps_bind; [|intros] | apply keeps_on_bio | apply keeps_gets | apply keeps_lh_at]).

Lemma keeps_for_tail body k : ∀ tail, (∀ t, keeps_log (body t)) → keeps_log (for_tail body k tail).
Proof.
  induction k as [|k IH]; intros tail Hb; cbn [for_tail]; [by intros s a s' [= _ <-]|].
  apply keeps_bind; [done|]. intros _. by apply IH.
Qed.

Lemma keeps_write_log : keeps_log (write_log iderw).
Proof. apply keeps_bind; [apply keeps_gets|]. intros n. apply keeps_for_tail. intros t. unfold write_log_body. keeps. Qed.

Lemma keeps_install : keeps_log (install_trans iderw).
Proof. apply keeps_bind; [apply keeps_gets|]. intros n. apply keeps_for_tail. intros t. unfold install_trans_body. keeps. Qed.

Lemma keeps_write_head : keeps_log (write_head iderw).
Proof. unfold write_head. keeps. Qed.

(** After [commit] the header in memory is empty. *)
Lemma commit_log s s' :
  0 <= lh_n (l_log s) → commit iderw s = Done tt s' →
  l_log s' = let l := l_log s in Log (l_lock l) (l_start l) (l_size l) (l_outstanding l) (l_committing l) (l_dev l) 0 (lh_block l).
Proof.
  intros Hn. unfold commit. mrun. destruct (lh_n (l_log s) >? 0) eqn:E; cbn [when]; intros H.
  - apply bind_Done in H as ([] & s1 & H1 & H). apply bind_Done in H as ([] & s2 & H2 & H).
    apply bind_Done in H as ([] & s3 & H3 & H). apply bind_Done in H as ([] & s4 & H4 & H).
    injection H4 as <-. rewrite (keeps_write_head _ _ _ H). cbn.
    by rewrite (keeps_install _ _ _ H3), (keeps_write_head _ _ _ H2), (keeps_write_log _ _ _ H1).
  - injection H as <-. rewrite Z.gtb_ltb in E. zb. destruct (l_log s). cbn in *. f_equal. lia.
Qed.

(** ** Operations and their allowances *)

(** The state with, for each active operation, the writes it may still do. *)
Record opstate : Type := Ops { o_st : lstate; o_left : list Z }.

Inductive op_step : opstate → opstate → Prop :=
  | op_begin s s' ops : begin_op s = Done tt s' → op_step (Ops s ops) (Ops s' (MAXOPBLOCKS :: ops))
  | op_write s s' ops1 n ops2 i : 0 < n → log_write i s = Done tt s' →
      op_step (Ops s (ops1 ++ n :: ops2)) (Ops s' (ops1 ++ (n - 1) :: ops2))
  | op_end s s' ops1 n ops2 : end_op iderw s = Done tt s' →
      op_step (Ops s (ops1 ++ n :: ops2)) (Ops s' (ops1 ++ ops2)).

Fixpoint total (ops : list Z) : Z :=
  match ops with [] => 0 | n :: ops' => n + total ops' end.

Lemma total_app a b : total (a ++ b) = total a + total b.
Proof. induction a as [|x a IH]; cbn; [done|]. rewrite IH. lia. Qed.

Lemma total_bound ops : Forall (λ n, 0 <= n <= MAXOPBLOCKS) ops → 0 <= total ops <= MAXOPBLOCKS * Z.of_nat (length ops).
Proof. unfold MAXOPBLOCKS. induction 1 as [|n ops Hn _ IH]; cbn [total length]; lia. Qed.

Record op_inv (o : opstate) : Prop := {
  oi_lock : l_lock (l_log (o_st o)) = false;
  oi_commit : l_committing (l_log (o_st o)) = false;
  oi_out : l_outstanding (l_log (o_st o)) = Z.of_nat (length (o_left o));
  oi_left : Forall (λ n, 0 <= n <= MAXOPBLOCKS) (o_left o);
  oi_n : 0 <= lh_n (l_log (o_st o));
  oi_space : lh_n (l_log (o_st o)) + total (o_left o) <= LOGSIZE;
  oi_size : LOGSIZE <= l_size (l_log (o_st o)) - 1
}.

Lemma begin_op_log s s' :
  begin_op s = Done tt s' → l_lock (l_log s) = false →
  l_committing (l_log s) = false ∧
  lh_n (l_log s) + (l_outstanding (l_log s) + 1) * MAXOPBLOCKS <= LOGSIZE ∧
  l_log s' = let l := l_log s in Log false (l_start l) (l_size l) (l_outstanding l + 1) false (l_dev l) (lh_n l) (lh_block l).
Proof.
  destruct s as [b [lk st sz ou co dv n bl]]. cbn. intros H ->. revert H.
  unfold begin_op, bind, acquire, gets, modify, release. cbn. destruct co; [done|].
  destruct (n + (ou + 1) * MAXOPBLOCKS >? LOGSIZE) eqn:E; [done|]. cbn. intros [= <-].
  rewrite Z.gtb_ltb in E. zb. by split_and!.
Qed.

Lemma log_write_log i s :
  l_lock (l_log s) = false → 0 <= lh_n (l_log s) < LOGSIZE → LOGSIZE <= l_size (l_log s) - 1 →
  1 <= l_outstanding (l_log s) →
  ∃ s', log_write i s = Done tt s' ∧
    l_log s' = lh_add (b_blockno (the_buf i (l_bio s))) (l_log s).
Proof.
  destruct s as [b [lk st sz ou co dv n bl]]. cbn. intros -> Hn Hsz Ho.
  unfold log_write, bind, acquire, gets, modify, release, on_bio, lift. cbn [l_log lh_n l_size l_outstanding].
  rewrite !Z.geb_leb. ztest (LOGSIZE <=? n) is false. ztest (sz - 1 <=? n) is false. ztest (ou <? 1) is false.
  cbn. by eexists.
Qed.

Lemma lh_add_n x l : 0 <= lh_n l → lh_n l <= lh_n (lh_add x l) <= lh_n l + 1.
Proof. intros H. unfold lh_add. cbn. case_if; lia. Qed.

Lemma end_op_log s s' :
  end_op iderw s = Done tt s' → l_lock (l_log s) = false → l_committing (l_log s) = false → 0 <= lh_n (l_log s) →
  l_log s' = let l := l_log s in
    Log false (l_start l) (l_size l) (l_outstanding l - 1) false (l_dev l)
        (if l_outstanding l - 1 =? 0 then 0 else lh_n l) (lh_block l).
Proof.
  destruct s as [b [lk st sz ou co dv n bl]]. cbn. intros H -> -> Hn.
  unfold end_op in H. apply bind_Done in H as ([] & s1 & [= <-] & H). mrun in H. cbn in H.
  destruct (ou - 1 =? 0) eqn:E; cbn in H.
  - apply bind_Done in H as ([] & s2 & H2 & H). apply commit_log in H2; [|done]. cbn in H2.
    destruct s2 as [b2 l2]. cbn in H2. subst l2. cbn in H. by injection H as <-.
  - by injection H as <-.
Qed.

Lemma op_step_inv o o' : op_step o o' → op_inv o → op_inv o'.
Proof.
  intros Hst [H1 H2 H3 H4 H5 H6 H7].
  destruct Hst as [s s' ops Hb|s s' ops1 n ops2 i Hn Hw|s s' ops1 n ops2 He]; cbn [o_st o_left] in *.
  - destruct (begin_op_log s s' Hb H1) as (Hc & Hsp & Hl). unfold MAXOPBLOCKS in *.
    pose proof (total_bound ops H4) as Ht. unfold MAXOPBLOCKS in Ht.
    split; cbn [o_st o_left total length]; rewrite ?Hl; cbn; try done || lia.
    apply Forall_cons. split; [unfold MAXOPBLOCKS; lia|exact H4].
  - rewrite Forall_app, Forall_cons in H4. destruct H4 as (H4 & Hn4 & H4').
    rewrite total_app in H6. cbn in H6. rewrite length_app in H3. cbn in H3.
    pose proof (total_bound _ H4). pose proof (total_bound _ H4').
    destruct (log_write_log i s) as (s1 & Hw' & Hl); [done|unfold MAXOPBLOCKS in *; lia|done|lia|].
    rewrite Hw in Hw'. injection Hw' as <-. pose proof (lh_add_n (b_blockno (the_buf i (l_bio s))) (l_log s) H5).
    split; cbn [o_st o_left]; rewrite ?Hl; try done; [| |lia|].
    + cbn. rewrite length_app. cbn. lia.
    + apply Forall_app. split; [done|]. apply Forall_cons. split; [lia|done].
    + rewrite total_app. cbn [total]. lia.
  - rewrite Forall_app, Forall_cons in H4. destruct H4 as (H4 & Hn4 & H4').
    rewrite total_app in H6. cbn in H6. rewrite length_app in H3. cbn in H3.
    pose proof (end_op_log s s' He H1 H2 H5) as Hl. cbn zeta in Hl.
    split; cbn [o_st o_left]; rewrite ?Hl; cbn; try done.
    + rewrite length_app. lia.
    + by apply Forall_app.
    + case_if; lia.
    + rewrite total_app. pose proof (total_bound _ (Forall_app_2 _ _ _ H4 H4')) as Ht. rewrite total_app in Ht.
      case_if; [|lia]. assert (length (ops1 ++ ops2) = 0%nat) as E by (rewrite length_app; lia).
      rewrite E in Ht. unfold LOGSIZE, MAXOPBLOCKS in *. lia.
Qed.

End space.

