(* ===== verification/Ide.v ===== *)
(** * The IDE driver (ide.c)

    The state is the buffer cache with the controller's registers.  The
    controller is hardware: a command acts on the sector its registers name (28
    bit LBA in ports 0x1f3 to 0x1f6, drive in bit 4 of 0x1f6), and [status] is
    what its status port reads.  A process that sleeps in [iderw] is woken by
    the interrupt handler; [iderw] with the interrupts that arrive while it
    sleeps satisfies the driver interface of bio.c. *)

From Stdlib Require Import ZArith Lia.
From stdpp Require Import base numbers list strings.
From S2P Require Import Prelude Mem Sleeplock Bio Memide.

Definition SECTOR_SIZE : Z := 512.
Definition IDE_BSY : Z := 0x80.
Definition IDE_DRDY : Z := 0x40.
Definition IDE_DF : Z := 0x20.
Definition IDE_ERR : Z := 0x01.
Definition IDE_CMD_READ : Z := 0x20.
Definition IDE_CMD_WRITE : Z := 0x30.
Definition IDE_CMD_RDMUL : Z := 0xc4.
Definition IDE_CMD_WRMUL : Z := 0xc5.

Record idestate : Type := IdeS {
  i_b : bstate;
  regs : Z → Z;
  i_woken : list Z
}.

Definition on_b {A} (m : M bstate A) : M idestate A := lift i_b (λ b s, IdeS b (regs s) (i_woken s)) m.

Definition set_ide_lock (v : bool) (s : idestate) : idestate :=
  let b := i_b s in
  IdeS (BState (bc_lock b) (bufs b) (lru b) (curpid b) (woken b) v (idequeue b) (havedisk1 b)
               (disksize b) (disk b) (wlog b)) (regs s) (i_woken s).
Definition set_idequeue (q : list nat) (s : idestate) : idestate :=
  let b := i_b s in
  IdeS (BState (bc_lock b) (bufs b) (lru b) (curpid b) (woken b) (ide_lock b) q (havedisk1 b)
               (disksize b) (disk b) (wlog b)) (regs s) (i_woken s).
Definition ide_held (s : idestate) : bool := ide_lock (i_b s).

Definition outb (port data : Z) : M idestate unit :=
  modify (λ s, IdeS (i_b s) (λ p, if p =? port then u8 data else regs s p) (i_woken s)).

(** The block the controller's registers select. *)
Definition lba (r : Z → Z) : Z :=
  r 0x1f3 + 256 * r 0x1f4 + 65536 * r 0x1f5 + 16777216 * Z.land (r 0x1f6) 0x0f.
Definition drive (r : Z → Z) : Z := Z.land (Z.shiftr (r 0x1f6) 4) 1.

(** [outsl(0x1f0, b->data, BSIZE/4)] and [insl(0x1f0, b->data, BSIZE/4)]. *)
Definition outsl_block (i : nat) : M idestate unit :=
  modify (λ s, IdeS (write_block (drive (regs s)) (lba (regs s)) (b_data (the_buf i (i_b s))) (i_b s))
                    (regs s) (i_woken s)).
Definition insl_block (i : nat) : M idestate unit :=
  modify (λ s, IdeS (upd_buf i (set_data (disk (i_b s) (drive (regs s)) (lba (regs s)))) (i_b s))
                    (regs s) (i_woken s)).

Section ide.
Context (status : Z).

(** The loop spins until the controller is ready. *)
Definition idewait (checkerr : bool) : M idestate Z :=
  if negb (Z.land status (Z.lor IDE_BSY IDE_DRDY) =? IDE_DRDY) then nofuel
  else if checkerr && negb (Z.land status (Z.lor IDE_DF IDE_ERR) =? 0) then ret (-1)
  else ret 0.

Definition idestart (i : nat) : M idestate unit :=
  b <- gets (λ s, the_buf i (i_b s)) ;;
  if b_blockno b >=? FSSIZE then panic "incorrect blockno"
  else
    let sector_per_block := BSIZE / SECTOR_SIZE in
    let sector := b_blockno b * sector_per_block in
    let read_cmd := if sector_per_block =? 1 then IDE_CMD_READ else IDE_CMD_RDMUL in
    let write_cmd := if sector_per_block =? 1 then IDE_CMD_WRITE else IDE_CMD_WRMUL in
    if sector_per_block >? 7 then panic "idestart"
    else
      idewait false ;;;
      outb 0x3f6 0 ;;;
      outb 0x1f2 sector_per_block ;;;
      outb 0x1f3 (Z.land sector 0xff) ;;;
      outb 0x1f4 (Z.land (Z.shiftr sector 8) 0xff) ;;;
      outb 0x1f5 (Z.land (Z.shiftr sector 16) 0xff) ;;;
      outb 0x1f6 (Z.lor (Z.lor 0xe0 (Z.shiftl (Z.land (b_dev b) 1) 4)) (Z.land (Z.shiftr sector 24) 0x0f)) ;;;
      if dirty b then outb 0x1f7 write_cmd ;;; outsl_block i
      else outb 0x1f7 read_cmd.

Definition ideintr : M idestate unit :=
  acquire ide_held set_ide_lock ;;;
  q <- gets (λ s, idequeue (i_b s)) ;;
  match q with
  | [] => release ide_held set_ide_lock
  | i :: q' =>
      modify (set_idequeue q') ;;;
      d <- gets (λ s, dirty (the_buf i (i_b s))) ;;
      (if negb d then
         r <- idewait true ;;
         when (r >=? 0) (insl_block i)
       else ret tt) ;;;
      on_b (modify (λ b, upd_buf i (set_flags (Z.lor (b_flags (the_buf i b)) B_VALID)) b)) ;;;
      on_b (modify (λ b, upd_buf i (set_flags (Z.land (b_flags (the_buf i b)) (Z.lnot B_DIRTY))) b)) ;;;
      modify (λ s, IdeS (i_b s) (regs s) (i_woken s ++ [buf_chan i])) ;;;
      match q' with
      | [] => ret tt
      | j :: _ => idestart j
      end ;;;
      release ide_held set_ide_lock
  end.

(** The loop of [iderw]: [sleep] gives up the lock, the handler runs when the
    disk interrupts, and the lock is taken again. *)
Fixpoint iderw_wait (fuel : nat) (i : nat) : M idestate unit :=
  b <- gets (λ s, the_buf i (i_b s)) ;;
  if in_sync b then ret tt
  else
    match fuel with
    | O => nofuel
    | S fuel' =>
        release ide_held set_ide_lock ;;;
        ideintr ;;;
        acquire ide_held set_ide_lock ;;;
        iderw_wait fuel' i
    end.

Definition iderw (i : nat) : M idestate unit :=
  p <- gets (λ s, curpid (i_b s)) ;;
  h <- on_b (on_lock i (holdingsleep p)) ;;
  if negb h then panic "iderw: buf not locked"
  else
    b <- gets (λ s, the_buf i (i_b s)) ;;
    hd1 <- gets (λ s, havedisk1 (i_b s)) ;;
    if in_sync b then panic "iderw: nothing to do"
    else if negb (b_dev b =? 0) && negb hd1 then panic "iderw: ide disk 1 not present"
    else
      acquire ide_held set_ide_lock ;;;
      modify (λ s, set_idequeue (idequeue (i_b s) ++ [i]) s) ;;;
      q <- gets (λ s, idequeue (i_b s)) ;;
      (if bool_decide (head q = Some i) then idestart i else ret tt) ;;;
      iderw_wait (length q) i ;;;
      release ide_held set_ide_lock.

(** [ideinit] probes for disk 1: [probe] is the sequence of status reads. *)
Fixpoint ideinit_probe (probe : list Z) : bool :=
  match probe with
  | [] => false
  | r :: probe' => if negb (r =? 0) then true else ideinit_probe probe'
  end.

Definition ideinit (probe : list Z) : M idestate unit :=
  idewait false ;;;
  outb 0x1f6 (Z.lor 0xe0 (Z.shiftl 1 4)) ;;;
  when (ideinit_probe (take 1000 probe)) (on_b (modify (λ b,
    BState (bc_lock b) (bufs b) (lru b) (curpid b) (woken b) (ide_lock b) (idequeue b) true
           (disksize b) (disk b) (wlog b)))) ;;;
  outb 0x1f6 (Z.lor 0xe0 (Z.shiftl 0 4)).

(** The driver as bio.c calls it: registers are written before they are used,
    so their old contents do not matter. *)
Definition ide_rw (i : nat) : M bstate unit := λ b,
  match iderw i (IdeS b (λ _, 0) []) with
  | Done _ s => Done tt (i_b s)
  | Panic msg => Panic msg
  | Fault => Fault
  | Sleep c s => Sleep c (i_b s)
  | NoFuel => NoFuel
  end.
End ide.

(** ** The driver interface *)

Section ide_facts.
Context (status : Z) (ready : Z.land status 0xC0 = 0x40) (no_error : Z.land status 0x21 = 0).

Lemma idewait_ready c s : idewait status c s = Done 0 s.
Proof using ready no_error.
  unfold idewait. change (Z.lor IDE_BSY IDE_DRDY) with 0xC0. change (Z.lor IDE_DF IDE_ERR) with 0x21.
  rewrite ready, no_error. by destruct c.
Qed.

(** The registers written by [idestart] select the block. *)
Lemma sector_bytes n : 0 <= n < FSSIZE →
  Z.land n 0xff + 256 * Z.land (Z.shiftr n 8) 0xff + 65536 * Z.land (Z.shiftr n 16) 0xff = n ∧
  Z.land (Z.shiftr n 24) 0x0f = 0 ∧
  0 <= Z.land n 0xff < 256 ∧ 0 <= Z.land (Z.shiftr n 8) 0xff < 256 ∧ 0 <= Z.land (Z.shiftr n 16) 0xff < 256.
Proof.
  unfold FSSIZE. intros Hn. change 0xff with (Z.ones 8). change 0x0f with (Z.ones 4).
  rewrite !Z.land_ones, !Z.shiftr_div_pow2 by lia.
  change (2 ^ 8) with 256. change (2 ^ 16) with 65536. change (2 ^ 24) with 16777216. change (2 ^ 4) with 16. zlia.
Qed.

Lemma idestart_run i s b :
  the_buf i (i_b s) = b → 0 <= b_blockno b < FSSIZE → b_dev b = 0 ∨ b_dev b = 1 →
  ∃ r, idestart status i s = Done tt
    (IdeS (if dirty b then write_block (b_dev b) (b_blockno b) (b_data b) (i_b s) else i_b s) r (i_woken s)) ∧
    lba r = b_blockno b ∧ drive r = b_dev b.
Proof using ready no_error.
  intros Hb Hn Hd. unfold idestart. mrun. rewrite Hb, Z.geb_leb. ztest (FSSIZE <=? b_blockno b) is false.
  change (BSIZE / SECTOR_SIZE) with 1. rewrite Z.mul_1_r. cbn [Z.gtb Z.compare Pos.compare Pos.compare_cont Z.eqb Pos.eqb].
  destruct (sector_bytes (b_blockno b) Hn) as (Hs & H24 & H0 & H8 & H16). rewrite H24, Z.lor_0_r.
  set (s0 := Z.land (b_blockno b) 0xff) in *. set (s8 := Z.land (Z.shiftr _ 8) _) in *.
  set (s16 := Z.land (Z.shiftr _ 16) _) in *.
  mcall (idewait_ready false s). unfold outb, outsl_block. mrun.
  set (r := λ cmd p, if p =? 0x1f7 then u8 cmd else if p =? 0x1f6 then u8 (Z.lor 224 (Z.shiftl (Z.land (b_dev b) 1) 4))
    else if p =? 0x1f5 then u8 s16 else if p =? 0x1f4 then u8 s8 else if p =? 0x1f3 then u8 s0
    else if p =? 0x1f2 then u8 1 else if p =? 0x3f6 then u8 0 else regs s p).
  assert (Hr : ∀ cmd, lba (r cmd) = b_blockno b ∧ drive (r cmd) = b_dev b).
  { intros cmd. unfold lba, drive, r. cbn [Z.eqb Pos.eqb]. rewrite !(u8_small s0), (u8_small s8), (u8_small s16) by lia.
    destruct Hd as [Hd | Hd]; rewrite Hd; (split; [|reflexivity]); rewrite <- Hs at 1.
    1: change (Z.land (u8 _) 15) with 0; lia. change (Z.land (u8 _) 15) with 0. lia. }
  destruct (dirty b) eqn:E; mrun.
  - exists (r IDE_CMD_WRITE). destruct (Hr IDE_CMD_WRITE) as [Hl Hv]. split; [|done]. unfold modify. cbn [i_b regs i_woken].
    rewrite Hb. fold (r IDE_CMD_WRITE). by rewrite Hl, Hv.
  - exists (r IDE_CMD_READ). split; [done|apply Hr].
Qed.

Lemma alter_put {A} (f : A → A) (l : list A) i x : alter f i (<[i := x]> l) = <[i := f x]> l.
Proof.
  destruct (decide (i < length l)%nat) as [H|H].
  - rewrite (alter_insert _ _ _ x) by (by apply list_lookup_insert_eq). apply list_insert_insert_eq.
  - rewrite !list_insert_ge by lia. apply list_eq. intros j. destruct (decide (i = j)) as [->|].
    + by rewrite list_lookup_alter_eq, lookup_ge_None_2 by lia.
    + by rewrite list_lookup_alter_ne.
Qed.

(** The interrupt for the only request: its buffer is in sync. *)
Lemma ideintr_last i s b :
  idequeue (i_b s) = [i] → ide_lock (i_b s) = false → bufs (i_b s) !! i = Some b →
  let f := Z.land (Z.lor (b_flags b) B_VALID) (Z.lnot B_DIRTY) in
  let d := if dirty b then b_data b else disk (i_b s) (drive (regs s)) (lba (regs s)) in
  ideintr status s = Done tt (IdeS (put_buf i (set_flags f (set_data d b)) (i_b (set_idequeue [] s)))
    (regs s) (i_woken s ++ [buf_chan i])).
Proof using ready no_error.
  intros Hq Hl Hb f d. destruct s as [[cl bl lr cp wk il iq hd ds dk wl] r w]. cbn in Hq, Hl, Hb. subst iq il.
  unfold ideintr, acquire, release, when, on_b, lift, ide_held. mrun. cbn.
  unfold the_buf at 1. cbn. rewrite Hb. cbn. unfold d, f, insl_block, upd_buf, put_buf, set_bufs.
  destruct (dirty b) eqn:E; cbn [negb].
  2: rewrite !bind_assoc, (bind_run _ _ _ _ _ (idewait_ready true _)); cbn [Z.geb Z.compare].
  all: cbn; unfold the_buf; cbn; rewrite ?list_lookup_alter_eq, Hb; cbn; do 2 f_equal.
  all: rewrite (alter_insert _ _ _ b Hb), ?alter_put; by destruct b.
Qed.

Lemma in_sync_done b d : in_sync (set_flags (Z.land (Z.lor (b_flags b) B_VALID) (Z.lnot B_DIRTY)) (set_data d b)) = true.
Proof.
  unfold in_sync, set_flags. cbn [b_flags]. apply Z.eqb_eq, Z.bits_inj'. intros n Hn.
  rewrite !Z.land_spec, !Z.lor_spec, Z.lnot_spec by lia. unfold B_VALID, B_DIRTY.
  destruct (decide (n = 1)) as [->|]; [by rewrite orb_true_r|].
  destruct (decide (n = 2)) as [->|]; [by rewrite !andb_false_r|].
  change 2 with (2 ^ 1). change 4 with (2 ^ 2). rewrite !Z.pow2_bits_false by lia. by rewrite andb_false_r.
Qed.

Lemma iderw_run i s b : bufs (i_b s) !! i = Some b →
  ide_lock (i_b s) = false → idequeue (i_b s) = [] → b_lock b = SleepLock true false (curpid (i_b s)) →
  in_sync b = false → 0 <= b_blockno b < FSSIZE → b_dev b = 0 ∨ b_dev b = 1 ∧ havedisk1 (i_b s) = true →
  ∃ s', iderw status i s = Done tt s' ∧ i_b s' = transfer i (i_b s).
Proof using ready no_error.
  intros Hb Hil Hq Hlk Hs Hn Hd. unfold iderw. mrun.
  assert (Hh : on_b (on_lock i (holdingsleep (curpid (i_b s)))) s = Done true s).
  { destruct s as [bs r w]. unfold on_b, lift at 1. cbn [i_b regs i_woken].
    rewrite (on_lock_same i _ bs b true Hb); [done|]. rewrite Hlk, holdingsleep_run by done.
    cbn. by rewrite Z.eqb_refl. }
  mcall Hh. rewrite (the_buf_lookup i _ b Hb), Hs.
  replace (negb (b_dev b =? 0) && negb (havedisk1 (i_b s))) with false
    by (destruct Hd as [-> | [-> ->]]; done). mrun.
  destruct s as [[cl bl lr cp wk il iq hd ds dk wl] r w]. cbn in Hb, Hil, Hq, Hlk, Hd. subst il iq.
  unfold acquire at 1, ide_held at 1. cbn [ide_lock i_b]. mrun. cbn.
  rewrite bool_decide_eq_true_2 by done. set (s1 := set_idequeue [i] _).
  assert (Hthe : the_buf i (i_b s1) = b) by (by apply the_buf_lookup).
  destruct (idestart_run i s1 b Hthe Hn) as (r' & Hstart & Hlba & Hdrive); [tauto|].
  mcall Hstart. set (b2 := if dirty b then _ else _).
  assert (Hb2 : bufs b2 = bl ∧ ide_lock b2 = true ∧ idequeue b2 = [i]) by (unfold b2; by destruct (dirty b)).
  destruct Hb2 as (Hl2 & Hlk2 & Hq2).
  cbn [i_b]. rewrite (the_buf_lookup i b2 b), Hs by (by rewrite Hl2). mrun.
  mcall (release_run ide_held set_ide_lock (IdeS b2 r' (i_woken s1)) Hlk2).
  set (s3 := set_ide_lock false _).
  mcall (ideintr_last i s3 b Hq2 eq_refl ltac:(by rewrite <- Hl2 in Hb)).
  set (bn := set_flags _ (set_data _ b)). set (s4 := IdeS (put_buf i bn _) _ _). mcall (acquire_run ide_held set_ide_lock s4 eq_refl).
  rewrite (the_buf_lookup i _ bn); [|cbn; rewrite Hl2; apply list_lookup_insert_eq; by eapply lookup_lt_Some].
  unfold bn at 1. rewrite in_sync_done. mrun. unfold release, ide_held. cbn. eexists. split; [done|]. cbn.
  assert (Ht : ∀ s', bufs s' = bl → the_buf i s' = b) by (intros s' E; apply the_buf_lookup; by rewrite E).
  rewrite Hl2. unfold bn, transfer, b2, s3, upd_buf, set_bufs. cbn. rewrite Hlba, Hdrive, Ht by done.
  rewrite !(alter_insert _ _ _ b Hb). destruct (dirty b); cbn; [by destruct b|done].
Qed.

#[export] Instance ide_driver : BlockDriver (ide_rw status).
Proof using ready no_error.
  refine {| drv_good := λ s dev blockno,
    ((dev =? 0) || (dev =? 1) && havedisk1 s) && ((0 <=? blockno) && (blockno <? FSSIZE)) |}.
  - by intros s s' dev blockno -> _.
  - intros s i b Hb Hil Hq Hlk Hs [Hd [Hn1 Hn2]%andb_true_iff]%andb_true_iff. zb; unfold ide_rw.
    all: destruct (iderw_run i (IdeS s (λ _, 0) []) b Hb Hil Hq Hlk Hs) as (s' & -> & ->);
      [lia|cbn [i_b]; tauto|done].
Defined.
End ide_facts.
