(* ===== verification/Ring.v ===== *)
(** * Ring buffers indexed by 32-bit counters

    pipe.c and console.c index a buffer of [size] bytes by counters that are
    never reduced: the slot of counter [k] is [k % size].  Since [size] divides
    2^32, the slots stay consecutive when a counter wraps around. *)

From Stdlib Require Import ZArith Lia.
From stdpp Require Import base numbers list.
From S2P Require Import Prelude Mem.

Section ring.
Context (size : Z) (size_pos : 0 < size) (size_div : 4294967296 mod size = 0).

(** The [n] bytes from counter [a] on. *)
Definition ring (buf : mem) (a n : Z) : list Z :=
  (λ k, buf (u32 (a + k) mod size)) <$> seqZ 0 n.

Lemma ring_length buf a n : length (ring buf a n) = Z.to_nat n.
Proof. unfold ring. by rewrite length_fmap, length_seqZ. Qed.

Lemma slot_eq k : u32 k mod size = k mod size.
Proof using size_pos size_div.
  unfold u32. apply Z.mod_divide in size_div as [q Hq]; [|lia].
  rewrite Hq, (Z.mul_comm q), Z.rem_mul_r by nia.
  rewrite (Z.mul_comm size (_ mod _)), Z.mod_add, Z.mod_mod by lia. done.
Qed.

Lemma slot_inj a i j : 0 <= i < size → 0 <= j < size → (a + i) mod size = (a + j) mod size → i = j.
Proof using size_pos.
  intros Hi Hj Heq. assert ((i - j) mod size = 0) as H.
  { replace (i - j) with ((a + i) - (a + j)) by lia. by rewrite Zminus_mod, Heq, Z.sub_diag, Z.mod_0_l by lia. }
  apply Z.mod_divide in H as [q Hq]; [|lia]. destruct (Z.lt_trichotomy q 0) as [H0|[->|H0]]; nia.
Qed.

Lemma ring_u32 buf a n : ring buf (u32 a) n = ring buf a n.
Proof. unfold ring. apply list_fmap_ext. intros _ k _. by rewrite u32_add_l. Qed.

Lemma ring_app buf a n m : 0 <= n → 0 <= m → ring buf a (n + m) = ring buf a n ++ ring buf (a + n) m.
Proof.
  intros. unfold ring. rewrite seqZ_app, fmap_app by lia. f_equal.
  assert (seqZ (0 + n) m = Z.add n <$> seqZ 0 m) as -> by (rewrite fmap_add_seqZ; f_equal; lia).
  rewrite <- list_fmap_compose.
  apply list_fmap_ext. intros _ k _. cbn. by rewrite Z.add_assoc.
Qed.

Lemma ring_cons buf a n : 0 < n → ring buf a n = buf (u32 a mod size) :: ring buf (a + 1) (n - 1).
Proof.
  intros. replace n with (1 + (n - 1)) at 1 by lia. rewrite ring_app by lia.
  unfold ring at 1. change (seqZ 0 1) with [0]. cbn [fmap list_fmap app]. by rewrite Z.add_0_r.
Qed.

(** Storing at a counter outside the span leaves the span alone. *)
Lemma ring_store_out buf a n k c : 0 <= n → (n <= k < size ∨ k < 0 ∧ n - k <= size) →
  ring (store8 buf ((a + k) mod size) c) a n = ring buf a n.
Proof using size_pos size_div.
  intros Hn Hk. unfold ring. apply list_fmap_ext. intros i x Hx. apply lookup_seqZ in Hx as [-> Hx].
  rewrite slot_eq. apply store8_ne. intros Heq. destruct Hk as [Hk|Hk].
  - apply slot_inj in Heq; lia.
  - replace (a + k) with ((a + k + size) + -1 * size) in Heq by lia. rewrite Z.mod_add in Heq by lia.
    rewrite <- Z.add_assoc in Heq. apply slot_inj in Heq; lia.
Qed.

Lemma ring_snoc buf a n c : 0 <= n < size →
  ring (store8 buf ((a + n) mod size) c) a (n + 1) = ring buf a n ++ [u8 c].
Proof using size_pos size_div.
  intros Hn. rewrite ring_app, ring_store_out by lia. f_equal. unfold ring.
  change (seqZ 0 1) with [0]. cbn [fmap list_fmap].
  by rewrite Z.add_0_r, slot_eq, store8_eq.
Qed.
End ring.
