(* ===== verification/Pipe.v ===== *)
(** * Pipes (pipe.c)

    A pipe is a ring of [PIPESIZE] bytes with two 32-bit counters that wrap
    around.  [pipewrite] and [piperead] run under the pipe's lock until they
    return or sleep; a writer that sleeps resumes at the byte it had reached.
    The counters and the ring implement an unbounded-history FIFO queue. *)

From Stdlib Require Import ZArith Lia.
From stdpp Require Import base numbers list gmap strings relations.
From S2P Require Import Prelude Mem Ring Kalloc.

Definition PIPESIZE : Z := 512.

Record pipe : Type := Pipe {
  p_lock : bool;
  p_data : mem;
  nread : Z;
  nwrite : Z;
  readopen : bool;
  writeopen : bool
}.

(** What one call sees: the pipe, the caller's memory and [killed] flag, and the
    channels woken up. *)
Record pview : Type := PView {
  v_pipe : pipe;
  v_mem : mem;
  v_killed : bool;
  v_woken : list Z
}.

Definition set_pipe (p : pipe) (v : pview) : pview := PView p (v_mem v) (v_killed v) (v_woken v).
Definition pipe_held (v : pview) : bool := p_lock (v_pipe v).
Definition set_p_lock (b : bool) (v : pview) : pview :=
  let p := v_pipe v in
  set_pipe (Pipe b (p_data p) (nread p) (nwrite p) (readopen p) (writeopen p)) v.
Definition wakeup_pipe (chan : Z) : M pview unit :=
  modify (λ v, PView (v_pipe v) (v_mem v) (v_killed v) (v_woken v ++ [chan])).

(** The addresses of the counters, on which readers and writers sleep. *)
Definition nread_chan (p : Z) : Z := p + 564.
Definition nwrite_chan (p : Z) : Z := p + 568.

(** A call returns, or sleeps with its loop variable at [i]. *)
Inductive ioret : Type :=
  | Ret (r : Z)
  | Asleep (i : Z).

(** [p->data[p->nwrite++ % PIPESIZE] = c]. *)
Definition push (c : Z) (p : pipe) : pipe :=
  Pipe (p_lock p) (store8 (p_data p) (nwrite p mod PIPESIZE) c) (nread p) (u32 (nwrite p + 1))
       (readopen p) (writeopen p).

(** [p->nread++], the byte being [p->data[p->nread % PIPESIZE]]. *)
Definition pop (p : pipe) : pipe :=
  Pipe (p_lock p) (p_data p) (u32 (nread p + 1)) (nwrite p) (readopen p) (writeopen p).
Definition front (p : pipe) : Z := p_data p (nread p mod PIPESIZE).

Section pipe.
(** The address of the pipe. *)
Context (p0 : Z).

Fixpoint pipewrite_loop (k : nat) (addr n i : Z) : M pview ioret :=
  match k with
  | O =>
      wakeup_pipe (nread_chan p0) ;;;
      release pipe_held set_p_lock ;;;
      ret (Ret n)
  | S k' =>
      p <- gets v_pipe ;;
      if nwrite p =? u32 (nread p + PIPESIZE) then
        killed <- gets v_killed ;;
        if negb (readopen p) || killed then
          release pipe_held set_p_lock ;;;
          ret (Ret (-1))
        else
          wakeup_pipe (nread_chan p0) ;;;
          release pipe_held set_p_lock ;;;
          ret (Asleep i)
      else
        modify (λ v, set_pipe (push (v_mem v (addr + i)) (v_pipe v)) v) ;;;
        pipewrite_loop k' addr n (i + 1)
  end.

(** A call that starts at [i], or resumes there after a sleep. *)
Definition pipewrite_from (addr n i : Z) : M pview ioret :=
  acquire pipe_held set_p_lock ;;;
  pipewrite_loop (Z.to_nat (n - i)) addr n i.

Definition pipewrite (addr n : Z) : M pview ioret := pipewrite_from addr n 0.

Fixpoint piperead_copy (k : nat) (addr i : Z) : M pview Z :=
  match k with
  | O => ret i
  | S k' =>
      p <- gets v_pipe ;;
      if nread p =? nwrite p then ret i
      else
        modify (λ v, PView (pop (v_pipe v)) (store8 (v_mem v) (addr + i) (front (v_pipe v)))
                           (v_killed v) (v_woken v)) ;;;
        piperead_copy k' addr (i + 1)
  end.

(** A reader that sleeps evaluates its loop condition again when it resumes. *)
Definition piperead (addr n : Z) : M pview ioret :=
  acquire pipe_held set_p_lock ;;;
  p <- gets v_pipe ;;
  if (nread p =? nwrite p) && writeopen p then
    killed <- gets v_killed ;;
    if killed : bool then
      release pipe_held set_p_lock ;;;
      ret (Ret (-1))
    else
      release pipe_held set_p_lock ;;;
      ret (Asleep 0)
  else
    i <- piperead_copy (Z.to_nat n) addr 0 ;;
    wakeup_pipe (nwrite_chan p0) ;;;
    release pipe_held set_p_lock ;;;
    ret (Ret i).
End pipe.

(** ** Pipes in the kernel's memory

    A pipe occupies a page from [kalloc]; after [kfree] there is no pipe at
    that address, and using it faults. *)
Record pstate : Type := PState {
  pipes : gmap Z pipe;
  p_machine : machine;
  umem : mem;
  killed : bool;
  p_woken : list Z
}.

Definition at_pipe {A} (a : Z) (m : M pview A) : M pstate A := λ s,
  match pipes s !! a with
  | None => Fault
  | Some p =>
      lift (λ s, PView p (umem s) (killed s) (p_woken s))
           (λ v s, PState (<[a := v_pipe v]> (pipes s)) (p_machine s) (v_mem v) (killed s) (v_woken v)) m s
  end.

Definition on_machine {A} (m : M machine A) : M pstate A :=
  lift p_machine (λ k s, PState (pipes s) k (umem s) (killed s) (p_woken s)) m.

(** The initialisation of a pipe in [pipealloc]: the page's bytes are [data]. *)
Definition newpipe (data : mem) : pipe := Pipe false data 0 0 true true.

Definition close_end (writable : bool) (p : pipe) : pipe :=
  if writable then Pipe (p_lock p) (p_data p) (nread p) (nwrite p) (readopen p) false
  else Pipe (p_lock p) (p_data p) (nread p) (nwrite p) false (writeopen p).

Definition pipeclose (kend : Z) (a : Z) (writable : bool) : M pstate unit :=
  closed <- at_pipe a (
    acquire pipe_held set_p_lock ;;;
    modify (λ v, set_pipe (close_end writable (v_pipe v)) v) ;;;
    wakeup_pipe (if writable then nread_chan a else nwrite_chan a) ;;;
    p <- gets v_pipe ;;
    release pipe_held set_p_lock ;;;
    ret (negb (readopen p) && negb (writeopen p))) ;;
  when closed (
    on_machine (kfree kend a) ;;;
    modify (λ s, PState (delete a (pipes s)) (p_machine s) (umem s) (killed s) (p_woken s))).

(** ** The queue a pipe implements *)

Definition used (p : pipe) : Z := u32 (nwrite p - nread p).
Definition contents (p : pipe) : list Z := ring PIPESIZE (p_data p) (nread p) (used p).

Record pipe_ok (p : pipe) : Prop := {
  po_read : 0 <= nread p < 4294967296;
  po_write : 0 <= nwrite p < 4294967296;
  po_used : used p <= PIPESIZE;
  po_data : mem_ok (p_data p)
}.

Lemma contents_length p : Z.of_nat (length (contents p)) = used p.
Proof. unfold contents. rewrite ring_length. unfold used. pose proof (u32_range (nwrite p - nread p)). lia. Qed.

Lemma full_used p : pipe_ok p → (nwrite p =? u32 (nread p + PIPESIZE)) = (used p =? PIPESIZE).
Proof.
  intros [Hr Hw _ _]. unfold used, u32, PIPESIZE in *. apply eq_true_iff_eq. rewrite !Z.eqb_eq. zlia.
Qed.

Lemma empty_used p : pipe_ok p → (nread p =? nwrite p) = (used p =? 0).
Proof.
  intros [Hr Hw _ _]. unfold used, u32 in *. apply eq_true_iff_eq. rewrite !Z.eqb_eq. zlia.
Qed.

Lemma push_spec c p : pipe_ok p → used p < PIPESIZE →
  pipe_ok (push c p) ∧ used (push c p) = used p + 1 ∧ contents (push c p) = contents p ++ [u8 c].
Proof.
  intros [Hr Hw Hu Hd] Hlt.
  assert (Hused : used (push c p) = used p + 1).
  { unfold used, u32, PIPESIZE in *. cbn. unfold u32. zlia. }
  split_and!.
  - split; [done| |by lia|by apply mem_ok_store8]. cbn. apply u32_range.
  - done.
  - assert (Hpos : 0 <= used p) by apply u32_range.
    unfold contents. rewrite Hused. cbn [p_data nread push].
    replace (nwrite p mod PIPESIZE) with ((nread p + used p) mod PIPESIZE).
    + apply ring_snoc; unfold PIPESIZE in *; [lia|done|lia].
    + unfold used, u32, PIPESIZE in *. zlia.
Qed.

Lemma pop_spec p : pipe_ok p → used p ≠ 0 →
  pipe_ok (pop p) ∧ used (pop p) = used p - 1 ∧ contents p = front p :: contents (pop p).
Proof.
  intros [Hr Hw Hu Hd] Hne. assert (Hpos : 0 <= used p) by apply u32_range.
  assert (Hused : used (pop p) = used p - 1).
  { unfold used, u32, PIPESIZE in *. cbn. unfold u32. zlia. }
  split_and!.
  - split; [|done|by lia|done]. cbn. apply u32_range.
  - done.
  - unfold contents, front. rewrite (ring_cons _ _ (nread p)), Hused, (u32_small (nread p)) by lia.
    cbn [pop nread p_data]. by rewrite ring_u32.
Qed.

(** ** What a call does to the queue *)

Definition taken (m : mem) (a n : Z) : list Z := (λ x, u8 (m x)) <$> seqZ a n.

Lemma taken_cons m a n : 0 < n → taken m a n = u8 (m a) :: taken m (a + 1) (n - 1).
Proof. intros. unfold taken. rewrite seqZ_cons by lia. cbn. by rewrite <- Z.add_1_r, <- Z.sub_1_r. Qed.

(** [same_ends v v']: the call leaves the caller and the ends alone and has
    released the lock. *)
Definition same_ends (p p' : pipe) : Prop := readopen p' = readopen p ∧ writeopen p' = writeopen p.

Lemma unlock {A} (x : A) v : pipe_held v = true →
  (release pipe_held set_p_lock ;;; ret x) v = Done x (set_p_lock false v).
Proof. intros H. by mcall (release_run pipe_held set_p_lock v H). Qed.

Lemma pipewrite_loop_spec p0 k addr n i v : pipe_held v = true → pipe_ok (v_pipe v) →
  ∃ r v' j, pipewrite_loop p0 k addr n i v = Done r v' ∧ i <= j <= i + Z.of_nat k ∧
    pipe_ok (v_pipe v') ∧ pipe_held v' = false ∧ same_ends (v_pipe v) (v_pipe v') ∧
    v_mem v' = v_mem v ∧ nread (v_pipe v') = nread (v_pipe v) ∧
    contents (v_pipe v') = contents (v_pipe v) ++ taken (v_mem v) (addr + i) (j - i) ∧
    (r = Ret n ∧ j = i + Z.of_nat k ∧ nread_chan p0 ∈ v_woken v' ∨
     j < i + Z.of_nat k ∧ used (v_pipe v') = PIPESIZE ∧
       if negb (readopen (v_pipe v)) || v_killed v then r = Ret (-1)
       else r = Asleep j ∧ nread_chan p0 ∈ v_woken v').
Proof.
  revert i v. induction k as [|k IH]; intros i v Hl Hok; cbn [pipewrite_loop];
    unfold wakeup_pipe.
  - mrun. rewrite unlock by done.
    eexists _, _, i. split; [done|]. cbn. rewrite Z.sub_diag. unfold taken. cbn. rewrite app_nil_r.
    split_and!; try done; try lia. 1: by destruct Hok. left. split_and!; [done|lia|set_solver].
  - mrun. rewrite full_used by done. case_if.
    + zb. mrun. set (stop := negb _ || _). destruct stop eqn:Es.
      * mrun. rewrite unlock by done. eexists _, _, i. split; [done|]. cbn.
        rewrite Z.sub_diag. unfold taken. cbn. rewrite app_nil_r. split_and!; try done; try lia.
        1: by destruct Hok. right. split_and!; [lia|done|done].
      * mrun. rewrite unlock by done. eexists _, _, i. split; [done|].
        cbn. rewrite Z.sub_diag. unfold taken. cbn. rewrite app_nil_r. split_and!; try done; try lia.
        1: by destruct Hok. right. split_and!; [lia|done|done|set_solver].
    + zb. destruct (push_spec (v_mem v (addr + i)) (v_pipe v) Hok) as (Hok' & Hu & Hc).
      { destruct Hok. lia. }
      mrun. set (v1 := set_pipe _ v).
      destruct (IH (i + 1) v1 Hl Hok') as (r & v' & j & -> & Hj & Hok1 & Hl1 & He & Hm & Hn & Hc1 & Hr).
      exists r, v', j. split; [done|]. split_and!; try done; try lia.
      * rewrite Hc1, (taken_cons _ (addr + i)) by lia. change (v_mem v1) with (v_mem v).
        change (contents (v_pipe v1)) with (contents (push (v_mem v (addr + i)) (v_pipe v))).
        rewrite Hc, <- app_assoc, <- Z.add_assoc. cbn. do 3 f_equal. lia.
      * replace (i + Z.of_nat (S k)) with (i + 1 + Z.of_nat k) by lia. done.
Qed.

Lemma piperead_copy_spec k addr i v : pipe_ok (v_pipe v) →
  ∃ j v', piperead_copy k addr i v = Done j v' ∧
    j - i = Z.min (Z.of_nat k) (used (v_pipe v)) ∧ pipe_ok (v_pipe v') ∧
    p_lock (v_pipe v') = p_lock (v_pipe v) ∧ same_ends (v_pipe v) (v_pipe v') ∧ v_woken v' = v_woken v ∧
    contents (v_pipe v) = taken (v_mem v') (addr + i) (j - i) ++ contents (v_pipe v') ∧
    (∀ x, x < addr + i ∨ addr + j <= x → v_mem v' x = v_mem v x).
Proof.
  revert i v. induction k as [|k IH]; intros i v Hok; cbn [piperead_copy].
  all: assert (Hpos : 0 <= used (v_pipe v)) by apply u32_range.
  - mrun. exists i, v. rewrite Z.sub_diag. split_and!; try done; lia.
  - mrun. rewrite empty_used by done. case_if; zb.
    + exists i, v. rewrite Z.sub_diag. split_and!; try done; lia.
    + destruct (pop_spec (v_pipe v) Hok) as (Hok' & Hu & Hc); [done|]. mrun. set (v1 := PView _ _ _ _).
      destruct (IH (i + 1) v1 Hok') as (j & v' & -> & Hj & Hok1 & Hl & He & Hw & Hc1 & Hout).
      change (v_pipe v1) with (pop (v_pipe v)) in *.
      exists j, v'. split; [done|]. split_and!; try done; try lia.
      * rewrite Hc, Hc1, (taken_cons _ (addr + i)) by lia. cbn. rewrite Hout by lia. f_equal.
        -- cbn. rewrite store8_eq, (u8_small (u8 _)) by apply u8_range. symmetry. apply u8_small, Hok.
        -- rewrite Z.add_assoc. do 2 f_equal. lia.
      * intros x Hx. rewrite Hout by lia. cbn. apply store8_ne. lia.
Qed.

(** ** Any interleaving of writers and readers

    [Conf p w r]: the pipe, the bytes accepted from writers since it was created
    and the bytes delivered to readers, in order.  A step is one stretch of a
    call under the lock: a write of [n] bytes from byte [i] on, a read, or the
    closing of an end; the callers' memories and flags are arbitrary. *)
Record conf : Type := Conf {
  c_pipe : pipe;
  written : list Z;
  delivered : list Z
}.

Definition returned (v : pview) (addr : Z) (r : ioret) : list Z :=
  match r with
  | Ret k => taken (v_mem v) addr k
  | Asleep _ => []
  end.

Inductive pipe_step (p0 : Z) : conf → conf → Prop :=
  | step_write p w r addr n i m kl wk res v' :
      0 <= i <= n →
      pipewrite_from p0 addr n i (PView p m kl wk) = Done res v' →
      pipe_step p0 (Conf p w r)
        (Conf (v_pipe v') (w ++ taken m (addr + i) (u32 (nwrite (v_pipe v') - nwrite p))) r)
  | step_read p w r addr n m kl wk res v' :
      piperead p0 addr n (PView p m kl wk) = Done res v' →
      pipe_step p0 (Conf p w r) (Conf (v_pipe v') w (r ++ returned v' addr res))
  | step_close p w r writable :
      pipe_step p0 (Conf p w r) (Conf (close_end writable p) w r).

Definition conf_inv (c : conf) : Prop :=
  pipe_ok (c_pipe c) ∧ p_lock (c_pipe c) = false ∧ written c = delivered c ++ contents (c_pipe c).

Lemma pipewrite_spec p0 addr n i v : 0 <= i <= n → pipe_held v = false → pipe_ok (v_pipe v) →
  ∃ r v', pipewrite_from p0 addr n i v = Done r v' ∧
    pipe_ok (v_pipe v') ∧ pipe_held v' = false ∧
    contents (v_pipe v') = contents (v_pipe v) ++ taken (v_mem v) (addr + i) (u32 (nwrite (v_pipe v') - nwrite (v_pipe v))) ∧
    (r = Ret n ∧ u32 (nwrite (v_pipe v') - nwrite (v_pipe v)) = n - i ∨
     used (v_pipe v') = PIPESIZE ∧
       if negb (readopen (v_pipe v)) || v_killed v then r = Ret (-1)
       else r = Asleep (i + u32 (nwrite (v_pipe v') - nwrite (v_pipe v)))).
Proof.
  intros Hi Hl Hok. unfold pipewrite_from. mcall (acquire_run pipe_held set_p_lock v Hl).
  assert (Hok1 : pipe_ok (v_pipe (set_p_lock true v))) by (destruct Hok; by split).
  destruct (pipewrite_loop_spec p0 (Z.to_nat (n - i)) addr n i (set_p_lock true v) eq_refl Hok1)
    as (r & v' & j & -> & Hj & Hok' & Hl' & He & Hm & Hn & Hc & Hr).
  cbn [v_pipe v_mem v_killed set_p_lock set_pipe nread readopen] in *.
  assert (Hw : u32 (nwrite (v_pipe v') - nwrite (v_pipe v)) = j - i).
  { apply (f_equal (λ l, Z.of_nat (length l))) in Hc. unfold taken in Hc.
    rewrite length_app, length_fmap, length_seqZ, Nat2Z.inj_add, !contents_length in Hc.
    destruct Hok as [Hr1 Hw1 Hu1 _], Hok' as [Hr2 Hw2 Hu2 _].
    unfold used, PIPESIZE, u32 in *. cbn [nread nwrite] in *. zlia. }
  exists r, v'. rewrite Hw. split_and!; try done. destruct Hr as [(-> & -> & _)|(Hlt & Hfull & Hr)].
  - left. split; [done|lia].
  - right. split; [done|]. destruct (negb _ || _); [done|]. destruct Hr as [-> _]. f_equal. lia.
Qed.

Lemma piperead_spec p0 addr n v : pipe_held v = false → pipe_ok (v_pipe v) →
  ∃ r v', piperead p0 addr n v = Done r v' ∧
    pipe_ok (v_pipe v') ∧ pipe_held v' = false ∧
    contents (v_pipe v) = returned v' addr r ++ contents (v_pipe v') ∧
    if (used (v_pipe v) =? 0) && writeopen (v_pipe v) then r = (if v_killed v then Ret (-1) else Asleep 0)
    else r = Ret (Z.min (Z.max 0 n) (used (v_pipe v))).
Proof.
  intros Hl Hok. unfold piperead. mcall (acquire_run pipe_held set_p_lock v Hl).
  change (v_pipe (set_p_lock true v)) with
    (Pipe true (p_data (v_pipe v)) (nread (v_pipe v)) (nwrite (v_pipe v)) (readopen (v_pipe v)) (writeopen (v_pipe v))).
  cbn [nread nwrite writeopen]. rewrite empty_used by done. destruct (_ && _) eqn:E.
  - mrun. change (v_killed (set_p_lock true v)) with (v_killed v).
    assert (Hok' : pipe_ok (v_pipe (set_p_lock false (set_p_lock true v)))) by (destruct Hok; by split).
    destruct (v_killed v); rewrite unlock by done; eexists _, _; split_and!; done.
  - assert (Hok' : pipe_ok (v_pipe (set_p_lock true v))) by (destruct Hok; by split).
    destruct (piperead_copy_spec (Z.to_nat n) addr 0 (set_p_lock true v) Hok')
      as (j & v' & Hrun & Hj & Hok1 & Hl1 & He & Hw & Hc & Hout).
    mcall Hrun. unfold wakeup_pipe. mrun. rewrite unlock by done. eexists _, _. split; [done|].
    rewrite Z.sub_0_r, Z.add_0_r in *. split_and!; [destruct Hok1; by split|done|exact Hc|].
    f_equal. rewrite Hj. unfold used. cbn. lia.
Qed.

Lemma conf_inv_step p0 c c' : conf_inv c → pipe_step p0 c c' → conf_inv c'.
Proof.
  intros (Hok & Hl & Hw) Hstep. destruct Hstep as [p w r addr n i m kl wk res v' Hi Hrun|p w r addr n m kl wk res v' Hrun|p w r b];
    cbn in Hok, Hl, Hw; subst w; unfold conf_inv; cbn.
  - destruct (pipewrite_spec p0 addr n i (PView p m kl wk) Hi Hl Hok) as (? & ? & Hrun' & Hok' & Hl' & Hc & _).
    rewrite Hrun in Hrun'. injection Hrun' as <- <-. split_and!; [done..|]. by rewrite Hc, app_assoc.
  - destruct (piperead_spec p0 addr n (PView p m kl wk) Hl Hok) as (? & ? & Hrun' & Hok' & Hl' & Hc & _).
    rewrite Hrun in Hrun'. injection Hrun' as <- <-. split_and!; [done..|]. cbn in Hc. by rewrite Hc, app_assoc.
  - unfold close_end. destruct b; split_and!; try done; destruct Hok; by split.
Qed.

(** C24 Whatever the interleaving of writers, readers and closes, with the 32-bit
    counters wrapping around any number of times: the bytes accepted from the
    writers are exactly the bytes delivered to the readers, in order, followed
    by at most [PIPESIZE] bytes in the ring; and the next call never panics or
    faults.  A write either completes or stops with the ring full (it sleeps,
    or fails when no reader is left or the process is killed); a read returns
    the available bytes, up to what it asked for, and waits only on an empty
    ring with a writer left. *)
Theorem pipe_fifo p0 data c :
  mem_ok data → rtc (pipe_step p0) (Conf (newpipe data) [] []) c →
  let p := c_pipe c in
  written c = delivered c ++ contents p ∧ (length (contents p) <= 512)%nat ∧
  (∀ addr n i m kl wk, 0 <= i <= n → ∃ r v', pipewrite_from p0 addr n i (PView p m kl wk) = Done r v' ∧
    let k := u32 (nwrite (v_pipe v') - nwrite p) in
    contents (v_pipe v') = contents p ++ taken m (addr + i) k ∧
    (r = Ret n ∧ k = n - i ∨
     used (v_pipe v') = PIPESIZE ∧ r = if negb (readopen p) || kl then Ret (-1) else Asleep (i + k))) ∧
  (∀ addr n m kl wk, ∃ r v', piperead p0 addr n (PView p m kl wk) = Done r v' ∧
    contents p = returned v' addr r ++ contents (v_pipe v') ∧
    r = if (used p =? 0) && writeopen p then (if kl then Ret (-1) else Asleep 0)
        else Ret (Z.min (Z.max 0 n) (used p))).
Proof.
  intros Hd Hreach p. assert (Hinv : conf_inv c).
  { eapply (rtc_ind_r conf_inv); [|intros y z _ Hyz Hy; by eapply conf_inv_step|exact Hreach].
    unfold conf_inv. cbn. split_and!; [|done..]. split; cbn; try lia; done. }
  destruct Hinv as (Hok & Hl & Hw). split_and!.
  - done.
  - pose proof (contents_length p). destruct Hok as [_ _ Hu _]. fold p in Hu. unfold PIPESIZE in Hu. lia.
  - intros addr n i m kl wk Hi.
    destruct (pipewrite_spec p0 addr n i (PView p m kl wk) Hi Hl Hok) as (r & v' & Hrun & _ & _ & Hc & Hr).
    exists r, v'. cbn zeta. split_and!; [done..|]. cbn in Hr. destruct Hr as [Hr|[Hu Hr]]; [by left|right].
    split; [done|]. by destruct (negb _ || _).
  - intros addr n m kl wk.
    destruct (piperead_spec p0 addr n (PView p m kl wk) Hl Hok) as (r & v' & Hrun & _ & _ & Hc & Hr).
    exists r, v'. split_and!; [done..|]. cbn in Hr. by destruct (_ && _).
Qed.

(** Two bytes are written into a new pipe, and one of them is read. *)
Lemma pipe_fifo_witness :
  ∃ c, rtc (pipe_step 0) (Conf (newpipe (λ _, 0)) [] []) c ∧ written c = [7; 8] ∧ delivered c = [7] ∧
    contents (c_pipe c) = [8].
Proof.
  set (m := λ a, if a =? 100 then 7 else 8).
  assert (Hr : ∃ c, rtc (pipe_step 0) (Conf (newpipe (λ _, 0)) [] []) c ∧ written c = [7; 8] ∧ delivered c = [7]).
  { eexists. split; [|split].
    - eapply rtc_l; [eapply (step_write 0 _ _ _ 100 2 0 m false []); [lia|vm_compute; reflexivity]|].
      eapply rtc_l; [eapply (step_read 0 _ _ _ 100 1 (λ _, 0) false []); vm_compute; reflexivity|].
      apply rtc_refl.
    - vm_compute. reflexivity.
    - vm_compute. reflexivity. }
  destruct Hr as (c & Hr & Hw & Hd). exists c. split_and!; [done..|].
  destruct (pipe_fifo 0 (λ _, 0) c ltac:(intros x; lia) Hr) as [H _]. rewrite Hw, Hd in H. by injection H.
Defined.
