(* ===== verification/Printf.v ===== *)
(** * Formatted output: printf.c, and [printint] and [cprintf] of console.c

    Both formatters are modelled by the bytes they print.  [stack] is the
    sequence of argument words after the format, [m] the memory that holds the
    strings; [None] is an overrun of the 16-byte buffer of [printint] or a
    string with no terminator within the fuel. *)

From Stdlib Require Import ZArith Lia Ascii String.
From stdpp Require Import base numbers list option strings.
From S2P Require Import Prelude Mem.

(** The bytes of a string literal. *)
Fixpoint codes (s : string) : list Z :=
  match s with
  | EmptyString => []
  | String c s' => Z.of_nat (nat_of_ascii c) :: codes s'
  end.

Definition user_digits : list Z := codes "0123456789ABCDEF".
Definition cons_digits : list Z := codes "0123456789abcdef".

Section printint.
Context (digits : list Z).

(** The digits, least significant first; [room] is what is left of [buf]. *)
Fixpoint printint_loop (room : nat) (x base : Z) : option (list Z) :=
  match room with
  | O => None
  | S room' =>
      let d := nth (Z.to_nat (x mod base)) digits 0 in
      if x / base =? 0 then Some [d]
      else l ← printint_loop room' (x / base) base; Some (d :: l)
  end.

Definition printint (xx base : Z) (sgn : bool) : option (list Z) :=
  let neg := sgn && (xx <? 0) in
  let x := if neg then u32 (- xx) else u32 xx in
  l ← printint_loop 16 x base;
  if neg then (if Nat.ltb (length l) 16 then Some (reverse (l ++ [45])) else None)
  else Some (reverse l).
End printint.

(** The bytes of the string at [s]. *)
Fixpoint puts (fuel : nat) (m : mem) (s : Z) : option (list Z) :=
  if m s =? 0 then Some []
  else
    match fuel with
    | O => None
    | S fuel' => l ← puts fuel' m (s + 1); Some (m s :: l)
    end.

(** [%s]: the null pointer prints as (null). *)
Definition put_str (fuel : nat) (m : mem) (s : Z) : option (list Z) :=
  if s =? 0 then Some (codes "(null)") else puts fuel m s.

Section format.
Context (fuel : nat) (m : mem) (stack : nat → Z).

(** printf.c: [state] is 0 or the character %; [digits] is the table of its
    [printint]. *)
Fixpoint printf_loop (digits : list Z) (fmt : list Z) (state : bool) (ap : nat) : option (list Z) :=
  match fmt with
  | [] => Some []
  | c :: fmt' =>
      if negb state then
        if c =? 37 then printf_loop digits fmt' true ap
        else l ← printf_loop digits fmt' false ap; Some (c :: l)
      else if c =? 100 then
        d ← printint digits (s32 (stack ap)) 10 true;
        l ← printf_loop digits fmt' false (S ap); Some (d ++ l)
      else if (c =? 120) || (c =? 112) then
        d ← printint digits (s32 (stack ap)) 16 false;
        l ← printf_loop digits fmt' false (S ap); Some (d ++ l)
      else if c =? 115 then
        d ← put_str fuel m (stack ap);
        l ← printf_loop digits fmt' false (S ap); Some (d ++ l)
      else if c =? 99 then
        l ← printf_loop digits fmt' false (S ap); Some (u8 (stack ap) :: l)
      else if c =? 37 then
        l ← printf_loop digits fmt' false ap; Some (c :: l)
      else
        l ← printf_loop digits fmt' false ap; Some (37 :: c :: l)
  end.

Definition printf (fmt : list Z) : option (list Z) := printf_loop user_digits fmt false 0.

(** console.c: the character after % is read within the same iteration. *)
Fixpoint cprintf_loop (fmt : list Z) (argp : nat) : option (list Z) :=
  match fmt with
  | [] => Some []
  | c :: fmt' =>
      if negb (c =? 37) then l ← cprintf_loop fmt' argp; Some (c :: l)
      else
        match fmt' with
        | [] => Some []
        | c :: fmt' =>
            if c =? 100 then
              d ← printint cons_digits (s32 (stack argp)) 10 true;
              l ← cprintf_loop fmt' (S argp); Some (d ++ l)
            else if (c =? 120) || (c =? 112) then
              d ← printint cons_digits (s32 (stack argp)) 16 false;
              l ← cprintf_loop fmt' (S argp); Some (d ++ l)
            else if c =? 115 then
              d ← put_str fuel m (stack argp);
              l ← cprintf_loop fmt' (S argp); Some (d ++ l)
            else if c =? 37 then
              l ← cprintf_loop fmt' argp; Some (37 :: l)
            else
              l ← cprintf_loop fmt' argp; Some (37 :: c :: l)
        end
  end.
End format.

Definition cprintf_text (fuel : nat) (m : mem) (stack : nat → Z) (fmt : list Z) : option (list Z) :=
  cprintf_loop fuel m stack fmt 0.

(** ** Numerals *)

(** The number written by the digits [ds], most significant first. *)
Definition number (base : Z) (ds : list Z) : Z := fold_left (λ acc d, acc * base + d) ds 0.

(** [ds] is the numeral of [n]: its digits are below the base and there is no
    leading zero. *)
Definition is_numeral (base n : Z) (ds : list Z) : Prop :=
  number base ds = n ∧ Forall (λ d, 0 <= d < base) ds ∧ ds ≠ [] ∧ (head ds = Some 0 → ds = [0]).

Definition print_digits (digits ds : list Z) : list Z := (λ d, nth (Z.to_nat d) digits 0) <$> ds.

Lemma number_snoc base ds d : number base (ds ++ [d]) = number base ds * base + d.
Proof. unfold number. by rewrite fold_left_app. Qed.

Lemma printint_loop_spec digits base room x :
  2 <= base → 0 <= x < base ^ Z.of_nat room → (0 < room)%nat →
  ∃ ds, printint_loop digits room x base = Some (reverse (print_digits digits ds)) ∧
    is_numeral base x ds ∧ (length ds <= room)%nat.
Proof.
  intros Hb. revert x. induction room as [|room IH]; intros x Hx Hr; [lia|]. cbn [printint_loop].
  assert (Hmod : 0 <= x mod base < base) by (apply Z.mod_pos_bound; lia).
  pose proof (Z.div_mod x base ltac:(lia)) as Hdm. destruct (Z.eqb_spec (x / base) 0) as [H|H].
  - rewrite H, Z.mul_0_r in Hdm. exists [x mod base]. split; [done|]. unfold is_numeral, number. cbn.
    split_and!; try done; try lia.
    + by repeat constructor; lia.
    + by intros [= ->].
  - rewrite Nat2Z.inj_succ, Z.pow_succ_r in Hx by lia.
    assert (Hq : 0 <= x / base < base ^ Z.of_nat room).
    { split; [apply Z.div_pos; lia|apply Z.div_lt_upper_bound; lia]. }
    assert (Hroom : (0 < room)%nat) by (destruct room; [cbn in Hq; lia|lia]).
    destruct (IH (x / base) Hq Hroom) as (ds & -> & (Hn & Hf & Hne & Hz) & Hl).
    exists (ds ++ [x mod base]). split.
    + cbn. unfold print_digits. by rewrite fmap_app, reverse_app.
    + split; [|rewrite length_app; cbn; lia]. split_and!.
      * rewrite number_snoc, Hn. lia.
      * apply Forall_app. split; [done|by repeat constructor; lia].
      * by destruct ds.
      * destruct ds as [|d ds]; [done|]. cbn. intros [= ->]. specialize (Hz eq_refl). simplify_eq.
Qed.

(** [printint] never overruns its 16-byte buffer.  In base 10 and 16 it
    prints the numeral of its argument without leading zeros: with [sgn], the
    signed value with a minus sign when it is negative (the least integer
    included); without, the value as an unsigned integer. *)
Theorem printint_numeral digits xx base sgn :
  base = 10 ∨ base = 16 → -2147483648 <= xx < 2147483648 →
  ∃ ds, printint digits xx base sgn =
      Some (if sgn && (xx <? 0) then 45 :: print_digits digits ds else print_digits digits ds) ∧
    is_numeral base (if sgn then Z.abs xx else u32 xx) ds ∧ (length ds <= 10)%nat.
Proof.
  intros Hb Hxx. unfold printint. set (neg := sgn && _).
  set (x := if neg then u32 (- xx) else u32 xx).
  assert (Hx : 0 <= x < 4294967296) by (unfold x; destruct neg; apply u32_range).
  destruct (printint_loop_spec digits base 10 x) as (ds & Hrun & Hn & Hl); [lia| |lia|].
  { split; [lia|]. destruct Hb as [-> | ->]; cbn; lia. }
  assert (Hmore : printint_loop digits 16 x base = Some (reverse (print_digits digits ds))).
  { clear -Hrun. revert x Hrun. generalize (reverse (print_digits digits ds)).
    assert (Hmono : ∀ n k x l, printint_loop digits n x base = Some l → printint_loop digits (n + k) x base = Some l).
    { induction n as [|n IH]; intros k x l; [done|]. cbn. case_if; [done|].
      destruct (printint_loop digits n _ _) eqn:E; [|done]. by rewrite (IH _ _ _ E). }
    intros l x. apply (Hmono 10%nat 6%nat). }
  exists ds. cbn [mbind option_bind]. rewrite Hmore. cbn [mbind option_bind].
  assert (Hval : x = if sgn then Z.abs xx else u32 xx).
  { unfold x, neg. destruct sgn; cbn [andb]; [|done]. case_if; zb; rewrite u32_small; lia. }
  rewrite <- Hval. split; [|done]. destruct neg.
  - rewrite length_reverse. unfold print_digits at 1. rewrite length_fmap.
    replace (Nat.ltb (length ds) 16) with true by (symmetry; apply Nat.ltb_lt; lia).
    by rewrite reverse_app, reverse_involutive.
  - by rewrite reverse_involutive.
Qed.

Lemma printint_numeral_witness :
  ∃ ds, printint user_digits (-2147483648) 10 true = Some (45 :: print_digits user_digits ds) ∧
    is_numeral 10 2147483648 ds.
Proof.
  destruct (printint_numeral user_digits (-2147483648) 10 true) as (ds & H & Hn & _); [by left|lia|].
  by exists ds.
Defined.

(** ** The two formatters *)

(** Whether a format has the conversion %c, which only printf.c knows. *)
Fixpoint uses_c (fmt : list Z) (state : bool) : bool :=
  match fmt with
  | [] => false
  | c :: fmt' => if state then (c =? 99) || uses_c fmt' false else uses_c fmt' (c =? 37)
  end.

Lemma cprintf_loop_eq fuel m stack n fmt ap : (length fmt < n)%nat → uses_c fmt false = false →
  cprintf_loop fuel m stack fmt ap = printf_loop fuel m stack cons_digits fmt false ap.
Proof.
  revert fmt ap. induction n as [|n IH]; intros [|c fmt] ap Hn Hc; try done; cbn in Hn; [lia|].
  cbn [cprintf_loop printf_loop negb]. cbn [uses_c] in Hc.
  destruct (c =? 37) eqn:E1; cbn [negb]; [|by rewrite IH by (done || lia)].
  destruct fmt as [|d fmt]; [done|]. cbn [printf_loop negb]. cbn [uses_c] in Hc. cbn in Hn.
  apply orb_false_iff in Hc as [E2 Hc]. rewrite E2.
  repeat case_match; rewrite ?IH by (done || lia); try done.
  all: repeat match goal with H : (_ =? _) = true |- _ => apply Z.eqb_eq in H; subst end; done.
Qed.


