(* ===== verification/Grep.v ===== *)
(** * grep.c: the pattern matcher and the line filter

    Patterns and lines are C strings, here the lists of their bytes before the
    terminator.  [re[1]] and [*text] at the end of a string are its terminator,
    so a test of a character against a non-zero constant fails there. *)

From Stdlib Require Import ZArith Lia String.
From stdpp Require Import base numbers list strings.
From S2P Require Import Prelude Mem Printf.

Definition CARET : Z := 94.
Definition STAR : Z := 42.
Definition DOLLAR : Z := 36.
Definition DOT : Z := 46.
Definition NEWLINE : Z := 10.

(** [re[0]=='.' || re[0]==*text]. *)
Definition char_ok (c t : Z) : bool := (c =? DOT) || (c =? t).

(** [matchstar] and [matchhere] are mutually recursive in the source: a star's
    loop over the text calls [matchhere] on the rest of the pattern. *)
Definition matchstar (matchhere : list Z → bool) (c : Z) : list Z → bool :=
  fix loop (text : list Z) : bool :=
    matchhere text ||
    match text with
    | [] => false
    | t :: text' => ((t =? c) || (c =? DOT)) && loop text'
    end.

Fixpoint matchhere (re text : list Z) : bool :=
  match re with
  | [] => true
  | c :: re1 =>
      match re1 with
      | [] =>
          if c =? DOLLAR then match text with [] => true | _ => false end
          else match text with
               | [] => false
               | t :: text' => char_ok c t && matchhere re1 text'
               end
      | d :: re2 =>
          if d =? STAR then matchstar (matchhere re2) c text
          else match text with
               | [] => false
               | t :: text' => char_ok c t && matchhere re1 text'
               end
      end
  end.

(** The loop of [match] over the suffixes of the text. *)
Fixpoint match_any (re text : list Z) : bool :=
  matchhere re text || match text with [] => false | _ :: text' => match_any re text' end.

Definition match_re (re text : list Z) : bool :=
  match re with
  | c :: re' => if c =? CARET then matchhere re' text else match_any re text
  | [] => match_any re text
  end.

(** ** The line filter *)

(** [strchr(p, '\n')]: the line before the newline and what follows it; a zero
    byte ends the search. *)
Fixpoint next_line (p : list Z) : option (list Z * list Z) :=
  match p with
  | [] => None
  | c :: p' =>
      if c =? 0 then None
      else if c =? NEWLINE then Some ([], p')
      else match next_line p' with
           | None => None
           | Some (line, rest) => Some (c :: line, rest)
           end
  end.

(** The inner loop of [grep]: what is written and the bytes from [p] on. *)
Fixpoint grep_lines (fuel : nat) (pattern p : list Z) : list Z * list Z :=
  match next_line p, fuel with
  | Some (line, rest), S fuel' =>
      let '(out, rest') := grep_lines fuel' pattern rest in
      ((if match_re pattern line then line ++ [NEWLINE] else []) ++ out, rest')
  | _, _ => ([], p)
  end.

(** [grep] on the results of its reads; [kept] is the start of the buffer.  When
    no newline was found ([p == buf]) the buffer is emptied. *)
Fixpoint grep (pattern kept : list Z) (reads : list (list Z)) : list Z :=
  match reads with
  | [] => []
  | chunk :: reads' =>
      let buf := kept ++ chunk in
      let '(out, rest) := grep_lines (length buf) pattern buf in
      out ++ grep pattern (if Nat.eqb (length rest) (length buf) then [] else rest) reads'
  end.

(** ** The language of a pattern *)

Inductive item : Type :=
  | One (c : Z)
  | Many (c : Z)
  | End.

Fixpoint items (re : list Z) : list item :=
  match re with
  | [] => []
  | c :: re1 =>
      match re1 with
      | [] => if c =? DOLLAR then [End] else [One c]
      | d :: re2 => if d =? STAR then Many c :: items re2 else One c :: items re1
      end
  end.

(** [denotes r w rest]: the items match the word [w] when [rest] follows it. *)
Inductive denotes : list item → list Z → list Z → Prop :=
  | den_nil rest : denotes [] [] rest
  | den_one c t r w rest : char_ok c t = true → denotes r w rest → denotes (One c :: r) (t :: w) rest
  | den_many c ts r w rest :
      Forall (λ t, char_ok c t = true) ts → denotes r w rest → denotes (Many c :: r) (ts ++ w) rest
  | den_end : denotes [End] [] [].

Lemma matchstar_spec f c text :
  matchstar f c text = true ↔
  ∃ ts rest, text = ts ++ rest ∧ Forall (λ t, char_ok c t = true) ts ∧ f rest = true.
Proof.
  induction text as [|t text IH]; cbn.
  - rewrite orb_true_iff. split.
    + intros [H|H]; [|done]. by exists [], [].
    + intros (ts & rest & Heq & _ & H). symmetry in Heq. apply app_eq_nil in Heq as [-> ->]. by left.
  - fold (matchstar f c). rewrite orb_true_iff, andb_true_iff, IH. split.
    + intros [H|[Hc (ts & rest & -> & Hts & H)]].
      * by exists [], (t :: text).
      * exists (t :: ts), rest. split_and!; [done| |done]. constructor; [|done].
        unfold char_ok. by rewrite orb_comm, (Z.eqb_sym c t).
    + intros (ts & rest & Heq & Hts & H). destruct ts as [|t' ts]; cbn in Heq.
      * subst rest. by left.
      * injection Heq as <- ->. inversion Hts as [|? ? Hc Hts']; subst. right. split; [|eauto].
        unfold char_ok in Hc. by rewrite orb_comm, (Z.eqb_sym t c).
Qed.

Lemma denotes_one c r text :
  (∃ w rest, text = w ++ rest ∧ denotes (One c :: r) w rest) ↔
  ∃ t text', text = t :: text' ∧ char_ok c t = true ∧ ∃ w rest, text' = w ++ rest ∧ denotes r w rest.
Proof.
  split.
  - intros (w & rest & -> & Hd). inversion Hd; subst. eauto 10.
  - intros (t & text' & -> & Hc & w & rest & -> & Hd). exists (t :: w), rest. split; [done|by constructor].
Qed.

Lemma matchhere_spec n re text : (length re < n)%nat →
  matchhere re text = true ↔ ∃ w rest, text = w ++ rest ∧ denotes (items re) w rest.
Proof.
  revert re text. induction n as [|n IH]; intros re text Hn; [lia|].
  assert (Hone : ∀ c re1, (length re1 < n)%nat →
    match text with [] => false | t :: text' => char_ok c t && matchhere re1 text' end = true ↔
    ∃ w rest, text = w ++ rest ∧ denotes (One c :: items re1) w rest).
  { intros c re1 Hl. rewrite denotes_one. destruct text as [|t text]; [naive_solver|].
    rewrite andb_true_iff, IH by done. split; [|naive_solver]. intros [? ?]. by exists t, text. }
  destruct re as [|c [|d re]]; cbn [length] in Hn.
  - cbn. split; [|done]. intros _. exists [], text. split; [done|constructor].
  - cbn [matchhere items]. destruct (c =? DOLLAR); [|apply (Hone c []); cbn; lia]. split.
    + destruct text; [|done]. intros _. exists [], []. split; [done|constructor].
    + intros (w & rest & -> & Hd). by inversion Hd.
  - change (matchhere (c :: d :: re) text) with
      (if d =? STAR then matchstar (matchhere re) c text
       else match text with [] => false | t :: text' => char_ok c t && matchhere (d :: re) text' end).
    change (items (c :: d :: re)) with (if d =? STAR then Many c :: items re else One c :: items (d :: re)).
    destruct (d =? STAR); [|apply Hone; cbn; lia].
    rewrite matchstar_spec. split.
    + intros (ts & rest & -> & Hts & (w & rest' & -> & Hd)%IH); [|lia].
      exists (ts ++ w), rest'. split; [by rewrite app_assoc|by constructor].
    + intros (w & rest & -> & Hd). inversion Hd as [| |? ts ? w' ? Hts Hd'|]; subst.
      exists ts, (w' ++ rest). split_and!; [by rewrite app_assoc|done|]. apply IH; [lia|eauto].
Qed.

Lemma match_any_spec re text :
  match_any re text = true ↔ ∃ l w rest, text = l ++ w ++ rest ∧ denotes (items re) w rest.
Proof.
  induction text as [|t text IH]; cbn [match_any];
    rewrite orb_true_iff, (matchhere_spec (S (length re))) by lia.
  - split.
    + intros [(w & rest & H & Hd)|]; [|done]. by exists [], w, rest.
    + intros (l & w & rest & H & Hd). left. exists w, rest. split; [|done].
      destruct l; [done|discriminate].
  - rewrite IH. split.
    + intros [(w & rest & H & Hd)|(l & w & rest & -> & Hd)]; [by exists [], w, rest|by exists (t :: l), w, rest].
    + intros (l & w & rest & H & Hd). destruct l as [|t' l]; [left; by exists w, rest|right].
      cbn in H. injection H as <- H. eauto 10.
Qed.

(** C37 The matcher decides the language of its pattern: [match] succeeds exactly
    when some part of the line (a prefix of it, for a pattern that starts with
    ^) is a word of the pattern, where c* stands for any number of characters
    that fit [c], . for any character and a final $ for the end of the line. *)
Theorem match_language re text :
  match_re re text = true ↔
  ∃ l w rest, text = l ++ w ++ rest ∧
    match re with
    | c :: re' => if c =? CARET then l = [] ∧ denotes (items re') w rest else denotes (items re) w rest
    | [] => denotes (items re) w rest
    end.
Proof.
  unfold match_re. destruct re as [|c re]; [apply match_any_spec|].
  destruct (c =? CARET); [|apply match_any_spec].
  rewrite (matchhere_spec (S (length re))) by lia. split.
  - intros (w & rest & -> & Hd). by exists [], w, rest.
  - intros (l & w & rest & -> & -> & Hd). by exists w, rest.
Qed.

(** ** What [grep] prints *)

Definition with_newlines (lines : list (list Z)) : list Z := concat ((λ l, l ++ [NEWLINE]) <$> lines).

Lemma with_newlines_cons l ls : with_newlines (l :: ls) = l ++ NEWLINE :: with_newlines ls.
Proof. unfold with_newlines. cbn. by rewrite <- app_assoc. Qed.

Lemma next_line_spec p : 0 ∉ p →
  match next_line p with
  | Some (line, rest) => p = line ++ NEWLINE :: rest ∧ NEWLINE ∉ line
  | None => NEWLINE ∉ p
  end.
Proof.
  induction p as [|c p IH]; intros H0; [by apply not_elem_of_nil|]. apply not_elem_of_cons in H0 as [Hc H0].
  cbn. destruct (Z.eqb_spec c 0); [done|]. destruct (Z.eqb_spec c NEWLINE) as [->|Hn].
  - split; [done|]. apply not_elem_of_nil.
  - specialize (IH H0). destruct (next_line p) as [[line rest]|].
    + destruct IH as [-> Hl]. split; [done|]. by apply not_elem_of_cons.
    + by apply not_elem_of_cons.
Qed.

Lemma grep_lines_spec pattern fuel p : (length p <= fuel)%nat → 0 ∉ p →
  ∃ lines rest, p = with_newlines lines ++ rest ∧ (NEWLINE ∉ rest) ∧ Forall (λ l, NEWLINE ∉ l) lines ∧
    grep_lines fuel pattern p = (with_newlines (List.filter (match_re pattern) lines), rest).
Proof.
  revert p. induction fuel as [|fuel IH]; intros p Hf H0.
  - destruct p; [|cbn in Hf; lia]. exists [], []. split_and!; try done. apply not_elem_of_nil.
  - cbn [grep_lines]. pose proof (next_line_spec p H0) as Hn. destruct (next_line p) as [[line rest]|].
    + destruct Hn as [-> Hl]. rewrite length_app in Hf. cbn in Hf.
      destruct (IH rest) as (lines & rest' & -> & Hr & Hls & ->); [lia| |].
      { intros H. apply H0. apply elem_of_app. right. by apply elem_of_cons; right. }
      exists (line :: lines), rest'. split_and!; [by rewrite with_newlines_cons, <- app_assoc|done|by constructor|].
      cbn [List.filter]. by destruct (match_re pattern line).
    + exists [], p. by split_and!.
Qed.

Lemma line_unique l1 l2 r1 r2 : NEWLINE ∉ l1 → NEWLINE ∉ l2 →
  l1 ++ NEWLINE :: r1 = l2 ++ NEWLINE :: r2 → l1 = l2 ∧ r1 = r2.
Proof.
  revert l2. induction l1 as [|c l1 IH]; intros [|d l2] H1 H2 Heq; cbn in Heq.
  - by injection Heq.
  - injection Heq as <- _. by apply not_elem_of_cons in H2 as [].
  - injection Heq as -> _. by apply not_elem_of_cons in H1 as [].
  - injection Heq as -> Heq. apply not_elem_of_cons in H1 as [_ H1], H2 as [_ H2].
    by destruct (IH _ H1 H2 Heq) as [-> ->].
Qed.

Lemma lines_prefix ls1 ls2 r1 tail : Forall (λ l, NEWLINE ∉ l) ls1 → Forall (λ l, NEWLINE ∉ l) ls2 →
  NEWLINE ∉ tail → with_newlines ls1 ++ r1 = with_newlines ls2 ++ tail →
  ∃ ls, ls2 = ls1 ++ ls ∧ r1 = with_newlines ls ++ tail.
Proof.
  revert ls2. induction ls1 as [|l ls1 IH]; intros ls2 H1 H2 Ht Heq; [by exists ls2|].
  rewrite with_newlines_cons, <- app_assoc in Heq. inversion H1; subst.
  destruct ls2 as [|l2 ls2].
  - exfalso. apply Ht. cbn in Heq. rewrite <- Heq. apply elem_of_app. right. apply elem_of_cons. by left.
  - rewrite with_newlines_cons, <- app_assoc in Heq. inversion H2; subst.
    apply line_unique in Heq as [-> Heq]; [|done..].
    destruct (IH ls2) as (ls & -> & ->); [done..|]. by exists ls.
Qed.

Lemma grep_spec pattern kept reads lines tail :
  NEWLINE ∉ kept → Forall (λ c, NEWLINE ∈ c) reads → (0 ∉ kept ++ concat reads) →
  kept ++ concat reads = with_newlines lines ++ tail →
  Forall (λ l, NEWLINE ∉ l) lines → NEWLINE ∉ tail →
  grep pattern kept reads = with_newlines (List.filter (match_re pattern) lines).
Proof.
  revert kept lines. induction reads as [|chunk reads IH]; intros kept lines Hk Hr H0 Heq Hls Ht.
  - cbn in *. rewrite app_nil_r in Heq. destruct lines as [|l lines]; [done|].
    exfalso. apply Hk. rewrite Heq, with_newlines_cons, <- app_assoc. apply elem_of_app. right.
    apply elem_of_cons. by left.
  - cbn [grep concat] in *. rewrite app_assoc in Heq, H0. inversion Hr as [|? ? Hc Hr']; subst.
    apply not_elem_of_app in H0 as [H0 H0'].
    destruct (grep_lines_spec pattern (length (kept ++ chunk)) (kept ++ chunk)) as (ls1 & rest & Hb & Hrest & Hls1 & ->);
      [done..|].
    destruct (Nat.eqb_spec (length rest) (length (kept ++ chunk))) as [Hl|Hl].
    { exfalso. assert (ls1 = []) as ->.
      { destruct ls1; [done|]. rewrite Hb, with_newlines_cons in Hl. rewrite !length_app in Hl. cbn in Hl. lia. }
      cbn in Hb. subst rest. apply Hrest, elem_of_app. by right. }
    rewrite Hb, <- app_assoc in Heq. apply lines_prefix in Heq as (ls & -> & Heq); [|done..].
    rewrite Hb in H0. apply not_elem_of_app in H0 as [_ H0].
    rewrite (IH rest ls); try done; [|by apply not_elem_of_app|by apply Forall_app in Hls as [_ ?]].
    rewrite List.filter_app. unfold with_newlines. by rewrite fmap_app, concat_app.
Qed.

(** When every read returns at least one line end, [grep] prints exactly the
    complete lines of its input that match the pattern, in order, however the
    input is cut into reads. *)
Theorem grep_filters pattern reads lines tail :
  Forall (λ c, NEWLINE ∈ c) reads → 0 ∉ concat reads →
  concat reads = with_newlines lines ++ tail → Forall (λ l, NEWLINE ∉ l) lines → NEWLINE ∉ tail →
  grep pattern [] reads = with_newlines (List.filter (match_re pattern) lines).
Proof. intros. eapply grep_spec; try done. apply not_elem_of_nil. Qed.

Lemma grep_filters_witness :
  grep (codes "^a.*c") [] [codes "ab" ++ [10; 97]; codes "xc" ++ [10]] = codes "axc" ++ [10].
Proof.
  rewrite (grep_filters _ _ [codes "ab"; codes "axc"] []); [done| | |done| |apply not_elem_of_nil];
    vmdec.
Defined.

(** Without a line end in a read, the partial line is lost: of the input abc
    that arrives as ab and c nothing is printed, though the line matches. *)
Lemma grep_loses_partial_line :
  grep (codes "a") [] [codes "ab"; codes "c" ++ [10]] = [] ∧
  grep (codes "a") [] [codes "abc" ++ [10]] = codes "abc" ++ [10].
Proof. by vm_compute. Qed.
