(* ===== verification/Console.v ===== *)
(** * The console (console.c) and the serial port (uart.c)

    Output goes to the serial port and to the CGA text screen, whose memory and
    cursor registers are part of the state.  Input is a ring of [INPUT_BUF]
    bytes with three 32-bit indices: read, write and edit.  The line discipline
    refines a pair of lists, the committed input and the line being edited. *)

From Stdlib Require Import ZArith Lia String.
From stdpp Require Import base numbers list strings.
From S2P Require Import Prelude Mem Printf Ring.

Definition BACKSPACE : Z := 0x100.
Definition INPUT_BUF : Z := 128.

(** [C(x)], the code of control-x. *)
Definition Ctl (x : Z) : Z := x - 64.

Record input : Type := Input {
  in_buf : mem;
  in_r : Z;
  in_w : Z;
  in_e : Z
}.

(** [crt] are the 16-bit cells of the screen, [crtc] the registers of the CRT
    controller; [serial] is what the serial port received, [lsr] what its status
    register reads. *)
Record cstate : Type := CState {
  cons_lock : bool;
  locking : bool;
  panicked : bool;
  crt : Z → Z;
  crtc : Z → Z;
  uart : bool;
  lsr : Z;
  serial : list Z;
  inp : input;
  c_killed : bool;
  c_mem : mem;
  c_woken : list Z
}.

Definition set_cons_lock (b : bool) (s : cstate) : cstate :=
  CState b (locking s) (panicked s) (crt s) (crtc s) (uart s) (lsr s) (serial s) (inp s) (c_killed s) (c_mem s) (c_woken s).
Definition set_screen (cells regs : Z → Z) (s : cstate) : cstate :=
  CState (cons_lock s) (locking s) (panicked s) cells regs (uart s) (lsr s) (serial s) (inp s) (c_killed s) (c_mem s) (c_woken s).
Definition set_serial (l : list Z) (s : cstate) : cstate :=
  CState (cons_lock s) (locking s) (panicked s) (crt s) (crtc s) (uart s) (lsr s) l (inp s) (c_killed s) (c_mem s) (c_woken s).
Definition set_inp (i : input) (s : cstate) : cstate :=
  CState (cons_lock s) (locking s) (panicked s) (crt s) (crtc s) (uart s) (lsr s) (serial s) i (c_killed s) (c_mem s) (c_woken s).
Definition set_c_mem (m : mem) (s : cstate) : cstate :=
  CState (cons_lock s) (locking s) (panicked s) (crt s) (crtc s) (uart s) (lsr s) (serial s) (inp s) (c_killed s) m (c_woken s).
Definition wakeup_input : M cstate unit := modify (λ s,
  CState (cons_lock s) (locking s) (panicked s) (crt s) (crtc s) (uart s) (lsr s) (serial s) (inp s) (c_killed s) (c_mem s)
         (c_woken s ++ [INPUT_BUF])).

(** ** The serial port *)

(** After at most 128 delays the byte is sent whether or not the transmitter is
    ready. *)
Definition uartputc (c : Z) : M cstate unit :=
  u <- gets uart ;;
  when u (modify (λ s, set_serial (serial s ++ [u8 c]) s)).

(** One byte, or -1; [rx] is what the data register reads. *)
Definition uartgetc (rx : Z) : M cstate Z :=
  u <- gets uart ;;
  if negb u then ret (-1)
  else
    st <- gets lsr ;;
    if Z.land st 1 =? 0 then ret (-1) else ret rx.

Fixpoint uart_puts (p : list Z) : M cstate unit :=
  match p with
  | [] => ret tt
  | c :: p' => uartputc c ;;; uart_puts p'
  end.

(** Writes to the port's control registers have no effect on the state. *)
Definition uartinit : M cstate unit :=
  st <- gets lsr ;;
  if st =? 0xFF then ret tt
  else
    modify (λ s, CState (cons_lock s) (locking s) (panicked s) (crt s) (crtc s) true (lsr s) (serial s)
                        (inp s) (c_killed s) (c_mem s) (c_woken s)) ;;;
    uart_puts (codes "xv6..." ++ [10]).

(** ** The screen *)

Definition upd (f : Z → Z) (i v : Z) : Z → Z := λ x, if x =? i then v else f x.

(** [memmove(crt, crt+80, sizeof(crt[0])*23*80)] and
    [memset(crt+pos, 0, sizeof(crt[0])*(24*80 - pos))], in cells. *)
Definition scroll_up (cells : Z → Z) (pos : Z) : Z → Z := λ x,
  if (pos <=? x) && (x <? 24 * 80) then 0
  else if (0 <=? x) && (x <? 23 * 80) then cells (x + 80) else cells x.

Definition cgaputc (c : Z) : M cstate unit :=
  cells <- gets crt ;;
  regs <- gets crtc ;;
  let pos := Z.lor (Z.shiftl (regs 14) 8) (regs 15) in
  let '(pos, cells) :=
    if c =? 10 then (pos + (80 - pos mod 80), cells)
    else if c =? BACKSPACE then (if pos >? 0 then pos - 1 else pos, cells)
    else (pos + 1, upd cells pos (Z.lor (Z.land c 0xff) 0x0700)) in
  if (pos <? 0) || (pos >? 25 * 80) then panic "pos under/overflow"
  else
    let '(pos, cells) :=
      if pos / 80 >=? 24 then (pos - 80, scroll_up cells (pos - 80)) else (pos, cells) in
    modify (set_screen (upd cells pos (Z.lor 32 0x0700))
                       (upd (upd regs 14 (u8 (Z.shiftr pos 8))) 15 (u8 pos))).

(** After a panic the processor that prints spins for ever. *)
Definition consputc (c : Z) : M cstate unit :=
  p <- gets panicked ;;
  if p : bool then nofuel
  else
    (if c =? BACKSPACE then uartputc 8 ;;; uartputc 32 ;;; uartputc 8 else uartputc c) ;;;
    cgaputc c.

Fixpoint consputs (l : list Z) : M cstate unit :=
  match l with
  | [] => ret tt
  | c :: l' => consputc c ;;; consputs l'
  end.

(** [cprintf], printing what [cprintf_text] formats. *)
Definition cons_printf (fuel : nat) (stack : nat → Z) (fmt : list Z) : M cstate unit :=
  lk <- gets locking ;;
  when lk (acquire cons_lock set_cons_lock) ;;;
  m <- gets c_mem ;;
  match cprintf_text fuel m stack fmt with
  | None => fault
  | Some l => consputs l
  end ;;;
  when lk (release cons_lock set_cons_lock).

(** ** Input *)

(** [input.buf[i % INPUT_BUF]]. *)
Definition in_at (i : input) (k : Z) : Z := in_buf i (k mod INPUT_BUF).

Fixpoint kill_line (fuel : nat) : M cstate unit :=
  i <- gets inp ;;
  if negb (in_e i =? in_w i) && negb (in_at i (u32 (in_e i - 1)) =? 10) then
    match fuel with
    | O => nofuel
    | S fuel' =>
        modify (set_inp (Input (in_buf i) (in_r i) (in_w i) (u32 (in_e i - 1)))) ;;;
        consputc BACKSPACE ;;;
        kill_line fuel'
    end
  else ret tt.

(** One character of [consoleintr]; the result is whether ^P was typed. *)
Definition consoleintr_key (c : Z) : M cstate bool :=
  if c =? Ctl 80 then ret true
  else if c =? Ctl 85 then kill_line (Z.to_nat INPUT_BUF) ;;; ret false
  else if (c =? Ctl 72) || (c =? 127) then
    i <- gets inp ;;
    when (negb (in_e i =? in_w i)) (
      modify (set_inp (Input (in_buf i) (in_r i) (in_w i) (u32 (in_e i - 1)))) ;;;
      consputc BACKSPACE) ;;;
    ret false
  else
    i <- gets inp ;;
    (if negb (c =? 0) && (u32 (in_e i - in_r i) <? INPUT_BUF) then
       let c := if c =? 13 then 10 else c in
       let i' := Input (store8 (in_buf i) (in_e i mod INPUT_BUF) c) (in_r i) (in_w i) (u32 (in_e i + 1)) in
       modify (set_inp i') ;;;
       consputc c ;;;
       when ((c =? 10) || (c =? Ctl 68) || (in_e i' =? u32 (in_r i' + INPUT_BUF))) (
         modify (set_inp (Input (in_buf i') (in_r i') (in_e i') (in_e i'))) ;;;
         wakeup_input)
     else ret tt) ;;;
    ret false.

Fixpoint consoleintr_loop (keys : list Z) (doprocdump : bool) : M cstate bool :=
  match keys with
  | [] => ret doprocdump
  | c :: keys' =>
      d <- consoleintr_key c ;;
      consoleintr_loop keys' (doprocdump || d)
  end.

(** [keys] are the characters [getc] returns before -1; the result is whether
    [procdump] is to be called. *)
Definition consoleintr (keys : list Z) : M cstate bool :=
  acquire cons_lock set_cons_lock ;;;
  d <- consoleintr_loop keys false ;;
  release cons_lock set_cons_lock ;;;
  ret d.

(** [consoleread] returns, or sleeps with [n] bytes still wanted at [dst]. *)
Inductive readret : Type :=
  | RRet (r : Z)
  | RAsleep (dst n : Z).

Section consoleread.
(** [iunlock(ip)] and [ilock(ip)] of fs.c, for the console's inode. *)
Context (iunlock ilock : M cstate unit) (target : Z).

Fixpoint consoleread_loop (k : nat) (dst n : Z) : M cstate readret :=
  match k with
  | O => release cons_lock set_cons_lock ;;; ilock ;;; ret (RRet (target - n))
  | S k' =>
      i <- gets inp ;;
      if in_r i =? in_w i then
        kl <- gets c_killed ;;
        if kl : bool then release cons_lock set_cons_lock ;;; ilock ;;; ret (RRet (-1))
        else release cons_lock set_cons_lock ;;; ret (RAsleep dst n)
      else
        let c := in_at i (in_r i) in
        if c =? Ctl 68 then
          (if n <? target then ret tt
           else modify (set_inp (Input (in_buf i) (u32 (in_r i + 1)) (in_w i) (in_e i)))) ;;;
          release cons_lock set_cons_lock ;;; ilock ;;; ret (RRet (target - n))
        else
          modify (set_inp (Input (in_buf i) (u32 (in_r i + 1)) (in_w i) (in_e i))) ;;;
          modify (λ s, set_c_mem (store8 (c_mem s) dst c) s) ;;;
          if c =? 10 then
            release cons_lock set_cons_lock ;;; ilock ;;; ret (RRet (target - (n - 1)))
          else consoleread_loop k' (dst + 1) (n - 1)
  end.

(** A call that resumes after its sleep. *)
Definition consoleread_from (dst n : Z) : M cstate readret :=
  acquire cons_lock set_cons_lock ;;;
  consoleread_loop (Z.to_nat n) dst n.

Definition consoleread (dst : Z) : M cstate readret :=
  iunlock ;;;
  consoleread_from dst target.

Definition consolewrite (buf n : Z) : M cstate Z :=
  iunlock ;;;
  acquire cons_lock set_cons_lock ;;;
  m <- gets c_mem ;;
  consputs (bytes_at m buf (Z.to_nat n)) ;;;
  release cons_lock set_cons_lock ;;;
  ilock ;;;
  ret n.
End consoleread.

(** ** The screen *)

Definition cursor (s : cstate) : Z := Z.lor (Z.shiftl (crtc s 14) 8) (crtc s 15).

(** The cursor is within the 24 rows that are used. *)
Record screen_ok (s : cstate) : Prop := {
  so_hi : 0 <= crtc s 14 < 256;
  so_lo : 0 <= crtc s 15 < 256;
  so_cursor : 0 <= cursor s < 24 * 80;
  so_running : panicked s = false
}.

(** Where character [c] leaves the cursor, before scrolling, and the cells. *)
Definition advance (c pos : Z) : Z :=
  if c =? 10 then pos + (80 - pos mod 80)
  else if c =? BACKSPACE then (if pos >? 0 then pos - 1 else pos) else pos + 1.
Definition draw (c pos : Z) (cells : Z → Z) : Z → Z :=
  if (c =? 10) || (c =? BACKSPACE) then cells else upd cells pos (Z.lor (Z.land c 0xff) 0x0700).

Lemma cursor_bytes pos : 0 <= pos < 65536 → Z.lor (Z.shiftl (u8 (Z.shiftr pos 8)) 8) (u8 pos) = pos.
Proof.
  intros Hp. rewrite Z.shiftl_mul_pow2, Z.shiftr_div_pow2 by lia. change (2 ^ 8) with 256.
  rewrite (lor_add _ _ 8 256); unfold u8; [zlia|done|lia|zlia|zlia].
Qed.

Lemma cgaputc_spec c s : screen_ok s →
  let pos := advance c (cursor s) in
  let cells := draw c (cursor s) (crt s) in
  ∃ cells' regs', cgaputc c s = Done tt (set_screen cells' regs' s) ∧
    screen_ok (set_screen cells' regs' s) ∧
    cursor (set_screen cells' regs' s) = (if pos <? 1920 then pos else 1840) ∧
    cells' = upd (if pos <? 1920 then cells else λ x,
      if (1840 <=? x) && (x <? 1920) then 0 else if (0 <=? x) && (x <? 1840) then cells (x + 80) else cells x)
      (if pos <? 1920 then pos else 1840) 0x720.
Proof.
  intros [Hh Hl Hc Hp] pos cells. unfold cgaputc. mrun. fold (cursor s).
  set (pc := if c =? 10 then _ else _).
  assert (Hpc : pc = (pos, cells)).
  { unfold pc, pos, cells, advance, draw. destruct (c =? 10); [done|]. by destruct (c =? BACKSPACE). }
  clearbody pc. subst pc. cbv beta iota.
  assert (Hpos : 0 <= pos <= 1920).
  { unfold pos, advance. repeat case_if; zb; rewrite ?Z.gtb_ltb in *; zb; zlia. }
  assert ((pos <? 0) || (pos >? 25 * 80) = false) as -> by (rewrite Z.gtb_ltb; apply orb_false_iff; split; apply Z.ltb_ge; lia).
  assert ((pos / 80 >=? 24) = negb (pos <? 1920)) as ->.
  { rewrite Z.geb_leb. destruct (Z.ltb_spec pos 1920); [apply Z.leb_gt|apply Z.leb_le]; zlia. }
  assert (Hok : ∀ q cs, 0 <= q < 1920 →
    screen_ok (set_screen cs (upd (upd (crtc s) 14 (u8 (Z.shiftr q 8))) 15 (u8 q)) s) ∧
    cursor (set_screen cs (upd (upd (crtc s) 14 (u8 (Z.shiftr q 8))) 15 (u8 q)) s) = q).
  { intros q cs Hq. assert (Hcur : cursor (set_screen cs (upd (upd (crtc s) 14 (u8 (Z.shiftr q 8))) 15 (u8 q)) s) = q).
    { unfold cursor, upd. cbn. apply cursor_bytes. lia. }
    split; [|done]. split; [..|rewrite Hcur; lia|done]; unfold upd; cbn; apply u8_range. }
  destruct (Z.ltb_spec pos 1920); cbn [negb].
  - eexists _, _. split; [done|]. destruct (Hok pos (upd cells pos (Z.lor 32 1792))) as [Ho Hcur]; [lia|]. done.
  - assert (pos = 1920) as -> by lia. eexists _, _. split; [done|]. change (1920 - 80) with 1840.
    destruct (Hok 1840 (upd (scroll_up cells 1840) 1840 (Z.lor 32 1792))) as [Ho Hcur]; [lia|]. done.
Qed.

(** [output_only s s']: the two differ in what has been printed. *)
Record output_only (s s' : cstate) : Prop := {
  oo_lock : cons_lock s' = cons_lock s;
  oo_inp : inp s' = inp s;
  oo_killed : c_killed s' = c_killed s;
  oo_mem : c_mem s' = c_mem s;
  oo_woken : c_woken s' = c_woken s
}.

Lemma uartputc_spec c s : ∃ l, uartputc c s = Done tt (set_serial l s).
Proof.
  unfold uartputc. mrun. destruct (uart s) eqn:E; mrun; [by eexists|]. exists (serial s). by destruct s.
Qed.

Lemma consputc_spec c s : screen_ok s →
  ∃ s', consputc c s = Done tt s' ∧ screen_ok s' ∧ output_only s s'.
Proof.
  intros Hok. unfold consputc. mrun. rewrite (so_running s Hok).
  assert (∃ l, (if c =? BACKSPACE then uartputc 8 ;;; uartputc 32 ;;; uartputc 8 else uartputc c) s
               = Done tt (set_serial l s)) as [l Hl].
  { destruct (c =? BACKSPACE); [|apply uartputc_spec].
    destruct (uartputc_spec 8 s) as [l1 H1]. mcall H1. destruct (uartputc_spec 32 (set_serial l1 s)) as [l2 H2].
    mcall H2. destruct (uartputc_spec 8 (set_serial l2 (set_serial l1 s))) as [l3 H3]. rewrite H3. by exists l3. }
  mcall Hl. assert (Hok' : screen_ok (set_serial l s)) by (destruct Hok; by split).
  destruct (cgaputc_spec c _ Hok') as (cells & regs & -> & Ho & _). eexists. split; [done|]. by split.
Qed.

(** ** The line discipline *)

Definition committed (i : input) : list Z := ring INPUT_BUF (in_buf i) (in_r i) (u32 (in_w i - in_r i)).
Definition pending (i : input) : list Z := ring INPUT_BUF (in_buf i) (in_w i) (u32 (in_e i - in_w i)).

Record input_ok (i : input) : Prop := {
  io_r : 0 <= in_r i < 4294967296;
  io_w : 0 <= in_w i < 4294967296;
  io_e : 0 <= in_e i < 4294967296;
  io_size : u32 (in_w i - in_r i) + u32 (in_e i - in_w i) <= INPUT_BUF;
  io_line : 10 ∉ pending i
}.

(** What a typed character does to the committed input and the current line. *)
Definition edit (st : list Z * list Z) (c : Z) : list Z * list Z :=
  let '(input, line) := st in
  if c =? Ctl 80 then st
  else if c =? Ctl 85 then (input, [])
  else if (c =? Ctl 72) || (c =? 127) then (input, removelast line)
  else if (c =? 0) || Nat.leb 128 (length input + length line) then st
  else
    let c := if c =? 13 then 10 else c in
    if (c =? 10) || (c =? Ctl 68) || Nat.eqb (length input + length line + 1) 128
    then (input ++ line ++ [c], []) else (input, line ++ [c]).

Definition typed (i : input) : list Z * list Z := (committed i, pending i).

Lemma pending_drop i : input_ok i → in_e i ≠ in_w i →
  let i' := Input (in_buf i) (in_r i) (in_w i) (u32 (in_e i - 1)) in
  pending i = pending i' ++ [in_at i (u32 (in_e i - 1))] ∧ input_ok i'.
Proof.
  intros [Hr Hw He Hs Hl] Hne i'.
  assert (Hn : u32 (in_e i' - in_w i') = u32 (in_e i - in_w i) - 1) by (cbn; unfold u32 in *; zlia).
  assert (Hp : pending i = pending i' ++ [in_at i (u32 (in_e i - 1))]).
  { unfold pending. rewrite Hn. cbn [in_buf in_w i']. set (n := u32 (in_e i - in_w i)) in *.
    assert (0 <= n) by apply u32_range.
    assert (0 < n) by (unfold n, u32 in *; zlia).
    replace n with ((n - 1) + 1) at 1 by lia. rewrite ring_app by lia. f_equal.
    rewrite ring_cons by lia. unfold in_at. change (1 - 1) with 0. unfold ring. cbn. do 2 f_equal.
    f_equal. clear -Hw He. unfold n, u32. zlia. }
  split; [done|]. split; [done|done| | |].
  - apply u32_range.
  - rewrite Hn. cbn. lia.
  - intros Hin. apply Hl. rewrite Hp. apply elem_of_app. by left.
Qed.

(** [kept s s']: everything but the input and the output is unchanged. *)
Record kept (s s' : cstate) : Prop := {
  kp_lock : cons_lock s' = cons_lock s;
  kp_killed : c_killed s' = c_killed s;
  kp_mem : c_mem s' = c_mem s;
  kp_screen : screen_ok s'
}.

Lemma kept_trans s1 s2 s3 : kept s1 s2 → kept s2 s3 → kept s1 s3.
Proof. intros [] []. split; congruence. Qed.

Lemma consputc_kept c s i : screen_ok s →
  ∃ s', consputc c (set_inp i s) = Done tt s' ∧ kept s s' ∧ inp s' = i.
Proof.
  intros Hok. destruct (consputc_spec c (set_inp i s)) as (s' & -> & Hok' & [H1 H2 H3 H4 H5]).
  - destruct Hok. by split.
  - exists s'. split_and!; [done| |done]. by split.
Qed.

Lemma pending_nil i : input_ok i → pending i = [] ↔ in_e i = in_w i.
Proof.
  intros [Hr Hw He _ _]. unfold pending. split.
  - intros H. apply (f_equal length) in H. rewrite ring_length in H. cbn in H. unfold u32 in H.
    assert ((in_e i - in_w i) mod 4294967296 <= 0) by lia. zlia.
  - intros ->. by rewrite Z.sub_diag.
Qed.

Lemma kill_line_spec fuel s : screen_ok s → input_ok (inp s) → (length (pending (inp s)) <= fuel)%nat →
  ∃ s', kill_line fuel s = Done tt s' ∧ kept s s' ∧ input_ok (inp s') ∧
    committed (inp s') = committed (inp s) ∧ pending (inp s') = [].
Proof.
  revert s. induction fuel as [|fuel IH]; intros s Hsc Hok Hf; cbn [kill_line]; mrun.
  all: destruct (Z.eqb_spec (in_e (inp s)) (in_w (inp s))) as [He|He]; cbn [negb andb].
  1,3: exists s; split_and!; try done; by apply pending_nil.
  - exfalso. apply He, pending_nil; [done|]. by destruct (pending (inp s)); [|cbn in Hf; lia].
  - destruct (pending_drop _ Hok He) as [Hp Hok'].
    assert ((in_at (inp s) (u32 (in_e (inp s) - 1)) =? 10) = false) as ->.
    { apply Z.eqb_neq. intros Heq. apply (io_line _ Hok). rewrite Hp, Heq. apply elem_of_app. right. by left. }
    cbn [negb]. mrun. set (i' := Input _ _ _ _) in *.
    destruct (consputc_kept BACKSPACE s i' Hsc) as (s1 & Hrun & Hk & Hi). mcall Hrun.
    destruct (IH s1) as (s' & -> & Hk' & Hok1 & Hc & Hpn); [apply Hk|by rewrite Hi| |].
    { rewrite Hi. rewrite Hp, length_app in Hf. cbn in Hf. lia. }
    exists s'. split_and!; try done; [by eapply kept_trans|]. by rewrite Hc, Hi.
Qed.

Lemma append_spec i c : input_ok i → u32 (in_e i - in_r i) < INPUT_BUF → 0 <= c < 256 →
  let i' := Input (store8 (in_buf i) (in_e i mod INPUT_BUF) c) (in_r i) (in_w i) (u32 (in_e i + 1)) in
  let i'' := Input (in_buf i') (in_r i') (in_e i') (in_e i') in
  committed i' = committed i ∧ pending i' = pending i ++ [c] ∧ (c ≠ 10 → input_ok i') ∧
  committed i'' = committed i ++ pending i ++ [c] ∧ pending i'' = [] ∧ input_ok i''.
Proof.
  intros [Hr Hw He Hs Hl] Hlt Hc i' i''. unfold INPUT_BUF in *.
  set (n := u32 (in_w i - in_r i)) in *. set (m := u32 (in_e i - in_w i)) in *.
  assert (Hn : 0 <= n) by apply u32_range. assert (Hm : 0 <= m) by apply u32_range.
  assert (Hnm : u32 (in_e i - in_r i) = n + m) by (unfold n, m, u32 in *; zlia).
  assert (Hm' : u32 (u32 (in_e i + 1) - in_w i) = m + 1) by (unfold n, m, u32 in *; zlia).
  assert (Hnm' : u32 (u32 (in_e i + 1) - in_r i) = n + (m + 1)) by (unfold n, m, u32 in *; zlia).
  assert (Hslot1 : in_e i mod 128 = (in_r i + (n + m)) mod 128) by (unfold n, m, u32 in *; zlia).
  assert (Hslot2 : in_e i mod 128 = (in_w i + m) mod 128) by (unfold n, m, u32 in *; zlia).
  assert (Hcom : committed i' = committed i).
  { unfold committed, i'. cbn [in_buf in_r in_w]. fold n. unfold INPUT_BUF. rewrite Hslot1. apply ring_store_out; [lia|done|lia|lia]. }
  assert (Hpen : pending i' = pending i ++ [c]).
  { unfold pending, i'. cbn [in_buf in_w in_e]. fold m. unfold INPUT_BUF. rewrite Hslot2, Hm'.
    rewrite ring_snoc by (done || lia). by rewrite u8_small. }
  assert (Hcom' : committed i'' = committed i' ++ pending i').
  { unfold committed, pending, i'', i'. cbn [in_buf in_r in_w in_e]. rewrite Hnm', Hm'. fold n.
    rewrite ring_app by lia. f_equal. rewrite <- (ring_u32 _ _ (in_w i)), <- (ring_u32 _ _ (in_r i + n)). f_equal.
    unfold n, u32. clear. zlia. }
  split_and!; try done.
  - intros Hne. split; cbn; [done|done|apply u32_range|fold n; rewrite Hm'; unfold INPUT_BUF; lia|].
    fold i'. rewrite Hpen. intros [H|H%list_elem_of_singleton]%elem_of_app; congruence.
  - by rewrite Hcom', Hcom, Hpen.
  - unfold pending, i''. cbn. by rewrite Z.sub_diag.
  - split; cbn; [done|apply u32_range|apply u32_range| |].
    + rewrite Hnm', Z.sub_diag. change (u32 0) with 0. unfold INPUT_BUF. lia.
    + unfold pending. cbn. rewrite Z.sub_diag. cbn. apply not_elem_of_nil.
Qed.

Lemma input_length i : input_ok i →
  u32 (in_e i - in_r i) = Z.of_nat (length (committed i) + length (pending i)).
Proof.
  intros [Hr Hw He Hs _]. unfold committed, pending. rewrite !ring_length. unfold INPUT_BUF, u32 in *. zlia.
Qed.

Lemma consoleintr_key_spec c s : screen_ok s → input_ok (inp s) → 0 <= c < 256 →
  ∃ s', consoleintr_key c s = Done (c =? Ctl 80) s' ∧ kept s s' ∧ input_ok (inp s') ∧
    typed (inp s') = edit (typed (inp s)) c.
Proof.
  intros Hsc Hok Hc. unfold consoleintr_key, typed, edit.
  destruct (c =? Ctl 80) eqn:E1; [exists s; by split_and!|].
  destruct (c =? Ctl 85) eqn:E2.
  { destruct (kill_line_spec (Z.to_nat INPUT_BUF) s Hsc Hok) as (s' & Hrun & Hk & Hok' & Hcom & Hpen).
    - unfold pending. rewrite ring_length. destruct Hok as [_ _ _ Hs _]. pose proof (u32_range (in_w (inp s) - in_r (inp s))). lia.
    - mcall Hrun. exists s'. rewrite Hcom, Hpen. by split_and!. }
  destruct (_ || (c =? 127)) eqn:E3.
  { mrun. destruct (Z.eqb_spec (in_e (inp s)) (in_w (inp s))) as [He|He]; cbn [negb]; mrun.
    - exists s. apply pending_nil in He; [|done]. rewrite He. by split_and!.
    - destruct (pending_drop _ Hok He) as [Hp Hok'].
      set (i' := Input _ _ _ _) in *. destruct (consputc_kept BACKSPACE s i' Hsc) as (s' & Hrun & Hk & Hi). mrun. mcall Hrun.
      exists s'. rewrite Hi. split_and!; try done. by rewrite Hp, removelast_last. }
  mrun. rewrite (input_length _ Hok). set (n := (length (committed (inp s)) + length (pending (inp s)))%nat).
  replace (Z.of_nat n <? INPUT_BUF) with (negb (Nat.leb 128 n)).
  2:{ unfold INPUT_BUF. destruct (Nat.leb_spec 128 n); symmetry; [apply Z.ltb_ge|apply Z.ltb_lt]; lia. }
  rewrite <- negb_orb. destruct ((c =? 0) || Nat.leb 128 n) eqn:E4; cbn [negb]; mrun; [exists s; by split_and!|].
  apply orb_false_iff in E4 as [E4 E5]. apply Nat.leb_gt in E5.
  set (c' := if c =? 13 then 10 else c). assert (Hc' : 0 <= c' < 256) by (unfold c'; destruct (c =? 13); lia).
  destruct (append_spec (inp s) c' Hok) as (Hcom & Hpen & Hok1 & Hcom' & Hpen' & Hok2); [|done|].
  { rewrite (input_length _ Hok). fold n. unfold INPUT_BUF. lia. }
  set (i' := Input (store8 _ _ _) _ _ _) in *. set (i'' := Input (in_buf i') _ _ _) in *.
  destruct (consputc_kept c' s i' Hsc) as (s1 & Hrun & Hk & Hi). mcall Hrun.
  replace (in_e i' =? u32 (in_r i' + INPUT_BUF)) with (Nat.eqb (n + 1) 128).
  2:{ pose proof (input_length _ Hok) as Hlen. destruct Hok as [Hr Hw He Hs _]. fold n in Hlen.
      unfold i'. cbn [in_e in_r]. unfold INPUT_BUF, u32 in *.
      destruct (Nat.eqb_spec (n + 1) 128); symmetry; [apply Z.eqb_eq|apply Z.eqb_neq]; zlia. }
  destruct (_ || Nat.eqb (n + 1) 128) eqn:E6; mrun.
  - unfold wakeup_input. mrun. eexists. split; [done|]. cbn [inp set_inp]. rewrite Hcom', Hpen'.
    split_and!; try done. destruct Hk as [? ? ? []]. split; try done.
  - exists s1. rewrite Hi, Hcom, Hpen. split_and!; try done. apply Hok1. intros Heq.
    rewrite Heq in E6. done.
Qed.

Lemma consoleintr_loop_spec keys d s : screen_ok s → input_ok (inp s) → Forall (λ c, 0 <= c < 256) keys →
  ∃ s', consoleintr_loop keys d s = Done (d || existsb (Z.eqb (Ctl 80)) keys) s' ∧ kept s s' ∧ input_ok (inp s') ∧
    typed (inp s') = fold_left edit keys (typed (inp s)).
Proof.
  revert d s. induction keys as [|c keys IH]; intros d s Hsc Hok Hks; cbn [consoleintr_loop existsb fold_left].
  - exists s. rewrite orb_false_r. by split_and!.
  - inversion Hks as [|? ? Hc Hks']; subst.
    destruct (consoleintr_key_spec c s Hsc Hok Hc) as (s1 & Hrun & Hk & Hok1 & Ht). mcall Hrun.
    destruct (IH (d || (c =? Ctl 80)) s1) as (s' & -> & Hk' & Hok' & Ht'); [apply Hk|done|done|].
    exists s'. rewrite Ht', Ht, (Z.eqb_sym c), orb_assoc. split_and!; try done. by eapply kept_trans.
Qed.

Lemma committed_cons i c l : input_ok i → committed i = c :: l →
  let i' := Input (in_buf i) (u32 (in_r i + 1)) (in_w i) (in_e i) in
  in_r i ≠ in_w i ∧ in_at i (in_r i) = c ∧ committed i' = l ∧ pending i' = pending i ∧ input_ok i'.
Proof.
  intros [Hr Hw He Hs Hl] Hcom i'. unfold committed in Hcom.
  assert (Hn : 0 < u32 (in_w i - in_r i)).
  { apply (f_equal length) in Hcom. rewrite ring_length in Hcom. cbn in Hcom. lia. }
  rewrite ring_cons in Hcom by done. injection Hcom as Hc Htl.
  assert (Hn' : u32 (in_w i - u32 (in_r i + 1)) = u32 (in_w i - in_r i) - 1) by (unfold u32 in *; zlia).
  split_and!.
  - intros Heq. rewrite Heq, Z.sub_diag in Hn. change (u32 0) with 0 in Hn. lia.
  - rewrite <- Hc. unfold in_at. by rewrite u32_small.
  - rewrite <- Htl. unfold committed, i'. cbn. by rewrite ring_u32, Hn'.
  - done.
  - split; cbn; try done; [apply u32_range|]. rewrite Hn'. lia.
Qed.

Section read_line.
Context (iunlock ilock : M cstate unit) (target : Z).

Lemma consoleread_loop_line k dst n s line rest :
  input_ok (inp s) → committed (inp s) = line ++ 10 :: rest → Forall (λ c, c ≠ 10 ∧ c ≠ Ctl 68 ∧ 0 <= c < 256) line →
  (length line < k)%nat → n = Z.of_nat k →
  ∃ s1, consoleread_loop ilock target k dst n s =
      (release cons_lock set_cons_lock ;;; ilock ;;; ret (RRet (target - (n - Z.of_nat (length line) - 1)))) s1 ∧
    cons_lock s1 = cons_lock s ∧ input_ok (inp s1) ∧ committed (inp s1) = rest ∧ pending (inp s1) = pending (inp s) ∧
    bytes_at (c_mem s1) dst (length line + 1) = line ++ [10] ∧
    (∀ x, x < dst → c_mem s1 x = c_mem s x).
Proof.
  revert k dst n s. induction line as [|c line IH]; intros k dst n s Hok Hcom Hline Hk Hn;
    destruct k as [|k]; cbn in Hk; try lia; cbn [consoleread_loop]; mrun.
  - destruct (committed_cons _ _ _ Hok Hcom) as (Hne & Hat & Hcom' & Hpen & Hok').
    apply Z.eqb_neq in Hne. rewrite Hne, Hat. change (10 =? Ctl 68) with false. mrun. change (10 =? 10) with true.
    cbv iota. eexists. split_and!; [by rewrite Z.sub_0_r|done..| |].
    + cbn. by rewrite Z.add_0_r, store8_eq.
    + intros x Hx. cbn. apply store8_ne. lia.
  - inversion Hline as [|? ? (Hc1 & Hc2 & Hc3) Hline']; subst.
    destruct (committed_cons _ _ _ Hok Hcom) as (Hne & Hat & Hcom' & Hpen & Hok').
    apply Z.eqb_neq in Hne, Hc1, Hc2. rewrite Hne, Hat, Hc2. mrun. rewrite Hc1. cbv iota.
    set (s2 := set_c_mem _ _).
    destruct (IH k (dst + 1) (Z.of_nat (S k) - 1) s2) as (s1 & -> & Hl1 & Hok1 & Hcom1 & Hpen1 & Hby & Hout); [done..|lia|lia|].
    exists s1. split_and!; try done.
    + replace (Z.of_nat (S k) - 1 - Z.of_nat (length line) - 1) with (Z.of_nat (S k) - Z.of_nat (length (c :: line)) - 1) by (cbn [length]; lia). done.
    + cbn [length Nat.add app]. unfold bytes_at in *. cbn [seq fmap list_fmap]. f_equal.
      * rewrite Z.add_0_r, Hout by lia. unfold s2. cbn. rewrite store8_eq. by apply u8_small.
      * rewrite <- Hby, <- fmap_S_seq, <- list_fmap_compose. apply list_fmap_ext. intros _ x _. cbn. f_equal. lia.
    + intros x Hx. rewrite Hout by lia. unfold s2. cbn. apply store8_ne. lia.
Qed.
End read_line.

(** C36 The line discipline refines a pair of lists.  Whatever is typed, the
    handler returns, and the committed input and the line being edited are what
    [edit] makes of the characters: backspace and kill-line affect only the
    current line, a line end or ^D (or a full buffer) commits it, and input
    beyond [INPUT_BUF] bytes is dropped.  A read for at least the length of the
    first committed line then returns exactly that line. *)
Theorem console_line_discipline keys s :
  screen_ok s → input_ok (inp s) → cons_lock s = false → Forall (λ c, 0 <= c < 256) keys →
  ∃ s', consoleintr keys s = Done (existsb (Z.eqb (Ctl 80)) keys) s' ∧
    screen_ok s' ∧ input_ok (inp s') ∧ cons_lock s' = false ∧
    (committed (inp s'), pending (inp s')) = fold_left edit keys (committed (inp s), pending (inp s)) ∧
    ∀ line rest dst n, committed (inp s') = line ++ 10 :: rest →
      Forall (λ c, c ≠ 10 ∧ c ≠ Ctl 68 ∧ 0 <= c < 256) line → Z.of_nat (length line) < n →
      ∃ s'', consoleread (ret tt) (ret tt) n dst s' = Done (RRet (Z.of_nat (length line) + 1)) s'' ∧
        bytes_at (c_mem s'') dst (length line + 1) = line ++ [10] ∧
        committed (inp s'') = rest ∧ pending (inp s'') = pending (inp s').
Proof.
  intros Hsc Hok Hl Hks. unfold consoleintr. mcall (acquire_run cons_lock set_cons_lock s Hl).
  destruct (consoleintr_loop_spec keys false (set_cons_lock true s)) as (s1 & Hrun & Hk & Hok1 & Ht);
    [destruct Hsc; by split|done|done|].
  mcall Hrun. mcall (release_run cons_lock set_cons_lock s1 (kp_lock _ _ Hk)).
  eexists. split; [done|]. split_and!; [destruct (kp_screen _ _ Hk); by split|done|done|done|].
  intros line rest dst n Hcom Hline Hn. unfold consoleread, consoleread_from. mrun.
  set (s2 := set_cons_lock false s1). mcall (acquire_run cons_lock set_cons_lock s2 eq_refl).
  destruct (consoleread_loop_line (ret tt) n (Z.to_nat n) dst n (set_cons_lock true s2) line rest)
    as (s3 & -> & Hl3 & Hok3 & Hcom3 & Hpen3 & Hby & _); [done..|lia|lia|].
  mcall (release_run cons_lock set_cons_lock s3 Hl3).
  exists (set_cons_lock false s3). split_and!; try done. do 2 f_equal. lia.
Qed.

(** A character never makes the screen driver panic: the cursor stays on the
    24 rows in use.  When the character fits, its cell is written and the cell
    under the new cursor is blank; at the end of the last row every row moves up
    one and the last one is cleared. *)
Theorem console_screen c s : screen_ok s →
  let pos := advance c (cursor s) in
  let cells := draw c (cursor s) (crt s) in
  ∃ s', cgaputc c s = Done tt s' ∧ screen_ok s' ∧
    cursor s' = (if pos <? 1920 then pos else 1840) ∧ 0 <= cursor s' < 1920 ∧
    ∀ x, 0 <= x < 1920 → crt s' x =
      if x =? cursor s' then Z.lor 32 0x0700
      else if pos <? 1920 then cells x else if x <? 1840 then cells (x + 80) else 0.
Proof.
  intros Hok pos cells. destruct (cgaputc_spec c s Hok) as (cells' & regs' & -> & Hok' & Hcur & ->).
  eexists. split_and!; [done|done|done|apply Hok'|apply Hok'|]. intros x Hx. rewrite Hcur. cbn [crt set_screen].
  fold pos cells. unfold upd. destruct (pos <? 1920); [done|]. destruct (x =? 1840) eqn:E; [done|].
  destruct (Z.ltb_spec x 1840).
  - ztest (1840 <=? x) is false. ztest (0 <=? x) is true. done.
  - ztest (1840 <=? x) is true. ztest (x <? 1920) is true. done.
Qed.

Definition demo_console : cstate :=
  CState false true false (λ _, 0x720) (λ _, 0) true 0x20 [] (Input (λ _, 0) 4294967295 4294967295 4294967295)
         false (λ _, 0) [].

Lemma demo_screen_ok : screen_ok demo_console.
Proof. split; vm_compute; done. Qed.

Lemma demo_input_ok : input_ok (inp demo_console).
Proof. split; [vm_compute; done..|]. apply not_elem_of_nil. Qed.

(** The line ab, typed with a correction, across the wrap of the counters. *)
Lemma console_line_discipline_witness :
  ∃ s', consoleintr [97; 120; 8; 98; 13] demo_console = Done false s' ∧
    committed (inp s') = [97; 98; 10] ∧ pending (inp s') = [].
Proof.
  destruct (console_line_discipline [97; 120; 8; 98; 13] demo_console demo_screen_ok demo_input_ok eq_refl)
    as (s' & Hrun & _ & _ & _ & Ht & _); [vmdec|].
  assert (fold_left edit [97; 120; 8; 98; 13] (committed (inp demo_console), pending (inp demo_console))
          = ([97; 98; 10], [])) as E by (vm_compute; reflexivity).
  rewrite E in Ht. exists s'. injection Ht as H1 H2. by split_and!.
Defined.

Lemma console_screen_witness : ∃ s', cgaputc 65 demo_console = Done tt s' ∧ cursor s' = 1.
Proof.
  destruct (console_screen 65 demo_console demo_screen_ok) as (s' & Hrun & _ & Hcur & _). by exists s'.
Defined.
