(* ===== verification/Kbd.v ===== *)
(** * The keyboard (kbd.c, kbd.h)

    [kbdgetc] turns scan codes into characters; its static variable [shift] is
    explicit state, and the status and data ports are arguments. *)

From Stdlib Require Import ZArith Lia.
From stdpp Require Import base numbers list.
From S2P Require Import Prelude Console.

Definition KBS_DIB : Z := 0x01.
Definition SHIFT : Z := Z.shiftl 1 0.
Definition CTL : Z := Z.shiftl 1 1.
Definition ALT : Z := Z.shiftl 1 2.
Definition CAPSLOCK : Z := Z.shiftl 1 3.
Definition NUMLOCK : Z := Z.shiftl 1 4.
Definition SCROLLLOCK : Z := Z.shiftl 1 5.
Definition E0ESC : Z := Z.shiftl 1 6.
Definition KEY_HOME : Z := 0xe0.
Definition KEY_END : Z := 0xe1.
Definition KEY_UP : Z := 0xe2.
Definition KEY_DN : Z := 0xe3.
Definition KEY_LF : Z := 0xe4.
Definition KEY_RT : Z := 0xe5.
Definition KEY_PGUP : Z := 0xe6.
Definition KEY_PGDN : Z := 0xe7.
Definition KEY_INS : Z := 0xe8.
Definition KEY_DEL : Z := 0xe9.

(** A 256-entry table of bytes of the source: its leading entries and those with
    a designator; the others are 0. *)
Definition lookup_table (first : list Z) (rest : list (Z * Z)) (i : Z) : Z :=
  match find (λ p, fst p =? i) rest with
  | Some p => u8 (snd p)
  | None => u8 (nth (Z.to_nat i) first 0)
  end.

Definition togglecode : Z → Z := lookup_table []
  [(0x3A, CAPSLOCK); (0x45, NUMLOCK); (0x46, SCROLLLOCK)].

Definition shiftcode : Z → Z := lookup_table []
  [(0x1D, CTL); (0x2A, SHIFT); (0x36, SHIFT); (0x38, ALT); (0x9D, CTL); (0xB8, ALT)].

Definition normalmap : Z → Z := lookup_table [
  0; 27; 49; 50; 51; 52; 53; 54;
  55; 56; 57; 48; 45; 61; 8; 9;
  113; 119; 101; 114; 116; 121; 117; 105;
  111; 112; 91; 93; 10; 0; 97; 115;
  100; 102; 103; 104; 106; 107; 108; 59;
  39; 96; 0; 92; 122; 120; 99; 118;
  98; 110; 109; 44; 46; 47; 0; 42;
  0; 32; 0; 0; 0; 0; 0; 0;
  0; 0; 0; 0; 0; 0; 0; 55;
  56; 57; 45; 52; 53; 54; 43; 49;
  50; 51; 48; 46; 0; 0; 0; 0]
  [(0x9C, 10); (0xB5, 47); (0xC8, KEY_UP); (0xD0, KEY_DN); (0xC9, KEY_PGUP); (0xD1, KEY_PGDN); (0xCB, KEY_LF); (0xCD, KEY_RT); (0x97, KEY_HOME); (0xCF, KEY_END); (0xD2, KEY_INS); (0xD3, KEY_DEL)].

Definition shiftmap : Z → Z := lookup_table [
  0; 27; 33; 64; 35; 36; 37; 94;
  38; 42; 40; 41; 95; 43; 8; 9;
  81; 87; 69; 82; 84; 89; 85; 73;
  79; 80; 123; 125; 10; 0; 65; 83;
  68; 70; 71; 72; 74; 75; 76; 58;
  34; 126; 0; 124; 90; 88; 67; 86;
  66; 78; 77; 60; 62; 63; 0; 42;
  0; 32; 0; 0; 0; 0; 0; 0;
  0; 0; 0; 0; 0; 0; 0; 55;
  56; 57; 45; 52; 53; 54; 43; 49;
  50; 51; 48; 46; 0; 0; 0; 0]
  [(0x9C, 10); (0xB5, 47); (0xC8, KEY_UP); (0xD0, KEY_DN); (0xC9, KEY_PGUP); (0xD1, KEY_PGDN); (0xCB, KEY_LF); (0xCD, KEY_RT); (0x97, KEY_HOME); (0xCF, KEY_END); (0xD2, KEY_INS); (0xD3, KEY_DEL)].

Definition ctlmap : Z → Z := lookup_table [
  0; 0; 0; 0; 0; 0; 0; 0;
  0; 0; 0; 0; 0; 0; 0; 0;
  Ctl 81; Ctl 87; Ctl 69; Ctl 82; Ctl 84; Ctl 89; Ctl 85; Ctl 73;
  Ctl 79; Ctl 80; 0; 0; 13; 0; Ctl 65; Ctl 83;
  Ctl 68; Ctl 70; Ctl 71; Ctl 72; Ctl 74; Ctl 75; Ctl 76; 0;
  0; 0; 0; Ctl 92; Ctl 90; Ctl 88; Ctl 67; Ctl 86;
  Ctl 66; Ctl 78; Ctl 77; 0; 0; Ctl 47; 0; 0]
  [(0x9C, 13); (0xB5, Ctl 47); (0xC8, KEY_UP); (0xD0, KEY_DN); (0xC9, KEY_PGUP); (0xD1, KEY_PGDN); (0xCB, KEY_LF); (0xCD, KEY_RT); (0x97, KEY_HOME); (0xCF, KEY_END); (0xD2, KEY_INS); (0xD3, KEY_DEL)].

Definition charcode (i : Z) : Z → Z :=
  if i =? 0 then normalmap else if i =? 1 then shiftmap else ctlmap.

(** [st] is the status port and [data] the data port; the result is the return
    value and the new [shift]. *)
Definition kbdgetc (st data shift : Z) : Z * Z :=
  if Z.land st KBS_DIB =? 0 then (-1, shift)
  else if data =? 0xE0 then (0, Z.lor shift E0ESC)
  else if negb (Z.land data 0x80 =? 0) then
    let data := if negb (Z.land shift E0ESC =? 0) then data else Z.land data 0x7F in
    (0, Z.land shift (Z.lnot (Z.lor (shiftcode data) E0ESC)))
  else
    let '(data, shift) :=
      if negb (Z.land shift E0ESC =? 0) then (Z.lor data 0x80, Z.land shift (Z.lnot E0ESC)) else (data, shift) in
    let shift := Z.lor shift (shiftcode data) in
    let shift := Z.lxor shift (togglecode data) in
    let c := charcode (Z.land shift (Z.lor CTL SHIFT)) data in
    if negb (Z.land shift CAPSLOCK =? 0) then
      if (97 <=? c) && (c <=? 122) then (c + (65 - 97), shift)
      else if (65 <=? c) && (c <=? 90) then (c + (97 - 65), shift)
      else (c, shift)
    else (c, shift).

(** The characters typed by a sequence of scan codes; 0 is no character. *)
Fixpoint kbd_run (shift : Z) (codes : list Z) : list Z * Z :=
  match codes with
  | [] => ([], shift)
  | d :: codes' =>
      let '(c, shift') := kbdgetc KBS_DIB d shift in
      let '(l, shift'') := kbd_run shift' codes' in
      (if c =? 0 then l else c :: l, shift'')
  end.

(** A property of all pairs in two ranges, by evaluation. *)
Lemma check_all (f : Z → Z → bool) n m :
  forallb (λ a, forallb (f a) (seqZ 0 m)) (seqZ 0 n) = true →
  ∀ a b, 0 <= a < n → 0 <= b < m → f a b = true.
Proof.
  intros H a b Ha Hb. rewrite forallb_forall in H. specialize (H a). rewrite forallb_forall in H.
  apply H; apply list_elem_of_In, elem_of_seqZ; lia.
Qed.

Definition has (flag shift : Z) : bool := negb (Z.land shift flag =? 0).

(** The letter typed with the modifiers in [shift]. *)
Definition letter (c shift : Z) : Z :=
  if has CTL shift then c - 96
  else if xorb (has SHIFT shift) (has CAPSLOCK shift) then c - 32 else c.

Definition in_range (lo x hi : Z) : bool := (lo <=? x) && (x <? hi).

Definition check_letter (d s : Z) : bool :=
  implb (in_range 97 (normalmap d) 123) (bool_decide (kbdgetc KBS_DIB d s = (letter (normalmap d) s, s))).
Definition check_modifier (d s : Z) : bool :=
  (shiftcode d =? 0) || bool_decide (kbd_run s [d; Z.lor d 0x80] = ([], Z.land s (Z.lnot (shiftcode d)))).

(** The keyboard driver stays within its tables and types: for every scan
    code and state the result is a byte and the state one of the 128 flag sets.
    Outside an escape sequence every letter key gives its letter in lower case,
    in upper case under exactly one of shift and caps lock, and its control
    code under control; and a modifier key that is pressed and released leaves
    the other flags as they were. *)
Theorem kbd_letters :
  (∀ data shift, 0 <= data < 256 → 0 <= shift < 128 →
    in_range 0 (fst (kbdgetc KBS_DIB data shift)) 256 = true ∧
    in_range 0 (snd (kbdgetc KBS_DIB data shift)) 128 = true) ∧
  (∀ data shift, 0 <= data < 128 → 0 <= shift < 64 → in_range 97 (normalmap data) 123 = true →
    kbdgetc KBS_DIB data shift = (letter (normalmap data) shift, shift)) ∧
  (∀ data shift, 0 <= data < 128 → 0 <= shift < 64 → shiftcode data ≠ 0 →
    kbd_run shift [data; Z.lor data 0x80] = ([], Z.land shift (Z.lnot (shiftcode data)))).
Proof.
  split_and!.
  - intros data shift Hd Hs. apply andb_true_iff.
    refine (check_all (λ d s, _) 256 128 _ data shift Hd Hs). vm_compute. reflexivity.
  - intros data shift Hd Hs Hl.
    assert (H : check_letter data shift = true)
      by (apply (check_all check_letter 128 64); [vm_compute; reflexivity|done..]).
    unfold check_letter in H. rewrite Hl in H. by apply bool_decide_eq_true in H.
  - intros data shift Hd Hs Hm.
    assert (H : check_modifier data shift = true)
      by (apply (check_all check_modifier 128 64); [vm_compute; reflexivity|done..]).
    unfold check_modifier in H. apply orb_true_iff in H as [H|H]; [by apply Z.eqb_eq in H|].
    by apply bool_decide_eq_true in H.
Qed.
