(* ===== verification/Mp.v ===== *)
(** * Finding the processors (mp.c)

    The BIOS leaves a floating pointer structure in low memory that leads to the
    MP configuration table.  [mpinit] reads both through the kernel's mapping and
    fills the table of CPUs; the memory does not change.  The ports of the
    interrupt mode register are the list of bytes written to them. *)

From Stdlib Require Import ZArith Lia String.
From stdpp Require Import base numbers list.
From S2P Require Import Prelude Mem Mmu.

Definition NCPU : nat := 8.

(** ** mp.h *)

(** [struct mp]: the fields the code reads, and its size. *)
Definition SIZE_MP : Z := 16.
Definition mp_physaddr (m : mem) (p : Z) : Z := load32 m (p + 4).
Definition mp_imcrp (m : mem) (p : Z) : Z := load8 m (p + 12).

Definition load_ushort (m : mem) (a : Z) : Z := m a + 256 * m (a + 1).

(** [struct mpconf]. *)
Definition SIZE_MPCONF : Z := 44.
Definition conf_length (m : mem) (p : Z) : Z := load_ushort m (p + 4).
Definition conf_version (m : mem) (p : Z) : Z := load8 m (p + 6).
Definition conf_lapicaddr (m : mem) (p : Z) : Z := load32 m (p + 36).

(** [struct mpproc] and [struct mpioapic]. *)
Definition SIZE_MPPROC : Z := 20.
Definition proc_apicid (m : mem) (p : Z) : Z := load8 m (p + 1).
Definition SIZE_MPIOAPIC : Z := 8.
Definition ioapic_apicno (m : mem) (p : Z) : Z := load8 m (p + 1).

Definition MPPROC : Z := 0.
Definition MPBUS : Z := 1.
Definition MPIOAPIC : Z := 2.
Definition MPIOINTR : Z := 3.
Definition MPLINTR : Z := 4.

(** ** The search *)

Fixpoint sum_loop (m : mem) (addr : Z) (n : nat) (i acc : Z) : Z :=
  match n with
  | O => acc
  | S n' => sum_loop m addr n' (i + 1) (s32 (acc + load8 m (u32 (addr + i))))
  end.
Definition sum (m : mem) (addr len : Z) : Z := u8 (sum_loop m addr (Z.to_nat len) 0 0).

(** [memcmp] with the four bytes of a string constant. *)
Definition signature (m : mem) (p : Z) (bs : list Z) : bool := bool_decide (bytes_at m p 4 = bs).
Definition SIG_MP : list Z := [95; 77; 80; 95].
Definition SIG_PCMP : list Z := [80; 67; 77; 80].

(** The loop of [mpsearch1]: [n] structures before [e]. *)
Fixpoint mpsearch1_loop (n : nat) (m : mem) (p e : Z) : Z :=
  match n with
  | O => 0
  | S n' =>
      if p <? e then
        if signature m p SIG_MP && (sum m p SIZE_MP =? 0) then p
        else mpsearch1_loop n' m (u32 (p + SIZE_MP)) e
      else 0
  end.
Definition mpsearch1 (m : mem) (a len : Z) : Z :=
  let addr := P2V a in
  mpsearch1_loop (Z.to_nat (len / SIZE_MP + 1)) m addr (u32 (addr + len)).

Definition mpsearch (m : mem) : Z :=
  let bda := P2V 0x400 in
  let p := Z.shiftl (Z.lor (Z.shiftl (load8 m (bda + 0x0F)) 8) (load8 m (bda + 0x0E))) 4 in
  let mp :=
    if negb (p =? 0) then mpsearch1 m p 1024
    else
      let p := Z.lor (Z.shiftl (load8 m (bda + 0x14)) 8) (load8 m (bda + 0x13)) * 1024 in
      mpsearch1 m (u32 (p - 1024)) 1024 in
  if negb (mp =? 0) then mp else mpsearch1 m 0xF0000 0x10000.

(** The table and the floating pointer that leads to it, or [None]. *)
Definition mpconfig (m : mem) : option (Z * Z) :=
  let mp := mpsearch m in
  if (mp =? 0) || (mp_physaddr m mp =? 0) then None
  else
    let conf := P2V (mp_physaddr m mp) in
    if negb (signature m conf SIG_PCMP) then None
    else if negb (conf_version m conf =? 1) && negb (conf_version m conf =? 4) then None
    else if negb (sum m conf (conf_length m conf) =? 0) then None
    else Some (conf, mp).

(** ** mpinit *)

(** [cpus] (the APIC ids), [ncpu], [ioapicid] and [lapic]; the ports written. *)
Record mpstate : Type := MPState {
  mp_cpus : list Z;
  mp_ncpu : nat;
  mp_ioapicid : Z;
  mp_lapic : Z;
  mp_ports : list (Z * Z)
}.

Definition add_cpu (id : Z) (s : mpstate) : mpstate :=
  if (mp_ncpu s <? NCPU)%nat
  then MPState (<[mp_ncpu s := id]> (mp_cpus s)) (S (mp_ncpu s)) (mp_ioapicid s) (mp_lapic s) (mp_ports s)
  else s.
Definition set_ioapicid v (s : mpstate) := MPState (mp_cpus s) (mp_ncpu s) v (mp_lapic s) (mp_ports s).
Definition set_lapic v (s : mpstate) := MPState (mp_cpus s) (mp_ncpu s) (mp_ioapicid s) v (mp_ports s).
Definition outb (port v : Z) (s : mpstate) := MPState (mp_cpus s) (mp_ncpu s) (mp_ioapicid s) (mp_lapic s) (mp_ports s ++ [(port, v)]).

(** The loop over the entries, with [ismp]; the [break] of the default case
    leaves the switch, not the loop. *)
Fixpoint mpinit_loop (fuel : nat) (m : mem) (p e : Z) (ismp : bool) : M mpstate bool :=
  match fuel with
  | O => nofuel
  | S fuel' =>
      if p <? e then
        let t := load8 m p in
        if t =? MPPROC then
          modify (add_cpu (proc_apicid m p)) ;;;
          mpinit_loop fuel' m (u32 (p + SIZE_MPPROC)) e ismp
        else if t =? MPIOAPIC then
          modify (set_ioapicid (ioapic_apicno m p)) ;;;
          mpinit_loop fuel' m (u32 (p + SIZE_MPIOAPIC)) e ismp
        else if (t =? MPBUS) || (t =? MPIOINTR) || (t =? MPLINTR) then
          mpinit_loop fuel' m (u32 (p + 8)) e ismp
        else mpinit_loop fuel' m p e false
      else ret ismp
  end.

(** [in23] is what the port 0x23 reads. *)
Definition mpinit (fuel : nat) (in23 : Z) (m : mem) : M mpstate unit :=
  match mpconfig m with
  | None => panic "Expect to run on an SMP"
  | Some (conf, mp) =>
      modify (set_lapic (conf_lapicaddr m conf)) ;;;
      ismp <- mpinit_loop fuel m (u32 (conf + SIZE_MPCONF)) (u32 (conf + conf_length m conf)) true ;;
      if negb ismp then panic "Didn't find a suitable machine"
      else if negb (mp_imcrp m mp =? 0) then
        modify (outb 0x22 0x70) ;;;
        modify (outb 0x23 (Z.lor in23 1))
      else ret tt
  end.

(** ** Facts *)

(** The checksum is the sum of the bytes. *)
Definition byte_sum (l : list Z) : Z := foldr Z.add 0 l.

Lemma sum_loop_eq m addr n : ∀ i acc,
  mem_ok m → 0 <= addr + i → addr + i + Z.of_nat n <= 4294967296 → 0 <= acc → acc + 255 * Z.of_nat n < 2147483648 →
  sum_loop m addr n i acc = acc + byte_sum (bytes_at m (addr + i) n).
Proof.
  induction n as [|n IH]; intros i acc Hm Ha He Hacc Hs; [cbn; lia|].
  cbn [sum_loop]. unfold load8. rewrite u32_small by lia. pose proof (Hm (addr + i)). rewrite s32_id by lia. rewrite IH by (try done; lia).
  unfold bytes_at. cbn [seq fmap list_fmap byte_sum foldr]. rewrite Z.add_0_r. rewrite <- fmap_S_seq, <- list_fmap_compose. unfold byte_sum.
  assert ((λ i0 : nat, m (addr + (i + 1) + Z.of_nat i0)) <$> seq 0 n = ((λ i0 : nat, m (addr + i + Z.of_nat i0)) ∘ S) <$> seq 0 n) as ->.
  { apply list_fmap_ext. intros j k _. cbn. f_equal. lia. }
  lia.
Qed.

Lemma sum_eq m addr len :
  mem_ok m → 0 <= addr → 0 <= len < 65536 → addr + len <= 4294967296 → sum m addr len = u8 (byte_sum (bytes_at m addr (Z.to_nat len))).
Proof. intros. unfold sum. rewrite sum_loop_eq by (try done; lia). by rewrite Z.add_0_r, Z.add_0_l. Qed.

(** What the search looks for. *)
Definition mp_valid (m : mem) (p : Z) : Prop := bytes_at m p 4 = SIG_MP ∧ u8 (byte_sum (bytes_at m p 16)) = 0.

Lemma mpsearch1_loop_first m n : ∀ p,
  mem_ok m → 0 < p → p + 16 * Z.of_nat n < 4294967296 →
  let r := mpsearch1_loop (S n) m p (p + 16 * Z.of_nat n) in
  (r = 0 ∧ ∀ k, 0 <= k < Z.of_nat n → ¬ mp_valid m (p + 16 * k)) ∨
  (∃ k, 0 <= k < Z.of_nat n ∧ r = p + 16 * k ∧ mp_valid m r ∧ ∀ j, 0 <= j < k → ¬ mp_valid m (p + 16 * j)).
Proof.
  cbn zeta. induction n as [|n IH]; intros p Hm Hp He.
  { left. cbn [mpsearch1_loop]. ztest (p <? p + 16 * Z.of_nat 0) is false. split; [done|]. intros; lia. }
  assert (Hv : signature m p SIG_MP && (sum m p SIZE_MP =? 0) = true ↔ mp_valid m p).
  { unfold signature, SIZE_MP, mp_valid. rewrite sum_eq by (try done; lia). change (Z.to_nat 16) with 16%nat.
    rewrite andb_true_iff, bool_decide_eq_true, Z.eqb_eq. done. }
  remember (S n) as N eqn:EN. cbn [mpsearch1_loop]. ztest (p <? p + 16 * Z.of_nat N) is true.
  destruct (signature m p SIG_MP && (sum m p SIZE_MP =? 0)) eqn:E.
  - right. exists 0. split; [lia|]. split; [lia|]. split; [by apply Hv|]. intros; lia.
  - assert (Hn : ¬ mp_valid m p) by (intros H; apply Hv in H; congruence). unfold SIZE_MP. rewrite u32_small by lia. subst N.
    replace (p + 16 * Z.of_nat (S n)) with (p + 16 + 16 * Z.of_nat n) by lia.
    destruct (IH (p + 16) Hm ltac:(lia) ltac:(lia)) as [[Hr Hall]|(k & Hk & Hr & Hvr & Hall)].
    + left. split; [done|]. intros k Hk. destruct (decide (k = 0)) as [->|]; [by rewrite Z.add_0_r|].
      replace (p + 16 * k) with (p + 16 + 16 * (k - 1)) by lia. apply Hall. lia.
    + right. exists (k + 1). split; [lia|]. split; [lia|]. split; [done|]. intros j Hj. destruct (decide (j = 0)) as [->|]; [by rewrite Z.add_0_r|].
      replace (p + 16 * j) with (p + 16 + 16 * (j - 1)) by lia. apply Hall. lia.
Qed.

(** [mpsearch1] finds the first structure of the area. *)
Lemma mpsearch1_first m a n :
  mem_ok m → 0 <= a → a + 16 * n < 2147483648 → 0 <= n →
  let r := mpsearch1 m a (16 * n) in
  (r = 0 ∧ ∀ k, 0 <= k < n → ¬ mp_valid m (P2V a + 16 * k)) ∨
  (∃ k, 0 <= k < n ∧ r = P2V a + 16 * k ∧ mp_valid m r ∧ ∀ j, 0 <= j < k → ¬ mp_valid m (P2V a + 16 * j)).
Proof.
  cbn zeta. intros Hm Ha He Hn. assert (HP : P2V a = a + 2147483648) by (rewrite P2V_eq; unfold KERNBASE; lia).
  unfold mpsearch1. rewrite HP, u32_small by lia. unfold SIZE_MP.
  replace (16 * n / 16 + 1) with (n + 1) by (rewrite Z.mul_comm, Z.div_mul by lia; done).
  replace (Z.to_nat (n + 1)) with (S (Z.to_nat n)) by lia.
  pose proof (mpsearch1_loop_first m (Z.to_nat n) (a + 2147483648) Hm ltac:(lia) ltac:(lia)) as H. by rewrite !Z2Nat.id in H by lia.
Qed.

(** ** The entries of a table *)

Inductive entry : Type :=
  | EProc (apicid : Z)
  | EIoapic (apicno : Z)
  | EOther (type : Z).

Definition entry_size (x : entry) : Z := match x with EProc _ => 20 | _ => 8 end.

Definition entry_at (m : mem) (p : Z) (x : entry) : Prop :=
  match x with
  | EProc id => m p = MPPROC ∧ m (p + 1) = id
  | EIoapic id => m p = MPIOAPIC ∧ m (p + 1) = id
  | EOther t => m p = t ∧ (t = MPBUS ∨ t = MPIOINTR ∨ t = MPLINTR)
  end.

(** The entries [es] fill the table from [p] to [e]. *)
Fixpoint entries_at (m : mem) (p : Z) (es : list entry) (e : Z) : Prop :=
  match es with
  | [] => p = e
  | x :: es' => entry_at m p x ∧ entries_at m (p + entry_size x) es' e
  end.

Definition add_entry (s : mpstate) (x : entry) : mpstate :=
  match x with EProc id => add_cpu id s | EIoapic id => set_ioapicid id s | EOther _ => s end.

Lemma entries_at_le m es : ∀ p e, entries_at m p es e → p + 8 * Z.of_nat (length es) <= e.
Proof.
  induction es as [|x es IH]; intros p e; cbn; [lia|]. intros [_ H]. apply IH in H. destruct x; cbn in *; lia.
Qed.

(** One round of the loop. *)
Lemma mpinit_loop_step m p x e fuel s :
  entry_at m p x → 0 <= p → p + entry_size x <= e → e < 4294967296 →
  mpinit_loop (S fuel) m p e true s = mpinit_loop fuel m (p + entry_size x) e true (add_entry s x).
Proof.
  intros Hx Hp Hpe He. assert (0 < entry_size x) by (by destruct x). cbn [mpinit_loop]. ztest (p <? e) is true.
  destruct x as [id|id|t]; cbn [entry_at entry_size add_entry] in *; unfold load8, proc_apicid, ioapic_apicno, load8, SIZE_MPPROC, SIZE_MPIOAPIC, MPPROC, MPIOAPIC, MPBUS, MPIOINTR, MPLINTR in *.
  - destruct Hx as [-> ->]. cbn [Z.eqb]. mrun. by rewrite u32_small by lia.
  - destruct Hx as [-> ->]. cbn [Z.eqb]. mrun. by rewrite u32_small by lia.
  - destruct Hx as [-> Ht]. destruct Ht as [->|[->| ->]]; cbn [Z.eqb Pos.eqb orb]; by rewrite u32_small by lia.
Qed.

(** The loop handles the entries and goes on behind them. *)
Lemma mpinit_loop_entries m es : ∀ p q e fuel s,
  entries_at m p es q → 0 <= p → q <= e → e < 4294967296 →
  mpinit_loop (length es + fuel) m p e true s = mpinit_loop fuel m q e true (foldl add_entry s es).
Proof.
  induction es as [|x es IH]; intros p q e fuel s; [intros ->; done|]. intros [Hx Hes] Hp Hq He.
  pose proof (entries_at_le _ _ _ _ Hes) as Hle. assert (0 < entry_size x) by (by destruct x).
  cbn [length Nat.add foldl]. rewrite (mpinit_loop_step m p x) by (done || lia). apply IH; (done || lia).
Qed.

(** An entry of no known type stops the loop from making progress. *)
Lemma mpinit_loop_stuck m p e fuel : ∀ ismp s, p < e → 4 < m p → mpinit_loop fuel m p e ismp s = NoFuel.
Proof.
  induction fuel as [|fuel IH]; intros ismp s Hp Hm; [done|]. cbn [mpinit_loop]. unfold load8, MPPROC, MPIOAPIC, MPBUS, MPIOINTR, MPLINTR.
  ztest (p <? e) is true. ztest (m p =? 0) is false. ztest (m p =? 2) is false. ztest (m p =? 1) is false. ztest (m p =? 3) is false.
  ztest (m p =? 4) is false. by apply IH.
Qed.

Lemma mpinit_loop_hangs m es : ∀ p q e fuel s,
  entries_at m p es q → 0 <= p → q < e → e < 4294967296 → 4 < m q → mpinit_loop fuel m p e true s = NoFuel.
Proof.
  induction es as [|x es IH]; intros p q e fuel s; [intros -> ????; by apply mpinit_loop_stuck|]. intros [Hx Hes] Hp Hq He Hm.
  pose proof (entries_at_le _ _ _ _ Hes) as Hle. assert (0 < entry_size x) by (by destruct x). destruct fuel as [|fuel]; [done|].
  rewrite (mpinit_loop_step m p x) by (done || lia). by eapply IH; try done; lia.
Qed.

(** The processors and the I/O APIC of a table. *)
Definition apicids (es : list entry) : list Z := omap (λ x, match x with EProc id => Some id | _ => None end) es.
Definition apicnos (es : list entry) : list Z := omap (λ x, match x with EIoapic id => Some id | _ => None end) es.

Lemma add_entries es : ∀ s,
  length (mp_cpus s) = NCPU → (mp_ncpu s <= NCPU)%nat →
  let s' := foldl add_entry s es in
  length (mp_cpus s') = NCPU ∧ mp_ncpu s' = (NCPU `min` (mp_ncpu s + length (apicids es)))%nat ∧
  take (mp_ncpu s') (mp_cpus s') = take NCPU (take (mp_ncpu s) (mp_cpus s) ++ apicids es) ∧
  mp_ioapicid s' = default (mp_ioapicid s) (last (apicnos es)) ∧ mp_lapic s' = mp_lapic s ∧ mp_ports s' = mp_ports s.
Proof.
  unfold NCPU. induction es as [|x es IH]; intros s Hl Hn; cbn zeta.
  { cbn [foldl apicids apicnos omap list_omap length last default]. rewrite app_nil_r, take_take. split_and!; try done; [lia|]. f_equal. lia. }
  assert (Hs : length (mp_cpus (add_entry s x)) = 8%nat ∧ (mp_ncpu (add_entry s x) <= 8)%nat).
  { destruct x; cbn [add_entry]; try done. unfold add_cpu, NCPU. case_match; cbn; [rewrite length_insert|]; split; try done. apply Nat.ltb_lt in H. lia. }
  destruct Hs as [Hs1 Hs2]. destruct (IH _ Hs1 Hs2) as (H1 & H2 & H3 & H4 & H5 & H6). clear IH. cbn [foldl]. rewrite H3, H2, H4, H5, H6.
  split; [done|]. destruct x as [id|id|t]; cbn [add_entry].
  - change (apicids (EProc id :: es)) with (id :: apicids es). change (apicnos (EProc id :: es)) with (apicnos es). unfold add_cpu, NCPU in *. destruct (Nat.ltb_spec (mp_ncpu s) 8) as [Hlt|Hge]; cbn [mp_ncpu mp_cpus mp_ioapicid mp_lapic mp_ports] in *.
    + split_and!; try done; [cbn [length]; lia|]. rewrite (take_S_r _ (mp_ncpu s) id) by (apply list_lookup_insert_eq; lia).
      rewrite take_insert_ge, <- app_assoc by lia. done.
    + split_and!; try done; [cbn [length]; lia|]. assert (mp_ncpu s = 8%nat) as -> by lia. rewrite !take_app_length' by (rewrite length_take; lia). done.
  - split_and!; try done. change (apicnos (EIoapic id :: es)) with (id :: apicnos es). rewrite last_cons. by destruct (last _).
  - by split_and!.
Qed.

(** ** Machines *)

(** The memory of a machine with a floating pointer at 0xF0000 and a table at 0x1000. *)
Definition bios (table : list Z) : mem := λ a,
  if (0x800F0000 <=? a) && (a <? 0x800F0010) then
    default 0 ([95; 77; 80; 95; 0; 16; 0; 0; 1; 4; 144; 0; 0; 0; 0; 0] !! Z.to_nat (a - 0x800F0000))
  else if (0x80001000 <=? a) && (a <? 0x80002000) then default 0 (table !! Z.to_nat (a - 0x80001000))
  else 0.

(** Two processors, a bus and an I/O APIC. *)
Definition table_two : list Z :=
  [80; 67; 77; 80; 100; 0; 4; 104; 65; 65; 65; 65; 65; 65; 65; 65; 65; 65; 65; 65; 65; 65; 65; 65; 65; 65; 65; 65; 0; 0; 0; 0; 0; 0; 4; 0; 0; 0; 224; 254; 0; 0; 0; 0; 0; 0; 20; 3; 0; 0; 0; 0; 0; 0; 0; 0; 0; 0; 0; 0; 0; 0; 0; 0; 0; 4; 20; 3; 0; 0; 0; 0; 0; 0; 0; 0; 0; 0; 0; 0; 0; 0; 0; 0; 1; 0; 0; 0; 0; 0; 0; 0; 2; 5; 17; 1; 0; 0; 192; 254].
(** A processor and an entry of type 9. *)
Definition table_nine : list Z :=
  [80; 67; 77; 80; 72; 0; 4; 110; 65; 65; 65; 65; 65; 65; 65; 65; 65; 65; 65; 65; 65; 65; 65; 65; 65; 65; 65; 65; 0; 0; 0; 0; 0; 0; 4; 0; 0; 0; 224; 254; 0; 0; 0; 0; 0; 0; 20; 3; 0; 0; 0; 0; 0; 0; 0; 0; 0; 0; 0; 0; 0; 0; 0; 0; 9; 0; 0; 0; 0; 0; 0; 0].
Definition mp0 : mpstate := MPState (replicate NCPU 0) 0 0 0 [].

(** ** Theorems *)

(** C33 On a machine with a well-formed table [mpinit] returns and has found its
    processors: [ncpu] is their number, at most NCPU, [cpus] holds their APIC ids
    in the order of the table, [ioapicid] is the id of its last I/O APIC and
    [lapic] the address the table gives. *)
Theorem mpinit_reads_table m conf mp es in23 s fuel :
  mpconfig m = Some (conf, mp) → entries_at m (conf + 44) es (conf + conf_length m conf) →
  0 <= conf → conf + conf_length m conf < 4294967296 → length (mp_cpus s) = NCPU → mp_ncpu s = O → (length es < fuel)%nat →
  ∃ s', mpinit fuel in23 m s = Done tt s' ∧ mp_ncpu s' = (NCPU `min` length (apicids es))%nat ∧
    take (mp_ncpu s') (mp_cpus s') = take NCPU (apicids es) ∧
    mp_ioapicid s' = default (mp_ioapicid s) (last (apicnos es)) ∧ mp_lapic s' = conf_lapicaddr m conf ∧
    mp_ports s' = mp_ports s ++ (if mp_imcrp m mp =? 0 then [] else [(0x22, 0x70); (0x23, Z.lor in23 1)]).
Proof.
  intros Hc Hes Hconf He Hl Hn Hf. unfold mpinit. rewrite Hc. mrun. pose proof (entries_at_le _ _ _ _ Hes).
  unfold SIZE_MPCONF. rewrite !u32_small by lia. replace fuel with (length es + S (fuel - length es - 1))%nat by lia.
  set (s0 := set_lapic _ s). assert (Hrun := mpinit_loop_entries m es _ _ _ (S (fuel - length es - 1)) s0 Hes ltac:(lia) (Z.le_refl _) He).
  cbn [mpinit_loop] in Hrun. rewrite Z.ltb_irrefl in Hrun. mcall Hrun.
  destruct (add_entries es s0) as (_ & H2 & H3 & H4 & H5 & H6); [done|unfold s0; cbn [set_lapic mp_ncpu]; lia|].
  assert (Hn0 : mp_ncpu s0 = O) by exact Hn. rewrite Hn0 in H2, H3. cbn [take app] in H2, H3. rewrite Nat.add_0_l in H2.
  destruct (mp_imcrp m mp =? 0); cbn; eexists; (split; [reflexivity|]); cbn [outb mp_ncpu mp_cpus mp_ioapicid mp_lapic mp_ports]; rewrite H3, H2, H4, H5, H6;
    cbn; rewrite ?app_nil_r, <- ?app_assoc; done.
Qed.

Lemma mpinit_reads_table_witness :
  ∃ s', mpinit 5 0 (bios table_two) mp0 = Done tt s' ∧ mp_ncpu s' = 2%nat ∧ take (mp_ncpu s') (mp_cpus s') = [0; 4] ∧ mp_ioapicid s' = 5.
Proof.
  destruct (mpinit_reads_table (bios table_two) 0x80001000 0x800F0000 [EProc 0; EProc 4; EOther 1; EIoapic 5] 0 mp0 5)
    as (s' & H1 & H2 & H3 & H4 & _); [vm_compute; reflexivity| |lia|vm_compute; reflexivity|reflexivity|reflexivity|cbn; lia|].
  - repeat split; try (vm_compute; reflexivity). left. reflexivity.
  - exists s'. split_and!; [exact H1|exact H2|exact H3|exact H4].
Defined.

(** C34 A table with an entry of an unknown type, behind any known ones, makes
    [mpinit] loop for ever: the [break] does not leave the loop, so that the panic
    meant for this case is not reached. *)
Theorem mpinit_unknown_hangs m conf mp es p in23 s :
  mpconfig m = Some (conf, mp) → entries_at m (conf + 44) es p → 4 < m p → p < conf + conf_length m conf →
  0 <= conf → conf + conf_length m conf < 4294967296 → ∀ fuel, mpinit fuel in23 m s = NoFuel.
Proof.
  intros Hc Hes Hm Hp Hconf He fuel. unfold mpinit. rewrite Hc. mrun. pose proof (entries_at_le _ _ _ _ Hes).
  unfold SIZE_MPCONF. rewrite !u32_small by lia. set (s0 := set_lapic _ s).
  assert (Hrun : mpinit_loop fuel m (conf + 44) (conf + conf_length m conf) true s0 = NoFuel); [|unfold bind; by rewrite Hrun].
  by eapply mpinit_loop_hangs; try done; lia.
Qed.

Lemma mpinit_unknown_hangs_witness : mpinit 1000 0 (bios table_nine) mp0 = NoFuel.
Proof.
  apply (mpinit_unknown_hangs (bios table_nine) 0x80001000 0x800F0000 [EProc 0] 0x80001040);
    [vm_compute; reflexivity| |vm_compute; reflexivity|vm_compute; reflexivity|lia|vm_compute; reflexivity].
  repeat split; vm_compute; reflexivity.
Defined.
