(* ===== verification/Utils.v ===== *)
(** * Text utilities: wc.c and cat.c

    Input arrives as the results of successive reads: non-empty chunks, then 0
    at the end of the file or a negative value. *)

From Stdlib Require Import ZArith Lia String.
From stdpp Require Import base numbers list strings.
From S2P Require Import Prelude Mem Printf.

(** The text read, and whether the last read failed. *)
Record reads : Type := Reads {
  chunks : list (list Z);
  failed : bool
}.

(** ** wc *)

Record wcstate : Type := Wc {
  wc_l : Z;
  wc_w : Z;
  wc_c : Z;
  inword : bool
}.

(** [strchr(" \r\t\n\v", c)] for a character of the text. *)
Definition is_space (c : Z) : bool := existsb (Z.eqb c) [32; 13; 9; 10; 11].

Definition wc_char (st : wcstate) (b : Z) : wcstate :=
  let c := s32 (wc_c st + 1) in
  let l := if b =? 10 then s32 (wc_l st + 1) else wc_l st in
  if is_space b then Wc l (wc_w st) c false
  else if negb (inword st) then Wc l (s32 (wc_w st + 1)) c true
  else Wc l (wc_w st) c (inword st).

Definition wc_buf (st : wcstate) (buf : list Z) : wcstate := fold_left wc_char buf st.
Definition wc_loop (l : list (list Z)) : wcstate := fold_left wc_buf l (Wc 0 0 0 false).

(** What [wc] prints; [name] is the address of the file's name. *)
Definition wc (fuel : nat) (m : mem) (r : reads) (name : Z) : option (list Z) :=
  let st := wc_loop (chunks r) in
  if failed r then printf fuel m (λ _, 0) (codes "wc: read error" ++ [10])
  else
    printf fuel m (λ i, nth i [u32 (wc_l st); u32 (wc_w st); u32 (wc_c st); name] 0)
      (codes "%d %d %d %s" ++ [10]).

(** ** cat *)

(** [written] are the results of the calls of [write], one per chunk; the result
    is what reaches the output and whether the program exits early. *)
Fixpoint cat_loop (l : list (list Z)) (written : nat → Z) : list Z * bool :=
  match l with
  | [] => ([], false)
  | buf :: l' =>
      if negb (written O =? Z.of_nat (length buf)) then
        (take (Z.to_nat (written O)) buf ++ codes "cat: write error" ++ [10], true)
      else
        let '(out, stop) := cat_loop l' (λ i, written (S i)) in
        (buf ++ out, stop)
  end.

Definition cat (r : reads) (written : nat → Z) : list Z * bool :=
  let '(out, stop) := cat_loop (chunks r) written in
  if stop then (out, true)
  else if failed r then (out ++ codes "cat: read error" ++ [10], true)
  else (out, false).

(** ** What [wc] counts *)

(** The text cut at its white space. *)
Fixpoint fields (l : list Z) : list (list Z) :=
  match l with
  | [] => [[]]
  | c :: l' =>
      if is_space c then [] :: fields l'
      else match fields l' with
           | [] => [[c]]
           | f :: fs => (c :: f) :: fs
           end
  end.

Definition nonempty (f : list Z) : bool := match f with [] => false | _ => true end.
Definition words (l : list Z) : nat := length (List.filter nonempty (fields l)).
Definition newlines (l : list Z) : nat := length (List.filter (Z.eqb 10) l).

Lemma fields_cons l : ∃ f fs, fields l = f :: fs.
Proof.
  induction l as [|c l (f & fs & IH)]; cbn [fields]; [eauto|]. rewrite IH.
  destruct (is_space c); eauto.
Qed.

(** Whether the text starts inside a word. *)
Definition starts_word (l : list Z) : bool := match l with c :: _ => negb (is_space c) | [] => false end.

Lemma words_cons c l : words (c :: l) =
  if is_space c then words l else (if starts_word l then words l else S (words l)).
Proof.
  unfold words. cbn [fields]. destruct (is_space c) eqn:E; [done|].
  destruct l as [|d l]; [done|]. cbn [starts_word fields].
  destruct (is_space d); [done|]. destruct (fields_cons l) as (f & fs & ->). done.
Qed.

Lemma wc_buf_spec l st : 0 <= wc_c st → 0 <= wc_l st <= wc_c st → 0 <= wc_w st <= wc_c st →
  wc_c st + Z.of_nat (length l) < 2147483648 →
  let st' := wc_buf st l in
  wc_c st' = wc_c st + Z.of_nat (length l) ∧
  wc_l st' = wc_l st + Z.of_nat (newlines l) ∧
  wc_w st' = wc_w st + Z.of_nat (words l) - (if inword st && starts_word l then 1 else 0).
Proof.
  revert st. induction l as [|b l IH]; intros st Hc Hl Hw Hb; cbn [length] in Hb.
  - unfold wc_buf. cbn. rewrite andb_false_r. lia.
  - change (wc_buf st (b :: l)) with (wc_buf (wc_char st b) l). cbv zeta. rewrite words_cons.
    unfold newlines. cbn [List.filter starts_word length]. rewrite (Z.eqb_sym 10 b).
    assert (Hs : ∀ n, 0 <= n <= wc_c st → s32 (n + 1) = n + 1) by (intros n Hn; apply s32_id; lia).
    destruct (IH (wc_char st b)) as (IHc & IHl & IHw);
      unfold wc_char in *; rewrite ?Hs in * by lia;
      destruct (b =? 10) eqn:E1, (is_space b) eqn:E2, (inword st) eqn:E3; cbn [wc_c wc_l wc_w inword negb andb] in *;
      try lia; rewrite IHc, IHl, IHw; unfold newlines; cbn [length]; destruct (starts_word l); lia.
Qed.

Lemma wc_loop_concat l : wc_loop l = wc_buf (Wc 0 0 0 false) (concat l).
Proof.
  unfold wc_loop. generalize (Wc 0 0 0 false). induction l as [|b l IH]; intros st; [done|].
  cbn [fold_left concat]. rewrite IH. unfold wc_buf. by rewrite fold_left_app.
Qed.

(** [wc] counts the line ends, the maximal runs of non-white characters and
    the bytes of its input, however the input is cut into reads, and prints the
    three numbers (for inputs below 2 GB). *)
Theorem wc_counts fuel m r name :
  let text := concat (chunks r) in
  failed r = false → Z.of_nat (length text) < 2147483648 →
  wc fuel m r name =
    printf fuel m (λ i, nth i [Z.of_nat (newlines text); Z.of_nat (words text); Z.of_nat (length text); name] 0)
      (codes "%d %d %d %s" ++ [10]).
Proof.
  intros text Hf Hl. unfold wc. rewrite Hf, wc_loop_concat. fold text.
  destruct (wc_buf_spec text (Wc 0 0 0 false)) as (Hc & Hn & Hw); cbn [wc_l wc_w wc_c inword andb] in *; [lia..|].
  assert (Hnl : (newlines text <= length text)%nat) by apply List.filter_length_le.
  assert (Hwd : (words text <= length text)%nat).
  { clear. induction text as [|c l IH]; [done|]. rewrite words_cons. cbn [length]. repeat case_match; lia. }
  rewrite Hc, Hn, Hw, !u32_small by lia. do 2 f_equal. by rewrite !Z.add_0_l, Z.sub_0_r.
Qed.

Lemma wc_counts_witness :
  wc 9 (λ _, 0) (Reads [codes "a bc"; codes "d" ++ [10]] false) 1000 = Some (codes "1 2 6 " ++ [10]).
Proof.
  rewrite (wc_counts 9 (λ _, 0) (Reads [codes "a bc"; codes "d" ++ [10]] false) 1000 eq_refl ltac:(vm_compute; done)).
  vm_compute. reflexivity.
Defined.
