(* ===== verification/Umalloc.v ===== *)
(** * The user memory allocator (umalloc.c)

    [malloc] and [free] of the C library: free blocks form a circular list in
    the order of their addresses, through headers of 8 bytes (the union [Header]:
    the next free block and the size in units of a header) in front of each
    block.  The static header [base] is in the memory of the process, the static
    variable [freep] is a field.  The system call sbrk and the size of the
    process are the class [SbrkOps]; an access beyond the last page of the
    process traps. *)

From Stdlib Require Import ZArith Lia.
From stdpp Require Import base numbers list.
From S2P Require Import Prelude Mem Mmu.

Class SbrkOps (S : Type) : Type := {
  usize : S → Z;
  sbrk : Z → mem → S → Z * mem * S
}.

Record uheap {S : Type} : Type := UHeap {
  u_mem : mem;
  u_freep : Z;
  u_sys : S
}.
#[global] Arguments uheap S : clear implicits.
#[global] Arguments UHeap {S}.

(** The fields of [union header], by their addresses, and its size. *)
Definition h_ptr (p : Z) : Z := p.
Definition h_size (p : Z) : Z := p + 4.
Definition HEADER : Z := 8.

Section umalloc.
Context {S : Type} `{!SbrkOps S}.
Implicit Types s : uheap S.

Definition set_u_mem v s := UHeap v (u_freep s) (u_sys s).
Definition set_freep v s := UHeap (u_mem s) v (u_sys s).

Definition mapped (s : uheap S) (a : Z) : bool := a + 4 <=? PGROUNDUP (usize (u_sys s)).
Definition uld (a : Z) : M (uheap S) Z := λ s,
  if mapped s a then Done (load32 (u_mem s) a) s else Fault.
Definition ust (a v : Z) : M (uheap S) unit := λ s,
  if mapped s a then Done tt (set_u_mem (store32 (u_mem s) a v) s) else Fault.

Definition call_sbrk (n : Z) : M (uheap S) Z := λ s,
  let '(r, m, o) := sbrk n (u_mem s) (u_sys s) in Done r (UHeap m (u_freep s) o).

(** [p + n] on pointers to headers. *)
Definition hadd (p n : Z) : Z := u32 (p + HEADER * n).

(** The conditions of the loop of [free]: [bp] belongs between [p] and [next]. *)
Definition between (bp p next : Z) : bool :=
  ((bp >? p) && (bp <? next)) || ((p >=? next) && ((bp >? p) || (bp <? next))).

Fixpoint find_prev (fuel : nat) (bp p : Z) : M (uheap S) Z :=
  match fuel with
  | O => nofuel
  | Datatypes.S fuel' =>
      next <- uld (h_ptr p) ;;
      if between bp p next then ret p else find_prev fuel' bp next
  end.

(** Join [bp] to the upper neighbour, or link it. *)
Definition join_upper (bp p : Z) : M (uheap S) unit :=
  size <- uld (h_size bp) ;;
  next <- uld (h_ptr p) ;;
  if hadd bp size =? next then
    nsize <- uld (h_size next) ;;
    ust (h_size bp) (u32 (size + nsize)) ;;;
    nnext <- uld (h_ptr next) ;;
    ust (h_ptr bp) nnext
  else ust (h_ptr bp) next.

(** Join [bp] to the lower neighbour [p], or link it. *)
Definition join_lower (bp p : Z) : M (uheap S) unit :=
  size <- uld (h_size p) ;;
  if hadd p size =? bp then
    bsize <- uld (h_size bp) ;;
    ust (h_size p) (u32 (size + bsize)) ;;;
    bptr <- uld (h_ptr bp) ;;
    ust (h_ptr p) bptr
  else ust (h_ptr p) bp.

Definition free (fuel : nat) (ap : Z) : M (uheap S) unit :=
  let bp := u32 (ap - HEADER) in
  freep <- gets u_freep ;;
  p <- find_prev fuel bp freep ;;
  join_upper bp p ;;;
  join_lower bp p ;;;
  modify (set_freep p).

Definition morecore (fuel : nat) (nu : Z) : M (uheap S) Z :=
  let nu := if nu <? 4096 then 4096 else nu in
  p <- call_sbrk (s32 (u32 (nu * HEADER))) ;;
  if p =? 0xFFFFFFFF then ret 0
  else
    ust (h_size p) nu ;;;
    free fuel (hadd p 1) ;;;
    gets u_freep.

(** The block [p] is big enough: take all of it, or its end. *)
Definition take_block (nunits prevp p size : Z) : M (uheap S) Z :=
  q <- (if size =? nunits then
          next <- uld (h_ptr p) ;;
          ust (h_ptr prevp) next ;;;
          ret p
        else
          ust (h_size p) (u32 (size - nunits)) ;;;
          let q := hadd p (u32 (size - nunits)) in
          ust (h_size q) nunits ;;;
          ret q) ;;
  modify (set_freep prevp) ;;;
  ret (hadd q 1).

Fixpoint search (fuel : nat) (nunits prevp p : Z) : M (uheap S) Z :=
  match fuel with
  | O => nofuel
  | Datatypes.S fuel' =>
      size <- uld (h_size p) ;;
      if size >=? nunits then take_block nunits prevp p size
      else
        freep <- gets u_freep ;;
        if p =? freep then
          p <- morecore fuel' nunits ;;
          if p =? 0 then ret 0
          else next <- uld (h_ptr p) ;; search fuel' nunits p next
        else next <- uld (h_ptr p) ;; search fuel' nunits p next
  end.

Definition units (nbytes : Z) : Z := u32 (u32 (nbytes + HEADER - 1) / HEADER + 1).

(** [base] is the address of the static variable. *)
Definition malloc (base : Z) (fuel : nat) (nbytes : Z) : M (uheap S) Z :=
  let nunits := units nbytes in
  freep <- gets u_freep ;;
  (if freep =? 0 then
     ust (h_ptr base) base ;;;
     modify (set_freep base) ;;;
     ust (h_size base) 0
   else ret tt) ;;;
  prevp <- gets u_freep ;;
  p <- uld (h_ptr prevp) ;;
  search fuel nunits prevp p.
End umalloc.
