(* ===== verification/UmallocFacts.v ===== *)
(** * The free list of the user allocator

    The blocks as lists of address and size in units, the list in memory, and
    what [find_prev], [join_upper], [join_lower] and [take_block] do to it. *)

From Stdlib Require Import ZArith Lia.
From stdpp Require Import base numbers list sets.
From S2P Require Import Prelude Mem Mmu Umalloc.

(** ** Blocks *)

Definition stop (b : Z * Z) : Z := b.1 + 8 * b.2.
Definition off (b c : Z * Z) : Prop := stop b <= c.1 ∨ stop c <= b.1.
#[export] Instance off_symmetric : Symmetric off.
Proof. unfold off. intros b c. tauto. Qed.

Lemma pairwise_elem {A : Type} (R : A → A → Prop) `{!Symmetric R} l x y : pairwise R l → x ∈ l → y ∈ l → x ≠ y → R x y.
Proof.
  induction l as [|z l IH]; [set_solver|]. cbn. rewrite Forall_forall.
  intros [Hz Hl] [->|Hx]%elem_of_cons [->|Hy]%elem_of_cons Hne; [done|by apply Hz|symmetry; by apply Hz|by apply IH].
Qed.

Definition inside (lo hi : Z) (b : Z * Z) : Prop := lo <= b.1 ∧ 1 <= b.2 ∧ stop b <= hi.

(** Disjoint blocks between [lo] and [hi]. *)
Definition tiles (lo hi : Z) (l : list (Z * Z)) : Prop := Forall (inside lo hi) l ∧ pairwise off l.

#[export] Instance tiles_proper lo hi : Proper ((≡ₚ) ==> iff) (tiles lo hi).
Proof. intros l l' Hl. unfold tiles. by rewrite Hl. Qed.

Lemma tiles_cons lo hi b l :
  tiles lo hi (b :: l) ↔ inside lo hi b ∧ Forall (off b) l ∧ tiles lo hi l.
Proof. unfold tiles. rewrite Forall_cons. cbn. tauto. Qed.

Lemma tiles_grow lo hi hi' l : tiles lo hi l → hi <= hi' → tiles lo hi' l.
Proof. intros [H1 H2] Hh. split; [|done]. eapply Forall_impl; [exact H1|]. unfold inside. intros; lia. Qed.

(** Two neighbours make one block; a block is cut in two. *)
Lemma tiles_join lo hi a n k l :
  tiles lo hi ((a, n) :: (a + 8 * n, k) :: l) → tiles lo hi ((a, n + k) :: l).
Proof.
  rewrite !tiles_cons, Forall_cons. unfold inside, stop. cbn. intros (Ha & (_ & H1) & Hk & H2 & H3).
  split_and!; [lia|lia|lia| |done]. destruct H3 as [H3 _]. rewrite Forall_forall in H1, H2, H3 |- *. intros c Hc.
  specialize (H1 c Hc). specialize (H2 c Hc). specialize (H3 c Hc). unfold off, inside, stop in *. cbn in *. lia.
Qed.

Lemma tiles_cut lo hi a n k l :
  tiles lo hi ((a, n) :: l) → 1 <= k < n → tiles lo hi ((a, n - k) :: (a + 8 * (n - k), k) :: l).
Proof.
  rewrite !tiles_cons, Forall_cons. unfold inside, stop. cbn. intros (Ha & H1 & H3) Hk.
  split_and!; try lia; try done; [unfold off, stop; cbn; lia|..].
  all: eapply Forall_impl; [exact H1|]; unfold off, stop; cbn; intros; lia.
Qed.

(** A free list: ascending from [lo], without neighbours. *)
Fixpoint gapped (lo : Z) (l : list (Z * Z)) : Prop :=
  match l with [] => True | b :: l' => lo <= b.1 ∧ 1 <= b.2 ∧ gapped (stop b + 1) l' end.

(** Where the next block may start. *)
Fixpoint reach (lo : Z) (l : list (Z * Z)) : Z := match l with [] => lo | b :: l' => reach (stop b + 1) l' end.

Lemma reach_app lo l1 l2 : reach lo (l1 ++ l2) = reach (reach lo l1) l2.
Proof. revert lo. induction l1 as [|b l1 IH]; intros lo; cbn; [done|apply IH]. Qed.

Lemma gapped_app lo l1 l2 : gapped lo (l1 ++ l2) ↔ gapped lo l1 ∧ gapped (reach lo l1) l2.
Proof. revert lo. induction l1 as [|b l1 IH]; intros lo; cbn; [tauto|]. rewrite IH. tauto. Qed.

Lemma gapped_mono lo lo' l : lo' <= lo → gapped lo l → gapped lo' l.
Proof. destruct l; cbn; [done|]. intros ? (? & ?). split; [lia|done]. Qed.

Lemma gapped_above lo l : gapped lo l → Forall (λ b, lo <= b.1 ∧ 1 <= b.2) l ∧ lo <= reach lo l.
Proof.
  revert lo. induction l as [|b l IH]; intros lo; cbn; [split; [constructor|lia]|].
  intros (H1 & H2 & H3). destruct (IH _ H3) as [H4 H5]. unfold stop in *. split; [|lia].
  constructor; [done|]. eapply Forall_impl; [exact H4|]. cbn. intros; lia.
Qed.

Lemma gapped_below lo l : gapped lo l → Forall (λ b, stop b + 1 <= reach lo l) l.
Proof.
  revert lo. induction l as [|b l IH]; intros lo; cbn; [constructor|].
  intros (H1 & H2 & H3). constructor; [|by apply IH]. by apply gapped_above in H3 as [_ ?].
Qed.

(** ** The list in memory *)

Definition first (l : list (Z * Z)) (e : Z) : Z := match l with [] => e | b :: _ => b.1 end.

(** The headers of [l], the last one pointing to [e]. *)
Fixpoint links (m : mem) (l : list (Z * Z)) (e : Z) : Prop :=
  match l with
  | [] => True
  | b :: l' => load32 m (h_ptr b.1) = first l' e ∧
               load32 m (h_size b.1) = b.2 ∧ links m l' e
  end.

Lemma links_app m l1 l2 e : links m (l1 ++ l2) e ↔ links m l1 (first l2 e) ∧ links m l2 e.
Proof.
  induction l1 as [|b l1 IH]; cbn; [tauto|]. rewrite IH.
  assert (first (l1 ++ l2) e = first l1 (first l2 e)) as -> by (by destruct l1). tauto.
Qed.

Lemma links_cons m b l e : links m (b :: l) e ↔ load32 m (h_ptr b.1) = first l e ∧ load32 m (h_size b.1) = b.2 ∧ links m l e.
Proof. done. Qed.

Lemma links_frame m m' l e :
  (∀ b x, b ∈ l → b.1 <= x < b.1 + 8 → m' x = m x) → links m l e → links m' l e.
Proof.
  intros Hf. induction l as [|b l IH]; [done|]. rewrite !links_cons. intros (H1 & H2 & H3).
  assert (Hb : ∀ x, b.1 <= x < b.1 + 8 → m' x = m x) by (intros; apply (Hf b); [by left|done]).
  split_and!; [| |apply IH; [|done]; intros c x Hc; apply Hf; by right].
  - rewrite <- H1. apply load32_ext. unfold h_ptr. intros; apply Hb; lia.
  - rewrite <- H2. apply load32_ext. unfold h_size. intros; apply Hb; lia.
Qed.

(** The same ring from another node. *)
Lemma links_rotate m l1 l2 e :
  links m (l1 ++ l2) (first (l1 ++ l2) e) → links m (l2 ++ l1) (first (l2 ++ l1) e).
Proof.
  destruct l1 as [|b l1]; [by rewrite app_nil_r|]. destruct l2 as [|c l2]; [by rewrite app_nil_r|].
  rewrite !links_app. cbn [first app]. tauto.
Qed.

(** A node and its size and successor. *)
Lemma links_elem m l e b : links m l e → b ∈ l → load32 m (h_size b.1) = b.2 ∧ load32 m (h_ptr b.1) ∈ e :: l.*1.
Proof.
  induction l as [|c l IH]; [set_solver|]. rewrite links_cons. intros (H1 & H2 & H3) [->|Hb]%elem_of_cons.
  - split; [done|]. rewrite H1. destruct l; cbn; set_solver.
  - destruct (IH H3 Hb) as [-> Hp]. split; [done|]. cbn. set_solver.
Qed.

(** Ascending addresses, a header apart. *)
Definition asc (l : list (Z * Z)) : Prop := pairwise (λ b c, b.1 + 8 <= c.1) l.

Lemma gapped_asc lo l : gapped lo l → asc l.
Proof.
  revert lo. induction l as [|b l IH]; intros lo; [done|]. intros (H1 & H2 & H3). split; [|by eapply IH].
  apply gapped_above in H3 as [H3 _]. eapply Forall_impl; [exact H3|]. unfold stop. cbn. intros; lia.
Qed.

Lemma ring_asc base lo l : base + 8 <= lo → gapped lo l → asc ((base, 0) :: l).
Proof. intros Hlo H. split; [|by eapply gapped_asc]. apply gapped_above in H as [H _]. eapply Forall_impl; [exact H|]. cbn. intros; lia. Qed.

(** Among the nodes of an ascending ring exactly the last one below [bp] passes. *)
Lemma between_at m g p k f2 e bp :
  let L := g ++ (p, k) :: f2 in
  links m L e → asc L → Forall (λ b, e <= b.1 ∧ e < bp) L → Forall (λ b, b.1 < bp) (g ++ [(p, k)]) → Forall (λ b, bp < b.1) f2 →
  Forall (λ b, between bp b.1 (load32 m (h_ptr b.1)) = (b.1 =? p)) L.
Proof.
  cbn zeta. intros Hl Ha He Hb Hf. apply Forall_app in Hb as [Hg Hp]. rewrite Forall_singleton in Hp. cbn in Hp.
  pose proof Hl as [Hl1 Hl2]%links_app. pose proof Ha as (_ & Ha2 & Ha3)%pairwise_app. rewrite Forall_forall in Ha3, Hg, Hf, He.
  apply Forall_app; split; [|constructor]; [| |apply links_cons in Hl2 as (_ & _ & Hl2); destruct Ha2 as [Ha2 Ha4]];
    [apply Forall_forall; intros b Hb| |apply Forall_forall; intros b Hb].
  - assert (Hgp : ∀ c, c ∈ g → c.1 < p) by (intros c Hc; specialize (Ha3 c Hc); apply Forall_cons in Ha3 as [? _]; cbn in *; lia).
    pose proof (Hgp b Hb). specialize (Hg b Hb).
    assert (load32 m (h_ptr b.1) <= p ∧ b.1 < load32 m (h_ptr b.1)) as [H1 H2].
    { apply list_elem_of_split in Hb as (g1 & g2 & ->). rewrite <- app_assoc in Hl, Ha. apply links_app in Hl as [_ Hl].
      cbn [app] in Hl. apply links_cons in Hl as (-> & _). apply pairwise_app in Ha as (_ & [Ha _] & _).
      destruct g2 as [|c g2]; cbn [first app] in *; [cbn; lia|]. inversion Ha; subst. split; [|lia].
      specialize (Hgp c ltac:(set_solver)). lia. }
    unfold between. ztest (b.1 =? p) is false. ztest (bp >? b.1) is true. ztest (bp <? load32 m (h_ptr b.1)) is false.
    by ztest (b.1 >=? load32 m (h_ptr b.1)) is false.
  - apply links_cons in Hl2 as (-> & _). cbn [fst]. rewrite Z.eqb_refl. unfold between. ztest (bp >? p) is true.
    destruct f2 as [|c f2]; cbn [first].
    + destruct (He (p, k)) as [? _]; [set_solver|]. cbn in *. ztest (p >=? e) is true. by rewrite orb_true_r.
    + specialize (Hf c ltac:(by left)). by ztest (bp <? c.1) is true.
  - specialize (Hf b Hb). destruct (He b) as [He1 He2]; [set_solver|]. unfold between. ztest (b.1 =? p) is false. ztest (bp >? b.1) is false.
    apply list_elem_of_split in Hb as (g1 & g2 & ->). apply links_app in Hl2 as [_ Hl2]. apply links_cons in Hl2 as (-> & _).
    apply pairwise_app in Ha4 as (_ & [Ha4 _] & _). destruct g2 as [|c g2]; cbn [first].
    + ztest (bp <? e) is false. by destruct (b.1 >=? e).
    + apply Forall_cons in Ha4 as [Ha4 _]. by ztest (b.1 >=? c.1) is false.
Qed.

Section facts.
Context {S : Type} `{!SbrkOps S}.
Implicit Types s : uheap S.

Lemma uld_run s a : a + 4 <= PGROUNDUP (usize (u_sys s)) → uld a s = Done (load32 (u_mem s) a) s.
Proof. intros H. unfold uld, mapped. by rewrite (proj2 (Z.leb_le _ _) H). Qed.

Lemma ust_run s a v :
  a + 4 <= PGROUNDUP (usize (u_sys s)) → ust a v s = Done tt (set_u_mem (store32 (u_mem s) a v) s).
Proof. intros H. unfold ust, mapped. by rewrite (proj2 (Z.leb_le _ _) H). Qed.

(** The walk of [free] around the ring ends at the only node that passes. *)
Lemma find_prev_run s bp p R e fuel :
  links (u_mem s) R e → Forall (λ b, b.1 + 8 <= PGROUNDUP (usize (u_sys s))) R →
  Forall (λ b, between bp b.1 (load32 (u_mem s) (h_ptr b.1)) = (b.1 =? p)) R →
  p ∈ R.*1 → (length R <= fuel)%nat →
  find_prev fuel bp (first R e) s = Done p s.
Proof.
  revert fuel. induction R as [|b R IH]; intros fuel; [set_solver|]. rewrite links_cons, !Forall_cons.
  intros (Hp & _ & HR) (Hm & HmR) (Hb & HbR) Hin Hf. destruct fuel as [|fuel]; [cbn in Hf; lia|].
  cbn [find_prev first]. rewrite (bind_run _ _ _ _ _ (uld_run s (h_ptr b.1) ltac:(unfold h_ptr; lia))). rewrite Hb.
  destruct (Z.eqb_spec b.1 p) as [->|Hne]; [done|]. rewrite Hp. apply IH; try done.
  - cbn in Hin. apply elem_of_cons in Hin as [|]; [congruence|done].
  - cbn in Hf. lia.
Qed.

(** Reads and writes below the size of the process. *)
Definition within (s : uheap S) (a : Z) : Prop := a + 8 <= usize (u_sys s) <= KERNBASE ∧ 0 <= a.

Lemma within_mapped s a b : within s a → b <= 4 → a + b + 4 <= PGROUNDUP (usize (u_sys s)).
Proof. unfold within, KERNBASE. intros. rewrite PGROUNDUP_eq by lia. zlia. Qed.

Lemma uld_ptr s a : within s a → uld (h_ptr a) s = Done (load32 (u_mem s) a) s.
Proof. intros H. apply uld_run. pose proof (within_mapped s a 0 H). unfold h_ptr. lia. Qed.
Lemma uld_size s a : within s a → uld (h_size a) s = Done (load32 (u_mem s) (a + 4)) s.
Proof. intros H. apply uld_run. pose proof (within_mapped s a 4 H). unfold h_size. lia. Qed.
Lemma ust_ptr s a v : within s a → ust (h_ptr a) v s = Done tt (set_u_mem (store32 (u_mem s) a v) s).
Proof. intros H. apply ust_run. pose proof (within_mapped s a 0 H). unfold h_ptr. lia. Qed.
Lemma ust_size s a v : within s a → ust (h_size a) v s = Done tt (set_u_mem (store32 (u_mem s) (a + 4) v) s).
Proof. intros H. apply ust_run. pose proof (within_mapped s a 4 H). unfold h_size. lia. Qed.

(** [m] and [m'] differ in the header at [a] only. *)
Definition at_header (a : Z) (m m' : mem) : Prop := ∀ x, x < a ∨ a + 8 <= x → m' x = m x.

Lemma at_header_ptr a m v : at_header a m (store32 m a v).
Proof. intros x Hx. apply store32_out. lia. Qed.
Lemma at_header_size a m v : at_header a m (store32 m (a + 4) v).
Proof. intros x Hx. apply store32_out. lia. Qed.
Lemma at_header_trans a m1 m2 m3 : at_header a m1 m2 → at_header a m2 m3 → at_header a m1 m3.
Proof. intros H1 H2 x Hx. by rewrite (H2 x Hx), (H1 x Hx). Qed.

Lemma links_header m m' l e a :
  at_header a m m' → Forall (λ b, b.1 + 8 <= a ∨ a + 8 <= b.1) l → links m l e → links m' l e.
Proof.
  intros Hm Hl. apply links_frame. intros b x Hb Hx. apply Hm. rewrite Forall_forall in Hl. specialize (Hl b Hb). lia.
Qed.

(** The upper neighbour taken in. *)
Definition upper (bp n : Z) (f2 : list (Z * Z)) : Z * list (Z * Z) :=
  match f2 with
  | c :: f2' => if stop (bp, n) =? c.1 then (n + c.2, f2') else (n, f2)
  | [] => (n, [])
  end.

Lemma join_upper_run s bp n p f2 e :
  load32 (u_mem s) (h_ptr p) = first f2 e → load32 (u_mem s) (h_size bp) = n → links (u_mem s) f2 e →
  within s p → within s bp → Forall (λ c, within s c.1 ∧ 1 <= c.2 ∧ stop c <= KERNBASE ∧ stop (bp, n) <= c.1) f2 →
  1 <= n → 0 < e < bp → stop (bp, n) <= KERNBASE →
  ∃ m', join_upper bp p s = Done tt (set_u_mem m' s) ∧ at_header bp (u_mem s) m' ∧
    links m' ((bp, (upper bp n f2).1) :: (upper bp n f2).2) e.
Proof.
  intros Hp Hb Hl Hwp Hwb Hf Hn He Hk. unfold join_upper, h_ptr, h_size, stop, KERNBASE in *. cbn in Hk, Hb.
  mcall (uld_size s bp Hwb). mcall (uld_ptr s p Hwp). rewrite Hb, Hp. unfold hadd, HEADER.
  destruct Hwb as [Hwb1 Hwb2]. rewrite u32_small by lia.
  destruct f2 as [|c f2]; cbn [first upper].
  - ztest (bp + 8 * n =? e) is false. eexists. split; [apply ust_ptr; split; lia|]. split; [apply at_header_ptr|].
    apply links_cons. cbn. unfold h_ptr, h_size. by rewrite load32_store32_eq, load32_store32_ne by lia.
  - apply Forall_cons in Hf as [((Hc1 & Hc2) & Hc3 & Hc4 & Hc5) Hf]. cbn in Hc5. apply links_cons in Hl as (Hl1 & Hl2 & Hl).
    unfold h_ptr, h_size in Hl1, Hl2. unfold stop. cbn [fst snd]. case_if.
    + mcall (uld_size s c.1 (conj Hc1 Hc2)). rewrite Hl2. mcall (ust_size s bp (u32 (n + c.2)) (conj Hwb1 Hwb2)).
      set (s1 := set_u_mem _ s). mcall (uld_ptr s1 c.1 (conj Hc1 Hc2)). rewrite (ust_ptr s1 bp _ (conj Hwb1 Hwb2)).
      subst s1. cbn [u_mem set_u_mem]. rewrite load32_store32_ne, Hl1 by lia. eexists. split; [done|].
      split; [eapply at_header_trans; [apply at_header_size|apply at_header_ptr]|].
      apply links_cons. cbn [fst snd]. unfold h_ptr, h_size. rewrite u32_small by lia.
      assert (0 <= first f2 e < 4294967296).
      { destruct f2 as [|d f2]; cbn; [lia|]. apply Forall_cons in Hf as [((? & ?) & _) _]. unfold KERNBASE in *. lia. }
      rewrite load32_store32_eq by lia. rewrite load32_store32_ne, load32_store32_eq by lia. split_and!; try done.
      eapply links_header, links_header; [apply at_header_ptr| |apply at_header_size| |done].
      all: eapply Forall_impl; [exact Hf|]; cbn; intros; lia.
    + rewrite (ust_ptr s bp _ (conj Hwb1 Hwb2)). eexists. split; [done|]. split; [apply at_header_ptr|].
      apply links_cons. cbn [fst snd first]. unfold h_ptr, h_size. rewrite load32_store32_eq, load32_store32_ne by lia.
      split_and!; try done. eapply links_header; [apply at_header_ptr| |apply links_cons; done].
      constructor; [lia|]. eapply Forall_impl; [exact Hf|]. cbn. intros; lia.
Qed.

(** Linked behind the lower neighbour, or taken in by it. *)
Definition lower (p k bp n : Z) : list (Z * Z) := if stop (p, k) =? bp then [(p, k + n)] else [(p, k); (bp, n)].

Lemma join_lower_run s bp n p k f2 e :
  load32 (u_mem s) (h_size p) = k → links (u_mem s) ((bp, n) :: f2) e →
  within s p → within s bp → Forall (λ c, bp + 8 <= c.1) f2 → 0 <= first f2 e < 4294967296 →
  1 <= n → 0 <= k → 0 < p → p + 8 <= bp → stop (p, k) <= bp → stop (bp, n) <= KERNBASE →
  ∃ m', join_lower bp p s = Done tt (set_u_mem m' s) ∧ at_header p (u_mem s) m' ∧ links m' (lower p k bp n ++ f2) e.
Proof.
  intros Hk Hl [Hwp1 Hwp2] [Hwb1 Hwb2] Hf He Hn Hk0 Hp0 Hpb Hs1 Hs2. apply links_cons in Hl as (Hb1 & Hb2 & Hl).
  unfold join_lower, lower, h_ptr, h_size, stop, KERNBASE in *. cbn [fst snd] in *.
  mcall (uld_size s p (conj Hwp1 Hwp2)). rewrite Hk. unfold hadd, HEADER. rewrite u32_small by lia. case_if.
  - mcall (uld_size s bp (conj Hwb1 Hwb2)). rewrite Hb2. mcall (ust_size s p (u32 (k + n)) (conj Hwp1 Hwp2)).
    set (s1 := set_u_mem _ s). mcall (uld_ptr s1 bp (conj Hwb1 Hwb2)). rewrite (ust_ptr s1 p _ (conj Hwp1 Hwp2)).
    subst s1. cbn [u_mem set_u_mem]. rewrite load32_store32_ne, Hb1 by lia. eexists. split; [done|].
    split; [eapply at_header_trans; [apply at_header_size|apply at_header_ptr]|].
    apply links_cons. cbn [fst snd first app]. unfold h_ptr, h_size. rewrite u32_small by lia.
    rewrite load32_store32_eq by lia. rewrite load32_store32_ne, load32_store32_eq by lia. split_and!; try done.
    eapply links_header, links_header; [apply at_header_ptr| |apply at_header_size| |done].
    all: eapply Forall_impl; [exact Hf|]; cbn; intros; lia.
  - rewrite (ust_ptr s p _ (conj Hwp1 Hwp2)). eexists. split; [done|]. split; [apply at_header_ptr|].
    apply links_cons. cbn [fst snd first app]. unfold h_ptr, h_size. rewrite load32_store32_eq, load32_store32_ne by lia.
    split_and!; try done. eapply links_header; [apply at_header_ptr| |apply links_cons; done].
    constructor; [cbn; lia|]. eapply Forall_impl; [exact Hf|]. cbn. intros; lia.
Qed.
End facts.

(** ** The heap of the user allocator

    The invariant of the heap between calls, and that [free], [morecore] and
    [malloc] keep it, over any system call sbrk with the contract [SbrkStore]. *)


(** ** Sizes *)

Definition total (l : list (Z * Z)) : Z := foldr (λ b t, b.2 + t) 0 l.

Lemma utotal_app l1 l2 : total (l1 ++ l2) = total l1 + total l2.
Proof. unfold total. induction l1 as [|b l1 IH]; cbn; [done|]. lia. Qed.
Lemma total_cons b l : total (b :: l) = b.2 + total l.
Proof. done. Qed.

(** ** Joining neighbours, on the lists *)

Lemma upper_ok lo hi bp n f2 l :
  gapped lo f2 → tiles lo hi ((bp, n) :: f2 ++ l) → Forall (λ c, stop (bp, n) <= c.1) f2 →
  let n' := (upper bp n f2).1 in let f2' := (upper bp n f2).2 in
  gapped (stop (bp, n') + 1) f2' ∧ tiles lo hi ((bp, n') :: f2' ++ l) ∧ n <= n' ∧
  n' + total f2' = n + total f2 ∧ (length f2' <= length f2)%nat.
Proof.
  cbn zeta. intros Hg Ht Hf. destruct f2 as [|c f2]; cbn [upper fst snd].
  { split_and!; try done; lia. }
  apply Forall_cons in Hf as [Hc _]. destruct Hg as (Hg1 & Hg2 & Hg3). case_if; cbn [fst snd].
  - assert (c = (bp + 8 * n, c.2)) as Ec by (destruct c; unfold stop in *; cbn in *; congruence).
    split_and!; [| | |rewrite total_cons; lia|cbn; lia].
    + eapply gapped_mono; [|exact Hg3]. rewrite Ec. unfold stop. cbn. lia.
    + apply tiles_join. by rewrite <- Ec.
    + lia.
  - split_and!; try done; try lia. cbn. unfold stop in *. cbn in *. split_and!; try lia. done.
Qed.

Lemma lower_ok lo hi p k bp n f2 l :
  gapped (stop (bp, n) + 1) f2 → tiles lo hi ((p, k) :: (bp, n) :: l) → stop (p, k) <= bp →
  gapped p (lower p k bp n ++ f2) ∧ tiles lo hi (lower p k bp n ++ l) ∧
  total (lower p k bp n) = k + n ∧ ∃ b, b ∈ lower p k bp n ∧ n <= b.2.
Proof.
  intros Hg Ht Hp. pose proof Ht as Ht'. rewrite !tiles_cons in Ht'. unfold inside in Ht'. cbn in Ht'.
  unfold lower. case_if.
  - assert (bp = p + 8 * k) as -> by (unfold stop in *; cbn in *; lia). split_and!.
    + cbn. split_and!; try lia. eapply gapped_mono; [|exact Hg]. unfold stop. cbn. lia.
    + by apply tiles_join.
    + cbn. lia.
    + eexists. split; [by left|]. cbn. lia.
  - split_and!; [|done|cbn; lia|].
    + cbn. unfold stop in *. cbn in *. split_and!; try lia. done.
    + exists (bp, n). split; [set_solver|]. cbn. lia.
Qed.

(** Where a block in use lies in the free list. *)
Lemma split_at lo l b : gapped lo l → Forall (off b) l → 1 <= b.2 →
  ∃ f1 f2, l = f1 ++ f2 ∧ Forall (λ c, stop c <= b.1) f1 ∧ Forall (λ c, stop b <= c.1) f2.
Proof.
  intros Hg Ho Hb. revert lo Hg. induction l as [|c l IH]; intros lo; [by exists [], []|].
  intros (Hg1 & Hg2 & Hg3). apply Forall_cons in Ho as [Hc Ho]. destruct Hc as [Hc|Hc].
  - exists [], (c :: l). split_and!; [done|constructor|]. constructor; [done|].
    apply gapped_above in Hg3 as [H _]. eapply Forall_impl; [exact H|]. unfold stop in *. cbn. intros; lia.
  - destruct (IH Ho _ Hg3) as (f1 & f2 & -> & H1 & H2). exists (c :: f1), f2. split_and!; [done| |done]. by constructor.
Qed.

(** ** The invariant *)

Section heap.
Context {S : Type} `{!SbrkOps S} (base lo : Z).
Implicit Types s : uheap S.

Record heap_ok (s : uheap S) (fs als : list (Z * Z)) : Prop := {
  hk_base : (0 < base ∧ base + 8 <= lo <= usize (u_sys s)) ∧ within s base;
  hk_ring : links (u_mem s) ((base, 0) :: fs) base;
  hk_freep : u_freep s ∈ base :: fs.*1;
  hk_gapped : gapped lo fs;
  hk_tiles : tiles lo (usize (u_sys s)) (fs ++ als);
  hk_als : Forall (λ b, load32 (u_mem s) (h_size b.1) = b.2) als
}.

#[export] Instance heap_ok_proper s fs : Proper ((≡ₚ) ==> iff) (heap_ok s fs).
Proof.
  assert (H : ∀ l l', l ≡ₚ l' → heap_ok s fs l → heap_ok s fs l').
  { intros l l' Hl []. constructor; try done; by rewrite <- Hl. }
  intros l l' Hl. split; by apply H.
Qed.

Lemma heap_within s fs als b : heap_ok s fs als → b ∈ (base, 0) :: fs ++ als → within s b.1.
Proof.
  intros [[Hb Hw] _ _ _ [Ht _] _] [->|Hin]%elem_of_cons; [done|]. rewrite Forall_forall in Ht.
  destruct (Ht b Hin) as (H1 & H2 & H3). unfold within, stop in *. lia.
Qed.

(** A write to the header of a free block or of [base] leaves the others alone. *)
Lemma heap_apart s fs als a b : heap_ok s fs als → a ∈ base :: fs.*1 → b ∈ als → a + 8 <= b.1 ∨ stop b <= a.
Proof.
  intros [[Hbl _] _ _ _ [Ht Hp] _] Ha Hb. rewrite Forall_forall in Ht.
  apply elem_of_cons in Ha as [->|(c & -> & Hc)%list_elem_of_fmap].
  - left. destruct (Ht b) as [? _]; [set_solver|]. lia.
  - apply pairwise_app in Hp as (_ & _ & Hp). rewrite Forall_forall in Hp. specialize (Hp c Hc). rewrite Forall_forall in Hp.
    destruct (Hp b Hb); [left|by right]. destruct (Ht c) as (_ & ? & _); [set_solver|]. unfold stop in *. lia.
Qed.

(** [free] starts its walk at any node of the ring. *)
Lemma find_prev_ok s fs als bp n g p k f2 fuel :
  heap_ok s fs ((bp, n) :: als) → (base, 0) :: fs = g ++ (p, k) :: f2 →
  Forall (λ b, b.1 < bp) (g ++ [(p, k)]) → Forall (λ b, bp < b.1) f2 → (length fs < fuel)%nat →
  find_prev fuel bp (u_freep s) s = Done p s.
Proof.
  intros Hh E Hg Hf Hfuel. pose proof Hh as [[Hb Hw] Hr Hp Hgap Ht _].
  assert (Hall : Forall (λ b, between bp b.1 (load32 (u_mem s) (h_ptr b.1)) = (b.1 =? p)) ((base, 0) :: fs)).
  { rewrite E. apply (between_at _ _ _ k _ base); rewrite <- ?E; try done.
    - by apply (ring_asc base lo); [lia|].
    - assert (Hlt : base < bp). { destruct Ht as [Ht _]. rewrite Forall_forall in Ht. destruct (Ht (bp, n)) as [? _]; [set_solver|]. cbn in *. lia. }
      constructor; [cbn; lia|]. apply gapped_above in Hgap as [H _]. eapply Forall_impl; [exact H|]. cbn. intros; lia. }
  assert (Hin : u_freep s ∈ ((base, 0) :: fs).*1) by done. apply list_elem_of_fmap in Hin as (f & Ef & Hin).
  apply list_elem_of_split in Hin as (A & B & EL).
  assert (HR : links (u_mem s) ((f :: B) ++ A) (first ((f :: B) ++ A) base)) by (apply links_rotate; rewrite <- EL; done).
  assert (HP : (f :: B) ++ A ≡ₚ (base, 0) :: fs) by (rewrite EL; apply Permutation_app_comm).
  rewrite Ef. change f.1 with (first ((f :: B) ++ A) f.1). eapply find_prev_run; [exact HR|..].
  - rewrite HP. apply Forall_forall. intros b Hbin. pose proof (heap_within s fs _ b Hh ltac:(set_solver)) as Hwb.
    pose proof (within_mapped s b.1 4 Hwb). lia.
  - by rewrite HP.
  - rewrite HP, E, fmap_app. set_solver.
  - rewrite HP. cbn. lia.
Qed.

(** The blocks in use keep their bytes. *)
Definition keeps (als : list (Z * Z)) (m m' : mem) : Prop := ∀ b x, b ∈ als → b.1 <= x < stop b → m' x = m x.

Lemma keeps_refl als m : keeps als m m.
Proof. done. Qed.
Lemma keeps_trans als m1 m2 m3 : keeps als m1 m2 → keeps als m2 m3 → keeps als m1 m3.
Proof. intros H1 H2 b x Hb Hx. by rewrite (H2 b x Hb Hx), (H1 b x Hb Hx). Qed.
Lemma keeps_header als a m m' : at_header a m m' → (∀ b, b ∈ als → a + 8 <= b.1 ∨ stop b <= a) → keeps als m m'.
Proof. intros Hm Ha b x Hb Hx. apply Hm. specialize (Ha b Hb). lia. Qed.
Lemma keeps_sizes als m m' :
  keeps als m m' → Forall (λ b, 1 <= b.2) als →
  Forall (λ b, load32 m (h_size b.1) = b.2) als → Forall (λ b, load32 m' (h_size b.1) = b.2) als.
Proof.
  intros Hk H1 H2. rewrite Forall_forall in *. intros b Hb. transitivity (load32 m (h_size b.1)); [|by apply H2]. apply load32_ext.
  intros i Hi. apply (Hk b); [done|]. specialize (H1 b Hb). cbn in H1. unfold h_size, stop in *. lia.
Qed.

(** The list that [free] leaves. *)
Lemma free_lists hi f1 f2 als bp n g p k :
  gapped lo (f1 ++ f2) → tiles lo hi ((bp, n) :: (f1 ++ f2) ++ als) →
  Forall (λ c, stop c <= bp) f1 → Forall (λ c, stop (bp, n) <= c.1) f2 → (base, 0) :: f1 = g ++ [(p, k)] → base + 8 <= lo →
  let n' := (upper bp n f2).1 in let f2' := (upper bp n f2).2 in
  ∃ fs', (base, 0) :: fs' = g ++ lower p k bp n' ++ f2' ∧ p ∈ base :: fs'.*1 ∧ gapped lo fs' ∧ tiles lo hi (fs' ++ als) ∧
    total fs' = total (f1 ++ f2) + n ∧ (∃ b, b ∈ fs' ∧ n <= b.2) ∧ (length fs' <= Datatypes.S (length (f1 ++ f2)))%nat.
Proof.
  cbn zeta. intros Hg Ht H1 H2 E Hlo. apply gapped_app in Hg as [Hg1 Hg2].
  destruct (upper_ok lo hi bp n f2 (f1 ++ als)) as (Hu1 & Hu2 & Hu3 & Hu4 & Hu5); [| |done|].
  { eapply gapped_mono; [|exact Hg2]. by apply gapped_above in Hg1 as [_ ?]. }
  { rewrite app_assoc, (Permutation_app_comm f2 f1). done. }
  set (n' := (upper bp n f2).1) in *. set (f2' := (upper bp n f2).2) in *.
  pose proof (proj1 (tiles_cons _ _ _ _) Hu2) as ((Hb1 & Hb2 & Hb3) & _). cbn in Hb1, Hb2.
  destruct f1 as [|c f1 _] using rev_ind.
  - destruct g as [|? [|]]; [|done..]. injection E as <- <-. exists ((bp, n') :: f2'). split_and!.
    + unfold lower, stop. cbn. by ztest (base + 8 * 0 =? bp) is false.
    + by left.
    + cbn. split_and!; try lia. done.
    + done.
    + cbn [app]. rewrite total_cons. cbn. lia.
    + eexists. split; [by left|done].
    + cbn. lia.
  - rewrite app_comm_cons in E. apply app_inj_tail in E as [<- ->].
    apply Forall_app in H1 as [_ H1]. rewrite Forall_singleton in H1. apply gapped_app in Hg1 as [Hg0 Hg1]. cbn in Hg1.
    destruct (lower_ok lo hi p k bp n' f2' (f2' ++ f1 ++ als)) as (Hl1 & Hl2 & Hl3 & b & Hl4 & Hl5); [done| |done|].
    { eapply tiles_proper; [|exact Hu2]. rewrite <- app_assoc. cbn. solve_Permutation. }
    exists (f1 ++ lower p k bp n' ++ f2'). split_and!.
    + done.
    + right. rewrite !fmap_app. unfold lower. case_if; set_solver.
    + apply gapped_app. split; [done|]. eapply gapped_mono; [|exact Hl1]. lia.
    + eapply tiles_proper; [|exact Hl2]. rewrite <- !app_assoc. solve_Permutation.
    + rewrite !utotal_app, Hl3. cbn in *. lia.
    + exists b. split; [set_solver|lia].
    + rewrite !length_app. unfold lower. case_if; cbn; lia.
Qed.

Lemma upper_bounds bp n f2 hi :
  1 <= n → stop (bp, n) <= hi → Forall (λ c, 1 <= c.2 ∧ stop c <= hi) f2 →
  1 <= (upper bp n f2).1 ∧ stop (bp, (upper bp n f2).1) <= hi ∧ (∀ c, c ∈ (upper bp n f2).2 → c ∈ f2).
Proof.
  intros Hn Hs Hf. destruct f2 as [|c f2]; cbn; [by split_and!|]. apply Forall_cons in Hf as [[Hc1 Hc2] _].
  case_if; cbn; [|by split_and!]. unfold stop in *. cbn in *. split_and!; [lia|lia|]. intros; by right.
Qed.

(** The memory that [free] leaves. *)
Lemma free_mem s f1 f2 als bp n g p k fuel :
  heap_ok s (f1 ++ f2) ((bp, n) :: als) → 1 <= n → base + 8 <= bp → stop (bp, n) <= usize (u_sys s) →
  Forall (λ c, stop c <= bp) f1 → Forall (λ c, stop (bp, n) <= c.1) f2 → (base, 0) :: f1 = g ++ [(p, k)] →
  (length (f1 ++ f2) < fuel)%nat →
  let n' := (upper bp n f2).1 in let f2' := (upper bp n f2).2 in
  ∃ m m', free fuel (hadd bp 1) s = Done tt (UHeap m' p (u_sys s)) ∧ at_header bp (u_mem s) m ∧ at_header p m m' ∧
    links m' (g ++ lower p k bp n' ++ f2') base.
Proof.
  cbn zeta. intros Hh Hn Hbb Hbs H1 H2 E Hfuel. pose proof Hh as [[Hb Hw] Hr Hp Hgap Ht Hals].
  assert (EL : (base, 0) :: f1 ++ f2 = g ++ (p, k) :: f2) by (rewrite app_comm_cons, E, <- app_assoc; done).
  assert (Hwi : ∀ b, b ∈ (base, 0) :: f1 ++ f2 → within s b.1) by (intros b ?; eapply heap_within; [exact Hh|set_solver]).
  assert (Hlow : Forall (λ b, b.1 + 8 <= bp ∧ stop b <= bp ∧ 0 <= b.2 ∧ base <= b.1) ((base, 0) :: f1)).
  { constructor; [unfold stop; cbn; lia|]. apply gapped_app in Hgap as [Hgap _]. apply gapped_above in Hgap as [Hgap _].
    rewrite Forall_forall in *. intros b Hbin. specialize (H1 b Hbin). specialize (Hgap b Hbin). unfold stop in *. cbn in *. lia. }
  assert (Hpk : p + 8 <= bp ∧ stop (p, k) <= bp ∧ 0 <= k ∧ base <= p).
  { rewrite E in Hlow. apply Forall_app in Hlow as [_ Hlow]. by rewrite Forall_singleton in Hlow. }
  assert (Hwp : within s p) by (apply (Hwi (p, k)); rewrite EL; set_solver).
  assert (Hwb : within s bp) by (eapply (heap_within s _ _ (bp, n)); [exact Hh|set_solver]).
  rewrite EL in Hr. apply links_app in Hr as [Hrg Hrp]. apply links_cons in Hrp as (Hrp1 & Hrp2 & Hrf).
  assert (Hup : Forall (λ c, within s c.1 ∧ 1 <= c.2 ∧ stop c <= KERNBASE ∧ stop (bp, n) <= c.1) f2).
  { destruct Ht as [Ht _]. rewrite Forall_forall in Ht, H2 |- *. intros c Hc. destruct (Ht c) as (? & ? & ?); [set_solver|].
    split_and!; [apply Hwi; set_solver|done| |by apply H2]. unfold within in Hwb. lia. }
  assert (Hub : u32 (hadd bp 1 - 8) = bp).
  { unfold hadd, HEADER, within, KERNBASE in *. rewrite u32_sub_l, u32_small by lia. lia. }
  unfold free, HEADER. rewrite Hub. mrun.
  mcall (find_prev_ok s _ als bp n g p k f2 fuel Hh EL ltac:(rewrite <- E; eapply Forall_impl; [exact Hlow|]; cbn; intros; lia)
    ltac:(eapply Forall_impl; [exact Hup|]; unfold stop; cbn; intros; lia) Hfuel).
  destruct (join_upper_run s bp n p f2 base) as (m1 & Hrun1 & Hm1 & Hl1); try done; try lia.
  { rewrite Forall_cons in Hals. apply Hals. }
  { unfold within in Hwb. lia. }
  destruct (upper_bounds bp n f2 KERNBASE) as (Hu1 & Hu2 & Hu3); [done|unfold within in Hwb; lia|eapply Forall_impl; [exact Hup|]; cbn; tauto|].
  mcall Hrun1. destruct (join_lower_run (set_u_mem m1 s) bp (upper bp n f2).1 p k (upper bp n f2).2 base) as (m2 & Hrun2 & Hm2 & Hl2); try done; try lia.
  { cbn in Hrp2 |- *. rewrite <- Hrp2. apply load32_ext. unfold h_size. intros. apply Hm1. lia. }
  { rewrite Forall_forall in Hup |- *. intros c Hc. apply Hu3, Hup in Hc. unfold stop in Hc. cbn in Hc. lia. }
  { destruct (upper bp n f2).2 as [|c l] eqn:Eu; cbn; unfold within, KERNBASE in *; [lia|].
    rewrite Forall_forall in Hup. destruct (Hup c) as ((? & ?) & _); [apply Hu3; left|lia]. }
  mcall Hrun2. exists m1, m2. split_and!; try done. apply links_app. split; [|done].
  assert (first (lower p k bp (upper bp n f2).1 ++ (upper bp n f2).2) base = p) as -> by (unfold lower; by case_if).
  assert (Hga : Forall (λ b, b.1 + 8 <= bp ∧ b.1 + 8 <= p) g).
  { rewrite E in Hlow. apply Forall_app in Hlow as [Hlow _]. apply (ring_asc base) in Hgap; [|lia]. rewrite EL in Hgap.
    apply pairwise_app in Hgap as (_ & _ & Hgap). rewrite Forall_forall in *. intros b Hbg. specialize (Hgap b Hbg). specialize (Hlow b Hbg).
    apply Forall_cons in Hgap as [? _]. cbn in *. lia. }
  eapply links_header, links_header; [exact Hm2| |exact Hm1| |exact Hrg]; (eapply Forall_impl; [exact Hga|]; cbn; intros; lia).
Qed.

(** [free] inserts the block at its place and joins it with its neighbours. *)
Lemma ufree_run s fs als bp n fuel :
  heap_ok s fs ((bp, n) :: als) → (length fs < fuel)%nat →
  ∃ s' fs', free fuel (hadd bp 1) s = Done tt s' ∧ heap_ok s' fs' als ∧ u_sys s' = u_sys s ∧
    keeps als (u_mem s) (u_mem s') ∧ total fs' = total fs + n ∧ (∃ b, b ∈ fs' ∧ n <= b.2) ∧
    (length fs' <= Datatypes.S (length fs))%nat.
Proof.
  intros Hh Hfuel. pose proof Hh as [[Hb Hw] Hr Hp Hgap Ht Hals]. 
  assert (Htp : tiles lo (usize (u_sys s)) ((bp, n) :: fs ++ als)) by (rewrite Permutation_middle; done).
  pose proof (proj1 (tiles_cons _ _ _ _) Htp) as ((Hbp1 & Hbp2 & Hbp3) & Hoff & _). cbn in Hbp1, Hbp2.
  apply Forall_app in Hoff as [Hoff Hoffa].
  destruct (split_at _ _ _ Hgap Hoff Hbp2) as (f1 & f2 & -> & H1 & H2). 
  assert (∃ g p k, (base, 0) :: f1 = g ++ [(p, k)]) as (g & p & k & E).
  { destruct f1 as [|c f1 _] using rev_ind; [by exists [], base, 0|]. destruct c as [p k]. by exists ((base, 0) :: f1), p, k. }
  destruct (free_mem s f1 f2 als bp n g p k fuel) as (m1 & m2 & Hrun & Hm1 & Hm2 & Hl); try done; [lia|].
  destruct (free_lists (usize (u_sys s)) f1 f2 als bp n g p k) as (fs' & E' & Hfp & Hg' & Ht' & Htot & Hex & Hlen); try done; [lia|].
  assert (Hpin : p ∈ base :: (f1 ++ f2).*1).
  { assert (p ∈ ((base, 0) :: f1).*1) by (rewrite E, fmap_app; set_solver). set_solver. }
  assert (Hk : keeps als (u_mem s) m2).
  { eapply keeps_trans; eapply keeps_header; [exact Hm1| |exact Hm2|].
    - intros b Hin. rewrite Forall_forall in Hoffa. specialize (Hoffa b Hin). unfold off, stop in *. cbn in *. lia.
    - intros b Hin. eapply heap_apart; [exact Hh|done|set_solver]. }
  exists (UHeap m2 p (u_sys s)), fs'. split_and!; try done. constructor; try done; [by rewrite E'|].
  cbn. apply Forall_cons in Hals as [_ Hals]. eapply keeps_sizes; [exact Hk| |exact Hals].
  destruct Ht' as [Ht' _]. apply Forall_app in Ht' as [_ Ht']. eapply Forall_impl; [exact Ht'|]. unfold inside. cbn. tauto.
Qed.

(** ** Taking a block *)

(** The node that points to [p] is the one before it. *)
Lemma links_next m c l e b : links m (c :: l) e → b ∈ c :: l → load32 m (h_ptr b.1) ∈ e :: l.*1.
Proof.
  revert c. induction l as [|d l IH]; intros c (H1 & H2 & H3) Hb.
  - apply list_elem_of_singleton in Hb as ->. rewrite H1. set_solver.
  - apply elem_of_cons in Hb as [->|Hb]; [rewrite H1; cbn; set_solver|]. specialize (IH d H3 Hb). cbn. set_solver.
Qed.

Lemma prev_unique m g q k p n f2 e b :
  let L := g ++ (q, k) :: (p, n) :: f2 in
  links m L e → asc L → e < p → b ∈ L → load32 m (h_ptr b.1) = p → b.1 = q.
Proof.
  cbn zeta. intros Hl Ha He Hb Hp. apply links_app in Hl as [Hg Hl]. apply links_cons in Hl as (_ & _ & Hl).
  apply pairwise_app in Ha as (_ & (Ha1 & Ha2 & _) & Ha3). apply Forall_cons in Ha1 as [Ha1 _]. cbn in Ha1. rewrite Forall_forall in Ha2, Ha3.
  apply elem_of_app in Hb as [Hb|[->|Hb]%elem_of_cons]; [|done|].
  - apply (links_elem _ _ _ _ Hg) in Hb as [_ Hb]. rewrite Hp in Hb. exfalso.
    apply elem_of_cons in Hb as [Hb|(c & Hc & Hb)%list_elem_of_fmap]; cbn in Hb.
    + lia.
    + specialize (Ha3 c Hb). rewrite !Forall_cons in Ha3. cbn in Ha3. lia.
  - apply (links_next _ _ _ _ _ Hl) in Hb. rewrite Hp in Hb. exfalso.
    apply elem_of_cons in Hb as [Hb|(c & Hc & Hb)%list_elem_of_fmap]; [lia|]. specialize (Ha2 c Hb). cbn in Ha2. lia.
Qed.

Lemma take_all s f1 f2 als prevp p n :
  heap_ok s (f1 ++ (p, n) :: f2) als → prevp ∈ base :: (f1 ++ (p, n) :: f2).*1 → load32 (u_mem s) (h_ptr prevp) = p →
  ∃ m', take_block n prevp p n s = Done (hadd p 1) (UHeap m' prevp (u_sys s)) ∧ at_header prevp (u_mem s) m' ∧
    heap_ok (UHeap m' prevp (u_sys s)) (f1 ++ f2) ((p, n) :: als).
Proof.
  intros Hh Hprev Hpp. pose proof Hh as [[Hb Hw] Hr Hfp Hgap Ht Hals].
  pose proof (heap_within s _ als (p, n) Hh ltac:(set_solver)) as Hwp. cbn in Hwp.
  assert (∃ g q k, (base, 0) :: f1 = g ++ [(q, k)]) as (g & q & k & E).
  { destruct f1 as [|c f1 _] using rev_ind; [by exists [], base, 0|]. destruct c as [q k]. by exists ((base, 0) :: f1), q, k. }
  assert (EL : (base, 0) :: f1 ++ (p, n) :: f2 = g ++ (q, k) :: (p, n) :: f2) by (rewrite app_comm_cons, E, <- app_assoc; done).
  pose proof (ring_asc base lo _ ltac:(lia) Hgap) as Hasc. rewrite EL in Hr, Hasc.
  assert (Hbp : base < p). { apply gapped_app in Hgap as [Hg1 [Hg2 _]]. apply gapped_above in Hg1 as [_ ?]. cbn in Hg2. lia. }
  assert (prevp = q) as ->.
  { assert (Hin : prevp ∈ (g ++ (q, k) :: (p, n) :: f2).*1) by (rewrite <- EL; done).
    apply list_elem_of_fmap in Hin as (b & -> & Hin). by eapply (prev_unique _ g q k p n f2 base b). }
  pose proof (heap_within s _ als (q, k) Hh ltac:(rewrite app_comm_cons, EL; set_solver)) as Hwq. cbn in Hwq.
  apply links_app in Hr as [Hr1 Hr]. apply links_cons in Hr as (_ & Hr2 & Hr). apply links_cons in Hr as (Hr3 & Hr4 & Hr5).
  apply pairwise_app in Hasc as (_ & (Ha1 & Ha2 & _) & Ha3). apply Forall_cons in Ha1 as [Ha1 Ha1']. cbn in Hr2, Hr3, Hr4, Ha1, Ha1'.
  assert (0 <= first f2 base < 4294967296).
  { destruct f2 as [|c f2]; cbn; unfold within, KERNBASE in *; [lia|]. destruct (heap_within s _ als c Hh) as [??]; [set_solver|]. unfold KERNBASE in *. lia. }
  unfold take_block. rewrite Z.eqb_refl. mcall (uld_ptr s p Hwp). rewrite Hr3. mcall (ust_ptr s q (first f2 base) Hwq).
  eexists. split; [reflexivity|]. split; [apply at_header_ptr|]. 
  set (m' := store32 _ _ _). assert (Hm : at_header q (u_mem s) m') by apply at_header_ptr.
  constructor; cbn [u_mem u_sys u_freep set_u_mem].
  - done.
  - rewrite app_comm_cons, E, <- app_assoc. apply links_app. cbn [app first fst]. split; [|apply links_cons; cbn [fst snd]; split_and!].
    + eapply links_header; [exact Hm| |exact Hr1]. eapply Forall_impl; [exact Ha3|]. cbn. intros b Hbb. apply Forall_cons in Hbb as [? _]. cbn in *. lia.
    + unfold m', h_ptr. by rewrite load32_store32_eq.
    + unfold m', h_size. by rewrite load32_store32_ne by lia.
    + eapply links_header; [exact Hm| |exact Hr5]. eapply Forall_impl; [exact Ha1'|]. cbn. intros; lia.
  - assert (q ∈ ((base, 0) :: f1).*1) by (rewrite E, fmap_app; set_solver). set_solver.
  - apply gapped_app in Hgap as [Hg1 (Hg2 & Hg3 & Hg4)]. apply gapped_app. split; [done|]. eapply gapped_mono; [|exact Hg4]. unfold stop. cbn in *. lia.
  - eapply tiles_proper; [|exact Ht]. rewrite <- !app_assoc. solve_Permutation.
  - constructor; [unfold m', h_size; cbn; by rewrite load32_store32_ne by lia|].
    eapply keeps_sizes; [eapply keeps_header; [exact Hm|intros b Hbin; eapply heap_apart; [exact Hh|exact Hprev|done]]| |exact Hals].
    destruct Ht as [Ht _]. apply Forall_app in Ht as [_ Ht]. eapply Forall_impl; [exact Ht|]. unfold inside. cbn. tauto.
Qed.

Lemma take_end s f1 f2 als nunits prevp p n :
  heap_ok s (f1 ++ (p, n) :: f2) als → prevp ∈ base :: (f1 ++ (p, n) :: f2).*1 → 1 <= nunits < n →
  let q := p + 8 * (n - nunits) in
  ∃ m', take_block nunits prevp p n s = Done (hadd q 1) (UHeap m' prevp (u_sys s)) ∧ keeps als (u_mem s) m' ∧
    heap_ok (UHeap m' prevp (u_sys s)) (f1 ++ (p, n - nunits) :: f2) ((q, nunits) :: als).
Proof.
  cbn zeta. intros Hh Hprev Hn. pose proof Hh as [[Hb Hw] Hr Hfp Hgap Ht Hals].
  pose proof (heap_within s _ als (p, n) Hh ltac:(set_solver)) as Hwp. cbn in Hwp. set (q := p + 8 * (n - nunits)).
  assert (Htp : tiles lo (usize (u_sys s)) ((p, n) :: (f1 ++ f2) ++ als)).
  { eapply tiles_proper; [|exact Ht]. rewrite <- !app_assoc. solve_Permutation. }
  pose proof (proj1 (tiles_cons _ _ _ _) Htp) as ((_ & _ & Hst) & Hoff & _). unfold stop in Hst. cbn in Hst.
  apply Forall_app in Hoff as [_ Hoff]. apply tiles_cut with (k := nunits) in Htp; [|done].
  assert (Hwq : within s q) by (unfold within in *; subst q; lia).
  unfold take_block. ztest (n =? nunits) is false.
  mcall (ust_size s p (u32 (n - nunits)) Hwp). set (s1 := set_u_mem _ s).
  assert (hadd p (u32 (n - nunits)) = q) as -> by (unfold hadd, HEADER, within, KERNBASE in *; rewrite !u32_small by (rewrite ?u32_small by lia; lia); subst q; lia).
  mcall (ust_size s1 q nunits Hwq). subst s1. cbn [set_u_mem u_mem u_sys u_freep set_freep].
  rewrite u32_small by (unfold within, KERNBASE in *; lia). eexists. split; [reflexivity|].
  set (m1 := store32 (u_mem s) _ _). set (m2 := store32 m1 _ _).
  assert (Hm1 : at_header p (u_mem s) m1) by apply at_header_size. assert (Hm2 : at_header q m1 m2) by apply at_header_size.
  assert (Hk : keeps als (u_mem s) m2).
  { rewrite Forall_forall in Hoff. eapply keeps_trans; eapply keeps_header; [exact Hm1| |exact Hm2|];
      intros b Hbin; specialize (Hoff b Hbin); unfold off, stop in *; cbn in *; subst q; lia. }
  split; [done|]. constructor; cbn [u_mem u_sys u_freep set_u_mem].
  - done.
  - rewrite app_comm_cons in Hr |- *. apply links_app in Hr as [Hr1 Hr]. apply links_cons in Hr as (Hr2 & Hr3 & Hr4). cbn in Hr2, Hr3.
    pose proof (ring_asc base lo _ ltac:(lia) Hgap) as Hasc. rewrite app_comm_cons in Hasc. apply pairwise_app in Hasc as (_ & _ & Ha).
    apply links_app. cbn [first fst]. split; [|apply links_cons; cbn [fst snd]; split_and!].
    + eapply links_header, links_header; [exact Hm2| |exact Hm1| |exact Hr1]; (eapply Forall_impl; [exact Ha|]); cbn; intros b Hbb;
        apply Forall_cons in Hbb as [? _]; cbn in *; subst q; lia.
    + unfold m2, m1, h_ptr in *. rewrite !load32_store32_ne by (subst q; lia). done.
    + unfold m2, m1, h_size. rewrite load32_store32_ne, load32_store32_eq by (unfold within, KERNBASE in *; subst q; lia). done.
    + apply gapped_app in Hgap as [_ (_ & _ & Hg)]. apply gapped_above in Hg as [Hg _]. unfold stop in Hg. cbn in Hg.
      eapply links_header, links_header; [exact Hm2| |exact Hm1| |exact Hr4]; (eapply Forall_impl; [exact Hg|]); cbn; intros; subst q; lia.
  - by rewrite fmap_app in Hprev |- *.
  - apply gapped_app in Hgap as [Hg1 (Hg2 & Hg3 & Hg4)]. apply gapped_app. split; [done|]. cbn in *. split_and!; try lia.
    eapply gapped_mono; [|exact Hg4]. unfold stop. cbn in *. lia.
  - eapply tiles_proper; [|exact Htp]. rewrite <- !app_assoc. solve_Permutation.
  - constructor; [unfold m2, h_size; cbn; by rewrite load32_store32_eq by (unfold within, KERNBASE in *; lia)|].
    eapply keeps_sizes; [exact Hk| |exact Hals].
    destruct Ht as [Ht _]. apply Forall_app in Ht as [_ Ht]. eapply Forall_impl; [exact Ht|]. unfold inside. cbn. tauto.
Qed.

Lemma take_block_run s fs als nunits prevp p n :
  heap_ok s fs als → (p, n) ∈ fs → prevp ∈ base :: fs.*1 → load32 (u_mem s) (h_ptr prevp) = p → 1 <= nunits <= n →
  ∃ q s' fs', take_block nunits prevp p n s = Done (hadd q 1) s' ∧ heap_ok s' fs' ((q, nunits) :: als) ∧
    u_sys s' = u_sys s ∧ keeps als (u_mem s) (u_mem s') ∧ total fs' + nunits = total fs ∧ (length fs' <= length fs)%nat.
Proof.
  intros Hh (f1 & f2 & ->)%list_elem_of_split Hprev Hpp Hn. destruct (decide (nunits = n)) as [->|Hne].
  - destruct (take_all s f1 f2 als prevp p n Hh Hprev Hpp) as (m' & Hr & Hm & Hh').
    exists p, (UHeap m' prevp (u_sys s)), (f1 ++ f2). split_and!; try done.
    + eapply keeps_header; [exact Hm|]. intros b Hb. eapply heap_apart; [exact Hh|exact Hprev|done].
    + rewrite !utotal_app, total_cons. cbn. lia.
    + rewrite !length_app. cbn. lia.
  - destruct (take_end s f1 f2 als nunits prevp p n Hh Hprev ltac:(lia)) as (m' & Hr & Hk & Hh').
    exists (p + 8 * (n - nunits)), (UHeap m' prevp (u_sys s)), (f1 ++ (p, n - nunits) :: f2). split_and!; try done.
    + rewrite !utotal_app, !total_cons. cbn. lia.
    + rewrite !length_app. cbn. lia.
Qed.
End heap.
