(* ===== verification/UmallocRun.v ===== *)
(** * The calls of the user allocator

    The search of [malloc], [morecore], and [malloc] and [free] on any heap in
    use, over the contract of sbrk. *)

From Stdlib Require Import ZArith Lia.
From stdpp Require Import base numbers list sets relations.
From S2P Require Import Prelude Mem Mmu Umalloc UmallocFacts.

(** The system call sbrk: it grows the process at its end, or fails. *)
Class SbrkStore (S : Type) `{!SbrkOps S} : Prop :=
  sbrk_grows n m (o : S) r m' o' :
    sbrk n m o = (r, m', o') → 0 < n < 2147483648 → 0 <= usize o <= KERNBASE →
    (∀ x, x < usize o → m' x = m x) ∧
    (r = 0xFFFFFFFF ∧ usize o' = usize o ∨ r = usize o ∧ usize o' = usize o + n ∧ usize o' <= KERNBASE).

Section run.
Context {S : Type} `{!SbrkOps S} `{!SbrkStore S} (base lo : Z).
Implicit Types s : uheap S.
#[local] Notation heap_ok := (heap_ok base lo).

(** ** The search *)

Definition lastp (prevp : Z) (C : list (Z * Z)) : Z := default prevp (last C.*1).

Lemma lastp_cons prevp b C : lastp prevp (b :: C) = lastp b.1 C.
Proof. unfold lastp. rewrite fmap_cons, last_cons. by destruct (last C.*1). Qed.

Lemma search_walk s nunits C p n D e fuel prevp :
  links (u_mem s) (C ++ (p, n) :: D) e →
  Forall (λ b, within s b.1 ∧ b.2 < nunits ∧ b.1 ≠ u_freep s) C →
  search (length C + fuel) nunits prevp (first C p) s = search fuel nunits (lastp prevp C) p s.
Proof.
  revert prevp. induction C as [|b C IH]; intros prevp; [done|]. cbn [app length Nat.add]. rewrite links_cons, Forall_cons.
  intros (H1 & H2 & H3) ((Hw & Hlt & Hne) & HC). assert (Hfc : first (C ++ (p, n) :: D) e = first C p) by (by destruct C). rewrite Hfc in H1.
  cbn [search first]. mcall (uld_size s b.1 Hw). unfold h_size, h_ptr in H1, H2. rewrite H2.
  ztest (b.2 >=? nunits) is false. mrun. ztest (b.1 =? u_freep s) is false. mcall (uld_ptr s b.1 Hw). rewrite H1, IH by done.
  by rewrite lastp_cons.
Qed.

(** The last node walked points to the next one. *)
Lemma lastp_next m prevp C p n D e :
  links m (C ++ (p, n) :: D) e → load32 m (h_ptr prevp) = first C p →
  load32 m (h_ptr (lastp prevp C)) = p.
Proof.
  revert prevp. induction C as [|b C IH]; intros prevp; [done|]. cbn [app]. rewrite links_cons. intros (H1 & _ & H3) _.
  rewrite lastp_cons. apply IH; [done|]. rewrite H1. by destruct C.
Qed.

Lemma lastp_in prevp C (X : list Z) : prevp ∈ X → (∀ b, b ∈ C → b.1 ∈ X) → lastp prevp C ∈ X.
Proof.
  revert prevp. induction C as [|b C IH]; intros prevp Hp HC; [done|]. rewrite lastp_cons. apply IH; [apply HC; by left|].
  intros c Hc. apply HC. by right.
Qed.

Lemma first_fit (l : list (Z * Z)) nunits :
  Forall (λ b, b.2 < nunits) l ∨ ∃ C b D, l = C ++ b :: D ∧ Forall (λ b, b.2 < nunits) C ∧ nunits <= b.2.
Proof.
  induction l as [|b l [IH|(C & c & D & -> & HC & Hc)]]; [by left|..]; destruct (decide (b.2 < nunits)).
  - left. by constructor.
  - right. exists [], b, l. split_and!; [done|constructor|lia].
  - right. exists (b :: C), c, D. split_and!; [done|by constructor|done].
  - right. exists [], b, (C ++ c :: D). split_and!; [done|constructor|lia].
Qed.

(** The ring as [malloc] walks it: from the node after [freep] to [freep]. *)
Lemma ring_from s fs als :
  heap_ok s fs als → ∃ R f, R ++ [f] ≡ₚ (base, 0) :: fs ∧ f.1 = u_freep s ∧
    links (u_mem s) (R ++ [f]) (first (R ++ [f]) base) ∧ load32 (u_mem s) (h_ptr (u_freep s)) = first (R ++ [f]) base ∧
    Forall (λ b, within s b.1 ∧ b.1 ≠ u_freep s) R.
Proof.
  intros Hh. pose proof Hh as [[Hb Hw] Hr Hp Hgap Ht _].
  assert (Hin : u_freep s ∈ ((base, 0) :: fs).*1) by done. apply list_elem_of_fmap in Hin as (f & Ef & Hin).
  apply list_elem_of_split in Hin as (A & B & EL).
  assert (HP : (B ++ A) ++ [f] ≡ₚ (base, 0) :: fs) by (rewrite EL; solve_Permutation).
  assert (HR : links (u_mem s) ((B ++ A) ++ [f]) (first ((B ++ A) ++ [f]) base)).
  { rewrite <- app_assoc. apply links_rotate. rewrite <- app_assoc. cbn [app]. rewrite <- EL. done. }
  exists (B ++ A), f. split_and!; try done.
  - apply links_app in HR as [_ HR]. apply links_cons in HR as (HR & _). cbn in HR. by rewrite <- Ef in HR.
  - pose proof (ring_asc base lo _ ltac:(lia) Hgap) as Hasc. rewrite EL in Hasc. apply pairwise_app in Hasc as (_ & [Ha1 _] & Ha2).
    rewrite Forall_forall in Ha1, Ha2. apply Forall_forall. intros b Hbin.
    assert (within s b.1) by (eapply heap_within; [exact Hh|]; rewrite app_comm_cons, EL; set_solver).
    split; [done|]. rewrite Ef. apply elem_of_app in Hbin as [Hbin|Hbin].
    + specialize (Ha1 b Hbin). cbn in Ha1. lia.
    + specialize (Ha2 b Hbin). apply Forall_cons in Ha2 as [Ha2 _]. cbn in Ha2. lia.
Qed.

(** With a big enough free block the search takes one. *)
Lemma search_fit s fs als nunits fuel :
  heap_ok s fs als → 1 <= nunits → (∃ b, b ∈ fs ∧ nunits <= b.2) → (length fs + 1 < fuel)%nat →
  ∃ q s' fs', search fuel nunits (u_freep s) (load32 (u_mem s) (h_ptr (u_freep s))) s = Done (hadd q 1) s' ∧
    heap_ok s' fs' ((q, nunits) :: als) ∧ u_sys s' = u_sys s ∧ keeps als (u_mem s) (u_mem s') ∧
    total fs' + nunits = total fs ∧ (length fs' <= length fs)%nat.
Proof.
  intros Hh Hn (b & Hb & Hbn) Hfuel. destruct (ring_from s fs als Hh) as (R & f & HP & Hf & HR & Hnext & HRw).
  destruct (first_fit (R ++ [f]) nunits) as [Hall|(C & [p n] & D & E & HC & Hpn)].
  { exfalso. rewrite HP in Hall. rewrite Forall_forall in Hall. specialize (Hall b ltac:(by right)). cbn in Hall. lia. }
  cbn in Hpn. rewrite E in HR, Hnext. assert (Hfc : first (C ++ (p, n) :: D) base = first C p) by (by destruct C). rewrite Hfc in Hnext.
  assert (HCR : ∀ c, c ∈ C → c ∈ R).
  { intros c Hc. destruct D as [|d D _] using rev_ind.
    - apply app_inj_tail in E as [-> _]. done.
    - rewrite app_comm_cons, app_assoc in E. apply app_inj_tail in E as [-> _]. set_solver. }
  assert (Hlen : (length C <= length fs)%nat).
  { apply (f_equal length) in E. rewrite HP in E. rewrite length_app in E. cbn in E. lia. }
  assert (Hin : (p, n) ∈ fs).
  { assert (Hpin : (p, n) ∈ (base, 0) :: fs) by (rewrite <- HP, E; set_solver). apply elem_of_cons in Hpin as [[= -> ->]|]; [lia|done]. }
  replace fuel with (length C + Datatypes.S (fuel - length C - 1))%nat by lia. rewrite Hnext. erewrite search_walk; [|exact HR|].
  2: { rewrite Forall_forall in HC, HRw |- *. intros c Hc. specialize (HC c Hc). destruct (HRw c (HCR c Hc)). done. }
  cbn [search]. mcall (uld_size s p (heap_within base lo s fs als (p, n) Hh ltac:(set_solver))).
  pose proof (links_elem _ _ _ (p, n) HR ltac:(set_solver)) as [Hsz _]. unfold h_size in Hsz. cbn in Hsz. rewrite Hsz.
  ztest (n >=? nunits) is true. eapply take_block_run; try done.
  - apply lastp_in; [apply Hh|]. intros c Hc. assert (c ∈ (base, 0) :: fs) by (rewrite <- HP; set_solver). set_solver.
  - by eapply lastp_next; [exact HR|].
Qed.

(** ** More memory *)

Lemma heap_extend s fs als m' o' :
  heap_ok s fs als → (∀ x, x < usize (u_sys s) → m' x = u_mem s x) → usize (u_sys s) <= usize o' <= KERNBASE →
  heap_ok (UHeap m' (u_freep s) o') fs als ∧ keeps als (u_mem s) m'.
Proof.
  intros Hh Hm Ho. pose proof Hh as [[Hb Hw] Hr Hp Hgap Ht Hals].
  assert (Hk : keeps als (u_mem s) m').
  { intros b x Hb' Hx. apply Hm. destruct Ht as [Ht _]. rewrite Forall_forall in Ht. destruct (Ht b) as (_ & _ & ?); [set_solver|]. lia. }
  split; [|done]. constructor; cbn; try done.
  - unfold within in *. cbn. lia.
  - eapply (links_frame (u_mem s) m' ((base, 0) :: fs)); [|done]. intros b x Hbin Hx. apply Hm.
    pose proof (heap_within base lo s fs als b Hh ltac:(set_solver)) as Hwb. unfold within in Hwb. lia.
  - eapply tiles_grow; [exact Ht|]. lia.
  - eapply keeps_sizes; [exact Hk| |exact Hals]. destruct Ht as [Ht _]. apply Forall_app in Ht as [_ Ht].
    eapply Forall_impl; [exact Ht|]. unfold inside. cbn. tauto.
Qed.

(** A header behind everything in use makes a block of the memory above. *)
Lemma heap_add s fs als hp nu :
  heap_ok s fs als → tiles lo hp (fs ++ als) → 1 <= nu → lo <= hp → stop (hp, nu) <= usize (u_sys s) →
  heap_ok (set_u_mem (store32 (u_mem s) (hp + 4) nu) s) fs ((hp, nu) :: als) ∧ keeps als (u_mem s) (store32 (u_mem s) (hp + 4) nu).
Proof.
  intros Hh Hlow Hnu Hhp Hst. pose proof Hh as [[Hb Hw] Hr Hp Hgap Ht Hals]. unfold stop in Hst. cbn in Hst.
  assert (Hm : at_header hp (u_mem s) (store32 (u_mem s) (hp + 4) nu)) by apply at_header_size.
  assert (Hall : ∀ b, b ∈ (base, 0) :: fs ++ als → b.1 + 8 <= hp ∧ stop b <= hp).
  { intros b [->|Hbin]%elem_of_cons; [unfold stop; cbn; lia|]. destruct Hlow as [Hlow _]. rewrite Forall_forall in Hlow.
    destruct (Hlow b Hbin) as (? & ? & ?). unfold stop in *. lia. }
  assert (Hk : keeps als (u_mem s) (store32 (u_mem s) (hp + 4) nu)).
  { eapply keeps_header; [exact Hm|]. intros b Hbin. right. apply Hall. set_solver. }
  split; [|done]. constructor; cbn; try done.
  - eapply (links_header _ _ ((base, 0) :: fs)); [exact Hm| |exact Hr]. apply Forall_forall. intros b Hbin. left. apply Hall. set_solver.
  - rewrite <- Permutation_middle. apply tiles_cons. split_and!.
    + unfold inside, stop. cbn. lia.
    + apply Forall_forall. intros b Hbin. right. cbn. apply Hall. set_solver.
    + done.
  - constructor.
    + cbn. apply load32_store32_eq. unfold within, KERNBASE in Hw. lia.
    + eapply keeps_sizes; [exact Hk| |exact Hals]. destruct Ht as [Ht _]. apply Forall_app in Ht as [_ Ht].
      eapply Forall_impl; [exact Ht|]. unfold inside. cbn. tauto.
Qed.

Lemma morecore_run s fs als nu fuel :
  heap_ok s fs als → 1 <= nu < 268435456 → (length fs < fuel)%nat →
  let nu' := Z.max 4096 nu in
  ∃ r s', morecore fuel nu s = Done r s' ∧ keeps als (u_mem s) (u_mem s') ∧
    (r = 0 ∧ heap_ok s' fs als ∧ usize (u_sys s') = usize (u_sys s) ∧ (∃ m' o', sbrk (8 * nu') (u_mem s) (u_sys s) = (0xFFFFFFFF, m', o')) ∨
     r = u_freep s' ∧ ∃ fs', heap_ok s' fs' als ∧ total fs' = total fs + nu' ∧ usize (u_sys s') = usize (u_sys s) + 8 * nu' ∧
       (∃ b, b ∈ fs' ∧ nu <= b.2) ∧ (length fs' <= Datatypes.S (length fs))%nat).
Proof.
  cbn zeta. intros Hh Hnu Hfuel. pose proof Hh as [[Hb Hw] Hr Hp Hgap Ht Hals]. unfold morecore.
  replace (if nu <? 4096 then 4096 else nu) with (Z.max 4096 nu) by (case_if; lia). set (nu' := Z.max 4096 nu).
  unfold HEADER. rewrite u32_small by lia. rewrite s32_id by lia. unfold call_sbrk.
  destruct (sbrk (nu' * 8) (u_mem s) (u_sys s)) as [[r m'] o'] eqn:E.
  destruct (sbrk_grows _ _ _ _ _ _ E) as [Hm Hro]; [lia|unfold within in Hw; lia|]. 
  unfold bind at 1. rewrite E.
  destruct Hro as [[-> Ho]|(-> & Ho & Hok)].
  - destruct (heap_extend s fs als m' o' Hh Hm ltac:(unfold within in Hw; lia)) as [Hh' Hk].
    cbn [Z.eqb Pos.eqb]. eexists _, _. split; [reflexivity|]. split; [done|]. left. split_and!; try done.
    exists m', o'. by rewrite Z.mul_comm.
  - destruct (heap_extend s fs als m' o' Hh Hm ltac:(lia)) as [Hh' Hk]. set (s1 := UHeap m' (u_freep s) o') in *.
    assert (Hws : within s1 (usize (u_sys s))) by (unfold within in *; cbn; lia).
    assert (usize (u_sys s) < 4294967295) by (unfold KERNBASE in *; lia). ztest (usize (u_sys s) =? 4294967295) is false. mcall (ust_size s1 (usize (u_sys s)) nu' Hws).
    destruct (heap_add s1 fs als (usize (u_sys s)) nu') as [Hh2 Hk2]; [done..|lia|unfold within in Hw; lia|unfold stop; cbn; lia|].
    edestruct (ufree_run base lo _ fs als (usize (u_sys s)) nu' fuel Hh2 Hfuel) as (s2 & fs' & Hrun & Hh3 & Hsys & Hk3 & Htot & (b & Hbin & Hbn) & Hlen).
    mcall Hrun. eexists _, _. split; [reflexivity|]. split; [eapply keeps_trans; [exact Hk|eapply keeps_trans; [exact Hk2|exact Hk3]]|].
    right. split; [done|]. exists fs'. split_and!; try done; [rewrite Hsys; cbn; lia|]. exists b. split; [done|lia].
Qed.
Lemma heap_freep s fs als : heap_ok s fs als → 0 < u_freep s ∧ within s (u_freep s).
Proof.
  intros Hh. pose proof Hh as [[Hb Hw] _ Hf Hg _ _]. apply elem_of_cons in Hf as [->|(c & -> & Hc)%list_elem_of_fmap]; [lia||by split; [lia|]|].
  split; [|eapply heap_within; [exact Hh|set_solver]]. apply gapped_above in Hg as [Hg _]. rewrite Forall_forall in Hg.
  specialize (Hg c Hc). cbn in Hg. lia.
Qed.

(** Without one it asks for more memory. *)
Lemma search_grow s fs als nunits fuel :
  heap_ok s fs als → 1 <= nunits < 268435456 → Forall (λ b, b.2 < nunits) fs → (length fs + 1 < fuel)%nat →
  search fuel nunits (u_freep s) (load32 (u_mem s) (h_ptr (u_freep s))) s =
  (p <- morecore (fuel - length fs - 1) nunits ;;
   if p =? 0 then ret 0 else next <- uld (h_ptr p) ;; search (fuel - length fs - 1) nunits p next) s.
Proof.
  intros Hh Hn Hall Hfuel. destruct (ring_from s fs als Hh) as (R & [f nf] & HP & Hf & HR & Hnext & HRw). cbn in Hf. subst f.
  assert (Hfc : first (R ++ [(u_freep s, nf)]) base = first R (u_freep s)) by (by destruct R). rewrite Hfc in Hnext.
  assert (Hsm : Forall (λ b, b.2 < nunits) (R ++ [(u_freep s, nf)])) by (rewrite HP; constructor; [cbn; lia|done]).
  apply Forall_app in Hsm as [HsR Hsf]. rewrite Forall_singleton in Hsf. cbn in Hsf.
  assert (Hlen : length R = length fs).
  { apply Permutation_length in HP. rewrite length_app in HP. cbn in HP. lia. }
  replace (search fuel) with (search (S := S) (length R + Datatypes.S (fuel - length fs - 1))) by (f_equal; lia). rewrite Hnext.
  erewrite search_walk; [|exact HR|].
  2: { rewrite Forall_forall in HsR, HRw |- *. intros c Hc. specialize (HsR c Hc). destruct (HRw c Hc). by split_and!. }
  cbn [search]. assert (Hin : (u_freep s, nf) ∈ (base, 0) :: fs) by (rewrite <- HP; set_solver).
  mcall (uld_size s (u_freep s) (heap_within base lo s fs als (u_freep s, nf) Hh ltac:(set_solver))).
  pose proof (links_elem _ _ _ (u_freep s, nf) HR ltac:(set_solver)) as [Hsz _]. unfold h_size in Hsz. cbn in Hsz. rewrite Hsz.
  ztest (nf >=? nunits) is false. mrun. by rewrite Z.eqb_refl.
Qed.

(** ** malloc *)

(** What a call that asks for [nunits] units does: the blocks in use keep their
    bytes, all memory is accounted for, and the result is a new block, or 0 when
    no free block is big enough and the system gives no memory. *)
Definition served (nunits : Z) (fs als : list (Z * Z)) s (r : Z) (fs' als' : list (Z * Z)) s' : Prop :=
  keeps als (u_mem s) (u_mem s') ∧
  8 * (total fs' + total als') - usize (u_sys s') = 8 * (total fs + total als) - usize (u_sys s) ∧
  ((∃ q, r = hadd q 1 ∧ als' = (q, nunits) :: als ∧ (Exists (λ b, nunits <= b.2) fs → u_sys s' = u_sys s)) ∨
   r = 0 ∧ als' = als ∧ fs' = fs ∧ Forall (λ b, b.2 < nunits) fs ∧
     ∃ m m' o', sbrk (8 * Z.max 4096 nunits) m (u_sys s) = (0xFFFFFFFF, m', o')).

Lemma search_run s fs als nunits fuel :
  heap_ok s fs als → 1 <= nunits < 268435456 → (2 * length fs + 4 <= fuel)%nat →
  ∃ r s' fs' als', search fuel nunits (u_freep s) (load32 (u_mem s) (h_ptr (u_freep s))) s = Done r s' ∧
    heap_ok s' fs' als' ∧ served nunits fs als s r fs' als' s' ∧ (length fs' <= Datatypes.S (length fs))%nat.
Proof.
  intros Hh Hn Hfuel. destruct (first_fit fs nunits) as [Hall|(C & b & D & E & _ & Hb)].
  - rewrite (search_grow s fs als nunits fuel Hh Hn Hall) by lia.
    destruct (morecore_run s fs als nunits (fuel - length fs - 1) Hh Hn ltac:(lia)) as (r & s1 & Hrun & Hk & [(-> & Hh1 & Hu & Hs)|(-> & fs1 & Hh1 & Ht & Hu & Hex & Hlen)]).
    + mcall Hrun. exists 0, s1, fs, als. split_and!; try done; [|lia]. split_and!; [done|lia|]. right. split_and!; try done. eauto.
    + mcall Hrun. destruct (heap_freep s1 fs1 als Hh1) as [Hf0 Hf1]. ztest (u_freep s1 =? 0) is false. mcall (uld_ptr s1 (u_freep s1) Hf1).
      destruct (search_fit s1 fs1 als nunits (fuel - length fs - 1) Hh1 ltac:(lia) Hex ltac:(lia)) as (q & s2 & fs2 & Hrun2 & Hh2 & Hs2 & Hk2 & Ht2 & Hl2).
      unfold h_ptr in Hrun2. rewrite Hrun2. exists (hadd q 1), s2, fs2, ((q, nunits) :: als). split_and!; try done; [|lia].
      split_and!; [by eapply keeps_trans|rewrite total_cons, Hs2; cbn; lia|left; exists q; split_and!; try done].
      intros (b & Hb & Hbn)%Exists_exists. rewrite Forall_forall in Hall. specialize (Hall b Hb). cbn in Hall. lia.
  - destruct (search_fit s fs als nunits fuel) as (q & s2 & fs2 & Hrun2 & Hh2 & Hs2 & Hk2 & Ht2 & Hl2); try done; try lia.
    { exists b. split; [rewrite E; set_solver|done]. }
    exists (hadd q 1), s2, fs2, ((q, nunits) :: als). split_and!; try done; [|lia].
    split_and!; [done|rewrite total_cons, Hs2; cbn; lia|left; eauto].
Qed.

(** The heap between calls: in use, or not yet set up. *)
Definition uheap_ok s (fs als : list (Z * Z)) : Prop :=
  heap_ok s fs als ∨ (u_freep s = 0 ∧ fs = [] ∧ als = [] ∧ (0 < base ∧ base + 8 <= lo <= usize (u_sys s)) ∧ within s base).

Lemma units_eq nbytes : 0 <= nbytes <= 2147483632 → units nbytes = (nbytes + 7) / 8 + 1 ∧ 1 <= units nbytes < 268435456 ∧ nbytes <= 8 * (units nbytes - 1).
Proof. intros. unfold units, HEADER. assert (0 <= (nbytes + 7) / 8 < 268435455) by zlia. rewrite (u32_small (nbytes + 8 - 1)), u32_small by (replace (nbytes + 8 - 1) with (nbytes + 7) by lia; lia).
  replace (nbytes + 8 - 1) with (nbytes + 7) by lia. split_and!; zlia. Qed.

Lemma umalloc_run s fs als nbytes fuel :
  uheap_ok s fs als → 0 <= nbytes <= 2147483632 → (2 * length fs + 4 <= fuel)%nat →
  ∃ r s' fs' als', malloc base fuel nbytes s = Done r s' ∧ uheap_ok s' fs' als' ∧ served (units nbytes) fs als s r fs' als' s'.
Proof.
  intros Hh Hb Hfuel. destruct (units_eq nbytes Hb) as (_ & Hu & _). unfold malloc. mrun. destruct Hh as [Hh|(Hf & -> & -> & Hb0 & Hw)].
  - destruct (heap_freep s fs als Hh) as [Hf0 Hf2]. ztest (u_freep s =? 0) is false. mrun. mcall (uld_ptr s (u_freep s) Hf2).
    destruct (search_run s fs als (units nbytes) fuel Hh Hu Hfuel) as (r & s' & fs' & als' & Hrun & Hh' & Hs & _).
    exists r, s', fs', als'. split; [exact Hrun|]. split; [by left|done].
  - rewrite Hf, Z.eqb_refl. mcall (ust_ptr s base base Hw). set (s1 := set_u_mem _ s).
    set (s2 := set_freep base s1). mcall (ust_size s2 base 0 Hw). set (s3 := set_u_mem _ s2).
    assert (Hh : heap_ok s3 [] []).
    { unfold within, KERNBASE in Hw. constructor; cbn; try done; [|first [by left|by split]].
      unfold h_ptr, h_size. rewrite load32_store32_ne, !load32_store32_eq by lia. done. }
    mcall (uld_ptr s3 base Hw).
    destruct (search_run s3 [] [] (units nbytes) fuel Hh Hu Hfuel) as (r & s' & fs' & als' & Hrun & Hh' & Hs & _).
    exists r, s', fs', als'. split; [exact Hrun|]. split; [by left|]. destruct Hs as [_ Hs]. split; [|exact Hs]. intros b x Hb0'. set_solver.
Qed.

(** ** More fuel *)

Lemma find_prev_below fuel fuel' bp p : (fuel <= fuel')%nat → below (S := uheap S) (find_prev fuel bp p) (find_prev fuel' bp p).
Proof. revert fuel' p. induction fuel as [|fuel IH]; intros [|fuel'] p Hf; cbn [find_prev]; below. Qed.

Lemma free_below fuel fuel' ap : (fuel <= fuel')%nat → below (S := uheap S) (free fuel ap) (free fuel' ap).
Proof. intros Hf. unfold free. pose proof find_prev_below. below. Qed.

Lemma morecore_below fuel fuel' nu : (fuel <= fuel')%nat → below (S := uheap S) (morecore fuel nu) (morecore fuel' nu).
Proof. intros Hf. unfold morecore. pose proof free_below. below. Qed.

Lemma search_below fuel fuel' n prevp p : (fuel <= fuel')%nat → below (S := uheap S) (search fuel n prevp p) (search fuel' n prevp p).
Proof.
  revert fuel' prevp p. induction fuel as [|fuel IH]; intros [|fuel'] prevp p Hf; cbn [search]; pose proof morecore_below; below.
Qed.

Lemma malloc_below fuel fuel' nb : (fuel <= fuel')%nat → below (S := uheap S) (malloc base fuel nb) (malloc base fuel' nb).
Proof. intros Hf. unfold malloc. pose proof search_below. below. Qed.

(** ** The calls return *)

Lemma umalloc_returns s fs als nb :
  uheap_ok s fs als → 0 <= nb <= 2147483632 →
  ∃ r s' fs' als', returns (λ fuel, malloc base fuel nb) s r s' ∧ uheap_ok s' fs' als' ∧ served (units nb) fs als s r fs' als' s'.
Proof.
  intros Hh Hn. destruct (umalloc_run s fs als nb (2 * length fs + 4) Hh Hn ltac:(lia)) as (r & s' & fs' & als' & Hrun & Hh' & Hs).
  exists r, s', fs', als'. split; [|done]. exists (2 * length fs + 4)%nat. intros f Hf. by apply (malloc_below _ _ _ Hf).
Qed.

Lemma free_returns s fs als ap n :
  uheap_ok s fs ((ap - 8, n) :: als) → 8 <= ap < 4294967296 →
  ∃ s' fs', returns (λ fuel, free fuel ap) s tt s' ∧ heap_ok s' fs' als ∧ u_sys s' = u_sys s ∧
    keeps als (u_mem s) (u_mem s') ∧ total fs' = total fs + n.
Proof.
  intros [Hh|(_ & _ & ? & _)] Hap; [|done].
  destruct (ufree_run base lo s fs als (ap - 8) n (Datatypes.S (length fs)) Hh ltac:(lia)) as (s' & fs' & Hrun & Hh' & Hu & Hk & Ht & _).
  assert (hadd (ap - 8) 1 = ap) as E by (unfold hadd, HEADER; rewrite u32_small; lia). rewrite E in Hrun.
  exists s', fs'. split_and!; try done. exists (Datatypes.S (length fs)). intros f Hf. by apply (free_below _ _ _ Hf).
Qed.
End run.
