(* ===== verification/UmallocClaims.v ===== *)
(** * The user allocator: theorems

    All sequences of calls of [malloc] and [free] by a program that keeps to its
    areas, over any sbrk that keeps its contract. *)

From Stdlib Require Import ZArith Lia.
From stdpp Require Import base numbers list sets relations.
From S2P Require Import Prelude Mem Mmu Umalloc UmallocFacts UmallocRun.

Section claims.
Context {S : Type} `{!SbrkOps S} `{!SbrkStore S} (base lo : Z).
Implicit Types s : uheap S.
#[local] Notation heap_ok := (heap_ok base lo).
#[local] Notation uheap_ok := (uheap_ok base lo).

(** ** Programs

    A program holds areas, pairs of a pointer and the number of bytes it asked
    for.  It calls [malloc], frees areas, writes to the bytes of its areas and
    grows the process itself; [own] counts the bytes of its own growth. *)

Definition block (a : Z * Z) : Z * Z := (a.1 - 8, units a.2).
Definition apart_areas (a b : Z * Z) : Prop := a.1 + a.2 <= b.1 ∨ b.1 + b.2 <= a.1.

Inductive ustep : uheap S * list (Z * Z) * Z → uheap S * list (Z * Z) * Z → Prop :=
  | u_malloc s live own nb r s' :
      0 <= nb <= 2147483632 → returns (λ fuel, malloc base fuel nb) s r s' →
      ustep (s, live, own) (s', if r =? 0 then live else (r, nb) :: live, own)
  | u_free s l1 a l2 own s' :
      returns (λ fuel, free fuel a.1) s tt s' → ustep (s, l1 ++ a :: l2, own) (s', l1 ++ l2, own)
  | u_write s live own a x v :
      a ∈ live → a.1 <= x < a.1 + a.2 → ustep (s, live, own) (set_u_mem (store8 (u_mem s) x v) s, live, own)
  | u_sbrk s live own n r m' o' :
      0 < n < 2147483648 → sbrk n (u_mem s) (u_sys s) = (r, m', o') →
      ustep (s, live, own) (UHeap m' (u_freep s) o', live, own + (usize o' - usize (u_sys s))).

(** What holds between the steps. *)
Definition uinv (c : uheap S * list (Z * Z) * Z) : Prop :=
  let '(s, live, own) := c in
  ∃ fs, uheap_ok s fs (block <$> live) ∧ 8 * (total fs + total (block <$> live)) + own = usize (u_sys s) - lo ∧
    Forall (λ a, 0 <= a.2 <= 2147483632) live.

Lemma uheap_range s fs als : uheap_ok s fs als → 0 < base ∧ base + 8 <= lo <= usize (u_sys s) ∧ usize (u_sys s) <= KERNBASE.
Proof. intros [[[Hb Hw] _ _ _ _ _]|(_ & _ & _ & Hb & Hw)]; unfold within in Hw; lia. Qed.

Lemma uheap_perm s fs als als' : als ≡ₚ als' → uheap_ok s fs als → uheap_ok s fs als'.
Proof.
  intros HP [Hh|(H1 & H2 & H3 & H4)]; [left; by rewrite <- HP|right]. split_and!; try done; try apply H4. subst als. by apply Permutation_nil_l in HP.
Qed.

Lemma total_perm l l' : l ≡ₚ l' → total l = total l'.
Proof. induction 1; rewrite ?total_cons; lia. Qed.

Lemma heap_write s fs als b x v :
  heap_ok s fs als → b ∈ als → b.1 + 8 <= x < stop b → heap_ok (set_u_mem (store8 (u_mem s) x v) s) fs als.
Proof.
  intros Hh Hb Hx. pose proof Hh as [Hbl Hr Hp Hgap Ht Hals]. constructor; cbn; try done.
  - eapply (links_frame (u_mem s) _ ((base, 0) :: fs)); [|exact Hr]. intros c y Hc Hy. apply store8_ne.
    pose proof (heap_apart base lo s fs als c.1 b Hh ltac:(apply elem_of_cons in Hc as [->|Hc]; set_solver) Hb). unfold stop in *. lia.
  - rewrite Forall_forall in Hals |- *. intros c Hc. transitivity (load32 (u_mem s) (h_size c.1)); [|by apply Hals].
    apply load32_ext. intros i Hi. apply store8_ne. unfold h_size in *. destruct Ht as [Ht Hpw].
    apply pairwise_app in Hpw as (_ & Hpw & _). destruct (decide (b = c)) as [->|Hne]; [lia|].
    pose proof (pairwise_elem off als b c Hpw Hb Hc Hne) as Ho. rewrite Forall_forall in Ht.
    destruct (Ht c) as (_ & ? & _); [set_solver|]. unfold off, stop in *. lia.
Qed.

(** The areas a program holds: in the process, above its data, disjoint. *)
Definition areas_ok s (live : list (Z * Z)) : Prop :=
  Forall (λ a, lo < a.1 ∧ 0 <= a.2 ∧ a.1 + a.2 <= usize (u_sys s)) live ∧ pairwise apart_areas live.

Lemma uheap_areas s fs live :
  uheap_ok s fs (block <$> live) → Forall (λ a, 0 <= a.2 <= 2147483632) live → areas_ok s live.
Proof.
  intros Hh Hl. assert (Ht : tiles lo (usize (u_sys s)) (block <$> live)).
  { destruct Hh as [[_ _ _ _ Ht _]|(_ & _ & E & _)]; [|rewrite E; by repeat constructor].
    destruct Ht as [H1 H2]. apply Forall_app in H1 as [_ H1]. apply pairwise_app in H2 as (_ & H2 & _). by split. }
  clear Hh. unfold areas_ok. induction live as [|a live IH]; [by repeat constructor|].
  apply Forall_cons in Hl as [Ha Hl]. rewrite fmap_cons in Ht. apply tiles_cons in Ht as (Hi & Ho & Ht). destruct (IH Hl Ht) as [IH1 IH2].
  destruct (units_eq a.2 Ha) as (_ & Hu1 & Hu2). unfold inside, stop in Hi. cbn in Hi. split; constructor; try done; [lia|].
  rewrite Forall_forall in Ho, Hl |- *. intros c Hc. specialize (Ho (block c) ltac:(set_solver)). destruct (units_eq c.2 (Hl c Hc)) as (_ & Hv1 & Hv2).
  unfold off, apart_areas, stop, block in *. cbn in *. lia.
Qed.

Lemma block_pointer q nb : 0 <= q → q + 8 < 4294967296 → block (hadd q 1, nb) = (q, units nb) ∧ hadd q 1 ≠ 0.
Proof. intros. unfold block, hadd, HEADER. cbn [fst snd]. rewrite u32_small by lia. split; [f_equal; lia|lia]. Qed.

(** A new block makes a new area. *)
Lemma uheap_new s fs als q n : uheap_ok s fs ((q, n) :: als) → 0 <= q ∧ q + 8 < 4294967296.
Proof.
  intros Hh. pose proof (uheap_range _ _ _ Hh) as Hr. destruct Hh as [[_ _ _ _ [Ht _] _]|(_ & _ & ? & _)]; [|done].
  rewrite Forall_forall in Ht. destruct (Ht (q, n)) as (? & ? & ?); [set_solver|]. unfold stop, KERNBASE in *. cbn in *. lia.
Qed.

Lemma ustep_inv c c' : ustep c c' → uinv c → uinv c'.
Proof.
  destruct 1 as [s live own nb r s' Hnb Hret|s l1 a l2 own s' Hret|s live own a x v Ha Hx|s live own n r m' o' Hn E]; intros (fs & Hh & Htot & Hlive).
  - destruct (umalloc_returns base lo s fs _ nb Hh Hnb) as (r1 & s1 & fs1 & als1 & Hrun & Hh1 & Hk & Ht & Hs).
    destruct (returns_det _ _ _ _ _ _ Hret Hrun) as [<- <-]. exists fs1.
    destruct Hs as [(q & -> & -> & _)|(-> & -> & -> & _)].
    + destruct (uheap_new _ _ _ _ _ Hh1) as [Hq1 Hq2]. destruct (block_pointer q nb Hq1 Hq2) as [Eb Hne].
      ztest (hadd q 1 =? 0) is false. rewrite fmap_cons, Eb. split_and!; [done|lia|by constructor].
    + cbn [Z.eqb]. split_and!; [done|lia|done].
  - assert (HP : block <$> (l1 ++ a :: l2) ≡ₚ (a.1 - 8, units a.2) :: (block <$> (l1 ++ l2))) by (rewrite !fmap_app, fmap_cons, <- Permutation_middle; done).
    apply (uheap_perm _ _ _ _ HP) in Hh. rewrite (total_perm _ _ HP), total_cons in Htot. cbn in Htot.
    destruct (uheap_new _ _ _ _ _ Hh) as [Hq1 Hq2].
    destruct (free_returns base lo s fs _ a.1 _ Hh ltac:(lia)) as (s1 & fs1 & Hrun & Hh1 & Hu & _ & Ht).
    destruct (returns_det _ _ _ _ _ _ Hret Hrun) as [_ <-]. exists fs1. split_and!; [by left|rewrite Hu; lia|].
    apply Forall_app in Hlive as [? [? ?]%Forall_cons]. by apply Forall_app.
  - exists fs. split_and!; [|done|done]. destruct Hh as [Hh|(_ & _ & E & _)]; [left|destruct live; [set_solver|done]].
    rewrite Forall_forall in Hlive. destruct (units_eq a.2 (Hlive a Ha)) as (_ & _ & Hu).
    apply (heap_write s fs _ (block a)); [done|set_solver|]. unfold block, stop. cbn. lia.
  - exists fs. pose proof (uheap_range _ _ _ Hh) as Hr. destruct (sbrk_grows _ _ _ _ _ _ E) as [Hm Ho]; [done|lia|].
    assert (Hoo : usize (u_sys s) <= usize o' <= KERNBASE) by lia. cbn [u_sys]. split_and!; [|lia|done].
    destruct Hh as [Hh|(H1 & H2 & H3 & H4 & H5)]; [left; by eapply heap_extend|right].
    split_and!; try done; try (cbn; lia); unfold within in *; cbn; lia.
Qed.

(** A program starts without blocks and without areas. *)
Definition ustart s : Prop := u_freep s = 0 ∧ usize (u_sys s) = lo ∧ 0 < base ∧ base + 8 <= lo <= KERNBASE.

Lemma uinv_reachable s0 c : ustart s0 → rtc ustep (s0, [], 0) c → uinv c.
Proof.
  intros (Hf & Hu & Hb & Hl) Hr. assert (H0 : uinv (s0, [], 0)).
  { exists []. cbn. split_and!; [|lia|done]. right. unfold within. split_and!; try done; lia. }
  induction Hr as [|c1 c2 c3 H12 _ IH]; [done|]. apply IH. by eapply ustep_inv.
Qed.


(** Without areas and own growth the free list is one block: all of the heap. *)
Lemma gapped_total l : ∀ lo1 hi, gapped lo1 l → Forall (λ b, stop b <= hi) l → l ≠ [] → 8 * total l + Z.of_nat (length l) - 1 <= hi - lo1.
Proof.
  induction l as [|b l IH]; intros lo1 hi Hg Hall Hne; [done|]. destruct Hg as (H1 & H2 & H3). apply Forall_cons in Hall as [Hb Hall]. rewrite total_cons.
  destruct l as [|c l]; [unfold total, stop in *; cbn in *; lia|]. specialize (IH _ _ H3 Hall ltac:(done)). unfold stop in *. cbn [length] in *. lia.
Qed.

Lemma one_block s fs n :
  heap_ok s fs [] → 8 * total fs = usize (u_sys s) - lo → 1 <= n → 8 * n <= usize (u_sys s) - lo → Exists (λ b, n <= b.2) fs.
Proof.
  intros [_ _ _ Hg [Ht _] _] Htot Hn Hs. rewrite app_nil_r in Ht.
  assert (Hne : fs ≠ []) by (intros ->; cbn in Htot; lia).
  pose proof (gapped_total fs lo (usize (u_sys s)) Hg ltac:(eapply Forall_impl; [exact Ht|]; unfold inside; cbn; tauto) Hne) as Hb.
  destruct fs as [|b [|c fs]]; [done|left; cbn in *; lia|cbn [length] in Hb; lia].
Qed.


Definition unchanged (live : list (Z * Z)) s s' : Prop :=
  ∀ a x, a ∈ live → a.1 <= x < a.1 + a.2 → u_mem s' x = u_mem s x.

Lemma keeps_unchanged live s s' :
  keeps (block <$> live) (u_mem s) (u_mem s') → Forall (λ a, 0 <= a.2 <= 2147483632) live → unchanged live s s'.
Proof.
  intros Hk Hl a x Ha Hx. rewrite Forall_forall in Hl. destruct (units_eq a.2 (Hl a Ha)) as (_ & _ & Hu).
  apply (Hk (block a)); [set_solver|]. unfold block, stop. cbn. lia.
Qed.

End claims.

(** ** A process *)

(** A system that grows the process up to 1 MB. *)
#[export] Instance brk_ops : SbrkOps Z := {|
  usize o := o;
  sbrk n m o := if o + n <=? 0x100000 then (o, m, o + n) else (0xFFFFFFFF, m, o)
|}.

#[export] Instance brk_store : SbrkStore Z.
Proof.
  intros n m o r m' o' E Hn Ho. cbn in E, Ho |- *. destruct (Z.leb_spec (o + n) 0x100000); injection E as <- <- <-; (split; [done|]); unfold KERNBASE; lia.
Qed.

Definition uheap0 : uheap Z := UHeap (λ _, 0) 0 0x4000.
Definition uheap1 : uheap Z := state_after uheap0 (malloc 0x100 10 100 uheap0).
Definition uheap2 : uheap Z := state_after uheap1 (malloc 0x100 10 200 uheap1).
Definition uheap3 : uheap Z := state_after uheap2 (free 10 49048 uheap2).

Lemma malloc_demo s nb r s' : malloc 0x100 10 nb s = Done r s' → returns (λ fuel, malloc (S := Z) 0x100 fuel nb) s r s'.
Proof. intros E. exists 10%nat. intros f Hf. by apply (malloc_below _ _ _ _ Hf). Qed.

Lemma uheap_steps : rtc (ustep 0x100) (uheap0, [], 0) (uheap2, [(48840, 200); (49048, 100)], 0) ∧
  rtc (ustep 0x100) (uheap0, [], 0) (uheap3, [(48840, 200)], 0).
Proof.
  assert (H1 : rtc (ustep 0x100) (uheap0, [], 0) (uheap2, [(48840, 200); (49048, 100)], 0)).
  { eapply rtc_l; [apply (u_malloc _ _ _ _ 100 49048 uheap1); [lia|apply malloc_demo, state_after_Done; vm_compute; reflexivity]|].
    eapply rtc_l; [apply (u_malloc _ _ _ _ 200 48840 uheap2); [lia|apply malloc_demo, state_after_Done; vm_compute; reflexivity]|]. done. }
  split; [done|]. eapply rtc_r; [exact H1|]. apply (u_free _ uheap2 [(48840, 200)] (49048, 100) []).
  exists 10%nat. intros f Hf. apply (free_below _ _ _ Hf), state_after_Done. vm_compute. reflexivity.
Qed.

Lemma uheap0_starts : ustart 0x100 0x4000 uheap0.
Proof. unfold ustart, KERNBASE. cbn. lia. Qed.



(** The number of units wraps around: a request of almost 4 GB is served like
    one of 0 bytes, by a block without any. *)
Lemma malloc_wraps base fuel nb (s : uheap Z) :
  4294967289 <= nb < 4294967296 → malloc base fuel nb s = malloc base fuel 0 s ∧ units nb = 1.
Proof.
  intros H. assert (Hu : units nb = 1).
  { unfold units, HEADER. assert (0 <= u32 (nb + 8 - 1) < 7) by (unfold u32; zlia). rewrite (Z.div_small (u32 (nb + 8 - 1)) 8) by lia. done. }
  split; [|done]. unfold malloc. by rewrite Hu.
Qed.
