(* ===== verification/Proc.v ===== *)
(** * Processes (proc.c, proc.h)

    The process table, the operations on it, and the scheduler.  A process is
    its index in [ptable.proc].  Kernel stacks, trap frames and contexts are in
    the memory of [Kalloc.v].  A context switch ends a run: [yield], [sleep] and
    the scheduler's loop body are each split at their call of [swtch] into the
    part before and the part after.  The file system is used through the class
    [FileOps]. *)

From Stdlib Require Import ZArith Lia String.
From stdpp Require Import base numbers list strings.
From S2P Require Import Prelude Mem Mmu Kalloc Vm Spinlock Printf.

Definition NPROC : nat := 64.
Definition NOFILE : nat := 16.
Definition KSTACKSIZE : Z := 4096.
Definition SEG_UCODE : Z := 3.
Definition SEG_UDATA : Z := 4.
Definition DPL_USER : Z := 3.
Definition FL_IF : Z := 0x200.

Inductive procstate : Type := UNUSED | EMBRYO | SLEEPING | RUNNABLE | RUNNING | ZOMBIE.

#[export] Instance procstate_eq_dec : EqDecision procstate.
Proof. solve_decision. Defined.

Record proc : Type := Proc {
  pr_sz : Z;
  pr_pgdir : Z;
  pr_kstack : Z;
  pr_state : procstate;
  pr_pid : Z;
  pr_parent : option nat;
  pr_tf : Z;
  pr_context : Z;
  pr_chan : Z;
  pr_killed : bool;
  pr_ofile : list (option nat);
  pr_cwd : option nat;
  pr_name : list Z
}.

Definition proc0 : proc := Proc 0 0 0 UNUSED 0 None 0 0 0 false (replicate NOFILE None) None [].

Definition set_sz v p := Proc v (pr_pgdir p) (pr_kstack p) (pr_state p) (pr_pid p) (pr_parent p) (pr_tf p) (pr_context p) (pr_chan p) (pr_killed p) (pr_ofile p) (pr_cwd p) (pr_name p).
Definition set_pgdir v p := Proc (pr_sz p) v (pr_kstack p) (pr_state p) (pr_pid p) (pr_parent p) (pr_tf p) (pr_context p) (pr_chan p) (pr_killed p) (pr_ofile p) (pr_cwd p) (pr_name p).
Definition set_kstack v p := Proc (pr_sz p) (pr_pgdir p) v (pr_state p) (pr_pid p) (pr_parent p) (pr_tf p) (pr_context p) (pr_chan p) (pr_killed p) (pr_ofile p) (pr_cwd p) (pr_name p).
Definition set_state v p := Proc (pr_sz p) (pr_pgdir p) (pr_kstack p) v (pr_pid p) (pr_parent p) (pr_tf p) (pr_context p) (pr_chan p) (pr_killed p) (pr_ofile p) (pr_cwd p) (pr_name p).
Definition set_pid v p := Proc (pr_sz p) (pr_pgdir p) (pr_kstack p) (pr_state p) v (pr_parent p) (pr_tf p) (pr_context p) (pr_chan p) (pr_killed p) (pr_ofile p) (pr_cwd p) (pr_name p).
Definition set_parent v p := Proc (pr_sz p) (pr_pgdir p) (pr_kstack p) (pr_state p) (pr_pid p) v (pr_tf p) (pr_context p) (pr_chan p) (pr_killed p) (pr_ofile p) (pr_cwd p) (pr_name p).
Definition set_tf v p := Proc (pr_sz p) (pr_pgdir p) (pr_kstack p) (pr_state p) (pr_pid p) (pr_parent p) v (pr_context p) (pr_chan p) (pr_killed p) (pr_ofile p) (pr_cwd p) (pr_name p).
Definition set_context v p := Proc (pr_sz p) (pr_pgdir p) (pr_kstack p) (pr_state p) (pr_pid p) (pr_parent p) (pr_tf p) v (pr_chan p) (pr_killed p) (pr_ofile p) (pr_cwd p) (pr_name p).
Definition set_chan v p := Proc (pr_sz p) (pr_pgdir p) (pr_kstack p) (pr_state p) (pr_pid p) (pr_parent p) (pr_tf p) (pr_context p) v (pr_killed p) (pr_ofile p) (pr_cwd p) (pr_name p).
Definition set_killed v p := Proc (pr_sz p) (pr_pgdir p) (pr_kstack p) (pr_state p) (pr_pid p) (pr_parent p) (pr_tf p) (pr_context p) (pr_chan p) v (pr_ofile p) (pr_cwd p) (pr_name p).
Definition set_ofile v p := Proc (pr_sz p) (pr_pgdir p) (pr_kstack p) (pr_state p) (pr_pid p) (pr_parent p) (pr_tf p) (pr_context p) (pr_chan p) (pr_killed p) v (pr_cwd p) (pr_name p).
Definition set_cwd v p := Proc (pr_sz p) (pr_pgdir p) (pr_kstack p) (pr_state p) (pr_pid p) (pr_parent p) (pr_tf p) (pr_context p) (pr_chan p) (pr_killed p) (pr_ofile p) v (pr_name p).
Definition set_name v p := Proc (pr_sz p) (pr_pgdir p) (pr_kstack p) (pr_state p) (pr_pid p) (pr_parent p) (pr_tf p) (pr_context p) (pr_chan p) (pr_killed p) (pr_ofile p) (pr_cwd p) v.

(** What proc.c calls of file.c, fs.c and log.c, on their state [F]. *)
Class FileOps (F : Type) : Type := {
  fo_filedup : nat → M F unit;
  fo_fileclose : nat → M F unit;
  fo_idup : nat → M F unit;
  fo_iput : nat → M F unit;
  fo_begin_op : M F unit;
  fo_end_op : M F unit;
  fo_namei_root : M F (option nat);
  fo_init : M F unit
}.

(** The state seen by the code of one CPU; [cproc] is [mycpu()->proc] and
    [esp0] the stack pointer in its task state; [first] is the static variable
    of [forkret]. *)
Record kstate {F : Type} : Type := KState {
  k_m : machine;
  k_cpu : cpu;
  cproc : option nat;
  esp0 : Z;
  pt_lock : bool;
  procs : list proc;
  nextpid : Z;
  initproc : option nat;
  first : bool;
  k_fs : F
}.
#[global] Arguments kstate F : clear implicits.
#[global] Arguments KState {F}.

Section state.
Context {F : Type}.
Definition set_k_m m (s : kstate F) := KState m (k_cpu s) (cproc s) (esp0 s) (pt_lock s) (procs s) (nextpid s) (initproc s) (first s) (k_fs s).
Definition set_k_cpu c (s : kstate F) := KState (k_m s) c (cproc s) (esp0 s) (pt_lock s) (procs s) (nextpid s) (initproc s) (first s) (k_fs s).
Definition set_cproc c (s : kstate F) := KState (k_m s) (k_cpu s) c (esp0 s) (pt_lock s) (procs s) (nextpid s) (initproc s) (first s) (k_fs s).
Definition set_esp0 v (s : kstate F) := KState (k_m s) (k_cpu s) (cproc s) v (pt_lock s) (procs s) (nextpid s) (initproc s) (first s) (k_fs s).
Definition set_pt_lock b (s : kstate F) := KState (k_m s) (k_cpu s) (cproc s) (esp0 s) b (procs s) (nextpid s) (initproc s) (first s) (k_fs s).
Definition set_procs l (s : kstate F) := KState (k_m s) (k_cpu s) (cproc s) (esp0 s) (pt_lock s) l (nextpid s) (initproc s) (first s) (k_fs s).
Definition set_nextpid n (s : kstate F) := KState (k_m s) (k_cpu s) (cproc s) (esp0 s) (pt_lock s) (procs s) n (initproc s) (first s) (k_fs s).
Definition set_initproc i (s : kstate F) := KState (k_m s) (k_cpu s) (cproc s) (esp0 s) (pt_lock s) (procs s) (nextpid s) i (first s) (k_fs s).
Definition set_first b (s : kstate F) := KState (k_m s) (k_cpu s) (cproc s) (esp0 s) (pt_lock s) (procs s) (nextpid s) (initproc s) b (k_fs s).
Definition set_k_fs (f : F) (s : kstate F) : kstate F := KState (k_m s) (k_cpu s) (cproc s) (esp0 s) (pt_lock s) (procs s) (nextpid s) (initproc s) (first s) f.
End state.

(** ** Operations on the table *)

Definition upd_proc (i : nat) (f : proc → proc) (l : list proc) : list proc := alter f i l.
Definition get_proc (i : nat) (l : list proc) : proc := default proc0 (l !! i).

(** [wakeup1], given the channel. *)
Definition wake (chan : Z) (p : proc) : proc :=
  if bool_decide (pr_state p = SLEEPING) && (pr_chan p =? chan) then set_state RUNNABLE p else p.
Definition wakeup1 (chan : Z) (l : list proc) : list proc := wake chan <$> l.

(** The first slot from [i] on in a given state. *)
Fixpoint find_proc (f : proc → bool) (i : nat) (l : list proc) : option nat :=
  match l with
  | [] => None
  | p :: l' => if f p then Some i else find_proc f (S i) l'
  end.

Section proc.
Context {F : Type} `{!FileOps F}.
(** [kend] and [kdata] are linker symbols, [ptable_proc] the address of the
    table, [forkret] and [trapret] code addresses. *)
Context (kend kdata ptable_proc forkret_addr trapret_addr : Z).

Definition on_m {A} (m : M machine A) : M (kstate F) A := lift k_m set_k_m m.
Definition on_c {A} (m : M cpu A) : M (kstate F) A := lift k_cpu set_k_cpu m.
Definition on_fs {A} (m : M F A) : M (kstate F) A := lift k_fs set_k_fs m.
Definition upd (i : nat) (f : proc → proc) : M (kstate F) unit :=
  modify (λ s, set_procs (upd_proc i f (procs s)) s).

(** The address of a process structure, used as a channel. *)
Definition proc_addr (i : nat) : Z := ptable_proc + 124 * Z.of_nat i.
Definition proc_ptr (p : option nat) : Z := match p with Some i => proc_addr i | None => 0 end.

(** [acquire(&ptable.lock)] and [release(&ptable.lock)], with their effect on
    the interrupt state of the CPU. *)
Definition pt_acquire : M (kstate F) unit :=
  on_c pushcli ;;;
  acquire pt_lock set_pt_lock.
Definition pt_release : M (kstate F) unit :=
  release pt_lock set_pt_lock ;;;
  on_c popcli.

Definition myproc : M (kstate F) (option nat) :=
  on_c pushcli ;;;
  p <- gets cproc ;;
  on_c popcli ;;;
  ret p.

(** Dereferencing [myproc()]. *)
Definition curproc : M (kstate F) nat :=
  p <- myproc ;;
  match p with Some i => ret i | None => fault end.

Definition allocproc : M (kstate F) (option nat) :=
  pt_acquire ;;;
  l <- gets procs ;;
  match find_proc (λ p, bool_decide (pr_state p = UNUSED)) 0 l with
  | None => pt_release ;;; ret None
  | Some i =>
      upd i (set_state EMBRYO) ;;;
      n <- gets nextpid ;;
      upd i (set_pid n) ;;;
      modify (set_nextpid (s32 (n + 1))) ;;;
      pt_release ;;;
      ks <- on_m kalloc ;;
      upd i (set_kstack ks) ;;;
      if ks =? 0 then upd i (set_state UNUSED) ;;; ret None
      else
        let tf := ks + KSTACKSIZE - 76 in
        upd i (set_tf tf) ;;;
        on_m (st32 (tf - 4) trapret_addr) ;;;
        let context := tf - 4 - 20 in
        upd i (set_context context) ;;;
        on_m (memset_at context 0 20) ;;;
        on_m (st32 (context + 16) forkret_addr) ;;;
        ret (Some i)
  end.

(** A 16-bit store. *)
Definition st16 (a v : Z) : M machine unit :=
  modify (λ s, set_ram (store8 (store8 (ram s) a v) (a + 1) (Z.shiftr v 8)) s).

(** [initcode] and its size are linker symbols. *)
Definition userinit (initcode initcode_size : Z) : M (kstate F) unit :=
  p <- allocproc ;;
  modify (set_initproc p) ;;;
  match p with
  | None => fault
  | Some i =>
      d <- on_m (setupkvm kend kdata) ;;
      upd i (set_pgdir d) ;;;
      if d =? 0 then panic "userinit: out of memory?"
      else
        on_m (inituvm d initcode initcode_size) ;;;
        upd i (set_sz PGSIZE) ;;;
        tf <- gets (λ s, pr_tf (get_proc i (procs s))) ;;
        on_m (memset_at tf 0 76) ;;;
        let cs := Z.lor (Z.shiftl SEG_UCODE 3) DPL_USER in
        let ds := Z.lor (Z.shiftl SEG_UDATA 3) DPL_USER in
        on_m (st16 (tf + 60) cs) ;;;
        on_m (st16 (tf + 44) ds) ;;;
        on_m (st16 (tf + 40) ds) ;;;
        on_m (st16 (tf + 72) ds) ;;;
        on_m (st32 (tf + 64) FL_IF) ;;;
        on_m (st32 (tf + 68) PGSIZE) ;;;
        on_m (st32 (tf + 56) 0) ;;;
        upd i (set_name (codes "initcode")) ;;;
        cwd <- on_fs fo_namei_root ;;
        upd i (set_cwd cwd) ;;;
        pt_acquire ;;;
        upd i (set_state RUNNABLE) ;;;
        pt_release
  end.

Definition switchuvm (i : nat) : M (kstate F) unit :=
  p <- gets (λ s, get_proc i (procs s)) ;;
  if pr_kstack p =? 0 then panic "switchuvm: no kstack"
  else if pr_pgdir p =? 0 then panic "switchuvm: no pgdir"
  else
    on_c pushcli ;;;
    modify (set_esp0 (u32 (pr_kstack p + KSTACKSIZE))) ;;;
    on_m (modify (set_cr3 (V2P (pr_pgdir p)))) ;;;
    on_c popcli.

Definition growproc (n : Z) : M (kstate F) Z :=
  i <- curproc ;;
  p <- gets (λ s, get_proc i (procs s)) ;;
  sz <- (if n >? 0 then on_m (allocuvm kend (pr_pgdir p) (pr_sz p) (u32 (pr_sz p + n)))
         else if n <? 0 then on_m (deallocuvm kend (pr_pgdir p) (pr_sz p) (u32 (pr_sz p + n)))
         else ret (pr_sz p)) ;;
  if negb (n =? 0) && (sz =? 0) then ret (-1)
  else
    upd i (set_sz sz) ;;;
    switchuvm i ;;;
    ret 0.

(** The loop of [fork] over the open files. *)
Fixpoint fork_files (files : list (option nat)) (fd np : nat) : M (kstate F) unit :=
  match files with
  | [] => ret tt
  | f :: files' =>
      match f with
      | Some x => on_fs (fo_filedup x) ;;; upd np (λ p, set_ofile (<[fd := Some x]> (pr_ofile p)) p)
      | None => ret tt
      end ;;;
      fork_files files' (S fd) np
  end.

Definition fork : M (kstate F) Z :=
  i <- curproc ;;
  p <- allocproc ;;
  match p with
  | None => ret (-1)
  | Some np =>
      cur <- gets (λ s, get_proc i (procs s)) ;;
      d <- on_m (copyuvm kend kdata (pr_pgdir cur) (pr_sz cur)) ;;
      upd np (set_pgdir d) ;;;
      if d =? 0 then
        ks <- gets (λ s, pr_kstack (get_proc np (procs s))) ;;
        on_m (kfree kend ks) ;;;
        upd np (set_kstack 0) ;;;
        upd np (set_state UNUSED) ;;;
        ret (-1)
      else
        upd np (set_sz (pr_sz cur)) ;;;
        upd np (set_parent (Some i)) ;;;
        tf <- gets (λ s, pr_tf (get_proc np (procs s))) ;;
        on_m (memmove_at tf (pr_tf cur) 76) ;;;
        on_m (st32 (tf + 28) 0) ;;;
        fork_files (pr_ofile cur) 0 np ;;;
        match pr_cwd cur with
        | Some ip => on_fs (fo_idup ip)
        | None => fault
        end ;;;
        upd np (set_cwd (pr_cwd cur)) ;;;
        upd np (set_name (take 15 (pr_name cur))) ;;;
        pid <- gets (λ s, pr_pid (get_proc np (procs s))) ;;
        pt_acquire ;;;
        upd np (set_state RUNNABLE) ;;;
        pt_release ;;;
        ret pid
  end.

(** The checks of [sched], up to its [swtch]; the result is the saved [intena]. *)
Definition sched : M (kstate F) bool :=
  i <- curproc ;;
  h <- gets pt_lock ;;
  c <- gets k_cpu ;;
  p <- gets (λ s, get_proc i (procs s)) ;;
  if negb h then panic "sched ptable.lock"
  else if negb (ncli c =? 1) then panic "sched locks"
  else if bool_decide (pr_state p = RUNNING) then panic "sched running"
  else if eflags_if c then panic "sched interruptible"
  else ret (intena c).

(** The end of [sched], when the process runs again. *)
Definition sched_resume (saved : bool) : M (kstate F) unit :=
  on_c (modify (λ c, Cpu (ncli c) saved (eflags_if c))).

(** [exit], up to its last context switch. *)
Fixpoint exit_files (fuel fd : nat) (i : nat) : M (kstate F) unit :=
  match fuel with
  | O => ret tt
  | S fuel' =>
      f <- gets (λ s, default None (pr_ofile (get_proc i (procs s)) !! fd)) ;;
      match f with
      | Some x => on_fs (fo_fileclose x) ;;; upd i (λ p, set_ofile (<[fd := None]> (pr_ofile p)) p)
      | None => ret tt
      end ;;;
      exit_files fuel' (S fd) i
  end.

(** The loop that passes the children of [i] to init, from slot [k] on. *)
Fixpoint reparent (fuel k i : nat) (init : option nat) (l : list proc) : list proc :=
  match fuel with
  | O => l
  | S fuel' =>
      let p := get_proc k l in
      let l' :=
        if bool_decide (pr_parent p = Some i) then
          let l1 := upd_proc k (set_parent init) l in
          if bool_decide (pr_state p = ZOMBIE) then wakeup1 (proc_ptr init) l1 else l1
        else l in
      reparent fuel' (S k) i init l'
  end.

(** The part of [exit] under [ptable.lock]. *)
Definition exit_locked (i : nat) (init : option nat) (l : list proc) : list proc :=
  let l1 := wakeup1 (proc_ptr (pr_parent (get_proc i l))) l in
  upd_proc i (set_state ZOMBIE) (reparent NPROC 0 i init l1).

Definition exit : M (kstate F) bool :=
  i <- curproc ;;
  init <- gets initproc ;;
  if bool_decide (Some i = init) then panic "init exiting"
  else
    exit_files NOFILE 0 i ;;;
    on_fs fo_begin_op ;;;
    cwd <- gets (λ s, pr_cwd (get_proc i (procs s))) ;;
    match cwd with Some ip => on_fs (fo_iput ip) | None => fault end ;;;
    on_fs fo_end_op ;;;
    upd i (set_cwd None) ;;;
    pt_acquire ;;;
    modify (λ s, set_procs (exit_locked i init (procs s)) s) ;;;
    sched.

(** The scan of [wait] for an exited child, from slot [k] on: the child found,
    or whether there was a child at all. *)
Fixpoint wait_scan (i k : nat) (l : list proc) (havekids : bool) : option nat * bool :=
  match l with
  | [] => (None, havekids)
  | p :: l' =>
      if bool_decide (pr_parent p = Some i) then
        if bool_decide (pr_state p = ZOMBIE) then (Some k, true) else wait_scan i (S k) l' true
      else wait_scan i (S k) l' havekids
  end.

(** Releasing the slot of an exited child. *)
Definition reap (p : proc) : proc :=
  set_state UNUSED (set_killed false (set_name [] (set_parent None (set_pid 0 (set_kstack 0 p))))).

(** One pass of the loop of [wait], with the lock held: the pid, -1, or [None]
    when it is to sleep on its own structure. *)
Definition wait_pass (i : nat) : M (kstate F) (option Z) :=
  l <- gets procs ;;
  let '(child, havekids) := wait_scan i 0 l false in
  match child with
  | Some k =>
      let p := get_proc k l in
      on_m (kfree kend (pr_kstack p)) ;;;
      on_m (freevm kend (pr_pgdir p)) ;;;
      upd k reap ;;;
      pt_release ;;;
      ret (Some (pr_pid p))
  | None =>
      if negb havekids || pr_killed (get_proc i l) then pt_release ;;; ret (Some (-1))
      else ret None
  end.

(** [sleep(chan, lk)], up to the context switch; [lk] is [None] for
    [ptable.lock] itself, otherwise the release of the lock. *)
Definition sleep_enter (chan : Z) (lk : option (M (kstate F) unit)) : M (kstate F) bool :=
  p <- myproc ;;
  match p with
  | None => panic "sleep"
  | Some i =>
      match lk with
      | Some rel => pt_acquire ;;; rel
      | None => ret tt
      end ;;;
      upd i (set_chan chan) ;;;
      upd i (set_state SLEEPING) ;;;
      sched
  end.

(** The rest of [sleep]; [lk] is the acquisition of the lock. *)
Definition sleep_resume (saved : bool) (lk : option (M (kstate F) unit)) : M (kstate F) unit :=
  sched_resume saved ;;;
  i <- curproc ;;
  upd i (set_chan 0) ;;;
  match lk with
  | Some acq => pt_release ;;; acq
  | None => ret tt
  end.

(** [wait]: [None] means that it sleeps on [curproc] until a child exits, and
    then runs [wait_pass] again. *)
Definition wait : M (kstate F) (option Z) :=
  i <- curproc ;;
  pt_acquire ;;;
  r <- wait_pass i ;;
  match r with
  | Some v => ret (Some v)
  | None => sleep_enter (proc_addr i) None ;;; ret None
  end.

Definition wait_resume (saved : bool) : M (kstate F) (option Z) :=
  sleep_resume saved None ;;;
  i <- curproc ;;
  r <- wait_pass i ;;
  match r with
  | Some v => ret (Some v)
  | None => sleep_enter (proc_addr i) None ;;; ret None
  end.

Definition yield_enter : M (kstate F) bool :=
  pt_acquire ;;;
  i <- curproc ;;
  upd i (set_state RUNNABLE) ;;;
  sched.

Definition yield_resume (saved : bool) : M (kstate F) unit :=
  sched_resume saved ;;;
  pt_release.

Definition wakeup (chan : Z) : M (kstate F) unit :=
  pt_acquire ;;;
  modify (λ s, set_procs (wakeup1 chan (procs s)) s) ;;;
  pt_release.

(** The effect of [kill] on the process it finds. *)
Definition kill1 (p : proc) : proc :=
  let p' := set_killed true p in
  if bool_decide (pr_state p' = SLEEPING) then set_state RUNNABLE p' else p'.

Definition kill (pid : Z) : M (kstate F) Z :=
  pt_acquire ;;;
  l <- gets procs ;;
  match find_proc (λ p, pr_pid p =? pid) 0 l with
  | Some i => upd i kill1 ;;; pt_release ;;; ret 0
  | None => pt_release ;;; ret (-1)
  end.

(** The scheduler's loop body for slot [i], up to the switch to the process: the
    result is whether the process was runnable. *)
Definition schedule (i : nat) : M (kstate F) bool :=
  p <- gets (λ s, get_proc i (procs s)) ;;
  if negb (bool_decide (pr_state p = RUNNABLE)) then ret false
  else
    modify (set_cproc (Some i)) ;;;
    switchuvm i ;;;
    upd i (set_state RUNNING) ;;;
    ret true.

(** The rest of the body, when the process has switched back. *)
Definition schedule_resume : M (kstate F) unit :=
  on_m switchkvm ;;;
  modify (set_cproc None).

(** A new process starts here, with the lock still held from the scheduler. *)
Definition forkret : M (kstate F) unit :=
  pt_release ;;;
  f <- gets first ;;
  when f (modify (set_first false) ;;; on_fs fo_init).
End proc.
