(* ===== verification/ProcFacts.v ===== *)
(** * The process table under concurrency

    The parts of the operations of [Proc.v] that run under [ptable.lock], as
    steps of a system of several CPUs, and the invariant of the table: which
    process runs where, process identifiers, and the process tree. *)

From Stdlib Require Import ZArith Lia.
From stdpp Require Import base numbers list strings relations.
From S2P Require Import Prelude Proc.

(** ** Slots of the table *)

Definition st (l : list proc) (i : nat) : procstate := pr_state (get_proc i l).

Lemma get_upd i f l j : (i < length l)%nat →
  get_proc j (upd_proc i f l) = if decide (j = i) then f (get_proc i l) else get_proc j l.
Proof.
  intros Hi. unfold get_proc, upd_proc. case_decide as Hj; [subst j|by rewrite list_lookup_alter_ne].
  rewrite list_lookup_alter_eq. apply lookup_lt_is_Some in Hi as [p Hp]. by rewrite Hp.
Qed.

Lemma get_wakeup1 chan l j : get_proc j (wakeup1 chan l) = wake chan (get_proc j l).
Proof. unfold get_proc, wakeup1. rewrite list_lookup_fmap. by destruct (l !! j). Qed.

Lemma length_upd i f l : length (upd_proc i f l) = length l.
Proof. apply length_alter. Qed.
Lemma length_wakeup1 chan l : length (wakeup1 chan l) = length l.
Proof. apply length_fmap. Qed.

Lemma live_in_range l i : st l i ≠ UNUSED → (i < length l)%nat.
Proof.
  unfold st, get_proc. intros H. apply lookup_lt_is_Some. by destruct (l !! i).
Qed.

(** [woken p p']: at most, a sleeping process has become runnable. *)
Definition woken (p p' : proc) : Prop :=
  pr_pid p' = pr_pid p ∧ pr_parent p' = pr_parent p ∧
  (pr_state p' = pr_state p ∨ pr_state p = SLEEPING ∧ pr_state p' = RUNNABLE).

Lemma wake_woken chan p : woken p (wake chan p).
Proof.
  unfold wake, woken. destruct (_ && _) eqn:E; [|auto]. apply andb_true_iff in E as [E _].
  apply bool_decide_eq_true in E. auto.
Qed.

Lemma woken_trans p1 p2 p3 : woken p1 p2 → woken p2 p3 → woken p1 p3.
Proof. intros (? & ? & [?|[? ?]]) (? & ? & [?|[? ?]]); split_and!; try congruence; intuition congruence. Qed.

Section tree.
Context (ptable_proc : Z).

(** What [reparent] does to a slot. *)
Definition reparented (i : nat) (init : option nat) (p p' : proc) : Prop :=
  pr_pid p' = pr_pid p ∧
  pr_parent p' = (if decide (pr_parent p = Some i) then init else pr_parent p) ∧
  (pr_state p' = pr_state p ∨ pr_state p = SLEEPING ∧ pr_state p' = RUNNABLE).

Lemma reparent_spec n k i init l : init ≠ Some i → (k + n <= length l)%nat →
  length (reparent ptable_proc n k i init l) = length l ∧
  ∀ j, if decide (k <= j < k + n)%nat
    then reparented i init (get_proc j l) (get_proc j (reparent ptable_proc n k i init l))
    else woken (get_proc j l) (get_proc j (reparent ptable_proc n k i init l)).
Proof.
  intros Hinit. revert k l. induction n as [|n IH]; intros k l Hk; cbn [reparent].
  - split; [done|]. intros j. case_decide; [lia|]. by split_and!; auto.
  - set (l' := if bool_decide _ then _ else l).
    assert (Hl' : length l' = length l ∧ (∀ j, j ≠ k → woken (get_proc j l) (get_proc j l')) ∧
      reparented i init (get_proc k l) (get_proc k l')).
    { unfold l'. case_bool_decide as Hp.
      - case_bool_decide as Hz.
        + rewrite length_wakeup1, length_upd. split_and!; [done| |].
          * intros j Hj. rewrite get_wakeup1, get_upd by lia. case_decide; [done|]. apply wake_woken.
          * rewrite get_wakeup1, get_upd by lia. case_decide; [|done].
            destruct (wake_woken (proc_ptr ptable_proc init) (set_parent init (get_proc k l))) as (H1 & H2 & H3).
            unfold reparented. rewrite H1, H2. case_decide; [|done]. done.
        + rewrite length_upd. split_and!; [done| |].
          * intros j Hj. rewrite get_upd by lia. case_decide; [done|]. by split_and!; auto.
          * rewrite get_upd by lia. case_decide; [|done]. unfold reparented. case_decide; [|done]. by split_and!; auto.
      - split_and!; [done|intros; by split_and!; auto|].
        unfold reparented. case_decide; [done|]. by split_and!; auto. }
    destruct Hl' as (Hlen & Hoth & Hme).
    destruct (IH (S k) l') as [IHl IHj]; [lia|]. split; [lia|]. intros j. specialize (IHj j).
    destruct (decide (j = k)) as [->|Hj].
    + rewrite decide_True by lia. rewrite decide_False in IHj by lia.
      destruct Hme as (H1 & H2 & H3), IHj as (H4 & H5 & H6). unfold reparented.
      split_and!; [congruence|congruence|]. intuition congruence.
    + specialize (Hoth j Hj). case_decide as Hr.
      * rewrite decide_True by lia. destruct Hoth as (H1 & H2 & H3), IHj as (H4 & H5 & H6).
        unfold reparented. rewrite H2 in H5. split_and!; [congruence|done|]. intuition congruence.
      * rewrite decide_False by lia. by eapply woken_trans.
Qed.

Lemma exit_locked_eq i init l : ∃ l1, exit_locked ptable_proc i init l =
    upd_proc i (set_state ZOMBIE) (reparent ptable_proc NPROC 0 i init l1) ∧
  length l1 = length l ∧ ∀ j, woken (get_proc j l) (get_proc j l1).
Proof.
  eexists. split; [done|]. split; [apply length_wakeup1|]. intros j. rewrite get_wakeup1. apply wake_woken.
Qed.

(** The table after the exit of [i]. *)
Definition exited (i : nat) (init : option nat) (l l' : list proc) : Prop :=
  length l' = length l ∧ st l' i = ZOMBIE ∧ pr_pid (get_proc i l') = pr_pid (get_proc i l) ∧
  pr_parent (get_proc i l') = (if decide (pr_parent (get_proc i l) = Some i) then init else pr_parent (get_proc i l)) ∧
  ∀ j, j ≠ i → (j < length l)%nat → reparented i init (get_proc j l) (get_proc j l').

Lemma exit_zombie i init l l2 : (i < length l)%nat → length l2 = length l →
  (∀ j, (j < length l)%nat → reparented i init (get_proc j l) (get_proc j l2)) →
  exited i init l (upd_proc i (set_state ZOMBIE) l2).
Proof.
  intros Hi Hl Hrep. unfold exited, st. rewrite length_upd, get_upd, decide_True by (lia || done).
  destruct (Hrep i Hi) as (H1 & H2 & H3). split_and!; [done..|].
  intros j Hne Hjl. rewrite get_upd, (decide_False (P := j = i)) by lia. by apply Hrep.
Qed.

Lemma exit_locked_spec i init l : init ≠ Some i → st l i = RUNNING → length l = NPROC →
  exited i init l (exit_locked ptable_proc i init l).
Proof.
  intros Hinit Hrun Hlen. destruct (exit_locked_eq i init l) as (l1 & -> & Hl1 & Hg).
  assert (Hi : (i < length l)%nat) by (apply live_in_range; by rewrite Hrun).
  destruct (reparent_spec NPROC 0 i init l1 Hinit) as [Hl Hj]; [by rewrite Hl1, Hlen|].
  apply exit_zombie; [done|congruence|].
  intros j Hjl. specialize (Hj j). rewrite decide_True in Hj by (rewrite <- Hlen; lia).
  destruct Hj as (H1 & H2 & H3), (Hg j) as (H4 & H5 & H6).
  rewrite H5 in H2. split_and!; [congruence|exact H2|]. intuition congruence.
Qed.
End tree.

(** ** The system *)

(** Between [allocproc] and the end of [fork] a process owns an embryo. *)
Inductive ppoint : Type :=
  | PNormal
  | PForking (i : nat).

(** The table and [nextpid], the process each CPU runs, and where each process
    is; [root] is [initproc]. *)
Record sys : Type := Sys {
  tbl : list proc;
  npid : Z;
  cpus : list (option nat);
  pc : nat → ppoint;
  root : nat
}.

Definition set_pc (f : nat → ppoint) (c : nat) (v : ppoint) : nat → ppoint := λ x, if decide (x = c) then v else f x.

Inductive sys_step (ptable_proc : Z) : sys → sys → Prop :=
  | s_alloc l n cs f r c i :
      st l c = RUNNING → f c = PNormal → n < 2147483647 →
      find_proc (λ p, bool_decide (pr_state p = UNUSED)) 0 l = Some i →
      sys_step ptable_proc (Sys l n cs f r)
        (Sys (upd_proc i (λ p, set_pid n (set_state EMBRYO p)) l) (n + 1) cs (set_pc f c (PForking i)) r)
  | s_fail l n cs f r c i :
      st l c = RUNNING → f c = PForking i → pr_parent (get_proc i l) = None →
      sys_step ptable_proc (Sys l n cs f r) (Sys (upd_proc i (set_state UNUSED) l) n cs (set_pc f c PNormal) r)
  | s_parent l n cs f r c i :
      st l c = RUNNING → f c = PForking i →
      sys_step ptable_proc (Sys l n cs f r) (Sys (upd_proc i (set_parent (Some c)) l) n cs f r)
  | s_ready l n cs f r c i :
      st l c = RUNNING → f c = PForking i → pr_parent (get_proc i l) = Some c →
      sys_step ptable_proc (Sys l n cs f r) (Sys (upd_proc i (set_state RUNNABLE) l) n cs (set_pc f c PNormal) r)
  | s_exit l n cs f r k c :
      cs !! k = Some (Some c) → f c = PNormal → c ≠ r →
      sys_step ptable_proc (Sys l n cs f r) (Sys (exit_locked ptable_proc c (Some r) l) n (<[k := None]> cs) f r)
  | s_reap l n cs f r c k b :
      st l c = RUNNING → wait_scan c 0 l false = (Some k, b) →
      sys_step ptable_proc (Sys l n cs f r) (Sys (upd_proc k reap l) n cs f r)
  | s_sleep l n cs f r k c chan :
      cs !! k = Some (Some c) →
      sys_step ptable_proc (Sys l n cs f r)
        (Sys (upd_proc c (λ p, set_state SLEEPING (set_chan chan p)) l) n (<[k := None]> cs) f r)
  | s_yield l n cs f r k c :
      cs !! k = Some (Some c) →
      sys_step ptable_proc (Sys l n cs f r) (Sys (upd_proc c (set_state RUNNABLE) l) n (<[k := None]> cs) f r)
  | s_sched l n cs f r k i :
      cs !! k = Some None → st l i = RUNNABLE →
      sys_step ptable_proc (Sys l n cs f r) (Sys (upd_proc i (set_state RUNNING) l) n (<[k := Some i]> cs) f r)
  | s_wakeup l n cs f r chan :
      sys_step ptable_proc (Sys l n cs f r) (Sys (wakeup1 chan l) n cs f r)
  | s_kill l n cs f r pid i :
      find_proc (λ p, pr_pid p =? pid) 0 l = Some i →
      sys_step ptable_proc (Sys l n cs f r) (Sys (upd_proc i kill1 l) n cs f r).

Definition alive (x : procstate) : bool :=
  match x with UNUSED | EMBRYO | ZOMBIE => false | _ => true end.

(** Which CPU runs what. *)
Record cpus_ok (l : list proc) (cs : list (option nat)) : Prop := {
  co_running : ∀ k c, cs !! k = Some (Some c) → st l c = RUNNING;
  co_somewhere : ∀ c, st l c = RUNNING → ∃ k, cs !! k = Some (Some c);
  co_once : ∀ k k' c, cs !! k = Some (Some c) → cs !! k' = Some (Some c) → k = k'
}.

(** Where a process hangs in the tree. *)
Definition parent_ok (s : sys) (i : nat) : Prop :=
  match st (tbl s) i with
  | UNUSED => pr_parent (get_proc i (tbl s)) = None
  | EMBRYO => ∃ c, pc s c = PForking i ∧
      (pr_parent (get_proc i (tbl s)) = None ∨ pr_parent (get_proc i (tbl s)) = Some c)
  | _ => if decide (i = root s) then pr_parent (get_proc i (tbl s)) = None
         else ∃ q, pr_parent (get_proc i (tbl s)) = Some q ∧ alive (st (tbl s) q) = true
  end.

Record sys_inv (s : sys) : Prop := {
  si_len : length (tbl s) = NPROC;
  si_root : alive (st (tbl s) (root s)) = true;
  si_cpus : cpus_ok (tbl s) (cpus s);
  si_pid : ∀ i, st (tbl s) i ≠ UNUSED → 0 < pr_pid (get_proc i (tbl s)) < npid s;
  si_inj : ∀ i j, st (tbl s) i ≠ UNUSED → st (tbl s) j ≠ UNUSED →
    pr_pid (get_proc i (tbl s)) = pr_pid (get_proc j (tbl s)) → i = j;
  si_parent : ∀ i, parent_ok s i;
  si_fork : ∀ c i, pc s c = PForking i → alive (st (tbl s) c) = true ∧ st (tbl s) i = EMBRYO;
  si_forks : ∀ c c' i, pc s c = PForking i → pc s c' = PForking i → c = c'
}.

(** Steps that only move processes among the running, runnable and sleeping. *)
Lemma inv_shuffle s l' cs' : sys_inv s → length l' = length (tbl s) → cpus_ok l' cs' →
  (∀ j, pr_pid (get_proc j l') = pr_pid (get_proc j (tbl s)) ∧
        pr_parent (get_proc j l') = pr_parent (get_proc j (tbl s)) ∧
        (st l' j = st (tbl s) j ∨ alive (st (tbl s) j) = true ∧ alive (st l' j) = true)) →
  sys_inv (Sys l' (npid s) cs' (pc s) (root s)).
Proof.
  intros [Hlen Hroot Hcpu Hpid Hinj Hpar Hfork Hforks] Hl Hcs Hj.
  assert (Ha : ∀ j, alive (st l' j) = alive (st (tbl s) j)) by (intros j; destruct (Hj j) as (_ & _ & [->|[-> ->]]); done).
  assert (Hu : ∀ j, st l' j ≠ UNUSED → st (tbl s) j ≠ UNUSED).
  { intros j. destruct (Hj j) as (_ & _ & [->|[H1 H2]]); [done|]. intros _ H3. by rewrite H3 in H1. }
  split; cbn; [congruence|by rewrite Ha|done| | | | |done].
  - intros i Hi. destruct (Hj i) as (-> & _). by apply Hpid, Hu.
  - intros i j Hi Hj' Heq. destruct (Hj i) as (Hi1 & _), (Hj j) as (Hj1 & _). apply Hinj; [by apply Hu..|congruence].
  - intros i. specialize (Hpar i). unfold parent_ok in *. cbn. destruct (Hj i) as (_ & -> & [->|[H1 H2]]).
    + destruct (st (tbl s) i); try done; case_decide; try done; destruct Hpar as (q & Hq & Hal); exists q; by rewrite Ha.
    + destruct (st (tbl s) i), (st l' i); try done; case_decide; try done; destruct Hpar as (q & Hq & Hal); exists q; by rewrite Ha.
  - intros c i Hc. destruct (Hfork c i Hc) as [H1 H2]. rewrite Ha. split; [done|].
    destruct (Hj i) as (_ & _ & [->|[H3 H4]]); [done|]. by rewrite H2 in H3.
Qed.

Lemma cpus_same l l' cs : cpus_ok l cs → (∀ j, st l' j = RUNNING ↔ st l j = RUNNING) → cpus_ok l' cs.
Proof.
  intros [H1 H2 H3] H. split; [|intros c Hc; by apply H2, H|done]. intros k c Hk. by eapply H, H1.
Qed.

Lemma cpus_leave l l' cs k c : cpus_ok l cs → cs !! k = Some (Some c) → st l' c ≠ RUNNING →
  (∀ j, j ≠ c → st l' j = RUNNING ↔ st l j = RUNNING) → cpus_ok l' (<[k := None]> cs).
Proof.
  intros [H1 H2 H3] Hk Hc H. assert (Hkl : (k < length cs)%nat) by (by eapply lookup_lt_Some).
  assert (Hx : ∀ k' c', <[k := None]> cs !! k' = Some (Some c') → k' ≠ k ∧ cs !! k' = Some (Some c')).
  { intros k' c' Hk'. destruct (decide (k' = k)) as [->|Hne].
    - by rewrite list_lookup_insert_eq in Hk' by done.
    - by rewrite list_lookup_insert_ne in Hk' by done. }
  split.
  - intros k' c' Hk'. apply Hx in Hk' as [Hne Hk']. apply H; [|by eapply H1]. intros ->. by apply Hne, (H3 _ _ c).
  - intros c' Hc'. destruct (decide (c' = c)) as [->|Hne]; [done|]. apply H in Hc'; [|done].
    destruct (H2 _ Hc') as [k' Hk']. exists k'. rewrite list_lookup_insert_ne; [done|]. intros ->. congruence.
  - intros k1 k2 c' [_ Hk1]%Hx [_ Hk2]%Hx. by eapply H3.
Qed.

Lemma cpus_enter l l' cs k i : cpus_ok l cs → cs !! k = Some None → st l i ≠ RUNNING → st l' i = RUNNING →
  (∀ j, j ≠ i → st l' j = RUNNING ↔ st l j = RUNNING) → cpus_ok l' (<[k := Some i]> cs).
Proof.
  intros [H1 H2 H3] Hk Hi Hi' H. assert (Hkl : (k < length cs)%nat) by (by eapply lookup_lt_Some).
  assert (Hx : ∀ k' c', <[k := Some i]> cs !! k' = Some (Some c') →
    k' = k ∧ c' = i ∨ k' ≠ k ∧ c' ≠ i ∧ cs !! k' = Some (Some c')).
  { intros k' c' Hk'. destruct (decide (k' = k)) as [->|Hne].
    - rewrite list_lookup_insert_eq in Hk' by done. injection Hk' as ->. auto.
    - rewrite list_lookup_insert_ne in Hk' by done. right. split_and!; [done| |done]. intros ->. by apply Hi, (H1 k'). }
  split.
  - intros k' c' Hk'. apply Hx in Hk' as [[-> ->]|(Hne & Hc & Hk')]; [done|]. apply H; [done|by eapply H1].
  - intros c' Hc'. destruct (decide (c' = i)) as [->|Hne]; [exists k; by apply list_lookup_insert_eq|].
    apply H in Hc'; [|done]. destruct (H2 _ Hc') as [k' Hk']. exists k'.
    rewrite list_lookup_insert_ne; [done|]. intros ->. congruence.
  - intros k1 k2 c' Hk1 Hk2. apply Hx in Hk1 as [[-> ->]|(? & ? & Hk1)], Hk2 as [[-> ?]|(? & ? & Hk2)]; try done.
    by eapply H3.
Qed.

(** The effect of an update of one slot on the states. *)
Lemma st_upd i f l j : (i < length l)%nat → st (upd_proc i f l) j = if decide (j = i) then pr_state (f (get_proc i l)) else st l j.
Proof. intros. unfold st. rewrite get_upd by done. by case_decide. Qed.

Lemma find_proc_spec f k l i : find_proc f k l = Some i →
  (k <= i < k + length l)%nat ∧ f (get_proc (i - k) l) = true.
Proof.
  revert k. induction l as [|p l IH]; intros k; cbn [find_proc]; [done|]. destruct (f p) eqn:E.
  - intros [= ->]. rewrite Nat.sub_diag. cbn. split; [lia|done].
  - intros H. apply IH in H as [H1 H2]. cbn. split; [lia|].
    replace (i - k)%nat with (S (i - S k)) by lia. done.
Qed.

Lemma wait_scan_spec c k l b i b' : wait_scan c k l b = (Some i, b') →
  (k <= i < k + length l)%nat ∧ pr_parent (get_proc (i - k) l) = Some c ∧ pr_state (get_proc (i - k) l) = ZOMBIE.
Proof.
  revert k b. induction l as [|p l IH]; intros k b; cbn [wait_scan]; [done|].
  assert (Hnext : ∀ b, wait_scan c (S k) l b = (Some i, b') →
    (k <= i < k + length (p :: l))%nat ∧ pr_parent (get_proc (i - k) (p :: l)) = Some c ∧
    pr_state (get_proc (i - k) (p :: l)) = ZOMBIE).
  { intros b0 H. apply IH in H as (H1 & H2 & H3). cbn [length]. replace (i - k)%nat with (S (i - S k)) by lia.
    split_and!; [lia..|done|done]. }
  case_bool_decide as Hp; [|apply Hnext]. case_bool_decide as Hz; [|apply Hnext].
  intros [= <- <-]. rewrite Nat.sub_diag. cbn. split_and!; [lia..|done|done].
Qed.

Lemma set_pc_forking f c v x i : set_pc f c v x = PForking i → x = c ∧ v = PForking i ∨ x ≠ c ∧ f x = PForking i.
Proof. unfold set_pc. case_decide; auto. Qed.

(** A live process keeps its place when another slot changes without dying. *)
Lemma parent_kept s l' n' cs' f' r j : r = root s →
  get_proc j l' = get_proc j (tbl s) →
  (∀ q, alive (st (tbl s) q) = true → alive (st l' q) = true) →
  (∀ c, pc s c = PForking j → f' c = PForking j) →
  parent_ok s j → parent_ok (Sys l' n' cs' f' r) j.
Proof.
  intros -> Hg Ha Hf Hp. unfold parent_ok in *. cbn. unfold st in *. rewrite Hg.
  destruct (pr_state (get_proc j (tbl s))); try done; try (case_decide; [done|]).
  all: try (destruct Hp as (q & Hq & Hal); exists q; split; [done|by apply Ha]).
  destruct Hp as (c & Hc & Hp). exists c. split; [by apply Hf|done].
Qed.

Lemma inv_alloc s c i : sys_inv s → st (tbl s) c = RUNNING → pc s c = PNormal → st (tbl s) i = UNUSED → (i < length (tbl s))%nat →
  sys_inv (Sys (upd_proc i (λ p, set_pid (npid s) (set_state EMBRYO p)) (tbl s)) (npid s + 1) (cpus s)
               (set_pc (pc s) c (PForking i)) (root s)).
Proof.
  intros Hinv Hc Hpc Hi Hlt. pose proof Hinv as [Hlen Hroot Hcpu Hpid Hinj Hpar Hfork Hforks].
  set (l' := upd_proc _ _ _).
  assert (Hg : ∀ j, get_proc j l' = if decide (j = i) then set_pid (npid s) (set_state EMBRYO (get_proc i (tbl s))) else get_proc j (tbl s))
    by (intros j; by apply get_upd).
  assert (Hst : ∀ j, st l' j = if decide (j = i) then EMBRYO else st (tbl s) j) by (intros j; by apply st_upd).
  assert (Ha : ∀ q, alive (st (tbl s) q) = true → alive (st l' q) = true).
  { intros q Hq. rewrite Hst. case_decide as Hqi; [|done]. subst q. by rewrite Hi in Hq. }
  assert (Hpos : 1 < npid s).
  { specialize (Hpid (root s)). destruct (st (tbl s) (root s)); try done; specialize (Hpid ltac:(done)); lia. }
  split; cbn; [unfold l'; by rewrite length_upd|by apply Ha| | | | | |].
  - apply (cpus_same _ _ _ Hcpu). intros j. rewrite Hst. case_decide as Hj; [subst j; by rewrite Hi|done].
  - intros j. rewrite Hst, Hg. case_decide; cbn; [lia|]. intros Hj. specialize (Hpid j Hj). lia.
  - intros j k. rewrite !Hst, !Hg. repeat case_decide; cbn; intros Hj Hk Heq; try congruence; [| |by apply Hinj].
    + specialize (Hpid k Hk). lia.
    + specialize (Hpid j Hj). lia.
  - intros j. destruct (decide (j = i)) as [->|Hj].
    + unfold parent_ok. cbn. rewrite Hst, Hg, !(decide_True (P := i = i)) by done. cbn. exists c. split.
      * unfold set_pc. by rewrite decide_True.
      * left. specialize (Hpar i). unfold parent_ok in Hpar. by rewrite Hi in Hpar.
    + apply (parent_kept s); [done|by rewrite Hg, decide_False|done| |done].
      intros c' Hc'. unfold set_pc. case_decide; [congruence|done].
  - intros c' i' Hc'. apply set_pc_forking in Hc' as [[-> [= <-]]|[Hne Hc']].
    + split; [apply Ha; by rewrite Hc|]. rewrite Hst. by rewrite decide_True.
    + destruct (Hfork _ _ Hc') as [H1 H2]. split; [by apply Ha|]. rewrite Hst. by case_decide.
  - intros c1 c2 i' H1 H2. apply set_pc_forking in H1 as [[-> [= <-]]|[Hn1 H1]], H2 as [[-> Hx]|[Hn2 H2]]; try done.
    + destruct (Hfork _ _ H2) as [_ H3]. congruence.
    + injection Hx as ->. destruct (Hfork _ _ H1) as [_ H3]. congruence.
    + by eapply Hforks.
Qed.

Lemma inv_fail s c i : sys_inv s → pc s c = PForking i → pr_parent (get_proc i (tbl s)) = None →
  sys_inv (Sys (upd_proc i (set_state UNUSED) (tbl s)) (npid s) (cpus s) (set_pc (pc s) c PNormal) (root s)).
Proof.
  intros Hinv Hpc Hp. pose proof Hinv as [Hlen Hroot Hcpu Hpid Hinj Hpar Hfork Hforks].
  destruct (Hfork _ _ Hpc) as [Hc Hi].
  assert (Hlt : (i < length (tbl s))%nat) by (apply live_in_range; by rewrite Hi).
  set (l' := upd_proc _ _ _).
  assert (Hg : ∀ j, get_proc j l' = if decide (j = i) then set_state UNUSED (get_proc i (tbl s)) else get_proc j (tbl s))
    by (intros j; by apply get_upd).
  assert (Hst : ∀ j, st l' j = if decide (j = i) then UNUSED else st (tbl s) j) by (intros j; by apply st_upd).
  assert (Ha : ∀ q, alive (st (tbl s) q) = true → alive (st l' q) = true).
  { intros q Hq. rewrite Hst. case_decide as Hqi; [|done]. subst q. by rewrite Hi in Hq. }
  split; cbn; [unfold l'; by rewrite length_upd|by apply Ha| | | | | |].
  - apply (cpus_same _ _ _ Hcpu). intros j. rewrite Hst. case_decide as Hj; [subst j; by rewrite Hi|done].
  - intros j. rewrite Hst, Hg. case_decide; [done|]. apply Hpid.
  - intros j k. rewrite !Hst, !Hg. repeat case_decide; try done. apply Hinj.
  - intros j. destruct (decide (j = i)) as [->|Hj].
    + unfold parent_ok. cbn. by rewrite Hst, Hg, !(decide_True (P := i = i)).
    + apply (parent_kept s); [done|by rewrite Hg, decide_False|done| |done].
      intros c' Hc'. unfold set_pc. case_decide; [congruence|done].
  - intros c' i' Hc'. apply set_pc_forking in Hc' as [[-> Hx]|[Hne Hc']]; [done|].
    destruct (Hfork _ _ Hc') as [H1 H2]. split; [by apply Ha|]. rewrite Hst. case_decide as Hx; [|done].
    subst i'. by destruct Hne; eapply Hforks.
  - intros c1 c2 i' H1 H2. apply set_pc_forking in H1 as [[-> Hx]|[Hn1 H1]], H2 as [[-> Hy]|[Hn2 H2]]; try done.
    by eapply Hforks.
Qed.

Lemma inv_parent s c i : sys_inv s → pc s c = PForking i →
  sys_inv (Sys (upd_proc i (set_parent (Some c)) (tbl s)) (npid s) (cpus s) (pc s) (root s)).
Proof.
  intros Hinv Hpc. pose proof Hinv as [Hlen Hroot Hcpu Hpid Hinj Hpar Hfork Hforks].
  destruct (Hfork _ _ Hpc) as [Hc Hi].
  assert (Hlt : (i < length (tbl s))%nat) by (apply live_in_range; by rewrite Hi).
  set (l' := upd_proc _ _ _).
  assert (Hg : ∀ j, get_proc j l' = if decide (j = i) then set_parent (Some c) (get_proc i (tbl s)) else get_proc j (tbl s))
    by (intros j; by apply get_upd).
  assert (Hst : ∀ j, st l' j = st (tbl s) j) by (intros j; unfold st; rewrite Hg; by case_decide; [subst j|]).
  split; cbn; [unfold l'; by rewrite length_upd|by rewrite Hst| | | | | |done].
  - apply (cpus_same _ _ _ Hcpu). intros j. by rewrite Hst.
  - intros j. rewrite Hst, Hg. case_decide as Hj; [subst j|]; apply Hpid.
  - intros j k. rewrite !Hst, !Hg. repeat case_decide; subst; cbn; apply Hinj.
  - intros j. destruct (decide (j = i)) as [->|Hj].
    + unfold parent_ok. cbn. rewrite Hst, Hi, Hg, decide_True by done. exists c. auto.
    + apply (parent_kept s); [done|by rewrite Hg, decide_False|intros q; by rewrite Hst|done|done].
  - intros c' i' Hc'. rewrite !Hst. by apply Hfork.
Qed.

Lemma inv_ready s c i : sys_inv s → st (tbl s) c = RUNNING → pc s c = PForking i → pr_parent (get_proc i (tbl s)) = Some c →
  sys_inv (Sys (upd_proc i (set_state RUNNABLE) (tbl s)) (npid s) (cpus s) (set_pc (pc s) c PNormal) (root s)).
Proof.
  intros Hinv Hrun Hpc Hp. pose proof Hinv as [Hlen Hroot Hcpu Hpid Hinj Hpar Hfork Hforks].
  destruct (Hfork _ _ Hpc) as [Hc Hi].
  assert (Hlt : (i < length (tbl s))%nat) by (apply live_in_range; by rewrite Hi).
  set (l' := upd_proc _ _ _).
  assert (Hg : ∀ j, get_proc j l' = if decide (j = i) then set_state RUNNABLE (get_proc i (tbl s)) else get_proc j (tbl s))
    by (intros j; by apply get_upd).
  assert (Hst : ∀ j, st l' j = if decide (j = i) then RUNNABLE else st (tbl s) j) by (intros j; by apply st_upd).
  assert (Ha : ∀ q, alive (st (tbl s) q) = true → alive (st l' q) = true).
  { intros q Hq. rewrite Hst. by case_decide. }
  split; cbn; [unfold l'; by rewrite length_upd|by apply Ha| | | | | |].
  - apply (cpus_same _ _ _ Hcpu). intros j. rewrite Hst. case_decide as Hj; [subst j; by rewrite Hi|done].
  - intros j. rewrite Hst, Hg. case_decide as Hj; [subst j; intros _; apply Hpid; by rewrite Hi|apply Hpid].
  - intros j k. rewrite !Hst, !Hg. repeat case_decide; subst; try done; cbn; intros Hj Hk; apply Hinj; by rewrite ?Hi.
  - intros j. destruct (decide (j = i)) as [->|Hj].
    + unfold parent_ok. cbn. rewrite Hst, Hg, !(decide_True (P := i = i)) by done. rewrite decide_False.
      * exists c. split; [done|]. by apply Ha.
      * intros ->. by rewrite Hi in Hroot.
    + apply (parent_kept s); [done|by rewrite Hg, decide_False|done| |done].
      intros c' Hc'. unfold set_pc. case_decide; [congruence|done].
  - intros c' i' Hc'. apply set_pc_forking in Hc' as [[-> Hx]|[Hne Hc']]; [done|].
    destruct (Hfork _ _ Hc') as [H1 H2]. split; [by apply Ha|]. rewrite Hst. case_decide as Hx; [|done].
    subst i'. by destruct Hne; eapply Hforks.
  - intros c1 c2 i' H1 H2. apply set_pc_forking in H1 as [[-> Hx]|[Hn1 H1]], H2 as [[-> Hy]|[Hn2 H2]]; try done.
    by eapply Hforks.
Qed.

Lemma inv_reap s c k : sys_inv s → pr_parent (get_proc k (tbl s)) = Some c → st (tbl s) k = ZOMBIE →
  sys_inv (Sys (upd_proc k reap (tbl s)) (npid s) (cpus s) (pc s) (root s)).
Proof.
  intros Hinv Hp Hi. pose proof Hinv as [Hlen Hroot Hcpu Hpid Hinj Hpar Hfork Hforks].
  assert (Hlt : (k < length (tbl s))%nat) by (apply live_in_range; by rewrite Hi).
  set (l' := upd_proc _ _ _).
  assert (Hg : ∀ j, get_proc j l' = if decide (j = k) then reap (get_proc k (tbl s)) else get_proc j (tbl s))
    by (intros j; by apply get_upd).
  assert (Hst : ∀ j, st l' j = if decide (j = k) then UNUSED else st (tbl s) j) by (intros j; by apply st_upd).
  assert (Ha : ∀ q, alive (st (tbl s) q) = true → alive (st l' q) = true).
  { intros q Hq. rewrite Hst. case_decide as Hqi; [|done]. subst q. by rewrite Hi in Hq. }
  split; cbn; [unfold l'; by rewrite length_upd|by apply Ha| | | | | |done].
  - apply (cpus_same _ _ _ Hcpu). intros j. rewrite Hst. case_decide as Hj; [subst j; by rewrite Hi|done].
  - intros j. rewrite Hst, Hg. case_decide; [done|]. apply Hpid.
  - intros j m. rewrite !Hst, !Hg. repeat case_decide; try done. apply Hinj.
  - intros j. destruct (decide (j = k)) as [->|Hj].
    + unfold parent_ok. cbn. by rewrite Hst, Hg, !(decide_True (P := k = k)).
    + apply (parent_kept s); [done|by rewrite Hg, decide_False|done|done|done].
  - intros c' i' Hc'. destruct (Hfork _ _ Hc') as [H1 H2]. split; [by apply Ha|]. rewrite Hst. case_decide as Hx; [|done].
    subst i'. congruence.
Qed.

Lemma inv_exit s k c l' : sys_inv s → cpus s !! k = Some (Some c) → pc s c = PNormal → c ≠ root s →
  exited c (Some (root s)) (tbl s) l' →
  sys_inv (Sys l' (npid s) (<[k := None]> (cpus s)) (pc s) (root s)).
Proof.
  intros Hinv Hk Hpc Hc (Hl & Hz & Hzpid & Hzpar & Hrep). pose proof Hinv as [Hlen Hroot Hcpu Hpid Hinj Hpar Hfork Hforks].
  pose proof (co_running _ _ Hcpu _ _ Hk) as Hrun.
  assert (Hout : ∀ j, ¬ (j < length (tbl s))%nat → get_proc j l' = get_proc j (tbl s)).
  { intros j Hj. unfold get_proc. rewrite !lookup_ge_None_2 by lia. done. }
  assert (Hoth : ∀ j, j ≠ c → pr_pid (get_proc j l') = pr_pid (get_proc j (tbl s)) ∧
    (st l' j = st (tbl s) j ∨ st (tbl s) j = SLEEPING ∧ st l' j = RUNNABLE)).
  { intros j Hj. destruct (decide (j < length (tbl s))%nat) as [Hlt|Hge].
    - destruct (Hrep j Hj Hlt) as (H1 & _ & H3). unfold st. auto.
    - unfold st. rewrite Hout by done. auto. }
  assert (Ha : ∀ q, q ≠ c → alive (st (tbl s) q) = true → alive (st l' q) = true).
  { intros q Hq. by destruct (Hoth q Hq) as [_ [-> |[-> ->]]]. }
  assert (Hu : ∀ j, st l' j ≠ UNUSED → st (tbl s) j ≠ UNUSED).
  { intros j. destruct (decide (j = c)) as [->|Hj]; [by rewrite Hrun|]. by destruct (Hoth j Hj) as [_ [-> |[-> ->]]]. }
  assert (Hp : ∀ j, pr_pid (get_proc j l') = pr_pid (get_proc j (tbl s))).
  { intros j. destruct (decide (j = c)) as [->|Hj]; [done|]. by destruct (Hoth j Hj). }
  split; cbn; [congruence|by apply Ha| | | | | |done].
  - apply (cpus_leave (tbl s) _ _ _ c); [done|done|by rewrite Hz|]. intros j Hj.
    destruct (Hoth j Hj) as [_ [-> |[-> ->]]]; done.
  - intros j Hj. rewrite Hp. by apply Hpid, Hu.
  - intros i j Hi Hj. rewrite !Hp. by apply Hinj; apply Hu.
  - assert (Hnew : ∀ q, alive (st (tbl s) q) = true →
      ∃ q', (if decide (Some q = Some c) then Some (root s) else Some q) = Some q' ∧ alive (st l' q') = true).
    { intros q Hq. destruct (decide (q = c)) as [->|Hqc].
      - rewrite decide_True by done. exists (root s). split; [done|by apply Ha].
      - rewrite decide_False by congruence. exists q. split; [done|by apply Ha]. }
    intros j. specialize (Hpar j). unfold parent_ok in *. cbn. destruct (decide (j = c)) as [->|Hj].
    + rewrite Hz, Hzpar, decide_False by done. rewrite Hrun, decide_False in Hpar by done.
      destruct Hpar as (q & -> & Hq). by apply Hnew.
    + destruct (decide (j < length (tbl s))%nat) as [Hlt|Hge].
      2:{ unfold st in *. rewrite (Hout j Hge). replace (get_proc j (tbl s)) with proc0; [done|].
          unfold get_proc. by rewrite lookup_ge_None_2 by lia. }
      destruct (Hrep j Hj Hlt) as (_ & -> & Hs).
      assert (Hlive : (if decide (j = root s) then pr_parent (get_proc j (tbl s)) = None
          else ∃ q, pr_parent (get_proc j (tbl s)) = Some q ∧ alive (st (tbl s) q) = true) →
        if decide (j = root s)
        then (if decide (pr_parent (get_proc j (tbl s)) = Some c) then Some (root s) else pr_parent (get_proc j (tbl s))) = None
        else ∃ q, (if decide (pr_parent (get_proc j (tbl s)) = Some c) then Some (root s) else pr_parent (get_proc j (tbl s))) = Some q
                  ∧ alive (st l' q) = true).
      { destruct (decide (j = root s)); [by intros ->|]. intros (q & -> & Hq). by apply Hnew. }
      unfold st in *. destruct Hs as [-> |[H1 ->]]; [|rewrite H1 in Hpar; by apply Hlive].
      destruct (pr_state (get_proc j (tbl s))); try (by apply Hlive).
      * by rewrite Hpar.
      * destruct Hpar as (c' & Hc' & Hq). exists c'. split; [done|].
        rewrite decide_False; [done|]. destruct Hq as [-> | ->]; congruence.
  - intros c' i Hc'. destruct (Hfork _ _ Hc') as [H1 H2]. split; [apply Ha; [congruence|done]|].
    destruct (Hoth i) as [_ [-> |[H3 H4]]]; [congruence|done|congruence].
Qed.

Lemma sys_step_inv ptable_proc s s' : sys_inv s → sys_step ptable_proc s s' → sys_inv s'.
Proof.
  intros Hinv Hstep. destruct Hstep.
  - match goal with H : find_proc _ _ _ = Some _ |- _ => apply find_proc_spec in H as [Hr Hu] end.
    rewrite Nat.sub_0_r in Hu. apply bool_decide_eq_true in Hu.
    by apply (inv_alloc (Sys l n cs f r) c i); [..|cbn; lia].
  - by apply (inv_fail (Sys l n cs f r) c i).
  - by apply (inv_parent (Sys l n cs f r) c i).
  - by apply (inv_ready (Sys l n cs f r) c i).
  - apply (inv_exit (Sys l n cs f r) k c); try done. apply exit_locked_spec; [congruence| |apply Hinv].
    by apply (co_running _ _ (si_cpus _ Hinv) k).
  - match goal with H : wait_scan _ _ _ _ = _ |- _ => apply wait_scan_spec in H as (Hr & Hp & Hz) end.
    rewrite Nat.sub_0_r in Hp, Hz. by apply (inv_reap (Sys l n cs f r) c k).
  - pose proof (co_running _ _ (si_cpus _ Hinv) _ _ H) as Hrun. cbn in Hrun.
    assert (Hlt : (c < length l)%nat) by (apply live_in_range; by rewrite Hrun).
    apply (inv_shuffle (Sys l n cs f r)); [done|apply length_upd| |].
    + apply (cpus_leave l _ _ _ c); [apply Hinv|done| |]; [|intros j Hj]; rewrite st_upd by done; case_decide; done.
    + intros j. cbn. rewrite st_upd, get_upd by done. case_decide; [subst j|auto]. rewrite Hrun. auto.
  - pose proof (co_running _ _ (si_cpus _ Hinv) _ _ H) as Hrun. cbn in Hrun.
    assert (Hlt : (c < length l)%nat) by (apply live_in_range; by rewrite Hrun).
    apply (inv_shuffle (Sys l n cs f r)); [done|apply length_upd| |].
    + apply (cpus_leave l _ _ _ c); [apply Hinv|done| |]; [|intros j Hj]; rewrite st_upd by done; case_decide; done.
    + intros j. cbn. rewrite st_upd, get_upd by done. case_decide; [subst j|auto]. rewrite Hrun. auto.
  - assert (Hlt : (i < length l)%nat) by (apply live_in_range; congruence).
    apply (inv_shuffle (Sys l n cs f r)); [done|apply length_upd| |].
    + apply (cpus_enter l _ _ _ i); [apply Hinv|done|congruence| |]; [|intros j Hj]; rewrite st_upd by done; case_decide; done.
    + intros j. cbn. rewrite st_upd, get_upd by done. case_decide; [subst j|auto].
      match goal with H : st l i = RUNNABLE |- _ => rewrite H end. auto.
  - assert (Hw : ∀ j, woken (get_proc j l) (get_proc j (wakeup1 chan l))) by (intros j; rewrite get_wakeup1; apply wake_woken).
    apply (inv_shuffle (Sys l n cs f r)); [done|apply length_wakeup1| |]; cbn.
    + apply (cpus_same l); [apply Hinv|]. intros j. unfold st. destruct (Hw j) as (_ & _ & [-> |[-> ->]]); done.
    + intros j. destruct (Hw j) as (-> & -> & Hs). unfold st. destruct Hs as [-> |[-> ->]]; auto.
  - match goal with H : find_proc _ _ _ = Some _ |- _ => apply find_proc_spec in H as [Hr _] end.
    assert (Hk : ∀ j, woken (get_proc j l) (get_proc j (upd_proc i kill1 l))).
    { intros j. rewrite get_upd by lia. case_decide; [subst j|by split_and!; auto].
      unfold woken, kill1. cbn. case_bool_decide; cbn; auto. }
    apply (inv_shuffle (Sys l n cs f r)); [done|apply length_upd| |]; cbn.
    + apply (cpus_same l); [apply Hinv|]. intros j. unfold st. destruct (Hk j) as (_ & _ & [-> |[-> ->]]); done.
    + intros j. destruct (Hk j) as (-> & -> & Hs). unfold st. destruct Hs as [-> |[-> ->]]; auto.
Qed.

Lemma wait_scan_finds c k l b j : pr_parent (get_proc j l) = Some c → st l j = ZOMBIE →
  ∃ i, fst (wait_scan c k l b) = Some i.
Proof.
  revert k b j. induction l as [|p l IH]; intros k b j Hp Hz.
  - by destruct j.
  - cbn [wait_scan]. destruct j as [|j].
    + cbn in Hp, Hz. rewrite !bool_decide_eq_true_2 by done. cbn. eauto.
    + change (get_proc (S j) (p :: l)) with (get_proc j l) in Hp. change (st (p :: l) (S j)) with (st l j) in Hz.
      repeat case_bool_decide; cbn; eauto.
Qed.

(** The system after [userinit]: the first process is runnable, every CPU is in
    its scheduler. *)
Definition boot (ncpu : nat) : sys :=
  Sys (Proc 4096 0x80400000 0x80401000 RUNNABLE 1 None 0x80401fb4 0x80401f9c 0 false (replicate NOFILE None) None []
       :: replicate (NPROC - 1) proc0) 2 (replicate ncpu None) (λ _, PNormal) 0.

Lemma boot_inv ncpu : sys_inv (boot ncpu).
Proof.
  assert (Hg : ∀ i, i ≠ 0%nat → get_proc i (tbl (boot ncpu)) = proc0).
  { intros [|i] Hi; [done|]. unfold get_proc. cbn [boot tbl lookup list_lookup].
    destruct (replicate (NPROC - 1) proc0 !! i) as [p|] eqn:E; [|done]. by apply lookup_replicate in E as [-> _]. }
  assert (Hs : ∀ i, st (tbl (boot ncpu)) i ≠ UNUSED → i = 0%nat).
  { intros i Hi. destruct (decide (i = 0%nat)) as [->|Hne]; [done|]. unfold st in Hi. by rewrite Hg in Hi. }
  split; cbn [boot npid cpus pc root]; try done.
  - split.
    + intros k c Hk. by apply lookup_replicate in Hk as [? _].
    + intros c Hc. assert (c = 0%nat) as -> by (apply Hs; by rewrite Hc). done.
    + intros k k' c Hk. by apply lookup_replicate in Hk as [? _].
  - intros i Hi. apply Hs in Hi as ->. done.
  - intros i j Hi Hj _. apply Hs in Hi as ->, Hj as ->. done.
  - intros i. unfold parent_ok. destruct (decide (i = 0%nat)) as [->|Hi]; [done|]. unfold st. by rewrite Hg.
Qed.


