(* ===== verification/Wakeup.v ===== *)
(** * Sleep and wakeup (proc.c)

    One process waits for a condition that is protected by a lock [lk], another
    one makes it true:

      sleeper: acquire(lk); while(!cond) sleep(chan, lk); release(lk);
      waker:   acquire(lk); cond = 1; wakeup(chan); release(lk);

    [sleep] and [wakeup] run statement by statement, with [ptable.lock], so that
    every interleaving of the two is covered. *)

From Stdlib Require Import ZArith Lia.
From stdpp Require Import base numbers list strings relations.
From S2P Require Import Prelude Proc ProcFacts.

(** The sleeper's program points. *)
Inductive spoint : Type :=
  | SAcquire      (** before acquire(lk), also at the end of [sleep] *)
  | STest         (** holds lk, about to test the condition *)
  | SLock         (** in [sleep]: about to acquire ptable.lock *)
  | SUnlock       (** holds both locks, about to release lk *)
  | SMark         (** about to set chan and state, and to switch away *)
  | SAsleep       (** switched away *)
  | STidy         (** switched to again, with ptable.lock held *)
  | SLeave        (** the condition holds, about to release lk *)
  | SDone.

(** The waker's. *)
Inductive wpoint : Type :=
  | WAcquire | WSet | WLock | WWake | WUnlock | WRelease | WDone.

Inductive who : Type := Sleeper | Waker.

Record wstate : Type := WState {
  ws_lk : option who;
  ws_pt : option who;
  ws_cond : bool;
  ws_tbl : list proc;
  ws_s : spoint;
  ws_w : wpoint
}.

Section wakeup.
(** The sleeper's slot and the channel. *)
Context (p : nat) (chan : Z).

Inductive wstep : wstate → wstate → Prop :=
  | w_acquire pt c l w : wstep (WState None pt c l SAcquire w) (WState (Some Sleeper) pt c l STest w)
  | w_test_true lk pt l w : wstep (WState lk pt true l STest w) (WState lk pt true l SLeave w)
  | w_test_false lk pt l w : wstep (WState lk pt false l STest w) (WState lk pt false l SLock w)
  | w_lock lk c l w : wstep (WState lk None c l SLock w) (WState lk (Some Sleeper) c l SUnlock w)
  | w_unlock lk pt c l w : wstep (WState lk pt c l SUnlock w) (WState None pt c l SMark w)
  | w_mark lk pt c l w :
      wstep (WState lk pt c l SMark w)
        (WState lk None c (upd_proc p (set_state SLEEPING) (upd_proc p (set_chan chan) l)) SAsleep w)
  | w_run lk c l w :
      st l p = RUNNABLE →
      wstep (WState lk None c l SAsleep w) (WState lk (Some Sleeper) c (upd_proc p (set_state RUNNING) l) STidy w)
  | w_tidy lk pt c l w : wstep (WState lk pt c l STidy w) (WState lk None c (upd_proc p (set_chan 0) l) SAcquire w)
  | w_leave lk pt c l w : wstep (WState lk pt c l SLeave w) (WState None pt c l SDone w)
  | w_wacquire pt c l s : wstep (WState None pt c l s WAcquire) (WState (Some Waker) pt c l s WSet)
  | w_set lk pt c l s : wstep (WState lk pt c l s WSet) (WState lk pt true l s WLock)
  | w_wlock lk c l s : wstep (WState lk None c l s WLock) (WState lk (Some Waker) c l s WWake)
  | w_wake lk pt c l s : wstep (WState lk pt c l s WWake) (WState lk pt c (wakeup1 chan l) s WUnlock)
  | w_wunlock lk pt c l s : wstep (WState lk pt c l s WUnlock) (WState lk None c l s WRelease)
  | w_wrelease lk pt c l s : wstep (WState lk pt c l s WRelease) (WState None pt c l s WDone)
  | w_spurious lk c l s w i :  (** a [kill], or a [wakeup] for another reason *)
      wstep (WState lk None c l s w) (WState lk None c (upd_proc i kill1 l) s w).

Definition holds_lk (s : spoint) : bool := match s with STest | SLock | SUnlock | SLeave => true | _ => false end.
Definition holds_pt (s : spoint) : bool := match s with SUnlock | SMark | STidy => true | _ => false end.
Definition w_holds_lk (w : wpoint) : bool := match w with WSet | WLock | WWake | WUnlock | WRelease => true | _ => false end.
Definition w_holds_pt (w : wpoint) : bool := match w with WWake | WUnlock => true | _ => false end.
Definition w_signalled (w : wpoint) : bool := match w with WAcquire | WSet => false | _ => true end.
Definition w_woken (w : wpoint) : bool := match w with WUnlock | WRelease | WDone => true | _ => false end.

Definition owner (s w : bool) : option who := if s then Some Sleeper else if w then Some Waker else None.

(** Where the sleeper is on its way to sleep with the condition false for it. *)
Definition going (x : wstate) : bool :=
  match ws_s x with
  | SMark => true
  | SAsleep => bool_decide (st (ws_tbl x) p = SLEEPING)
  | _ => false
  end.

Record winv (x : wstate) : Prop := {
  wi_range : (p < length (ws_tbl x))%nat;
  wi_lk : ws_lk x = owner (holds_lk (ws_s x)) (w_holds_lk (ws_w x));
  wi_lk1 : holds_lk (ws_s x) = true → w_holds_lk (ws_w x) = false;
  wi_pt : ws_pt x = owner (holds_pt (ws_s x)) (w_holds_pt (ws_w x));
  wi_pt1 : holds_pt (ws_s x) = true → w_holds_pt (ws_w x) = false;
  wi_state : match ws_s x with
    | SAsleep => pr_chan (get_proc p (ws_tbl x)) = chan ∧
        (st (ws_tbl x) p = SLEEPING ∨ st (ws_tbl x) p = RUNNABLE)
    | _ => st (ws_tbl x) p = RUNNING
    end;
  wi_cond : ws_cond x = w_signalled (ws_w x);
  wi_test : match ws_s x with SLock | SUnlock => ws_cond x = false | SLeave | SDone => ws_cond x = true | _ => True end;
  wi_going : going x = true → w_woken (ws_w x) = false
}.

Lemma get_kill1 i l : (p < length l)%nat →
  pr_chan (get_proc p (upd_proc i kill1 l)) = pr_chan (get_proc p l) ∧
  (st (upd_proc i kill1 l) p = st l p ∨ st l p = SLEEPING ∧ st (upd_proc i kill1 l) p = RUNNABLE).
Proof.
  intros Hp. destruct (decide (i < length l)%nat) as [Hi|Hi].
  - unfold st. rewrite get_upd by done. case_decide; [subst i|auto].
    unfold kill1. cbn. case_bool_decide; cbn; auto.
  - assert (upd_proc i kill1 l = l) as ->; [|auto].
    apply list_eq. intros j. unfold upd_proc. destruct (decide (i = j)) as [->|Hj].
    + rewrite list_lookup_alter_eq, lookup_ge_None_2 by lia. done.
    + by rewrite list_lookup_alter_ne.
Qed.

Ltac wsolve := simplify_eq/=;
  repeat match goal with H : true = true → _ |- _ => specialize (H eq_refl) end; simplify_eq/=; split; cbn; auto.

Lemma winv_step x y : winv x → wstep x y → winv y.
Proof.
  intros Hinv Hstep. destruct Hstep.
  all: destruct Hinv as [Hr Hlk Hlk1 Hpt Hpt1 Hst Hcond Htest Hgo]; cbn in Hr, Hlk, Hlk1, Hpt, Hpt1, Hst, Hcond, Htest, Hgo.
  all: try (by destruct w; wsolve).
  all: try (by destruct s; wsolve).
  - assert (Hg : get_proc p (upd_proc p (set_state SLEEPING) (upd_proc p (set_chan chan) l)) =
      set_state SLEEPING (set_chan chan (get_proc p l))).
    { rewrite get_upd by (by rewrite length_upd). rewrite decide_True by done. rewrite get_upd by done. by rewrite decide_True. }
    specialize (Hpt1 eq_refl). specialize (Hgo eq_refl).
    split; cbn; try done; try (by rewrite !length_upd); try (by rewrite Hpt1).
    unfold st. rewrite Hg. auto.
  - assert (Hw : w_holds_pt w = false) by (by destruct w).
    split; cbn; try done; try (by rewrite length_upd). rewrite st_upd by done. by rewrite decide_True.
  - specialize (Hpt1 eq_refl). split; cbn; try done; try (by rewrite length_upd); try (by rewrite Hpt1).
    rewrite st_upd by done. by rewrite decide_True.
  - assert (Hg : get_proc p (wakeup1 chan l) = wake chan (get_proc p l)) by apply get_wakeup1.
    assert (Hnp : holds_pt s = false) by (destruct (holds_pt s); [by specialize (Hpt1 eq_refl)|done]).
    split; cbn; try done; [by rewrite length_wakeup1| |].
    + destruct s; try done; unfold st in *; rewrite Hg; unfold wake; try (rewrite bool_decide_eq_false_2 by congruence; done).
      destruct Hst as [Hch Hst]. rewrite Hch, Z.eqb_refl. destruct Hst as [Hst|Hst]; rewrite Hst.
      * by auto.
      * cbn. auto.
    + unfold going. cbn. destruct s; try done. unfold st in *. rewrite Hg. destruct Hst as [Hch Hst]. unfold wake.
      rewrite Hch, Z.eqb_refl. destruct Hst as [Hst|Hst]; rewrite Hst.
      * rewrite (bool_decide_eq_true_2 (SLEEPING = SLEEPING)) by done. done.
      * rewrite (bool_decide_eq_false_2 (RUNNABLE = SLEEPING)) by done. cbn. by rewrite Hst.
  - destruct (get_kill1 i l Hr) as [Hch Hs]. split; cbn; try done; [by rewrite length_upd| |].
    + destruct s; try (destruct Hs as [->|[Hs _]]; congruence). destruct Hst as [H1 H2]. split; [congruence|].
      destruct Hs as [->|[_ ->]]; auto.
    + unfold going in *. cbn in *. destruct s; try done. intros H. apply Hgo. apply bool_decide_eq_true in H.
      apply bool_decide_eq_true. destruct Hs as [<-|[? ?]]; congruence.
Qed.

(** The steps left when the waker goes first. *)
Definition srank (s : spoint) (cond : bool) : nat :=
  match s with
  | SAcquire => if cond then 3 else 10
  | STest => if cond then 2 else 9
  | SLock => 8 | SUnlock => 7 | SMark => 6 | SAsleep => 5 | STidy => 4 | SLeave => 1 | SDone => 0
  end.
Definition wrank (w : wpoint) : nat :=
  match w with WAcquire => 6 | WSet => 5 | WLock => 4 | WWake => 3 | WUnlock => 2 | WRelease => 1 | WDone => 0 end.
Definition rank (x : wstate) : nat := 11 * wrank (ws_w x) + srank (ws_s x) (ws_cond x).

Lemma wprogress x : winv x → rank x ≠ 0%nat → ∃ y, wstep x y ∧ (rank y < rank x)%nat.
Proof.
  intros [Hr Hlk Hlk1 Hpt Hpt1 Hst Hcond Htest Hgo] Hne. destruct x as [lk pt c l s w].
  cbn in Hr, Hlk, Hlk1, Hpt, Hpt1, Hst, Hcond, Htest, Hgo. subst c. unfold rank in *. cbn in Hne.
  destruct w; cbn in *;
    try (eexists; split; [econstructor|cbn; destruct s; cbn; lia]);
    destruct s; cbn in *; subst lk pt; try (specialize (Hlk1 eq_refl)); try (specialize (Hpt1 eq_refl)); try done;
    try (eexists; split; [by econstructor|cbn; lia]).
  eexists. split; [econstructor|cbn; lia]. destruct Hst as [_ [Hst|Hst]]; [|done].
  unfold going in Hgo. cbn in Hgo. rewrite Hst in Hgo. by specialize (Hgo eq_refl).
Qed.

Lemma wfinish n x : winv x → (rank x <= n)%nat → ∃ y, rtc wstep x y ∧ rank y = 0%nat.
Proof.
  revert x. induction n as [|n IH]; intros x Hinv Hn; [exists x; split; [done|lia]|].
  destruct (decide (rank x = 0%nat)) as [H0|H0]; [by exists x|].
  destruct (wprogress x Hinv H0) as (y & Hy & Hlt).
  destruct (IH y) as (z & Hz & H); [by eapply winv_step|lia|]. exists z. split; [by eapply rtc_l|done].
Qed.

(** C15 No wakeup is lost, whatever the interleaving with the waker and with
    spurious wakeups: once the waker has called [wakeup] the sleeper is not
    asleep, the sleeper goes on only with the condition true, and from every
    reachable state the two can run to completion. *)
Theorem no_lost_wakeup l x :
  (p < length l)%nat → st l p = RUNNING →
  rtc wstep (WState None None false l SAcquire WAcquire) x →
  (w_woken (ws_w x) = true → st (ws_tbl x) p ≠ SLEEPING) ∧
  (ws_s x = SDone → ws_cond x = true) ∧
  (∃ y, rtc wstep x y ∧ ws_s y = SDone ∧ ws_w y = WDone).
Proof.
  intros Hp Hrun Hr. assert (Hinv : winv x).
  { eapply (rtc_ind_r winv); [|intros y z _ Hyz Hy; by eapply winv_step|exact Hr]. by split. }
  split_and!.
  - intros Hw Hs. pose proof (wi_going _ Hinv) as Hgo. pose proof (wi_state _ Hinv) as Hst. unfold going in Hgo.
    destruct (ws_s x); try congruence. rewrite Hs in Hgo. specialize (Hgo eq_refl). congruence.
  - intros Hs. pose proof (wi_test _ Hinv) as Ht. by rewrite Hs in Ht.
  - destruct (wfinish (rank x) x Hinv) as (y & Hy & H0); [done|]. exists y. split; [done|].
    unfold rank in H0. destruct (ws_s y) eqn:E1, (ws_w y) eqn:E2; cbn in H0; try lia; try done;
      destruct (ws_cond y); cbn in H0; lia.
Qed.
End wakeup.

(** The sleeper falls asleep before the waker starts. *)
Lemma no_lost_wakeup_witness :
  ∃ x, rtc (wstep 0 7) (WState None None false [set_state RUNNING proc0] SAcquire WAcquire) x ∧
    ws_s x = SAsleep ∧ ∃ y, rtc (wstep 0 7) x y ∧ ws_s y = SDone ∧ ws_w y = WDone.
Proof.
  assert (∃ x, rtc (wstep 0 7) (WState None None false [set_state RUNNING proc0] SAcquire WAcquire) x ∧
    ws_s x = SAsleep) as (x & Hr & Hs).
  { eexists. split.
    - do 5 (eapply rtc_l; [constructor|]). apply rtc_refl.
    - reflexivity. }
  exists x. split_and!; [done|done|].
  exact (proj2 (proj2 (no_lost_wakeup 0 7 [set_state RUNNING proc0] x ltac:(cbn; lia) eq_refl Hr))).
Defined.
