(* ===== verification/ProcClaims.v ===== *)
(** * What the calls of proc.c do

    [kill], [wait] and [growproc] on the process table, and what goes wrong in
    the corners. *)

From Stdlib Require Import ZArith Lia String.
From stdpp Require Import base numbers list strings.
From S2P Require Import Prelude Mem Mmu Kalloc Vm VmCopy Spinlock Proc ProcFacts.

(** A file system that accepts every call. *)
#[export] Instance no_files : FileOps unit := {|
  fo_filedup _ := ret tt;
  fo_fileclose _ := ret tt;
  fo_idup _ := ret tt;
  fo_iput _ := ret tt;
  fo_begin_op := ret tt;
  fo_end_op := ret tt;
  fo_namei_root := ret (Some 0%nat);
  fo_init := ret tt
|}.

Definition demo_machine : machine := Machine (λ _, 0) false true 0x80400000 0x803ff000 0 [].

(** One process runs, the other slots are as at boot. *)
Definition demo_proc : proc :=
  Proc 4096 0x80405000 0x80406000 RUNNING 1 None 0x80406fb4 0x80406f9c 0 false (replicate NOFILE None) (Some 0%nat) [].
Definition demo_kstate : kstate unit :=
  KState demo_machine (Cpu 0 false true) (Some 0%nat) 0 false (demo_proc :: replicate 63 proc0) 2 (Some 0%nat) false tt.

Definition result {S A} (o : outcome S A) : option (A * S) := match o with Done a s => Some (a, s) | _ => None end.

(** Process identifier 0 belongs to no process, but [kill(0)] succeeds: it marks
    a free slot as killed, and since [allocproc] does not clear the mark the
    next process created there is born killed. *)
Lemma kill_zero_kills_newborn :
  match result (kill 0 demo_kstate) with
  | Some (r, s1) =>
      r = 0 ∧
      match result (allocproc 0 0 s1) with
      | Some (Some i, s2) => pr_state (get_proc i (procs s2)) = EMBRYO ∧ pr_killed (get_proc i (procs s2)) = true
      | _ => False
      end
  | None => False
  end.
Proof. vm_compute. auto. Qed.

(** ** Running the operations *)

Section runs.
Context {F : Type} `{!FileOps F}.
Implicit Types s : kstate F.

Lemma on_c_run {A} (m : M cpu A) s a c : m (k_cpu s) = Done a c → on_c m s = Done a (set_k_cpu c s).
Proof. unfold on_c, lift. by intros ->. Qed.

Lemma on_m_run {A} (m : M machine A) s a k : m (k_m s) = Done a k → on_m m s = Done a (set_k_m k s).
Proof. unfold on_m, lift. by intros ->. Qed.

Lemma on_fs_run {A} (m : M F A) s a k : m (k_fs s) = Done a k → on_fs m s = Done a (set_k_fs k s).
Proof. unfold on_fs, lift. by intros ->. Qed.

(** Interrupts are off [d] levels deep, over the flag [f]. *)
Definition quiet (f : bool) (d : Z) (s : kstate F) : Prop := cli_state f d (k_cpu s).

Lemma curproc_run f d s i : quiet f d s → cproc s = Some i →
  ∃ c, curproc s = Done i (set_k_cpu c s) ∧ cli_state f d c.
Proof.
  intros Hq Hi. destruct (pushcli_state f d (k_cpu s) Hq) as (c1 & H1 & Hc1).
  destruct (popcli_state f (d + 1) c1 Hc1) as (c2 & H2 & Hc2); [destruct Hq; lia|].
  replace (d + 1 - 1) with d in Hc2 by lia. exists c2. split; [|done].
  unfold curproc, myproc. mcall (on_c_run pushcli s _ _ H1). mcall (on_c_run popcli (set_k_cpu c1 s) _ _ H2).
  cbn [set_k_cpu cproc]. rewrite Hi. by destruct s.
Qed.

Lemma pt_acquire_run f d s : quiet f d s → pt_lock s = false →
  ∃ c, pt_acquire s = Done tt (set_pt_lock true (set_k_cpu c s)) ∧ cli_state f (d + 1) c.
Proof.
  intros Hq Hl. destruct (pushcli_state f d (k_cpu s) Hq) as (c1 & H1 & Hc1). exists c1. split; [|done].
  unfold pt_acquire. mcall (on_c_run pushcli s _ _ H1). unfold acquire. cbn [set_k_cpu pt_lock]. by rewrite Hl.
Qed.

Lemma pt_release_run f d s : quiet f (d + 1) s → 0 <= d → pt_lock s = true →
  ∃ c, pt_release s = Done tt (set_k_cpu c (set_pt_lock false s)) ∧ cli_state f d c.
Proof.
  intros Hq Hd Hl. unfold pt_release. mcall (release_run pt_lock set_pt_lock s Hl).
  destruct (popcli_state f (d + 1) (k_cpu s) Hq) as (c1 & H1 & Hc1); [lia|].
  replace (d + 1 - 1) with d in Hc1 by lia. exists c1. split; [|done]. by apply on_c_run.
Qed.

(** Shrinking a process to nothing frees its memory, but [deallocuvm] returns
    the new size 0, which [growproc] takes for a failure: it reports an error
    and the process keeps its old size over memory that is gone. *)
Lemma growproc_to_zero kend f d s i m :
  quiet f d s → cproc s = Some i → 0 < pr_sz (get_proc i (procs s)) < 2147483648 →
  deallocuvm kend (pr_pgdir (get_proc i (procs s))) (pr_sz (get_proc i (procs s))) 0 (k_m s) = Done 0 m →
  ∃ s', growproc kend (- pr_sz (get_proc i (procs s))) s = Done (-1) s' ∧ procs s' = procs s ∧ k_m s' = m.
Proof.
  intros Hq Hi Hsz Hd. destruct (curproc_run f d s i Hq Hi) as (c & Hc & _).
  unfold growproc. mcall Hc. cbn [set_k_cpu procs].
  set (p := get_proc i (procs s)) in *. rewrite Z.gtb_ltb. ztest (0 <? - pr_sz p) is false. ztest (- pr_sz p <? 0) is true.
  replace (u32 (pr_sz p + - pr_sz p)) with 0 by (rewrite Z.add_opp_diag_r; done).
  mcall (on_m_run (deallocuvm kend (pr_pgdir p) (pr_sz p) 0) (set_k_cpu c s) _ _ Hd).
  ztest (- pr_sz p =? 0) is false. cbn. eexists. split_and!; done.
Qed.

(** ** fork *)

(** Slot [i] holds [p], the others are as in [l]. *)
Definition slot (i : nat) (p : proc) (l l' : list proc) : Prop :=
  length l' = length l ∧ get_proc i l' = p ∧ ∀ j, j ≠ i → get_proc j l' = get_proc j l.

Lemma slot_init i l : slot i (get_proc i l) l l.
Proof. done. Qed.

Lemma slot_upd i p l l' f : (i < length l)%nat → slot i p l l' → slot i (f p) l (upd_proc i f l').
Proof.
  intros Hi (Hl & Hp & Ho). split_and!; [by rewrite length_upd| |].
  - rewrite get_upd, decide_True by (done || lia). by rewrite Hp.
  - intros j Hj. rewrite get_upd, decide_False by (done || lia). by apply Ho.
Qed.

(** The kernel stack [allocproc] prepares in page [ks]. *)
Definition fresh_stack (forkret_addr trapret_addr ks : Z) (m : machine) : machine :=
  let tf := ks + KSTACKSIZE - 76 in
  let context := tf - 4 - 20 in
  set_ram (store32 (fill (store32 (ram m) (tf - 4) trapret_addr) context 0 20) (context + 16) forkret_addr) m.

Definition embryo (pid ks : Z) (p : proc) : proc :=
  let tf := ks + KSTACKSIZE - 76 in
  set_context (tf - 4 - 20) (set_tf tf (set_kstack ks (set_pid pid (set_state EMBRYO p)))).

Lemma allocproc_run fr tr f d s np ks m :
  quiet f d s → 0 <= d → pt_lock s = false → (np < length (procs s))%nat →
  find_proc (λ p, bool_decide (pr_state p = UNUSED)) 0 (procs s) = Some np →
  kalloc (k_m s) = Done ks m → ks ≠ 0 →
  ∃ c l, allocproc fr tr s = Done (Some np)
      (KState (fresh_stack fr tr ks m) c (cproc s) (esp0 s) false l (s32 (nextpid s + 1)) (initproc s) (first s) (k_fs s)) ∧
    cli_state f d c ∧ slot np (embryo (nextpid s) ks (get_proc np (procs s))) (procs s) l.
Proof.
  intros Hq Hd Hl Hnp Hf Hk Hks. unfold allocproc.
  destruct (pt_acquire_run f d s Hq Hl) as (c1 & H1 & Hc1). mcall H1. cbn [set_pt_lock set_k_cpu procs nextpid]. rewrite Hf. unfold upd. mrun.
  set (s2 := set_nextpid _ _).
  destruct (pt_release_run f d s2) as (c2 & H2 & Hc2); [done|done|done|]. mcall H2.
  set (s3 := set_k_cpu c2 _). assert (Hk3 : k_m s3 = k_m s) by done.
  rewrite <- Hk3 in Hk. mcall (on_m_run kalloc s3 _ _ Hk). apply Z.eqb_neq in Hks. rewrite Hks. mrun.
  eexists c2, _. split; [|split; [done|]].
  - unfold on_m, lift, st32, memset_at. mrun. cbn. reflexivity.
  - cbn. unfold embryo.
    apply (slot_upd np _ _ _ (set_context _)); [done|]. apply (slot_upd np _ _ _ (set_tf _)); [done|].
    apply (slot_upd np _ _ _ (set_kstack _)); [done|]. apply (slot_upd np _ _ _ (set_pid _)); [done|].
    apply (slot_upd np _ _ _ (set_state _)); [done|]. apply slot_init.
Qed.

(** The open files of [files] are entered from descriptor [fd] on. *)
Fixpoint merge_files (files : list (option nat)) (fd : nat) (l : list (option nat)) : list (option nat) :=
  match files with
  | [] => l
  | f :: files' => merge_files files' (S fd) (match f with Some x => <[fd := Some x]> l | None => l end)
  end.

Lemma merge_files_empty files k pre : length pre = k →
  merge_files files k (pre ++ replicate (length files) None) = pre ++ files.
Proof.
  revert k pre. induction files as [|f files IH]; intros k pre Hk; cbn [merge_files length replicate]; [done|].
  replace (match f with Some x => <[k := Some x]> (pre ++ None :: replicate (length files) None) | None => pre ++ None :: replicate (length files) None end)
    with ((pre ++ [f]) ++ replicate (length files) None).
  - rewrite IH by (rewrite length_app; cbn; lia). by rewrite <- app_assoc.
  - rewrite <- app_assoc. destruct f as [x|]; [|done]. by rewrite insert_app_r_alt, Hk, Nat.sub_diag by lia.
Qed.

(** The calls of [filedup] for a list of descriptors. *)
Definition dup_all (dup : nat → F → F) (files : list (option nat)) (fs : F) : F :=
  fold_left (λ fs o, match o with Some x => dup x fs | None => fs end) files fs.

Lemma set_ofile_twice v w p : set_ofile v (set_ofile w p) = set_ofile v p.
Proof. done. Qed.
Lemma set_ofile_same p : set_ofile (pr_ofile p) p = p.
Proof. by destruct p. Qed.

Lemma fork_files_run dup files fd np s p l :
  (∀ x fs, fo_filedup x fs = Done tt (dup x fs)) → (np < length l)%nat → slot np p l (procs s) →
  ∃ l', fork_files files fd np s = Done tt (set_k_fs (dup_all dup files (k_fs s)) (set_procs l' s)) ∧
    slot np (set_ofile (merge_files files fd (pr_ofile p)) p) l l'.
Proof.
  intros Hdup Hnp. revert fd s p. induction files as [|f files IH]; intros fd s p Hs; cbn [fork_files merge_files].
  - exists (procs s). rewrite set_ofile_same. split; [by destruct s|done].
  - destruct f as [x|]; [|apply IH, Hs].
    mcall (on_fs_run (fo_filedup x) s _ _ (Hdup x (k_fs s))).
    set (g := λ q : proc, set_ofile (<[fd := Some x]> (pr_ofile q)) q).
    destruct (IH (S fd) (set_procs (upd_proc np g (procs s)) (set_k_fs (dup x (k_fs s)) s)) (g p)) as (l' & H1 & H2);
      [by apply (slot_upd np _ _ _ g)|].
    exists l'. split; [exact H1|exact H2].
Qed.

(** The child's entry in the table, from the parent's [cur] and the free slot's [p]. *)
Definition child (i : nat) (cur : proc) (pid ks d : Z) (p : proc) : proc :=
  let tf := ks + KSTACKSIZE - 76 in
  Proc (pr_sz cur) d ks RUNNABLE pid (Some i) tf (tf - 4 - 20) (pr_chan p) (pr_killed p)
    (pr_ofile cur) (pr_cwd cur) (take 15 (pr_name cur)).

(** The memory once the child's trap frame is filled in. *)
Definition child_frame (ks tf_cur : Z) (m : machine) : machine :=
  let tf := ks + KSTACKSIZE - 76 in
  set_ram (store32 (blit (ram m) tf tf_cur 76) (tf + 28) 0) m.

Lemma fork_run kend kdata fr tr dup idup f d s i np ks ip m d2 m2 :
  (∀ x fs, fo_filedup x fs = Done tt (dup x fs)) → (∀ x fs, fo_idup x fs = Done tt (idup x fs)) →
  quiet f d s → 0 <= d → pt_lock s = false → cproc s = Some i → (np < length (procs s))%nat → i ≠ np →
  find_proc (λ p, bool_decide (pr_state p = UNUSED)) 0 (procs s) = Some np →
  let cur := get_proc i (procs s) in
  pr_ofile (get_proc np (procs s)) = replicate (length (pr_ofile cur)) None → pr_cwd cur = Some ip →
  kalloc (k_m s) = Done ks m → ks ≠ 0 →
  copyuvm kend kdata (pr_pgdir cur) (pr_sz cur) (fresh_stack fr tr ks m) = Done d2 m2 → d2 ≠ 0 →
  ∃ s', fork kend kdata fr tr s = Done (nextpid s) s' ∧
    slot np (child i cur (nextpid s) ks d2 (get_proc np (procs s))) (procs s) (procs s') ∧
    k_m s' = child_frame ks (pr_tf cur) m2 ∧
    k_fs s' = idup ip (dup_all dup (pr_ofile cur) (k_fs s)) ∧
    pt_lock s' = false ∧ quiet f d s' ∧ cproc s' = Some i.
Proof.
  intros Hdup Hidup Hq Hd Hl Hi Hnp Hne Hf cur Ho Hw Hk Hks Hcp Hd2. unfold fork.
  destruct (curproc_run f d s i Hq Hi) as (c0 & H0 & Hc0). mcall H0.
  destruct (allocproc_run fr tr f d (set_k_cpu c0 s) np ks m Hc0 Hd Hl Hnp Hf Hk Hks) as (c1 & l1 & H1 & Hc1 & Hs1).
  mcall H1. cbn [set_k_cpu procs cproc esp0 nextpid initproc first k_fs] in *.
  replace (get_proc i l1) with cur by (symmetry; by apply Hs1).
  set (s1 := KState _ c1 _ _ _ l1 _ _ _ _).
  mcall (on_m_run (copyuvm kend kdata (pr_pgdir cur) (pr_sz cur)) s1 _ _ Hcp).
  apply Z.eqb_neq in Hd2. rewrite Hd2. unfold upd. mrun.
  pose proof (slot_upd _ _ _ _ (set_parent (Some i)) Hnp (slot_upd _ _ _ _ (set_sz (pr_sz cur)) Hnp (slot_upd _ _ _ _ (set_pgdir d2) Hnp Hs1))) as Hs2.
  cbn [set_k_m set_procs procs s1]. set (l2 := upd_proc np (set_parent _) _) in *.
  replace (pr_tf (get_proc np l2)) with (ks + KSTACKSIZE - 76) by (by destruct Hs2 as (_ & -> & _)).
  set (s2 := set_procs l2 _).
  mcall (on_m_run _ s2 _ _ (memmove_run (k_m s2) (ks + KSTACKSIZE - 76) (pr_tf cur) 76)).
  set (s3 := set_k_m _ s2).
  assert (H3 : on_m (st32 (ks + KSTACKSIZE - 76 + 28) 0) s3 = Done tt (set_k_m (child_frame ks (pr_tf cur) m2) s2)) by done.
  mcall H3. set (s4 := set_k_m _ s2).
  destruct (fork_files_run dup (pr_ofile cur) 0 np s4 _ (procs s) Hdup Hnp Hs2) as (l5 & H5 & Hs5). mcall H5.
  rewrite Hw. set (s5 := set_k_fs _ _). mcall (on_fs_run (fo_idup ip) s5 _ _ (Hidup ip (k_fs s5))).
  cbn [set_procs set_k_fs procs s5].
  pose proof (slot_upd _ _ _ _ (set_name (take 15 (pr_name cur))) Hnp (slot_upd _ _ _ _ (set_cwd (Some ip)) Hnp Hs5)) as Hs6.
  set (l6 := upd_proc np (set_name _) _) in *.
  replace (pr_pid (get_proc np l6)) with (nextpid s) by (by destruct Hs6 as (_ & -> & _)).
  set (s6 := set_procs l6 _).
  destruct (pt_acquire_run f d s6 Hc1 eq_refl) as (c7 & H7 & Hc7). mcall H7.
  set (s7 := set_procs (upd_proc np _ _) _).
  destruct (pt_release_run f d s7 Hc7 Hd eq_refl) as (c8 & H8 & Hc8). mcall H8.
  eexists. split; [reflexivity|]. split_and!; try done.
  pose proof (slot_upd _ _ _ _ (set_state RUNNABLE) Hnp Hs6) as Hs8. cbn in Hs8 |- *. revert Hs8.
  pose proof (merge_files_empty (pr_ofile cur) 0 [] eq_refl) as Hm. cbn [app] in Hm.
  rewrite Ho, Hm, <- Hw. done.
Qed.

Lemma fork_fail_run kend kdata fr tr f d s i np ks m m2 m3 :
  quiet f d s → 0 <= d → pt_lock s = false → cproc s = Some i → (np < length (procs s))%nat → i ≠ np →
  find_proc (λ p, bool_decide (pr_state p = UNUSED)) 0 (procs s) = Some np →
  let cur := get_proc i (procs s) in
  kalloc (k_m s) = Done ks m → ks ≠ 0 →
  copyuvm kend kdata (pr_pgdir cur) (pr_sz cur) (fresh_stack fr tr ks m) = Done 0 m2 → kfree kend ks m2 = Done tt m3 →
  ∃ s' p, fork kend kdata fr tr s = Done (-1) s' ∧ pr_state p = UNUSED ∧ pr_kstack p = 0 ∧
    slot np p (procs s) (procs s') ∧ k_m s' = m3 ∧ k_fs s' = k_fs s ∧ pt_lock s' = false ∧ quiet f d s'.
Proof.
  intros Hq Hd Hl Hi Hnp Hne Hf cur Hk Hks Hcp Hkf. unfold fork.
  destruct (curproc_run f d s i Hq Hi) as (c0 & H0 & Hc0). mcall H0.
  destruct (allocproc_run fr tr f d (set_k_cpu c0 s) np ks m Hc0 Hd Hl Hnp Hf Hk Hks) as (c1 & l1 & H1 & Hc1 & Hs1).
  mcall H1. cbn [set_k_cpu procs cproc esp0 nextpid initproc first k_fs] in *.
  replace (get_proc i l1) with cur by (symmetry; by apply Hs1).
  set (s1 := KState _ c1 _ _ _ l1 _ _ _ _).
  mcall (on_m_run (copyuvm kend kdata (pr_pgdir cur) (pr_sz cur)) s1 _ _ Hcp). cbn [Z.eqb].
  pose proof (slot_upd _ _ _ _ (set_pgdir 0) Hnp Hs1) as Hs2.
  unfold upd. mrun. cbn [set_k_m set_procs procs s1]. set (l2 := upd_proc np (set_pgdir 0) l1) in *.
  replace (pr_kstack (get_proc np l2)) with ks by (by destruct Hs2 as (_ & -> & _)).
  set (s2 := set_procs l2 (set_k_m m2 s1)). mcall (on_m_run (kfree kend ks) s2 _ _ Hkf). eexists _, _. split; [reflexivity|].
  split; [|split; [|split; [apply (slot_upd _ _ _ _ (set_state UNUSED) Hnp (slot_upd _ _ _ _ (set_kstack 0) Hnp Hs2))|done]]]; done.
Qed.

End runs.

(** A file system that records the calls. *)
#[export] Instance call_log : FileOps (list nat) := {|
  fo_filedup x := modify (cons x);
  fo_fileclose _ := ret tt;
  fo_idup x := modify (cons x);
  fo_iput _ := ret tt;
  fo_begin_op := ret tt;
  fo_end_op := ret tt;
  fo_namei_root := ret (Some 0%nat);
  fo_init := ret tt
|}.

(** One free page, which [fork] takes for the stack; there is none left for the
    child's directory. *)
Definition fork_kstate : kstate (list nat) :=
  KState demo_machine (Cpu 0 false true) (Some 0%nat) 0 false (demo_proc :: replicate 63 proc0) 2 (Some 0%nat) false [].

Definition fork_m : machine := fresh_stack 1 2 0x80400000 (state_after demo_machine (kalloc demo_machine)).
Definition fork_m2 : machine := state_after demo_machine (copyuvm 0x80200000 0x80110000 0x80405000 4096 fork_m).
Definition fork_m3 : machine := state_after demo_machine (kfree 0x80200000 0x80400000 fork_m2).

