(* ===== verification/Blocks.v ===== *)
(** * Blocks as the file system uses them (the interface of bio.c and log.c)

    fs.c reads, changes and logs blocks through [bread], [log_write] and
    [brelse].  [BlockOps] names these operations on an abstract state,
    [BlockStore] states what the file system relies on; [LogStore.v] shows that
    the buffer cache and the log provide it. *)

From Stdlib Require Import ZArith Lia.
From stdpp Require Import base numbers list gmap.
From S2P Require Import Prelude Mem Bio.

Class BlockOps (S : Type) : Type := {
  bo_bread : Z → Z → M S nat;
  bo_data : nat → S → blk;
  bo_set_data : nat → blk → S → S;
  bo_log_write : nat → M S unit;
  bo_brelse : nat → M S unit
}.

(** [bs_ok H T s]: the running process holds the buffers [H], given with their
    blocks, and the blocks [T] belong to the current transaction.  [bs_view s b]
    is the content of block [b] of the device.  At most two buffers are held at
    a time and a transaction has at most [bs_cap] blocks. *)
Class BlockStore (S : Type) (dev : Z) `{!BlockOps S} : Type := {
  bs_ok : list (nat * Z) → gset Z → S → Prop;
  bs_view : S → Z → blk;
  bs_good : Z → Prop;
  bs_cap : nat;
  bs_bread : ∀ H T s b, bs_ok H T s → bs_good b → (b ∉ H.*2) → (length H < 2)%nat →
    ∃ h s', bo_bread dev b s = Done h s' ∧ bs_ok ((h, b) :: H) T s' ∧ ∀ b', bs_view s' b' = bs_view s b';
  bs_data : ∀ H T s h b, bs_ok H T s → (h, b) ∈ H → bo_data h s = bs_view s b;
  bs_log_write : ∀ H T s h b d, bs_ok H T s → (h, b) ∈ H → (size ({[b]} ∪ T : gset Z) <= bs_cap)%nat →
    ∃ s', bo_log_write h (bo_set_data h d s) = Done tt s' ∧ bs_ok H ({[b]} ∪ T) s' ∧
      ∀ b', bs_view s' b' = if b' =? b then d else bs_view s b';
  bs_brelse : ∀ H T s h b, bs_ok ((h, b) :: H) T s →
    ∃ s', bo_brelse h s = Done tt s' ∧ bs_ok H T s' ∧ ∀ b', bs_view s' b' = bs_view s b'
}.
