(* ===== verification/Fs.v ===== *)
(** * The file system (fs.c, fs.h, file.h, stat.h)

    The block allocator, inodes and their cache, file contents, directories and
    path names, over the block operations of [Blocks.v].  The inode cache is a
    list; a pointer to an inode is its index.  The buffers a caller passes are
    memories ([readi] returns the changed one); names and paths are the bytes of
    the character arrays. *)

From Stdlib Require Import ZArith Lia String.
From stdpp Require Import base numbers list strings.
From S2P Require Import Prelude Mem Str Sleeplock Bio Log Blocks Printf.

Definition ROOTINO : Z := 1.
Definition ROOTDEV : Z := 1.
Definition NINODE : nat := 50.
Definition NDEV : Z := 10.
Definition NDIRECT : Z := 12.
Definition NINDIRECT : Z := BSIZE / 4.
Definition MAXFILE : Z := NDIRECT + NINDIRECT.
Definition IPB : Z := BSIZE / 64.
Definition BPB : Z := BSIZE * 8.
Definition DIRSIZ : Z := 14.
Definition T_DIR : Z := 1.
Definition T_FILE : Z := 2.
Definition T_DEV : Z := 3.

Definition IBLOCK (i : Z) (sb : superblock) : Z := u32 (i / IPB + sb_inodestart sb).
Definition BBLOCK (b : Z) (sb : superblock) : Z := u32 (b / BPB + sb_bmapstart sb).

Definition load16 (m : mem) (a : Z) : Z := m a + 256 * m (a + 1).
Definition store16 (m : mem) (a v : Z) : mem := store8 (store8 m a v) (a + 1) (Z.shiftr v 8).

(** [memmove] between two memories. *)
Definition copy_mem (m : mem) (d : Z) (from : mem) (s n : Z) : mem := λ x,
  if (d <=? x) && (x <? d + n) then from (s + (x - d)) else m x.

Record inode : Type := Inode {
  i_dev : Z;
  i_inum : Z;
  i_ref : Z;
  i_lock : sleeplock;
  i_valid : bool;
  i_type : Z;
  i_major : Z;
  i_minor : Z;
  i_nlink : Z;
  i_size : Z;
  i_addrs : list Z
}.

Definition set_i_ref v ip := Inode (i_dev ip) (i_inum ip) v (i_lock ip) (i_valid ip) (i_type ip) (i_major ip) (i_minor ip) (i_nlink ip) (i_size ip) (i_addrs ip).
Definition set_i_lock v ip := Inode (i_dev ip) (i_inum ip) (i_ref ip) v (i_valid ip) (i_type ip) (i_major ip) (i_minor ip) (i_nlink ip) (i_size ip) (i_addrs ip).
Definition set_i_valid v ip := Inode (i_dev ip) (i_inum ip) (i_ref ip) (i_lock ip) v (i_type ip) (i_major ip) (i_minor ip) (i_nlink ip) (i_size ip) (i_addrs ip).
Definition set_i_type v ip := Inode (i_dev ip) (i_inum ip) (i_ref ip) (i_lock ip) (i_valid ip) v (i_major ip) (i_minor ip) (i_nlink ip) (i_size ip) (i_addrs ip).
Definition set_i_major v ip := Inode (i_dev ip) (i_inum ip) (i_ref ip) (i_lock ip) (i_valid ip) (i_type ip) v (i_minor ip) (i_nlink ip) (i_size ip) (i_addrs ip).
Definition set_i_minor v ip := Inode (i_dev ip) (i_inum ip) (i_ref ip) (i_lock ip) (i_valid ip) (i_type ip) (i_major ip) v (i_nlink ip) (i_size ip) (i_addrs ip).
Definition set_i_nlink v ip := Inode (i_dev ip) (i_inum ip) (i_ref ip) (i_lock ip) (i_valid ip) (i_type ip) (i_major ip) (i_minor ip) v (i_size ip) (i_addrs ip).
Definition set_i_size v ip := Inode (i_dev ip) (i_inum ip) (i_ref ip) (i_lock ip) (i_valid ip) (i_type ip) (i_major ip) (i_minor ip) (i_nlink ip) v (i_addrs ip).
Definition set_i_addrs v ip := Inode (i_dev ip) (i_inum ip) (i_ref ip) (i_lock ip) (i_valid ip) (i_type ip) (i_major ip) (i_minor ip) (i_nlink ip) (i_size ip) v.

Definition inode0 : inode := Inode 0 0 0 initsleeplock false 0 0 0 0 0 (replicate 13 0).

(** [ip->addrs[k]] and its assignment. *)
Definition addr_at (k : Z) (ip : inode) : Z := nth (Z.to_nat k) (i_addrs ip) 0.
Definition set_addr (k v : Z) (ip : inode) : inode := set_i_addrs (<[Z.to_nat k := v]> (i_addrs ip)) ip.

(** A disk inode at offset [o] of a block: [iupdate] stores the fields of the
    cached inode, [ilock] loads them. *)
Fixpoint store_words (d : blk) (a : Z) (l : list Z) : blk :=
  match l with
  | [] => d
  | w :: l' => store_words (store32 d a w) (a + 4) l'
  end.

Definition load_words (d : blk) (a : Z) (n : nat) : list Z :=
  (λ k, load32 d (a + 4 * Z.of_nat k)) <$> seq 0 n.

Definition dinode_store (ip : inode) (o : Z) (d : blk) : blk :=
  let d1 := store16 d o (i_type ip) in
  let d2 := store16 d1 (o + 2) (i_major ip) in
  let d3 := store16 d2 (o + 4) (i_minor ip) in
  let d4 := store16 d3 (o + 6) (i_nlink ip) in
  let d5 := store32 d4 (o + 8) (i_size ip) in
  store_words d5 (o + 12) (i_addrs ip).

Definition dinode_load (d : blk) (o : Z) (ip : inode) : inode :=
  Inode (i_dev ip) (i_inum ip) (i_ref ip) (i_lock ip) (i_valid ip)
        (s16 (load16 d o)) (s16 (load16 d (o + 2))) (s16 (load16 d (o + 4))) (s16 (load16 d (o + 6)))
        (load32 d (o + 8)) (load_words d (o + 12) 13).

(** The offset of an inode in its block. *)
Definition dinode_off (inum : Z) : Z := 64 * (inum mod IPB).

(** The blocks, the superblock, the inode cache with its lock, the running
    process, the wakeups it issued and the text it printed. *)
Record fstate {B : Type} : Type := FState {
  f_bs : B;
  f_sb : superblock;
  ic_lock : bool;
  inodes : list inode;
  f_pid : Z;
  f_woken : list Z;
  f_out : list Z
}.
#[global] Arguments fstate B : clear implicits.
#[global] Arguments FState {B}.

Section state.
Context {B : Type}.
Definition set_f_bs (b : B) (s : fstate B) := FState b (f_sb s) (ic_lock s) (inodes s) (f_pid s) (f_woken s) (f_out s).
Definition set_f_sb sb (s : fstate B) := FState (f_bs s) sb (ic_lock s) (inodes s) (f_pid s) (f_woken s) (f_out s).
Definition set_ic_lock b (s : fstate B) := FState (f_bs s) (f_sb s) b (inodes s) (f_pid s) (f_woken s) (f_out s).
Definition set_inodes l (s : fstate B) := FState (f_bs s) (f_sb s) (ic_lock s) l (f_pid s) (f_woken s) (f_out s).
Definition set_f_woken w (s : fstate B) := FState (f_bs s) (f_sb s) (ic_lock s) (inodes s) (f_pid s) w (f_out s).
Definition set_f_out o (s : fstate B) := FState (f_bs s) (f_sb s) (ic_lock s) (inodes s) (f_pid s) (f_woken s) o.

Definition the_inode (i : nat) (s : fstate B) : inode := default inode0 (inodes s !! i).
Definition upd_inode (i : nat) (f : inode → inode) : M (fstate B) unit :=
  modify (λ s, set_inodes (alter f i (inodes s)) s).

(** The address of the lock of inode [i] relative to [icache.inode]: the channel
    to sleep on. *)
Definition ilock_chan (i : nat) : Z := 144 * Z.of_nat i + 12.

Definition on_ilock {A} (i : nat) (m : M slview A) : M (fstate B) A :=
  lift (λ s, SlView (i_lock (the_inode i s)) (f_woken s))
       (λ v s, set_f_woken (sv_woken v) (set_inodes (alter (set_i_lock (sv_lock v)) i (inodes s)) s)) m.
End state.

(** A device's read or write function: inode, buffer, address in it, count. *)
Definition devfn (B : Type) : Type := nat → mem → Z → Z → M (fstate B) (Z * mem).

Section fs.
Context {B : Type} `{!BlockOps B}.
(** [devsw]: the read and write functions of the devices. *)
Context (devsw_read devsw_write : Z → option (devfn B)).

Definition on_bs {A} (m : M B A) : M (fstate B) A := lift f_bs set_f_bs m.
Definition b_bytes (h : nat) : M (fstate B) blk := gets (λ s, bo_data h (f_bs s)).
(** An assignment to [bp->data]. *)
Definition b_update (h : nat) (f : blk → blk) : M (fstate B) unit :=
  on_bs (modify (λ s, bo_set_data h (f (bo_data h s)) s)).

Definition fs_bread (dev b : Z) : M (fstate B) nat := on_bs (bo_bread dev b).
Definition fs_log_write (h : nat) : M (fstate B) unit := on_bs (bo_log_write h).
Definition fs_brelse (h : nat) : M (fstate B) unit := on_bs (bo_brelse h).

(** ** Blocks *)

Definition bzero (dev bno : Z) : M (fstate B) unit :=
  bp <- fs_bread dev bno ;;
  b_update bp (λ d, fill d 0 0 BSIZE) ;;;
  fs_log_write bp ;;;
  fs_brelse bp.

(** The test and the update of bit [bi] of a bitmap block. *)
Definition bit_mask (bi : Z) : Z := Z.shiftl 1 (bi mod 8).
Definition bit_set (d : blk) (bi : Z) : bool := negb (Z.land (d (bi / 8)) (bit_mask bi) =? 0).
Definition set_bit (d : blk) (bi : Z) : blk := store8 d (bi / 8) (Z.lor (d (bi / 8)) (bit_mask bi)).
Definition clear_bit (d : blk) (bi : Z) : blk := store8 d (bi / 8) (Z.land (d (bi / 8)) (Z.lnot (bit_mask bi))).

(** The inner loop of [balloc], from [bi] on. *)
Fixpoint balloc_scan (k : nat) (d : blk) (size b bi : Z) : option Z :=
  match k with
  | O => None
  | S k' =>
      if (bi <? BPB) && (b + bi <? size) then
        if negb (bit_set d bi) then Some bi else balloc_scan k' d size b (bi + 1)
      else None
  end.

Fixpoint balloc_loop (fuel : nat) (dev b : Z) : M (fstate B) Z :=
  sb <- gets f_sb ;;
  if b <? sb_size sb then
    match fuel with
    | O => nofuel
    | S fuel' =>
        bp <- fs_bread dev (BBLOCK b sb) ;;
        d <- b_bytes bp ;;
        match balloc_scan (Z.to_nat BPB) d (sb_size sb) b 0 with
        | Some bi =>
            b_update bp (λ d, set_bit d bi) ;;;
            fs_log_write bp ;;;
            fs_brelse bp ;;;
            bzero dev (b + bi) ;;;
            ret (b + bi)
        | None =>
            fs_brelse bp ;;;
            balloc_loop fuel' dev (b + BPB)
        end
    end
  else panic "balloc: out of blocks".

Definition balloc (dev : Z) : M (fstate B) Z :=
  sb <- gets f_sb ;;
  balloc_loop (S (Z.to_nat (sb_size sb / BPB))) dev 0.

Definition bfree (dev b : Z) : M (fstate B) unit :=
  sb <- gets f_sb ;;
  bp <- fs_bread dev (BBLOCK b sb) ;;
  let bi := b mod BPB in
  d <- b_bytes bp ;;
  if negb (bit_set d bi) then panic "freeing free block"
  else
    b_update bp (λ d, clear_bit d bi) ;;;
    fs_log_write bp ;;;
    fs_brelse bp.

(** ** Inodes *)

Definition iinit_format : list Z :=
  codes "sb: size %d nblocks %d ninodes %d nlog %d logstart %d inodestart %d bmap start %d" ++ [10].

Definition iinit (dev : Z) : M (fstate B) unit :=
  modify (set_ic_lock false) ;;;
  modify (λ s, set_inodes (set_i_lock initsleeplock <$> inodes s) s) ;;;
  bp <- fs_bread dev 1 ;;
  d <- b_bytes bp ;;
  fs_brelse bp ;;;
  let sb := sb_decode d in
  modify (set_f_sb sb) ;;;
  let args := [sb_size sb; sb_nblocks sb; sb_ninodes sb; sb_nlog sb; sb_logstart sb; sb_inodestart sb; sb_bmapstart sb] in
  match cprintf_text 1 (λ _, 0) (λ k, nth k args 0) iinit_format with
  | Some t => modify (λ s, set_f_out (f_out s ++ t) s)
  | None => nofuel
  end.

(** The scan of [iget]: the entry of the inode, or the first empty one. *)
Fixpoint iget_scan (dev inum : Z) (i : nat) (l : list inode) (empty : option nat) : nat + option nat :=
  match l with
  | [] => inr empty
  | ip :: l' =>
      if (i_ref ip >? 0) && (i_dev ip =? dev) && (i_inum ip =? inum) then inl i
      else iget_scan dev inum (S i) l'
             (match empty with None => if i_ref ip =? 0 then Some i else None | Some _ => empty end)
  end.

Definition iget (dev inum : Z) : M (fstate B) nat :=
  acquire ic_lock set_ic_lock ;;;
  l <- gets inodes ;;
  match iget_scan dev inum 0 l None with
  | inl i =>
      upd_inode i (λ ip, set_i_ref (i_ref ip + 1) ip) ;;;
      release ic_lock set_ic_lock ;;;
      ret i
  | inr None => panic "iget: no inodes"
  | inr (Some i) =>
      upd_inode i (λ ip, Inode dev inum 1 (i_lock ip) false (i_type ip) (i_major ip) (i_minor ip) (i_nlink ip) (i_size ip) (i_addrs ip)) ;;;
      release ic_lock set_ic_lock ;;;
      ret i
  end.

Definition idup (i : nat) : M (fstate B) nat :=
  acquire ic_lock set_ic_lock ;;;
  upd_inode i (λ ip, set_i_ref (i_ref ip + 1) ip) ;;;
  release ic_lock set_ic_lock ;;;
  ret i.

(** [for (inum = 1; inum < sb.ninodes; inum++)]. *)
Fixpoint ialloc_loop (fuel : nat) (dev type inum : Z) : M (fstate B) nat :=
  sb <- gets f_sb ;;
  if inum <? sb_ninodes sb then
    match fuel with
    | O => nofuel
    | S fuel' =>
        bp <- fs_bread dev (IBLOCK inum sb) ;;
        let dip := dinode_off inum in
        d <- b_bytes bp ;;
        if load16 d dip =? 0 then
          b_update bp (λ d, store16 (fill d dip 0 64) dip type) ;;;
          fs_log_write bp ;;;
          fs_brelse bp ;;;
          iget dev inum
        else
          fs_brelse bp ;;;
          ialloc_loop fuel' dev type (inum + 1)
    end
  else panic "ialloc: no inodes".

Definition ialloc (dev type : Z) : M (fstate B) nat :=
  sb <- gets f_sb ;;
  ialloc_loop (Z.to_nat (sb_ninodes sb)) dev type 1.

Definition iupdate (i : nat) : M (fstate B) unit :=
  ip <- gets (the_inode i) ;;
  sb <- gets f_sb ;;
  bp <- fs_bread (i_dev ip) (IBLOCK (i_inum ip) sb) ;;
  b_update bp (dinode_store ip (dinode_off (i_inum ip))) ;;;
  fs_log_write bp ;;;
  fs_brelse bp.

Definition ilock (i : nat) : M (fstate B) unit :=
  ip <- gets (the_inode i) ;;
  if i_ref ip <? 1 then panic "ilock"
  else
    p <- gets f_pid ;;
    on_ilock i (acquiresleep (ilock_chan i) p) ;;;
    ip <- gets (the_inode i) ;;
    when (negb (i_valid ip)) (
      sb <- gets f_sb ;;
      bp <- fs_bread (i_dev ip) (IBLOCK (i_inum ip) sb) ;;
      d <- b_bytes bp ;;
      upd_inode i (dinode_load d (dinode_off (i_inum ip))) ;;;
      fs_brelse bp ;;;
      upd_inode i (set_i_valid true) ;;;
      ty <- gets (λ s, i_type (the_inode i s)) ;;
      when (ty =? 0) (panic "ilock: no type")).

Definition iunlock (i : nat) : M (fstate B) unit :=
  p <- gets f_pid ;;
  h <- on_ilock i (holdingsleep p) ;;
  r <- gets (λ s, i_ref (the_inode i s)) ;;
  if negb h || (r <? 1) then panic "iunlock"
  else on_ilock i (releasesleep (ilock_chan i)).

(** The loop of [itrunc] over the direct blocks. *)
Fixpoint itrunc_direct (k : nat) (i : nat) (j : Z) : M (fstate B) unit :=
  match k with
  | O => ret tt
  | S k' =>
      ip <- gets (the_inode i) ;;
      (if negb (addr_at j ip =? 0) then
         bfree (i_dev ip) (addr_at j ip) ;;;
         upd_inode i (set_addr j 0)
       else ret tt) ;;;
      itrunc_direct k' i (j + 1)
  end.

(** The loop over the blocks listed in the indirect block [bp]. *)
Fixpoint itrunc_indirect (k : nat) (dev : Z) (bp : nat) (j : Z) : M (fstate B) unit :=
  match k with
  | O => ret tt
  | S k' =>
      a <- b_bytes bp ;;
      (if negb (load32 a (4 * j) =? 0) then bfree dev (load32 a (4 * j)) else ret tt) ;;;
      itrunc_indirect k' dev bp (j + 1)
  end.

Definition itrunc (i : nat) : M (fstate B) unit :=
  itrunc_direct (Z.to_nat NDIRECT) i 0 ;;;
  ip <- gets (the_inode i) ;;
  (if negb (addr_at NDIRECT ip =? 0) then
     bp <- fs_bread (i_dev ip) (addr_at NDIRECT ip) ;;
     itrunc_indirect (Z.to_nat NINDIRECT) (i_dev ip) bp 0 ;;;
     fs_brelse bp ;;;
     bfree (i_dev ip) (addr_at NDIRECT ip) ;;;
     upd_inode i (set_addr NDIRECT 0)
   else ret tt) ;;;
  upd_inode i (set_i_size 0) ;;;
  iupdate i.

Definition iput (i : nat) : M (fstate B) unit :=
  p <- gets f_pid ;;
  on_ilock i (acquiresleep (ilock_chan i) p) ;;;
  ip <- gets (the_inode i) ;;
  when (i_valid ip && (i_nlink ip =? 0)) (
    acquire ic_lock set_ic_lock ;;;
    r <- gets (λ s, i_ref (the_inode i s)) ;;
    release ic_lock set_ic_lock ;;;
    when (r =? 1) (
      itrunc i ;;;
      upd_inode i (set_i_type 0) ;;;
      iupdate i ;;;
      upd_inode i (set_i_valid false))) ;;;
  on_ilock i (releasesleep (ilock_chan i)) ;;;
  acquire ic_lock set_ic_lock ;;;
  upd_inode i (λ ip, set_i_ref (i_ref ip - 1) ip) ;;;
  release ic_lock set_ic_lock.

Definition iunlockput (i : nat) : M (fstate B) unit :=
  iunlock i ;;;
  iput i.

(** ** Contents *)

Definition bmap (i : nat) (bn : Z) : M (fstate B) Z :=
  ip <- gets (the_inode i) ;;
  if bn <? NDIRECT then
    if addr_at bn ip =? 0 then
      a <- balloc (i_dev ip) ;;
      upd_inode i (set_addr bn a) ;;;
      ret a
    else ret (addr_at bn ip)
  else
    let bn := bn - NDIRECT in
    if bn <? NINDIRECT then
      addr <- (if addr_at NDIRECT ip =? 0 then
                 a <- balloc (i_dev ip) ;;
                 upd_inode i (set_addr NDIRECT a) ;;;
                 ret a
               else ret (addr_at NDIRECT ip)) ;;
      bp <- fs_bread (i_dev ip) addr ;;
      d <- b_bytes bp ;;
      r <- (if load32 d (4 * bn) =? 0 then
              a <- balloc (i_dev ip) ;;
              b_update bp (λ d, store32 d (4 * bn) a) ;;;
              fs_log_write bp ;;;
              ret a
            else ret (load32 d (4 * bn))) ;;
      fs_brelse bp ;;;
      ret r
    else panic "bmap: out of range".

(** [struct stat] at address [st]. *)
Definition stati (ip : inode) (m : mem) (st : Z) : mem :=
  let m1 := store32 m (st + 4) (i_dev ip) in
  let m2 := store32 m1 (st + 8) (i_inum ip) in
  let m3 := store16 m2 st (i_type ip) in
  let m4 := store16 m3 (st + 12) (i_nlink ip) in
  store32 m4 (st + 16) (i_size ip).

Fixpoint readi_loop (fuel : nat) (i : nat) (m : mem) (dst off n tot : Z) : M (fstate B) mem :=
  if tot <? n then
    match fuel with
    | O => nofuel
    | S fuel' =>
        ip <- gets (the_inode i) ;;
        a <- bmap i (off / BSIZE) ;;
        bp <- fs_bread (i_dev ip) a ;;
        let c := Z.min (n - tot) (BSIZE - off mod BSIZE) in
        d <- b_bytes bp ;;
        let m' := copy_mem m dst d (off mod BSIZE) c in
        fs_brelse bp ;;;
        readi_loop fuel' i m' (dst + c) (off + c) n (tot + c)
    end
  else ret m.

Definition readi (i : nat) (m : mem) (dst off n : Z) : M (fstate B) (Z * mem) :=
  ip <- gets (the_inode i) ;;
  if i_type ip =? T_DEV then
    if (i_major ip <? 0) || (i_major ip >=? NDEV) then ret (-1, m)
    else match devsw_read (i_major ip) with
         | None => ret (-1, m)
         | Some f => f i m dst n
         end
  else if (off >? i_size ip) || (u32 (off + n) <? off) then ret (-1, m)
  else
    let n := if off + n >? i_size ip then i_size ip - off else n in
    m' <- readi_loop (Z.to_nat (n / BSIZE + 2)) i m dst off n 0 ;;
    ret (n, m').

(** Returns the final value of [off]. *)
Fixpoint writei_loop (fuel : nat) (i : nat) (m : mem) (src off n tot : Z) : M (fstate B) Z :=
  if tot <? n then
    match fuel with
    | O => nofuel
    | S fuel' =>
        ip <- gets (the_inode i) ;;
        a <- bmap i (off / BSIZE) ;;
        bp <- fs_bread (i_dev ip) a ;;
        let c := Z.min (n - tot) (BSIZE - off mod BSIZE) in
        b_update bp (λ d, copy_mem d (off mod BSIZE) m src c) ;;;
        fs_log_write bp ;;;
        fs_brelse bp ;;;
        writei_loop fuel' i m (src + c) (off + c) n (tot + c)
    end
  else ret off.

Definition writei (i : nat) (m : mem) (src off n : Z) : M (fstate B) Z :=
  ip <- gets (the_inode i) ;;
  if i_type ip =? T_DEV then
    if (i_major ip <? 0) || (i_major ip >=? NDEV) then ret (-1)
    else match devsw_write (i_major ip) with
         | None => ret (-1)
         | Some f => r <- f i m src n ;; ret r.1
         end
  else if (off >? i_size ip) || (u32 (off + n) <? off) then ret (-1)
  else if off + n >? MAXFILE * BSIZE then ret (-1)
  else
    off' <- writei_loop (Z.to_nat (n / BSIZE + 2)) i m src off n 0 ;;
    when ((n >? 0) && (off' >? i_size ip)) (
      upd_inode i (set_i_size off') ;;;
      iupdate i) ;;;
    ret n.

(** ** Directories *)

(** Two character arrays of DIRSIZ bytes, at addresses 0 and 16. *)
Definition two_names (s t : list Z) : mem := λ x,
  if x <? 16 then nth (Z.to_nat x) s 0 else nth (Z.to_nat (x - 16)) t 0.

Definition namecmp (s t : list Z) : Z := strncmp (two_names s t) 0 16 (Z.to_nat DIRSIZ).

(** A [struct dirent] in memory at address [a]. *)
Definition de_inum (m : mem) (a : Z) : Z := load16 m a.
Definition de_name (m : mem) (a : Z) : list Z := bytes_at m (a + 2) (Z.to_nat DIRSIZ).

(** The inode found and the value of [*poff]. *)
Fixpoint dirlookup_loop (fuel : nat) (i : nat) (name : list Z) (off : Z) : M (fstate B) (option (nat * Z)) :=
  dp <- gets (the_inode i) ;;
  if off <? i_size dp then
    match fuel with
    | O => nofuel
    | S fuel' =>
        r <- readi i (λ _, 0) 0 off 16 ;;
        if negb (r.1 =? 16) then panic "dirlookup read"
        else if de_inum r.2 0 =? 0 then dirlookup_loop fuel' i name (u32 (off + 16))
        else if namecmp name (de_name r.2 0) =? 0 then
          ip <- iget (i_dev dp) (de_inum r.2 0) ;;
          ret (Some (ip, off))
        else dirlookup_loop fuel' i name (u32 (off + 16))
    end
  else ret None.

Definition dirlookup (i : nat) (name : list Z) : M (fstate B) (option (nat * Z)) :=
  dp <- gets (the_inode i) ;;
  if negb (i_type dp =? T_DIR) then panic "dirlookup not DIR"
  else dirlookup_loop (Z.to_nat (i_size dp / 16 + 1)) i name 0.

(** The offset of the first empty entry, or the size of the directory. *)
Fixpoint dirlink_loop (fuel : nat) (i : nat) (off : Z) : M (fstate B) Z :=
  dp <- gets (the_inode i) ;;
  if off <? i_size dp then
    match fuel with
    | O => nofuel
    | S fuel' =>
        r <- readi i (λ _, 0) 0 off 16 ;;
        if negb (r.1 =? 16) then panic "dirlink read"
        else if de_inum r.2 0 =? 0 then ret off
        else dirlink_loop fuel' i (off + 16)
    end
  else ret off.

(** The bytes of an entry: [strncpy] of the name, from address 16, and the number. *)
Definition de_make (name : list Z) (inum : Z) : mem :=
  store16 (strncpy (two_names [] name) 2 16 DIRSIZ).2 0 inum.

Definition dirlink (i : nat) (name : list Z) (inum : Z) : M (fstate B) Z :=
  found <- dirlookup i name ;;
  match found with
  | Some (ip, _) => iput ip ;;; ret (-1)
  | None =>
      dp <- gets (the_inode i) ;;
      off <- dirlink_loop (Z.to_nat (i_size dp / 16 + 1)) i 0 ;;
      r <- writei i (de_make name inum) 0 off 16 ;;
      if negb (r =? 16) then panic "dirlink"
      else ret 0
  end.

(** ** Path names *)

Definition SLASH : Z := 47.

Fixpoint skip_slashes (path : list Z) : list Z :=
  match path with
  | c :: path' => if c =? SLASH then skip_slashes path' else path
  | [] => []
  end.

(** The element at the head of a path and what follows it. *)
Fixpoint path_elem (path : list Z) : list Z * list Z :=
  match path with
  | [] => ([], [])
  | c :: path' => if c =? SLASH then ([], path) else let '(e, r) := path_elem path' in (c :: e, r)
  end.

(** [name] is the array the element is copied into. *)
Definition skipelem (path name : list Z) : option (list Z * list Z) :=
  match skip_slashes path with
  | [] => None
  | p =>
      let '(s, r) := path_elem p in
      let len := length s in
      let name' := if Z.of_nat len >=? DIRSIZ then take (Z.to_nat DIRSIZ) s else s ++ [0] ++ drop (S len) name in
      Some (skip_slashes r, name')
  end.

Fixpoint namex_loop (fuel : nat) (ip : nat) (path : list Z) (nameiparent : bool) (name : list Z) : M (fstate B) (option nat * list Z) :=
  match skipelem path name with
  | None => if nameiparent then iput ip ;;; ret (None, name) else ret (Some ip, name)
  | Some (path', name') =>
      match fuel with
      | O => nofuel
      | S fuel' =>
          ilock ip ;;;
          ty <- gets (λ s, i_type (the_inode ip s)) ;;
          if negb (ty =? T_DIR) then iunlockput ip ;;; ret (None, name')
          else if nameiparent && bool_decide (path' = []) then iunlock ip ;;; ret (Some ip, name')
          else
            next <- dirlookup ip name' ;;
            match next with
            | None => iunlockput ip ;;; ret (None, name')
            | Some (n, _) => iunlockput ip ;;; namex_loop fuel' n path' nameiparent name'
            end
      end
  end.

(** [cwd] is [myproc()->cwd]. *)
Definition namex (cwd : nat) (path : list Z) (nameiparent : bool) (name : list Z) : M (fstate B) (option nat * list Z) :=
  ip <- (match path with
         | c :: _ => if c =? SLASH then iget ROOTDEV ROOTINO else idup cwd
         | [] => idup cwd
         end) ;;
  namex_loop (length path) ip path nameiparent name.

Definition namei (cwd : nat) (path : list Z) : M (fstate B) (option nat) :=
  r <- namex cwd path false (replicate 14 0) ;;
  ret r.1.

Definition nameiparent (cwd : nat) (path name : list Z) : M (fstate B) (option nat * list Z) :=
  namex cwd path true name.
End fs.
