(* ===== verification/FsBlocks.v ===== *)
(** * The block allocator (fs.c)

    Running the block operations of the file system over any [BlockStore], the
    bitmap as a set of blocks, and what [balloc] and [bfree] do to it. *)

From Stdlib Require Import ZArith Lia.
From stdpp Require Import base numbers list gmap strings.
From S2P Require Import Prelude Mem Sleeplock Bio Log Blocks Fs.

(** ** Bits *)

Lemma bit_mask_range bi : 0 < bit_mask bi < 256.
Proof.
  unfold bit_mask. rewrite Z.shiftl_1_l. assert (0 <= bi mod 8 < 8) as H by (apply Z.mod_pos_bound; lia).
  split; [apply Z.pow_pos_nonneg; lia|]. change 256 with (2 ^ 8). apply Z.pow_lt_mono_r; lia.
Qed.

Lemma bit_mask_spec bi k : 0 <= k → Z.testbit (bit_mask bi) k = (k =? bi mod 8).
Proof.
  intros Hk. unfold bit_mask. assert (0 <= bi mod 8) by (apply Z.mod_pos_bound; lia).
  rewrite Z.shiftl_1_l, Z.pow2_bits_eqb by lia. apply Z.eqb_sym.
Qed.

Lemma bit_set_testbit d bi : bit_set d bi = Z.testbit (d (bi / 8)) (bi mod 8).
Proof.
  unfold bit_set. assert (0 <= bi mod 8) as H by (apply Z.mod_pos_bound; lia).
  destruct (Z.testbit (d (bi / 8)) (bi mod 8)) eqn:E.
  - apply negb_true_iff, Z.eqb_neq. intros Hz. apply (f_equal (λ x, Z.testbit x (bi mod 8))) in Hz.
    rewrite Z.land_spec, E, bit_mask_spec, Z.eqb_refl, Z.bits_0 in Hz by lia. done.
  - apply negb_false_iff, Z.eqb_eq, Z.bits_inj'. intros n Hn. rewrite Z.land_spec, Z.bits_0, bit_mask_spec by lia.
    destruct (Z.eqb_spec n (bi mod 8)) as [-> |]; [by rewrite E|apply andb_false_r].
Qed.

Lemma byte_bit x k : 0 <= x < 256 → 8 <= k → Z.testbit x k = false.
Proof.
  intros Hx Hk. rewrite <- (Z.mod_small x (2 ^ 8)) by (change (2 ^ 8) with 256; lia).
  apply Z.mod_pow2_bits_high; lia.
Qed.

Lemma u8_testbit x k : 0 <= k < 8 → Z.testbit (u8 x) k = Z.testbit x k.
Proof. intros Hk. unfold u8. change 256 with (2 ^ 8). apply Z.mod_pow2_bits_low. lia. Qed.

Lemma bit_same b b' : b' / 8 = b / 8 → (b' mod 8 =? b mod 8) = (b' =? b).
Proof.
  intros H. pose proof (Z.div_mod b 8 ltac:(lia)). pose proof (Z.div_mod b' 8 ltac:(lia)).
  destruct (Z.eqb_spec (b' mod 8) (b mod 8)), (Z.eqb_spec b' b); try done; [lia|by subst].
Qed.

Lemma set_bit_spec d b b' : bit_set (set_bit d b) b' = (b' =? b) || bit_set d b'.
Proof.
  rewrite !bit_set_testbit. unfold set_bit, store8.
  assert (0 <= b' mod 8 < 8) by (apply Z.mod_pos_bound; lia).
  destruct (Z.eqb_spec (b' / 8) (b / 8)) as [E|E].
  - rewrite u8_testbit, Z.lor_spec, bit_mask_spec, bit_same, E by (done || lia). apply orb_comm.
  - destruct (Z.eqb_spec b' b) as [->|]; [done|]. done.
Qed.

Lemma clear_bit_spec d b b' : bit_set (clear_bit d b) b' = negb (b' =? b) && bit_set d b'.
Proof.
  rewrite !bit_set_testbit. unfold clear_bit, store8.
  assert (0 <= b' mod 8 < 8) by (apply Z.mod_pos_bound; lia).
  destruct (Z.eqb_spec (b' / 8) (b / 8)) as [E|E].
  - rewrite u8_testbit, Z.land_spec, Z.lnot_spec, bit_mask_spec, bit_same, E by (done || lia). apply andb_comm.
  - destruct (Z.eqb_spec b' b) as [->|]; [done|]. done.
Qed.

(** The inner loop of [balloc] finds the first clear bit. *)
Lemma balloc_scan_spec k d size b bi :
  match balloc_scan k d size b bi with
  | Some x => bi <= x < bi + Z.of_nat k ∧ x < BPB ∧ b + x < size ∧ bit_set d x = false ∧
              ∀ y, bi <= y < x → bit_set d y = true
  | None => ∀ y, bi <= y < bi + Z.of_nat k → y < BPB → b + y < size → bit_set d y = true
  end.
Proof.
  revert bi. induction k as [|k IH]; intros bi; cbn [balloc_scan]; [intros; lia|].
  destruct (Z.ltb_spec bi BPB), (Z.ltb_spec (b + bi) size); cbn [andb]; try (intros; lia).
  destruct (bit_set d bi) eqn:E; cbn [negb].
  - specialize (IH (bi + 1)). destruct (balloc_scan _ _ _ _ _) as [x|].
    + destruct IH as (? & ? & ? & ? & H5). split_and!; try done; try lia.
      intros y Hy. destruct (Z.eq_dec y bi) as [->|]; [done|apply H5; lia].
    + intros y Hy ? ?. destruct (Z.eq_dec y bi) as [->|]; [done|apply IH; lia].
  - split_and!; done || lia.
Qed.

(** ** The layout of the disk *)

(** One bitmap block; inode blocks before it and data blocks after it. *)
Record layout (sb : superblock) : Prop := {
  lay_start : 2 <= sb_inodestart sb;
  lay_inodes : sb_inodestart sb + (sb_ninodes sb) / IPB < sb_bmapstart sb;
  lay_ninodes : 0 < sb_ninodes sb <= 65536;
  lay_bmap : sb_bmapstart sb < sb_size sb;
  lay_size : sb_size sb <= BPB
}.

Definition data_block (sb : superblock) (b : Z) : Prop := sb_bmapstart sb < b < sb_size sb.

(** The contents of the blocks: bytes, and a bitmap in which the blocks before
    the data blocks are in use. *)
Definition bitmap (sb : superblock) (v : Z → blk) (b : Z) : bool := bit_set (v (sb_bmapstart sb)) b.

Record image_ok (sb : superblock) (v : Z → blk) : Prop := {
  im_bytes : ∀ b, mem_ok (v b);
  im_meta : ∀ b, 0 <= b <= sb_bmapstart sb → bitmap sb v b = true
}.

Section run.
Context {B : Type} `{!BlockOps B} `{!BlockStore B ROOTDEV}.
Implicit Types s : fstate B.

Definition fview (s : fstate B) : Z → blk := bs_view (f_bs s).
(** [room T k]: [k] more blocks fit in the transaction. *)
Definition room (T : gset Z) (k : nat) : Prop := (size T + k <= bs_cap)%nat.

(** Every block of the file system can be read. *)
Definition good_disk (sb : superblock) : Prop := ∀ b, 0 < b < sb_size sb → bs_good b.

Lemma set_f_bs_twice (b b' : B) s : set_f_bs b (set_f_bs b' s) = set_f_bs b s.
Proof. done. Qed.

Lemma on_bs_run {A} (m : M B A) s a b : m (f_bs s) = Done a b → on_bs m s = Done a (set_f_bs b s).
Proof. unfold on_bs, lift. by intros ->. Qed.

Lemma fs_bread_run H T s b :
  bs_ok H T (f_bs s) → bs_good b → (b ∉ H.*2) → (length H < 2)%nat →
  ∃ h bs, fs_bread ROOTDEV b s = Done h (set_f_bs bs s) ∧ bs_ok ((h, b) :: H) T bs ∧
    ∀ b', bs_view bs b' = fview s b'.
Proof.
  intros Hok Hg Hb Hl. destruct (bs_bread H T (f_bs s) b Hok Hg Hb Hl) as (h & bs & H1 & H2 & H3).
  exists h, bs. split; [by apply on_bs_run|done].
Qed.

Lemma fs_brelse_run H T s h b :
  bs_ok ((h, b) :: H) T (f_bs s) →
  ∃ bs, fs_brelse h s = Done tt (set_f_bs bs s) ∧ bs_ok H T bs ∧ ∀ b', bs_view bs b' = fview s b'.
Proof.
  intros Hok. destruct (bs_brelse H T (f_bs s) h b Hok) as (bs & H1 & H2 & H3).
  exists bs. split; [by apply on_bs_run|done].
Qed.

Lemma b_bytes_run H T s h b : bs_ok H T (f_bs s) → (h, b) ∈ H → b_bytes h s = Done (fview s b) s.
Proof. intros Hok Hin. unfold b_bytes, gets. by rewrite (bs_data H T _ h b Hok Hin). Qed.

(** Changing and logging the data of a held buffer. *)
Lemma update_run H T s h b f :
  bs_ok H T (f_bs s) → (h, b) ∈ H → (size ({[b]} ∪ T : gset Z) <= bs_cap)%nat →
  ∃ bs, (∀ A (k : M (fstate B) A), (b_update h f ;;; fs_log_write h ;;; k) s = k (set_f_bs bs s)) ∧
    bs_ok H ({[b]} ∪ T) bs ∧ ∀ b', bs_view bs b' = if b' =? b then f (fview s b) else fview s b'.
Proof.
  intros Hok Hin Hr. destruct (bs_log_write H T (f_bs s) h b (f (fview s b)) Hok Hin Hr) as (bs & H1 & H2 & H3).
  exists bs. split; [|done]. intros A k. unfold b_update, fs_log_write, on_bs, lift, bind, modify.
  rewrite (bs_data H T _ h b Hok Hin). change (bs_view (f_bs s) b) with (fview s b).
  cbn [f_bs set_f_bs]. by rewrite H1.
Qed.

Lemma size_union_1 (b : Z) (T : gset Z) : (size ({[b]} ∪ T) <= S (size T))%nat.
Proof. rewrite size_union_alt, size_singleton. pose proof (subseteq_size (T ∖ {[b]}) T ltac:(set_solver)). lia. Qed.

Lemma bzero_run H T s b :
  bs_ok H T (f_bs s) → bs_good b → (b ∉ H.*2) → (length H < 2)%nat → (size ({[b]} ∪ T : gset Z) <= bs_cap)%nat →
  ∃ bs, bzero ROOTDEV b s = Done tt (set_f_bs bs s) ∧ bs_ok H ({[b]} ∪ T) bs ∧
    ∀ b', bs_view bs b' = if b' =? b then fill (fview s b) 0 0 BSIZE else fview s b'.
Proof.
  intros Hok Hg Hb Hl Hr. unfold bzero.
  destruct (fs_bread_run H T s b Hok Hg Hb Hl) as (h & bs1 & R1 & O1 & V1). mcall R1.
  destruct (update_run _ T (set_f_bs bs1 s) h b (λ d, fill d 0 0 BSIZE) O1 ltac:(left) Hr) as (bs2 & R2 & O2 & V2).
  rewrite R2. destruct (fs_brelse_run H _ (set_f_bs bs2 (set_f_bs bs1 s)) h b O2) as (bs3 & R3 & O3 & V3). rewrite R3.
  exists bs3. split_and!; [done|done|]. intros b'. rewrite V3. unfold fview. cbn [f_bs set_f_bs].
  rewrite V2. unfold fview. cbn [f_bs set_f_bs]. by rewrite !V1.
Qed.

Section alloc.
Context (sb : superblock) (Hlay : layout sb) (Hgood : good_disk sb).

Lemma BBLOCK_one b : 0 <= b < sb_size sb → BBLOCK b sb = sb_bmapstart sb.
Proof using Hlay.
  intros Hb. destruct Hlay. change BPB with 4096 in *. change IPB with 8 in *. unfold BBLOCK. change BPB with 4096.
  rewrite Z.div_small by lia. apply u32_small. assert (0 <= sb_ninodes sb / 8) by (apply Z.div_pos; lia). lia.
Qed.

Lemma bmap_block_pos : 2 < sb_bmapstart sb.
Proof using Hlay. destruct Hlay. change IPB with 8 in *. assert (0 <= sb_ninodes sb / 8) by (apply Z.div_pos; lia). lia. Qed.

(** The effect of [balloc] on the blocks. *)
Definition alloc_view (b : Z) (v : Z → blk) : Z → blk := λ b',
  if b' =? b then fill (v b) 0 0 BSIZE else if b' =? sb_bmapstart sb then set_bit (v b') b else v b'.

Definition free_block (v : Z → blk) (b : Z) : Prop := data_block sb b ∧ bitmap sb v b = false.

Lemma balloc_run H T s :
  bs_ok H T (f_bs s) → f_sb s = sb → image_ok sb (fview s) →
  (length H < 2)%nat → (∀ b, b ∈ H.*2 → data_block sb b ∧ bitmap sb (fview s) b = true) →
  (size ({[sb_bmapstart sb]} ∪ T : gset Z) < bs_cap)%nat →
  match balloc ROOTDEV s with
  | Done b s' => ∃ bs, s' = set_f_bs bs s ∧ bs_ok H ({[b; sb_bmapstart sb]} ∪ T) bs ∧ free_block (fview s) b ∧
      (∀ y, free_block (fview s) y → b <= y) ∧ ∀ b', bs_view bs b' = alloc_view b (fview s) b'
  | Panic msg => msg = "balloc: out of blocks"%string ∧ ∀ b, ¬ free_block (fview s) b
  | _ => False
  end.
Proof using Hlay Hgood.
  intros Hok Hsb Him Hl HH Hr. pose proof bmap_block_pos as Hbp. destruct Hlay as [L1 L2 L3 L4 L5].
  assert (Hbm : sb_bmapstart sb ∉ H.*2) by (intros (Hd & _)%HH; unfold data_block in Hd; lia).
  unfold balloc. mrun. rewrite Hsb.
  assert (Hfuel : ∃ n, S (Z.to_nat (sb_size sb / BPB)) = S n ∧ (sb_size sb = BPB → ∃ k, n = S k)).
  { eexists. split; [done|]. intros ->. by exists 0%nat. }
  destruct Hfuel as (fuel & -> & Hfuel). cbn [balloc_loop]. mrun. rewrite Hsb. ztest (0 <? sb_size sb) is true.
  rewrite BBLOCK_one by lia.
  destruct (fs_bread_run H T s (sb_bmapstart sb) Hok (Hgood (sb_bmapstart sb) ltac:(lia)) Hbm Hl) as (h & bs1 & R1 & O1 & V1). mcall R1.
  mcall (b_bytes_run _ T (set_f_bs bs1 s) h (sb_bmapstart sb) O1 ltac:(left)).
  change (fview (set_f_bs bs1 s) (sb_bmapstart sb)) with (bs_view bs1 (sb_bmapstart sb)). rewrite V1.
  pose proof (balloc_scan_spec (Z.to_nat BPB) (fview s (sb_bmapstart sb)) (sb_size sb) 0 0) as Hscan.
  destruct (balloc_scan _ _ _ _ _) as [b|].
  - destruct Hscan as (Hb1 & Hb2 & Hb3 & Hb4 & Hb5). rewrite !Z.add_0_l.
    assert (Hdb : data_block sb b).
    { unfold data_block. split; [|lia]. destruct (Z.lt_ge_cases (sb_bmapstart sb) b); [done|].
      pose proof (im_meta _ _ Him b ltac:(lia)) as Hu. unfold bitmap in Hu. by rewrite Hb4 in Hu. }
    pose proof Hdb as [Hdb1 Hdb2].
    assert (Hnb : b ∉ H.*2) by (intros (_ & Hu)%HH; unfold bitmap in Hu; by rewrite Hb4 in Hu).
    destruct (update_run _ T (set_f_bs bs1 s) h (sb_bmapstart sb) (λ d, set_bit d b) O1 ltac:(left)) as (bs2 & R2 & O2 & V2);
      [lia|]. rewrite R2.
    destruct (fs_brelse_run H _ (set_f_bs bs2 s) h _ O2) as (bs3 & R3 & O3 & V3). mcall R3.
    assert (Hr3 : (size ({[b]} ∪ ({[sb_bmapstart sb]} ∪ T) : gset Z) <= bs_cap)%nat).
    { pose proof (size_union_1 b ({[sb_bmapstart sb]} ∪ T)). lia. }
    destruct (bzero_run H _ (set_f_bs bs3 s) b O3 (Hgood b ltac:(unfold data_block in Hdb; lia)) Hnb Hl Hr3)
      as (bs4 & R4 & O4 & V4). mcall R4.
    exists bs4. split_and!; [done| |by split| |].
    + by rewrite (assoc_L (∪)) in O4.
    + intros y (Hy & Hyf). destruct (Z.lt_ge_cases y b); [|done]. unfold data_block in Hy.
      unfold bitmap in Hyf. rewrite Hb5 in Hyf by lia. done.
    + intros b'. rewrite V4. unfold alloc_view, fview in *. cbn [f_bs set_f_bs] in *. rewrite !V3. cbn [f_bs set_f_bs].
      rewrite !V2, !V1. ztest (b =? sb_bmapstart sb) is false. destruct (Z.eqb_spec b' b) as [->|]; [done|].
      destruct (Z.eqb_spec b' (sb_bmapstart sb)) as [->|]; done.
  - destruct (fs_brelse_run H _ (set_f_bs bs1 s) h _ O1) as (bs3 & R3 & O3 & V3). mcall R3.
    assert (Hp : balloc_loop fuel ROOTDEV (0 + BPB) (set_f_bs bs3 (set_f_bs bs1 s)) = Panic "balloc: out of blocks").
    { destruct fuel; cbn [balloc_loop]; mrun; cbn [set_f_bs f_sb]; rewrite Hsb; by ztest (0 + BPB <? sb_size sb) is false. }
    rewrite Hp. split; [done|]. intros b (Hb & Hf). unfold data_block in Hb. unfold bitmap in Hf.
    rewrite Hscan in Hf; [done|change BPB with 4096 in *; lia..].
Qed.

Definition free_view (b : Z) (v : Z → blk) : Z → blk := λ b',
  if b' =? sb_bmapstart sb then clear_bit (v b') b else v b'.

Lemma bfree_run H T s b :
  bs_ok H T (f_bs s) → f_sb s = sb → (length H < 2)%nat → (sb_bmapstart sb ∉ H.*2) → 0 <= b < sb_size sb →
  (size ({[sb_bmapstart sb]} ∪ T : gset Z) <= bs_cap)%nat →
  if bitmap sb (fview s) b
  then ∃ bs, bfree ROOTDEV b s = Done tt (set_f_bs bs s) ∧ bs_ok H ({[sb_bmapstart sb]} ∪ T) bs ∧
         ∀ b', bs_view bs b' = free_view b (fview s) b'
  else bfree ROOTDEV b s = Panic "freeing free block".
Proof using Hlay Hgood.
  intros Hok Hsb Hl Hbm Hb Hr. pose proof bmap_block_pos as Hbp. destruct Hlay as [L1 L2 L3 L4 L5].
  unfold bfree. mrun. rewrite Hsb, BBLOCK_one, Z.mod_small by lia.
  destruct (fs_bread_run H T s (sb_bmapstart sb) Hok (Hgood (sb_bmapstart sb) ltac:(lia)) Hbm Hl) as (h & bs1 & R1 & O1 & V1). mcall R1.
  mcall (b_bytes_run _ T (set_f_bs bs1 s) h (sb_bmapstart sb) O1 ltac:(left)).
  change (fview (set_f_bs bs1 s) (sb_bmapstart sb)) with (bs_view bs1 (sb_bmapstart sb)). rewrite V1.
  change (bit_set (fview s (sb_bmapstart sb)) b) with (bitmap sb (fview s) b).
  destruct (bitmap sb (fview s) b); cbn [negb]; [|done].
  destruct (update_run _ T (set_f_bs bs1 s) h (sb_bmapstart sb) (λ d, clear_bit d b) O1 ltac:(left) Hr) as (bs2 & R2 & O2 & V2).
  rewrite R2. destruct (fs_brelse_run H _ (set_f_bs bs2 s) h _ O2) as (bs3 & R3 & O3 & V3).
  exists bs3. split_and!; [exact R3|done|]. intros b'. rewrite V3. unfold fview. cbn [f_bs set_f_bs]. rewrite V2.
  unfold fview, free_view. cbn [f_bs set_f_bs]. rewrite !V1. by destruct (Z.eqb_spec b' (sb_bmapstart sb)) as [->|].
Qed.

Lemma bitmap_alloc v b y : b ≠ sb_bmapstart sb → bitmap sb (alloc_view b v) y = (y =? b) || bitmap sb v y.
Proof using. intros Hb. unfold bitmap, alloc_view. ztest (sb_bmapstart sb =? b) is false. rewrite Z.eqb_refl. apply set_bit_spec. Qed.

Lemma bitmap_free v b y : bitmap sb (free_view b v) y = negb (y =? b) && bitmap sb v y.
Proof using. unfold bitmap, free_view. rewrite Z.eqb_refl. apply clear_bit_spec. Qed.

Lemma image_alloc v b : image_ok sb v → data_block sb b → image_ok sb (alloc_view b v).
Proof using.
  intros [H1 H2] [Hb1 Hb2]. split.
  - intros b' x. unfold alloc_view. case_if; [by apply mem_ok_fill|]. case_if; [|apply H1]. by apply mem_ok_store8.
  - intros y Hy. rewrite bitmap_alloc, H2 by lia. apply orb_true_r.
Qed.

Lemma image_free v b : image_ok sb v → data_block sb b → image_ok sb (free_view b v).
Proof using.
  intros [H1 H2] [Hb1 Hb2]. split.
  - intros b' x. unfold free_view. case_if; [|apply H1]. by apply mem_ok_store8.
  - intros y Hy. rewrite bitmap_free, H2 by lia. by ztest (y =? b) is false.
Qed.

(** Views that agree on all blocks. *)
Lemma image_ext v v' : (∀ b, v' b = v b) → image_ok sb v → image_ok sb v'.
Proof using. intros He [H1 H2]. split; [intros b; by rewrite He|]. intros b Hb. unfold bitmap. rewrite He. by apply H2. Qed.
End alloc.
End run.
