(* ===== verification/FsFile.v ===== *)
(** * File contents (bmap, readi, writei of fs.c)

    A file is the function from offsets to bytes that the block numbers of its
    inode and the blocks define.  [bmap] extends the block list without changing
    the file, [readi] returns its bytes, [writei] replaces them; none of them
    touches a block in use elsewhere. *)

From Stdlib Require Import ZArith Lia.
From stdpp Require Import base numbers list gmap strings.
From S2P Require Import Prelude Mem Sleeplock Bio Log Blocks Fs FsBlocks.

(** The block with the [bn]-th part of the file, 0 if there is none. *)
Definition file_map (v : Z → blk) (addrs : list Z) (bn : Z) : Z :=
  if bn <? NDIRECT then nth (Z.to_nat bn) addrs 0
  else if nth 12 addrs 0 =? 0 then 0
  else load32 (v (nth 12 addrs 0)) (4 * (bn - NDIRECT)).

Definition file_byte (v : Z → blk) (addrs : list Z) (off : Z) : Z :=
  let a := file_map v addrs (off / BSIZE) in
  if a =? 0 then 0 else v a (off mod BSIZE).

(** The data blocks and the indirect block of a file. *)
Definition owns (v : Z → blk) (addrs : list Z) (b : Z) : Prop :=
  b ≠ 0 ∧ (b = nth 12 addrs 0 ∨ ∃ bn, 0 <= bn < MAXFILE ∧ file_map v addrs bn = b).

Section file.
Context (sb : superblock).

Record file_ok (v : Z → blk) (addrs : list Z) : Prop := {
  fo_len : length addrs = 13%nat;
  fo_used : ∀ b, owns v addrs b → data_block sb b ∧ bitmap sb v b = true;
  fo_inj : ∀ bn bn', 0 <= bn < MAXFILE → 0 <= bn' < MAXFILE →
    file_map v addrs bn = file_map v addrs bn' → file_map v addrs bn ≠ 0 → bn = bn';
  fo_ind : ∀ bn, 0 <= bn < MAXFILE → file_map v addrs bn ≠ 0 → file_map v addrs bn ≠ nth 12 addrs 0
}.

(** The file keeps its blocks, maybe with new ones and other contents; nothing
    else that was in use changed. *)
Record evolves (v : Z → blk) (addrs : list Z) (v' : Z → blk) (addrs' : list Z) : Prop := {
  ev_file : file_ok v' addrs';
  ev_image : image_ok sb v';
  ev_map : ∀ bn, 0 <= bn < MAXFILE → file_map v addrs bn ≠ 0 → file_map v' addrs' bn = file_map v addrs bn;
  ev_ind : nth 12 addrs 0 ≠ 0 → nth 12 addrs' 0 = nth 12 addrs 0;
  ev_bitmap : ∀ b, bitmap sb v b = true → bitmap sb v' b = true;
  ev_owns : ∀ b, bitmap sb v b = true → owns v' addrs' b → owns v addrs b;
  ev_frame : ∀ b, bitmap sb v b = true → b ≠ sb_bmapstart sb → ¬ owns v addrs b → v' b = v b
}.

(** The file got more blocks and its bytes are the same. *)
Record grows (v : Z → blk) (addrs : list Z) (v' : Z → blk) (addrs' : list Z) : Prop := {
  gr_ev : evolves v addrs v' addrs';
  gr_byte : ∀ off, 0 <= off < MAXFILE * BSIZE → file_byte v' addrs' off = file_byte v addrs off
}.

Lemma grows_refl v addrs v' : file_ok v addrs → image_ok sb v → (∀ b, v' b = v b) → grows v addrs v' addrs.
Proof using.
  intros Hf Hi He. assert (Hm : ∀ bn, file_map v' addrs bn = file_map v addrs bn).
  { intros bn. unfold file_map. by rewrite He. }
  assert (Ho : ∀ b, owns v' addrs b ↔ owns v addrs b).
  { intros b. unfold owns. by setoid_rewrite Hm. }
  assert (Hb : ∀ b, bitmap sb v' b = bitmap sb v b) by (intros b; unfold bitmap; by rewrite He).
  destruct Hf as [F1 F2 F3 F4]. split; [split; try done|].
  - split; [done| | |].
    + intros b. rewrite Ho, Hb. apply F2.
    + intros bn bn'. rewrite !Hm. apply F3.
    + intros bn. rewrite Hm. apply F4.
  - by eapply image_ext.
  - intros b. by rewrite Hb.
  - intros b _. by rewrite Ho.
  - intros off _. unfold file_byte. by rewrite Hm, He.
Qed.

Lemma evolves_trans v1 a1 v2 a2 v3 a3 : evolves v1 a1 v2 a2 → evolves v2 a2 v3 a3 → evolves v1 a1 v3 a3.
Proof using.
  intros [A1 A2 A3 A4 A5 A6 A7] [B1 B2 B3 B4 B5 B6 B7]. split; try done.
  - intros bn Hbn Hn. rewrite <- (A3 bn Hbn Hn) at 1. apply B3; [done|]. by rewrite A3.
  - intros Hn. rewrite B4; [by apply A4|]. by rewrite A4.
  - auto.
  - intros b Hb Ho. auto.
  - intros b Hb Hn Ho. rewrite B7; auto.
Qed.

Lemma grows_trans v1 a1 v2 a2 v3 a3 : grows v1 a1 v2 a2 → grows v2 a2 v3 a3 → grows v1 a1 v3 a3.
Proof using.
  intros [A1 A2] [B1 B2]. split; [by eapply evolves_trans|]. intros off Ho. by rewrite B2, A2.
Qed.

Lemma owns_map v addrs bn : 0 <= bn < MAXFILE → file_map v addrs bn ≠ 0 → owns v addrs (file_map v addrs bn).
Proof using. intros Hbn Hn. split; [done|right]. by exists bn. Qed.

(** One more block. *)
Lemma grows_one v addrs v' addrs' a bn0 :
  file_ok v addrs → image_ok sb v' → free_block sb v a → 0 < a → length addrs' = 13%nat →
  (∀ bn, 0 <= bn < MAXFILE → file_map v' addrs' bn = if bn =? bn0 then a else file_map v addrs bn) →
  (0 <= bn0 < MAXFILE → file_map v addrs bn0 = 0) →
  nth 12 addrs' 0 = nth 12 addrs 0 ∨ nth 12 addrs 0 = 0 ∧ nth 12 addrs' 0 = a ∧ bn0 < 0 →
  (∀ y, bitmap sb v' y = (y =? a) || bitmap sb v y) →
  (∀ b, bitmap sb v b = true → b ≠ sb_bmapstart sb → (nth 12 addrs 0 ≠ 0 → b ≠ nth 12 addrs 0) → v' b = v b) →
  (∀ x, 0 <= x < BSIZE → v' a x = 0) → grows v addrs v' addrs'.
Proof using.
  intros Hf Him' [Hda Hfr] Ha0 Hlen Hmap Hold Hind Hbit Hkeep Hzero.
  assert (Hfree : ∀ b, owns v addrs b → b ≠ a).
  { intros b Ho ->. destruct (fo_used _ _ Hf a Ho) as [_ Hu]. congruence. }
  assert (Hfm : ∀ bn, 0 <= bn < MAXFILE → file_map v addrs bn ≠ a).
  { intros bn Hbn Hm. apply (Hfree (file_map v addrs bn)); [apply owns_map; [done|lia]|done]. }
  assert (Hown : ∀ b, owns v' addrs' b → b = a ∨ owns v addrs b).
  { intros b [Hb [Hb'|(bn & Hbn & Hm)]].
    - destruct Hind as [Hi|(_ & Hi & _)]; [right|left; congruence]. split; [done|left; congruence].
    - rewrite Hmap in Hm by done. destruct (Z.eqb_spec bn bn0); [by left|right]. split; [done|right; by exists bn]. }
  split; [split; [split; [done| | |]|done| | | | |]|].
  - intros b [-> |Ho]%Hown; [split; [done|by rewrite Hbit, Z.eqb_refl]|].
    destruct (fo_used _ _ Hf b Ho) as [? Hu]. split; [done|]. by rewrite Hbit, Hu, orb_true_r.
  - intros bn bn' Hbn Hbn'. rewrite !Hmap by done. destruct (Z.eqb_spec bn bn0), (Z.eqb_spec bn' bn0); intros He Hn;
      [lia|symmetry in He; by apply Hfm in He|by apply Hfm in He|by apply (fo_inj _ _ Hf)].
  - intros bn Hbn. rewrite Hmap by done. destruct (Z.eqb_spec bn bn0) as [->|Hne]; intros Hn.
    + destruct Hind as [Hi|(_ & _ & Hi)]; [|lia]. rewrite Hi. intros He.
      apply (Hfree a); [|done]. split; [done|by left].
    + destruct Hind as [->|(_ & -> & _)]; [by apply (fo_ind _ _ Hf)|by apply Hfm].
  - intros bn Hbn Hn. rewrite Hmap by done. case_if; [|done]. subst. by rewrite Hold in Hn.
  - intros Hn. destruct Hind as [?|(? & _)]; done.
  - intros b Hb. by rewrite Hbit, Hb, orb_true_r.
  - intros b Hb [-> |Ho]%Hown; [congruence|done].
  - intros b Hb Hbm Ho. apply Hkeep; [done|done|]. intros Hn ->. destruct Ho. split; [done|by left].
  - intros off Hoff. unfold file_byte. change BSIZE with 512 in *. change MAXFILE with 140 in *.
    assert (Hq : 0 <= off / 512 < 140) by (split; [apply Z.div_pos|apply Z.div_lt_upper_bound]; lia).
    assert (Hm : 0 <= off mod 512 < 512) by (apply Z.mod_pos_bound; lia).
    rewrite Hmap by done. destruct (Z.eqb_spec (off / 512) bn0) as [E|E].
    + ztest (a =? 0) is false. rewrite Hzero by done. by rewrite E, Hold, Z.eqb_refl by lia.
    + destruct (Z.eqb_spec (file_map v addrs (off / 512)) 0) as [|Hn]; [done|].
      destruct (fo_used _ _ Hf _ (owns_map _ _ _ Hq Hn)) as [Hd Hu].
      rewrite Hkeep; [done|done| |intros _; by apply (fo_ind _ _ Hf)]. intros He. unfold data_block in Hd. lia.
Qed.

(** The number of free blocks. *)
Definition nfree (v : Z → blk) : nat :=
  length (List.filter (λ b, negb (bitmap sb v b)) (seqZ (sb_bmapstart sb + 1) (sb_size sb - sb_bmapstart sb - 1))).

Lemma nfree_ext v v' : (∀ b, bitmap sb v' b = bitmap sb v b) → nfree v' = nfree v.
Proof using. intros He. unfold nfree. f_equal. apply List.filter_ext. intros b. by rewrite He. Qed.

Lemma nfree_none v : (∀ b, ¬ free_block sb v b) → nfree v = 0%nat.
Proof using.
  intros H. unfold nfree. destruct (List.filter _ _) as [|b l] eqn:E; [done|]. exfalso.
  assert (Hb : In b (b :: l)) by (by left). rewrite <- E in Hb. apply filter_In in Hb as [Hb1 Hb2].
  apply list_elem_of_In, elem_of_seqZ in Hb1. apply (H b). split; [split; lia|]. by apply negb_true_iff.
Qed.

Lemma nfree_alloc v a v' : free_block sb v a → (∀ y, bitmap sb v' y = (y =? a) || bitmap sb v y) → nfree v = S (nfree v').
Proof using.
  intros [[H1 H2] H3] Hv. unfold nfree. set (l := seqZ _ _).
  assert (Ha : a ∈ l) by (apply elem_of_seqZ; lia). assert (Hn : NoDup l) by apply NoDup_seqZ.
  apply list_elem_of_split in Ha as (l1 & l2 & ->). apply NoDup_app_cons_comm in Hn as [Hn _]. apply not_elem_of_app in Hn as [Hn1 Hn2].
  assert (Hf : ∀ k : list Z, a ∉ k → List.filter (λ b, negb (bitmap sb v' b)) k = List.filter (λ b, negb (bitmap sb v b)) k).
  { intros k Hk. induction k as [|x k IH]; [done|]. apply not_elem_of_cons in Hk as [Hx Hk]. cbn. rewrite IH, Hv by done.
    by ztest (x =? a) is false. }
  rewrite !List.filter_app, !length_app. cbn. rewrite Hv, Z.eqb_refl, H3. cbn. rewrite !Hf by done. lia.
Qed.

Lemma alloc_view_used v a b : free_block sb v a → bitmap sb v b = true → b ≠ sb_bmapstart sb → alloc_view sb a v b = v b.
Proof using. intros [_ Hf] Hu Hb. unfold alloc_view. ztest (b =? sb_bmapstart sb) is false. case_if; [congruence|done]. Qed.

Lemma alloc_view_new v a x : 0 <= x < BSIZE → alloc_view sb a v a x = 0.
Proof using. intros Hx. unfold alloc_view. rewrite Z.eqb_refl. by rewrite fill_in by lia. Qed.

Lemma nth_insert (l : list Z) k x j : (k < length l)%nat → nth j (<[k := x]> l) 0 = if decide (j = k) then x else nth j l 0.
Proof using.
  intros Hk. rewrite !nth_lookup. case_decide as E; [subst; by rewrite list_lookup_insert_eq|].
  by rewrite list_lookup_insert_ne.
Qed.

(** A block entered in the inode: a direct block or the indirect block. *)
Lemma grows_addr v addrs a k :
  layout sb → file_ok v addrs → image_ok sb v → free_block sb v a → 0 <= k <= NDIRECT → nth (Z.to_nat k) addrs 0 = 0 →
  grows v addrs (alloc_view sb a v) (<[Z.to_nat k := a]> addrs).
Proof using.
  intros Hlay Hf Him Hfr Hk Hz. pose proof Hfr as [Hda _]. pose proof (bmap_block_pos sb Hlay) as Hbp. pose proof (fo_len _ _ Hf) as Hl.
  change NDIRECT with 12 in *.
  assert (Ha : 0 < a ∧ a ≠ sb_bmapstart sb) by (unfold data_block in Hda; lia).
  assert (Hmap : ∀ bn, 0 <= bn < MAXFILE → file_map (alloc_view sb a v) (<[Z.to_nat k := a]> addrs) bn =
    if bn =? (if k <? 12 then k else -1) then a else file_map v addrs bn).
  { intros bn Hbn. unfold file_map. change NDIRECT with 12. rewrite !nth_insert by lia.
    destruct (Z.ltb_spec bn 12) as [Hlt|Hge].
    - case_decide; destruct (Z.ltb_spec k 12), (Z.eqb_spec bn k); try lia; try done; [by ztest (bn =? -1) is false..].
    - destruct (decide (12%nat = Z.to_nat k)) as [E|E].
      + assert (k = 12) as -> by lia. change (Z.to_nat 12) with 12%nat in Hz. rewrite Hz. cbn [Z.ltb Z.eqb Z.compare Pos.compare Pos.compare_cont].
        ztest (bn =? -1) is false. ztest (a =? 0) is false. unfold load32. change MAXFILE with 140 in Hbn.
        by rewrite !alloc_view_new by (change BSIZE with 512; lia).
      + ztest (k <? 12) is true. ztest (bn =? k) is false. destruct (Z.eqb_spec (nth 12 addrs 0) 0) as [|Hn]; [done|].
        rewrite alloc_view_used; [done|done|apply (fo_used _ _ Hf); split; [done|by left]|].
        intros He. assert (Ho : owns v addrs (nth 12 addrs 0)) by (split; [done|by left]).
        destruct (fo_used _ _ Hf _ Ho) as [Hd _]. unfold data_block in Hd. lia. }
  apply (grows_one v addrs _ _ a (if k <? 12 then k else -1)); try done; [by apply image_alloc|lia|by rewrite length_insert| | | | |].
  - destruct (Z.ltb_spec k 12); [|lia]. intros _. unfold file_map. change NDIRECT with 12. by ztest (k <? 12) is true.
  - rewrite nth_insert by lia. case_decide as E; [right|by left]. assert (k = 12) as -> by lia. done.
  - intros y. apply bitmap_alloc. lia.
  - intros b Hb Hbm _. by apply alloc_view_used.
  - apply alloc_view_new.
Qed.

(** A block entered in the indirect block. *)
Definition indirect_view (ind k a : Z) (v : Z → blk) : Z → blk := λ b, if b =? ind then store32 (v ind) (4 * k) a else v b.

Lemma grows_indirect v addrs a bn :
  layout sb → file_ok v addrs → image_ok sb v → free_block sb v a → NDIRECT <= bn < MAXFILE →
  nth 12 addrs 0 ≠ 0 → file_map v addrs bn = 0 →
  let v' := indirect_view (nth 12 addrs 0) (bn - NDIRECT) a (alloc_view sb a v) in
  grows v addrs v' addrs ∧ file_map v' addrs bn = a.
Proof using.
  intros Hlay Hf Him Hfr Hbn Hi Hz v'. pose proof Hfr as [Hda Hbf]. pose proof (bmap_block_pos sb Hlay) as Hbp.
  assert (Ho : owns v addrs (nth 12 addrs 0)) by (split; [done|by left]).
  destruct (fo_used _ _ Hf _ Ho) as [Hdi Hui]. set (ind := nth 12 addrs 0) in *.
  change NDIRECT with 12 in *. change MAXFILE with 140 in *.
  assert (Ha : 0 < a < 4294967296 ∧ a ≠ sb_bmapstart sb ∧ ind ≠ sb_bmapstart sb ∧ a ≠ ind).
  { unfold data_block in *. destruct Hlay. change BPB with 4096 in *. split_and!; try lia. intros ->. congruence. }
  assert (Hvi : alloc_view sb a v ind = v ind) by (by apply alloc_view_used; [..|lia]).
  assert (Hmap : ∀ bn', 0 <= bn' < 140 → file_map v' addrs bn' = if bn' =? bn then a else file_map v addrs bn').
  { intros bn' Hbn'. unfold file_map. change NDIRECT with 12. fold ind.
    destruct (Z.ltb_spec bn' 12); [by ztest (bn' =? bn) is false|]. ztest (ind =? 0) is false.
    unfold v', indirect_view. rewrite Z.eqb_refl, Hvi. destruct (Z.eqb_spec bn' bn) as [->|]; [apply load32_store32_eq; lia|].
    apply load32_store32_ne. lia. }
  assert (Hbit : ∀ y, bitmap sb v' y = bitmap sb (alloc_view sb a v) y).
  { intros y. unfold bitmap, v', indirect_view. by ztest (sb_bmapstart sb =? ind) is false. }
  split; [|rewrite Hmap, Z.eqb_refl by lia; done].
  apply (grows_one v addrs _ _ a bn); try done; [|lia|apply Hf|by left| | |].
  - destruct (image_alloc sb v a Him Hda) as [I1 I2]. split; [|intros b Hb; rewrite Hbit; by apply I2].
    intros b. unfold v', indirect_view. case_if; [|done]. by apply mem_ok_store32.
  - intros y. rewrite Hbit. apply bitmap_alloc. lia.
  - intros b Hb Hbm Hne. unfold v', indirect_view. ztest (b =? ind) is false. by apply alloc_view_used.
  - intros x Hx. unfold v', indirect_view. ztest (a =? ind) is false. by apply alloc_view_new.
Qed.
End file.

(** ** bmap *)

Section bmap.
Context {B : Type} `{!BlockOps B} `{!BlockStore B ROOTDEV}.
Context (sb : superblock) (Hlay : layout sb) (Hgood : good_disk sb).
Implicit Types s : fstate B.

Definition put_inode (i : nat) (ip : inode) (s : fstate B) : fstate B := set_inodes (<[i := ip]> (inodes s)) s.

Lemma upd_inode_run i f s ip : inodes s !! i = Some ip → upd_inode i f s = Done tt (put_inode i (f ip) s).
Proof. intros Hi. unfold upd_inode, modify, put_inode. by rewrite (alter_insert f _ i ip). Qed.

Lemma the_inode_lookup i s ip : inodes s !! i = Some ip → the_inode i s = ip.
Proof. unfold the_inode. by intros ->. Qed.

Lemma put_inode_same i s ip : inodes s !! i = Some ip → put_inode i ip s = s.
Proof. intros Hi. unfold put_inode. rewrite list_insert_id by done. by destruct s. Qed.

Lemma put_inode_lookup i s ip ip' : inodes s !! i = Some ip → inodes (put_inode i ip' s) !! i = Some ip'.
Proof. intros Hi%lookup_lt_Some. cbn. by apply list_lookup_insert_eq. Qed.

(** What an operation on file [i] may have done when it logs at most the blocks [X]. *)
Record grown (i : nat) (ip : inode) (T : gset Z) (s : fstate B) (T' : gset Z) (s' : fstate B) (X : gset Z) : Prop := {
  gn_state : ∃ bs addrs, s' = put_inode i (set_i_addrs addrs ip) (set_f_bs bs s);
  gn_ok : bs_ok [] T' (f_bs s');
  gn_grows : grows sb (fview s) (i_addrs ip) (fview s') (i_addrs (the_inode i s'));
  gn_log : T' ⊆ T ∪ X
}.

Definition bm : Z := sb_bmapstart sb.
Definition indirect (i : nat) (s : fstate B) : Z := nth 12 (i_addrs (the_inode i s)) 0.

(** Entering a block that [balloc] delivers in slot [k] of the inode. *)
Definition alloc_addr (i : nat) (ip : inode) (k : Z) : M (fstate B) Z :=
  if addr_at k ip =? 0 then
    a <- balloc (i_dev ip) ;;
    upd_inode i (set_addr k a) ;;;
    ret a
  else ret (addr_at k ip).

Lemma alloc_addr_run i ip T s k :
  bs_ok [] T (f_bs s) → f_sb s = sb → inodes s !! i = Some ip → i_dev ip = ROOTDEV →
  image_ok sb (fview s) → file_ok sb (fview s) (i_addrs ip) → 0 <= k <= NDIRECT →
  (size ({[bm]} ∪ T : gset Z) < bs_cap)%nat →
  match alloc_addr i ip k s with
  | Done a s' => ∃ T', grown i ip T s T' s' {[bm; a]} ∧ a ≠ 0 ∧ addr_at k (the_inode i s') = a ∧
      (k < NDIRECT → file_map (fview s') (i_addrs (the_inode i s')) k = a ∧ indirect i s' = nth 12 (i_addrs ip) 0) ∧
      (addr_at k ip ≠ 0 → s' = s ∧ T' = T) ∧ (nfree sb (fview s) <= S (nfree sb (fview s')))%nat
  | Panic msg => nfree sb (fview s) = 0%nat
  | _ => False
  end.
Proof using Hlay Hgood.
  intros Hok Hsb Hi Hdev Him Hf Hk Hr. unfold alloc_addr. destruct (Z.eqb_spec (addr_at k ip) 0) as [Hz|Hn].
  - pose proof (balloc_run sb Hlay Hgood [] T s Hok Hsb Him ltac:(cbn; lia)) as Hb.
    specialize (Hb (λ b Hb, False_ind _ (not_elem_of_nil b Hb)) Hr).
    rewrite Hdev. unfold bind at 1. destruct (balloc ROOTDEV s) as [a s1|msg| | |]; cbn beta iota; try done; [|by apply nfree_none; apply Hb].
    destruct Hb as (bs & -> & O1 & Hfr & _ & V1).
    mcall (upd_inode_run i (set_addr k a) (set_f_bs bs s) ip Hi).
    pose proof (grows_addr sb (fview s) (i_addrs ip) a k Hlay Hf Him Hfr Hk Hz) as Hg.
    assert (Hthe : the_inode i (put_inode i (set_addr k a ip) (set_f_bs bs s)) = set_addr k a ip).
    { apply the_inode_lookup. by eapply put_inode_lookup. }
    assert (Hlen : (Z.to_nat k < length (i_addrs ip))%nat) by (rewrite (fo_len _ _ _ Hf); change NDIRECT with 12 in Hk; lia).
    assert (Hg' : grows sb (fview s) (i_addrs ip) (bs_view bs) (<[Z.to_nat k := a]> (i_addrs ip))).
    { eapply grows_trans; [done|]. apply grows_refl; [apply Hg|apply Hg|done]. }
    exists ({[a; sb_bmapstart sb]} ∪ T). split_and!.
    + split; [by eexists _, _|done|by rewrite Hthe|unfold bm; set_solver].
    + destruct Hfr as [[Hd _] _]. pose proof (bmap_block_pos sb Hlay). lia.
    + rewrite Hthe. unfold addr_at, set_addr, set_i_addrs. cbn [i_addrs]. by rewrite nth_insert, decide_True by done.
    + intros Hk'. unfold indirect. rewrite Hthe. cbn [set_addr set_i_addrs i_addrs]. unfold file_map. ztest (k <? NDIRECT) is true.
      change NDIRECT with 12 in Hk'. rewrite !nth_insert, decide_True, decide_False by (done || lia). done.
    + done.
    + apply Nat.eq_le_incl, (nfree_alloc sb _ a); [done|]. destruct Hfr as [[Hd _] _]. intros y.
      rewrite <- bitmap_alloc by lia. unfold bitmap, fview. cbn. by rewrite V1.
  - cbn. rewrite (the_inode_lookup i s ip Hi). exists T. split_and!; try done.
    + split; [|done| |set_solver].
      * exists (f_bs s), (i_addrs ip). replace (set_i_addrs (i_addrs ip) ip) with ip by by destruct ip.
        rewrite put_inode_same by done. by destruct s.
      * rewrite (the_inode_lookup i s ip Hi). by apply grows_refl.
    + intros Hk'. unfold indirect, file_map. rewrite (the_inode_lookup i s ip Hi). by ztest (k <? NDIRECT) is true.
    + lia.
Qed.

Lemma grown_trans i ip T s T1 s1 T2 s2 X1 X2 :
  inodes s !! i = Some ip → grown i ip T s T1 s1 X1 → grown i (the_inode i s1) T1 s1 T2 s2 X2 →
  grown i ip T s T2 s2 (X1 ∪ X2).
Proof using.
  clear Hlay Hgood. intros Hi [(b1 & a1 & ->) O1 G1 L1] [(b2 & a2 & E2) O2 G2 L2].
  assert (Ht : the_inode i (put_inode i (set_i_addrs a1 ip) (set_f_bs b1 s)) = set_i_addrs a1 ip).
  { apply the_inode_lookup. by eapply put_inode_lookup. }
  split; [|done| |set_solver].
  - exists b2, a2. rewrite E2, Ht. unfold put_inode. cbn. by rewrite list_insert_insert_eq.
  - eapply grows_trans; [done|]. by rewrite Ht in *.
Qed.

Lemma grown_lookup i ip T s T' s' X : inodes s !! i = Some ip → grown i ip T s T' s' X →
  ∃ addrs, inodes s' !! i = Some (set_i_addrs addrs ip) ∧ the_inode i s' = set_i_addrs addrs ip ∧ f_sb s' = f_sb s.
Proof using.
  intros Hi [(b1 & a1 & ->) _ _ _]. exists a1. split_and!; [by eapply put_inode_lookup| |done].
  apply the_inode_lookup. by eapply put_inode_lookup.
Qed.

(** The second half of [bmap], on the indirect block [addr]. *)
Definition bmap_tail (addr bn : Z) : M (fstate B) Z :=
  bp <- fs_bread ROOTDEV addr ;;
  d <- b_bytes bp ;;
  r <- (if load32 d (4 * bn) =? 0 then
          a <- balloc ROOTDEV ;;
          b_update bp (λ d, store32 d (4 * bn) a) ;;;
          fs_log_write bp ;;;
          ret a
        else ret (load32 d (4 * bn))) ;;
  fs_brelse bp ;;;
  ret r.

Lemma bmap_tail_run i ip T s ind bn :
  bs_ok [] T (f_bs s) → f_sb s = sb → inodes s !! i = Some ip →
  image_ok sb (fview s) → file_ok sb (fview s) (i_addrs ip) → NDIRECT <= bn < MAXFILE →
  nth 12 (i_addrs ip) 0 = ind → ind ≠ 0 → (size ({[bm; ind]} ∪ T : gset Z) < bs_cap)%nat →
  match bmap_tail ind (bn - NDIRECT) s with
  | Done a s' => ∃ T', grown i ip T s T' s' {[bm; ind; a]} ∧ a ≠ 0 ∧
      file_map (fview s') (i_addrs (the_inode i s')) bn = a ∧
      (nfree sb (fview s) <= S (nfree sb (fview s')))%nat
  | Panic msg => nfree sb (fview s) = 0%nat
  | _ => False
  end.
Proof using Hlay Hgood.
  intros Hok Hsb Hi Him Hf Hbn Hind Hn Hr. unfold bmap_tail.
  assert (Ho : owns (fview s) (i_addrs ip) ind) by (split; [done|left; congruence]).
  destruct (fo_used _ _ _ Hf _ Ho) as [Hd Hu]. pose proof (bmap_block_pos sb Hlay) as Hbp. pose proof Hd as [Hd1 Hd2].
  destruct (fs_bread_run [] T s ind Hok (Hgood ind ltac:(lia)) (not_elem_of_nil _) ltac:(cbn; lia)) as (h & bs1 & R1 & O1 & V1).
  mcall R1. mcall (b_bytes_run _ T (set_f_bs bs1 s) h ind O1 ltac:(left)).
  change (fview (set_f_bs bs1 s) ind) with (bs_view bs1 ind). rewrite V1.
  assert (Hfm : file_map (fview s) (i_addrs ip) bn = load32 (fview s ind) (4 * (bn - NDIRECT))).
  { unfold file_map. rewrite Hind. ztest (bn <? NDIRECT) is false. by ztest (ind =? 0) is false. }
  rewrite <- Hfm. destruct (Z.eqb_spec (file_map (fview s) (i_addrs ip) bn) 0) as [Hz|Hnz].
  - pose proof (balloc_run sb Hlay Hgood [(h, ind)] T (set_f_bs bs1 s) O1 Hsb) as Hb.
    assert (Him1 : image_ok sb (fview (set_f_bs bs1 s))) by (eapply image_ext; [exact V1|done]).
    specialize (Hb Him1 ltac:(cbn; lia)). rewrite bind_assoc. unfold bind at 1.
    assert (Hbit : bitmap sb (fview (set_f_bs bs1 s)) ind = true) by (unfold bitmap, fview; cbn; by rewrite V1).
    assert (Hsz : (size ({[sb_bmapstart sb]} ∪ T : gset Z) < bs_cap)%nat).
    { eapply Nat.le_lt_trans; [|exact Hr]. apply subseteq_size. unfold bm. set_solver. }
    specialize (Hb (λ b Hb, eq_ind_r (λ b, _) (conj Hd Hbit) (proj1 (list_elem_of_singleton b ind) Hb)) Hsz).
    destruct (balloc ROOTDEV (set_f_bs bs1 s)) as [a s2|msg| | |]; cbn beta iota; try done.
    2:{ apply nfree_none. intros b [H1 H2]. apply (proj2 Hb b). split; [done|]. unfold bitmap, fview in *. cbn. by rewrite V1. }
    destruct Hb as (bs2 & -> & O2 & Hfr1 & _ & V2).
    destruct (update_run _ _ (set_f_bs bs2 (set_f_bs bs1 s)) h ind (λ d, store32 d (4 * (bn - NDIRECT)) a) O2 ltac:(left))
      as (bs3 & R3 & O3 & V3).
    { eapply Nat.le_trans; [|exact Hr]. rewrite <- (size_union_1 a). apply subseteq_size. unfold bm. set_solver. }
    rewrite (bind_run _ _ _ _ _ (R3 _ (ret a))).
    destruct (fs_brelse_run [] _ (set_f_bs bs3 s) h ind O3) as (bs4 & R4 & O4 & V4). mcall R4. rewrite !set_f_bs_twice.
    assert (Hfr : free_block sb (fview s) a).
    { destruct Hfr1 as [Hfd Hff]. split; [done|]. unfold bitmap, fview in Hff. cbn in Hff. by rewrite V1 in Hff. }
    destruct (grows_indirect sb (fview s) (i_addrs ip) a bn Hlay Hf Him Hfr Hbn ltac:(congruence) Hz) as [Hg Hm].
    rewrite Hind in Hg, Hm.
    assert (Hvw : ∀ b, bs_view bs4 b = indirect_view ind (bn - NDIRECT) a (alloc_view sb a (fview s)) b).
    { intros b. rewrite V4. unfold fview at 1. cbn [f_bs set_f_bs]. rewrite V3. unfold fview at 1 2. cbn [f_bs set_f_bs].
      rewrite !V2. unfold indirect_view, alloc_view, fview. cbn [f_bs set_f_bs]. by rewrite !V1. }
    exists ({[ind]} ∪ ({[a; sb_bmapstart sb]} ∪ T)). change (fview (set_f_bs bs4 s)) with (bs_view bs4).
    change (the_inode i (set_f_bs bs4 s)) with (the_inode i s). rewrite (the_inode_lookup i s ip Hi). split_and!.
    + split; [|done| |unfold bm; set_solver].
      * exists bs4, (i_addrs ip). replace (set_i_addrs (i_addrs ip) ip) with ip by by destruct ip. by rewrite put_inode_same.
      * rewrite (the_inode_lookup i (set_f_bs bs4 s) ip Hi). eapply grows_trans; [exact Hg|]. apply grows_refl; [apply Hg|apply Hg|exact Hvw].
    + destruct Hfr as [[? _] _]. lia.
    + etrans; [|exact Hm]. unfold file_map. by rewrite Hvw.
    + apply Nat.eq_le_incl, (nfree_alloc sb _ a); [done|]. destruct Hfr as [[Hfd _] _]. intros y.
      rewrite <- bitmap_alloc by lia. unfold bitmap. rewrite Hvw. unfold indirect_view. by ztest (sb_bmapstart sb =? ind) is false.
  - mrun. destruct (fs_brelse_run [] _ (set_f_bs bs1 s) h ind O1) as (bs4 & R4 & O4 & V4). mcall R4. rewrite !set_f_bs_twice.
    assert (Hvw : ∀ b, bs_view bs4 b = fview s b) by (intros b; rewrite V4; apply V1).
    exists T. change (fview (set_f_bs bs4 s)) with (bs_view bs4).
    change (the_inode i (set_f_bs bs4 s)) with (the_inode i s). rewrite (the_inode_lookup i s ip Hi). split_and!.
    + split; [|done| |set_solver].
      * exists bs4, (i_addrs ip). replace (set_i_addrs (i_addrs ip) ip) with ip by by destruct ip. by rewrite put_inode_same.
      * rewrite (the_inode_lookup i (set_f_bs bs4 s) ip Hi). by apply grows_refl.
    + done.
    + unfold file_map. by rewrite Hvw.
    + rewrite (nfree_ext sb (fview s) (bs_view bs4)) by (intros y; unfold bitmap; by rewrite Hvw). lia.
Qed.

(** What an operation on file [i] may still log: the transaction lies in [G],
    which has the bitmap block and the indirect block; [k] more blocks fit and
    [k] blocks are free, besides an indirect block if the file has none. *)
Record budget (i : nat) (s : fstate B) (T G : gset Z) (k : nat) : Prop := {
  bu_sub : T ⊆ G;
  bu_bm : bm ∈ G;
  bu_ind : indirect i s ≠ 0 → indirect i s ∈ G;
  bu_size : (size G + (if decide (indirect i s = 0%Z) then 1 else 0) + k <= bs_cap)%nat;
  bu_free : ((if decide (indirect i s = 0%Z) then 1 else 0) + k <= nfree sb (fview s))%nat
}.

Lemma budget_log i s T T' G k a : budget i s T G (S k) → T' ⊆ {[a]} ∪ G → budget i s T' ({[a]} ∪ G) k.
Proof using.
  clear Hlay Hgood. intros [B1 B2 B3 B4 B5] HT. split; [done|set_solver|set_solver| |lia]. pose proof (size_union_1 a G). lia.
Qed.

(** A file at inode [i]. *)
Record file_at (i : nat) (ip : inode) (T : gset Z) (s : fstate B) : Prop := {
  fa_ok : bs_ok [] T (f_bs s);
  fa_sb : f_sb s = sb;
  fa_lookup : inodes s !! i = Some ip;
  fa_dev : i_dev ip = ROOTDEV;
  fa_image : image_ok sb (fview s);
  fa_file : file_ok sb (fview s) (i_addrs ip)
}.

Lemma grown_file_at i ip T s T' s' X : file_at i ip T s → grown i ip T s T' s' X → file_at i (the_inode i s') T' s'.
Proof using.
  clear Hlay Hgood. intros [F1 F2 F3 F4 F5 F6] Hg. destruct (grown_lookup i ip T s T' s' X F3 Hg) as (a & Ha & Ht & Hs).
  destruct Hg as [_ G2 [G3 _] _]. split; [done|congruence|by rewrite Ht|by rewrite Ht|apply G3|apply G3].
Qed.

(** [bmap] returns the block of the [bn]-th part, after adding one if there was
    none; a file that has the block is not changed. *)
Lemma bmap_run i ip T G k s bn :
  file_at i ip T s → 0 <= bn < MAXFILE → budget i s T G (S k) →
  ∃ a s' T' G' X, bmap i bn s = Done a s' ∧ grown i ip T s T' s' X ∧ budget i s' T' G' k ∧ G ⊆ G' ∧ a ∈ G' ∧
    (∀ b, b ∈ G' → b ∈ G ∨ b = a ∨ b = indirect i s' ∧ b ≠ 0) ∧
    a ≠ 0 ∧ file_map (fview s') (i_addrs (the_inode i s')) bn = a.
Proof using Hlay Hgood.
  intros Hfa Hbn Hbu. pose proof Hfa as [Hok Hsb Hi Hdev Him Hf]. pose proof Hbu as [U1 U2 U3 U4 U5].
  assert (Hsz : (size ({[bm]} ∪ T : gset Z) <= size G)%nat) by (apply subseteq_size; clear -U1 U2; set_solver).
  assert (Hrun : bmap i bn s = (if bn <? NDIRECT then alloc_addr i ip bn
     else bind (alloc_addr i ip NDIRECT) (λ addr, bmap_tail addr (bn - NDIRECT))) s).
  { unfold bmap. mrun. rewrite (the_inode_lookup i s ip Hi). destruct (Z.ltb_spec bn NDIRECT); [done|].
    change MAXFILE with 140 in Hbn. change NDIRECT with 12 in *. change NINDIRECT with 128.
    ztest (bn - 12 <? 128) is true. unfold alloc_addr. rewrite !Hdev. reflexivity. }
  rewrite Hrun. unfold indirect in U3, U4, U5. rewrite (the_inode_lookup i s ip Hi) in U3, U4, U5.
  destruct (Z.ltb_spec bn NDIRECT) as [Hlt|Hge].
  - pose proof (alloc_addr_run i ip T s bn Hok Hsb Hi Hdev Him Hf ltac:(lia) ltac:(lia)) as Ha.
    destruct (alloc_addr i ip bn s) as [a s'|msg| | |]; try done; [|lia].
    destruct Ha as (T' & Hg & Hn & _ & Hm & _ & Hfree). exists a, s', T', ({[a]} ∪ G), {[bm; a]}.
    destruct (Hm Hlt) as [Hm' Hind]. split_and!; [done|done| |clear; set_solver..|done|done].
    pose proof (gn_log _ _ _ _ _ _ _ Hg) as HL. pose proof (size_union_1 a G).
    split; [clear -HL U1 U2; set_solver|set_solver|rewrite Hind; intros ?%U3; set_solver|rewrite Hind; lia|rewrite Hind; lia].
  - pose proof (alloc_addr_run i ip T s NDIRECT Hok Hsb Hi Hdev Him Hf ltac:(done) ltac:(lia)) as Ha.
    unfold bind. destruct (alloc_addr i ip NDIRECT s) as [ind s1|msg| | |]; try done; [|lia].
    destruct Ha as (T1 & Hg1 & Hn1 & Hat & _ & Hsame & Hfree1).
    pose proof (grown_file_at i ip T s T1 s1 _ Hfa Hg1) as [O1 Hsb1 Hi1 _ Him1 Hf1].
    pose proof (gn_log _ _ _ _ _ _ _ Hg1) as L1. unfold addr_at in Hat, Hsame. change (Z.to_nat NDIRECT) with 12%nat in Hat, Hsame.
    assert (Hs1 : (size ({[ind]} ∪ G : gset Z) + S k <= bs_cap)%nat).
    { destruct (decide (nth 12 (i_addrs ip) 0 = 0)) as [Hz|Hnz]; [pose proof (size_union_1 ind G); lia|].
      destruct (Hsame Hnz) as [-> _]. rewrite (the_inode_lookup i s ip Hi) in Hat.
      replace ({[ind]} ∪ G) with G by (subst ind; specialize (U3 Hnz); clear -U3; set_solver). lia. }
    assert (Hf1' : (S k <= nfree sb (fview s1))%nat).
    { destruct (decide (nth 12 (i_addrs ip) 0 = 0)) as [Hz|Hnz]; [lia|]. by destruct (Hsame Hnz) as [-> _]. }
    assert (Hr1 : (size ({[bm; ind]} ∪ T1 : gset Z) < bs_cap)%nat).
    { assert (size ({[bm; ind]} ∪ T1) <= size ({[ind]} ∪ G : gset Z))%nat; [|lia].
      apply subseteq_size. clear -L1 U1 U2. set_solver. }
    pose proof (bmap_tail_run i (the_inode i s1) T1 s1 ind bn O1 Hsb1 Hi1 Him1 Hf1 ltac:(lia) Hat Hn1 Hr1) as Hb.
    destruct (bmap_tail ind (bn - NDIRECT) s1) as [a s'|msg| | |]; try done; [|lia].
    destruct Hb as (T2 & Hg2 & Hn2 & Hm & Hfree2). pose proof (gn_log _ _ _ _ _ _ _ Hg2) as L2.
    assert (Hind : indirect i s' = ind).
    { unfold indirect. rewrite <- Hat. apply (ev_ind _ _ _ _ _ (gr_ev _ _ _ _ _ (gn_grows _ _ _ _ _ _ _ Hg2))). congruence. }
    exists a, s', T2, ({[a]} ∪ ({[ind]} ∪ G)), ({[bm; ind]} ∪ {[bm; ind; a]}). rewrite Hind.
    split_and!; [done|by eapply grown_trans| |clear; set_solver..|clear -Hn1; set_solver|done|done].
    pose proof (size_union_1 a ({[ind]} ∪ G)). rewrite <- Hind in Hn1.
    split; [clear -L1 L2 U1 U2; set_solver|clear -U2; set_solver|rewrite Hind; set_solver|rewrite decide_False by done; lia|rewrite decide_False by done; lia].
Qed.

(** A block that is there is found without logging anything. *)
Lemma bmap_mapped i ip T s bn :
  file_at i ip T s → 0 <= bn < MAXFILE → file_map (fview s) (i_addrs ip) bn ≠ 0 →
  ∃ bs, bmap i bn s = Done (file_map (fview s) (i_addrs ip) bn) (set_f_bs bs s) ∧ bs_ok [] T bs ∧
    ∀ b, bs_view bs b = fview s b.
Proof using Hlay Hgood.
  intros [Hok Hsb Hi Hdev Him Hf] Hbn Hn. unfold bmap. mrun. rewrite (the_inode_lookup i s ip Hi).
  unfold file_map in *. destruct (Z.ltb_spec bn NDIRECT) as [Hlt|Hge].
  - unfold addr_at. ztest (nth (Z.to_nat bn) (i_addrs ip) 0 =? 0) is false. exists (f_bs s).
    split_and!; [by destruct s|done|done].
  - change (addr_at NDIRECT ip) with (nth 12 (i_addrs ip) 0). set (ind := nth 12 (i_addrs ip) 0) in *.
    destruct (Z.eqb_spec ind 0) as [|Hind]; [done|].
    assert (Ho : owns (fview s) (i_addrs ip) ind) by (split; [done|by left]).
    destruct (fo_used _ _ _ Hf _ Ho) as [[Hd1 Hd2] _]. pose proof (bmap_block_pos sb Hlay) as Hbp.
    assert (bn - NDIRECT < NINDIRECT) by (change MAXFILE with 140 in Hbn; change NDIRECT with 12; change NINDIRECT with 128; lia).
    ztest (bn - NDIRECT <? NINDIRECT) is true.
    mrun. rewrite Hdev.
    destruct (fs_bread_run [] T s ind Hok (Hgood ind ltac:(lia)) (not_elem_of_nil _) ltac:(cbn; lia)) as (h & bs1 & R1 & O1 & V1).
    mcall R1. mcall (b_bytes_run _ T (set_f_bs bs1 s) h ind O1 ltac:(left)).
    change (fview (set_f_bs bs1 s) ind) with (bs_view bs1 ind). rewrite V1.
    ztest (load32 (fview s ind) (4 * (bn - NDIRECT)) =? 0) is false. mrun.
    destruct (fs_brelse_run [] _ (set_f_bs bs1 s) h ind O1) as (bs4 & R4 & O4 & V4). mcall R4.
    exists bs4. split_and!; [done|done|]. intros b. rewrite V4. apply V1.
Qed.
End bmap.
