(* ===== verification/FsData.v ===== *)
(** * Reading and writing files (readi, writei, iupdate of fs.c)

    [readi] returns the bytes of the file, [writei] replaces them and keeps the
    copy of the inode on the disk up to date. *)

From Stdlib Require Import ZArith Lia.
From stdpp Require Import base numbers list gmap strings.
From S2P Require Import Prelude Mem Sleeplock Bio Log Blocks Fs FsBlocks FsFile.

Section data.
Context {B : Type} `{!BlockOps B} `{!BlockStore B ROOTDEV}.
Context (sb : superblock) (Hlay : layout sb) (Hgood : good_disk sb).
Implicit Types s : fstate B.

Lemma copy_mem_ok m d from a n : mem_ok m → mem_ok from → mem_ok (copy_mem m d from a n).
Proof using. intros H1 H2 x. unfold copy_mem. case_if; auto. Qed.

Lemma off_overflow off n : 0 <= off < 4294967296 → 0 <= n < 4294967296 →
  (u32 (off + n) <? off) = (off + n >=? 4294967296).
Proof using.
  intros Ho Hn. destruct (Z.geb_spec (off + n) 4294967296) as [H|H].
  - assert (u32 (off + n) = off + n - 4294967296) as ->; [|apply Z.ltb_lt; lia].
    unfold u32. symmetry. apply Z.mod_unique with (q := 1); lia.
  - rewrite u32_small by lia. apply Z.ltb_ge. lia.
Qed.

(** ** readi *)

Lemma the_inode_bs i (bs : B) s : the_inode i (set_f_bs bs s) = the_inode i s.
Proof using. done. Qed.

(** A file is the same in a state whose blocks show the same content. *)
Lemma file_at_bs i ip T T' s bs :
  file_at sb i ip T s → bs_ok [] T' bs → (∀ b, bs_view bs b = fview s b) → file_at sb i ip T' (set_f_bs bs s).
Proof using.
  clear Hlay Hgood. intros [F1 F2 F3 F4 F5 F6] Hok Hv. split; try done; [by eapply image_ext|].
  apply (grows_refl sb (fview s) (i_addrs ip) (bs_view bs) F6 F5 Hv).
Qed.

Lemma file_byte_ext v v' addrs o : (∀ b, v' b = v b) → file_byte v' addrs o = file_byte v addrs o.
Proof using. intros He. unfold file_byte, file_map. by rewrite !He. Qed.

Lemma readi_loop_run fuel i ip T s m dst off n tot :
  file_at sb i ip T s → 0 <= off → 0 <= tot <= n → off + (n - tot) <= MAXFILE * BSIZE →
  (∀ bn, off / BSIZE <= bn → bn * BSIZE < off + (n - tot) → file_map (fview s) (i_addrs ip) bn ≠ 0) →
  (tot < n → off mod BSIZE + (n - tot) <= BSIZE * Z.of_nat fuel) →
  ∃ m' bs, readi_loop fuel i m dst off n tot s = Done m' (set_f_bs bs s) ∧ bs_ok [] T bs ∧
    (∀ b, bs_view bs b = fview s b) ∧
    ∀ x, m' x = if (dst <=? x) && (x <? dst + (n - tot)) then file_byte (fview s) (i_addrs ip) (off + (x - dst)) else m x.
Proof using Hlay Hgood.
  change BSIZE with 512. change MAXFILE with 140.
  revert s m dst off tot. induction fuel as [|fuel IH]; intros s m dst off tot Hfa Hoff Htot Hmax Hmap Hfuel.
  - assert (tot = n) as -> by (pose proof (Z.mod_pos_bound off 512 ltac:(lia)); lia). cbn [readi_loop]. rewrite Z.ltb_irrefl.
    exists m, (f_bs s). split_and!; [by destruct s|apply Hfa|done|]. intros x. case_if; [lia|done|done].
  - cbn [readi_loop]. destruct (Z.ltb_spec tot n) as [Hlt|Hge].
    2:{ assert (tot = n) as -> by lia. exists m, (f_bs s). split_and!; [by destruct s|apply Hfa|done|]. intros x. case_if; [lia|done|done]. }
    mrun. rewrite (the_inode_lookup i s ip) by apply Hfa. change BSIZE with 512.
    pose proof (Z.div_mod off 512 ltac:(lia)) as Hdm. pose proof (Z.mod_pos_bound off 512 ltac:(lia)) as Hmb.
    assert (Hbn : 0 <= off / 512 < 140) by (split; [apply Z.div_pos|apply Z.div_lt_upper_bound]; lia).
    assert (Hn : file_map (fview s) (i_addrs ip) (off / 512) ≠ 0) by (apply Hmap; lia).
    destruct (bmap_mapped sb Hlay Hgood i ip T s (off / 512) Hfa Hbn Hn) as (bs1 & R1 & O1 & V1). mcall R1.
    set (a := file_map (fview s) (i_addrs ip) (off / 512)) in *.
    assert (Ho : owns (fview s) (i_addrs ip) a) by (by apply owns_map).
    destruct (fo_used _ _ _ (fa_file _ _ _ _ _ Hfa) _ Ho) as [[Hd1 Hd2] _]. pose proof (bmap_block_pos sb Hlay) as Hbp.
    rewrite (fa_dev _ _ _ _ _ Hfa).
    destruct (fs_bread_run [] T (set_f_bs bs1 s) a O1 (Hgood a ltac:(lia)) (not_elem_of_nil _) ltac:(cbn; lia)) as (h & bs2 & R2 & O2 & V2).
    mcall R2. mcall (b_bytes_run _ T (set_f_bs bs2 s) h a O2 ltac:(left)).
    destruct (fs_brelse_run [] _ (set_f_bs bs2 s) h a O2) as (bs3 & R3 & O3 & V3). mcall R3. rewrite !set_f_bs_twice.
    assert (V : ∀ b, bs_view bs3 b = fview s b) by (intros b; rewrite V3; etrans; [apply V2|apply V1]).
    assert (Va : fview (set_f_bs bs2 s) a = fview s a) by (etrans; [apply V2|apply V1]). rewrite Va.
    set (c := Z.min (n - tot) (512 - off mod 512)).
    assert (Hc : 0 < c ∧ c <= n - tot ∧ off mod 512 + c <= 512 ∧ (c = n - tot ∨ off mod 512 + c = 512)) by lia.
    assert (Hnext : c < n - tot → (off + c) mod 512 = 0 ∧ (off + c) / 512 = off / 512 + 1).
    { intros Hcl. assert (off + c = 512 * (off / 512 + 1)) as -> by lia. split; [by rewrite Z.mul_comm, Z.mod_mul|].
      rewrite Z.mul_comm. by rewrite Z.div_mul. }
    destruct (IH (set_f_bs bs3 s) (copy_mem m dst (fview s a) (off mod 512) c) (dst + c) (off + c) (tot + c))
      as (m' & bs4 & R4 & O4 & V4 & M4); try lia.
    { by eapply file_at_bs. }
    { intros bn Hbn1 Hbn2. unfold file_map. change (fview (set_f_bs bs3 s)) with (bs_view bs3). rewrite V.
      apply Hmap; [|lia]. etrans; [|exact Hbn1]. apply Z.div_le_mono; lia. }
    exists m', bs4. split_and!; [done|done|intros b; rewrite V4; apply V|].
    intros x. rewrite M4. rewrite (file_byte_ext (fview s)) by exact V. unfold copy_mem.
    destruct (Z.leb_spec (dst + c) x), (Z.ltb_spec x (dst + c + (n - (tot + c)))), (Z.leb_spec dst x), (Z.ltb_spec x (dst + (n - tot)));
      cbn [andb]; try lia; try (ztest (x <? dst + c) is false; done).
    + f_equal; lia.
    + ztest (x <? dst + c) is true. unfold file_byte. change BSIZE with 512.
      assert ((off + (x - dst)) / 512 = off / 512 ∧ (off + (x - dst)) mod 512 = off mod 512 + (x - dst)) as [-> ->].
      { split; symmetry; [apply (Z.div_unique _ _ _ (off mod 512 + (x - dst)))|apply (Z.mod_unique _ _ (off / 512))]; lia. }
      fold a. by ztest (a =? 0) is false.
Qed.

(** Every part of the file below its size has a block. *)
Definition backed (v : Z → blk) (ip : inode) : Prop :=
  0 <= i_size ip <= MAXFILE * BSIZE ∧
  ∀ bn, 0 <= bn → bn * BSIZE < i_size ip → file_map v (i_addrs ip) bn ≠ 0.

(** The number of bytes [readi] delivers. *)
Definition read_count (ip : inode) (off n : Z) : Z := Z.max 0 (Z.min n (i_size ip - off)).

Lemma readi_run dr i ip T s m dst off n :
  file_at sb i ip T s → backed (fview s) ip → i_type ip ≠ T_DEV → 0 <= off < 4294967296 → 0 <= n < 4294967296 →
  if (off >? i_size ip) || (off + n >=? 4294967296) then readi dr i m dst off n s = Done (-1, m) s
  else ∃ m' bs, readi dr i m dst off n s = Done (read_count ip off n, m') (set_f_bs bs s) ∧ bs_ok [] T bs ∧
    (∀ b, bs_view bs b = fview s b) ∧
    ∀ x, m' x = if (dst <=? x) && (x <? dst + read_count ip off n) then file_byte (fview s) (i_addrs ip) (off + (x - dst)) else m x.
Proof using Hlay Hgood.
  intros Hfa [Hsz Hbk] Hty Hoff Hn. unfold readi. mrun. rewrite (the_inode_lookup i s ip) by apply Hfa.
  ztest (i_type ip =? T_DEV) is false.
  rewrite off_overflow by done. destruct (Z.gtb_spec off (i_size ip)) as [Ho|Ho]; [done|]. destruct (off + n >=? 4294967296) eqn:Hge; [done|]. cbn [orb].
  rewrite Z.geb_leb in Hge. apply Z.leb_gt in Hge.
  assert (Hcnt : (if off + n >? i_size ip then i_size ip - off else n) = read_count ip off n).
  { unfold read_count. destruct (Z.gtb_spec (off + n) (i_size ip)); lia. }
  rewrite Hcnt. set (k := read_count ip off n) in *. assert (Hk : 0 <= k ∧ off + k <= i_size ip) by (unfold k, read_count; lia).
  destruct (readi_loop_run (Z.to_nat (k / BSIZE + 2)) i ip T s m dst off k 0 Hfa) as (m' & bs & R & O & V & Hm); try lia.
  - intros bn H1 H2. apply Hbk; [|lia]. assert (0 <= off / BSIZE) by (apply Z.div_pos; [lia|done]). lia.
  - intros _. change BSIZE with 512. pose proof (Z.mod_pos_bound off 512 ltac:(lia)). pose proof (Z.div_mod k 512 ltac:(lia)).
    pose proof (Z.mod_pos_bound k 512 ltac:(lia)). assert (0 <= k / 512) by (apply Z.div_pos; lia). rewrite Z2Nat.id by lia. lia.
  - mcall R. exists m', bs. split_and!; [done|done|done|]. intros x. rewrite Hm. by rewrite Z.sub_0_r.
Qed.

(** ** Writing a block of the file *)

Definition set_block (a : Z) (d : blk) (v : Z → blk) : Z → blk := λ b, if b =? a then d else v b.

Lemma evolves_write v addrs v' bn d :
  layout sb → file_ok sb v addrs → image_ok sb v → 0 <= bn < MAXFILE → file_map v addrs bn ≠ 0 → mem_ok d →
  (∀ b, v' b = set_block (file_map v addrs bn) d v b) →
  evolves sb v addrs v' addrs ∧ file_map v' addrs bn = file_map v addrs bn ∧
  ∀ off, 0 <= off < MAXFILE * BSIZE →
    file_byte v' addrs off = if off / BSIZE =? bn then d (off mod BSIZE) else file_byte v addrs off.
Proof using.
  clear Hlay Hgood. intros Hlay Hf Him Hbn Hn Hd Hv. set (a := file_map v addrs bn) in *.
  destruct (fo_used _ _ _ Hf a (owns_map v addrs bn Hbn Hn)) as [Hda Hu].
  pose proof (bmap_block_pos sb Hlay) as Hbp. pose proof (fo_ind _ _ _ Hf bn Hbn Hn) as Hi. fold a in Hi.
  assert (Hfm : ∀ bn, file_map v' addrs bn = file_map v addrs bn).
  { intros bn'. unfold file_map. rewrite Hv. unfold set_block. by ztest (nth 12 addrs 0 =? a) is false. }
  assert (Hbit : ∀ y, bitmap sb v' y = bitmap sb v y).
  { intros y. unfold bitmap. rewrite Hv. unfold set_block. unfold data_block in Hda. by ztest (sb_bmapstart sb =? a) is false. }
  assert (Ho : ∀ b, owns v' addrs b ↔ owns v addrs b).
  { intros b. unfold owns. by setoid_rewrite Hfm. }
  split; [split|split; [apply Hfm|]].
  - destruct Hf as [F1 F2 F3 F4]. split; [done| | |].
    + intros b. rewrite Ho, Hbit. apply F2.
    + intros x y. rewrite !Hfm. apply F3.
    + intros x. rewrite Hfm. apply F4.
  - destruct Him as [I1 I2]. split; [|intros b; rewrite Hbit; apply I2].
    intros b. rewrite Hv. unfold set_block. by case_if.
  - intros x _ _. apply Hfm.
  - done.
  - intros b. by rewrite Hbit.
  - intros b _. by rewrite Ho.
  - intros b _ _ Hno. rewrite Hv. unfold set_block. destruct (Z.eqb_spec b a) as [->|]; [|done].
    destruct Hno. by apply owns_map.
  - intros off Hoff. unfold file_byte. rewrite Hfm, Hv. unfold set_block.
    assert (Hq : 0 <= off / BSIZE < MAXFILE) by (split; [apply Z.div_pos; [lia|done]|apply Z.div_lt_upper_bound; [done|lia]]).
    destruct (Z.eqb_spec (off / BSIZE) bn) as [->|Hne].
    + fold a. ztest (a =? 0) is false. by rewrite Z.eqb_refl.
    + destruct (Z.eqb_spec (file_map v addrs (off / BSIZE)) 0) as [|Hnz]; [done|].
      destruct (Z.eqb_spec (file_map v addrs (off / BSIZE)) a) as [E|]; [|done].
      destruct Hne. by apply (fo_inj _ _ _ Hf).
Qed.

(** One pass through the loop of [writei]. *)
Definition write_part (i : nat) (m : mem) (src off c : Z) : M (fstate B) unit :=
  ip <- gets (the_inode i) ;;
  a <- bmap i (off / BSIZE) ;;
  bp <- fs_bread (i_dev ip) a ;;
  b_update bp (λ d, copy_mem d (off mod BSIZE) m src c) ;;;
  fs_log_write bp ;;;
  fs_brelse bp.

Lemma writei_loop_step fuel i m src off n tot s : tot < n →
  writei_loop (S fuel) i m src off n tot s =
  (write_part i m src off (Z.min (n - tot) (BSIZE - off mod BSIZE)) ;;;
   writei_loop fuel i m (src + Z.min (n - tot) (BSIZE - off mod BSIZE)) (off + Z.min (n - tot) (BSIZE - off mod BSIZE)) n
     (tot + Z.min (n - tot) (BSIZE - off mod BSIZE))) s.
Proof using.
  intros Hlt. cbn [writei_loop]. ztest (tot <? n) is true. unfold write_part, bind at 1 2 3 4 5 6 7 8 9 10 11 12, gets.
  destruct (bmap i _ s) as [a s1| | | |]; try done. destruct (fs_bread _ a s1) as [h s2| | | |]; try done.
  destruct (b_update h _ s2) as [[] s3| | | |]; try done. destruct (fs_log_write h s3) as [[] s4| | | |]; try done.
Qed.

(** What writing at inode [i] may do to the state. *)
Record written (i : nat) (ip : inode) (s s' : fstate B) : Prop := {
  wr_state : ∃ bs addrs, s' = put_inode i (set_i_addrs addrs ip) (set_f_bs bs s);
  wr_ev : evolves sb (fview s) (i_addrs ip) (fview s') (i_addrs (the_inode i s'))
}.

Lemma written_the i ip s s' : inodes s !! i = Some ip → written i ip s s' →
  ∃ addrs, inodes s' !! i = Some (set_i_addrs addrs ip) ∧ the_inode i s' = set_i_addrs addrs ip ∧ f_sb s' = f_sb s.
Proof using.
  intros Hi [(b1 & a1 & ->) _]. exists a1. split_and!; [by eapply put_inode_lookup| |done].
  apply the_inode_lookup. by eapply put_inode_lookup.
Qed.

Lemma written_trans i ip s s1 s2 :
  inodes s !! i = Some ip → written i ip s s1 → written i (the_inode i s1) s1 s2 → written i ip s s2.
Proof using.
  clear Hlay Hgood. intros Hi W1 [(b2 & a2 & E2) G2]. pose proof (written_the i ip s s1 Hi W1) as (a & _ & Ht & _).
  destruct W1 as [(b1 & a1 & E1) G1]. split.
  - exists b2, a2. rewrite E2, Ht, E1. unfold put_inode. cbn. by rewrite list_insert_insert_eq.
  - eapply evolves_trans; [exact G1|exact G2].
Qed.

Lemma write_part_run i ip T G k s m src off c :
  file_at sb i ip T s → mem_ok m → 0 <= off → 0 < c → off mod BSIZE + c <= BSIZE → off / BSIZE < MAXFILE →
  budget sb i s T G (S k) →
  ∃ s' T' G', write_part i m src off c s = Done tt s' ∧ file_at sb i (the_inode i s') T' s' ∧ budget sb i s' T' G' k ∧ written i ip s s' ∧ G ⊆ G' ∧
      let fm := file_map (fview s') (i_addrs (the_inode i s')) (off / BSIZE) in
      (∀ b, b ∈ G' → b ∈ G ∨ b = fm ∨ b = indirect i s' ∧ b ≠ 0) ∧ fm ≠ 0 ∧
      (∀ o, 0 <= o < MAXFILE * BSIZE → file_byte (fview s') (i_addrs (the_inode i s')) o =
        if (off <=? o) && (o <? off + c) then m (src + (o - off)) else file_byte (fview s) (i_addrs ip) o) ∧
      (file_map (fview s) (i_addrs ip) (off / BSIZE) ≠ 0 → i_addrs (the_inode i s') = i_addrs ip).
Proof using Hlay Hgood.
  intros Hfa Hm Hoff Hc Hoc Hbn Hbu. unfold write_part. mrun. rewrite (the_inode_lookup i s ip) by apply Hfa.
  assert (Hbn0 : 0 <= off / BSIZE) by (apply Z.div_pos; [lia|done]).
  destruct (bmap_run sb Hlay Hgood i ip T G k s (off / BSIZE) Hfa ltac:(lia) Hbu)
    as (a & s1 & T1 & G1 & X & Hrun & Hg & Hb1 & HG & Ha1 & HG1 & Ha0 & Hma).
  assert (Hsame : file_map (fview s) (i_addrs ip) (off / BSIZE) ≠ 0 → the_inode i s1 = ip).
  { intros Hn. destruct (bmap_mapped sb Hlay Hgood i ip T s (off / BSIZE) Hfa ltac:(lia) Hn) as (bs & R & _).
    rewrite R in Hrun. injection Hrun as <- <-. apply the_inode_lookup, Hfa. }
  mcall Hrun.
  pose proof (grown_file_at sb i ip T s T1 s1 X Hfa Hg) as Hf1. pose proof Hf1 as [O1 Hsb1 Hi1 Hdev1 Him1 Hfo1].
  assert (Hn1 : file_map (fview s1) (i_addrs (the_inode i s1)) (off / BSIZE) ≠ 0) by congruence.
  destruct (fo_used _ _ _ Hfo1 _ (owns_map _ _ _ (conj Hbn0 Hbn) Hn1)) as [[Hd1 Hd2] _]. rewrite Hma in Hd1, Hd2.
  pose proof (bmap_block_pos sb Hlay) as Hbp. rewrite (fa_dev _ _ _ _ _ Hfa).
  destruct (fs_bread_run [] T1 s1 a O1 (Hgood a ltac:(lia)) (not_elem_of_nil _) ltac:(cbn; lia)) as (h & bs2 & R2 & O2 & V2).
  mcall R2. set (g := λ d : blk, copy_mem d (off mod BSIZE) m src c).
  destruct (update_run _ _ (set_f_bs bs2 s1) h a g O2 ltac:(left)) as (bs3 & R3 & O3 & V3).
  { destruct Hb1 as [B1 _ _ B4 _]. assert (size ({[a]} ∪ T1) <= size G1)%nat; [|lia]. apply subseteq_size. clear -B1 Ha1. set_solver. }
  rewrite R3. destruct (fs_brelse_run [] _ (set_f_bs bs3 s1) h a O3) as (bs4 & R4 & O4 & V4). rewrite set_f_bs_twice, R4, set_f_bs_twice.
  assert (Hv : ∀ b, bs_view bs4 b = set_block a (g (fview s1 a)) (fview s1) b).
  { intros b. rewrite V4. unfold fview at 1. cbn [f_bs set_f_bs]. rewrite V3. unfold fview at 1 2, set_block. cbn [f_bs set_f_bs]. by rewrite !V2. }
  rewrite <- Hma in Hv. set (s' := set_f_bs bs4 s1). set (v1 := fview s1) in *.
  destruct (evolves_write v1 (i_addrs (the_inode i s1)) (bs_view bs4) (off / BSIZE) (g (v1 (file_map v1 (i_addrs (the_inode i s1)) (off / BSIZE))))
     Hlay Hfo1 Him1 (conj Hbn0 Hbn) Hn1) as (Hev & Hfm & Hby); [by apply copy_mem_ok; [apply Him1|]|exact Hv|].
  destruct Hg as [(b0 & a0 & E0) _ [Hge Hgb] _].
  exists s', ({[a]} ∪ T1), G1.
  change (the_inode i s') with (the_inode i s1). change (fview s') with (bs_view bs4). change (indirect i s') with (indirect i s1).
  split_and!; [done| | | |done| | | |].
  - split; try done; [apply Hev|apply Hev].
  - destruct Hb1 as [B1 B2 B3 B4 B5]. split; try done; [clear -B1 Ha1; set_solver|].
    rewrite (nfree_ext sb v1); [done|]. intros y. unfold bitmap, fview, s'. cbn [f_bs set_f_bs]. rewrite Hv. unfold set_block.
    rewrite Hma. by ztest (sb_bmapstart sb =? a) is false.
  - split; [|by eapply evolves_trans]. exists bs4, a0. unfold s'. by rewrite E0.
  - rewrite Hfm, Hma. done.
  - by rewrite Hfm.
  - intros o Ho. rewrite Hby, Hgb by done. unfold g, copy_mem. change BSIZE with 512 in *.
    pose proof (Z.div_mod off 512 ltac:(lia)). pose proof (Z.div_mod o 512 ltac:(lia)).
    pose proof (Z.mod_pos_bound off 512 ltac:(lia)). pose proof (Z.mod_pos_bound o 512 ltac:(lia)).
    assert (Hq : (file_map v1 (i_addrs (the_inode i s1)) (off / 512) =? 0) = false) by (by apply Z.eqb_neq).
    destruct (Z.eqb_spec (o / 512) (off / 512)) as [E|E].
    + destruct (Z.leb_spec off o), (Z.ltb_spec o (off + c)), (Z.leb_spec (off mod 512) (o mod 512)), (Z.ltb_spec (o mod 512) (off mod 512 + c));
        cbn [andb]; try lia; [f_equal; lia|..];
        rewrite <- Hgb by done; unfold file_byte; change BSIZE with 512; change (fview s1) with v1; rewrite E, Hq; done.
    + destruct (Z.leb_spec off o), (Z.ltb_spec o (off + c)); cbn [andb]; try done. destruct E. lia.
  - intros Hn. by rewrite (Hsame Hn).
Qed.

(** The parts [bn] of a file that the bytes from [lo] to [hi] lie in. *)
Definition touches (lo hi bn : Z) : Prop := lo / BSIZE <= bn ∧ bn * BSIZE < hi ∧ lo < hi.

(** The bytes from [off] to [off'] of file [i] were replaced by those at [src]
    of [m], logging only blocks of [G], the indirect block and the blocks of
    those bytes. *)
Record wrote (i : nat) (ip : inode) (G : gset Z) (k : nat) (s : fstate B) (m : mem) (src off off' : Z)
    (T' G' : gset Z) (s' : fstate B) : Prop := {
  wt_file : file_at sb i (the_inode i s') T' s';
  wt_budget : budget sb i s' T' G' k;
  wt_written : written i ip s s';
  wt_sub : G ⊆ G';
  wt_log : ∀ b, b ∈ G' → b ∈ G ∨ b = indirect i s' ∧ b ≠ 0 ∨
    ∃ bn, touches off off' bn ∧ b = file_map (fview s') (i_addrs (the_inode i s')) bn;
  wt_mapped : ∀ bn, touches off off' bn → file_map (fview s') (i_addrs (the_inode i s')) bn ≠ 0;
  wt_byte : ∀ o, 0 <= o < MAXFILE * BSIZE → file_byte (fview s') (i_addrs (the_inode i s')) o =
    if (off <=? o) && (o <? off') then m (src + (o - off)) else file_byte (fview s) (i_addrs ip) o;
  wt_same : (∀ bn, touches off off' bn → file_map (fview s) (i_addrs ip) bn ≠ 0) → i_addrs (the_inode i s') = i_addrs ip
}.

Lemma wrote_refl i ip T G k s m src off :
  file_at sb i ip T s → budget sb i s T G k → wrote i ip G k s m src off off T G s.
Proof using.
  clear Hlay Hgood. intros Hfa Hbu. pose proof Hfa as [F1 F2 F3 F4 F5 F6]. pose proof (the_inode_lookup i s ip F3) as Ht.
  split; try rewrite Ht; try done.
  - split; [|rewrite Ht; by apply (grows_refl sb (fview s) (i_addrs ip) (fview s))].
    exists (f_bs s), (i_addrs ip). replace (set_i_addrs (i_addrs ip) ip) with ip by by destruct ip.
    rewrite put_inode_same by done. by destruct s.
  - intros b Hb. by left.
  - intros bn (_ & _ & ?). lia.
  - intros o Ho. case_if; [lia|done|done].
Qed.

(** Writing up to [off1], in one block, and then on to [off']. *)
Lemma wrote_step i ip T1 G G1 G' T' k1 k s s1 s' m src off off1 off' :
  inodes s !! i = Some ip → 0 <= off → off < off1 <= off' → off' <= MAXFILE * BSIZE → (∀ bn, touches off off1 bn → bn = off / BSIZE) →
  (off1 < off' → off1 / BSIZE = off / BSIZE + 1) →
  wrote i ip G k1 s m src off off1 T1 G1 s1 →
  wrote i (the_inode i s1) G1 k s1 m (src + (off1 - off)) off1 off' T' G' s' →
  wrote i ip G k s m src off off' T' G' s'.
Proof using.
  clear Hlay Hgood. intros Hi Hoff0 Hoff Hmx Hone Hnext [A1 A2 A3 A4 A5 A6 A7 A8] [B1 B2 B3 B4 B5 B6 B7 B8].
  assert (Hpos : ∀ bn, touches off off1 bn → 0 <= bn < MAXFILE).
  { intros bn (H1 & H2 & H3). assert (0 <= off / BSIZE) by (apply Z.div_pos; [lia|done]). change BSIZE with 512 in *. change MAXFILE with 140 in *. lia. }
  assert (Hkeep : ∀ bn, touches off off1 bn → file_map (fview s') (i_addrs (the_inode i s')) bn = file_map (fview s1) (i_addrs (the_inode i s1)) bn).
  { intros bn Hbn. apply (ev_map _ _ _ _ _ (wr_ev _ _ _ _ B3)); auto. }
  assert (Hind : indirect i s1 ≠ 0 → indirect i s' = indirect i s1) by apply (ev_ind _ _ _ _ _ (wr_ev _ _ _ _ B3)).
  assert (H01 : touches off off1 (off / BSIZE)).
  { split_and!; [done| |lia]. change BSIZE with 512. pose proof (Z.div_mod off 512 ltac:(lia)). pose proof (Z.mod_pos_bound off 512 ltac:(lia)). lia. }
  assert (Hsplit : ∀ bn, touches off off' bn ↔ touches off off1 bn ∨ touches off1 off' bn).
  { intros bn. split.
    - intros (H1 & H2 & H3). destruct (decide (bn = off / BSIZE)) as [->|]; [by left|].
      destruct (decide (off1 < off')) as [Hl|]; [right; split_and!; [rewrite Hnext by done; lia|done|done]|].
      left. split_and!; lia.
    - intros [(H1 & H2 & H3)|(H1 & H2 & H3)]; split_and!; lia. }
  split; [done|done|by eapply written_trans|set_solver| | | |].
  - intros b [Hb|[Hb|(bn & Hbn & Hb)]]%B5.
    + apply A5 in Hb as [Hb|[[-> Hb]|(bn & Hbn & Hb)]]; [by left| |].
      * right; left. by rewrite Hind.
      * right; right. exists bn. rewrite Hsplit, Hkeep by done. auto.
    + right; by left.
    + right; right. exists bn. rewrite Hsplit. auto.
  - intros bn [Hbn|Hbn]%Hsplit; [rewrite Hkeep by done|]; auto.
  - intros o Ho. rewrite B7, A7 by done.
    destruct (Z.leb_spec off1 o), (Z.ltb_spec o off'), (Z.leb_spec off o), (Z.ltb_spec o off1); cbn [andb]; try lia; try done. f_equal; lia.
  - intros Hall. rewrite B8, A8; [done| |].
    + intros bn Hbn. apply Hall, Hsplit. by left.
    + intros bn Hbn. assert (Hn : file_map (fview s) (i_addrs ip) bn ≠ 0) by (apply Hall, Hsplit; by right).
      rewrite (ev_map _ _ _ _ _ (wr_ev _ _ _ _ A3)); [done| |done]. destruct Hbn as (H1 & H2 & H3).
      assert (0 <= off1 / BSIZE) by (apply Z.div_pos; [lia|done]). change BSIZE with 512 in *. change MAXFILE with 140 in *. lia.
Qed.

Lemma writei_loop_run fuel K i ip T G k s m src off n tot :
  file_at sb i ip T s → mem_ok m → 0 <= off → 0 <= tot <= n → off + (n - tot) <= MAXFILE * BSIZE →
  (tot < n → off mod BSIZE + (n - tot) <= BSIZE * Z.of_nat fuel) →
  (tot < n → off mod BSIZE + (n - tot) <= BSIZE * Z.of_nat K) → budget sb i s T G (K + k) →
  ∃ s' T' G', writei_loop fuel i m src off n tot s = Done (off + (n - tot)) s' ∧
    wrote i ip G k s m src off (off + (n - tot)) T' G' s'.
Proof using Hlay Hgood.
  intros Hfa Hm. revert K ip T G s src off tot Hfa. induction fuel as [|fuel IH];
    intros K ip T G s src off tot Hfa Hoff Htot Hmax Hfuel HK Hbu; pose proof (Z.mod_pos_bound off BSIZE ltac:(done)) as Hmb.
  - assert (tot = n) as -> by lia. cbn [writei_loop]. rewrite Z.ltb_irrefl. replace (off + (n - n)) with off by lia. exists s, T, G. split; [done|].
    apply wrote_refl; [done|]. destruct Hbu as [B1 B2 B3 B4 B5]. split; try done; lia.
  - destruct (Z.lt_ge_cases tot n) as [Hlt|Hge].
    2:{ assert (tot = n) as -> by lia. cbn [writei_loop]. rewrite Z.ltb_irrefl. replace (off + (n - n)) with off by lia. exists s, T, G. split; [done|].
        apply wrote_refl; [done|]. destruct Hbu as [B1 B2 B3 B4 B5]. split; try done; lia. }
    rewrite writei_loop_step by done. set (c := Z.min (n - tot) (BSIZE - off mod BSIZE)).
    destruct K as [|K]; [lia|]. change BSIZE with 512 in *. change MAXFILE with 140 in *.
    pose proof (Z.div_mod off 512 ltac:(lia)) as Hdm.
    assert (Hc : 0 < c ∧ c <= n - tot ∧ off mod 512 + c <= 512 ∧ (c = n - tot ∨ off mod 512 + c = 512)) by lia.
    assert (Hnext : c < n - tot → (off + c) mod 512 = 0 ∧ (off + c) / 512 = off / 512 + 1).
    { intros Hcl. assert (off + c = 512 * (off / 512 + 1)) as -> by lia. split; [by rewrite Z.mul_comm, Z.mod_mul|].
      rewrite Z.mul_comm. by rewrite Z.div_mul. }
    destruct (write_part_run i ip T G (K + k) s m src off c Hfa Hm Hoff ltac:(lia) ltac:(change BSIZE with 512; lia)
      ltac:(change BSIZE with 512; change MAXFILE with 140; lia) Hbu) as (s1 & T1 & G1 & Hrun1 & Hf1 & Hb1 & W1 & HG & HG1 & Hn1 & Hby1 & Hs1).
    mcall Hrun1.
    assert (Hone : ∀ bn, touches off (off + c) bn → bn = off / BSIZE).
    { intros bn (H1 & H2 & _). change BSIZE with 512 in *. lia. }
    assert (Hwr : wrote i ip G (K + k) s m src off (off + c) T1 G1 s1).
    { split; try done.
      - intros b [Hb|[Hb|Hb]]%HG1; [by left|right; right|right; by left]. exists (off / BSIZE). split; [|done].
        change BSIZE with 512. split_and!; change BSIZE with 512; lia.
      - intros bn Hbn. by rewrite (Hone bn Hbn).
      - intros Hall. apply Hs1, Hall. split_and!; change BSIZE with 512; lia. }
    specialize (IH K (the_inode i s1) T1 G1 s1 (src + c) (off + c) (tot + c) Hf1 ltac:(lia) ltac:(lia) ltac:(lia)).
    destruct (IH ltac:(intros ?; destruct Hnext as [-> _]; lia) ltac:(intros ?; destruct Hnext as [-> _]; lia) Hb1)
      as (s' & T' & G' & Hrun' & Hw').
    replace (off + c + (n - (tot + c))) with (off + (n - tot)) in Hrun', Hw' by lia. exists s', T', G'. split; [done|].
    apply (wrote_step i ip T1 G G1 G' T' (K + k) k s s1 s' m src off (off + c)); [apply Hfa|done|lia| |done| |done|].
    + change BSIZE with 512. change MAXFILE with 140. lia.
    + intros Hl. change BSIZE with 512. apply Hnext. lia.
    + by replace (off + c - off) with c by lia.
Qed.
End data.
