(* ===== verification/FsInode.v ===== *)
(** * Inodes on the disk and in the cache (iupdate, ilock, writei of fs.c)

    The encoding of inodes in blocks, and [writei] with the write-through of the
    inode: a file as size and bytes, refined by [readi] and [writei]. *)

From Stdlib Require Import ZArith Lia.
From stdpp Require Import base numbers list gmap strings.
From S2P Require Import Prelude Mem Sleeplock Bio Log Blocks Fs FsBlocks FsFile FsData.

(** ** Encoding *)

Lemma load16_store16_eq m a v : load16 (store16 m a v) a = u16 v.
Proof.
  unfold load16, store16, store8, u8, u16. rewrite !Z.eqb_refl. ztest (a =? a + 1) is false.
  rewrite Z.shiftr_div_pow2 by lia. change (2 ^ 8) with 256. zlia.
Qed.

Lemma s16_u16 v : -32768 <= v < 32768 → s16 (u16 v) = v.
Proof.
  intros Hv. unfold s16, u16. rewrite Z.mod_mod by lia. destruct (decide (0 <= v)).
  - rewrite Z.mod_small by lia. case_if; lia.
  - assert (v mod 65536 = v + 65536) as -> by (symmetry; apply Z.mod_unique with (q := -1); lia). case_if; lia.
Qed.

Lemma store16_out m a v x : x < a ∨ a + 2 <= x → store16 m a v x = m x.
Proof. intros H. unfold store16. rewrite !store8_ne by lia. done. Qed.

Lemma mem_ok_store16 m a v : mem_ok m → mem_ok (store16 m a v).
Proof. intros H. unfold store16. auto with xv6. Qed.

Lemma load16_ext m m' a : (∀ x, a <= x < a + 2 → m' x = m x) → load16 m' a = load16 m a.
Proof. intros H. unfold load16. by rewrite !H by lia. Qed.

Lemma store_words_out l : ∀ d a x, x < a ∨ a + 4 * Z.of_nat (length l) <= x → store_words d a l x = d x.
Proof.
  induction l as [|w l IH]; intros d a x Hx; cbn [store_words]; [done|]. cbn [length] in Hx.
  rewrite IH, store32_out by lia. done.
Qed.

Lemma mem_ok_store_words l : ∀ d a, mem_ok d → mem_ok (store_words d a l).
Proof. induction l as [|w l IH]; intros d a Hd; cbn [store_words]; [done|]. by apply IH, mem_ok_store32. Qed.

Lemma load_store_words l : ∀ d a, Forall is_u32 l → load_words (store_words d a l) a (length l) = l.
Proof.
  induction l as [|w l IH]; intros d a Hl; [done|]. inversion Hl as [|? ? Hw Hl']; subst. cbn [store_words length].
  unfold load_words. cbn [seq fmap list_fmap]. f_equal.
  - replace (a + 4 * Z.of_nat 0) with a by lia. rewrite (load32_ext (store32 d a w)); [by apply load32_store32_eq|].
    intros x Hx. apply store_words_out. lia.
  - rewrite <- fmap_S_seq, <- list_fmap_compose. rewrite <- (IH (store32 d a w) (a + 4)) at 2 by done.
    unfold load_words. apply list_fmap_ext. intros i k Hk. cbn. f_equal. lia.
Qed.

(** The fields of an inode fit in their places. *)
Record dinode_ok (ip : inode) : Prop := {
  di_type : -32768 <= i_type ip < 32768;
  di_major : -32768 <= i_major ip < 32768;
  di_minor : -32768 <= i_minor ip < 32768;
  di_nlink : -32768 <= i_nlink ip < 32768;
  di_size : is_u32 (i_size ip);
  di_addrs : length (i_addrs ip) = 13%nat ∧ Forall is_u32 (i_addrs ip)
}.

Lemma dinode_store_out ip o d x :
  length (i_addrs ip) = 13%nat → x < o ∨ o + 64 <= x → dinode_store ip o d x = d x.
Proof.
  intros Hl Hx. unfold dinode_store. cbv zeta. rewrite store_words_out, store32_out, !store16_out by lia. done.
Qed.

Lemma mem_ok_dinode_store ip o d : mem_ok d → mem_ok (dinode_store ip o d).
Proof.
  intros Hd. unfold dinode_store. cbv zeta. apply mem_ok_store_words, mem_ok_store32.
  by do 4 apply mem_ok_store16.
Qed.

(** Reading back what was stored. *)
Lemma dinode_roundtrip ip ip' o d :
  dinode_ok ip → dinode_load (dinode_store ip o d) o ip' =
    Inode (i_dev ip') (i_inum ip') (i_ref ip') (i_lock ip') (i_valid ip')
      (i_type ip) (i_major ip) (i_minor ip) (i_nlink ip) (i_size ip) (i_addrs ip).
Proof.
  intros [H1 H2 H3 H4 H5 [H6 H7]]. unfold dinode_load, dinode_store. cbv zeta.
  assert (H16 : ∀ m k, 0 <= k <= 6 → load16 (store_words (store32 m (o + 8) (i_size ip)) (o + 12) (i_addrs ip)) (o + k) = load16 m (o + k)).
  { intros m k Hk. apply load16_ext. intros x Hx. rewrite store_words_out, store32_out by lia. done. }
  assert (Hne : ∀ m a v b, b + 2 <= a ∨ a + 2 <= b → load16 (store16 m a v) b = load16 m b).
  { intros m a v b Hab. apply load16_ext. intros x Hx. apply store16_out. lia. }
  pose proof (H16 (store16 (store16 (store16 (store16 d o (i_type ip)) (o + 2) (i_major ip)) (o + 4) (i_minor ip)) (o + 6) (i_nlink ip)) 0 ltac:(lia)) as H0.
  rewrite Z.add_0_r in H0. rewrite H0, !H16 by lia. f_equal.
  - rewrite !Hne, load16_store16_eq by lia. by apply s16_u16.
  - rewrite !Hne, load16_store16_eq by lia. by apply s16_u16.
  - rewrite !Hne, load16_store16_eq by lia. by apply s16_u16.
  - rewrite load16_store16_eq. by apply s16_u16.
  - etrans; [apply load32_ext; intros x Hx; apply store_words_out; lia|]. by apply load32_store32_eq.
  - rewrite <- H6 at 1. by apply load_store_words.
Qed.

Section inode.
Context {B : Type} `{!BlockOps B} `{!BlockStore B ROOTDEV}.
Context (sb : superblock) (Hlay : layout sb) (Hgood : good_disk sb).
Implicit Types s : fstate B.

Lemma IBLOCK_range inum : 0 <= inum < sb_ninodes sb →
  IBLOCK inum sb = inum / 8 + sb_inodestart sb ∧ 2 <= IBLOCK inum sb < sb_bmapstart sb.
Proof using Hlay.
  intros Hi. destruct Hlay as [L1 L2 L3 L4 L5]. unfold IBLOCK. change IPB with 8 in *. change BPB with 4096 in *.
  assert (0 <= inum / 8 <= sb_ninodes sb / 8) by (split; [apply Z.div_pos; lia|apply Z.div_le_mono; lia]).
  rewrite u32_small by lia. lia.
Qed.

Lemma dinode_off_range inum : 0 <= dinode_off inum <= 448.
Proof using. unfold dinode_off. change IPB with 8. pose proof (Z.mod_pos_bound inum 8 ltac:(lia)). lia. Qed.

Lemma iupdate_run T s i ip :
  bs_ok [] T (f_bs s) → f_sb s = sb → inodes s !! i = Some ip → i_dev ip = ROOTDEV → 0 <= i_inum ip < sb_ninodes sb →
  (size ({[IBLOCK (i_inum ip) sb]} ∪ T : gset Z) <= bs_cap)%nat →
  ∃ bs, iupdate i s = Done tt (set_f_bs bs s) ∧ bs_ok [] ({[IBLOCK (i_inum ip) sb]} ∪ T) bs ∧
    ∀ b, bs_view bs b = set_block (IBLOCK (i_inum ip) sb)
      (dinode_store ip (dinode_off (i_inum ip)) (fview s (IBLOCK (i_inum ip) sb))) (fview s) b.
Proof using Hlay Hgood.
  intros Hok Hsb Hi Hdev Hin Hr. unfold iupdate. mrun. rewrite (the_inode_lookup i s ip Hi), Hsb, Hdev.
  destruct (IBLOCK_range _ Hin) as [_ Hib]. set (ib := IBLOCK (i_inum ip) sb) in *.
  destruct (fs_bread_run [] T s ib Hok) as (h & bs1 & R1 & O1 & V1); [apply Hgood; destruct Hlay; lia|apply not_elem_of_nil|cbn; lia|].
  mcall R1. set (g := dinode_store ip (dinode_off (i_inum ip))).
  destruct (update_run _ T (set_f_bs bs1 s) h ib g O1 ltac:(left) Hr) as (bs2 & R2 & O2 & V2). rewrite R2.
  destruct (fs_brelse_run [] _ (set_f_bs bs2 s) h ib O2) as (bs3 & R3 & O3 & V3). rewrite set_f_bs_twice, R3, set_f_bs_twice.
  exists bs3. split_and!; [done|done|]. intros b. rewrite V3. unfold fview at 1. cbn [f_bs set_f_bs]. rewrite V2.
  unfold set_block, fview. cbn [f_bs set_f_bs]. by rewrite !V1.
Qed.

(** Changing a block before the bitmap does not affect files. *)
Lemma meta_write v v' addrs b0 d :
  file_ok sb v addrs → image_ok sb v → 0 <= b0 < sb_bmapstart sb → mem_ok d → (∀ b, v' b = set_block b0 d v b) →
  file_ok sb v' addrs ∧ image_ok sb v' ∧ (∀ o, file_byte v' addrs o = file_byte v addrs o ∨ ¬ 0 <= o < MAXFILE * BSIZE) ∧
  (∀ bn, 0 <= bn < MAXFILE → file_map v' addrs bn = file_map v addrs bn) ∧
  (∀ b, bitmap sb v' b = bitmap sb v b) ∧ (∀ b, owns v' addrs b ↔ owns v addrs b).
Proof using.
  clear Hlay Hgood. intros Hf Him Hb Hd Hv.
  assert (Hin : ∀ b, owns v addrs b → v' b = v b).
  { intros b Ho. destruct (fo_used _ _ _ Hf b Ho) as [[H1 H2] _]. rewrite Hv. unfold set_block. by ztest (b =? b0) is false. }
  assert (Hfm : ∀ bn, file_map v' addrs bn = file_map v addrs bn).
  { intros bn. unfold file_map. destruct (bn <? NDIRECT); [done|]. destruct (Z.eqb_spec (nth 12 addrs 0) 0); [done|].
    rewrite Hin; [done|]. split; [done|by left]. }
  assert (Hbit : ∀ b, bitmap sb v' b = bitmap sb v b).
  { intros b. unfold bitmap. rewrite Hv. unfold set_block. by ztest (sb_bmapstart sb =? b0) is false. }
  assert (Ho : ∀ b, owns v' addrs b ↔ owns v addrs b) by (intros b; unfold owns; by setoid_rewrite Hfm).
  split_and!; [|split| |done|done|done].
  - destruct Hf as [F1 F2 F3 F4]. split; [done| | |].
    + intros b. rewrite Ho, Hbit. apply F2.
    + intros x y. rewrite !Hfm. apply F3.
    + intros x. rewrite Hfm. apply F4.
  - intros b. rewrite Hv. unfold set_block. case_if; [done|apply Him].
  - intros b. rewrite Hbit. apply Him.
  - intros o. destruct (decide (0 <= o < MAXFILE * BSIZE)) as [Hr|]; [left|by right]. unfold file_byte. rewrite Hfm.
    destruct (Z.eqb_spec (file_map v addrs (o / BSIZE)) 0) as [|Hn]; [done|]. rewrite Hin; [done|]. apply owns_map; [|done].
    split; [apply Z.div_pos; [lia|done]|apply Z.div_lt_upper_bound; [done|lia]].
Qed.

Lemma file_ok_u32 v addrs : file_ok sb v addrs → Forall is_u32 addrs.
Proof using Hlay.
  intros Hf. apply Forall_lookup. intros k a Hk. pose proof (fo_len _ _ _ Hf) as Hl. pose proof (lookup_lt_Some _ _ _ Hk) as Hlt.
  assert (Hn : nth k addrs 0 = a) by (by rewrite nth_lookup, Hk).
  destruct (decide (a = 0)) as [->|Ha]; [done|]. assert (Ho : owns v addrs a).
  { split; [done|]. destruct (decide (k = 12%nat)) as [->|]; [by left|right]. exists (Z.of_nat k).
    change MAXFILE with 140. split; [lia|]. unfold file_map. change NDIRECT with 12. ztest (Z.of_nat k <? 12) is true. by rewrite Nat2Z.id. }
  destruct (fo_used _ _ _ Hf a Ho) as [[H1 H2] _]. destruct Hlay as [L1 L2 L3 L4 L5]. change BPB with 4096 in *.
  pose proof (bmap_block_pos sb Hlay). unfold is_u32. lia.
Qed.

(** An inode in the cache, the same on the disk, with its file. *)
Record live (i : nat) (ip : inode) (T : gset Z) (s : fstate B) : Prop := {
  lv_file : file_at sb i ip T s;
  lv_backed : backed (fview s) ip;
  lv_dinode : dinode_ok ip;
  lv_inum : 0 <= i_inum ip < sb_ninodes sb;
  lv_disk : dinode_load (fview s (IBLOCK (i_inum ip) sb)) (dinode_off (i_inum ip)) ip = ip
}.

(** What [writei] does. *)
Record write_result (i : nat) (ip : inode) (G : gset Z) (s : fstate B) (m : mem) (src off n : Z) (T' : gset Z) (s' : fstate B) : Prop := {
  wx_live : live i (the_inode i s') T' s';
  wx_ip : the_inode i s' = set_i_size (Z.max (i_size ip) (off + n)) (set_i_addrs (i_addrs (the_inode i s')) ip);
  wx_state : s' = set_inodes (inodes s') (set_f_bs (f_bs s') s) ∧ ∀ j, j ≠ i → inodes s' !! j = inodes s !! j;
  wx_byte : ∀ o, 0 <= o < MAXFILE * BSIZE → file_byte (fview s') (i_addrs (the_inode i s')) o =
    if (off <=? o) && (o <? off + n) then m (src + (o - off)) else file_byte (fview s) (i_addrs ip) o;
  wx_bitmap : ∀ b, bitmap sb (fview s) b = true → bitmap sb (fview s') b = true;
  wx_owns : ∀ b, bitmap sb (fview s) b = true → owns (fview s') (i_addrs (the_inode i s')) b → owns (fview s) (i_addrs ip) b;
  wx_frame : ∀ b, bitmap sb (fview s) b = true → b ≠ sb_bmapstart sb → b ≠ IBLOCK (i_inum ip) sb →
    ¬ owns (fview s) (i_addrs ip) b → fview s' b = fview s b;
  wx_dinode : ∀ x, x < dinode_off (i_inum ip) ∨ dinode_off (i_inum ip) + 64 <= x →
    fview s' (IBLOCK (i_inum ip) sb) x = fview s (IBLOCK (i_inum ip) sb) x;
  wx_ind : nth 12 (i_addrs ip) 0 ≠ 0 → indirect i s' = nth 12 (i_addrs ip) 0;
  wx_log : ∀ b, b ∈ T' → b ∈ G ∨ b = IBLOCK (i_inum ip) sb ∨ b = indirect i s' ∧ b ≠ 0 ∨
    ∃ bn, touches off (off + n) bn ∧ b = file_map (fview s') (i_addrs (the_inode i s')) bn
}.

Lemma the_inode_put i ip ip' s : inodes s !! i = Some ip → the_inode i (put_inode i ip' s) = ip'.
Proof using. intros Hi. apply the_inode_lookup. by eapply put_inode_lookup. Qed.

(** The loop wrote past the end: the new size is stored. *)
Lemma write_grown i ip T G s m src off n T1 G1 s1 :
  live i ip T s → 0 <= off <= i_size ip → i_size ip < off + n <= MAXFILE * BSIZE →
  wrote sb i ip G 1 s m src off (off + n) T1 G1 s1 →
  ∃ s' T', (upd_inode i (set_i_size (off + n)) ;;; iupdate i) s1 = Done tt s' ∧ write_result i ip G s m src off n T' s'.
Proof using Hlay Hgood.
  intros [Hfa Hbk Hdi Hin Hco] Hoff Hn [W1 W2 W3 W4 W5 W6 W7 W8]. pose proof W1 as [O1 Hsb1 Hi1 Hdev1 Him1 Hfo1].
  destruct (written_the sb i ip s s1 (fa_lookup _ _ _ _ _ Hfa) W3) as (ad & Had & Hth & _).
  mcall (upd_inode_run i (set_i_size (off + n)) s1 _ Hi1). set (ip2 := set_i_size (off + n) (the_inode i s1)).
  set (s2 := put_inode i ip2 s1). assert (Hi2 : inodes s2 !! i = Some ip2) by (by eapply put_inode_lookup).
  assert (Hinum : i_inum ip2 = i_inum ip) by (unfold ip2; by rewrite Hth). destruct (IBLOCK_range _ Hin) as [_ Hib].
  destruct (iupdate_run T1 s2 i ip2 O1 Hsb1 Hi2 Hdev1) as (bs & R & O2 & V2); [by rewrite Hinum| |].
  { destruct W2 as [B1 _ _ B4 _]. pose proof (size_union_1 (IBLOCK (i_inum ip2) sb) T1). pose proof (subseteq_size T1 G1 B1). lia. }
  rewrite Hinum in V2, O2. change (fview s2) with (fview s1) in V2. set (ib := IBLOCK (i_inum ip) sb) in *.
  set (d := dinode_store ip2 (dinode_off (i_inum ip)) (fview s1 ib)) in *.
  destruct (meta_write (fview s1) (bs_view bs) (i_addrs (the_inode i s1)) ib d Hfo1 Him1 ltac:(lia)) as (M1 & M2 & M3 & M4 & M5 & M6);
    [by apply mem_ok_dinode_store, Him1|exact V2|].
  assert (Hd2 : dinode_ok ip2).
  { destruct Hdi. unfold ip2. rewrite Hth. split; try done; cbn [set_i_size set_i_addrs i_size i_addrs].
    - unfold is_u32. change MAXFILE with 140 in Hn. change BSIZE with 512 in Hn. lia.
    - rewrite Hth in Hfo1. split; [apply Hfo1|]. by eapply file_ok_u32. }
  assert (Hown : ¬ owns (fview s) (i_addrs ip) ib).
  { intros Ho. destruct (fo_used _ _ _ (fa_file _ _ _ _ _ Hfa) _ Ho) as [[H1 H2] _]. lia. }
  assert (Hib1 : fview s1 ib = fview s ib).
  { apply (ev_frame _ _ _ _ _ (wr_ev _ _ _ _ _ W3)); [|lia|done]. apply (im_meta _ _ (fa_image _ _ _ _ _ Hfa)). lia. }
  exists (set_f_bs bs s2), ({[ib]} ∪ T1). split; [exact R|].
  assert (Ht2 : the_inode i (set_f_bs bs s2) = ip2) by (by apply the_inode_lookup).
  assert (Ha2 : i_addrs ip2 = i_addrs (the_inode i s1)) by done.
  assert (Hmx : Z.max (i_size ip) (off + n) = off + n) by lia.
  split; rewrite ?Ht2, ?Hmx; change (fview (set_f_bs bs s2)) with (bs_view bs); rewrite ?Ha2.
  - split; [split; try done| |done|by rewrite Hinum|].
    + destruct Hbk as [Hs0 Hb0]. split; cbn [ip2 set_i_size i_size i_addrs].
      * lia.
      * intros bn Hbn Hlt. cbn [i_size ip2 set_i_size] in Hlt. change (fview (set_f_bs bs s2)) with (bs_view bs).
        assert (bn < MAXFILE) by (change MAXFILE with 140 in *; change BSIZE with 512 in *; lia). rewrite M4 by lia.
        destruct (decide (bn * BSIZE < i_size ip)) as [Hl|Hl].
        -- rewrite (ev_map _ _ _ _ _ (wr_ev _ _ _ _ _ W3)); [by apply Hb0|lia|by apply Hb0].
        -- apply W6. split_and!; [|done|lia]. apply Z.div_le_upper_bound; [done|]. change BSIZE with 512 in *. lia.
    + rewrite Hinum. change (fview (set_f_bs bs s2)) with (bs_view bs). fold ib. rewrite V2. unfold set_block. rewrite Z.eqb_refl.
      unfold d. rewrite dinode_roundtrip by done. by destruct ip2.
  - unfold ip2. rewrite Hth. done.
  - destruct W3 as [(b0 & a0 & E0) _]. split.
    + unfold s2. rewrite E0. done.
    + intros j Hj. unfold s2. cbn. rewrite list_lookup_insert_ne by done. rewrite E0. cbn. by rewrite list_lookup_insert_ne.
  - intros o Ho. destruct (M3 o) as [->|]; [|done]. by apply W7.
  - intros b Hb. rewrite M5. by apply (ev_bitmap _ _ _ _ _ (wr_ev _ _ _ _ _ W3)).
  - intros b Hb Ho%M6. by apply (ev_owns _ _ _ _ _ (wr_ev _ _ _ _ _ W3)).
  - intros b Hb Hbm Hne Ho. rewrite V2. unfold set_block. ztest (b =? ib) is false. by apply (ev_frame _ _ _ _ _ (wr_ev _ _ _ _ _ W3)).
  - intros x Hx. rewrite V2. unfold set_block. rewrite Z.eqb_refl. unfold d. rewrite dinode_store_out; [by rewrite Hib1|apply Hd2|done].
  - intros Hn12. unfold indirect. rewrite Ht2, Ha2. by apply (ev_ind _ _ _ _ _ (wr_ev _ _ _ _ _ W3)).
  - intros b Hb. apply elem_of_union in Hb as [Hb|Hb]; [right; left; by apply elem_of_singleton in Hb|].
    destruct (W5 b) as [?|[[? ?]|(bn & Hbn & ?)]]; [by apply W2|by left|right; right; left|right; right; right; exists bn; split; [done|]].
    + split; [|done]. unfold indirect. by rewrite Ht2, Ha2.
    + rewrite M4; [done|]. destruct Hbn as (Hb1 & Hb2 & _). assert (0 <= off / BSIZE) by (apply Z.div_pos; [lia|done]).
      change BSIZE with 512 in *. change MAXFILE with 140 in *. lia.
Qed.

(** The loop wrote within the file: its blocks are those it had. *)
Lemma write_within i ip T G s m src off n T1 G1 s1 :
  live i ip T s → 0 <= off → 0 <= n → off + n <= i_size ip →
  wrote sb i ip G 1 s m src off (off + n) T1 G1 s1 → write_result i ip G s m src off n T1 s1.
Proof using Hlay Hgood.
  intros [Hfa Hbk Hdi Hin Hco] Hoff Hn Hle [W1 W2 W3 W4 W5 W6 W7 W8]. destruct (IBLOCK_range _ Hin) as [_ Hib].
  destruct (written_the sb i ip s s1 (fa_lookup _ _ _ _ _ Hfa) W3) as (ad & Had & Hth & _).
  assert (Hda : 0 <= off / BSIZE) by (apply Z.div_pos; [lia|done]).
  assert (Hsame : the_inode i s1 = ip).
  { assert (Had' : i_addrs (the_inode i s1) = i_addrs ip).
    { apply W8. intros bn (H1 & H2 & H3). apply (proj2 Hbk); lia. }
    rewrite Hth in *. cbn in Had'. rewrite Had'. by destruct ip. }
  assert (Hib1 : fview s1 (IBLOCK (i_inum ip) sb) = fview s (IBLOCK (i_inum ip) sb)).
  { apply (ev_frame _ _ _ _ _ (wr_ev _ _ _ _ _ W3)); [apply (im_meta _ _ (fa_image _ _ _ _ _ Hfa)); lia|lia|].
    intros Ho. destruct (fo_used _ _ _ (fa_file _ _ _ _ _ Hfa) _ Ho) as [[H1 H2] _]. lia. }
  pose proof (wr_ev _ _ _ _ _ W3) as Hev. rewrite Hsame in *. split; rewrite ?Hsame; try done.
  - split; [done| |done|done|by rewrite Hib1]. destruct Hbk as [Hs0 Hb0]. split; [done|]. intros bn Hbn Hlt.
    assert (bn < MAXFILE) by (change MAXFILE with 140 in *; change BSIZE with 512 in *; lia).
    rewrite (ev_map _ _ _ _ _ Hev); [by apply Hb0|lia|by apply Hb0].
  - rewrite Z.max_l by lia. by destruct ip.
  - destruct W3 as [(b0 & a0 & E0) _]. split; [by rewrite E0|]. intros j Hj. rewrite E0. cbn. by rewrite list_lookup_insert_ne.
  - apply Hev.
  - apply Hev.
  - intros b Hb Hbm _ Ho. by apply (ev_frame _ _ _ _ _ Hev).
  - intros x _. by rewrite Hib1.
  - intros _. unfold indirect. by rewrite Hsame.
  - intros b Hb. destruct (W5 b) as [?|[?|?]]; [by apply W2|by left|right; right; by left|by right; right; right].
Qed.

Lemma writei_run dw K i ip T G s m src off n :
  live i ip T s → i_type ip ≠ T_DEV → mem_ok m → 0 <= off < 4294967296 → 0 <= n < 4294967296 →
  if (off >? i_size ip) || (off + n >? MAXFILE * BSIZE) then writei dw i m src off n s = Done (-1) s
  else off mod BSIZE + n <= BSIZE * Z.of_nat K → budget sb i s T G (K + 1) →
    ∃ s' T', writei dw i m src off n s = Done n s' ∧ write_result i ip G s m src off n T' s'.
Proof using Hlay Hgood.
  intros Hlv Hty Hm Hoff Hn. pose proof Hlv as [Hfa Hbk Hdi Hin Hco]. unfold writei. mrun. rewrite (the_inode_lookup i s ip) by apply Hfa.
  ztest (i_type ip =? T_DEV) is false. rewrite off_overflow by done. change MAXFILE with 140. change BSIZE with 512.
  destruct (Z.gtb_spec off (i_size ip)) as [Ho|Ho]; [done|]. cbn [orb].
  destruct (Z.gtb_spec (off + n) (140 * 512)) as [Hx|Hx]; [by destruct (off + n >=? 4294967296)|].
  ztest (off + n >=? 4294967296) is false. intros HK Hbu.
  destruct (writei_loop_run sb Hlay Hgood (Z.to_nat (n / 512 + 2)) K i ip T G 1 s m src off n 0 Hfa Hm) as (s1 & T1 & G1 & R & W);
    [lia|lia|change MAXFILE with 140; change BSIZE with 512; lia| |intros _; change BSIZE with 512; lia|done|].
  - intros _. change BSIZE with 512. pose proof (Z.mod_pos_bound off 512 ltac:(lia)). pose proof (Z.div_mod n 512 ltac:(lia)).
    pose proof (Z.mod_pos_bound n 512 ltac:(lia)). assert (0 <= n / 512) by (apply Z.div_pos; lia). rewrite Z2Nat.id by lia. lia.
  - rewrite !Z.sub_0_r in R, W. mcall R.
    destruct (Z.gtb_spec n 0) as [Hn0|Hn0], (Z.gtb_spec (off + n) (i_size ip)) as [Hg|Hg]; cbn [andb when]; try lia.
    + destruct (write_grown i ip T G s m src off n T1 G1 s1 Hlv) as (s' & T' & R' & W'); [lia|change MAXFILE with 140; change BSIZE with 512; lia|done|].
      exists s', T'. split; [|done]. revert R'. unfold bind. destruct (upd_inode i _ s1) as [[] s2| | | |]; try done. by intros ->.
    + exists s1, T1. split; [done|]. eapply write_within; try done; lia.
    + exists s1, T1. split; [done|]. eapply write_within; try done; lia.
Qed.

(** Two cached inodes of different files. *)
Definition apart (v : Z → blk) (ip jp : inode) : Prop :=
  i_inum ip ≠ i_inum jp ∧ ∀ b, owns v (i_addrs ip) b → ¬ owns v (i_addrs jp) b.

(** The 64 bytes of a disk inode determine it. *)
Lemma dinode_load_ext d d' o ip : (∀ x, 0 <= x < 64 → d' (o + x) = d (o + x)) → dinode_load d' o ip = dinode_load d o ip.
Proof using.
  intros Hd. unfold dinode_load.
  assert (H0 : ∀ k, 0 <= k <= 62 → load16 d' (o + k) = load16 d (o + k)).
  { intros k Hk. unfold load16. replace (o + k + 1) with (o + (k + 1)) by lia. by rewrite !Hd by lia. }
  assert (H4 : ∀ k, 0 <= k <= 60 → load32 d' (o + k) = load32 d (o + k)).
  { intros k Hk. apply load32_ext. intros x Hx. replace x with (o + (x - o)) by lia. apply Hd. lia. }
  pose proof (H0 0 ltac:(lia)) as H00. rewrite Z.add_0_r in H00. rewrite H00, !H0, H4 by lia. f_equal.
  unfold load_words. apply list_fmap_ext. intros k a Hk. apply lookup_seq in Hk as [-> Hk].
  replace (o + 12 + 4 * Z.of_nat (0 + k)) with (o + (12 + 4 * Z.of_nat k)) by lia. apply H4. lia.
Qed.

(** Two inodes in one block are apart. *)
Lemma dinode_apart inum jnum x :
  0 <= inum < sb_ninodes sb → 0 <= jnum < sb_ninodes sb → inum ≠ jnum → IBLOCK jnum sb = IBLOCK inum sb → 0 <= x < 64 →
  dinode_off jnum + x < dinode_off inum ∨ dinode_off inum + 64 <= dinode_off jnum + x.
Proof using Hlay.
  intros Hi Hj Hn E Hx. destruct (IBLOCK_range _ Hi) as [Ei _], (IBLOCK_range _ Hj) as [Ej _]. rewrite Ei, Ej in E.
  unfold dinode_off. change IPB with 8. pose proof (Z.div_mod inum 8 ltac:(lia)). pose proof (Z.div_mod jnum 8 ltac:(lia)). lia.
Qed.

(** A file stays what it is while its blocks, their bits and its disk inode do. *)
Lemma live_frame j jp T T' s s' :
  live j jp T s → bs_ok [] T' (f_bs s') → f_sb s' = sb → inodes s' !! j = Some jp → image_ok sb (fview s') →
  (∀ b, owns (fview s) (i_addrs jp) b → fview s' b = fview s b ∧ bitmap sb (fview s') b = true) →
  (∀ x, 0 <= x < 64 → fview s' (IBLOCK (i_inum jp) sb) (dinode_off (i_inum jp) + x) =
                      fview s (IBLOCK (i_inum jp) sb) (dinode_off (i_inum jp) + x)) →
  live j jp T' s' ∧ (∀ o, 0 <= o < MAXFILE * BSIZE → file_byte (fview s') (i_addrs jp) o = file_byte (fview s) (i_addrs jp) o) ∧
  (∀ b, owns (fview s') (i_addrs jp) b ↔ owns (fview s) (i_addrs jp) b).
Proof using.
  clear Hlay Hgood. intros [[F1 F2 F3 F4 F5 F6] J2 J3 J4 J5] Hok Hsb Hj Him Hin Hd.
  assert (Hfm : ∀ bn, file_map (fview s') (i_addrs jp) bn = file_map (fview s) (i_addrs jp) bn).
  { intros bn. unfold file_map. destruct (bn <? NDIRECT); [done|]. destruct (Z.eqb_spec (nth 12 (i_addrs jp) 0) 0); [done|].
    rewrite (proj1 (Hin (nth 12 (i_addrs jp) 0) ltac:(split; [done|by left]))). done. }
  assert (Ho : ∀ b, owns (fview s') (i_addrs jp) b ↔ owns (fview s) (i_addrs jp) b) by (intros b; unfold owns; by setoid_rewrite Hfm).
  split_and!; [split|..].
  - split; try done. destruct F6 as [A1 A2 A3 A4]. split; [done| | |].
    + intros b Hb%Ho. destruct (A2 b Hb) as [? Hu]. split; [done|]. by apply Hin.
    + intros x y. rewrite !Hfm. apply A3.
    + intros x. rewrite Hfm. apply A4.
  - destruct J2 as [K1 K2]. split; [done|]. intros bn. rewrite Hfm. apply K2.
  - done.
  - done.
  - etrans; [|exact J5]. by apply dinode_load_ext.
  - intros o Hr. unfold file_byte. rewrite Hfm. destruct (Z.eqb_spec (file_map (fview s) (i_addrs jp) (o / BSIZE)) 0) as [|Hn]; [done|].
    refine (f_equal (λ d, d _) (proj1 (Hin _ _))). apply owns_map; [|done].
    split; [apply Z.div_pos; [lia|done]|apply Z.div_lt_upper_bound; [done|lia]].
  - done.
Qed.

(** Writing one file leaves another one alone. *)
Lemma write_other i ip j jp T G s m src off n T' s' :
  write_result i ip G s m src off n T' s' → live i ip T s → live j jp T s → i ≠ j → apart (fview s) ip jp →
  live j jp T' s' ∧ (∀ o, 0 <= o < MAXFILE * BSIZE → file_byte (fview s') (i_addrs jp) o = file_byte (fview s) (i_addrs jp) o) ∧
  apart (fview s') (the_inode i s') jp.
Proof using Hlay Hgood.
  intros [X1 X2 X3 X4 X5 X6 X7 X8 _ X9] Hli Hlj Hij [Hnum Hap]. pose proof Hlj as [[F1 F2 F3 F4 F5 F6] J2 J3 J4 J5].
  destruct (IBLOCK_range _ (lv_inum _ _ _ _ Hli)) as [Ei Hibi]. destruct (IBLOCK_range _ J4) as [Ej Hibj].
  pose proof X1 as [[G1 G2 G3 G4 G5 G6] _ _ _ _].
  destruct (live_frame j jp T T' s s' Hlj G1 G2) as (A1 & A2 & Ho); [by rewrite (proj2 X3)|done| | |].
  - intros b Hob. destruct (fo_used _ _ _ F6 b Hob) as [[H1 H2] Hu]. split; [|by apply X5].
    apply X7; [done|lia|lia|]. intros Hoi. by apply (Hap b).
  - intros x Hx. destruct (Z.eq_dec (IBLOCK (i_inum jp) sb) (IBLOCK (i_inum ip) sb)) as [E|E].
    + rewrite E. apply X8. apply dinode_apart; try done. apply (lv_inum _ _ _ _ Hli).
    + rewrite X7; [done| |lia|done|].
      * apply (im_meta _ _ F5). lia.
      * intros Hoi. destruct (fo_used _ _ _ (fa_file _ _ _ _ _ (lv_file _ _ _ _ Hli)) _ Hoi) as [[H1 H2] _]. lia.
  - split_and!; [done|done|]. split; [by rewrite X2|]. intros b Hb Hbj%Ho. apply (Hap b); [|done].
    apply X6; [|done]. by apply (fo_used _ _ _ F6).
Qed.
End inode.
