(* ===== verification/FsDir.v ===== *)
(** * Directories and path names (dirlookup, dirlink, skipelem of fs.c)

    A directory is the table of its entries: [dirlookup] finds the first entry in
    use with the name, [dirlink] adds one and keeps the others.  [skipelem]
    enumerates the elements of a path. *)

From Stdlib Require Import ZArith Lia.
From stdpp Require Import base numbers list gmap strings.
From S2P Require Import Prelude Mem Str Sleeplock Bio Log Blocks Fs FsBlocks FsFile FsData FsInode.

(** ** Names *)

(** The name in a character array of [n] bytes: up to the first NUL. *)
Fixpoint cname (n : nat) (l : list Z) : list Z :=
  match n, l with
  | S n', c :: l' => if c =? 0 then [] else c :: cname n' l'
  | _, _ => []
  end.

Lemma cname_eq n : ∀ s t, cname n s = cname n t ↔
  ∀ i, (i < n)%nat → (∀ j, (j < i)%nat → nth j s 0 ≠ 0) → nth i s 0 = nth i t 0.
Proof.
  induction n as [|n IH]; intros s t; [by split; [intros; lia|]|].
  assert (Hc : ∀ l, cname (S n) l = if nth 0 l 0 =? 0 then [] else nth 0 l 0 :: cname n (tail l)).
  { intros [|c l]; [done|]. cbn. done. }
  assert (Hn : ∀ l j, nth (S j) l 0 = nth j (tail l) 0) by (intros [|c l] j; [by destruct j|done]).
  rewrite !Hc. split.
  - intros H i Hi Hnz. destruct i as [|i].
    + destruct (Z.eqb_spec (nth 0 s 0) 0), (Z.eqb_spec (nth 0 t 0) 0); try done; [congruence|by injection H].
    + pose proof (Hnz 0%nat ltac:(lia)) as H0. destruct (Z.eqb_spec (nth 0 s 0) 0); [done|].
      destruct (Z.eqb_spec (nth 0 t 0) 0); [done|]. injection H as _ H. rewrite !Hn. apply (proj1 (IH _ _) H); [lia|].
      intros j Hj. rewrite <- Hn. apply Hnz. lia.
  - intros H. assert (H0 : nth 0 s 0 = nth 0 t 0) by (apply H; [lia|intros; lia]). rewrite <- H0.
    destruct (Z.eqb_spec (nth 0 s 0) 0); [done|]. f_equal. apply IH. intros i Hi Hnz. rewrite <- !Hn.
    apply H; [lia|]. intros [|j] Hj; [done|]. rewrite Hn. apply Hnz. lia.
Qed.

Lemma namecmp_zero s t : namecmp s t = 0 ↔ cname 14 s = cname 14 t.
Proof.
  unfold namecmp. change (Z.to_nat DIRSIZ) with 14%nat. rewrite strncmp_zero, cname_eq by lia.
  assert (Hs : ∀ i, 0 <= i < 16 → two_names s t i = nth (Z.to_nat i) s 0) by (intros i Hi; unfold two_names; by ztest (i <? 16) is true).
  assert (Ht : ∀ i, 0 <= i → two_names s t (16 + i) = nth (Z.to_nat i) t 0).
  { intros i Hi. unfold two_names. ztest (16 + i <? 16) is false. do 2 f_equal. lia. }
  split.
  - intros H i Hi Hnz. specialize (H (Z.of_nat i) ltac:(lia)). rewrite Z.add_0_l, Hs, Ht, Nat2Z.id in H by lia. apply H.
    apply nulfree_spec. intros j Hj. rewrite Z.add_0_l, Hs by lia. apply Hnz. lia.
  - intros H i Hi Hnz. rewrite Z.add_0_l, Hs, Ht by lia. apply H; [lia|]. intros j Hj.
    pose proof (proj1 (nulfree_spec _ _ _) Hnz (Z.of_nat j) ltac:(lia)) as Hz. by rewrite Z.add_0_l, Hs, Nat2Z.id in Hz by lia.
Qed.

(** ** The table of entries *)

(** The entry at offset [off] of a directory with bytes [g]. *)
Definition ent_inum (g : Z → Z) (off : Z) : Z := g off + 256 * g (off + 1).
Definition ent_name (g : Z → Z) (off : Z) : list Z := (λ k, g (off + 2 + Z.of_nat k)) <$> seq 0 14.

(** The first of [cnt] entries from [off] on that is in use and has the name. *)
Fixpoint dir_scan (g : Z → Z) (name : list Z) (off : Z) (cnt : nat) : option (Z * Z) :=
  match cnt with
  | O => None
  | S cnt' =>
      if ent_inum g off =? 0 then dir_scan g name (off + 16) cnt'
      else if decide (cname 14 name = cname 14 (ent_name g off)) then Some (ent_inum g off, off)
      else dir_scan g name (off + 16) cnt'
  end.

(** The first entry that is not in use, or the end. *)
Fixpoint dir_empty (g : Z → Z) (off : Z) (cnt : nat) : Z :=
  match cnt with
  | O => off
  | S cnt' => if ent_inum g off =? 0 then off else dir_empty g (off + 16) cnt'
  end.

Lemma ent_ext g g' off : (∀ o, off <= o < off + 16 → g' o = g o) → ent_inum g' off = ent_inum g off ∧ ent_name g' off = ent_name g off.
Proof.
  intros H. unfold ent_inum, ent_name. rewrite !H by lia. split; [done|]. apply list_fmap_ext.
  intros k x Hx. apply lookup_seq in Hx as [-> Hk]. apply H. lia.
Qed.

Lemma dir_scan_ext g g' name cnt : ∀ off, (∀ o, off <= o < off + 16 * Z.of_nat cnt → g' o = g o) →
  dir_scan g' name off cnt = dir_scan g name off cnt.
Proof.
  induction cnt as [|cnt IH]; intros off H; cbn [dir_scan]; [done|].
  destruct (ent_ext g g' off) as [-> ->]; [intros o Ho; apply H; lia|]. rewrite IH; [done|]. intros o Ho. apply H. lia.
Qed.

Lemma dir_scan_app g name a b : ∀ off,
  dir_scan g name off (a + b) = match dir_scan g name off a with Some r => Some r | None => dir_scan g name (off + 16 * Z.of_nat a) b end.
Proof.
  induction a as [|a IH]; intros off.
  - cbn. f_equal. lia.
  - cbn [dir_scan Nat.add]. rewrite !IH. replace (off + 16 + 16 * Z.of_nat a) with (off + 16 * Z.of_nat (S a)) by lia.
    destruct (ent_inum g off =? 0); [done|]. by case_decide.
Qed.

Lemma dir_empty_ext g g' cnt : ∀ off, (∀ o, g' o = g o) → dir_empty g' off cnt = dir_empty g off cnt.
Proof.
  induction cnt as [|cnt IH]; intros off H; cbn [dir_empty]; [done|]. destruct (ent_ext g g' off) as [-> _]; [auto|]. by rewrite IH.
Qed.

Lemma dir_empty_spec g cnt : ∀ off, ∃ e, (e <= cnt)%nat ∧ dir_empty g off cnt = off + 16 * Z.of_nat e ∧
  ((e < cnt)%nat → ent_inum g (off + 16 * Z.of_nat e) = 0).
Proof.
  induction cnt as [|cnt IH]; intros off; cbn [dir_empty]; [exists 0%nat; split_and!; lia|].
  destruct (Z.eqb_spec (ent_inum g off) 0) as [Hz|Hn].
  - exists 0%nat. split_and!; [lia|lia|]. intros _. by replace (off + 16 * Z.of_nat 0) with off by lia.
  - destruct (IH (off + 16)) as (e & He & Ed & Ez). exists (S e). split_and!; [lia|lia|]. intros Hlt.
    replace (off + 16 * Z.of_nat (S e)) with (off + 16 + 16 * Z.of_nat e) by lia. apply Ez. lia.
Qed.

(** Adding an entry in the place [dir_empty] finds, for a name that is absent. *)
Lemma dir_scan_add g g' cnt e name inum :
  (e <= cnt)%nat → ((e < cnt)%nat → ent_inum g (16 * Z.of_nat e) = 0) →
  (∀ o, 0 <= o < 16 * Z.of_nat cnt → ¬ 16 * Z.of_nat e <= o < 16 * Z.of_nat e + 16 → g' o = g o) →
  ent_inum g' (16 * Z.of_nat e) = inum → inum ≠ 0 → cname 14 (ent_name g' (16 * Z.of_nat e)) = cname 14 name →
  dir_scan g name 0 cnt = None →
  ∀ name', dir_scan g' name' 0 (Nat.max cnt (S e)) =
    if decide (cname 14 name' = cname 14 name) then Some (inum, 16 * Z.of_nat e) else dir_scan g name' 0 cnt.
Proof.
  intros He Hz Hg Hi Hn Hc Hnone name'.
  set (r := (Nat.max cnt (S e) - S e)%nat). replace (Nat.max cnt (S e)) with (e + S r)%nat by lia.
  rewrite dir_scan_app, Z.add_0_l.
  assert (H1 : ∀ nm, dir_scan g' nm 0 e = dir_scan g nm 0 e) by (intros nm; apply dir_scan_ext; intros o Ho; apply Hg; lia).
  assert (H2 : ∀ nm, dir_scan g' nm (16 * Z.of_nat e + 16) r = dir_scan g nm (16 * Z.of_nat e + 16) r).
  { intros nm. apply dir_scan_ext. intros o Ho. apply Hg; lia. }
  assert (Hold : ∀ nm, dir_scan g nm 0 cnt = match dir_scan g nm 0 e with Some x => Some x | None => dir_scan g nm (16 * Z.of_nat e + 16) r end).
  { intros nm. destruct (decide (e < cnt)%nat) as [Hl|Hl].
    - replace cnt with (e + S r)%nat at 1 by lia. rewrite dir_scan_app, Z.add_0_l. cbn [dir_scan]. by rewrite (Hz Hl).
    - assert (r = 0%nat) as -> by lia. assert (cnt = e) as -> by lia. cbn. by destruct (dir_scan g nm 0 e). }
  rewrite Hold in Hnone. rewrite H1, Hold. cbn [dir_scan]. rewrite H2, Hi, Hc. ztest (inum =? 0) is false.
  destruct (decide (cname 14 name' = cname 14 name)) as [E|E].
  - assert (Hsame : dir_scan g name' 0 e = dir_scan g name 0 e); [|by rewrite Hsame; destruct (dir_scan g name 0 e)].
    clear -E. generalize 0%Z. induction e as [|e IH]; intros off; cbn [dir_scan]; [done|]. by rewrite E, IH.
  - done.
Qed.

Section dir.
Context {B : Type} `{!BlockOps B} `{!BlockStore B ROOTDEV}.
Context (sb : superblock) (Hlay : layout sb) (Hgood : good_disk sb).
Context (dr dw : Z → option (devfn B)).
Implicit Types s : fstate B.

Definition dir_bytes (s : fstate B) (ip : inode) : Z → Z := file_byte (fview s) (i_addrs ip).

(** A directory in the cache, of [cnt] entries. *)
Record dir_at (i : nat) (ip : inode) (cnt : nat) (T : gset Z) (s : fstate B) : Prop := {
  da_live : live sb i ip T s;
  da_type : i_type ip = T_DIR;
  da_size : i_size ip = 16 * Z.of_nat cnt
}.

(** Reading one entry. *)
Lemma read_entry i ip cnt T s k :
  dir_at i ip cnt T s → 0 <= k < Z.of_nat cnt →
  ∃ m bs, readi dr i (λ _, 0) 0 (16 * k) 16 s = Done (16, m) (set_f_bs bs s) ∧ bs_ok [] T bs ∧
    (∀ b, bs_view bs b = fview s b) ∧ de_inum m 0 = ent_inum (dir_bytes s ip) (16 * k) ∧ de_name m 0 = ent_name (dir_bytes s ip) (16 * k).
Proof using Hlay Hgood.
  intros [L Hty Hsz] Hk. pose proof (lv_backed _ _ _ _ _ L) as Hbk. pose proof Hbk as [Hmx _].
  assert (Hmx' : i_size ip <= 71680) by (change MAXFILE with 140 in Hmx; change BSIZE with 512 in Hmx; lia).
  pose proof (readi_run sb Hlay Hgood dr i ip T s (λ _, 0) 0 (16 * k) 16 (lv_file _ _ _ _ _ L) Hbk ltac:(by rewrite Hty) ltac:(lia) ltac:(lia)) as R.
  rewrite Z.gtb_ltb, Z.geb_leb in R. replace (i_size ip <? 16 * k) with false in R by (symmetry; apply Z.ltb_ge; lia).
  replace (4294967296 <=? 16 * k + 16) with false in R by (symmetry; apply Z.leb_gt; lia). cbn [orb] in R.
  assert (Hc : read_count ip (16 * k) 16 = 16) by (unfold read_count; lia). rewrite Hc in R.
  destruct R as (m & bs & R & O & V & M). exists m, bs.
  assert (Mx : ∀ x, 0 <= x < 16 → m x = dir_bytes s ip (16 * k + x)).
  { intros x Hx. rewrite M. ztest (0 <=? x) is true. ztest (x <? 0 + 16) is true. cbn [andb]. unfold dir_bytes. f_equal. lia. }
  split_and!; try done.
  - unfold de_inum, load16, ent_inum. rewrite !Mx by lia. by rewrite Z.add_0_r.
  - unfold de_name, ent_name, bytes_at. change (Z.to_nat DIRSIZ) with 14%nat. apply list_fmap_ext. intros j x Hx. apply lookup_seq in Hx as [-> Hj].
    rewrite Mx by lia. f_equal. lia.
Qed.

Lemma dir_at_bs i ip cnt T s bs :
  dir_at i ip cnt T s → bs_ok [] T bs → (∀ b, bs_view bs b = fview s b) → dir_at i ip cnt T (set_f_bs bs s).
Proof using.
  clear Hlay Hgood. intros [[L1 L2 L3 L4 L5] Hty Hsz] O V. split; [|done|done]. split; [by eapply file_at_bs| |done|done|].
  - destruct L2 as [K1 K2]. split; [done|]. intros bn Hb Hl. unfold file_map. change (fview (set_f_bs bs s)) with (bs_view bs). rewrite V. by apply K2.
  - change (fview (set_f_bs bs s)) with (bs_view bs). by rewrite V.
Qed.

(** What [dirlookup] returns for an entry that was found. *)
Definition found (r : option (Z * Z)) : M (fstate B) (option (nat * Z)) :=
  match r with
  | None => ret None
  | Some (inum, off) => ip <- iget ROOTDEV inum ;; ret (Some (ip, off))
  end.

Lemma dirlookup_loop_run fuel i ip cnt T s name k :
  dir_at i ip cnt T s → (k <= cnt)%nat → (cnt - k < fuel)%nat →
  ∃ bs, dirlookup_loop dr fuel i name (16 * Z.of_nat k) s = found (dir_scan (dir_bytes s ip) name (16 * Z.of_nat k) (cnt - k)) (set_f_bs bs s) ∧
    bs_ok [] T bs ∧ ∀ b, bs_view bs b = fview s b.
Proof using Hlay Hgood.
  revert s k. induction fuel as [|fuel IH]; intros s k Hd Hk Hf; [lia|]. pose proof Hd as [L Hty Hsz].
  pose proof (lv_file _ _ _ _ _ L) as [O Hsb Hi Hdev _ _]. pose proof (lv_backed _ _ _ _ _ L) as [Hmx _].
  assert (Hmx' : i_size ip <= 71680) by (change MAXFILE with 140 in Hmx; change BSIZE with 512 in Hmx; lia).
  cbn [dirlookup_loop]. mrun. rewrite (the_inode_lookup i s ip Hi), Hsz.
  destruct (Z.ltb_spec (16 * Z.of_nat k) (16 * Z.of_nat cnt)) as [Hlt|Hge].
  - destruct (read_entry i ip cnt T s (Z.of_nat k) Hd ltac:(lia)) as (m & bs & R & O1 & V1 & Ei & En). mcall R.
    cbn [fst snd Z.eqb Pos.eqb negb]. rewrite Ei, En, Hdev. replace (cnt - k)%nat with (S (cnt - S k))%nat by lia. cbn [dir_scan].
    assert (Hnext : ∃ bs', dirlookup_loop dr fuel i name (u32 (16 * Z.of_nat k + 16)) (set_f_bs bs s) =
        found (dir_scan (dir_bytes s ip) name (16 * Z.of_nat k + 16) (cnt - S k)) (set_f_bs bs' s) ∧ bs_ok [] T bs' ∧ ∀ b, bs_view bs' b = fview s b).
    { rewrite u32_small by lia. replace (16 * Z.of_nat k + 16) with (16 * Z.of_nat (S k)) by lia.
      destruct (IH (set_f_bs bs s) (S k)) as (bs' & R' & O' & V'); [by eapply dir_at_bs|lia|lia|].
      exists bs'. rewrite R', set_f_bs_twice. split_and!; [|done|intros b; etrans; [apply V'|apply V1]].
      rewrite (dir_scan_ext (dir_bytes s ip)); [done|]. intros o _. apply file_byte_ext. exact V1. }
    destruct (Z.eqb_spec (ent_inum (dir_bytes s ip) (16 * Z.of_nat k)) 0); [exact Hnext|].
    pose proof (namecmp_zero name (ent_name (dir_bytes s ip) (16 * Z.of_nat k))) as Hnc.
    destruct (Z.eqb_spec (namecmp name (ent_name (dir_bytes s ip) (16 * Z.of_nat k))) 0) as [Hz|Hnz].
    + rewrite decide_True by tauto. exists bs. split_and!; done.
    + rewrite decide_False by tauto. exact Hnext.
  - assert (cnt - k = 0)%nat as -> by lia. exists (f_bs s). split_and!; [by destruct s|done|done].
Qed.

Lemma dirlookup_run i ip cnt T s name :
  dir_at i ip cnt T s →
  ∃ bs, dirlookup dr i name s = found (dir_scan (dir_bytes s ip) name 0 cnt) (set_f_bs bs s) ∧
    bs_ok [] T bs ∧ ∀ b, bs_view bs b = fview s b.
Proof using Hlay Hgood.
  intros Hd. pose proof Hd as [L Hty Hsz]. unfold dirlookup. mrun.
  rewrite (the_inode_lookup i s ip) by apply (lv_file _ _ _ _ _ L). rewrite Hty, Hsz. cbn [Z.eqb Pos.eqb negb T_DIR].
  rewrite Z.mul_comm, Z.div_mul by lia.
  destruct (dirlookup_loop_run (Z.to_nat (Z.of_nat cnt + 1)) i ip cnt T s name 0 Hd) as (bs & R & O & V); [lia|lia|].
  exists bs. rewrite Nat.sub_0_r in R. by split_and!.
Qed.

Lemma dirlink_loop_run fuel i ip cnt T s k :
  dir_at i ip cnt T s → (k <= cnt)%nat → (cnt - k < fuel)%nat →
  ∃ bs, dirlink_loop dr fuel i (16 * Z.of_nat k) s = Done (dir_empty (dir_bytes s ip) (16 * Z.of_nat k) (cnt - k)) (set_f_bs bs s) ∧
    bs_ok [] T bs ∧ ∀ b, bs_view bs b = fview s b.
Proof using Hlay Hgood.
  revert s k. induction fuel as [|fuel IH]; intros s k Hd Hk Hf; [lia|]. pose proof Hd as [L Hty Hsz].
  pose proof (lv_file _ _ _ _ _ L) as [O Hsb Hi Hdev _ _].
  cbn [dirlink_loop]. mrun. rewrite (the_inode_lookup i s ip Hi), Hsz.
  destruct (Z.ltb_spec (16 * Z.of_nat k) (16 * Z.of_nat cnt)) as [Hlt|Hge].
  - destruct (read_entry i ip cnt T s (Z.of_nat k) Hd ltac:(lia)) as (m & bs & R & O1 & V1 & Ei & En). mcall R.
    cbn [fst snd Z.eqb Pos.eqb negb]. rewrite Ei. replace (cnt - k)%nat with (S (cnt - S k))%nat by lia. cbn [dir_empty].
    destruct (Z.eqb_spec (ent_inum (dir_bytes s ip) (16 * Z.of_nat k)) 0); [exists bs; by split_and!|].
    replace (16 * Z.of_nat k + 16) with (16 * Z.of_nat (S k)) by lia.
    destruct (IH (set_f_bs bs s) (S k)) as (bs' & R' & O' & V'); [by eapply dir_at_bs|lia|lia|].
    exists bs'. rewrite R', set_f_bs_twice. split_and!; [|done|intros b; etrans; [apply V'|apply V1]].
    f_equal. apply dir_empty_ext. intros o. apply file_byte_ext. exact V1.
  - assert (cnt - k = 0)%nat as -> by lia. exists (f_bs s). split_and!; [by destruct s|done|done].
Qed.

(** The entry [dirlink] writes. *)
Lemma de_make_spec name inum :
  Forall is_u8 name → 0 < inum < 65536 →
  mem_ok (de_make name inum) ∧ ent_inum (de_make name inum) 0 = inum ∧ cname 14 (ent_name (de_make name inum) 0) = cname 14 name.
Proof using.
  clear Hlay Hgood. intros Hname Hin.
  assert (Hok : mem_ok (two_names [] name)).
  { intros x. unfold two_names. case_if; [by destruct (Z.to_nat x)|]. rewrite nth_lookup.
    destruct (name !! Z.to_nat (x - 16)) as [c|] eqn:E; [|done]. exact (Forall_lookup_1 _ _ _ _ Hname E). }
  destruct (strncpy_pads (two_names [] name) 2 16 14) as [Hs Ho]; [done|lia|lia|lia|lia|lia|lia|].
  change DIRSIZ with 14 in *. unfold de_make. change DIRSIZ with 14. set (m := (strncpy (two_names [] name) 2 16 14).2) in *.
  assert (Hm : mem_ok m).
  { intros x. destruct (decide (2 <= x < 16)) as [Hx|Hx].
    - replace x with (2 + (x - 2)) by lia. rewrite Hs by lia. case_if; [apply Hok|lia].
    - rewrite Ho by lia. apply Hok. }
  split_and!.
  - by apply mem_ok_store16.
  - unfold ent_inum. change (load16 (store16 m 0 inum) 0 = inum). rewrite load16_store16_eq. unfold u16. apply Z.mod_small. lia.
  - apply cname_eq. intros i Hi Hnz.
    assert (Hnth : ∀ j, (j < 14)%nat → nth j (ent_name (store16 m 0 inum) 0) 0 = if nulfree (two_names [] name) 16 j then nth j name 0 else 0).
    { intros j Hj. unfold ent_name. rewrite nth_lookup, list_lookup_fmap, lookup_seq_lt by lia. cbn [fmap option_fmap option_map default].
      rewrite store16_out by lia. replace (0 + 2 + Z.of_nat (0 + j)) with (2 + Z.of_nat j) by lia. rewrite Hs, Nat2Z.id by lia.
      unfold id. destruct (nulfree _ _ _); [|done]. unfold two_names. ztest (16 + Z.of_nat j <? 16) is false. f_equal. lia. }
    rewrite Hnth by done. destruct (nulfree (two_names [] name) 16 i) eqn:E; [done|]. exfalso.
    assert (Hall : nulfree (two_names [] name) 16 i = true); [|congruence]. apply nulfree_spec. intros j Hj.
    specialize (Hnz (Z.to_nat j) ltac:(lia)). rewrite Hnth in Hnz by lia. destruct (nulfree _ _ (Z.to_nat j)); [|done].
    unfold two_names. ztest (16 + j <? 16) is false. by replace (16 + j - 16) with j by lia.
Qed.

End dir.

Section claim.
Context {B : Type} `{!BlockOps B} `{!BlockStore B ROOTDEV}.

(** C25 A directory is a table from names to inode numbers.  If the name is absent
    and there is room, [dirlink] returns 0; afterwards [dirlookup] finds the
    given number under that name, and under every other name what it found
    before, at the same offset. *)
Theorem dirlink_adds sb dr dw i ip cnt T G (s : fstate B) name inum :
  layout sb → good_disk sb → dir_at sb i ip cnt T s → Forall is_u8 name → 0 < inum < 65536 →
  dir_scan (dir_bytes s ip) name 0 cnt = None → 16 * Z.of_nat cnt + 16 <= MAXFILE * BSIZE → budget sb i s T G 2 →
  ∃ s' T' off cnt', dirlink dr dw i name inum s = Done 0 s' ∧ dir_at sb i (the_inode i s') cnt' T' s' ∧
    ∀ name', ∃ bs, dirlookup dr i name' s' =
      found (if decide (cname 14 name' = cname 14 name) then Some (inum, off) else dir_scan (dir_bytes s ip) name' 0 cnt) (set_f_bs bs s').
Proof.
  intros Hlay Hgood Hd Hname Hin Hnone Hroom Hbu. pose proof Hd as [L Hty Hsz]. unfold dirlink.
  assert (Hmx : MAXFILE * BSIZE = 71680) by done.
  destruct (dirlookup_run sb Hlay Hgood dr i ip cnt T s name Hd) as (bs1 & R1 & O1 & V1). rewrite Hnone in R1. mcall R1.
  pose proof (dir_at_bs sb i ip cnt T s bs1 Hd O1 V1) as Hd1. set (s1 := set_f_bs bs1 s) in *.
  pose proof (lv_file _ _ _ _ _ L) as [_ _ Hi _ _ _]. rewrite (the_inode_lookup i s1 ip Hi), Hsz.
  rewrite (Z.mul_comm 16), Z.div_mul by lia.
  destruct (dirlink_loop_run sb Hlay Hgood dr (Z.to_nat (Z.of_nat cnt + 1)) i ip cnt T s1 0 Hd1) as (bs2 & R2 & O2 & V2); [lia|lia|].
  change (16 * Z.of_nat 0) with 0 in R2. mcall R2. rewrite Nat.sub_0_r.
  pose proof (dir_at_bs sb i ip cnt T s1 bs2 Hd1 O2 V2) as Hd2. set (s2 := set_f_bs bs2 s1) in *. pose proof Hd2 as [L2 _ _].
  assert (V : ∀ b, fview s2 b = fview s b) by (intros b; etrans; [apply V2|apply V1]).
  assert (Hg : ∀ o, dir_bytes s2 ip o = dir_bytes s ip o) by (intros o; by apply file_byte_ext).
  rewrite (dir_empty_ext (dir_bytes s ip)) by (intros o; by apply file_byte_ext).
  destruct (dir_empty_spec (dir_bytes s ip) cnt 0) as (e & He & -> & Hez). rewrite Z.add_0_l in *.
  destruct (de_make_spec name inum Hname Hin) as (Hmo & Hdi & Hdn). set (de := de_make name inum) in *.
  assert (Hbu2 : budget sb i s2 T G (1 + 1)).
  { destruct Hbu as [U1 U2 U3 U4 U5]. split; try done. rewrite (nfree_ext sb (fview s)); [done|]. intros b. unfold bitmap. by rewrite V. }
  pose proof (writei_run sb Hlay Hgood dw 1 i ip T G s2 de 0 (16 * Z.of_nat e) 16 L2 ltac:(by rewrite Hty) Hmo ltac:(lia) ltac:(lia)) as W.
  rewrite !Z.gtb_ltb in W. replace (i_size ip <? 16 * Z.of_nat e) with false in W by (symmetry; apply Z.ltb_ge; lia).
  replace (MAXFILE * BSIZE <? 16 * Z.of_nat e + 16) with false in W by (symmetry; apply Z.ltb_ge; lia). cbn [orb] in W.
  destruct W as (s' & T' & R & X); [|done|].
  { change BSIZE with 512. pose proof (Z.div_mod (16 * Z.of_nat e) 512 ltac:(lia)). pose proof (Z.mod_pos_bound (16 * Z.of_nat e) 512 ltac:(lia)). lia. }
  mcall R. cbn [Z.eqb Pos.eqb negb]. pose proof (wx_ip _ _ _ _ _ _ _ _ _ _ _ X) as Eip.
  exists s', T', (16 * Z.of_nat e), (Nat.max cnt (S e)).
  assert (Hd' : dir_at sb i (the_inode i s') (Nat.max cnt (S e)) T' s').
  { split; [apply X|by rewrite Eip|]. rewrite Eip. cbn [set_i_size i_size]. lia. }
  split_and!; [done|done|]. intros name'.
  destruct (dirlookup_run sb Hlay Hgood dr i _ _ T' s' name' Hd') as (bs' & R' & _). exists bs'. rewrite R'. f_equal.
  f_equal. clear R'.
  assert (Hby : ∀ o, 0 <= o < 71680 → dir_bytes s' (the_inode i s') o =
    if (16 * Z.of_nat e <=? o) && (o <? 16 * Z.of_nat e + 16) then de (o - 16 * Z.of_nat e) else dir_bytes s ip o).
  { intros o Ho. rewrite <- Hg. unfold dir_bytes. rewrite (wx_byte _ _ _ _ _ _ _ _ _ _ _ X) by lia. by rewrite Z.add_0_l. }
  apply (dir_scan_add (dir_bytes s ip)); try done.
  - intros o Ho Hn. rewrite Hby by lia. destruct (Z.leb_spec (16 * Z.of_nat e) o), (Z.ltb_spec o (16 * Z.of_nat e + 16)); cbn [andb]; (done || lia).
  - rewrite <- Hdi. unfold ent_inum. rewrite !Hby by lia.
    ztest (16 * Z.of_nat e <=? 16 * Z.of_nat e) is true. ztest (16 * Z.of_nat e <? 16 * Z.of_nat e + 16) is true.
    ztest (16 * Z.of_nat e <=? 16 * Z.of_nat e + 1) is true. ztest (16 * Z.of_nat e + 1 <? 16 * Z.of_nat e + 16) is true. cbn [andb].
    do 2 f_equal; f_equal; lia.
  - lia.
  - rewrite <- Hdn. f_equal. unfold ent_name. apply list_fmap_ext. intros j x Hx. apply lookup_seq in Hx as [-> Hj].
    rewrite Hby by lia. ztest (16 * Z.of_nat e <=? 16 * Z.of_nat e + 2 + Z.of_nat (0 + j)) is true.
    ztest (16 * Z.of_nat e + 2 + Z.of_nat (0 + j) <? 16 * Z.of_nat e + 16) is true. cbn [andb]. f_equal. lia.
Qed.
End claim.

(** ** Paths *)

(** The parts of a path between slashes, and those that are elements. *)
Fixpoint segments (p : list Z) : list (list Z) :=
  match p with
  | [] => [[]]
  | c :: p' =>
      if c =? SLASH then [] :: segments p'
      else match segments p' with s :: r => (c :: s) :: r | [] => [[c]] end
  end.
Definition is_elem (e : list Z) : bool := match e with [] => false | _ => true end.
Definition elements (p : list Z) : list (list Z) := List.filter is_elem (segments p).

(** The names that repeated calls of [skipelem] deliver. *)
Fixpoint skip_all (fuel : nat) (path name : list Z) : list (list Z) :=
  match skipelem path name with
  | None => []
  | Some (path', name') =>
      match fuel with
      | O => []
      | S fuel' => cname 14 name' :: skip_all fuel' path' name'
      end
  end.

Definition no_nul (l : list Z) : Prop := Forall (λ c, c ≠ 0) l.

Lemma cname_take n : ∀ l, no_nul l → cname n l = take n l.
Proof.
  induction n as [|n IH]; intros [|c l] H; try done. inversion H; subst. cbn. ztest (c =? 0) is false. by rewrite IH.
Qed.

Lemma cname_nul n : ∀ l t, no_nul l → (length l <= n)%nat → cname n (l ++ 0 :: t) = l.
Proof.
  induction n as [|n IH]; intros [|c l] t H Hl; cbn in Hl; try done; [lia|]. inversion H; subst. cbn. ztest (c =? 0) is false.
  rewrite IH; [done|done|lia].
Qed.

Lemma skip_slashes_spec p : elements (skip_slashes p) = elements p ∧ (length (skip_slashes p) <= length p)%nat ∧
  (no_nul p → no_nul (skip_slashes p)) ∧ (∀ c p', skip_slashes p = c :: p' → c ≠ SLASH).
Proof.
  induction p as [|c p IH]; cbn [skip_slashes]; [done|]. destruct (Z.eqb_spec c SLASH) as [->|Hn].
  - destruct IH as (H1 & H2 & H3 & H4). split_and!; [by rewrite H1|cbn; lia| |done]. intros H. inversion H; subst. auto.
  - split_and!; [done|done|done|]. by intros ? ? [= <- <-].
Qed.

Lemma path_elem_spec p : let '(e, r) := path_elem p in
  p = e ++ r ∧ (r = [] ∧ segments p = [e] ∨ ∃ r', r = SLASH :: r' ∧ segments p = e :: segments r').
Proof.
  induction p as [|c p IH]; cbn [path_elem]; [split; [done|by left]|]. destruct (Z.eqb_spec c SLASH) as [->|Hn].
  - split; [done|right]. by exists p.
  - destruct (path_elem p) as [e r]. destruct IH as [-> IH]. split; [done|]. cbn [segments]. ztest (c =? SLASH) is false.
    destruct IH as [[-> ->]|(r' & -> & ->)]; [by left|right]. by exists r'.
Qed.

(** One step: the first element is delivered, the rest remains. *)
Lemma skipelem_spec path name : no_nul path →
  match elements path with
  | [] => skipelem path name = None
  | e :: es => ∃ path' name', skipelem path name = Some (path', name') ∧ elements path' = es ∧ (path' = [] ↔ es = []) ∧
      cname 14 name' = take 14 e ∧ (length path' < length path)%nat ∧ no_nul path'
  end.
Proof.
  intros Hnn. destruct (skip_slashes_spec path) as (He & Hl & Hno & Hns). specialize (Hno Hnn). rewrite <- He.
  unfold skipelem. destruct (skip_slashes path) as [|c q] eqn:E; [done|]. specialize (Hns c q eq_refl).
  pose proof (path_elem_spec (c :: q)) as Hpe. destruct (path_elem (c :: q)) as [s r] eqn:Ep. destruct Hpe as [Hcq Hseg].
  assert (Hs : ∃ s', s = c :: s').
  { cbn [path_elem] in Ep. rewrite (proj2 (Z.eqb_neq c SLASH) Hns) in Ep. destruct (path_elem q). injection Ep as <- <-. by eexists. }
  destruct Hs as [s' ->]. rewrite Hcq in Hno. apply Forall_app in Hno as [Hns1 Hnr].
  destruct (skip_slashes_spec r) as (Hre & Hrl & Hrno & Hrns).
  assert (Hel : elements (c :: q) = (c :: s') :: elements r).
  { unfold elements. destruct Hseg as [[-> ->]|(r' & -> & ->)]; done. }
  rewrite Hel. eexists _, _. split; [reflexivity|]. split_and!.
  - done.
  - split; [intros Hz; by rewrite <- Hre, Hz|]. intros Hz. rewrite <- Hre in Hz. destruct (skip_slashes r) as [|d t] eqn:Er; [done|].
    exfalso. specialize (Hrns d t eq_refl). pose proof (path_elem_spec (d :: t)) as Hpe. unfold elements in Hz. cbn [segments] in Hz.
    rewrite (proj2 (Z.eqb_neq d SLASH) Hrns) in Hz. by destruct (segments t).
  - change (Z.to_nat DIRSIZ) with 14%nat. change DIRSIZ with 14. destruct (Z.geb_spec (Z.of_nat (length (c :: s'))) 14) as [Hg|Hg].
    + rewrite cname_take by (by apply Forall_take). by rewrite take_take.
    + etrans; [apply (cname_nul 14 (c :: s')); [done|lia]|]. by rewrite take_ge by lia.
  - apply (f_equal length) in Hcq. rewrite length_app in Hcq. cbn in Hl, Hcq. lia.
  - auto.
Qed.

(** C35 [skipelem] enumerates a path: called again and again, as [namex] does, it
    delivers the non-empty parts between slashes in order, each cut to DIRSIZ
    bytes, and then reports the end; [strlen(path)] calls are enough. *)
Theorem skipelem_enumerates path name : no_nul path →
  skip_all (length path) path name = (λ e, take 14 e) <$> elements path.
Proof.
  intros Hnn. remember (length path) as n eqn:Hn. assert (Hle : (length path <= n)%nat) by lia. clear Hn.
  revert path name Hnn Hle. induction n as [|n IH]; intros path name Hnn Hle; cbn [skip_all];
    pose proof (skipelem_spec path name Hnn) as Hs.
  - destruct path; [|cbn in Hle; lia]. done.
  - destruct (elements path) as [|e es]; [by rewrite Hs|]. destruct Hs as (p' & n' & -> & <- & _ & Hc & Hlt & Hno).
    rewrite Hc, IH; [done|done|lia].
Qed.

Lemma skipelem_enumerates_witness :
  skip_all 7 [47; 97; 47; 47; 98; 99; 47] (replicate 14 0) = [[97]; [98; 99]].
Proof. apply (skipelem_enumerates [47; 97; 47; 47; 98; 99; 47] (replicate 14 0)). by repeat constructor. Defined.
