(* ===== verification/FsFree.v ===== *)
(** * Discarding a file (itrunc and iput of fs.c)

    [itrunc] returns exactly the blocks of the file to the bitmap; the [iput]
    that drops the last reference to an inode without links discards its file
    and marks it free on the disk. *)

From Stdlib Require Import ZArith Lia.
From stdpp Require Import base numbers list gmap strings.
From S2P Require Import Prelude Mem Sleeplock Bio Log Blocks Fs FsBlocks FsFile FsData FsInode.

(** Clearing the bits of the blocks in a list; 0 stands for no block. *)
Definition mentions (L : list Z) (y : Z) : bool := existsb (λ a, negb (a =? 0) && (a =? y)) L.

Lemma mentions_spec L y : mentions L y = true ↔ y ∈ L ∧ y ≠ 0.
Proof.
  unfold mentions. rewrite existsb_exists. split.
  - intros (a & Ha & H). zb. subst. split; [by apply list_elem_of_In|done].
  - intros [Hy Hn]. exists y. split; [by apply list_elem_of_In|]. rewrite Z.eqb_refl. by ztest (y =? 0) is false.
Qed.

(** The blocks of the list are distinct and in use. *)
Record releasable (sb : superblock) (v : Z → blk) (L : list Z) : Prop := {
  rl_used : ∀ a, a ∈ L → a ≠ 0 → data_block sb a ∧ bitmap sb v a = true;
  rl_once : ∀ j k a, L !! j = Some a → L !! k = Some a → a ≠ 0 → j = k
}.

Lemma releasable_tail sb v v' a L :
  releasable sb v (a :: L) → (∀ y, bitmap sb v' y = bitmap sb v y && negb (mentions [a] y)) → releasable sb v' L.
Proof.
  intros [H1 H2] Hv. split.
  - intros x Hx Hn. destruct (H1 x) as [Hd Hu]; [by right|done|]. split; [done|]. rewrite Hv, Hu. cbn. rewrite orb_false_r.
    destruct (Z.eqb_spec a x) as [->|]; [|by rewrite andb_false_r]. exfalso.
    apply list_elem_of_lookup in Hx as [k Hk]. by specialize (H2 0%nat (S k) x eq_refl Hk Hn).
  - intros j k x Hj Hk Hn. specialize (H2 (S j) (S k) x Hj Hk Hn). lia.
Qed.

(** What freeing the blocks [L] does to the blocks. *)
Record freed (sb : superblock) (L : list Z) (v v' : Z → blk) : Prop := {
  fr_bitmap : ∀ y, bitmap sb v' y = bitmap sb v y && negb (mentions L y);
  fr_other : ∀ b, b ≠ sb_bmapstart sb → v' b = v b;
  fr_bytes : (∀ b, mem_ok (v b)) → ∀ b, mem_ok (v' b)
}.

Lemma freed_nil sb v v' : (∀ b, v' b = v b) → freed sb [] v v'.
Proof.
  intros He. split.
  - intros y. unfold bitmap. rewrite He. cbn. by rewrite andb_true_r.
  - intros b _. apply He.
  - intros H b. by rewrite He.
Qed.

Lemma freed_trans sb L1 L2 v1 v2 v3 : freed sb L1 v1 v2 → freed sb L2 v2 v3 → freed sb (L1 ++ L2) v1 v3.
Proof.
  intros [A1 A2 A3] [B1 B2 B3]. split.
  - intros y. rewrite B1, A1. unfold mentions. rewrite existsb_app, negb_orb. by rewrite andb_assoc.
  - intros b Hb. by rewrite B2, A2.
  - auto.
Qed.

Section free.
Context {B : Type} `{!BlockOps B} `{!BlockStore B ROOTDEV}.
Context (sb : superblock) (Hlay : layout sb) (Hgood : good_disk sb).
Implicit Types s : fstate B.

(** The bitmap block joins the transaction with the first block freed. *)
Definition bm_logged (T T' : gset Z) : Prop := T' = T ∨ T' = {[bm sb]} ∪ T.

Lemma bm_logged_union T T' : bm_logged T T' → {[bm sb]} ∪ T' = {[bm sb]} ∪ T.
Proof using. clear Hlay Hgood. intros [->| ->]; [done|set_solver]. Qed.

Lemma bm_logged_trans T T' T'' : bm_logged T T' → bm_logged T' T'' → bm_logged T T''.
Proof using. intros H1 [->| ->]; [done|]. right. by apply bm_logged_union. Qed.

Lemma bfree_one H T s a :
  bs_ok H T (f_bs s) → f_sb s = sb → (length H < 2)%nat → (bm sb ∉ H.*2) → (size ({[bm sb]} ∪ T : gset Z) <= bs_cap)%nat →
  a ≠ 0 → data_block sb a → bitmap sb (fview s) a = true →
  ∃ bs, bfree ROOTDEV a s = Done tt (set_f_bs bs s) ∧ bs_ok H ({[bm sb]} ∪ T) bs ∧ freed sb [a] (fview s) (bs_view bs).
Proof using Hlay Hgood.
  intros Hok Hsb Hl Hbm Hr Hn [Hd1 Hd2] Hu. pose proof (bmap_block_pos sb Hlay) as Hbp.
  pose proof (bfree_run sb Hlay Hgood H T s a Hok Hsb Hl Hbm ltac:(lia) Hr) as Hf. rewrite Hu in Hf.
  destruct Hf as (bs & R & O & V). exists bs. split_and!; [done|done|]. split.
  - intros y. transitivity (bitmap sb (free_view sb a (fview s)) y); [unfold bitmap; by rewrite V|].
    rewrite bitmap_free. cbn. ztest (a =? 0) is false. rewrite orb_false_r, (Z.eqb_sym a y). apply andb_comm.
  - intros b Hb. rewrite V. unfold free_view. by ztest (b =? sb_bmapstart sb) is false.
  - intros Hm b. rewrite V. unfold free_view. case_if; [by apply mem_ok_store8|done].
Qed.

Lemma set_i_addrs_same ip : set_i_addrs (i_addrs ip) ip = ip.
Proof using. by destruct ip. Qed.

(** The loop over the direct blocks. *)
Lemma itrunc_direct_run k : ∀ i ip T s j,
  bs_ok [] T (f_bs s) → f_sb s = sb → inodes s !! i = Some ip → i_dev ip = ROOTDEV → (size ({[bm sb]} ∪ T : gset Z) <= bs_cap)%nat →
  (j + k <= length (i_addrs ip))%nat → releasable sb (fview s) (take k (drop j (i_addrs ip))) →
  ∃ bs T', itrunc_direct k i (Z.of_nat j) s =
      Done tt (put_inode i (set_i_addrs (take j (i_addrs ip) ++ replicate k 0 ++ drop (j + k) (i_addrs ip)) ip) (set_f_bs bs s)) ∧
    bs_ok [] T' bs ∧ bm_logged T T' ∧ freed sb (take k (drop j (i_addrs ip))) (fview s) (bs_view bs).
Proof using Hlay Hgood.
  induction k as [|k IH]; intros i ip T s j Hok Hsb Hi Hdev Hr Hlen Hrel.
  - cbn [itrunc_direct]. exists (f_bs s), T. rewrite Nat.add_0_r. cbn [replicate app take]. rewrite take_drop, set_i_addrs_same.
    split_and!; [|done|by left|by apply freed_nil]. rewrite put_inode_same by done. by destruct s.
  - cbn [itrunc_direct]. mrun. rewrite (the_inode_lookup i s ip Hi). unfold addr_at. rewrite Nat2Z.id.
    destruct (lookup_lt_is_Some_2 (i_addrs ip) j ltac:(lia)) as [a Ha].
    assert (Hn : nth j (i_addrs ip) 0 = a) by (by rewrite nth_lookup, Ha). rewrite Hn.
    assert (Hd : drop j (i_addrs ip) = a :: drop (S j) (i_addrs ip)) by (by apply drop_S).
    rewrite Hd in Hrel |- *. cbn [take] in *. replace (Z.of_nat j + 1) with (Z.of_nat (S j)) by lia.
    assert (Hins : ∀ l : list Z, take (S j) (<[j := 0]> (i_addrs ip)) = take j (i_addrs ip) ++ [0]).
    { intros _. rewrite (take_S_r _ _ 0) by (apply list_lookup_insert_eq; lia). by rewrite take_insert_ge by lia. }
    destruct (Z.eqb_spec a 0) as [->|Hna]; cbn [negb]; mrun.
    + destruct (IH i ip T s (S j) Hok Hsb Hi Hdev Hr ltac:(lia)) as (bs & T' & R & O & HT & F).
      { eapply releasable_tail; [exact Hrel|]. intros y. cbn. by rewrite andb_true_r. }
      exists bs, T'. split_and!; [|done|done|].
      * rewrite R. do 3 f_equal. rewrite (take_S_r _ _ 0 Ha), <- app_assoc. cbn [replicate app]. by replace (S j + k)%nat with (j + S k)%nat by lia.
      * apply (freed_trans sb [0] _ _ (fview s)); [|done]. split; [|done|done]. intros y. cbn. by rewrite andb_true_r.
    + destruct (rl_used _ _ _ Hrel a ltac:(left) Hna) as [Hda Hu].
      destruct (bfree_one [] T s a Hok Hsb ltac:(cbn; lia) (not_elem_of_nil _) Hr Hna Hda Hu) as (bs1 & R1 & O1 & F1). rewrite Hdev. mcall R1.
      mcall (upd_inode_run i (set_addr (Z.of_nat j) 0) (set_f_bs bs1 s) ip Hi).
      set (ip1 := set_addr (Z.of_nat j) 0 ip). set (s1 := put_inode i ip1 (set_f_bs bs1 s)).
      assert (Ha1 : i_addrs ip1 = <[j := 0]> (i_addrs ip)) by (unfold ip1, set_addr; by rewrite Nat2Z.id).
      assert (Hdr : drop (S j) (i_addrs ip1) = drop (S j) (i_addrs ip)) by (rewrite Ha1; by rewrite drop_insert_lt by lia).
      assert (Hl1 : length (i_addrs ip1) = length (i_addrs ip)) by (rewrite Ha1; apply length_insert).
      pose proof (bm_logged_union T ({[bm sb]} ∪ T) (or_intror eq_refl)) as HTe.
      destruct (IH i ip1 _ s1 (S j) O1 Hsb) as (bs & T' & R & O & HT & F); try done; [by eapply put_inode_lookup|by rewrite HTe|lia| |].
      { rewrite Hdr. eapply releasable_tail; [exact Hrel|]. apply (fr_bitmap _ _ _ _ F1). }
      exists bs, T'. split_and!; [|done|exact (bm_logged_trans _ _ _ (or_intror eq_refl) HT)|].
      * rewrite R, Ha1, Hins by exact []. replace (S j + k)%nat with (j + S k)%nat by lia. rewrite drop_insert_lt by lia.
        unfold put_inode, s1. cbn. rewrite list_insert_insert_eq. by rewrite <- app_assoc.
      * apply (freed_trans sb [a] _ _ (bs_view bs1)); [done|]. by rewrite Hdr in F.
Qed.
(** The loop over the blocks that the indirect block lists. *)
Definition entries (d : blk) (j : Z) (k : nat) : list Z := (λ x, load32 d (4 * x)) <$> seqZ j (Z.of_nat k).

Lemma entries_S d j k : entries d j (S k) = load32 d (4 * j) :: entries d (j + 1) k.
Proof using. unfold entries. rewrite seqZ_cons by lia. cbn. do 2 f_equal. f_equal; lia. Qed.

Lemma itrunc_indirect_run k : ∀ h ind d T s j,
  bs_ok [(h, ind)] T (f_bs s) → f_sb s = sb → ind ≠ bm sb → fview s ind = d → (size ({[bm sb]} ∪ T : gset Z) <= bs_cap)%nat →
  releasable sb (fview s) (entries d j k) →
  ∃ bs T', itrunc_indirect k ROOTDEV h j s = Done tt (set_f_bs bs s) ∧ bs_ok [(h, ind)] T' bs ∧ bm_logged T T' ∧
    freed sb (entries d j k) (fview s) (bs_view bs).
Proof using Hlay Hgood.
  induction k as [|k IH]; intros h ind d T s j Hok Hsb Hne Hd Hr Hrel; cbn [itrunc_indirect].
  - exists (f_bs s), T. split_and!; [by destruct s|done|by left|by apply freed_nil].
  - mcall (b_bytes_run _ T s h ind Hok ltac:(left)). rewrite Hd. rewrite entries_S in Hrel |- *.
    set (a := load32 d (4 * j)) in *. destruct (Z.eqb_spec a 0) as [->|Hna]; cbn [negb]; mrun.
    + destruct (IH h ind d T s (j + 1) Hok Hsb Hne Hd Hr) as (bs & T' & R & O & HT & F).
      { eapply releasable_tail; [exact Hrel|]. intros y. cbn. by rewrite andb_true_r. }
      exists bs, T'. split_and!; [done|done|done|]. apply (freed_trans sb [0] _ _ (fview s)); [|done].
      split; [|done|done]. intros y. cbn. by rewrite andb_true_r.
    + destruct (rl_used _ _ _ Hrel a ltac:(left) Hna) as [Hda Hu].
      destruct (bfree_one [(h, ind)] T s a Hok Hsb) as (bs1 & R1 & O1 & F1); try done.
      { cbn. lia. }
      { cbn. rewrite list_elem_of_singleton. congruence. }
      pose proof (bm_logged_union T ({[bm sb]} ∪ T) (or_intror eq_refl)) as HTe.
      mcall R1. destruct (IH h ind d _ (set_f_bs bs1 s) (j + 1) O1 Hsb Hne) as (bs & T' & R & O & HT & F); try done.
      { unfold fview. cbn. rewrite (fr_other _ _ _ _ F1) by done. exact Hd. }
      { by rewrite HTe. }
      { eapply releasable_tail; [exact Hrel|]. apply (fr_bitmap _ _ _ _ F1). }
      exists bs, T'. split_and!; [by rewrite R, set_f_bs_twice|done|exact (bm_logged_trans _ _ _ (or_intror eq_refl) HT)|]. by apply (freed_trans sb [a] _ _ (bs_view bs1)).
Qed.
Lemma releasable_app v v' L1 L2 : releasable sb v (L1 ++ L2) → freed sb L1 v v' → releasable sb v L1 ∧ releasable sb v' L2.
Proof using.
  clear Hlay Hgood. intros [H1 H2] [F1 _ _]. split; split.
  - intros a Ha. apply H1. set_solver.
  - intros j k a Hj Hk. apply (H2 j k); by apply lookup_app_l_Some.
  - intros a Ha Hn. destruct (H1 a ltac:(set_solver) Hn) as [Hd Hu]. split; [done|]. rewrite F1, Hu. cbn.
    destruct (mentions L1 a) eqn:E; [exfalso|done]. apply mentions_spec in E as [E _].
    apply list_elem_of_lookup in Ha as [k Hk]. apply list_elem_of_lookup in E as [j Hj]. pose proof (lookup_lt_Some _ _ _ Hj).
    specialize (H2 j (length L1 + k)%nat a (lookup_app_l_Some _ _ _ _ Hj)).
    rewrite lookup_app_r in H2 by lia. replace (length L1 + k - length L1)%nat with k in H2 by lia. specialize (H2 Hk Hn). lia.
  - intros j k a Hj Hk Hn. specialize (H2 (length L1 + j)%nat (length L1 + k)%nat a). rewrite !lookup_app_r in H2 by lia.
    replace (length L1 + k - length L1)%nat with k in H2 by lia. replace (length L1 + j - length L1)%nat with j in H2 by lia.
    specialize (H2 Hj Hk Hn). lia.
Qed.

(** The blocks of a file in the order in which [itrunc] frees them. *)
Definition file_blocks (v : Z → blk) (addrs : list Z) : list Z :=
  take 12 addrs ++ (if nth 12 addrs 0 =? 0 then [] else entries (v (nth 12 addrs 0)) 0 128 ++ [nth 12 addrs 0]).

Lemma length_entries d j k : length (entries d j k) = k.
Proof using. unfold entries. rewrite length_fmap, length_seqZ. lia. Qed.

Lemma lookup_entries d k j : (j < k)%nat → entries d 0 k !! j = Some (load32 d (4 * Z.of_nat j)).
Proof using. intros Hj. unfold entries. rewrite list_lookup_fmap, lookup_seqZ_lt by lia. cbn. done. Qed.

Lemma file_blocks_lookup v addrs j a :
  length addrs = 13%nat → file_blocks v addrs !! j = Some a → a ≠ 0 →
  (j < 140)%nat ∧ file_map v addrs (Z.of_nat j) = a ∨ j = 140%nat ∧ a = nth 12 addrs 0.
Proof using.
  intros Hl Hj Hn. unfold file_blocks in Hj. assert (Ht : length (take 12 addrs) = 12%nat) by (rewrite length_take; lia).
  unfold file_map. change NDIRECT with 12. destruct (decide (j < 12)%nat).
  - rewrite lookup_app_l in Hj by lia. rewrite lookup_take_lt in Hj by lia. left. split; [lia|].
    ztest (Z.of_nat j <? 12) is true. rewrite Nat2Z.id. by rewrite nth_lookup, Hj.
  - rewrite lookup_app_r, Ht in Hj by lia. ztest (Z.of_nat j <? 12) is false. destruct (nth 12 addrs 0 =? 0); [by rewrite lookup_nil in Hj|].
    pose proof (length_entries (v (nth 12 addrs 0)) 0 128) as He. destruct (decide (j - 12 < 128)%nat).
    + rewrite lookup_app_l, lookup_entries in Hj by lia. injection Hj as <-. left. split; [lia|]. do 2 f_equal. lia.
    + rewrite lookup_app_r, He in Hj by lia. right. destruct (j - 12 - 128)%nat eqn:E; [|done]. injection Hj as <-. split; [lia|done].
Qed.

Lemma file_blocks_owns v addrs y : length addrs = 13%nat → mentions (file_blocks v addrs) y = true ↔ owns v addrs y.
Proof using.
  intros Hl. rewrite mentions_spec. unfold owns. change MAXFILE with 140. split.
  - intros [Hy Hn]. split; [done|]. apply list_elem_of_lookup in Hy as [j Hj].
    destruct (file_blocks_lookup v addrs j y Hl Hj Hn) as [[Hlt Hm]|[_ Hm]]; [right; exists (Z.of_nat j); split; [lia|done]|by left].
  - intros [Hn Ho]. split; [|done]. unfold file_blocks. destruct Ho as [->|(bn & Hbn & Hm)].
    + ztest (nth 12 addrs 0 =? 0) is false. rewrite !elem_of_app, list_elem_of_singleton. auto.
    + unfold file_map in Hm. change NDIRECT with 12 in Hm. destruct (Z.ltb_spec bn 12).
      * apply elem_of_app. left. apply list_elem_of_lookup. exists (Z.to_nat bn). rewrite lookup_take_lt by lia.
        rewrite nth_lookup in Hm. destruct (addrs !! Z.to_nat bn); cbn in Hm; congruence.
      * destruct (nth 12 addrs 0 =? 0); [congruence|]. rewrite !elem_of_app. right. left. apply list_elem_of_lookup.
        exists (Z.to_nat (bn - 12)). rewrite lookup_entries by lia. rewrite <- Hm. do 2 f_equal. lia.
Qed.

Lemma file_releasable v addrs : file_ok sb v addrs → releasable sb v (file_blocks v addrs).
Proof using.
  clear Hlay Hgood. intros Hf. pose proof (fo_len _ _ _ Hf) as Hl. split.
  - intros a Ha Hn. apply (fo_used _ _ _ Hf), file_blocks_owns; [done|]. by apply mentions_spec.
  - intros j k a Hj Hk Hn. pose proof (fo_inj _ _ _ Hf) as Hinj. pose proof (fo_ind _ _ _ Hf) as Hind. change MAXFILE with 140 in *.
    destruct (file_blocks_lookup v addrs j a Hl Hj Hn) as [[Hj1 Hj2]|[-> Hj2]], (file_blocks_lookup v addrs k a Hl Hk Hn) as [[Hk1 Hk2]|[-> Hk2]].
    + apply Nat2Z.inj, Hinj; [lia|lia|congruence|congruence].
    + exfalso. apply (Hind (Z.of_nat j)); [lia|congruence|congruence].
    + exfalso. apply (Hind (Z.of_nat k)); [lia|congruence|congruence].
    + done.
Qed.
(** The part of [itrunc] behind the indirect block. *)
Lemma itrunc_rest_run i ip T s ind :
  bs_ok [] T (f_bs s) → f_sb s = sb → inodes s !! i = Some ip → i_dev ip = ROOTDEV → (size ({[bm sb]} ∪ T : gset Z) <= bs_cap)%nat →
  i_addrs ip = replicate 12 0 ++ [ind] → releasable sb (fview s) (if ind =? 0 then [] else entries (fview s ind) 0 128 ++ [ind]) →
  ∃ bs T', (if negb (addr_at NDIRECT ip =? 0) then
     bp <- fs_bread (i_dev ip) (addr_at NDIRECT ip) ;;
     itrunc_indirect (Z.to_nat NINDIRECT) (i_dev ip) bp 0 ;;;
     fs_brelse bp ;;;
     bfree (i_dev ip) (addr_at NDIRECT ip) ;;;
     upd_inode i (set_addr NDIRECT 0)
   else ret tt) s = Done tt (put_inode i (set_i_addrs (replicate 13 0) ip) (set_f_bs bs s)) ∧ bs_ok [] T' bs ∧ bm_logged T T' ∧
   freed sb (if ind =? 0 then [] else entries (fview s ind) 0 128 ++ [ind]) (fview s) (bs_view bs).
Proof using Hlay Hgood.
  intros Hok Hsb Hi Hdev Hr Ha Hrel. assert (Hat : addr_at NDIRECT ip = ind) by (unfold addr_at; by rewrite Ha). rewrite Hat, Hdev.
  destruct (Z.eqb_spec ind 0) as [->|Hn]; cbn [negb].
  { exists (f_bs s), T. assert (He : set_i_addrs (replicate 13 0) ip = ip) by (change (replicate 13 0) with (replicate 12 0 ++ [0]); rewrite <- Ha; apply set_i_addrs_same).
    rewrite He, put_inode_same by done. split_and!; [by destruct s|done|by left|by apply freed_nil]. }
  assert (Hu : data_block sb ind ∧ bitmap sb (fview s) ind = true) by (apply (rl_used _ _ _ Hrel); [apply elem_of_app; right; left|done]).
  destruct Hu as [[Hd1 Hd2] _]. pose proof (bmap_block_pos sb Hlay) as Hbp.
  destruct (fs_bread_run [] T s ind Hok) as (h & bs1 & R1 & O1 & V1); [apply Hgood; lia|apply not_elem_of_nil|cbn; lia|].
  mcall R1. assert (Hv1 : freed sb [] (fview s) (bs_view bs1)) by (by apply freed_nil).
  assert (Hrel1 : releasable sb (bs_view bs1) (entries (fview s ind) 0 128 ++ [ind])) by (exact (proj2 (releasable_app (fview s) _ [] _ Hrel Hv1))).
  destruct (itrunc_indirect_run (Z.to_nat NINDIRECT) h ind (fview s ind) T (set_f_bs bs1 s) 0 O1 Hsb) as (bs2 & T2 & R2 & O2 & HT2 & F2);
    [unfold bm; lia|apply V1|done| |].
  { destruct Hrel1 as [Q1 Q2]. split; [intros a Hain; apply Q1; apply elem_of_app; by left|]. intros j k a Hj Hk. apply Q2; by apply lookup_app_l_Some. }
  mcall R2. rewrite set_f_bs_twice. destruct (fs_brelse_run [] T2 (set_f_bs bs2 s) h ind O2) as (bs3 & R3 & O3 & V3).
  mcall R3. rewrite set_f_bs_twice.
  assert (F3 : freed sb (entries (fview s ind) 0 128) (bs_view bs1) (bs_view bs3)).
  { pose proof (freed_trans sb _ [] _ _ _ F2 (freed_nil sb _ _ V3)) as F. by rewrite app_nil_r in F. }
  destruct (releasable_app _ _ _ _ Hrel1 F3) as [_ [Q _]]. destruct (Q ind ltac:(left) Hn) as [Hdi Hui].
  destruct (bfree_one [] T2 (set_f_bs bs3 s) ind O3 Hsb ltac:(cbn; lia) (not_elem_of_nil _) ltac:(by rewrite (bm_logged_union _ _ HT2)) Hn Hdi Hui)
    as (bs4 & R4 & O4 & F4).
  mcall R4. rewrite set_f_bs_twice. rewrite (upd_inode_run i _ (set_f_bs bs4 s) ip Hi).
  exists bs4, ({[bm sb]} ∪ T2). split_and!; [|done|exact (bm_logged_trans _ _ _ HT2 (or_intror eq_refl))|].
  - do 2 f_equal. unfold set_addr. by rewrite Ha.
  - exact (freed_trans sb [] _ _ _ _ Hv1 (freed_trans sb _ _ _ _ _ F3 F4)).
Qed.

Lemma itrunc_run i ip T s :
  file_at sb i ip T s → 0 <= i_inum ip < sb_ninodes sb → (size ({[IBLOCK (i_inum ip) sb]} ∪ ({[bm sb]} ∪ T) : gset Z) <= bs_cap)%nat →
  let ip' := set_i_size 0 (set_i_addrs (replicate 13 0) ip) in
  let ib := IBLOCK (i_inum ip) sb in
  ∃ bs T' v, itrunc i s = Done tt (put_inode i ip' (set_f_bs bs s)) ∧ bs_ok [] ({[ib]} ∪ T') bs ∧ bm_logged T T' ∧
    freed sb (file_blocks (fview s) (i_addrs ip)) (fview s) v ∧
    ∀ b, bs_view bs b = set_block ib (dinode_store ip' (dinode_off (i_inum ip)) (v ib)) v b.
Proof using Hlay Hgood.
  intros [F1 F2 F3 F4 F5 F6] Hin Hr ip' ib. pose proof (fo_len _ _ _ F6) as Hl. pose proof (file_releasable _ _ F6) as Hrel.
  assert (Hr0 : (size ({[bm sb]} ∪ T : gset Z) <= bs_cap)%nat) by (etrans; [apply subseteq_size; apply union_subseteq_r|exact Hr]).
  assert (Hd12 : drop 12 (i_addrs ip) = [nth 12 (i_addrs ip) 0]).
  { destruct (lookup_lt_is_Some_2 (i_addrs ip) 12 ltac:(lia)) as [a Ha]. rewrite (drop_S _ _ _ Ha), nth_lookup, Ha. cbn. by rewrite drop_ge by lia. }
  unfold itrunc. destruct (itrunc_direct_run (Z.to_nat NDIRECT) i ip T s 0 F1 F2 F3 F4 Hr0) as (bs1 & T1 & R1 & O1 & HT1 & Q1).
  { change (Z.to_nat NDIRECT) with 12%nat. lia. }
  { change (Z.to_nat NDIRECT) with 12%nat. rewrite drop_0. destruct Hrel as [Q1 Q2]. split.
    - intros a Ha. apply Q1. apply elem_of_app. by left.
    - intros j k a Hj Hk. apply Q2; by apply lookup_app_l_Some. }
  change (Z.to_nat NDIRECT) with 12%nat in *. rewrite drop_0 in Q1. cbn [Nat.add] in R1. rewrite Hd12 in R1. change (Z.of_nat 0) with 0 in R1.
  mcall R1. set (ip1 := set_i_addrs _ ip). set (s1 := put_inode i ip1 (set_f_bs bs1 s)). set (ind := nth 12 (i_addrs ip) 0) in *.
  assert (Hi1 : inodes s1 !! i = Some ip1) by (by eapply put_inode_lookup).
  mrun. rewrite (the_inode_lookup i s1 ip1 Hi1).
  destruct (releasable_app _ _ _ _ Hrel Q1) as [_ Hrel1]. fold ind in Hrel1.
  assert (Hif : (if ind =? 0 then [] else entries (fview s1 ind) 0 128 ++ [ind]) = (if ind =? 0 then [] else entries (fview s ind) 0 128 ++ [ind])).
  { destruct (Z.eqb_spec ind 0); [done|]. change (fview s1 ind) with (bs_view bs1 ind). rewrite (fr_other _ _ _ _ Q1); [done|].
    destruct (fo_used _ _ _ F6 ind) as [[? ?] _]; [split; [done|by left]|unfold bm; lia]. }
  destruct (itrunc_rest_run i ip1 T1 s1 ind O1 F2 Hi1 F4 ltac:(by rewrite (bm_logged_union _ _ HT1)) eq_refl ltac:(by rewrite Hif))
    as (bs2 & T2 & R2 & O2 & HT2 & Q2).
  mcall R2. set (ip2 := set_i_addrs (replicate 13 0) ip1). set (s2 := put_inode i ip2 (set_f_bs bs2 s1)).
  assert (Hi2 : inodes s2 !! i = Some ip2) by (by eapply put_inode_lookup).
  mcall (upd_inode_run i (set_i_size 0) s2 ip2 Hi2). change (set_i_size 0 ip2) with ip'. set (s3 := put_inode i ip' s2).
  pose proof (bm_logged_trans _ _ _ HT1 HT2) as HT.
  destruct (iupdate_run sb Hlay Hgood T2 s3 i ip' O2 F2) as (bs3 & R3 & O3 & V3); try done; [by eapply put_inode_lookup| |].
  { etrans; [apply subseteq_size, (union_mono_l _ _ ({[bm sb]} ∪ T))|exact Hr]. rewrite <- (bm_logged_union _ _ HT). apply union_subseteq_r. }
  exists bs3, T2, (bs_view bs2). split_and!; [|done|done| |exact V3].
  - rewrite R3. f_equal. unfold s3, s2, s1, put_inode. cbn. by rewrite !list_insert_insert_eq.
  - rewrite Hif in Q2. exact (freed_trans sb _ _ _ _ _ Q1 Q2).
Qed.
Lemma ilock_acquire_run i ip s :
  inodes s !! i = Some ip → i_lock ip = SleepLock false false 0 →
  on_ilock i (acquiresleep (ilock_chan i) (f_pid s)) s = Done tt (put_inode i (set_i_lock (SleepLock true false (f_pid s)) ip) s).
Proof using.
  intros Hi Hl. unfold on_ilock, lift. rewrite (the_inode_lookup i s ip Hi), Hl, acquiresleep_run by done. cbn.
  unfold put_inode. rewrite (alter_insert _ _ i ip Hi). by destruct s.
Qed.

Lemma ilock_release_run i ip s :
  inodes s !! i = Some ip → sl_lk (i_lock ip) = false →
  on_ilock i (releasesleep (ilock_chan i)) s =
    Done tt (set_f_woken (f_woken s ++ [ilock_chan i]) (put_inode i (set_i_lock (SleepLock false false 0) ip) s)).
Proof using.
  intros Hi Hl. unfold on_ilock, lift. rewrite (the_inode_lookup i s ip Hi), releasesleep_run by done. cbn.
  unfold put_inode. by rewrite (alter_insert _ _ i ip Hi).
Qed.
Lemma ic_lock_twice s : ic_lock s = false → set_ic_lock false (set_ic_lock true s) = s.
Proof using. destruct s. cbn. by intros ->. Qed.

(** The end of [iput]. *)
Lemma iput_drop_run i ip s :
  inodes s !! i = Some ip → sl_lk (i_lock ip) = false → ic_lock s = false →
  (on_ilock i (releasesleep (ilock_chan i)) ;;;
   acquire ic_lock set_ic_lock ;;;
   upd_inode i (λ ip, set_i_ref (i_ref ip - 1) ip) ;;;
   release ic_lock set_ic_lock) s =
  Done tt (set_f_woken (f_woken s ++ [ilock_chan i]) (put_inode i (set_i_ref (i_ref ip - 1) (set_i_lock (SleepLock false false 0) ip)) s)).
Proof using.
  intros Hi Hl Hic. mcall (ilock_release_run i ip s Hi Hl). set (ip1 := set_i_lock _ ip). set (s1 := set_f_woken _ _).
  assert (Hi1 : inodes s1 !! i = Some ip1) by (by eapply put_inode_lookup).
  mcall (acquire_run ic_lock set_ic_lock s1 Hic). mcall (upd_inode_run i (λ ip, set_i_ref (i_ref ip - 1) ip) (set_ic_lock true s1) ip1 Hi1).
  rewrite release_run by done. f_equal. unfold s1, put_inode, set_f_woken, set_ic_lock. cbn. rewrite list_insert_insert_eq. by rewrite Hic.
Qed.

(** The lock of an inode says nothing about its file. *)
Lemma live_lock i ip T s l : live sb i ip T s → live sb i (set_i_lock l ip) T (put_inode i (set_i_lock l ip) s).
Proof using.
  intros [[F1 F2 F3 F4 F5 F6] Hbk Hdi Hin Hco]. split; [split|done|by destruct Hdi|done|]; try done.
  - by eapply put_inode_lookup.
  - exact (f_equal (set_i_lock l) Hco).
Qed.

(** The file of [ip] is gone: exactly its blocks became free, its disk inode is
    free and empty, and everything else is as it was. *)
Record discarded (ip : inode) (v v' : Z → blk) : Prop := {
  dc_image : image_ok sb v';
  dc_bitmap : ∀ y, bitmap sb v' y = true ↔ bitmap sb v y = true ∧ ¬ owns v (i_addrs ip) y;
  dc_frame : ∀ b, b ≠ bm sb → b ≠ IBLOCK (i_inum ip) sb → v' b = v b;
  dc_dinode : ∀ x, x < dinode_off (i_inum ip) ∨ dinode_off (i_inum ip) + 64 <= x →
    v' (IBLOCK (i_inum ip) sb) x = v (IBLOCK (i_inum ip) sb) x;
  dc_free : dinode_load (v' (IBLOCK (i_inum ip) sb)) (dinode_off (i_inum ip)) ip =
    set_i_type 0 (set_i_size 0 (set_i_addrs (replicate 13 0) ip))
}.

Lemma freed_discarded ip ip1 v v1 v' :
  file_ok sb v (i_addrs ip) → image_ok sb v → dinode_ok ip → 0 <= i_inum ip < sb_ninodes sb → length (i_addrs ip1) = 13%nat →
  freed sb (file_blocks v (i_addrs ip)) v v1 →
  (∀ b, v' b = set_block (IBLOCK (i_inum ip) sb)
     (dinode_store (set_i_type 0 (set_i_size 0 (set_i_addrs (replicate 13 0) ip))) (dinode_off (i_inum ip))
        (dinode_store ip1 (dinode_off (i_inum ip)) (v1 (IBLOCK (i_inum ip) sb)))) v1 b) →
  discarded ip v v'.
Proof using Hlay.
  intros Hf Him Hdi Hin Hl1 [F1 F2 F3] Hv. destruct (IBLOCK_range sb Hlay _ Hin) as [_ Hib]. set (ib := IBLOCK (i_inum ip) sb) in *.
  pose proof (fo_len _ _ _ Hf) as Hl. assert (Hib1 : ib ≠ sb_bmapstart sb) by lia.
  assert (Hbit : ∀ y, bitmap sb v' y = true ↔ bitmap sb v y = true ∧ ¬ owns v (i_addrs ip) y).
  { intros y. assert (He : bitmap sb v' y = bitmap sb v1 y) by (unfold bitmap; rewrite Hv; unfold set_block; by ztest (sb_bmapstart sb =? ib) is false).
    rewrite He, F1, andb_true_iff, negb_true_iff, <- not_true_iff_false, (file_blocks_owns v _ y Hl). done. }
  split; [split|done|..].
  - intros b. rewrite Hv. unfold set_block. case_if; [|apply F3, Him]. do 2 apply mem_ok_dinode_store. apply F3, Him.
  - intros b Hb. apply Hbit. split; [by apply Him|]. intros Ho. destruct (fo_used _ _ _ Hf b Ho) as [[? ?] _]. lia.
  - intros b Hb1 Hb2. rewrite Hv. unfold set_block. ztest (b =? ib) is false. by apply F2.
  - intros x Hx. rewrite Hv. unfold set_block. rewrite Z.eqb_refl, !dinode_store_out by done. by rewrite F2.
  - rewrite Hv. unfold set_block. rewrite Z.eqb_refl, dinode_roundtrip; [by destruct ip|]. destruct Hdi. split; cbn; try done.
    split; [done|]. apply (Forall_replicate is_u32 13 0). split; done.
Qed.

Lemma discard_run i ip T s :
  live sb i ip T s → (size ({[IBLOCK (i_inum ip) sb]} ∪ ({[bm sb]} ∪ T) : gset Z) <= bs_cap)%nat →
  ∃ bs T', (itrunc i ;;; upd_inode i (set_i_type 0) ;;; iupdate i ;;; upd_inode i (set_i_valid false)) s =
      Done tt (put_inode i (set_i_valid false (set_i_type 0 (set_i_size 0 (set_i_addrs (replicate 13 0) ip)))) (set_f_bs bs s)) ∧
    bs_ok [] T' bs ∧ T' ⊆ {[IBLOCK (i_inum ip) sb]} ∪ ({[bm sb]} ∪ T) ∧ discarded ip (fview s) (bs_view bs).
Proof using Hlay Hgood.
  intros [Hfa Hbk Hdi Hin Hco] Hr. pose proof Hfa as [F1 F2 F3 F4 F5 F6].
  destruct (itrunc_run i ip T s Hfa Hin Hr) as (bs1 & T1 & v & R1 & O1 & HT & Q & V1).
  set (ip1 := set_i_size 0 (set_i_addrs (replicate 13 0) ip)) in *. set (ib := IBLOCK (i_inum ip) sb) in *.
  mcall R1. set (s1 := put_inode i ip1 (set_f_bs bs1 s)). assert (Hi1 : inodes s1 !! i = Some ip1) by (by eapply put_inode_lookup).
  mcall (upd_inode_run i (set_i_type 0) s1 ip1 Hi1). set (ip2 := set_i_type 0 ip1). set (s2 := put_inode i ip2 s1).
  assert (Hi2 : inodes s2 !! i = Some ip2) by (by eapply put_inode_lookup).
  assert (HTs : {[ib]} ∪ T1 ⊆ {[ib]} ∪ ({[bm sb]} ∪ T)).
  { apply union_mono_l. rewrite <- (bm_logged_union _ _ HT). apply union_subseteq_r. }
  assert (HTe : {[ib]} ∪ ({[ib]} ∪ T1) = {[ib]} ∪ T1) by (clear; set_solver).
  destruct (iupdate_run sb Hlay Hgood ({[ib]} ∪ T1) s2 i ip2 O1 F2 Hi2 F4 Hin) as (bs2 & R2 & O2 & V2).
  { change (IBLOCK (i_inum ip2) sb) with ib. rewrite HTe. etrans; [apply subseteq_size, HTs|exact Hr]. }
  change (IBLOCK (i_inum ip2) sb) with ib in O2, V2. rewrite HTe in O2. mcall R2.
  rewrite (upd_inode_run i _ (set_f_bs bs2 s2) ip2 Hi2). exists bs2, ({[ib]} ∪ T1). split_and!; [|done|done|].
  - f_equal. unfold s2, s1, put_inode. cbn. by rewrite !list_insert_insert_eq.
  - apply (freed_discarded ip ip1 (fview s) v (bs_view bs2) F6 F5 Hdi Hin eq_refl Q). intros b. rewrite V2. change (fview s2) with (bs_view bs1).
    unfold set_block. rewrite !V1. unfold set_block. fold ib. rewrite Z.eqb_refl. by destruct (b =? ib).
Qed.
End free.

Section discard.
Context {B : Type} `{!BlockOps B} `{!BlockStore B ROOTDEV}.
Implicit Types s : fstate B.

(** C14 Dropping the last reference to an inode without links discards its file:
    [iput] returns exactly the blocks of the file to the bitmap, leaves the
    inode free and empty on the disk, gives up the cache entry and adds at most
    the inode's block and the bitmap block to the transaction.  Every other
    file that shares no block with it keeps its bytes. *)
Theorem iput_discards (sb : superblock) i ip T s :
  layout sb → good_disk sb → live sb i ip T s → ic_lock s = false → i_lock ip = SleepLock false false 0 →
  i_valid ip = true → i_nlink ip = 0 → i_ref ip = 1 →
  (size ({[IBLOCK (i_inum ip) sb]} ∪ ({[bm sb]} ∪ T) : gset Z) <= bs_cap)%nat →
  ∃ s' T', iput i s = Done tt s' ∧ bs_ok [] T' (f_bs s') ∧ T' ⊆ {[IBLOCK (i_inum ip) sb]} ∪ ({[bm sb]} ∪ T) ∧
    discarded sb ip (fview s) (fview s') ∧ ic_lock s' = false ∧
    inodes s' = <[i := Inode (i_dev ip) (i_inum ip) 0 (SleepLock false false 0) false 0 (i_major ip) (i_minor ip) 0 0 (replicate 13 0)]> (inodes s) ∧
    ∀ j jp, j ≠ i → live sb j jp T s → apart (fview s) ip jp → live sb j jp T' s' ∧
      ∀ o, 0 <= o < MAXFILE * BSIZE → file_byte (fview s') (i_addrs jp) o = file_byte (fview s) (i_addrs jp) o.
Proof.
  intros Hlay Hgood Hlive Hic Hlk Hval Hnl Href Hr. pose proof Hlive as [[F1 F2 F3 F4 F5 F6] Hbk Hdi Hin Hco].
  set (ip1 := set_i_lock (SleepLock true false (f_pid s)) ip). set (s1 := put_inode i ip1 s).
  assert (Hi1 : inodes s1 !! i = Some ip1) by (by eapply put_inode_lookup).
  pose proof (live_lock sb i ip T s (SleepLock true false (f_pid s)) Hlive) as Hlive1. fold ip1 s1 in Hlive1.
  destruct (discard_run sb Hlay Hgood i ip1 T s1 Hlive1 Hr) as (bs & T' & R & O & HT & D).
  unfold iput. mrun. mcall (ilock_acquire_run i ip s F3 Hlk). fold ip1 s1. mrun. rewrite (the_inode_lookup i s1 ip1 Hi1).
  change (i_valid ip1) with (i_valid ip). change (i_nlink ip1) with (i_nlink ip). rewrite Hval, Hnl.
  unfold when. cbn [andb Z.eqb]. mcall (acquire_run ic_lock set_ic_lock s1 Hic). mrun.
  change (the_inode i (set_ic_lock true s1)) with (the_inode i s1). rewrite (the_inode_lookup i s1 ip1 Hi1).
  mcall (release_run ic_lock set_ic_lock (set_ic_lock true s1) eq_refl).
  assert (He : set_ic_lock false (set_ic_lock true s1) = s1) by (by apply ic_lock_twice). rewrite He.
  change (i_ref ip1) with (i_ref ip). rewrite Href. cbn [Z.eqb Pos.eqb]. rewrite (bind_run _ _ _ _ _ R).
  set (ip2 := set_i_valid false _). set (s2 := put_inode i ip2 (set_f_bs bs s1)).
  assert (Hi2 : inodes s2 !! i = Some ip2) by (by eapply put_inode_lookup).
  rewrite (iput_drop_run i ip2 s2 Hi2 eq_refl Hic). eexists _, T'. refine (conj eq_refl (conj O (conj HT (conj _ (conj Hic (conj _ _)))))).
  - destruct D as [D1 D2 D3 D4 D5]. split; try done. change (bs_view bs) with (fview s2) in *.
    apply (f_equal (set_i_lock (i_lock ip))) in D5. by destruct ip.
  - cbn. rewrite !list_insert_insert_eq. do 2 f_equal. unfold ip2, ip1. clear -Hnl Href. destruct ip. cbn in *. by subst.
  - intros j jp Hj Hlj [Hnum Hap]. set (s' := set_f_woken _ _). pose proof (lv_inum _ _ _ _ _ Hlj) as Hinj. destruct D as [D1 D2 D3 D4 D5].
    destruct (IBLOCK_range sb Hlay _ Hin) as [_ Hib], (IBLOCK_range sb Hlay _ Hinj) as [_ Hibj].
    assert (Hlk' : inodes s' !! j = Some jp).
    { cbn. rewrite !list_lookup_insert_ne by congruence. apply (fa_lookup _ _ _ _ _ (lv_file _ _ _ _ _ Hlj)). }
    destruct (live_frame sb j jp T T' s s' Hlj O F2 Hlk' D1) as (L1 & L2 & _); [| |done].
    + intros b Hb. destruct (fo_used _ _ _ (fa_file _ _ _ _ _ (lv_file _ _ _ _ _ Hlj)) b Hb) as [[H1 H2] Hu].
      split; [apply D3; unfold bm; cbn [i_inum ip1 set_i_lock]; lia|]. apply D2. split; [done|]. intros Ho. by apply (Hap b).
    + intros x Hx. destruct (Z.eq_dec (IBLOCK (i_inum jp) sb) (IBLOCK (i_inum ip) sb)) as [E|E].
      * rewrite E. apply D4. by apply (dinode_apart sb Hlay).
      * refine (f_equal (λ d, d _) (D3 _ _ _)); [unfold bm; lia|done].
Qed.
End discard.
