(* ===== verification/FsCache.v ===== *)
(** * The inode cache (iget, idup, iput, ilock and iunlock of fs.c)

    A client of the cache holds references: pairs of a cache entry and the inode
    it was asked for.  Whatever the clients do, an entry is in use exactly as
    long as it has references, holds the inode they name, and no inode is in two
    entries. *)

From Stdlib Require Import ZArith Lia.
From stdpp Require Import base numbers list gmap strings relations.
From S2P Require Import Prelude Mem Sleeplock Bio Log Blocks Fs FsBlocks FsFile.

(** What names an entry and counts its references. *)
Definition tag (ip : inode) : Z * Z * Z := (i_dev ip, i_inum ip, i_ref ip).

Section cache.
Context {B : Type} `{!BlockOps B}.
Implicit Types s : fstate B.

Definition tags s : list (Z * Z * Z) := tag <$> inodes s.

(** ** Operations that leave the entries' names and counts alone *)

Definition same_tags {A} (m : M (fstate B) A) : Prop :=
  ∀ s a s', m s = Done a s' → tags s' = tags s ∧ ic_lock s' = ic_lock s.

Lemma same_tags_bind {A C} (m : M (fstate B) A) (k : A → M (fstate B) C) : same_tags m → (∀ a, same_tags (k a)) → same_tags (bind m k).
Proof.
  intros Hm Hk s c s' H. apply bind_Done in H as (a & s1 & H1 & H2).
  destruct (Hm _ _ _ H1) as [E1 E2], (Hk a _ _ _ H2) as [E3 E4]. split; congruence.
Qed.

Lemma same_tags_ret {A} (a : A) : same_tags (ret a).
Proof. intros s x s' [= <- <-]. done. Qed.

Lemma same_tags_gets {A} (f : fstate B → A) : same_tags (gets f).
Proof. intros s x s' [= <- <-]. done. Qed.

Lemma same_tags_panic {A} msg : same_tags (panic msg : M (fstate B) A).
Proof. by intros s x s'. Qed.

Lemma same_tags_nofuel {A} : same_tags (nofuel : M (fstate B) A).
Proof. by intros s x s'. Qed.

Lemma same_tags_when b (m : M (fstate B) unit) : same_tags m → same_tags (when b m).
Proof. intros Hm. unfold when. destruct b; [done|apply same_tags_ret]. Qed.

Lemma same_tags_if {A} (b : bool) (m n : M (fstate B) A) : same_tags m → same_tags n → same_tags (if b then m else n).
Proof. by destruct b. Qed.

Lemma same_tags_on_bs {A} (m : M B A) : same_tags (on_bs m).
Proof. intros s a s'. unfold on_bs, lift. destruct (m (f_bs s)); [|done|done|done|done]. by intros [= <- <-]. Qed.

Lemma same_tags_upd i f : (∀ ip, tag (f ip) = tag ip) → same_tags (upd_inode i f : M (fstate B) unit).
Proof.
  intros Hf s a s' [= _ <-]. split; [|done]. unfold tags. cbn. apply list_eq. intros j. rewrite !list_lookup_fmap.
  destruct (decide (j = i)) as [->|]; [|by rewrite list_lookup_alter_ne by congruence].
  rewrite list_lookup_alter_eq. destruct (inodes s !! i); cbn; [by rewrite Hf|done].
Qed.

Lemma same_tags_on_ilock {A} i (m : M slview A) : same_tags (on_ilock i m).
Proof.
  intros s a s'. unfold on_ilock, lift. destruct (m _); [|done|done|done|done]. intros [= <- <-]. split; [|done].
  apply (same_tags_upd i (set_i_lock (sv_lock s0)) (λ _, eq_refl) s tt _ eq_refl).
Qed.
End cache.

Create HintDb keep discriminated.
#[export] Hint Resolve same_tags_bind same_tags_ret same_tags_gets same_tags_panic same_tags_nofuel same_tags_when same_tags_if same_tags_on_bs same_tags_on_ilock : keep.
#[export] Hint Extern 2 (same_tags (upd_inode _ _)) => (apply same_tags_upd; intros; reflexivity) : keep.

Section inner.
Context {B : Type} `{!BlockOps B}.
Implicit Types s : fstate B.

Lemma same_tags_bfree dev b : same_tags (bfree dev b : M (fstate B) unit).
Proof. unfold bfree, fs_bread, b_bytes, b_update, fs_log_write, fs_brelse. eauto 20 with keep. Qed.
#[local] Hint Resolve same_tags_bfree : keep.

Lemma same_tags_iupdate i : same_tags (iupdate i : M (fstate B) unit).
Proof. unfold iupdate, fs_bread, b_update, fs_log_write, fs_brelse. eauto 20 with keep. Qed.
#[local] Hint Resolve same_tags_iupdate : keep.

Lemma same_tags_itrunc_direct k i j : same_tags (itrunc_direct k i j : M (fstate B) unit).
Proof. revert j. induction k as [|k IH]; intros j; cbn [itrunc_direct]; eauto 20 with keep. Qed.

Lemma same_tags_itrunc_indirect k dev bp j : same_tags (itrunc_indirect k dev bp j : M (fstate B) unit).
Proof. revert j. induction k as [|k IH]; intros j; cbn [itrunc_indirect]; unfold b_bytes; eauto 20 with keep. Qed.
#[local] Hint Resolve same_tags_itrunc_direct same_tags_itrunc_indirect : keep.

Lemma same_tags_itrunc i : same_tags (itrunc i : M (fstate B) unit).
Proof. unfold itrunc, fs_bread, fs_brelse. eauto 20 with keep. Qed.

Lemma same_tags_ilock i : same_tags (ilock i : M (fstate B) unit).
Proof. unfold ilock, fs_bread, fs_brelse, b_bytes. eauto 30 with keep. Qed.

Lemma same_tags_iunlock i : same_tags (iunlock i : M (fstate B) unit).
Proof. unfold iunlock. eauto 20 with keep. Qed.
End inner.
#[export] Hint Resolve same_tags_bfree same_tags_iupdate same_tags_itrunc same_tags_ilock same_tags_iunlock : keep.

(** ** References *)

(** A reference: the entry and the inode (device and number) it was taken for. *)
Definition handle : Type := nat * (Z * Z).
Definition refs (i : nat) (H : list handle) : nat := length (List.filter (λ h, h.1 =? i)%nat H).

Lemma refs_pos i H : (0 < refs i H)%nat → ∃ x, (i, x) ∈ H.
Proof.
  induction H as [|[j x] H IH]; cbn; [lia|]. unfold refs. cbn. destruct (Nat.eqb_spec j i) as [->|].
  - intros _. exists x. left.
  - intros Hp. destruct (IH Hp) as [y Hy]. exists y. by right.
Qed.

Lemma refs_cons i j x H : refs i ((j, x) :: H) = ((if (j =? i)%nat then 1 else 0) + refs i H)%nat.
Proof. unfold refs. cbn. by destruct (j =? i)%nat. Qed.

Lemma refs_middle i j x H1 H2 : refs i (H1 ++ (j, x) :: H2) = ((if (j =? i)%nat then 1 else 0) + refs i (H1 ++ H2))%nat.
Proof. unfold refs. rewrite !List.filter_app, !length_app. cbn. destruct (j =? i)%nat; cbn; lia. Qed.

Section refs.
Context {B : Type} `{!BlockOps B}.
Implicit Types s : fstate B.

(** The clients: each operation is used as fs.c asks for, on a reference that is
    held; [iput] gives the reference up. *)
Inductive cache_step : fstate B * list handle → fstate B * list handle → Prop :=
| step_iget s s' H dev inum i : iget dev inum s = Done i s' → cache_step (s, H) (s', (i, (dev, inum)) :: H)
| step_idup s s' H i x j : (i, x) ∈ H → idup i s = Done j s' → cache_step (s, H) (s', (j, x) :: H)
| step_iput s s' H1 H2 i x : iput i s = Done tt s' → cache_step (s, H1 ++ (i, x) :: H2) (s', H1 ++ H2)
| step_ilock s s' H i x : (i, x) ∈ H → ilock i s = Done tt s' → cache_step (s, H) (s', H)
| step_iunlock s s' H i x : (i, x) ∈ H → iunlock i s = Done tt s' → cache_step (s, H) (s', H).

Record cache_inv (sH : fstate B * list handle) : Prop := {
  ci_lock : ic_lock sH.1 = false;
  ci_refs : ∀ i d n r, tags sH.1 !! i = Some (d, n, r) → r = Z.of_nat (refs i sH.2);
  ci_name : ∀ i d n, (i, (d, n)) ∈ sH.2 → ∃ r, tags sH.1 !! i = Some (d, n, r);
  ci_once : ∀ i j x, (i, x) ∈ sH.2 → (j, x) ∈ sH.2 → i = j
}.

(** What the scan of [iget] finds. *)
Lemma iget_scan_spec dev inum l : ∀ i e,
  match iget_scan dev inum i l e with
  | inl k => (i <= k)%nat ∧ ∃ ip, l !! (k - i)%nat = Some ip ∧ i_dev ip = dev ∧ i_inum ip = inum ∧ 0 < i_ref ip
  | inr o => (∀ j ip, l !! j = Some ip → i_dev ip = dev → i_inum ip = inum → i_ref ip <= 0) ∧
      match o with
      | Some k => e = Some k ∨ e = None ∧ (i <= k)%nat ∧ ∃ ip, l !! (k - i)%nat = Some ip ∧ i_ref ip = 0
      | None => e = None ∧ ∀ j ip, l !! j = Some ip → i_ref ip ≠ 0
      end
  end.
Proof.
  induction l as [|ip l IH]; intros i e; cbn [iget_scan].
  { split; [done|]. destruct e as [k|]; [by left|done]. }
  destruct ((i_ref ip >? 0) && (i_dev ip =? dev) && (i_inum ip =? inum)) eqn:E.
  { split; [lia|]. exists ip. rewrite Nat.sub_diag. zb. cbn. split_and!; done || lia. }
  assert (Hne : i_dev ip = dev → i_inum ip = inum → i_ref ip <= 0).
  { intros Hd Hn. rewrite Hd, Hn, !Z.eqb_refl, !andb_true_r in E. rewrite Z.gtb_ltb in E. apply Z.ltb_ge in E. lia. }
  set (e' := match e with None => if i_ref ip =? 0 then Some i else None | Some _ => e end). specialize (IH (S i) e').
  destruct (iget_scan dev inum (S i) l e') as [k|o].
  - destruct IH as [Hk (ip' & Hl & Hr)]. split; [lia|]. exists ip'. replace (k - i)%nat with (S (k - S i)) by lia. done.
  - destruct IH as [H1 H2]. split; [intros [|j] jp; cbn; [by intros [= <-]|apply H1]|]. destruct o as [k|].
    + destruct H2 as [H2|(H2 & Hk & ip' & Hl & Hr)].
      * subst e'. destruct e; [by left|]. destruct (Z.eqb_spec (i_ref ip) 0); [|done]. injection H2 as <-. right.
        split_and!; [done|lia|]. exists ip. by rewrite Nat.sub_diag.
      * subst e'. destruct e; [done|]. right. split_and!; [done|lia|]. exists ip'. by replace (k - i)%nat with (S (k - S i)) by lia.
    + destruct H2 as [H2 H3]. subst e'. destruct e; [done|]. destruct (Z.eqb_spec (i_ref ip) 0); [done|].
      split; [done|]. intros [|j] jp; cbn; [by intros [= <-]|apply H3].
Qed.
Lemma tags_lookup s i ip : inodes s !! i = Some ip → tags s !! i = Some (tag ip).
Proof. intros Hi. unfold tags. by rewrite list_lookup_fmap, Hi. Qed.

Lemma tags_inv s i d n r : tags s !! i = Some (d, n, r) → ∃ ip, inodes s !! i = Some ip ∧ i_dev ip = d ∧ i_inum ip = n ∧ i_ref ip = r.
Proof.
  unfold tags. rewrite list_lookup_fmap. destruct (inodes s !! i) as [ip|]; [|done]. cbn. intros [= <- <- <-]. eauto.
Qed.

Lemma tags_put s i ip : tags (put_inode i ip s) = <[i := tag ip]> (tags s).
Proof. unfold tags, put_inode. cbn. apply list_fmap_insert. Qed.

(** An update of an entry under the cache lock. *)
Lemma locked_upd_run {A} i f (a : A) s ip :
  ic_lock s = false → inodes s !! i = Some ip →
  (upd_inode i f ;;; release ic_lock set_ic_lock ;;; ret a) (set_ic_lock true s) = Done a (set_ic_lock false (put_inode i (f ip) s)).
Proof. intros Hl Hi. by mcall (upd_inode_run i f (set_ic_lock true s) ip Hi). Qed.

Lemma iget_run dev inum s :
  ic_lock s = false →
  match iget dev inum s with
  | Done i s' => ic_lock s' = false ∧ ∃ d n r, tags s !! i = Some (d, n, r) ∧ tags s' = <[i := (dev, inum, r + 1)]> (tags s) ∧
      (0 < r ∧ d = dev ∧ n = inum ∨ r = 0 ∧ ∀ j r', tags s !! j = Some (dev, inum, r') → r' <= 0)
  | Panic _ => ∀ i d n r, tags s !! i = Some (d, n, r) → r ≠ 0
  | _ => False
  end.
Proof.
  intros Hl. unfold iget. mcall (acquire_run ic_lock set_ic_lock s Hl). change (inodes (set_ic_lock true s)) with (inodes s).
  pose proof (iget_scan_spec dev inum (inodes s) 0 None) as Hs. destruct (iget_scan dev inum 0 (inodes s) None) as [k|[k|]].
  - destruct Hs as (_ & ip & Hk & Hd & Hn & Hr). rewrite Nat.sub_0_r in Hk.
    rewrite (locked_upd_run k (λ ip, set_i_ref (i_ref ip + 1) ip) k s ip Hl Hk). split; [done|].
    exists dev, inum, (i_ref ip). split_and!; [rewrite (tags_lookup s k ip Hk); unfold tag; congruence| |by left].
    etrans; [apply (tags_put s)|]. unfold tag. cbn. congruence.
  - destruct Hs as (Hno & [|(_ & _ & ip & Hk & Hr)]); [done|]. rewrite Nat.sub_0_r in Hk.
    rewrite (locked_upd_run k _ k s ip Hl Hk). split; [done|]. exists (i_dev ip), (i_inum ip), 0.
    split_and!; [rewrite (tags_lookup s k ip Hk); unfold tag; congruence|apply (tags_put s)|right].
    split; [done|]. intros j r' Hj. apply tags_inv in Hj as (jp & Hj & Hd & Hn & <-). by apply (Hno j jp).
  - destruct Hs as (_ & _ & Hno). intros i d n r Hi. apply tags_inv in Hi as (ip & Hi & _ & _ & <-). by apply (Hno i ip).
Qed.

Lemma idup_run i s d n r :
  ic_lock s = false → tags s !! i = Some (d, n, r) →
  ∃ s', idup i s = Done i s' ∧ ic_lock s' = false ∧ tags s' = <[i := (d, n, r + 1)]> (tags s).
Proof.
  intros Hl Hi. apply tags_inv in Hi as (ip & Hi & <- & <- & <-). unfold idup. mcall (acquire_run ic_lock set_ic_lock s Hl).
  rewrite (locked_upd_run i _ i s ip Hl Hi). eexists. split_and!; [done|done|apply (tags_put s)].
Qed.

(** Reading under the cache lock. *)
Lemma same_tags_locked_read {A C} (f : fstate B → A) (k : A → M (fstate B) C) :
  (∀ a, same_tags (k a)) → same_tags (acquire ic_lock set_ic_lock ;;; a <- gets f ;; release ic_lock set_ic_lock ;;; k a).
Proof.
  intros Hk s c s' H. apply bind_Done in H as (u & s1 & H1 & H). unfold acquire in H1. destruct (ic_lock s) eqn:El; [done|].
  injection H1 as <- <-. cbn in H. destruct (Hk _ _ _ _ H) as [E1 E2]. cbn in E2. split; [exact E1|done].
Qed.

Lemma iput_tags i s s' d n r :
  ic_lock s = false → tags s !! i = Some (d, n, r) → iput i s = Done tt s' →
  ic_lock s' = false ∧ tags s' = <[i := (d, n, r - 1)]> (tags s).
Proof.
  intros Hl Hi H. unfold iput in H. apply bind_Done in H as (p & s0 & [= <- <-] & H).
  apply bind_Done in H as (u & s1 & H1 & H). apply same_tags_on_ilock in H1 as [T1 L1].
  apply bind_Done in H as (ip & s2 & [= <- <-] & H). apply bind_Done in H as (u' & s3 & H3 & H).
  assert (K3 : tags s3 = tags s1 ∧ ic_lock s3 = ic_lock s1).
  { revert H3. apply same_tags_when, same_tags_locked_read. eauto 20 with keep. }
  destruct K3 as [T3 L3]. apply bind_Done in H as (u'' & s4 & H4 & H). apply same_tags_on_ilock in H4 as [T4 L4].
  assert (Hl4 : ic_lock s4 = false) by congruence. rewrite <- T1, <- T3, <- T4 in Hi |- *.
  rewrite (bind_run _ _ _ _ _ (acquire_run ic_lock set_ic_lock s4 Hl4)) in H. apply tags_inv in Hi as (jp & Hj & <- & <- & <-).
  rewrite (bind_run _ _ _ _ _ (upd_inode_run i _ (set_ic_lock true s4) jp Hj)) in H. rewrite release_run in H by done.
  injection H as <-. split; [done|]. apply (tags_put s4).
Qed.
(** A new reference to an entry that is named so already, or was free. *)
Lemma inv_add s s' H i d n r dev inum :
  cache_inv (s, H) → ic_lock s' = false → tags s !! i = Some (d, n, r) → tags s' = <[i := (dev, inum, r + 1)]> (tags s) →
  (0 < r ∧ d = dev ∧ n = inum ∨ r = 0 ∧ ∀ j r', tags s !! j = Some (dev, inum, r') → r' <= 0) →
  cache_inv (s', (i, (dev, inum)) :: H).
Proof.
  intros [Hl Hr Hn Ho] Hl' Hi Ht Hc. cbn [fst snd] in *. pose proof (lookup_lt_Some _ _ _ Hi) as Hlt.
  assert (Href : r = Z.of_nat (refs i H)) by eauto.
  assert (Hsame : ∀ x, (i, x) ∈ H → x = (dev, inum) ∧ d = dev ∧ n = inum).
  { intros [d' n'] Hx. destruct (Hn _ _ _ Hx) as [r' Hx']. rewrite Hi in Hx'. injection Hx' as -> -> ->.
    destruct Hc as [(_ & -> & ->)|[-> _]]; [done|]. exfalso. apply list_elem_of_split in Hx as (H1 & H2 & ->).
    rewrite refs_middle, Nat.eqb_refl in Href. lia. }
  assert (Helse : ∀ j, (j, (dev, inum)) ∈ H → j = i).
  { intros j Hj. destruct (Hn _ _ _ Hj) as [r' Hj']. destruct Hc as [(Hp & -> & ->)|[-> Hno]].
    - destruct (refs_pos i H ltac:(lia)) as [y Hy]. destruct (Hsame y Hy) as [-> _]. by eapply Ho.
    - specialize (Hno _ _ Hj'). pose proof (Hr _ _ _ _ Hj') as Hr'. apply list_elem_of_split in Hj as (H1 & H2 & ->).
      rewrite refs_middle, Nat.eqb_refl in Hr'. lia. }
  split; cbn [fst snd]; [done|..].
  - intros j d' n' r' Hj. rewrite Ht in Hj. rewrite refs_cons. destruct (Nat.eqb_spec i j) as [<-|Hij].
    + rewrite list_lookup_insert_eq in Hj by done. injection Hj as <- <- <-. lia.
    + rewrite list_lookup_insert_ne in Hj by done. by apply Hr in Hj.
  - intros j d' n' Hj. rewrite Ht. destruct (decide (i = j)) as [<-|Hij].
    + rewrite list_lookup_insert_eq by done. apply elem_of_cons in Hj as [[= -> ->]|Hj]; [eauto|].
      destruct (Hsame _ Hj) as [[= -> ->] _]. eauto.
    + rewrite list_lookup_insert_ne by done. apply Hn. by apply elem_of_cons in Hj as [[= -> -> ->]|Hj].
  - intros j k x Hj Hk. apply elem_of_cons in Hj as [[= -> ->]|Hj].
    + apply elem_of_cons in Hk as [[= ->]|Hk]; [done|]. symmetry. by apply Helse.
    + apply elem_of_cons in Hk as [[= -> ->]|Hk]; [by apply Helse|by eapply Ho].
Qed.

Lemma inv_drop s s' H1 H2 i x d n r :
  cache_inv (s, H1 ++ (i, x) :: H2) → ic_lock s' = false → tags s !! i = Some (d, n, r) → tags s' = <[i := (d, n, r - 1)]> (tags s) →
  cache_inv (s', H1 ++ H2).
Proof.
  intros [Hl Hr Hn Ho] Hl' Hi Ht. cbn [fst snd] in *. pose proof (lookup_lt_Some _ _ _ Hi) as Hlt.
  assert (Hsub : ∀ h : handle, h ∈ H1 ++ H2 → h ∈ H1 ++ (i, x) :: H2) by (intros h; rewrite !elem_of_app, elem_of_cons; naive_solver).
  split; cbn [fst snd]; [done|..].
  - intros j d' n' r' Hj. rewrite Ht in Hj. destruct (decide (i = j)) as [<-|Hij].
    + rewrite list_lookup_insert_eq in Hj by done. injection Hj as <- <- <-. apply Hr in Hi. rewrite refs_middle, Nat.eqb_refl in Hi. lia.
    + rewrite list_lookup_insert_ne in Hj by done. apply Hr in Hj. rewrite refs_middle in Hj. apply Nat.eqb_neq in Hij. by rewrite Hij in Hj.
  - intros j d' n' Hj%Hsub. rewrite Ht. destruct (Hn _ _ _ Hj) as [r' Hj']. destruct (decide (i = j)) as [<-|Hij].
    + rewrite list_lookup_insert_eq by done. rewrite Hi in Hj'. injection Hj' as -> -> ->. eauto.
    + rewrite list_lookup_insert_ne by done. eauto.
  - intros j k y Hj%Hsub Hk%Hsub. by eapply Ho.
Qed.

Lemma inv_keep s s' H : cache_inv (s, H) → tags s' = tags s ∧ ic_lock s' = ic_lock s → cache_inv (s', H).
Proof. intros [Hl Hr Hn Ho] [Ht Hc]. cbn [fst snd] in *. split; cbn [fst snd]; rewrite ?Ht; congruence || done. Qed.

Lemma cache_step_inv sH sH' : cache_inv sH → cache_step sH sH' → cache_inv sH'.
Proof.
  intros Hi Hs. destruct Hs as [s s' H dev inum i R|s s' H i [d n] j Hin R|s s' H1 H2 i [d n] R|s s' H i x Hin R|s s' H i x Hin R].
  - pose proof (iget_run dev inum s (ci_lock _ Hi)) as Hg. rewrite R in Hg. destruct Hg as (Hl & d & n & r & Ht & Ht' & Hc).
    by eapply inv_add.
  - destruct (ci_name _ Hi _ _ _ Hin) as [r Ht]. destruct (idup_run i s d n r (ci_lock _ Hi) Ht) as (s1 & R1 & Hl & Ht').
    rewrite R in R1. injection R1 as -> ->. eapply inv_add; [done|done|exact Ht|done|]. left. split_and!; [|done|done].
    apply (ci_refs _ Hi) in Ht. cbn [fst snd] in Ht. apply list_elem_of_split in Hin as (H1 & H2 & ->). rewrite refs_middle, Nat.eqb_refl in Ht. lia.
  - destruct (ci_name _ Hi i d n) as [r Ht]; [apply elem_of_app; right; left|].
    destruct (iput_tags i s s' d n r (ci_lock _ Hi) Ht R) as [Hl Ht']. by eapply inv_drop.
  - eapply inv_keep; [done|]. by eapply same_tags_ilock.
  - eapply inv_keep; [done|]. by eapply same_tags_iunlock.
Qed.

(** C17 In every state that clients of the inode cache reach with [iget], [idup],
    [iput], [ilock] and [iunlock] from an empty cache: the count of an entry is
    the number of references to it, the entry of a reference holds the inode the
    reference was taken for, an inode is in one entry only, and [iget] succeeds
    as long as some entry has no reference. *)
Theorem icache_references s s' H :
  ic_lock s = false → (∀ i ip, inodes s !! i = Some ip → i_ref ip = 0) → rtc cache_step (s, []) (s', H) →
  (∀ i ip, inodes s' !! i = Some ip → i_ref ip = Z.of_nat (refs i H)) ∧
  (∀ i d n, (i, (d, n)) ∈ H → i_dev (the_inode i s') = d ∧ i_inum (the_inode i s') = n) ∧
  (∀ i j x, (i, x) ∈ H → (j, x) ∈ H → i = j) ∧
  (∀ dev inum i, (i < length (inodes s'))%nat → refs i H = 0%nat → ∃ j s'', iget dev inum s' = Done j s'').
Proof.
  intros Hl Hz Hr. assert (Hi : cache_inv (s', H)).
  { assert (Hp : ∀ x y, rtc cache_step x y → cache_inv x → cache_inv y) by (induction 1; eauto using cache_step_inv).
    eapply Hp; [exact Hr|]. split; cbn; [done| |by intros ??? ?%elem_of_nil|by intros ??? ?%elem_of_nil].
    intros i d n r Ht. apply tags_inv in Ht as (ip & Hip & _ & _ & <-). by eapply Hz. }
  split_and!.
  - intros i ip Hip. by apply (ci_refs _ Hi i (i_dev ip) (i_inum ip)), tags_lookup.
  - intros i d n Hh. destruct (ci_name _ Hi _ _ _ Hh) as [r Ht]. apply tags_inv in Ht as (ip & Hip & <- & <- & _).
    by rewrite (the_inode_lookup i s' ip Hip).
  - apply (ci_once _ Hi).
  - intros dev inum i Hlt H0. pose proof (iget_run dev inum s' (ci_lock _ Hi)) as Hg.
    destruct (iget dev inum s') as [j s''|msg| | |]; [eauto| |done|done|done]. exfalso.
    destruct (lookup_lt_is_Some_2 _ _ Hlt) as [ip Hip]. apply (Hg i _ _ _ (tags_lookup _ _ _ Hip)).
    rewrite (ci_refs _ Hi i _ _ _ (tags_lookup _ _ _ Hip)). cbn [fst snd]. lia.
Qed.
End refs.
