(* ===== verification/Mkfs.v ===== *)
(** * Building a file system image (mkfs.c)

    The program that makes the disk image on the host, an Intel machine.  The
    image file is its blocks and its length in blocks; reading a block at or
    behind the end fails.  The global variables [freeinode] and [freeblock] are
    fields.  A [struct dinode] is the part of the record [inode] that is on the
    disk.  [exit(1)] and a failed assertion are panics.  A host file is its name
    and the pieces that read returns, or only its name when it can not be
    opened.  The messages on the terminal are left out. *)

From Stdlib Require Import ZArith Lia String.
From stdpp Require Import base numbers list.
From S2P Require Import Prelude Mem Bio Log Fs.

Definition NINODES : Z := 200.

Definition nbitmap : Z := FSSIZE / (BSIZE * 8) + 1.
Definition ninodeblocks : Z := NINODES / IPB + 1.
Definition nlog : Z := LOGSIZE.
Definition nmeta : Z := 2 + nlog + ninodeblocks + nbitmap.
Definition nblocks : Z := FSSIZE - nmeta.

(** Conversion to Intel byte order: the bytes of the result in memory are the
    digits of the argument. *)
Definition xshort (x : Z) : Z := u8 x + 256 * u8 (Z.shiftr x 8).
Definition xint (x : Z) : Z :=
  u8 x + 256 * u8 (Z.shiftr x 8) + 65536 * u8 (Z.shiftr x 16) + 16777216 * u8 (Z.shiftr x 24).

(** The static [sb], as main fills it. *)
Definition mk_sb : superblock :=
  Superblock (xint FSSIZE) (xint nblocks) (xint NINODES) (xint nlog) (xint 2) (xint (2 + nlog)) (xint (2 + nlog + ninodeblocks)).

Record mkstate : Type := MkState {
  img : Z → blk;
  img_len : Z;
  freeinode : Z;
  freeblock : Z
}.

Definition zeroes : blk := λ _, 0.

Definition set_img v n (s : mkstate) := MkState v n (freeinode s) (freeblock s).
Definition set_freeinode n (s : mkstate) := MkState (img s) (img_len s) n (freeblock s).
Definition set_freeblock n (s : mkstate) := MkState (img s) (img_len s) (freeinode s) n.

Definition wsect (sec : Z) (buf : blk) : M mkstate unit :=
  modify (λ s, set_img (λ b, if b =? sec then buf else img s b) (Z.max (img_len s) (sec + 1)) s).

Definition rsect (sec : Z) : M mkstate blk := λ s,
  if sec <? img_len s then Done (img s sec) s else Panic "read".

Definition winode (inum : Z) (ip : inode) : M mkstate unit :=
  let bn := IBLOCK inum mk_sb in
  buf <- rsect bn ;;
  wsect bn (dinode_store ip (dinode_off inum) buf).

Definition rinode (inum : Z) : M mkstate inode :=
  let bn := IBLOCK inum mk_sb in
  buf <- rsect bn ;;
  ret (dinode_load buf (dinode_off inum) inode0).

(** [freeinode++] and [freeblock++]. *)
Definition next_inode : M mkstate Z :=
  n <- gets freeinode ;;
  modify (set_freeinode (u32 (n + 1))) ;;;
  ret n.
Definition next_block : M mkstate Z :=
  n <- gets freeblock ;;
  modify (set_freeblock (u32 (n + 1))) ;;;
  ret n.

Definition mk_ialloc (type : Z) : M mkstate Z :=
  inum <- next_inode ;;
  winode inum (set_i_size (xint 0) (set_i_nlink (xshort 1) (set_i_type (xshort type) inode0))) ;;;
  ret inum.

(** The loop of [balloc] from [i] on, [n] times. *)
Fixpoint mk_balloc_loop (n : nat) (i : Z) (buf : blk) : blk :=
  match n with
  | O => buf
  | S n' => mk_balloc_loop n' (i + 1) (store8 buf (i / 8) (Z.lor (buf (i / 8)) (Z.shiftl 1 (i mod 8))))
  end.
Definition mk_balloc (used : Z) : M mkstate unit :=
  if negb (used <? BSIZE * 8) then panic "assert"
  else wsect (sb_bmapstart mk_sb) (mk_balloc_loop (Z.to_nat used) 0 zeroes).

(** [bcopy] of bytes to offset [o] of a block. *)
Definition put_bytes (buf : blk) (o : Z) (l : list Z) : blk := λ x,
  if (o <=? x) && (x <? o + Z.of_nat (length l)) then nth (Z.to_nat (x - o)) l 0 else buf x.

(** The block of the file for the part [fbn], allocated if needed: the inode
    and the block number. *)
Definition iappend_block (din : inode) (fbn : Z) : M mkstate (inode * Z) :=
  if fbn <? NDIRECT then
    din <- (if xint (addr_at fbn din) =? 0 then b <- next_block ;; ret (set_addr fbn (xint b) din) else ret din) ;;
    ret (din, xint (addr_at fbn din))
  else
    din <- (if xint (addr_at NDIRECT din) =? 0 then b <- next_block ;; ret (set_addr NDIRECT (xint b) din) else ret din) ;;
    indirect <- rsect (xint (addr_at NDIRECT din)) ;;
    indirect <- (if load32 indirect (4 * (fbn - NDIRECT)) =? 0 then
                   b <- next_block ;;
                   let indirect := store32 indirect (4 * (fbn - NDIRECT)) (xint b) in
                   wsect (xint (addr_at NDIRECT din)) indirect ;;;
                   ret indirect
                 else ret indirect) ;;
    ret (din, xint (load32 indirect (4 * (fbn - NDIRECT)))).

(** The loop of [iappend] over the bytes left; each round writes at least one. *)
Fixpoint iappend_loop (fuel : nat) (din : inode) (off : Z) (p : list Z) : M mkstate (inode * Z) :=
  match fuel with
  | O => nofuel
  | S fuel' =>
      if negb (Z.of_nat (length p) >? 0) then ret (din, off)
      else
        let fbn := off / BSIZE in
        if negb (fbn <? MAXFILE) then panic "assert"
        else
          r <- iappend_block din fbn ;;
          let '(din, x) := r in
          let n1 := Z.min (Z.of_nat (length p)) (u32 ((fbn + 1) * BSIZE - off)) in
          buf <- rsect x ;;
          wsect x (put_bytes buf (off - fbn * BSIZE) (take (Z.to_nat n1) p)) ;;;
          iappend_loop fuel' din (u32 (off + n1)) (drop (Z.to_nat n1) p)
  end.

Definition iappend (inum : Z) (p : list Z) : M mkstate unit :=
  din <- rinode inum ;;
  let off := xint (i_size din) in
  r <- iappend_loop (S (length p)) din off p ;;
  let '(din, off) := r in
  winode inum (set_i_size (xint off) din).

(** A [struct dirent] with a name that [strncpy] copies. *)
Definition dirent_bytes (inum : Z) (name : list Z) : list Z :=
  let n := take (Z.to_nat DIRSIZ) name in
  [u8 (xshort inum); u8 (Z.shiftr (xshort inum) 8)] ++ n ++ replicate (Z.to_nat DIRSIZ - length n) 0.

Fixpoint append_all (inum : Z) (pieces : list (list Z)) : M mkstate unit :=
  match pieces with
  | [] => ret tt
  | p :: pieces' => iappend inum p ;;; append_all inum pieces'
  end.

(** One argument of the command: the loop body of main. *)
Definition add_file (rootino : Z) (f : list Z * option (list (list Z))) : M mkstate unit :=
  let '(arg, file) := f in
  if bool_decide (47 ∈ arg) then panic "assert"
  else
    match file with
    | None => panic "open"
    | Some pieces =>
        let name := match arg with c :: arg' => if c =? 95 then arg' else arg | [] => [] end in
        inum <- mk_ialloc T_FILE ;;
        iappend rootino (dirent_bytes inum name) ;;;
        append_all inum pieces
    end.

Fixpoint add_files (rootino : Z) (fs : list (list Z * option (list (list Z)))) : M mkstate unit :=
  match fs with
  | [] => ret tt
  | f :: fs' => add_file rootino f ;;; add_files rootino fs'
  end.

Fixpoint clear_blocks (n : nat) (i : Z) : M mkstate unit :=
  match n with
  | O => ret tt
  | S n' => wsect i zeroes ;;; clear_blocks n' (i + 1)
  end.

(** The block with the superblock. *)
Definition sb_block : blk :=
  store_words zeroes 0 [sb_size mk_sb; sb_nblocks mk_sb; sb_ninodes mk_sb; sb_nlog mk_sb; sb_logstart mk_sb; sb_inodestart mk_sb; sb_bmapstart mk_sb].

(** main, after the image file has been opened and truncated. *)
Definition mkfs_main (fs : list (list Z * option (list (list Z)))) : M mkstate unit :=
  modify (set_freeblock nmeta) ;;;
  clear_blocks (Z.to_nat FSSIZE) 0 ;;;
  wsect 1 sb_block ;;;
  rootino <- mk_ialloc T_DIR ;;
  if negb (rootino =? ROOTINO) then panic "assert"
  else
    iappend rootino (dirent_bytes rootino [46]) ;;;
    iappend rootino (dirent_bytes rootino [46; 46]) ;;;
    add_files rootino fs ;;;
    din <- rinode rootino ;;
    let off := (xint (i_size din) / BSIZE + 1) * BSIZE in
    winode rootino (set_i_size (xint off) din) ;;;
    n <- gets freeblock ;;
    mk_balloc n.

(** The image file is empty at first. *)
Definition mkstate0 : mkstate := MkState (λ _, zeroes) 0 1 0.
