(* ===== verification/MkfsFacts.v ===== *)
(** * Files in an image under construction

    What [iappend] keeps of a file: its bytes, blocks it owns alone, nothing
    behind its last block.  [nf] is the next free block. *)

From Stdlib Require Import ZArith Lia.
From stdpp Require Import base numbers list.
From S2P Require Import Prelude Mem Sleeplock Bio Log Blocks Fs FsBlocks FsFile FsData FsInode Mkfs.

Lemma xint_id x : is_u32 x → xint x = x.
Proof.
  unfold is_u32, xint, u8. intros. rewrite !Z.shiftr_div_pow2 by lia. change (2 ^ 8) with 256. change (2 ^ 16) with 65536. change (2 ^ 24) with 16777216. zlia.
Qed.

Lemma xshort_u16 x : xshort x = u16 x.
Proof. unfold xshort, u8, u16. rewrite Z.shiftr_div_pow2 by lia. change (2 ^ 8) with 256. zlia. Qed.

(** ** A file *)

(** The block in place [k] of the file; place 140 is the indirect block. *)
Definition slot (v : Z → blk) (addrs : list Z) (k : Z) : Z := if k =? 140 then nth 12 addrs 0 else file_map v addrs k.
Definition owned (v : Z → blk) (addrs : list Z) (b : Z) : Prop := b ≠ 0 ∧ ∃ k, 0 <= k <= 140 ∧ slot v addrs k = b.

(** The blocks of the data [d], and all blocks with [nb] data blocks. *)
Definition nbl (d : list Z) : Z := (Z.of_nat (length d) + 511) / 512.
Definition blocks_for (nb : Z) : Z := if 12 <? nb then nb + 1 else nb.

Record filed (nf : Z) (v : Z → blk) (addrs d : list Z) (nb : Z) : Prop := {
  fd_len : length addrs = 13%nat;
  fd_u32 : Forall is_u32 addrs;
  fd_nb : 0 <= nb <= 140;
  fd_size : Z.of_nat (length d) <= 512 * nb;
  fd_byte : ∀ off, 0 <= off < 71680 → file_byte v addrs off = nth (Z.to_nat off) d 0;
  fd_map : ∀ bn, 0 <= bn < 140 → if bn <? nb then nmeta <= file_map v addrs bn < nf else file_map v addrs bn = 0;
  fd_ind : if 12 <? nb then nmeta <= nth 12 addrs 0 < nf else nth 12 addrs 0 = 0;
  fd_inj : ∀ k k', 0 <= k <= 140 → 0 <= k' <= 140 → slot v addrs k = slot v addrs k' → slot v addrs k ≠ 0 → k = k'
}.

Lemma nmeta_eq : nmeta = 59. Proof. done. Qed.

Lemma slot_map v addrs k : k < 140 → slot v addrs k = file_map v addrs k.
Proof. intros. unfold slot. by ztest (k =? 140) is false. Qed.
Lemma slot_ind v addrs : slot v addrs 140 = nth 12 addrs 0.
Proof. done. Qed.

(** What a file owns is below [nf]. *)
Lemma filed_owned nf v addrs d nb b : filed nf v addrs d nb → owned v addrs b → nmeta <= b < nf.
Proof.
  intros [] (Hb & k & Hk & Hs). destruct (decide (k = 140)) as [->|].
  - rewrite slot_ind in Hs. destruct (12 <? nb); lia.
  - rewrite slot_map in Hs by lia. specialize (fd_map0 k ltac:(lia)). destruct (k <? nb); lia.
Qed.

Lemma nth_beyond (d : list Z) k : (length d <= k)%nat → nth k d 0 = 0.
Proof. intros. by apply nth_overflow. Qed.

(** A block added at place [nb]. *)
Lemma filed_add nf v addrs d nb nf' v' addrs' a :
  filed nf v addrs d nb → nb < 140 → nmeta <= nf → nf <= a < nf' → length addrs' = 13%nat → Forall is_u32 addrs' →
  (∀ bn, 0 <= bn < 140 → file_map v' addrs' bn = if bn =? nb then a else file_map v addrs bn) →
  (nth 12 addrs' 0 = nth 12 addrs 0 ∧ nb ≠ 12) ∨ (nb = 12 ∧ nf <= nth 12 addrs' 0 < nf' ∧ nth 12 addrs' 0 ≠ a) →
  (∀ bn x, 0 <= bn < nb → 0 <= x < 512 → v' (file_map v addrs bn) x = v (file_map v addrs bn) x) →
  (∀ x, 0 <= x < 512 → v' a x = 0) →
  filed nf' v' addrs' d (nb + 1) ∧ (∀ b, owned v' addrs' b → owned v addrs b ∨ nf <= b < nf') ∧
  (∀ b, owned v addrs b ∨ b = a ∨ b = nth 12 addrs' 0 ∧ b ≠ 0 → owned v' addrs' b).
Proof.
  intros Hf Hnb Hm Ha Hl Hu Hmap Hind Hkeep Hz. pose proof Hf as [L1 L2 L3 L4 L5 L6 L7 L8]. rewrite nmeta_eq in *.
  assert (Hs : ∀ k, 0 <= k <= 140 → slot v' addrs' k = slot v addrs k ∧ k ≠ nb ∨ k = nb ∧ slot v' addrs' k = a ∨ k = 140 ∧ nb = 12 ∧ nf <= slot v' addrs' k < nf' ∧ slot v' addrs' k ≠ a).
  { intros k Hk. destruct (decide (k = 140)) as [->|].
    - rewrite !slot_ind. destruct Hind as [[-> _]|(-> & ? & ?)]; [left; split; [done|lia]|right; right; done].
    - rewrite !slot_map, Hmap by lia. destruct (Z.eqb_spec k nb); [right; left; done|left; done]. }
  assert (Hlow : ∀ k, 0 <= k <= 140 → slot v addrs k < nf).
  { intros k Hk. destruct (decide (slot v addrs k = 0)) as [->|]; [lia|]. eapply (filed_owned nf v addrs d nb); [done|]. split; [done|]. by exists k. }
  split; [split; try done; try lia|split].
  - intros off Hoff. unfold file_byte. change BSIZE with 512. assert (Hq : 0 <= off / 512 < 140) by zlia.
    assert (Hmod : 0 <= off mod 512 < 512) by zlia. rewrite Hmap by done. rewrite <- L5 by done. unfold file_byte. change BSIZE with 512.
    destruct (Z.eqb_spec (off / 512) nb) as [E|E].
    + ztest (a =? 0) is false. rewrite Hz by done. specialize (L6 _ Hq). rewrite E, Z.ltb_irrefl in L6. by rewrite E, L6.
    + specialize (L6 _ Hq). destruct (Z.ltb_spec (off / 512) nb); [|by rewrite L6]. by rewrite Hkeep by lia.
  - intros bn Hbn. rewrite nmeta_eq, Hmap by done. specialize (L6 bn Hbn). destruct (Z.eqb_spec bn nb) as [->|].
    + ztest (nb <? nb + 1) is true. lia.
    + destruct (Z.ltb_spec bn nb), (Z.ltb_spec bn (nb + 1)); lia.
  - rewrite nmeta_eq. destruct Hind as [[E Hn]|(-> & ? & ?)].
    + rewrite E. destruct (Z.ltb_spec 12 nb), (Z.ltb_spec 12 (nb + 1)); lia.
    + ztest (12 <? 12 + 1) is true. lia.
  - intros k k' Hk Hk' He Hne. pose proof (Hlow k Hk). pose proof (Hlow k' Hk').
    destruct (Hs k Hk) as [[E1 ?]|[[-> E1]|(-> & ? & E1 & ?)]], (Hs k' Hk') as [[E2 ?]|[[-> E2]|(-> & ? & E2 & ?)]]; try lia.
    apply L8; try done; congruence.
  - intros b (Hb & k & Hk & E). destruct (Hs k Hk) as [[E1 ?]|[[-> E1]|(-> & ? & E1 & ?)]]; [left|right; lia|right; lia].
    split; [done|]. exists k. split; [done|congruence].
  - intros b [(Hb & k & Hk & E)|[->|[-> Hn]]]; [|split; [lia|]; exists nb; split; [lia|]; rewrite slot_map, Hmap by lia; by rewrite Z.eqb_refl|split; [done|]; by exists 140].
    split; [done|]. exists k. split; [done|]. destruct (Hs k Hk) as [[E1 ?]|[[-> E1]|(-> & -> & E1 & ?)]]; [congruence| |].
    + rewrite slot_map in E by lia. specialize (L6 nb ltac:(lia)). rewrite Z.ltb_irrefl in L6. congruence.
    + rewrite slot_ind in E. cbn in L7. congruence.
Qed.

(** ** The block of a part *)

Lemma rsect_run sec s : sec < img_len s → rsect sec s = Done (img s sec) s.
Proof. intros H. unfold rsect. by rewrite (proj2 (Z.ltb_lt _ _) H). Qed.

Lemma wsect_run sec d s : sec < img_len s → wsect sec d s = Done tt (set_img (set_block sec d (img s)) (img_len s) s).
Proof. intros H. unfold wsect, modify. by rewrite Z.max_l by lia. Qed.

Lemma next_block_run s : 0 <= freeblock s < 1000 → next_block s = Done (freeblock s) (set_freeblock (freeblock s + 1) s).
Proof. intros H. unfold next_block. mrun. by rewrite u32_small by lia. Qed.

Lemma set_i_addrs_id din : set_i_addrs (i_addrs din) din = din.
Proof. by destruct din. Qed.

Lemma addr_map v din k : k < 12 → addr_at k din = file_map v (i_addrs din) k.
Proof. intros. unfold addr_at, file_map. change NDIRECT with 12. by ztest (k <? 12) is true. Qed.

Lemma map_ind v addrs k : 12 <= k → nth 12 addrs 0 ≠ 0 → file_map v addrs k = load32 (v (nth 12 addrs 0)) (4 * (k - 12)).
Proof. intros Hk Hn. unfold file_map. change NDIRECT with 12. ztest (k <? 12) is false. by ztest (nth 12 addrs 0 =? 0) is false. Qed.

(** The blocks from [nf] on are zero. *)
Definition clean (nf : Z) (v : Z → blk) : Prop := ∀ b x, nf <= b < 1000 → 0 <= x < 512 → v b x = 0.

Lemma is_u32_block b : 0 <= b < 1000 → is_u32 b.
Proof. unfold is_u32. lia. Qed.

(** The image with more blocks for a file: nothing else that was in use and no
    block still free changes. *)
Record block_step (nf : Z) (v : Z → blk) (addrs d : list Z) (nb : Z) (nf1 : Z) (v1 : Z → blk) (a1 : list Z) (nb1 : Z) : Prop := {
  bk_filed : filed nf1 v1 a1 d nb1;
  bk_owned : ∀ b, owned v1 a1 b → owned v addrs b ∨ nf <= b < nf1;
  bk_frame : ∀ b, ¬ owned v addrs b → b < nf ∨ nf1 <= b → v1 b = v b;
  bk_bytes : (∀ b, mem_ok (v b)) → ∀ b, mem_ok (v1 b);
  bk_has : ∀ b, owned v addrs b ∨ nf <= b < nf1 → owned v1 a1 b
}.

Lemma block_step_refl nf v addrs d nb : filed nf v addrs d nb → block_step nf v addrs d nb nf v addrs nb.
Proof. intros Hf. split; auto. intros b [?|?]; [done|lia]. Qed.

Lemma add_direct nf v addrs d nb :
  filed nf v addrs d nb → 0 <= nb < 12 → nmeta <= nf < 1000 → clean nf v →
  block_step nf v addrs d nb (nf + 1) v (<[Z.to_nat nb := nf]> addrs) (nb + 1).
Proof.
  intros Hf Hnb Hnf Hc. pose proof (fd_len _ _ _ _ _ Hf) as Hl. rewrite nmeta_eq in Hnf.
  destruct (filed_add nf v addrs d nb (nf + 1) v (<[Z.to_nat nb := nf]> addrs) nf) as (H1 & H2 & H3); try done; try (rewrite ?nmeta_eq; lia).
  - by rewrite length_insert.
  - apply Forall_insert; [apply Hf|apply is_u32_block; lia].
  - intros bn Hbn. unfold file_map. change NDIRECT with 12. rewrite !nth_insert by lia.
    rewrite (decide_False (P := 12%nat = Z.to_nat nb)) by lia. destruct (Z.eqb_spec bn nb) as [->|Hne].
    + ztest (nb <? 12) is true. by rewrite decide_True.
    + destruct (Z.ltb_spec bn 12); [|done]. by rewrite decide_False by lia.
  - left. rewrite nth_insert, decide_False by lia. split; [done|lia].
  - intros x Hx. apply Hc; lia.
  - split; auto. intros b [?|?]; apply H3; [by left|right; left; lia].
Qed.

Lemma add_entry_block nf v addrs d nb :
  filed nf v addrs d nb → 12 < nb < 140 → nmeta <= nf < 1000 → clean nf v →
  let i := nth 12 addrs 0 in
  block_step nf v addrs d nb (nf + 1) (set_block i (store32 (v i) (4 * (nb - 12)) nf) v) addrs (nb + 1).
Proof.
  cbn zeta. intros Hf Hnb Hnf Hc. pose proof Hf as [L1 L2 L3 L4 L5 L6 L7 L8]. rewrite nmeta_eq in *.
  rewrite (proj2 (Z.ltb_lt 12 nb)) in L7 by lia. set (i := nth 12 addrs 0) in *.
  assert (Hni : ∀ bn, 0 <= bn < 140 → file_map v addrs bn ≠ 0 → file_map v addrs bn ≠ i).
  { intros bn Hbn Hn E. specialize (L8 bn 140 ltac:(lia) ltac:(lia)). rewrite slot_map, slot_ind in L8 by lia. specialize (L8 E Hn). lia. }
  assert (Hoi : owned v addrs i) by (split; [lia|exists 140; split; [lia|done]]).
  destruct (filed_add nf v addrs d nb (nf + 1) (set_block i (store32 (v i) (4 * (nb - 12)) nf) v) addrs nf) as (H1 & H2 & H3); try done; try (rewrite ?nmeta_eq; lia).
  - intros bn Hbn. destruct (decide (bn < 12)) as [Hlt|Hge].
    + ztest (bn =? nb) is false. unfold file_map. change NDIRECT with 12. by ztest (bn <? 12) is true.
    + rewrite !map_ind by (fold i; lia). fold i. unfold set_block. rewrite Z.eqb_refl. destruct (Z.eqb_spec bn nb) as [->|Hne].
      * apply load32_store32_eq. lia.
      * apply load32_store32_ne. lia.
  - intros bn x Hbn Hx. specialize (L6 bn ltac:(lia)). rewrite (proj2 (Z.ltb_lt bn nb)) in L6 by lia. unfold set_block.
    pose proof (Hni bn ltac:(lia) ltac:(lia)). by ztest (file_map v addrs bn =? i) is false.
  - intros x Hx. unfold set_block. ztest (nf =? i) is false. apply Hc; lia.
  - split; try done.
    + intros b Hb _. unfold set_block. destruct (Z.eqb_spec b i) as [->|]; done.
    + intros Hm b. unfold set_block. case_if; [apply mem_ok_store32, Hm|apply Hm].
    + intros b [?|?]; apply H3; [by left|right; left; lia].
Qed.

Lemma add_indirect nf v addrs d :
  filed nf v addrs d 12 → nmeta <= nf → nf + 1 < 1000 → clean nf v →
  block_step nf v addrs d 12 (nf + 2) (set_block nf (store32 (v nf) 0 (nf + 1)) v) (<[12%nat := nf]> addrs) 13.
Proof.
  intros Hf Hnf Hnf2 Hc. pose proof Hf as [L1 L2 L3 L4 L5 L6 L7 L8]. rewrite nmeta_eq in *. cbn in L7.
  assert (Hi : nth 12 (<[12%nat:=nf]> addrs) 0 = nf) by (rewrite nth_insert by lia; done).
  destruct (filed_add nf v addrs d 12 (nf + 2) (set_block nf (store32 (v nf) 0 (nf + 1)) v) (<[12%nat := nf]> addrs) (nf + 1)) as (H1 & H2 & H3); try done; try (rewrite ?nmeta_eq; lia).
  - by rewrite length_insert.
  - apply Forall_insert; [done|apply is_u32_block; lia].
  - intros bn Hbn. destruct (decide (bn < 12)) as [Hlt|Hge].
    + ztest (bn =? 12) is false. unfold file_map. change NDIRECT with 12. ztest (bn <? 12) is true. rewrite nth_insert, decide_False by lia. done.
    + rewrite map_ind by lia. rewrite Hi. unfold set_block. rewrite Z.eqb_refl. destruct (Z.eqb_spec bn 12) as [->|Hne].
      * apply load32_store32_eq. lia.
      * rewrite load32_store32_ne by lia. specialize (L6 bn Hbn). rewrite (proj2 (Z.ltb_ge bn 12)) in L6 by lia. rewrite L6.
        unfold load32. rewrite !Hc by lia. done.
  - intros bn x Hbn Hx. specialize (L6 bn ltac:(lia)). rewrite (proj2 (Z.ltb_lt bn 12)) in L6 by lia. unfold set_block.
    by ztest (file_map v addrs bn =? nf) is false.
  - intros x Hx. unfold set_block. ztest (nf + 1 =? nf) is false. apply Hc; lia.
  - split; try done.
    + intros b Hb Hor. unfold set_block. by ztest (b =? nf) is false.
    + intros Hm b. unfold set_block. case_if; [apply mem_ok_store32, Hm|apply Hm].
    + intros b [?|?]; apply H3; [by left|]. destruct (decide (b = nf)) as [->|]; [right; right; rewrite Hi; lia|right; left; lia].
Qed.

Definition mk_next (s : mkstate) (v1 : Z → blk) (nf1 : Z) : mkstate := MkState v1 (img_len s) (freeinode s) nf1.

Lemma iappend_block_old s din d nb :
  filed (freeblock s) (img s) (i_addrs din) d nb → 0 < nb → freeblock s <= img_len s <= 1000 →
  iappend_block din (nb - 1) s = Done (din, file_map (img s) (i_addrs din) (nb - 1)) s.
Proof.
  intros Hf Hnb Hlen. pose proof Hf as [L1 L2 L3 L4 L5 L6 L7 L8]. rewrite nmeta_eq in *.
  specialize (L6 (nb - 1) ltac:(lia)). rewrite (proj2 (Z.ltb_lt (nb - 1) nb)) in L6 by lia.
  unfold iappend_block. change NDIRECT with 12. destruct (Z.ltb_spec (nb - 1) 12).
  - rewrite (addr_map (img s)) by lia. rewrite xint_id by (apply is_u32_block; lia).
    ztest (file_map (img s) (i_addrs din) (nb - 1) =? 0) is false. mrun. by rewrite (addr_map (img s)), xint_id by (lia || (apply is_u32_block; lia)).
  - rewrite (proj2 (Z.ltb_lt 12 nb)) in L7 by lia. unfold addr_at. change (Z.to_nat 12) with 12%nat. rewrite xint_id by (apply is_u32_block; lia).
    ztest (nth 12 (i_addrs din) 0 =? 0) is false. mrun. rewrite xint_id by (apply is_u32_block; lia).
    mcall (rsect_run (nth 12 (i_addrs din) 0) s ltac:(lia)). rewrite map_ind in * by lia.
    ztest (load32 (img s (nth 12 (i_addrs din) 0)) (4 * (nb - 1 - 12)) =? 0) is false. mrun. by rewrite xint_id by (apply is_u32_block; lia).
Qed.

Lemma iappend_block_new s din d nb :
  filed (freeblock s) (img s) (i_addrs din) d nb → nb < 140 → img_len s = 1000 → nmeta <= freeblock s →
  clean (freeblock s) (img s) ->
  let nf1 := freeblock s + (blocks_for (nb + 1) - blocks_for nb) in nf1 <= 1000 →
  ∃ v1 a1, iappend_block din nb s = Done (set_i_addrs a1 din, file_map v1 a1 nb) (mk_next s v1 nf1) ∧
    block_step (freeblock s) (img s) (i_addrs din) d nb nf1 v1 a1 (nb + 1).
Proof.
  cbn zeta. intros Hf Hnb Hlen Hnf Hc Hfit. pose proof Hf as [L1 L2 L3 L4 L5 L6 L7 L8]. unfold blocks_for in *. rewrite nmeta_eq in *.
  specialize (L6 nb ltac:(lia)). rewrite Z.ltb_irrefl in L6.
  unfold iappend_block. change NDIRECT with 12. destruct (Z.ltb_spec nb 12).
  - rewrite (proj2 (Z.ltb_ge 12 nb)), (proj2 (Z.ltb_ge 12 (nb + 1))) in * by lia. rewrite (addr_map (img s)), L6 by lia. change (xint 0 =? 0) with true. 
    mrun. mcall (next_block_run s ltac:(lia)). rewrite xint_id by (apply is_u32_block; lia).
    exists (img s), (i_addrs (set_addr nb (freeblock s) din)). rewrite <- (addr_map (img s) (set_addr nb (freeblock s) din)) by lia.
    assert (Hx : addr_at nb (set_addr nb (freeblock s) din) = freeblock s).
    { unfold addr_at. cbn [set_addr set_i_addrs i_addrs]. rewrite nth_insert, decide_True by lia. done. }
    rewrite Hx, xint_id by (apply is_u32_block; lia). replace (freeblock s + (nb + 1 - nb)) with (freeblock s + 1) by lia.
    split; [done|]. apply add_direct; try done; rewrite ?nmeta_eq; lia.
  - unfold addr_at. change (Z.to_nat 12) with 12%nat. destruct (Z.ltb_spec 12 nb).
    + rewrite (proj2 (Z.ltb_lt 12 (nb + 1))) in * by lia. set (i := nth 12 (i_addrs din) 0) in *. rewrite xint_id by (apply is_u32_block; lia).
      ztest (i =? 0) is false. mrun. fold i. rewrite xint_id by (apply is_u32_block; lia).
      mcall (rsect_run i s ltac:(lia)). rewrite map_ind in L6 by (fold i; lia). fold i in L6. rewrite L6. cbn [Z.eqb].
      mcall (next_block_run s ltac:(lia)). rewrite xint_id by (apply is_u32_block; lia).
      set (d1 := store32 (img s i) (4 * (nb - 12)) (freeblock s)).
      mcall (wsect_run i d1 (set_freeblock (freeblock s + 1) s) ltac:(cbn; lia)).
      exists (set_block i d1 (img s)), (i_addrs din). rewrite set_i_addrs_id.
      replace (freeblock s + (nb + 1 + 1 - (nb + 1))) with (freeblock s + 1) by lia. split; [|by apply add_entry_block; rewrite ?nmeta_eq; (done || lia)].
      rewrite map_ind by (fold i; lia). fold i. assert (set_block i d1 (img s) i = d1) as -> by (unfold set_block; by rewrite Z.eqb_refl). subst d1. rewrite load32_store32_eq by lia.
      by rewrite xint_id by (apply is_u32_block; lia).
    + assert (nb = 12) as -> by lia. rewrite L7. change (xint 0 =? 0) with true. change (12 <? 12 + 1) with true in *. cbn iota in *. mrun.
      mcall (next_block_run s ltac:(lia)). rewrite !(xint_id (freeblock s)) by (apply is_u32_block; lia). set (i := freeblock s) in *.
      assert (Hi : nth 12 (i_addrs (set_addr 12 i din)) 0 = i).
      { cbn [set_addr set_i_addrs i_addrs]. rewrite nth_insert, decide_True by (change (Z.to_nat 12) with 12%nat; lia). done. }
      rewrite Hi, xint_id by (apply is_u32_block; lia). mcall (rsect_run i (set_freeblock (i + 1) s) ltac:(cbn; lia)). cbn [img set_freeblock].
      replace (load32 (img s i) (4 * (12 - 12))) with 0 by (unfold load32; rewrite !Hc by lia; done). cbn [Z.eqb].
      mcall (next_block_run (set_freeblock (i + 1) s) ltac:(cbn; lia)). cbn [freeblock set_freeblock]. rewrite xint_id by (apply is_u32_block; lia).
      set (d1 := store32 (img s i) (4 * (12 - 12)) (i + 1)).
      mcall (wsect_run i d1 (set_freeblock (i + 1 + 1) (set_freeblock (i + 1) s)) ltac:(cbn; lia)).
      exists (set_block i d1 (img s)), (i_addrs (set_addr 12 i din)). replace (i + (12 + 1 + 1 - 12)) with (i + 2) by lia.
      split; [|by apply (add_indirect i); rewrite ?nmeta_eq; (done || lia)].
      rewrite (map_ind _ (i_addrs (set_addr 12 i din)) 12), Hi by (rewrite ?Hi; lia). assert (set_block i d1 (img s) i = d1) as -> by (unfold set_block; by rewrite Z.eqb_refl). subst d1. rewrite load32_store32_eq by lia.
      rewrite xint_id by (apply is_u32_block; lia). by replace (i + 1 + 1) with (i + 2) by lia.
Qed.

(** ** Appending *)

(** What the steps of [iappend] leave alone. *)
Record kept (nf : Z) (v : Z → blk) (addrs : list Z) (nf1 : Z) (v1 : Z → blk) (a1 : list Z) : Prop := {
  kp_le : nf <= nf1;
  kp_owned : ∀ b, owned v1 a1 b → owned v addrs b ∨ nf <= b < nf1;
  kp_frame : ∀ b, ¬ owned v addrs b → b < nf ∨ nf1 <= b → v1 b = v b;
  kp_bytes : (∀ b, mem_ok (v b)) → ∀ b, mem_ok (v1 b);
  kp_has : ∀ b, owned v addrs b ∨ nf <= b < nf1 → owned v1 a1 b
}.

Lemma kept_same nf v addrs : kept nf v addrs nf v addrs.
Proof. split; auto; [lia|]. intros b [?|?]; [done|lia]. Qed.

Lemma kept_then nf v a nf1 v1 a1 nf2 v2 a2 : kept nf v a nf1 v1 a1 → kept nf1 v1 a1 nf2 v2 a2 → kept nf v a nf2 v2 a2.
Proof.
  intros [A1 A2 A3 A4 A5] [B1 B2 B3 B4 B5]. split; [lia| | |auto|].
  - intros b [Hb|Hb]%B2; [destruct (A2 b Hb); [by left|right; lia]|right; lia].
  - intros b Hb Hr. rewrite B3; [apply A3; [done|lia]| |lia]. intros [Ho|Ho]%A2; [done|lia].
  - intros b [Hb|Hb]; apply B5; [left; apply A5; by left|]. destruct (decide (b < nf1)); [left; apply A5; right; lia|right; lia].
Qed.

Lemma kept_clean nf v a nf1 v1 a1 d nb : kept nf v a nf1 v1 a1 → filed nf v a d nb → clean nf v → clean nf1 v1.
Proof.
  intros [A1 A2 A3 A4 _] Hf Hc b x Hb Hx. rewrite A3; [apply Hc; lia| |lia]. intros Ho. apply (filed_owned _ _ _ _ _ _ Hf) in Ho. lia.
Qed.

Lemma put_bytes_in buf o l x : o <= x < o + Z.of_nat (length l) → put_bytes buf o l x = nth (Z.to_nat (x - o)) l 0.
Proof. intros H. unfold put_bytes. by ztest (o <=? x) is true; ztest (x <? o + Z.of_nat (length l)) is true. Qed.
Lemma put_bytes_out buf o l x : x < o ∨ o + Z.of_nat (length l) <= x → put_bytes buf o l x = buf x.
Proof. intros H. unfold put_bytes. case_if; [lia|done|done]. Qed.

Lemma mem_ok_put_bytes buf o l : mem_ok buf → Forall is_u8 l → mem_ok (put_bytes buf o l).
Proof.
  intros Hb Hl x. unfold put_bytes. case_if; [|apply Hb|apply Hb]. rewrite Forall_forall in Hl. apply (Hl (nth (Z.to_nat (x - o)) l 0)).
  apply list_elem_of_In, nth_In. lia.
Qed.

(** Bytes added to the last block. *)
Lemma filed_write nf v addrs d nb l :
  filed nf v addrs d nb → nb = Z.of_nat (length d) / 512 + 1 → Z.of_nat (length d) mod 512 + Z.of_nat (length l) <= 512 → Forall is_u8 l →
  let x := file_map v addrs (nb - 1) in
  let v1 := set_block x (put_bytes (v x) (Z.of_nat (length d) mod 512) l) v in
  filed nf v1 addrs (d ++ l) nb ∧ kept nf v addrs nf v1 addrs.
Proof.
  cbn zeta. intros Hf Hnb Hl Hu. pose proof Hf as [L1 L2 L3 L4 L5 L6 L7 L8]. set (n := Z.of_nat (length d)) in *.
  assert (0 <= n) by lia. assert (Hq : 0 <= nb - 1 < nb) by zlia. set (x := file_map v addrs (nb - 1)).
  pose proof (L6 (nb - 1) ltac:(lia)) as Hx. rewrite (proj2 (Z.ltb_lt (nb - 1) nb)) in Hx by lia. fold x in Hx. rewrite nmeta_eq in *.
  set (v1 := set_block x _ v).
  assert (Hxi : x ≠ nth 12 addrs 0).
  { intros E. specialize (L8 (nb - 1) 140 ltac:(lia) ltac:(lia)). rewrite slot_map, slot_ind in L8 by lia. specialize (L8 E ltac:(fold x; lia)). lia. }
  assert (Hm : ∀ bn, file_map v1 addrs bn = file_map v addrs bn).
  { intros bn. unfold file_map. do 2 (case_if; [done|]). unfold v1, set_block. by ztest (nth 12 addrs 0 =? x) is false. }
  assert (Hs : ∀ k, slot v1 addrs k = slot v addrs k) by (intros k; unfold slot; by rewrite Hm).
  split; [split; try done|].
  - rewrite length_app. zlia.
  - intros off Hoff. specialize (L5 off Hoff). unfold file_byte in *. change BSIZE with 512 in *. rewrite Hm.
    assert (Hoq : 0 <= off / 512 < 140) by zlia. specialize (L6 _ Hoq). unfold v1, set_block.
    destruct (decide (off / 512 = nb - 1)) as [E|E].
    + rewrite E in *. fold x in L5 |- *. rewrite Z.eqb_refl in *. ztest (x =? 0) is false. rewrite (proj2 (Z.eqb_neq x 0)) in L5 by lia.
      destruct (decide (n mod 512 <= off mod 512 < n mod 512 + Z.of_nat (length l))).
      * rewrite put_bytes_in by done. assert (Hd : off - n = off mod 512 - n mod 512) by zlia.
        rewrite app_nth2 by lia. f_equal. lia.
      * rewrite put_bytes_out, L5 by lia. destruct (decide (off < n)); [by rewrite app_nth1 by lia|].
        rewrite (nth_beyond d) by lia. rewrite nth_beyond; [done|]. rewrite length_app. zlia.
    + destruct (Z.ltb_spec (off / 512) nb) as [Hlt|Hge].
      * assert (file_map v addrs (off / 512) ≠ x).
        { intros Ex. apply E. specialize (L8 (off / 512) (nb - 1) ltac:(lia) ltac:(lia)). rewrite !slot_map in L8 by lia. apply L8; [done|lia]. }
        ztest (file_map v addrs (off / 512) =? x) is false. rewrite L5. assert (off < n) by zlia. by rewrite app_nth1 by lia.
      * rewrite L6, Z.eqb_refl. rewrite nth_beyond; [done|]. rewrite length_app. zlia.
  - intros bn Hbn. rewrite Hm. rewrite nmeta_eq. by apply L6.
  - intros k k'. rewrite !Hs. apply L8.
  - split; [lia| | | |].
    + intros b (Hb & k & Hk & E). left. rewrite Hs in E. split; [done|]. by exists k.
    + intros b Hb _. unfold v1, set_block. destruct (Z.eqb_spec b x) as [->|]; [|done]. destruct Hb. split; [lia|]. exists (nb - 1).
      rewrite slot_map by lia. split; [lia|done].
    + intros Hmm b. unfold v1, set_block. case_if; [by apply mem_ok_put_bytes|apply Hmm].
    + intros b [(Hb & k & Hk & E)|?]; [|lia]. split; [done|]. exists k. by rewrite Hs.
Qed.

Lemma blocks_for_mono a b : a <= b → blocks_for a <= blocks_for b.
Proof. unfold blocks_for. intros. destruct (Z.ltb_spec 12 a), (Z.ltb_spec 12 b); lia. Qed.

Lemma nbl_mono d d' : (length d <= length d')%nat → nbl d <= nbl d'.
Proof. unfold nbl. intros. apply Z.div_le_mono; lia. Qed.

Lemma iappend_block_run s din d :
  let fbn := Z.of_nat (length d) / 512 in let nf1 := freeblock s + (blocks_for (fbn + 1) - blocks_for (nbl d)) in
  filed (freeblock s) (img s) (i_addrs din) d (nbl d) → fbn < 140 → img_len s = 1000 → nmeta <= freeblock s →
  clean (freeblock s) (img s) → nf1 <= 1000 →
  ∃ v1 a1, iappend_block din fbn s = Done (set_i_addrs a1 din, file_map v1 a1 fbn) (mk_next s v1 nf1) ∧
    filed nf1 v1 a1 d (fbn + 1) ∧ kept (freeblock s) (img s) (i_addrs din) nf1 v1 a1.
Proof.
  cbn zeta. intros Hf Hlt Hlen Hnf Hc Hfit. set (fbn := Z.of_nat (length d) / 512) in *.
  destruct (decide (nbl d = fbn)) as [E|E].
  - rewrite E in *. destruct (iappend_block_new s din d fbn Hf Hlt Hlen Hnf Hc Hfit) as (v1 & a1 & Hr & [B1 B2 B3 B4 B5]).
    exists v1, a1. split_and!; [done|done|]. split; try done. pose proof (blocks_for_mono fbn (fbn + 1)). lia.
  - assert (nbl d = fbn + 1) as E1 by (unfold nbl in *; subst fbn; zlia). rewrite E1 in *.
    pose proof (iappend_block_old s din d (fbn + 1) Hf) as Hr. replace (fbn + 1 - 1) with fbn in Hr by lia.
    exists (img s), (i_addrs din). rewrite set_i_addrs_id. replace (freeblock s + (blocks_for (fbn + 1) - blocks_for (fbn + 1))) with (freeblock s) by lia.
    split; [|split; [done|apply kept_same]]. rewrite Hr; [by destruct s|subst fbn; zlia|]. split; [|lia].
    replace (freeblock s + (blocks_for (fbn + 1) - blocks_for (fbn + 1))) with (freeblock s) in Hfit by lia. lia.
Qed.

Lemma iappend_loop_run fuel : ∀ s din d p,
  let nf1 := freeblock s + (blocks_for (nbl (d ++ p)) - blocks_for (nbl d)) in
  filed (freeblock s) (img s) (i_addrs din) d (nbl d) → (length p < fuel)%nat → Forall is_u8 p → img_len s = 1000 → nmeta <= freeblock s →
  clean (freeblock s) (img s) → Z.of_nat (length d + length p) <= 71680 → nf1 <= 1000 →
  ∃ v1 a1, iappend_loop fuel din (Z.of_nat (length d)) p s = Done (set_i_addrs a1 din, Z.of_nat (length (d ++ p))) (mk_next s v1 nf1) ∧
    filed nf1 v1 a1 (d ++ p) (nbl (d ++ p)) ∧ kept (freeblock s) (img s) (i_addrs din) nf1 v1 a1.
Proof.
  cbn zeta. induction fuel as [|fuel IH]; intros s din d p Hf Hfuel Hu Hlen Hnf Hc Hsz Hfit; [lia|]. cbn [iappend_loop].
  destruct (decide (p = [])) as [->|Hne].
  { rewrite app_nil_r in *. cbn. exists (img s), (i_addrs din). rewrite set_i_addrs_id, Z.sub_diag, Z.add_0_r.
    split; [by destruct s|]. split; [done|apply kept_same]. }
  assert (0 < Z.of_nat (length p)) by (destruct p; [done|cbn; lia]). rewrite Z.gtb_ltb. ztest (0 <? Z.of_nat (length p)) is true. cbn [negb].
  set (n := Z.of_nat (length d)) in *. change BSIZE with 512. change MAXFILE with 140. set (fbn := n / 512).
  assert (Hfb : 0 <= fbn < 140) by (subst fbn; zlia). ztest (fbn <? 140) is true. cbn [negb].
  set (n1 := Z.min (Z.of_nat (length p)) (u32 ((fbn + 1) * 512 - n))).
  assert (Hn1 : n1 = Z.min (Z.of_nat (length p)) (512 - n mod 512)).
  { unfold n1. rewrite u32_small by (subst fbn; zlia). f_equal. subst fbn. zlia. }
  assert (Hn1' : 0 < n1 <= Z.of_nat (length p) ∧ n mod 512 + n1 <= 512) by (rewrite Hn1; zlia).
  set (q := take (Z.to_nat n1) p). assert (Hq : length q = Z.to_nat n1) by (unfold q; rewrite length_take; lia).
  assert (Hnb1 : nbl (d ++ q) = fbn + 1) by (unfold nbl; rewrite length_app, Hq; subst fbn; zlia).
  assert (Hle : blocks_for (fbn + 1) <= blocks_for (nbl (d ++ p))).
  { rewrite <- Hnb1. apply blocks_for_mono, nbl_mono. rewrite !length_app. lia. }
  destruct (iappend_block_run s din d Hf) as (v1 & a1 & Hr & Hf1 & Hk1); [fold n fbn; lia|done|done|done|fold n fbn; lia|].
  fold n in Hr, Hf1, Hk1. fold fbn in Hr, Hf1, Hk1. set (nf1 := freeblock s + (blocks_for (fbn + 1) - blocks_for (nbl d))) in *.
  set (s1 := mk_next s v1 nf1) in *. mcall Hr. set (x := file_map v1 a1 fbn) in *.
  assert (Hx : x < 1000).
  { pose proof (fd_map _ _ _ _ _ Hf1 fbn Hfb) as Hx. rewrite (proj2 (Z.ltb_lt fbn (fbn + 1))) in Hx by lia. fold x in Hx. unfold nf1 in Hx. lia. }
  mcall (rsect_run x s1 ltac:(cbn; lia)). set (buf := put_bytes (img s1 x) (n - fbn * 512) q).
  mcall (wsect_run x buf s1 ltac:(cbn; lia)). set (s2 := set_img _ _ s1).
  destruct (filed_write nf1 v1 a1 d (fbn + 1) q Hf1) as [Hf2 Hk2]; [done|fold n; lia|by apply Forall_take|].
  replace (fbn + 1 - 1) with fbn in Hf2, Hk2 by lia. fold x n in Hf2, Hk2. replace (n mod 512) with (n - fbn * 512) in Hf2, Hk2 by (subst fbn; zlia).
  rewrite u32_small by lia. replace (n + n1) with (Z.of_nat (length (d ++ q))) by (rewrite length_app; lia).
  assert (Epq : (d ++ q) ++ drop (Z.to_nat n1) p = d ++ p) by (rewrite <- app_assoc; unfold q; by rewrite take_drop).
  specialize (IH s2 (set_i_addrs a1 din) (d ++ q) (drop (Z.to_nat n1) p)). rewrite Epq, Hnb1 in IH.
  destruct IH as (v3 & a3 & Hr3 & Hf3 & Hk3); try done.
  - rewrite length_drop. lia.
  - by apply Forall_drop.
  - unfold s2, s1. cbn. pose proof (kp_le _ _ _ _ _ _ Hk1). lia.
  - eapply (kept_clean nf1 v1 a1 nf1); [exact Hk2|exact Hf1|]. by eapply (kept_clean (freeblock s)).
  - rewrite length_app, length_drop. lia.
  - unfold s2, s1. cbn. lia.
  - assert (Enf : freeblock s2 + (blocks_for (nbl (d ++ p)) - blocks_for (fbn + 1)) = freeblock s + (blocks_for (nbl (d ++ p)) - blocks_for (nbl d))) by (unfold s2, s1, nf1; cbn; lia).
    rewrite Enf in *. exists v3, a3. rewrite Hr3. split_and!; [done|done|]. eapply kept_then; [exact Hk1|]. eapply kept_then; [exact Hk2|exact Hk3].
Qed.

(** ** An image under construction

    The invariant of the image while mkfs adds inodes and bytes: what the inodes
    hold, that they share no blocks, and that every block handed out belongs to
    one of them. *)


(** ** Inodes in the image *)

Definition din_at (v : Z → blk) (i : Z) : inode := dinode_load (v (IBLOCK i mk_sb)) (dinode_off i) inode0.

Lemma mk_sb_eq : mk_sb = Superblock 1000 941 200 30 2 32 58.
Proof. vm_compute. reflexivity. Qed.

Lemma iblock_eq i : 0 <= i < 200 → IBLOCK i mk_sb = i / 8 + 32 ∧ 32 <= IBLOCK i mk_sb < 58.
Proof. intros Hi. unfold IBLOCK. rewrite mk_sb_eq. cbn [sb_inodestart]. change IPB with 8. rewrite u32_small by zlia. zlia. Qed.

Definition write_inode (i : Z) (ip : inode) (v : Z → blk) : Z → blk :=
  set_block (IBLOCK i mk_sb) (dinode_store ip (dinode_off i) (v (IBLOCK i mk_sb))) v.

Lemma winode_run i ip s : 0 <= i < 200 → img_len s = 1000 → winode i ip s = Done tt (set_img (write_inode i ip (img s)) 1000 s).
Proof.
  intros Hi Hl. destruct (iblock_eq i Hi) as [_ Hb]. unfold winode. mcall (rsect_run (IBLOCK i mk_sb) s ltac:(lia)).
  rewrite wsect_run by lia. by rewrite Hl.
Qed.

Lemma rinode_run i s : 0 <= i < 200 → img_len s = 1000 → rinode i s = Done (din_at (img s) i) s.
Proof. intros Hi Hl. destruct (iblock_eq i Hi) as [_ Hb]. unfold rinode. by mcall (rsect_run (IBLOCK i mk_sb) s ltac:(lia)). Qed.

Lemma din_same v v' i : v' (IBLOCK i mk_sb) = v (IBLOCK i mk_sb) → din_at v' i = din_at v i.
Proof. unfold din_at. by intros ->. Qed.

Lemma din_write v i ip : dinode_ok ip → din_at (write_inode i ip v) i =
  Inode 0 0 0 initsleeplock false (i_type ip) (i_major ip) (i_minor ip) (i_nlink ip) (i_size ip) (i_addrs ip).
Proof. intros Hip. unfold din_at, write_inode, set_block. rewrite Z.eqb_refl. by rewrite dinode_roundtrip. Qed.

Lemma din_other v i j ip : length (i_addrs ip) = 13%nat → 0 <= i < 200 → 0 <= j < 200 → i ≠ j → din_at (write_inode i ip v) j = din_at v j.
Proof.
  intros Hl Hi Hj Hne. destruct (iblock_eq i Hi) as [Ei _], (iblock_eq j Hj) as [Ej _]. unfold din_at, write_inode, set_block.
  destruct (Z.eqb_spec (IBLOCK j mk_sb) (IBLOCK i mk_sb)) as [E|]; [|done]. apply dinode_load_ext. intros x Hx. rewrite E.
  apply dinode_store_out; [done|]. unfold dinode_off in *. change IPB with 8 in *. zlia.
Qed.

Lemma write_inode_data v i ip b : 0 <= i < 200 → 58 <= b → write_inode i ip v b = v b.
Proof. intros Hi Hb. destruct (iblock_eq i Hi). unfold write_inode, set_block. by ztest (b =? IBLOCK i mk_sb) is false. Qed.
Lemma write_inode_low v i ip b : 0 <= i < 200 → b < 32 → write_inode i ip v b = v b.
Proof. intros Hi Hb. destruct (iblock_eq i Hi). unfold write_inode, set_block. by ztest (b =? IBLOCK i mk_sb) is false. Qed.

(** ** The invariant *)

(** The type and the bytes of an inode. *)
Notation item := (Z * list Z)%type.

Record item_in (v : Z → blk) (nf : Z) (i : Z) (it : item) : Prop := {
  it_type : i_type (din_at v i) = it.1;
  it_major : i_major (din_at v i) = 0;
  it_minor : i_minor (din_at v i) = 0;
  it_nlink : i_nlink (din_at v i) = 1;
  it_size : i_size (din_at v i) = Z.of_nat (length it.2);
  it_filed : filed nf v (i_addrs (din_at v i)) it.2 (nbl it.2)
}.

Definition need (its : list item) : Z := foldr (λ it n, blocks_for (nbl it.2) + n) 0 its.

Record mk_ok (s : mkstate) (its : list item) : Prop := {
  mk_len : img_len s = 1000;
  mk_inodes : freeinode s = 1 + Z.of_nat (length its);
  mk_few : (length its < 200)%nat;
  mk_blocks : freeblock s = nmeta + need its;
  mk_fit : freeblock s <= 1000;
  mk_bytes : ∀ b, mem_ok (img s b);
  mk_clean : clean (freeblock s) (img s);
  mk_items : ∀ j it, its !! j = Some it → item_in (img s) (freeblock s) (1 + Z.of_nat j) it;
  mk_alone : ∀ j j' b, (j < length its)%nat → (j' < length its)%nat → j ≠ j' →
    owned (img s) (i_addrs (din_at (img s) (1 + Z.of_nat j))) b → ¬ owned (img s) (i_addrs (din_at (img s) (1 + Z.of_nat j'))) b;
  mk_all : ∀ b, nmeta <= b < freeblock s → ∃ j, (j < length its)%nat ∧ owned (img s) (i_addrs (din_at (img s) (1 + Z.of_nat j))) b;
  mk_super : img s 1 = sb_block;
  mk_low : ∀ b, 0 <= b < 32 → b ≠ 1 → img s b = zeroes;
  mk_unused : ∀ i, 0 <= i < 200 → i = 0 ∨ Z.of_nat (length its) < i → i_type (din_at (img s) i) = 0
}.

(** A file whose blocks do not change. *)
Lemma owned_same v v' a : (∀ b, owned v a b → v' b = v b) → (∀ k, file_map v' a k = file_map v a k) ∧ ∀ b, owned v' a b ↔ owned v a b.
Proof.
  intros Hs. assert (Hm : ∀ k, file_map v' a k = file_map v a k).
  { intros k. unfold file_map. case_if; [done|]. case_if; [done|]. rewrite Hs; [done|]. split; [done|]. exists 140. split; [lia|done]. }
  assert (Hsl : ∀ k, slot v' a k = slot v a k) by (intros k; unfold slot; by rewrite Hm).
  split; [done|]. intros b. unfold owned. by setoid_rewrite Hsl.
Qed.

Lemma filed_same nf nf' v v' a d nb : filed nf v a d nb → nf <= nf' → (∀ b, owned v a b → v' b = v b) → filed nf' v' a d nb.
Proof.
  intros Hf Hn Hs. destruct (owned_same v v' a Hs) as [Hm _]. assert (Hsl : ∀ k, slot v' a k = slot v a k) by (intros k; unfold slot; by rewrite Hm).
  destruct Hf as [L1 L2 L3 L4 L5 L6 L7 L8]. split; try done.
  - intros off Hoff. rewrite <- L5 by done. unfold file_byte. rewrite Hm. case_if; [done|]. change BSIZE with 512. rewrite Hs; [done|].
    split; [done|]. change BSIZE with 512. exists (off / 512). split; [zlia|]. by rewrite slot_map by zlia.
  - intros bn Hbn. rewrite Hm. specialize (L6 bn Hbn). destruct (bn <? nb); lia.
  - destruct (12 <? nb); lia.
  - intros k k'. rewrite !Hsl. apply L8.
Qed.

Lemma item_same v v' nf nf' i it :
  item_in v nf i it → nf <= nf' → din_at v' i = din_at v i → (∀ b, owned v (i_addrs (din_at v i)) b → v' b = v b) → item_in v' nf' i it.
Proof. intros [] Hn Hd Hs. split; rewrite ?Hd; try done. by eapply filed_same. Qed.

Lemma need_cons it its : need (it :: its) = blocks_for (nbl it.2) + need its.
Proof. done. Qed.
Lemma need_app l1 l2 : need (l1 ++ l2) = need l1 + need l2.
Proof. induction l1 as [|x l1 IH]; [done|]. cbn [app]. rewrite !need_cons, IH. lia. Qed.
Lemma need_insert (its : list item) j (it it' : item) : its !! j = Some it → need (<[j := it']> its) = need its + (blocks_for (nbl it'.2) - blocks_for (nbl it.2)).
Proof.
  intros H. rewrite insert_take_drop by (by eapply lookup_lt_Some). 
  replace (need its) with (need (take j its ++ it :: drop (S j) its)) by (by rewrite take_drop_middle).
  rewrite !need_app, !need_cons. lia.
Qed.
Lemma need_pos its : 0 <= need its.
Proof.
  induction its as [|it its IH]; [done|]. rewrite need_cons. assert (0 <= nbl it.2) by (unfold nbl; zlia).
  pose proof (blocks_for_mono 0 (nbl it.2) ltac:(done)). change (blocks_for 0) with 0 in *. lia.
Qed.

(** ** Adding an inode *)

Lemma filed_empty nf v : nmeta <= nf → filed nf v (replicate 13 0) [] 0.
Proof.
  intros Hnf. assert (Hn : ∀ k, nth k (replicate 13 0) 0 = 0) by (intros k; rewrite nth_lookup; destruct (replicate 13 0 !! k) eqn:E; [by apply lookup_replicate in E as [-> _]|done]).
  assert (Hm : ∀ bn, file_map v (replicate 13 0) bn = 0) by (intros bn; unfold file_map; rewrite !Hn; by case_if).
  assert (Hs : ∀ k, slot v (replicate 13 0) k = 0) by (intros k; unfold slot; rewrite Hm; by case_if).
  split; try done; try lia.
  - apply Forall_replicate. unfold is_u32. lia.
  - intros off _. unfold file_byte. rewrite Hm. by destruct (Z.to_nat off).
  - intros bn Hbn. rewrite Hm. by ztest (bn <? 0) is false.
  - intros k k' _ _ _ H. by rewrite Hs in H.
Qed.

Lemma owned_empty v b : ¬ owned v (replicate 13 0) b.
Proof. intros Ho. apply (filed_owned _ _ _ _ _ _ (filed_empty nmeta v ltac:(lia))) in Ho. lia. Qed.

Lemma write_inode_bytes i ip v : (∀ b, mem_ok (v b)) → ∀ b, mem_ok (write_inode i ip v b).
Proof. intros Hm b. unfold write_inode, set_block. case_if; [apply mem_ok_dinode_store, Hm|apply Hm]. Qed.

Lemma mk_ialloc_run s its ty :
  mk_ok s its → (length its < 199)%nat → 0 <= ty < 32768 →
  ∃ s', mk_ialloc ty s = Done (1 + Z.of_nat (length its)) s' ∧ mk_ok s' (its ++ [(ty, [])]).
Proof.
  intros Hs Hfew Hty. pose proof Hs as [K1 K2 K3 K4 K5 K6 K7 K8 K9 KA K10 K11 K12]. set (i := 1 + Z.of_nat (length its)) in *.
  unfold mk_ialloc, next_inode. mrun. rewrite K2, u32_small by lia. set (s1 := set_freeinode (i + 1) s).
  set (ip := set_i_size _ _). mcall (winode_run i ip s1 ltac:(lia) K1). eexists. split; [reflexivity|]. change (img s1) with (img s).
  assert (Hip : dinode_ok ip).
  { unfold ip. split; cbn [set_i_size set_i_nlink set_i_type inode0 i_type i_major i_minor i_nlink i_size i_addrs]; try lia; [rewrite xshort_u16; unfold u16; zlia|change (xshort 1) with 1; lia|by vm_compute|]. split; [done|]. apply Forall_replicate. by vm_compute. }
  assert (Hd : ∀ b, 58 <= b → write_inode i ip (img s) b = img s b) by (intros; apply write_inode_data; lia).
  assert (Hold : ∀ j, 0 <= j < 200 → j ≠ i → din_at (write_inode i ip (img s)) j = din_at (img s) j) by (intros; apply din_other; (done || lia)).
  assert (Hnew : din_at (write_inode i ip (img s)) i = Inode 0 0 0 initsleeplock false ty 0 0 1 0 (replicate 13 0)).
  { rewrite din_write by done. unfold ip. cbn. rewrite xshort_u16. unfold u16. rewrite Z.mod_small by lia. done. }
  assert (Ho : ∀ j b, (j < length its)%nat → owned (write_inode i ip (img s)) (i_addrs (din_at (img s) (1 + Z.of_nat j))) b ↔ owned (img s) (i_addrs (din_at (img s) (1 + Z.of_nat j))) b).
  { intros j b Hj. apply owned_same. intros b' Hb'. apply Hd. destruct (lookup_lt_is_Some_2 its j Hj) as [it Hit].
    apply (filed_owned _ _ _ _ _ _ (it_filed _ _ _ _ (K8 j it Hit))) in Hb'. rewrite nmeta_eq in Hb'. lia. }
  pose proof (need_pos its). rewrite nmeta_eq in *.
  split; cbn [set_img img_len freeinode freeblock img]; try done.
  - rewrite length_app. cbn. subst i. lia.
  - rewrite length_app. cbn. lia.
  - rewrite need_app. change (need [(ty, [])]) with 0. rewrite nmeta_eq. cbn. lia.
  - by apply write_inode_bytes.
  - intros b x Hb Hx. rewrite Hd by (cbn in Hb; lia). by apply K7.
  - intros j it Hj. apply lookup_app_Some in Hj as [Hj|[Hle Hj]].
    + pose proof (lookup_lt_Some _ _ _ Hj). specialize (K8 j it Hj). eapply item_same; [exact K8|done|apply Hold; lia|].
      intros b Hb. apply Hd. apply (filed_owned _ _ _ _ _ _ (it_filed _ _ _ _ K8)) in Hb. rewrite nmeta_eq in Hb. lia.
    + apply list_lookup_singleton_Some in Hj as [Hj <-]. replace (1 + Z.of_nat j) with i by lia. split; rewrite Hnew; cbn; try done. apply filed_empty. rewrite nmeta_eq. lia.
  - intros j j' b Hj Hj' Hne. rewrite length_app in Hj, Hj'. cbn in Hj, Hj'.
    destruct (decide (j = length its)) as [->|]; [fold i; rewrite Hnew; intros H1; by apply owned_empty in H1|].
    destruct (decide (j' = length its)) as [->|]; [fold i; rewrite Hnew; intros _; apply owned_empty|].
    rewrite !Hold by lia. rewrite !Ho by lia. by apply K9; lia.
  - intros b Hb. destruct (KA b Hb) as (j & Hj & Hob). exists j. rewrite length_app. cbn [length]. split; [lia|]. rewrite Hold, Ho by lia. done.
  - rewrite write_inode_low by lia. done.
  - intros b Hb Hb1. rewrite write_inode_low by lia. by apply K11.
  - intros k Hk Hor. rewrite length_app in Hor. cbn in Hor. rewrite Hold by lia. apply K12; lia.
Qed.

(** ** Appending to an inode *)

Section append.
Context (s : mkstate) (its : list item) (j : nat) (ty : Z) (d p : list Z) (v1 : Z → blk) (a1 : list Z) (nf1 : Z).
#[local] Notation i := (1 + Z.of_nat j).
#[local] Notation din := (din_at (img s) i).
Context (Hs : mk_ok s its) (Hj : its !! j = Some (ty, d)) (Hty : 0 <= ty < 32768).
Context (Hf1 : filed nf1 v1 a1 (d ++ p) (nbl (d ++ p))) (Hk : kept (freeblock s) (img s) (i_addrs din) nf1 v1 a1).
Context (Hsz : Z.of_nat (length d + length p) <= 71680).
#[local] Notation ip := (set_i_size (Z.of_nat (length (d ++ p))) (set_i_addrs a1 din)).
#[local] Notation v2 := (write_inode i ip v1).

Lemma append_range : (j < length its)%nat ∧ 0 < i < 200.
Proof using Hs Hj Hty Hf1 Hk Hsz. pose proof (lookup_lt_Some _ _ _ Hj). pose proof (mk_few _ _ Hs). lia. Qed.

Lemma append_meta b : b < 59 → v1 b = img s b.
Proof using Hs Hj Hty Hf1 Hk Hsz.
  intros Hb. pose proof (mk_items _ _ Hs _ _ Hj) as Hi. apply (kp_frame _ _ _ _ _ _ Hk).
  - intros Ho. apply (filed_owned _ _ _ _ _ _ (it_filed _ _ _ _ Hi)) in Ho. rewrite nmeta_eq in Ho. lia.
  - left. pose proof (mk_blocks _ _ Hs). pose proof (need_pos its). rewrite nmeta_eq in *. lia.
Qed.

Lemma append_data b : 58 <= b → v2 b = v1 b.
Proof using Hs Hj Hty Hf1 Hk Hsz. intros Hb. pose proof append_range. apply write_inode_data; lia. Qed.

Lemma append_din : din_at v2 i = Inode 0 0 0 initsleeplock false ty 0 0 1 (Z.of_nat (length (d ++ p))) a1.
Proof using Hs Hj Hty Hf1 Hk Hsz.
  pose proof (mk_items _ _ Hs _ _ Hj) as [I1 I2 I3 I4 I5 I6]. rewrite din_write.
  - cbn [set_i_size set_i_addrs i_type i_major i_minor i_nlink i_size i_addrs]. by rewrite I1, I2, I3, I4.
  - split; cbn [set_i_size set_i_addrs i_type i_major i_minor i_nlink i_size i_addrs]; rewrite ?I1, ?I2, ?I3, ?I4; cbn [fst]; try lia.
    + rewrite length_app. unfold is_u32. lia.
    + split; [apply (fd_len _ _ _ _ _ Hf1)|apply (fd_u32 _ _ _ _ _ Hf1)].
Qed.

Lemma append_others k : 0 <= k < 200 → k ≠ i → din_at v2 k = din_at (img s) k.
Proof using Hs Hj Hty Hf1 Hk Hsz.
  intros Hk1 Hne. pose proof append_range. rewrite din_other; [|apply (fd_len _ _ _ _ _ Hf1)|lia|done|done].
  apply din_same, append_meta. destruct (iblock_eq k Hk1). lia.
Qed.

(** The blocks of another inode. *)
Lemma append_frame k it b : its !! k = Some it → k ≠ j → owned (img s) (i_addrs (din_at (img s) (1 + Z.of_nat k))) b → v2 b = img s b.
Proof using Hs Hj Hty Hf1 Hk Hsz.
  intros Hit Hne Ho. pose proof (filed_owned _ _ _ _ _ _ (it_filed _ _ _ _ (mk_items _ _ Hs _ _ Hit)) Ho) as Hr. rewrite nmeta_eq in Hr.
  rewrite append_data by lia. apply (kp_frame _ _ _ _ _ _ Hk); [|lia]. intros Ho2. pose proof append_range.
  apply (mk_alone _ _ Hs k j b); try done; try lia. by eapply lookup_lt_Some.
Qed.

Lemma append_owned b : owned v2 a1 b → owned (img s) (i_addrs din) b ∨ freeblock s <= b < nf1.
Proof using Hs Hj Hty Hf1 Hk Hsz.
  intros Ho. apply (kp_owned _ _ _ _ _ _ Hk). apply (owned_same v1 v2); [|done]. intros b' Hb'. apply append_data.
  apply (filed_owned _ _ _ _ _ _ Hf1) in Hb'. rewrite nmeta_eq in Hb'. lia.
Qed.

Lemma append_alone k k' b :
  (k < length its)%nat → (k' < length its)%nat → k ≠ k' →
  owned v2 (i_addrs (din_at v2 (1 + Z.of_nat k))) b → ¬ owned v2 (i_addrs (din_at v2 (1 + Z.of_nat k'))) b.
Proof using Hs Hj Hty Hf1 Hk Hsz.
  intros Hkl Hkl' Hne. pose proof append_range. pose proof (mk_few _ _ Hs).
  assert (Hoth : ∀ k b, (k < length its)%nat → k ≠ j → owned v2 (i_addrs (din_at v2 (1 + Z.of_nat k))) b →
    owned (img s) (i_addrs (din_at (img s) (1 + Z.of_nat k))) b ∧ b < freeblock s).
  { intros l b' Hl Hlj. rewrite append_others by lia. destruct (lookup_lt_is_Some_2 its l Hl) as [it Hit].
    intros Ho. apply (owned_same (img s)) in Ho; [|intros; by eapply append_frame]. split; [done|].
    by apply (filed_owned _ _ _ _ _ _ (it_filed _ _ _ _ (mk_items _ _ Hs _ _ Hit))) in Ho as [_ ?]. }
  assert (Hme : ∀ b, owned v2 (i_addrs (din_at v2 i)) b → owned (img s) (i_addrs din) b ∨ freeblock s <= b).
  { intros b' Ho. rewrite append_din in Ho. cbn in Ho. destruct (append_owned b' Ho); [by left|right; lia]. }
  destruct (decide (k = j)) as [->|Hkj].
  - intros [Ho|Ho]%Hme [Ho2 Hlt]%Hoth; try lia; try done. by apply (mk_alone _ _ Hs j k' b).
  - intros [Ho Hlt]%Hoth; try lia; try done. destruct (decide (k' = j)) as [->|Hkj'].
    + intros [Ho2|Ho2]%Hme; [|lia]. by apply (mk_alone _ _ Hs k j b).
    + intros [Ho2 _]%Hoth; try done. by apply (mk_alone _ _ Hs k k' b).
Qed.

Lemma append_ok :
  nf1 = freeblock s + (blocks_for (nbl (d ++ p)) - blocks_for (nbl d)) → nf1 <= 1000 →
  mk_ok (MkState v2 1000 (freeinode s) nf1) (<[j := (ty, d ++ p)]> its).
Proof using Hs Hj Hty Hf1 Hk Hsz.
  intros Enf Hfit. pose proof append_range as [Hjl Hir]. pose proof Hs as [K1 K2 K3 K4 K5 K6 K7 K8 K9 KA K10 K11 K12].
  split; cbn [img img_len freeinode freeblock]; rewrite ?length_insert; try done.
  - rewrite (need_insert _ _ _ _ Hj). cbn [snd]. lia.
  - apply write_inode_bytes, (kp_bytes _ _ _ _ _ _ Hk), K6.
  - intros b x Hb Hx. pose proof (need_pos its). pose proof (kp_le _ _ _ _ _ _ Hk). rewrite nmeta_eq in *. rewrite append_data by lia.
    eapply (kept_clean _ _ _ _ _ _ _ _ Hk); [apply (it_filed _ _ _ _ (K8 _ _ Hj))|done|done|done].
  - intros k it Hit. destruct (decide (k = j)) as [->|Hne].
    + rewrite list_lookup_insert_eq in Hit by done. injection Hit as <-.
      split; rewrite append_din; cbn [i_type i_major i_minor i_nlink i_size i_addrs fst snd]; try done.
      eapply filed_same; [exact Hf1|done|]. intros b Hb. apply append_data. apply (filed_owned _ _ _ _ _ _ Hf1) in Hb. rewrite nmeta_eq in Hb. lia.
    + rewrite list_lookup_insert_ne in Hit by done. pose proof (lookup_lt_Some _ _ _ Hit).
      eapply item_same; [apply (K8 _ _ Hit)|apply Hk|apply append_others; lia|]. intros b Hb. by eapply append_frame.
  - intros k k' b Hkl Hkl' Hne. by apply append_alone.
  - intros b Hb. assert (Hme : owned v1 a1 b → owned v2 a1 b).
    { apply owned_same. intros b' Hb'. apply append_data. apply (filed_owned _ _ _ _ _ _ Hf1) in Hb'. rewrite nmeta_eq in Hb'. lia. }
    assert (Hor : (∃ k, (k < length its)%nat ∧ k ≠ j ∧ owned (img s) (i_addrs (din_at (img s) (1 + Z.of_nat k))) b) ∨ owned v1 a1 b).
    { destruct (decide (b < freeblock s)); [|right; apply (kp_has _ _ _ _ _ _ Hk); right; lia]. destruct (KA b ltac:(lia)) as (k & Hkl & Ho).
      destruct (decide (k = j)) as [->|]; [right; apply (kp_has _ _ _ _ _ _ Hk); by left|left; by exists k]. }
    destruct Hor as [(k & Hkl & Hne & Ho)|Ho]; [|exists j; split; [done|]; rewrite append_din; cbn; auto].
    exists k. split; [done|]. rewrite append_others by lia. destruct (lookup_lt_is_Some_2 its k Hkl) as [it Hit].
    apply (owned_same (img s)); [|done]. intros b' Hb'. by eapply append_frame.
  - rewrite write_inode_low, append_meta by lia. done.
  - intros b Hb Hb1. rewrite write_inode_low, append_meta by lia. by apply K11.
  - intros k Hk1 Hor. rewrite append_others by lia. apply K12; lia.
Qed.
End append.

Lemma iappend_run s its j ty d p :
  mk_ok s its → its !! j = Some (ty, d) → 0 <= ty < 32768 → Forall is_u8 p → Z.of_nat (length d + length p) <= 71680 →
  freeblock s + (blocks_for (nbl (d ++ p)) - blocks_for (nbl d)) <= 1000 →
  ∃ s', iappend (1 + Z.of_nat j) p s = Done tt s' ∧ mk_ok s' (<[j := (ty, d ++ p)]> its).
Proof.
  intros Hs Hj Hty Hp Hsz Hfit. pose proof (lookup_lt_Some _ _ _ Hj) as Hjl. pose proof Hs as [K1 K2 K3 K4 K5 K6 K7 K8 _ _ _ _ _].
  pose proof (K8 _ _ Hj) as [_ _ _ _ I5 I6]. cbn [snd] in I5, I6. unfold iappend. mcall (rinode_run (1 + Z.of_nat j) s ltac:(lia) K1).
  rewrite I5, xint_id by (unfold is_u32; lia). pose proof (need_pos its).
  destruct (iappend_loop_run (S (length p)) s (din_at (img s) (1 + Z.of_nat j)) d p I6) as (v1 & a1 & Hr & Hf1 & Hk); try done; try (rewrite ?nmeta_eq in *; lia).
  mcall Hr. rewrite xint_id by (rewrite length_app; unfold is_u32; lia). set (s1 := mk_next _ _ _).
  rewrite (winode_run (1 + Z.of_nat j) _ s1 ltac:(lia) (K1 : img_len s1 = 1000)). eexists. split; [reflexivity|].
  by apply (append_ok s its j ty d p v1 a1).
Qed.
