(* ===== verification/MkfsClaims.v ===== *)
(** * The image that mkfs builds: theorems

    main from the empty image to the finished one, and the finished image as the
    kernel sees it: the conditions of FsBlocks.v, FsFile.v and FsDir.v hold, and
    the files have the names and bytes given. *)

From Stdlib Require Import ZArith Lia.
From stdpp Require Import base numbers list.
From S2P Require Import Prelude Mem Sleeplock Bio Log Blocks Fs FsBlocks FsFile FsData FsInode FsDir Mkfs MkfsFacts.

(** ** What is asked for *)

(** The arguments: names on the host and the pieces of the files. *)
Notation hostfile := (list Z * list (list Z))%type.

Definition mk_name (arg : list Z) : list Z := match arg with c :: arg' => if c =? 95 then arg' else arg | [] => [] end.

(** The directory entries of files from inode [inum] on. *)
Fixpoint file_entries (inum : Z) (files : list hostfile) : list (Z * list Z) :=
  match files with [] => [] | f :: files' => (inum, mk_name f.1) :: file_entries (inum + 1) files' end.
Definition dir_data (es : list (Z * list Z)) : list Z := concat ((λ e, dirent_bytes e.1 e.2) <$> es).
Definition root_entries (files : list hostfile) : list (Z * list Z) := (1, [46]) :: (1, [46; 46]) :: file_entries 2 files.

(** The inodes of the finished image. *)
Definition wanted (files : list hostfile) : list item :=
  (T_DIR, dir_data (root_entries files)) :: ((λ f : hostfile, (T_FILE, concat f.2)) <$> files).

(** Host files mkfs takes: bytes, no slash in the name, not too large, at most
    198, and all of it fits on the disk. *)
Record files_ok (files : list hostfile) : Prop := {
  fk_names : Forall (λ f : hostfile, 47 ∉ f.1 ∧ Forall is_u8 f.1) files;
  fk_bytes : Forall (λ f : hostfile, Forall (Forall is_u8) f.2) files;
  fk_sizes : Forall (λ f : hostfile, Z.of_nat (length (concat f.2)) <= 71680) files;
  fk_few : (length files <= 198)%nat;
  fk_fit : nmeta + need (wanted files) <= 1000
}.

(** ** The steps of main *)

(** A prefix of what is wanted. *)
Definition part_of (its fin : list item) : Prop :=
  ∀ j it, its !! j = Some it → ∃ it', fin !! j = Some it' ∧ (length it.2 <= length it'.2)%nat.

Lemma need_part its : ∀ fin, part_of its fin → need its <= need fin.
Proof.
  induction its as [|it its IH]; intros fin Hp; [apply need_pos|]. destruct (Hp 0%nat it eq_refl) as (it' & Hf & Hl).
  destruct fin as [|x fin]; [done|]. injection Hf as ->. rewrite !need_cons.
  assert (need its <= need fin) by (apply IH; intros j y Hy; apply (Hp (S j) y Hy)).
  pose proof (blocks_for_mono _ _ (nbl_mono it.2 it'.2 Hl)). lia.
Qed.

Lemma nth_part its fin j it : part_of its fin → its !! j = Some it → ∃ it', fin !! j = Some it' ∧ (length it.2 <= length it'.2)%nat.
Proof. intros Hp. apply Hp. Qed.

Section main.
Context (fin : list item) (Hfit : nmeta + need fin <= 1000) (Hbig : Forall (λ it : item, Z.of_nat (length it.2) <= 71680) fin) (Hfew : (length fin < 200)%nat).

Lemma append_part s its j ty d p :
  mk_ok s its → its !! j = Some (ty, d) → 0 <= ty < 32768 → Forall is_u8 p → part_of (<[j := (ty, d ++ p)]> its) fin →
  ∃ s', iappend (1 + Z.of_nat j) p s = Done tt s' ∧ mk_ok s' (<[j := (ty, d ++ p)]> its).
Proof using Hfit Hbig Hfew.
  intros Hs Hj Hty Hp Hpart. apply iappend_run; try done.
  - destruct (Hpart j (ty, d ++ p)) as (it' & Hit & Hl); [apply list_lookup_insert_eq; by eapply lookup_lt_Some|].
    rewrite Forall_lookup in Hbig. specialize (Hbig j it' Hit). cbn in Hl. rewrite length_app in Hl. cbn in Hbig. lia.
  - rewrite (mk_blocks _ _ Hs). pose proof (need_part _ _ Hpart) as Hn. rewrite (need_insert _ _ _ _ Hj) in Hn. cbn [snd] in Hn. lia.
Qed.

Lemma append_all_part pieces : ∀ s its j ty d,
  mk_ok s its → its !! j = Some (ty, d) → 0 <= ty < 32768 → Forall (Forall is_u8) pieces → part_of (<[j := (ty, d ++ concat pieces)]> its) fin →
  ∃ s', append_all (1 + Z.of_nat j) pieces s = Done tt s' ∧ mk_ok s' (<[j := (ty, d ++ concat pieces)]> its).
Proof using Hfit Hbig Hfew.
  induction pieces as [|p pieces IH]; intros s its j ty d Hs Hj Hty Hp Hpart.
  { exists s. split; [done|]. cbn. rewrite app_nil_r, list_insert_id by done. done. }
  apply Forall_cons in Hp as [Hp Hps]. cbn [concat] in *. pose proof (lookup_lt_Some _ _ _ Hj) as Hlt.
  destruct (append_part s its j ty d p Hs Hj Hty Hp) as (s1 & Hr1 & Hs1).
  { intros k it Hk. destruct (decide (k = j)) as [->|Hne].
    - rewrite list_lookup_insert_eq in Hk by done. injection Hk as <-. destruct (Hpart j (ty, d ++ p ++ concat pieces)) as (it' & ? & Hl); [by apply list_lookup_insert_eq|].
      exists it'. split; [done|]. cbn in *. rewrite !length_app in *. lia.
    - rewrite list_lookup_insert_ne in Hk by done. apply Hpart. by rewrite list_lookup_insert_ne. }
  destruct (IH s1 _ j ty (d ++ p) Hs1) as (s2 & Hr2 & Hs2); [by apply list_lookup_insert_eq|done|done| |].
  { by rewrite list_insert_insert_eq, <- app_assoc. }
  exists s2. split; [cbn [append_all]; by mcall Hr1|]. by rewrite list_insert_insert_eq, <- app_assoc in Hs2.
Qed.

Lemma dirent_length inum name : length (dirent_bytes inum name) = 16%nat.
Proof. clear. unfold dirent_bytes. change (Z.to_nat DIRSIZ) with 14%nat. rewrite !length_app, length_replicate, length_take. cbn [length]. lia. Qed.

Lemma dirent_u8 inum name : Forall is_u8 name → Forall is_u8 (dirent_bytes inum name).
Proof.
  clear. intros Hn. unfold dirent_bytes. apply Forall_app. split; [|apply Forall_app; split; [by apply Forall_take|apply Forall_replicate; unfold is_u8; lia]].
  repeat constructor; apply u8_range.
Qed.

Lemma mk_name_u8 arg : Forall is_u8 arg → Forall is_u8 (mk_name arg).
Proof. clear. intros H. destruct arg as [|c arg]; [done|]. cbn. inversion H; subst. by case_if. Qed.

Lemma part_of_trans its1 its2 its3 : part_of its1 its2 → part_of its2 its3 → part_of its1 its3.
Proof. clear. intros H1 H2 j it Hj. destruct (H1 j it Hj) as (x & Hx & Hl). destruct (H2 j x Hx) as (y & Hy & Hl2). exists y. split; [done|lia]. Qed.

Lemma part_of_root d d' fl fl' : (length d <= length d')%nat → part_of fl fl' → part_of ((T_DIR, d) :: fl) ((T_DIR, d') :: fl').
Proof. clear. intros Hl Hp [|j] it; cbn; [intros [= <-]; eexists; split; [done|done]|apply Hp]. Qed.

Lemma part_of_last fl it it' : (length it.2 <= length it'.2)%nat → part_of (fl ++ [it]) (fl ++ [it']).
Proof.
  clear. intros Hl j x Hx. apply lookup_app_Some in Hx as [Hx|[Hle Hx]].
  - exists x. split; [by apply lookup_app_l_Some|done].
  - apply list_lookup_singleton_Some in Hx as [Hz <-]. exists it'. split; [|done]. rewrite lookup_app_r by done. by rewrite Hz.
Qed.

Lemma part_of_refl its : part_of its its.
Proof. clear. intros j it Hj. eauto. Qed.

Lemma lookup_end (x y : item) fl : (x :: fl ++ [y]) !! S (length fl) = Some y.
Proof. clear. change ((fl ++ [y]) !! length fl = Some y). by apply list_lookup_middle. Qed.
Lemma insert_end (x y z : item) fl : <[S (length fl) := z]> (x :: fl ++ [y]) = x :: fl ++ [z].
Proof. clear. change (x :: <[length fl := z]> (fl ++ [y]) = x :: fl ++ [z]). f_equal. rewrite insert_app_r_alt by lia. by rewrite Nat.sub_diag. Qed.

(** One host file: an inode, a directory entry and the bytes. *)
Lemma add_file_run s d fl (f : hostfile) :
  let inum := 2 + Z.of_nat (length fl) in
  let its' := (T_DIR, d ++ dirent_bytes inum (mk_name f.1)) :: fl ++ [(T_FILE, concat f.2)] in
  mk_ok s ((T_DIR, d) :: fl) → 47 ∉ f.1 → Forall is_u8 f.1 → Forall (Forall is_u8) f.2 → part_of its' fin →
  ∃ s', add_file 1 (f.1, Some f.2) s = Done tt s' ∧ mk_ok s' its'.
Proof using Hfit Hbig Hfew.
  cbn zeta. intros Hs Hsl Hu1 Hu2 Hpart. unfold add_file. rewrite bool_decide_eq_false_2 by done.
  set (inum := 2 + Z.of_nat (length fl)) in *. set (de := dirent_bytes inum (mk_name f.1)) in *.
  assert (Hlen : (length fl < 198)%nat).
  { destruct (Hpart (S (length fl)) (T_FILE, concat f.2)) as (x & Hx & _); [apply lookup_end|].
    apply lookup_lt_Some in Hx. lia. }
  destruct (mk_ialloc_run s _ T_FILE Hs) as (s1 & Hr1 & Hs1); [cbn; lia|by vm_compute|].
  replace (1 + Z.of_nat (length ((T_DIR, d) :: fl))) with inum in Hr1 by (cbn [length]; lia). mcall Hr1. cbn [app] in Hs1.
  fold (mk_name f.1). fold de.
  destruct (append_part s1 _ 0 T_DIR d de Hs1) as (s2 & Hr2 & Hs2); [done|by vm_compute|by apply dirent_u8, mk_name_u8| |].
  { cbn [insert list_insert]. eapply part_of_trans; [|exact Hpart]. apply part_of_root; [done|]. apply part_of_last. cbn. lia. }
  change (1 + Z.of_nat 0) with 1 in Hr2. mcall Hr2. cbn [insert list_insert] in Hs2.
  destruct (append_all_part f.2 s2 _ (S (length fl)) T_FILE [] Hs2) as (s3 & Hr3 & Hs3).
  - apply lookup_end.
  - by vm_compute.
  - done.
  - by rewrite insert_end.
  - replace (1 + Z.of_nat (S (length fl))) with inum in Hr3 by lia. exists s3. split; [done|]. by rewrite insert_end in Hs3.
Qed.

Lemma add_files_run files : ∀ s d fl,
  let its' := (T_DIR, d ++ dir_data (file_entries (2 + Z.of_nat (length fl)) files)) :: fl ++ ((λ f : hostfile, (T_FILE, concat f.2)) <$> files) in
  mk_ok s ((T_DIR, d) :: fl) → Forall (λ f : hostfile, 47 ∉ f.1 ∧ Forall is_u8 f.1) files → Forall (λ f : hostfile, Forall (Forall is_u8) f.2) files →
  part_of its' fin → ∃ s', add_files 1 ((λ f : hostfile, (f.1, Some f.2)) <$> files) s = Done tt s' ∧ mk_ok s' its'.
Proof using Hfit Hbig Hfew.
  induction files as [|f files IH]; intros s d fl; cbn zeta; intros Hs Hn Hb Hpart.
  { exists s. split; [done|]. unfold dir_data. cbn. by rewrite !app_nil_r. }
  apply Forall_cons in Hn as [[Hn1 Hn2] Hn]. apply Forall_cons in Hb as [Hb1 Hb]. cbn [fmap list_fmap file_entries] in *.
  set (inum := 2 + Z.of_nat (length fl)) in *. set (de := dirent_bytes inum (mk_name f.1)).
  assert (Edd : ∀ es, dir_data ((inum, mk_name f.1) :: es) = de ++ dir_data es) by done. rewrite Edd in *.
  destruct (add_file_run s d fl f) as (s1 & Hr1 & Hs1); try done.
  { eapply part_of_trans; [|exact Hpart]. apply part_of_root; [fold inum; fold de; rewrite !length_app; lia|].
    intros j it Hj. exists it. split; [|done]. change (?a :: ?b) with ([a] ++ b). rewrite app_assoc. by apply lookup_app_l_Some. }
  destruct (IH s1 (d ++ de) (fl ++ [(T_FILE, concat f.2)])) as (s2 & Hr2 & Hs2); try done.
  - rewrite length_app. cbn [length]. replace (2 + Z.of_nat (length fl + 1)) with (inum + 1) by lia. rewrite <- !app_assoc. exact Hpart.
  - exists s2. split; [cbn [add_files]; by mcall Hr1|]. rewrite length_app in Hs2. cbn [length] in Hs2.
    replace (2 + Z.of_nat (length fl + 1)) with (inum + 1) in Hs2 by lia. by rewrite <- !app_assoc in Hs2.
Qed.
End main.

(** ** The empty image *)

Lemma clear_blocks_run n : ∀ i s, img_len s = i →
  ∃ v, clear_blocks n i s = Done tt (set_img v (i + Z.of_nat n) s) ∧ ∀ b, v b = if (i <=? b) && (b <? i + Z.of_nat n) then zeroes else img s b.
Proof.
  induction n as [|n IH]; intros i s Hl.
  - exists (img s). split; [rewrite <- Hl, Z.add_0_r; by destruct s|]. intros b. case_if; [lia|done|done].
  - set (v1 := set_block i zeroes (img s)). destruct (IH (i + 1) (set_img v1 (i + 1) s) eq_refl) as (v & Hr & Hv).
    assert (Hw : wsect i zeroes s = Done tt (set_img v1 (i + 1) s)) by (unfold wsect, modify; by rewrite Hl, Z.max_r by lia).
    exists v. split; [cbn [clear_blocks]; mcall Hw; rewrite Hr; by replace (i + 1 + Z.of_nat n) with (i + Z.of_nat (S n)) by lia|].
    intros b. rewrite Hv. cbn [set_img img]. unfold v1, set_block. destruct (Z.eqb_spec b i) as [->|].
    + ztest (i + 1 <=? i) is false. ztest (i <=? i) is true. by ztest (i <? i + Z.of_nat (S n)) is true.
    + destruct (Z.leb_spec (i + 1) b), (Z.leb_spec i b), (Z.ltb_spec b (i + 1 + Z.of_nat n)), (Z.ltb_spec b (i + Z.of_nat (S n))); try done; lia.
Qed.

Lemma empty_ok v : (∀ b, 0 <= b < 1000 → v b = zeroes) → (∀ b, v b = zeroes ∨ mem_ok (v b)) →
  mk_ok (MkState (set_block 1 sb_block v) 1000 1 nmeta) [].
Proof.
  intros Hz Hm. assert (Hz0 : mem_ok zeroes) by (intros x; unfold zeroes; lia).
  assert (Hb : ∀ b, 0 <= b < 1000 → b ≠ 1 → set_block 1 sb_block v b = zeroes).
  { intros b Hb Hne. unfold set_block. ztest (b =? 1) is false. by apply Hz. }
  split; cbn [img img_len freeinode freeblock]; try done.
  - cbn. lia.
  - intros b. unfold set_block. case_if; [by apply mem_ok_store_words|]. by destruct (Hm b) as [->|].
  - intros b x Hbb Hx. rewrite nmeta_eq in Hbb. by rewrite Hb by lia.
  - intros j j' b Hj. cbn in Hj. lia.
  - intros b Hbb. lia.
  - intros b Hbb Hne. apply Hb; lia.
  - intros i Hi _. destruct (iblock_eq i Hi) as [_ Hib]. unfold din_at. rewrite Hb by lia. done.
Qed.

(** ** The bitmap *)

Lemma mk_balloc_loop_bits n : ∀ i buf b, bit_set (mk_balloc_loop n i buf) b = (i <=? b) && (b <? i + Z.of_nat n) || bit_set buf b.
Proof.
  induction n as [|n IH]; intros i buf b; cbn [mk_balloc_loop].
  - by destruct (Z.leb_spec i b), (Z.ltb_spec b (i + Z.of_nat 0)); try lia.
  - change (store8 buf (i / 8) (Z.lor (buf (i / 8)) (Z.shiftl 1 (i mod 8)))) with (set_bit buf i). rewrite IH, set_bit_spec.
    destruct (Z.leb_spec (i + 1) b), (Z.ltb_spec b (i + 1 + Z.of_nat n)), (Z.leb_spec i b), (Z.ltb_spec b (i + Z.of_nat (S n))), (Z.eqb_spec b i); try lia; done.
Qed.

Lemma mem_ok_balloc_loop n : ∀ i buf, mem_ok buf → mem_ok (mk_balloc_loop n i buf).
Proof. induction n as [|n IH]; intros i buf Hb; cbn; [done|]. apply IH. by apply mem_ok_store8. Qed.

(** ** main *)

Definition root_size (files : list hostfile) : Z := (Z.of_nat (length (dir_data (root_entries files))) / 512 + 1) * 512.

(** The finished image: what the inodes hold, with the new size of the root
    directory and the bitmap of the first [nf] blocks. *)
Definition finish (files : list hostfile) (nf : Z) (v : Z → blk) : Z → blk :=
  set_block 58 (mk_balloc_loop (Z.to_nat nf) 0 zeroes) (write_inode 1 (set_i_size (root_size files) (din_at v 1)) v).

Lemma dir_data_length es : length (dir_data es) = (16 * length es)%nat.
Proof. unfold dir_data. induction es as [|e es IH]; [done|]. cbn [fmap list_fmap concat]. rewrite length_app, dirent_length, IH. cbn. lia. Qed.

Lemma file_entries_length files : ∀ n, length (file_entries n files) = length files.
Proof. induction files as [|f files IH]; intros n; cbn; [done|]. by rewrite IH. Qed.

Lemma mkfs_run files :
  files_ok files → ∃ s, mk_ok s (wanted files) ∧
    mkfs_main ((λ f : hostfile, (f.1, Some f.2)) <$> files) mkstate0 =
      Done tt (MkState (finish files (freeblock s) (img s)) 1000 (freeinode s) (freeblock s)).
Proof.
  intros [F1 F2 F3 F4 F5].
  assert (Hbig : Forall (λ it : item, Z.of_nat (length it.2) <= 71680) (wanted files)).
  { constructor; [cbn [snd]; rewrite dir_data_length; cbn [root_entries length]; rewrite file_entries_length; lia|].
    apply Forall_fmap. done. }
  assert (Hfew : (length (wanted files) < 200)%nat) by (cbn; rewrite length_fmap; lia).
  unfold mkfs_main. mrun. destruct (clear_blocks_run (Z.to_nat FSSIZE) 0 (set_freeblock nmeta mkstate0) eq_refl) as (v & Hr & Hv).
  mcall Hr. change (0 + Z.of_nat (Z.to_nat FSSIZE)) with 1000 in *. set (s0 := set_img v 1000 _).
  mcall (wsect_run 1 sb_block s0 ltac:(cbn; lia)). set (s1 := set_img _ _ s0).
  assert (Hs1 : mk_ok s1 []).
  { apply (empty_ok v); intros b; rewrite Hv; [intros Hb; ztest (0 <=? b) is true; by ztest (b <? 1000) is true|]. left. by case_if. }
  clearbody s1. clear v Hr Hv s0.
  destruct (mk_ialloc_run s1 [] T_DIR Hs1) as (s2 & Hr2 & Hs2); [clear; cbn; lia|clear; vm_compute; done|]. change (1 + Z.of_nat (length [])) with 1 in Hr2.
  mcall Hr2. change (1 =? ROOTINO) with true. cbn [negb app] in *.
  set (e1 := dirent_bytes 1 [46]) in *. set (e2 := dirent_bytes 1 [46; 46]) in *.
  assert (Hroot : dir_data (root_entries files) = (e1 ++ e2) ++ dir_data (file_entries 2 files)) by (by rewrite <- app_assoc).
  assert (Hpart : ∀ d, (length d <= length (dir_data (root_entries files)))%nat → part_of [(T_DIR, d)] (wanted files)).
  { intros d Hd [|j] it; [intros [= <-]; eexists; split; [done|done]|done]. }
  assert (Hu : ∀ n, Forall is_u8 n → Forall is_u8 (dirent_bytes 1 n)) by (intros n; apply dirent_u8).
  destruct (append_part (wanted files) F5 Hbig Hfew s2 _ 0 T_DIR [] e1 Hs2) as (s3 & Hr3 & Hs3);
    [done|clear; vm_compute; done|by apply Hu; repeat constructor| |].
  { apply Hpart. rewrite Hroot, !length_app. cbn [length app]. lia. }
  change (1 + Z.of_nat 0) with 1 in Hr3. mcall Hr3. cbn [insert list_insert app] in Hs3.
  destruct (append_part (wanted files) F5 Hbig Hfew s3 _ 0 T_DIR e1 e2 Hs3) as (s4 & Hr4 & Hs4);
    [done|clear; vm_compute; done|by apply Hu; repeat constructor| |].
  { apply Hpart. rewrite Hroot, !length_app. lia. }
  change (1 + Z.of_nat 0) with 1 in Hr4. mcall Hr4. cbn [insert list_insert] in Hs4.
  destruct (add_files_run (wanted files) F5 Hbig Hfew files s4 (e1 ++ e2) []) as (s5 & Hr5 & Hs5); try done.
  { change (2 + Z.of_nat (length [])) with 2. rewrite <- Hroot. apply part_of_refl. }
  change (2 + Z.of_nat (length [])) with 2 in Hs5. rewrite <- Hroot in Hs5. mcall Hr5. exists s5. split; [done|].
  pose proof Hs5 as [K1 K2 K3 K4 K5 K6 K7 K8 _ _ _ _ _]. mcall (rinode_run 1 s5 ltac:(lia) K1).
  pose proof (it_size _ _ _ _ (K8 0%nat _ eq_refl)) as Hsize. cbn [snd] in Hsize. change (1 + Z.of_nat 0) with 1 in Hsize.
  assert (Hlen : 0 <= Z.of_nat (length (dir_data (root_entries files))) <= 71680).
  { rewrite dir_data_length. cbn [root_entries length]. rewrite file_entries_length. lia. }
  rewrite Hsize, (xint_id (Z.of_nat _)) by (unfold is_u32; lia). change BSIZE with 512. fold (root_size files).
  rewrite xint_id by (unfold root_size, is_u32; zlia). set (ip := set_i_size _ _). mcall (winode_run 1 ip s5 ltac:(lia) K1).
  unfold mk_balloc. change (BSIZE * 8) with 4096. change (freeblock (set_img _ _ s5)) with (freeblock s5). ztest (freeblock s5 <? 4096) is true. cbn [negb].
  change (sb_bmapstart mk_sb) with 58. rewrite wsect_run by (cbn; lia). done.
Qed.

(** ** The finished image *)

Section finished.
Context (files : list hostfile) (s : mkstate) (Hs : mk_ok s (wanted files)).
#[local] Notation v := (img s).
#[local] Notation vf := (finish files (freeblock s) (img s)).
#[local] Notation addrs i := (i_addrs (din_at v i)).

Lemma finish_data b : 59 <= b → vf b = v b.
Proof using. clear. intros Hb. unfold finish, set_block. ztest (b =? 58) is false. by rewrite write_inode_data by lia. Qed.

Lemma finish_low b : b < 32 → vf b = v b.
Proof using. clear. intros Hb. unfold finish, set_block. ztest (b =? 58) is false. by rewrite write_inode_low by lia. Qed.

Lemma finish_few : (length files <= 198)%nat ∧ nmeta <= freeblock s <= 1000.
Proof using Hs.
  pose proof (mk_few _ _ Hs) as Hf. cbn in Hf. rewrite length_fmap in Hf. split; [lia|].
  pose proof (mk_blocks _ _ Hs). pose proof (need_pos (wanted files)). pose proof (mk_fit _ _ Hs). lia.
Qed.

Lemma finish_item k : (k < length (wanted files))%nat → ∃ it, wanted files !! k = Some it ∧ item_in v (freeblock s) (1 + Z.of_nat k) it.
Proof using Hs. intros Hk. destruct (lookup_lt_is_Some_2 _ _ Hk) as [it Hit]. exists it. split; [done|]. by apply (mk_items _ _ Hs). Qed.

Lemma finish_din i : 0 <= i < 200 → i ≠ 1 → din_at vf i = din_at v i.
Proof using Hs.
  intros Hi Hne. destruct (finish_item 0 ltac:(cbn; lia)) as (it & _ & Hit). pose proof (fd_len _ _ _ _ _ (it_filed _ _ _ _ Hit)) as Hl.
  destruct (iblock_eq i Hi) as [_ Hib]. unfold finish. rewrite (din_same (write_inode 1 (set_i_size (root_size files) (din_at v 1)) v)).
  - apply din_other; [done|lia|done|done].
  - unfold set_block. by ztest (IBLOCK i mk_sb =? 58) is false.
Qed.

Lemma finish_root : din_at vf 1 = set_i_size (root_size files) (din_at v 1).
Proof using Hs.
  destruct (finish_item 0 ltac:(cbn; lia)) as (it & [= <-] & [I1 I2 I3 I4 I5 I6]). change (1 + Z.of_nat 0) with 1 in *. cbn [fst snd] in *.
  unfold finish. rewrite (din_same (write_inode 1 (set_i_size (root_size files) (din_at v 1)) v)) by done. rewrite din_write; [done|].
  split; cbn [set_i_size i_type i_major i_minor i_nlink i_size i_addrs]; rewrite ?I1, ?I2, ?I3, ?I4; try (unfold T_DIR; lia).
  - unfold root_size, is_u32. pose proof (fd_size _ _ _ _ _ I6). pose proof (fd_nb _ _ _ _ _ I6). zlia.
  - split; [apply (fd_len _ _ _ _ _ I6)|apply (fd_u32 _ _ _ _ _ I6)].
Qed.

Lemma finish_addrs i : 0 <= i < 200 → i_addrs (din_at vf i) = addrs i.
Proof using Hs. intros Hi. destruct (decide (i = 1)) as [->|]; [by rewrite finish_root|by rewrite finish_din]. Qed.

Lemma owns_owned w a b : owns w a b ↔ owned w a b.
Proof using.
  clear. unfold owns, owned. change MAXFILE with 140. split; intros [Hb H]; (split; [done|]).
  - destruct H as [->|(bn & Hbn & Hm)]; [by exists 140|]. exists bn. split; [lia|]. by rewrite slot_map by lia.
  - destruct H as (k & Hk & H). destruct (decide (k = 140)) as [->|]; [by left|right]. exists k. split; [lia|]. by rewrite slot_map in H by lia.
Qed.

Lemma finish_filed k it : wanted files !! k = Some it → filed (freeblock s) vf (addrs (1 + Z.of_nat k)) it.2 (nbl it.2).
Proof using Hs.
  intros Hit. pose proof (it_filed _ _ _ _ (mk_items _ _ Hs _ _ Hit)) as Hf. eapply filed_same; [exact Hf|done|].
  intros b Hb. apply finish_data. apply (filed_owned _ _ _ _ _ _ Hf) in Hb. rewrite nmeta_eq in Hb. lia.
Qed.

Lemma finish_owns k b : (k < length (wanted files))%nat → owns vf (addrs (1 + Z.of_nat k)) b ↔ owned v (addrs (1 + Z.of_nat k)) b.
Proof using Hs.
  intros Hk. rewrite owns_owned. apply owned_same. intros b' Hb'. apply finish_data.
  destruct (finish_item k Hk) as (it & _ & Hit). apply (filed_owned _ _ _ _ _ _ (it_filed _ _ _ _ Hit)) in Hb'. rewrite nmeta_eq in Hb'. lia.
Qed.

Lemma finish_bitmap b : bitmap mk_sb vf b = (0 <=? b) && (b <? freeblock s).
Proof using Hs.
  pose proof finish_few as [_ Hf]. rewrite nmeta_eq in Hf. unfold bitmap. change (sb_bmapstart mk_sb) with 58. unfold finish, set_block. rewrite Z.eqb_refl, mk_balloc_loop_bits.
  rewrite Z.add_0_l, Z2Nat.id by lia. assert (bit_set zeroes b = false) as -> by (unfold bit_set, zeroes; by rewrite Z.land_0_l).
  by rewrite orb_false_r.
Qed.

Lemma finish_image : image_ok mk_sb vf.
Proof using Hs.
  pose proof finish_few as [_ Hf]. rewrite nmeta_eq in Hf. split.
  - intros b. unfold finish, set_block. case_if; [apply mem_ok_balloc_loop; intros x; unfold zeroes; lia|].
    apply write_inode_bytes, (mk_bytes _ _ Hs).
  - change (sb_bmapstart mk_sb) with 58. intros b Hb. rewrite finish_bitmap. ztest (0 <=? b) is true. by ztest (b <? freeblock s) is true.
Qed.

Lemma finish_file_ok k it : wanted files !! k = Some it → file_ok mk_sb vf (i_addrs (din_at vf (1 + Z.of_nat k))).
Proof using Hs.
  intros Hit. pose proof (lookup_lt_Some _ _ _ Hit) as Hk. pose proof (mk_few _ _ Hs). rewrite finish_addrs by lia.
  pose proof finish_few as [_ Hfr]. pose proof (finish_filed k it Hit) as Hf. pose proof Hf as [L1 L2 L3 L4 L5 L6 L7 L8]. split; [done| | |].
  - intros b Ho. apply owns_owned in Ho. apply (filed_owned _ _ _ _ _ _ Hf) in Ho. rewrite nmeta_eq in Ho. rewrite finish_bitmap.
    ztest (0 <=? b) is true. ztest (b <? freeblock s) is true. split; [|done]. unfold data_block. rewrite mk_sb_eq. cbn. lia.
  - change MAXFILE with 140. intros bn bn' Hbn Hbn' E Hn. apply L8; try lia; rewrite !slot_map by lia; done.
  - change MAXFILE with 140. intros bn Hbn Hn E. specialize (L8 bn 140 ltac:(lia) ltac:(lia)). rewrite slot_map, slot_ind in L8 by lia. specialize (L8 E Hn). lia.
Qed.
End finished.

(** ** Directory entries *)

Lemma dir_data_nth es : ∀ k x, (x < 16)%nat → nth (16 * k + x) (dir_data es) 0 =
  match es !! k with Some e => nth x (dirent_bytes e.1 e.2) 0 | None => 0 end.
Proof.
  induction es as [|e es IH]; intros k x Hx; [by destruct (16 * k + x)%nat|].
  assert (E : dir_data (e :: es) = dirent_bytes e.1 e.2 ++ dir_data es) by done. rewrite E. pose proof (dirent_length e.1 e.2).
  destruct k as [|k]; [rewrite app_nth1 by lia; done|]. rewrite app_nth2 by lia. cbn [lookup list_lookup]. rewrite <- IH by done. f_equal. lia.
Qed.

Lemma dirent_inum inum name : 0 <= inum < 65536 → nth 0 (dirent_bytes inum name) 0 + 256 * nth 1 (dirent_bytes inum name) 0 = inum.
Proof. intros H. cbn. rewrite xshort_u16. unfold u8, u16. rewrite Z.shiftr_div_pow2 by lia. change (2 ^ 8) with 256. zlia. Qed.

Lemma dirent_name inum name x : (x < 14)%nat → nth (2 + x) (dirent_bytes inum name) 0 = nth x name 0.
Proof.
  intros Hx. unfold dirent_bytes. change (Z.to_nat DIRSIZ) with 14%nat. cbn [app Nat.add nth].
  destruct (decide (x < length name)%nat) as [Hl|Hl].
  - rewrite app_nth1 by (rewrite length_take; lia). rewrite !nth_lookup. by rewrite lookup_take_lt by lia.
  - rewrite app_nth2 by (rewrite length_take; lia). rewrite (nth_overflow name) by lia. rewrite nth_lookup.
    destruct (replicate _ 0 !! _) eqn:E; [by apply lookup_replicate in E as [-> _]|done].
Qed.

(** A directory whose bytes are the entries [es] and zeros. *)
Lemma dir_entries g es n :
  (∀ off, 0 <= off < n → g off = nth (Z.to_nat off) (dir_data es) 0) → Forall (λ e, 0 <= e.1 < 65536) es →
  ∀ k, 0 <= 16 * Z.of_nat k → 16 * Z.of_nat k + 16 <= n →
  match es !! k with
  | Some (inum, name) => ent_inum g (16 * Z.of_nat k) = inum ∧ cname 14 (ent_name g (16 * Z.of_nat k)) = cname 14 name
  | None => ent_inum g (16 * Z.of_nat k) = 0
  end.
Proof.
  intros Hg He k _ Hk. assert (Hb : ∀ x, (x < 16)%nat → g (16 * Z.of_nat k + Z.of_nat x) = match es !! k with Some e => nth x (dirent_bytes e.1 e.2) 0 | None => 0 end).
  { intros x Hx. rewrite Hg by lia. rewrite <- dir_data_nth by done. f_equal. lia. }
  pose proof (Hb 0%nat ltac:(lia)) as H0. pose proof (Hb 1%nat ltac:(lia)) as H1. rewrite Z.add_0_r in H0. change (Z.of_nat 1) with 1 in H1.
  unfold ent_inum. rewrite H0, H1. destruct (es !! k) as [[inum name]|] eqn:E; [|done]. cbn [fst snd].
  rewrite Forall_lookup in He. pose proof (He k _ E) as Hi. cbn in Hi. split; [by apply dirent_inum|].
  apply cname_eq. intros i Hi14 _. unfold ent_name. rewrite nth_lookup, list_lookup_fmap, lookup_seq_lt by done. cbn [fmap option_fmap option_map default].
  specialize (Hb (2 + i)%nat ltac:(lia)). cbn [fst snd] in Hb. rewrite dirent_name in Hb by done. rewrite <- Hb. unfold default, id. f_equal. lia.
Qed.

Lemma file_entries_range files : ∀ n, 0 <= n → n + Z.of_nat (length files) < 65536 → Forall (λ e, 0 <= e.1 < 65536) (file_entries n files).
Proof. induction files as [|f files IH]; intros n Hn Hl; cbn in *; constructor; [cbn; lia|]. apply IH; lia. Qed.

Lemma super_decodes : sb_decode sb_block = mk_sb ∧ layout mk_sb.
Proof. split; [vm_compute; reflexivity|]. rewrite mk_sb_eq. split; by vm_compute. Qed.

Section parts.
Context (files : list hostfile) (s : mkstate) (Hs : mk_ok s (wanted files)).
#[local] Notation vf := (finish files (freeblock s) (img s)).

Lemma finish_bits b : 0 <= b < sb_size mk_sb →
  (0 <=? b) && (b <? freeblock s) = true ↔
  b <= sb_bmapstart mk_sb ∨ ∃ i, 1 <= i <= 1 + Z.of_nat (length files) ∧ owns vf (i_addrs (din_at vf i)) b.
Proof using Hs.
  assert (Hwl : length (wanted files) = S (length files)) by (cbn; by rewrite length_fmap).
  destruct (finish_few files s Hs) as [Hfew Hfb]. rewrite mk_sb_eq. cbn [sb_bmapstart sb_size]. rewrite nmeta_eq in Hfb.
  intros Hb. rewrite andb_true_iff, Z.leb_le, Z.ltb_lt. split.
  - intros [_ Hlt]. destruct (decide (b <= 58)); [by left|right]. destruct (mk_all _ _ Hs b) as (k & Hk & Ho); [rewrite nmeta_eq; lia|].
    exists (1 + Z.of_nat k). split; [lia|]. rewrite finish_addrs, finish_owns by (done || lia). done.
  - intros [Hle|(i & Hi & Ho)]; [lia|]. replace i with (1 + Z.of_nat (Z.to_nat (i - 1))) in Ho by lia.
    rewrite finish_addrs, finish_owns in Ho by (done || lia). destruct (finish_item files s Hs (Z.to_nat (i - 1)) ltac:(lia)) as (it & _ & Hit).
    apply (filed_owned _ _ _ _ _ _ (it_filed _ _ _ _ Hit)) in Ho. lia.
Qed.

Lemma finish_root_dir : let ip := din_at vf ROOTINO in
  i_type ip = T_DIR ∧ i_nlink ip = 1 ∧ file_ok mk_sb vf (i_addrs ip) ∧ i_size ip mod BSIZE = 0 ∧
  16 * Z.of_nat (length (root_entries files)) < i_size ip ∧
  ∀ k, 16 * Z.of_nat k < i_size ip →
    match root_entries files !! k with
    | Some (inum, name) => ent_inum (file_byte vf (i_addrs ip)) (16 * Z.of_nat k) = inum ∧
                           cname 14 (ent_name (file_byte vf (i_addrs ip)) (16 * Z.of_nat k)) = cname 14 name
    | None => ent_inum (file_byte vf (i_addrs ip)) (16 * Z.of_nat k) = 0
    end.
Proof using Hs.
  destruct (finish_few files s Hs) as [Hfew _]. change ROOTINO with 1. cbn zeta. rewrite finish_root by done.
  cbn [set_i_size i_type i_nlink i_size i_addrs]. pose proof (mk_items _ _ Hs 0%nat _ eq_refl) as [I1 I2 I3 I4 I5 _]. change (1 + Z.of_nat 0) with 1 in *. cbn [fst] in *.
  assert (Hl : Z.of_nat (length (dir_data (root_entries files))) = 16 * Z.of_nat (length (root_entries files))) by (rewrite dir_data_length; lia).
  assert (Hn : (2 <= length (root_entries files) <= 200)%nat) by (cbn; rewrite file_entries_length; lia).
  change BSIZE with 512. unfold root_size. rewrite Hl. split_and!; [done|done| |zlia|zlia|].
  - rewrite <- (finish_addrs files s Hs 1) by lia. by apply (finish_file_ok files s Hs 0 _ eq_refl).
  - intros k Hk. apply (dir_entries _ _ 71680); [|repeat constructor; try (cbn; lia); apply file_entries_range; lia|lia|zlia].
    apply (fd_byte _ _ _ _ _ (finish_filed files s Hs 0 _ eq_refl)).
Qed.

Lemma finish_file k f : files !! k = Some f → let ip := din_at vf (2 + Z.of_nat k) in
  i_type ip = T_FILE ∧ i_nlink ip = 1 ∧ file_ok mk_sb vf (i_addrs ip) ∧ i_size ip = Z.of_nat (length (concat f.2)) ∧
  ∀ off, (off < length (concat f.2))%nat → file_byte vf (i_addrs ip) (Z.of_nat off) = nth off (concat f.2) 0.
Proof using Hs.
  intros Hk. destruct (finish_few files s Hs) as [Hfew _]. pose proof (lookup_lt_Some _ _ _ Hk). cbn zeta. rewrite finish_din by (done || lia).
  assert (Hw : wanted files !! S k = Some (T_FILE, concat f.2)) by (change (((λ f : hostfile, (T_FILE, concat f.2)) <$> files) !! k = Some (T_FILE, concat f.2)); by rewrite list_lookup_fmap, Hk).
  pose proof (mk_items _ _ Hs _ _ Hw) as [I1 I2 I3 I4 I5 I6]. replace (1 + Z.of_nat (S k)) with (2 + Z.of_nat k) in * by lia. cbn [fst snd] in *.
  split_and!; [done|done| |done|].
  - pose proof (finish_file_ok files s Hs _ _ Hw) as Hok. replace (1 + Z.of_nat (S k)) with (2 + Z.of_nat k) in Hok by lia. by rewrite finish_din in Hok by (done || lia).
  - intros off Hoff. pose proof (finish_filed files s Hs _ _ Hw) as Hf. replace (1 + Z.of_nat (S k)) with (2 + Z.of_nat k) in Hf by lia. cbn [snd] in Hf.
    pose proof (fd_size _ _ _ _ _ Hf). pose proof (fd_nb _ _ _ _ _ Hf). rewrite (fd_byte _ _ _ _ _ Hf) by lia. by rewrite Nat2Z.id.
Qed.
End parts.

(** ** Theorems *)

(** The file system that the arguments of mkfs ask for. *)
Record built (files : list hostfile) (v : Z → blk) : Prop := {
  bt_super : sb_decode (v 1) = mk_sb ∧ layout mk_sb;
  bt_log : ∀ b x, sb_logstart mk_sb <= b < sb_logstart mk_sb + sb_nlog mk_sb → v b x = 0;
  bt_image : image_ok mk_sb v;
  (** The bitmap has exactly the blocks in use. *)
  bt_bits : ∀ b, 0 <= b < sb_size mk_sb →
    bitmap mk_sb v b = true ↔ b <= sb_bmapstart mk_sb ∨ ∃ i, 1 <= i <= 1 + Z.of_nat (length files) ∧ owns v (i_addrs (din_at v i)) b;
  bt_apart : ∀ i i' b, 1 <= i <= 1 + Z.of_nat (length files) → 1 <= i' <= 1 + Z.of_nat (length files) → i ≠ i' →
    owns v (i_addrs (din_at v i)) b → ¬ owns v (i_addrs (din_at v i')) b;
  (** The root directory has the entries of the files. *)
  bt_root : let ip := din_at v ROOTINO in
    i_type ip = T_DIR ∧ i_nlink ip = 1 ∧ file_ok mk_sb v (i_addrs ip) ∧ i_size ip mod BSIZE = 0 ∧
    16 * Z.of_nat (length (root_entries files)) < i_size ip ∧
    ∀ k, 16 * Z.of_nat k < i_size ip →
      match root_entries files !! k with
      | Some (inum, name) => ent_inum (file_byte v (i_addrs ip)) (16 * Z.of_nat k) = inum ∧
                             cname 14 (ent_name (file_byte v (i_addrs ip)) (16 * Z.of_nat k)) = cname 14 name
      | None => ent_inum (file_byte v (i_addrs ip)) (16 * Z.of_nat k) = 0
      end;
  (** The files have their bytes. *)
  bt_files : ∀ k f, files !! k = Some f → let ip := din_at v (2 + Z.of_nat k) in
    i_type ip = T_FILE ∧ i_nlink ip = 1 ∧ file_ok mk_sb v (i_addrs ip) ∧ i_size ip = Z.of_nat (length (concat f.2)) ∧
    ∀ off, (off < length (concat f.2))%nat → file_byte v (i_addrs ip) (Z.of_nat off) = nth off (concat f.2) 0;
  bt_free : ∀ i, 1 + Z.of_nat (length files) < i < sb_ninodes mk_sb → i_type (din_at v i) = 0
}.


(** Two files: "_cat", read in two pieces, and an empty "README". *)
Definition demo_files : list hostfile :=
  [([95; 99; 97; 116], [[127; 69; 76]; [70; 1]]); ([82; 69; 65; 68; 77; 69], [])].


(** When the entries fill their blocks exactly, the size of the root directory
    has a block more than main allocated: reading the directory to its end maps
    block 0, which the kernel then allocates, outside a transaction. *)
Lemma mkfs_root_hole files :
  files_ok files → (2 + Z.of_nat (length files)) mod 32 = 0 →
  ∃ s, mkfs_main ((λ f : hostfile, (f.1, Some f.2)) <$> files) mkstate0 = Done tt s ∧
    let ip := din_at (img s) ROOTINO in file_map (img s) (i_addrs ip) (i_size ip / BSIZE - 1) = 0.
Proof.
  intros Hf Hm. destruct (mkfs_run files Hf) as (s & Hs & Hrun). eexists. split; [exact Hrun|clear Hrun]. cbn [img]. cbn zeta. change ROOTINO with 1.
  rewrite finish_root by done. cbn [set_i_size i_size i_addrs]. pose proof (finish_filed files s Hs 0 _ eq_refl) as Hfd. change (1 + Z.of_nat 0) with 1 in Hfd. cbn [snd] in Hfd.
  assert (Hl : Z.of_nat (length (dir_data (root_entries files))) = 16 * (2 + Z.of_nat (length files))) by (rewrite dir_data_length; cbn [root_entries length]; rewrite file_entries_length; lia).
  pose proof (finish_few files s Hs) as [Hfew _]. set (nb := nbl _) in Hfd. assert (Hnb : nb = (2 + Z.of_nat (length files)) / 32) by (unfold nb, nbl; rewrite Hl; zlia).
  replace (root_size files / BSIZE - 1) with nb by (change BSIZE with 512; unfold root_size; rewrite Hl; zlia).
  pose proof (fd_map _ _ _ _ _ Hfd nb ltac:(zlia)) as Hh. by rewrite Z.ltb_irrefl in Hh.
Qed.

(** ialloc does not compare with NINODES: inode 208 lies in the block of the
    bitmap, which main writes last. *)
Lemma mk_ialloc_past_end : NINODES < 208 ∧ IBLOCK 208 mk_sb = sb_bmapstart mk_sb ∧
  ∃ s', mk_ialloc T_FILE (MkState (λ _, zeroes) 1000 208 100) = Done 208 s' ∧ img s' (sb_bmapstart mk_sb) 0 = T_FILE.
Proof. split_and!; [done|done|]. eexists. split; vm_compute; reflexivity. Qed.
