(* ===== verification/File.v ===== *)
(** * Open files (file.c, file.h, pipealloc of pipe.c)

    The table of open files over the file system, the log and the pipes.  A file
    is its index in [ftable.file]; [f_pipe] is the address of a pipe and [f_ip]
    an entry of the inode cache. *)

From Stdlib Require Import ZArith Lia.
From stdpp Require Import base numbers list gmap strings.
From S2P Require Import Prelude Mem Kalloc Pipe Bio Log Blocks Fs.

(** The operations of the log that bracket a transaction. *)
Class TxOps (B : Type) : Type := {
  tx_begin : M B unit;
  tx_end : M B unit
}.

#[export] Instance log_tx (iderw : nat → M bstate unit) : TxOps lstate := {|
  tx_begin := begin_op;
  tx_end := end_op iderw
|}.

Definition NFILE : nat := 100.

Inductive fdtype : Type := FD_NONE | FD_PIPE | FD_INODE.

#[export] Instance fdtype_eq_dec : EqDecision fdtype.
Proof. solve_decision. Defined.

Record file : Type := File {
  f_type : fdtype;
  f_ref : Z;
  f_readable : bool;
  f_writable : bool;
  f_pipe : Z;
  f_ip : nat;
  f_off : Z
}.

Definition file0 : file := File FD_NONE 0 false false 0 0 0.

Definition set_f_type v f := File v (f_ref f) (f_readable f) (f_writable f) (f_pipe f) (f_ip f) (f_off f).
Definition set_f_ref v f := File (f_type f) v (f_readable f) (f_writable f) (f_pipe f) (f_ip f) (f_off f).
Definition set_f_off v f := File (f_type f) (f_ref f) (f_readable f) (f_writable f) (f_pipe f) (f_ip f) v.

(** The file system, the table with its lock, and the pipes with the kernel's
    memory and the memory of the running process. *)
Record files {B : Type} : Type := Files {
  fl_fs : fstate B;
  ft_lock : bool;
  ftable : list file;
  fl_p : pstate
}.
#[global] Arguments files B : clear implicits.
#[global] Arguments Files {B}.

Section file.
Context {B : Type} `{!BlockOps B} `{!TxOps B}.
Context (devsw_read devsw_write : Z → option (devfn B)).
(** The end of the kernel, for [kfree]. *)
Context (kend : Z).

Definition set_fl_fs (v : fstate B) (s : files B) : files B := Files v (ft_lock s) (ftable s) (fl_p s).
Definition set_ft_lock (v : bool) (s : files B) : files B := Files (fl_fs s) v (ftable s) (fl_p s).
Definition set_ftable (v : list file) (s : files B) : files B := Files (fl_fs s) (ft_lock s) v (fl_p s).
Definition set_fl_p (v : pstate) (s : files B) : files B := Files (fl_fs s) (ft_lock s) (ftable s) v.
Definition set_umem (m : mem) (s : files B) : files B :=
  set_fl_p (PState (pipes (fl_p s)) (p_machine (fl_p s)) m (killed (fl_p s)) (p_woken (fl_p s))) s.

Definition the_file (i : nat) (s : files B) : file := default file0 (ftable s !! i).
Definition upd_file (i : nat) (g : file → file) : M (files B) unit :=
  modify (λ s, set_ftable (alter g i (ftable s)) s).

Definition in_fs {A} (m : M (fstate B) A) : M (files B) A := lift fl_fs set_fl_fs m.
Definition in_pipe {A} (m : M pstate A) : M (files B) A := lift fl_p set_fl_p m.
Definition op_begin : M (files B) unit := in_fs (on_bs tx_begin).
Definition op_end : M (files B) unit := in_fs (on_bs tx_end).

Definition fileinit : M (files B) unit := modify (set_ft_lock false).

(** The first file of the table without references. *)
Fixpoint find_file (i : nat) (l : list file) : option nat :=
  match l with
  | [] => None
  | f :: l' => if f_ref f =? 0 then Some i else find_file (S i) l'
  end.

Definition filealloc : M (files B) (option nat) :=
  acquire ft_lock set_ft_lock ;;;
  l <- gets ftable ;;
  match find_file 0 l with
  | Some i =>
      upd_file i (set_f_ref 1) ;;;
      release ft_lock set_ft_lock ;;;
      ret (Some i)
  | None =>
      release ft_lock set_ft_lock ;;;
      ret None
  end.

Definition filedup (i : nat) : M (files B) unit :=
  acquire ft_lock set_ft_lock ;;;
  f <- gets (the_file i) ;;
  if f_ref f <? 1 then panic "filedup"
  else
    upd_file i (set_f_ref (f_ref f + 1)) ;;;
    release ft_lock set_ft_lock.

Definition fileclose (i : nat) : M (files B) unit :=
  acquire ft_lock set_ft_lock ;;;
  f <- gets (the_file i) ;;
  if f_ref f <? 1 then panic "fileclose"
  else
    upd_file i (set_f_ref (f_ref f - 1)) ;;;
    if f_ref f - 1 >? 0 then release ft_lock set_ft_lock
    else
      ff <- gets (the_file i) ;;
      upd_file i (set_f_ref 0) ;;;
      upd_file i (set_f_type FD_NONE) ;;;
      release ft_lock set_ft_lock ;;;
      match f_type ff with
      | FD_PIPE => in_pipe (pipeclose kend (f_pipe ff) (f_writable ff))
      | FD_INODE =>
          op_begin ;;;
          in_fs (iput (f_ip ff)) ;;;
          op_end
      | FD_NONE => ret tt
      end.

(** [st] is an address in the memory of the process. *)
Definition filestat (i : nat) (st : Z) : M (files B) Z :=
  f <- gets (the_file i) ;;
  match f_type f with
  | FD_INODE =>
      in_fs (ilock (f_ip f)) ;;;
      ip <- gets (λ s, the_inode (f_ip f) (fl_fs s)) ;;
      modify (λ s, set_umem (stati ip (umem (fl_p s)) st) s) ;;;
      in_fs (iunlock (f_ip f)) ;;;
      ret 0
  | _ => ret (-1)
  end.

(** A read or write of a pipe may sleep ([Asleep]), to resume in the pipe. *)
Definition fileread (i : nat) (addr n : Z) : M (files B) ioret :=
  f <- gets (the_file i) ;;
  if negb (f_readable f) then ret (Ret (-1))
  else
    match f_type f with
    | FD_PIPE => in_pipe (at_pipe (f_pipe f) (piperead (f_pipe f) addr n))
    | FD_INODE =>
        in_fs (ilock (f_ip f)) ;;;
        off <- gets (λ s, f_off (the_file i s)) ;;
        m <- gets (λ s, umem (fl_p s)) ;;
        r <- in_fs (readi devsw_read (f_ip f) m addr off n) ;;
        modify (set_umem r.2) ;;;
        when (r.1 >? 0) (upd_file i (λ f, set_f_off (u32 (f_off f + r.1)) f)) ;;;
        in_fs (iunlock (f_ip f)) ;;;
        ret (Ret r.1)
    | FD_NONE => panic "fileread"
    end.

(** The bytes written in one transaction. *)
Definition write_max : Z := (MAXOPBLOCKS - 1 - 1 - 2) / 2 * 512.

(** Returns the final value of the loop variable. *)
Fixpoint filewrite_loop (fuel : nat) (i : nat) (addr n k : Z) : M (files B) Z :=
  if k <? n then
    match fuel with
    | O => nofuel
    | S fuel' =>
        let n1 := if n - k >? write_max then write_max else n - k in
        op_begin ;;;
        ip <- gets (λ s, f_ip (the_file i s)) ;;
        in_fs (ilock ip) ;;;
        off <- gets (λ s, f_off (the_file i s)) ;;
        m <- gets (λ s, umem (fl_p s)) ;;
        r <- in_fs (writei devsw_write ip m (addr + k) off n1) ;;
        when (r >? 0) (upd_file i (λ f, set_f_off (u32 (f_off f + r)) f)) ;;;
        in_fs (iunlock ip) ;;;
        op_end ;;;
        if r <? 0 then ret k
        else if negb (r =? n1) then panic "short filewrite"
        else filewrite_loop fuel' i addr n (k + r)
    end
  else ret k.

Definition filewrite (i : nat) (addr n : Z) : M (files B) ioret :=
  f <- gets (the_file i) ;;
  if negb (f_writable f) then ret (Ret (-1))
  else
    match f_type f with
    | FD_PIPE => in_pipe (at_pipe (f_pipe f) (pipewrite (f_pipe f) addr n))
    | FD_INODE =>
        k <- filewrite_loop (Z.to_nat (n / write_max + 1)) i addr n 0 ;;
        ret (Ret (if k =? n then n else -1))
    | FD_NONE => panic "filewrite"
    end.

(** ** pipealloc *)

Definition set_file_pipe (p : Z) (readable : bool) (f : file) : file :=
  File FD_PIPE (f_ref f) readable (negb readable) p (f_ip f) (f_off f).

(** The label [bad], with [f0] and [f1]; the page was not allocated. *)
Definition pipealloc_bad (f0 f1 : option nat) : M (files B) (option (nat * nat)) :=
  (match f0 with Some f => fileclose f | None => ret tt end) ;;;
  (match f1 with Some f => fileclose f | None => ret tt end) ;;;
  ret None.

Definition pipealloc : M (files B) (option (nat * nat)) :=
  f0 <- filealloc ;;
  match f0 with
  | None => pipealloc_bad None None
  | Some i0 =>
      f1 <- filealloc ;;
      match f1 with
      | None => pipealloc_bad f0 None
      | Some i1 =>
          p <- in_pipe (on_machine kalloc) ;;
          if p =? 0 then pipealloc_bad f0 f1
          else
            in_pipe (modify (λ s, PState (<[p := newpipe (λ x, ram (p_machine s) (p + 52 + x))]> (pipes s))
                                         (p_machine s) (umem s) (killed s) (p_woken s))) ;;;
            upd_file i0 (set_file_pipe p true) ;;;
            upd_file i1 (set_file_pipe p false) ;;;
            ret (Some (i0, i1))
      end
  end.
End file.
