(* ===== verification/Syscall.v ===== *)
(** * System call arguments (the fetch and arg functions of syscall.c)

    [m] is the memory of the process, [sz] the size of its address space and
    [esp] its saved stack pointer.  [None] is the result -1. *)

From Stdlib Require Import ZArith Lia.
From stdpp Require Import base numbers list.
From S2P Require Import Prelude Mem.

Section args.
Context (m : mem) (sz esp : Z).

Definition fetchint (addr : Z) : option Z :=
  if (addr >=? sz) || (u32 (addr + 4) >? sz) then None
  else Some (s32 (load32 m addr)).

(** The loop over [s], from [addr + k] on; the length. *)
Fixpoint fetchstr_loop (fuel : nat) (addr k : Z) : option Z :=
  match fuel with
  | O => None
  | S fuel' =>
      if addr + k <? sz then
        if m (addr + k) =? 0 then Some k else fetchstr_loop fuel' addr (k + 1)
      else None
  end.

Definition fetchstr (addr : Z) : option Z :=
  if addr >=? sz then None
  else fetchstr_loop (Z.to_nat (sz - addr)) addr 0.

Definition argint (n : Z) : option Z := fetchint (u32 (esp + 4 + 4 * n)).

(** The pointer. *)
Definition argptr (n size : Z) : option Z :=
  match argint n with
  | None => None
  | Some i =>
      if (size <? 0) || (u32 i >=? sz) || (u32 (u32 i + size) >? sz) then None
      else Some (u32 i)
  end.

(** The pointer and the length. *)
Definition argstr (n : Z) : option (Z * Z) :=
  match argint n with
  | None => None
  | Some addr =>
      match fetchstr (u32 addr) with
      | None => None
      | Some len => Some (u32 addr, len)
      end
  end.
End args.

(** ** What the checks establish *)

Lemma fetchstr_loop_spec m sz addr fuel : ∀ k,
  (∀ j, 0 <= j < k → m (addr + j) ≠ 0) → 0 <= k → sz - addr - k <= Z.of_nat fuel →
  match fetchstr_loop m sz fuel addr k with
  | Some len => k <= len ∧ addr + len < sz ∧ m (addr + len) = 0 ∧ ∀ j, 0 <= j < len → m (addr + j) ≠ 0
  | None => ∀ j, 0 <= j < sz - addr → m (addr + j) ≠ 0
  end.
Proof.
  induction fuel as [|fuel IH]; intros k Hk H0 Hf; cbn [fetchstr_loop].
  { intros j Hj. apply Hk. lia. }
  destruct (Z.ltb_spec (addr + k) sz); [|intros j Hj; apply Hk; lia].
  destruct (Z.eqb_spec (m (addr + k)) 0) as [Hz|Hnz]; [split_and!; done || lia|].
  assert (Hk' : ∀ j, 0 <= j < k + 1 → m (addr + j) ≠ 0).
  { intros j Hj. destruct (Z.eq_dec j k) as [->|]; [done|apply Hk; lia]. }
  specialize (IH (k + 1) Hk' ltac:(lia) ltac:(lia)).
  destruct (fetchstr_loop m sz fuel addr (k + 1)); [|done]. destruct IH as (? & ? & ? & ?). split_and!; done || lia.
Qed.

(** C29 The kernel touches user memory only inside the address space.  For a
    process of at most 2 GB: [argint] reads a word that lies below [sz],
    [argptr] accepts a buffer iff all its bytes lie below [sz], and [argstr]
    accepts a string iff it is NUL-terminated below [sz]. *)
Theorem arguments_in_bounds m sz esp n :
  mem_ok m → 0 <= sz <= 0x80000000 → 0 <= esp < 4294967296 → 0 <= n < 6 →
  let a := u32 (esp + 4 + 4 * n) in
  (argint m sz esp n = if (a + 4 <=? sz) then Some (s32 (load32 m a)) else None) ∧
  (∀ size, -2147483648 <= size < 2147483648 →
     argptr m sz esp n size =
       if (a + 4 <=? sz) && (0 <=? size) && (load32 m a <? sz) && (load32 m a + size <=? sz)
       then Some (load32 m a) else None) ∧
  (match argstr m sz esp n with
   | Some (p, len) => a + 4 <= sz ∧ p = load32 m a ∧ p + len < sz ∧ m (p + len) = 0 ∧ ∀ j, 0 <= j < len → m (p + j) ≠ 0
   | None => sz < a + 4 ∨ ∀ j, load32 m a <= j < sz → m j ≠ 0
   end).
Proof.
  intros Hm Hsz Hesp Hn a. assert (Ha : 0 <= a < 4294967296) by apply u32_range.
  assert (Hint : argint m sz esp n = if a + 4 <=? sz then Some (s32 (load32 m a)) else None).
  { unfold argint, fetchint. fold a. rewrite Z.geb_leb, Z.gtb_ltb. destruct (Z.leb_spec sz a); cbn.
    - by ztest (a + 4 <=? sz) is false.
    - rewrite u32_small by lia. destruct (Z.ltb_spec sz (a + 4)); [by ztest (a + 4 <=? sz) is false|by ztest (a + 4 <=? sz) is true]. }
  assert (Hu : u32 (s32 (load32 m a)) = load32 m a).
  { pose proof (load32_range m a Hm). unfold s32, u32 in *. case_if; zlia. }
  assert (Hr : 0 <= load32 m a < 4294967296) by (by apply load32_range).
  split_and!; [done| |].
  - intros size Hsize. unfold argptr. rewrite Hint. destruct (a + 4 <=? sz); [|done]. cbn [andb]. rewrite Hu, Z.geb_leb, Z.gtb_ltb.
    destruct (Z.ltb_spec size 0), (Z.leb_spec 0 size); try lia; cbn [orb andb]; [done|].
    destruct (Z.leb_spec sz (load32 m a)), (Z.ltb_spec (load32 m a) sz); try lia; cbn [orb andb]; [done|].
    rewrite u32_small by lia. destruct (Z.ltb_spec sz (load32 m a + size)), (Z.leb_spec (load32 m a + size) sz); done || lia.
  - unfold argstr. rewrite Hint. destruct (Z.leb_spec (a + 4) sz); [|left; lia]. rewrite Hu. unfold fetchstr. rewrite Z.geb_leb.
    destruct (Z.leb_spec sz (load32 m a)); [right; intros; lia|].
    pose proof (fetchstr_loop_spec m sz (load32 m a) (Z.to_nat (sz - load32 m a)) 0 ltac:(lia) ltac:(lia) ltac:(lia)) as Hs.
    destruct (fetchstr_loop _ _ _ _ _) as [len|].
    + destruct Hs as (? & ? & ? & ?). split_and!; done.
    + right. intros j Hj. replace j with (load32 m a + (j - load32 m a)) by lia. apply Hs. lia.
Qed.

Definition demo_args : mem := λ x, if x =? 104 then 200 else if x =? 203 then 0 else if x <? 200 then 0 else 65.

Lemma arguments_in_bounds_witness :
  argstr demo_args 4096 100 0 = Some (200, 3) ∧ argptr demo_args 4096 100 0 3896 = Some 200 ∧ argptr demo_args 4096 100 0 3897 = None.
Proof.
  destruct (arguments_in_bounds demo_args 4096 100 0) as (_ & Hp & _).
  - intros x. unfold demo_args. repeat case_if; lia.
  - lia.
  - lia.
  - lia.
  - split_and!; [reflexivity|rewrite Hp by lia; reflexivity|rewrite Hp by lia; reflexivity].
Defined.
