(* ===== verification/Sysfile.v ===== *)
(** * The system calls on files (sysfile.c)

    Each call fetches its arguments from the memory of the process and works on
    its descriptor table and current directory, the table of open files and the
    file system.  The result -1 is [ret (-1)]; the label [bad] of a function is
    a definition of its own. *)

From Stdlib Require Import ZArith Lia String.
From stdpp Require Import base numbers list gmap strings.
From S2P Require Import Prelude Mem Kalloc Pipe Printf Blocks Fs Proc File Syscall.

Definition O_RDONLY : Z := 0.
Definition O_WRONLY : Z := 1.
Definition O_RDWR : Z := 2.
Definition O_CREATE : Z := 0x200.
Definition MAXARG : nat := 32.

(** The files and the running process: the size of its memory, its saved stack
    pointer, its descriptors and its current directory. *)
Record sstate {B : Type} : Type := SState {
  ss_files : files B;
  ss_sz : Z;
  ss_esp : Z;
  ofile : list (option nat);
  cwd : nat
}.
#[global] Arguments sstate B : clear implicits.
#[global] Arguments SState {B}.

Section sysfile.
Context {B : Type} `{!BlockOps B} `{!TxOps B}.
Context (devsw_read devsw_write : Z → option (devfn B)).
Context (kend : Z).

Definition set_ss_files (v : files B) (s : sstate B) : sstate B := SState v (ss_sz s) (ss_esp s) (ofile s) (cwd s).
Definition ss_set_ofile (v : list (option nat)) (s : sstate B) : sstate B := SState (ss_files s) (ss_sz s) (ss_esp s) v (cwd s).
Definition ss_set_cwd (v : nat) (s : sstate B) : sstate B := SState (ss_files s) (ss_sz s) (ss_esp s) (ofile s) v.

Definition on_files {A} (m : M (files B) A) : M (sstate B) A := lift ss_files set_ss_files m.
Definition on_inodes {A} (m : M (fstate B) A) : M (sstate B) A := on_files (in_fs m).
Definition begin_tx : M (sstate B) unit := on_files op_begin.
Definition end_tx : M (sstate B) unit := on_files op_end.
(** [end_op(); return -1]. *)
Definition fail_tx : M (sstate B) Z := end_tx ;;; ret (-1).

Definition user_mem (s : sstate B) : mem := umem (fl_p (ss_files s)).
Definition get_int (n : Z) : M (sstate B) (option Z) := gets (λ s, argint (user_mem s) (ss_sz s) (ss_esp s) n).
Definition get_ptr (n size : Z) : M (sstate B) (option Z) := gets (λ s, argptr (user_mem s) (ss_sz s) (ss_esp s) n size).
(** The string itself. *)
Definition get_str (n : Z) : M (sstate B) (option (list Z)) :=
  gets (λ s, (λ p, bytes_at (user_mem s) p.1 (Z.to_nat p.2)) <$> argstr (user_mem s) (ss_sz s) (ss_esp s) n).

(** ** Descriptors *)

(** The descriptor and the file. *)
Definition argfd (n : Z) : M (sstate B) (option (nat * nat)) :=
  a <- get_int n ;;
  match a with
  | None => ret None
  | Some fd =>
      if (fd <? 0) || (fd >=? Z.of_nat NOFILE) then ret None
      else
        t <- gets ofile ;;
        match t !! Z.to_nat fd with
        | Some (Some f) => ret (Some (Z.to_nat fd, f))
        | _ => ret None
        end
  end.

(** The first free descriptor. *)
Fixpoint find_fd (fd : nat) (t : list (option nat)) : option nat :=
  match t with
  | [] => None
  | None :: _ => Some fd
  | Some _ :: t' => find_fd (S fd) t'
  end.

Definition fdalloc (f : nat) : M (sstate B) (option nat) :=
  t <- gets ofile ;;
  match find_fd 0 t with
  | Some fd => modify (ss_set_ofile (<[fd := Some f]> t)) ;;; ret (Some fd)
  | None => ret None
  end.

Definition sys_dup : M (sstate B) Z :=
  a <- argfd 0 ;;
  match a with
  | None => ret (-1)
  | Some (_, f) =>
      r <- fdalloc f ;;
      match r with
      | None => ret (-1)
      | Some fd => on_files (filedup f) ;;; ret (Z.of_nat fd)
      end
  end.

Definition sys_read : M (sstate B) ioret :=
  a <- argfd 0 ;;
  b <- get_int 2 ;;
  match a, b with
  | Some (_, f), Some n =>
      p <- get_ptr 1 n ;;
      match p with
      | None => ret (Ret (-1))
      | Some p => on_files (fileread devsw_read f p n)
      end
  | _, _ => ret (Ret (-1))
  end.

Definition sys_write : M (sstate B) ioret :=
  a <- argfd 0 ;;
  b <- get_int 2 ;;
  match a, b with
  | Some (_, f), Some n =>
      p <- get_ptr 1 n ;;
      match p with
      | None => ret (Ret (-1))
      | Some p => on_files (filewrite devsw_write f p n)
      end
  | _, _ => ret (Ret (-1))
  end.

Definition sys_close : M (sstate B) Z :=
  a <- argfd 0 ;;
  match a with
  | None => ret (-1)
  | Some (fd, f) =>
      modify (λ s, ss_set_ofile (<[fd := None]> (ofile s)) s) ;;;
      on_files (fileclose kend f) ;;;
      ret 0
  end.

Definition sys_fstat : M (sstate B) Z :=
  a <- argfd 0 ;;
  match a with
  | None => ret (-1)
  | Some (_, f) =>
      p <- get_ptr 1 20 ;;
      match p with
      | None => ret (-1)
      | Some st => on_files (filestat f st)
      end
  end.

(** ** Links *)

(** The label [bad] of [sys_link]. *)
Definition link_bad (ip : nat) : M (sstate B) Z :=
  on_inodes (ilock ip) ;;;
  on_inodes (upd_inode ip (λ x, set_i_nlink (s16 (i_nlink x - 1)) x)) ;;;
  on_inodes (iupdate ip) ;;;
  on_inodes (iunlockput ip) ;;;
  fail_tx.

Definition sys_link : M (sstate B) Z :=
  a <- get_str 0 ;;
  b <- get_str 1 ;;
  match a, b with
  | Some old, Some new =>
      begin_tx ;;;
      wd <- gets cwd ;;
      r <- on_inodes (namei devsw_read wd old) ;;
      match r with
      | None => fail_tx
      | Some ip =>
          on_inodes (ilock ip) ;;;
          x <- gets (λ s, the_inode ip (fl_fs (ss_files s))) ;;
          if i_type x =? T_DIR then on_inodes (iunlockput ip) ;;; fail_tx
          else
            on_inodes (upd_inode ip (λ x, set_i_nlink (s16 (i_nlink x + 1)) x)) ;;;
            on_inodes (iupdate ip) ;;;
            on_inodes (iunlock ip) ;;;
            d <- on_inodes (nameiparent devsw_read wd new (replicate 14 0)) ;;
            match d with
            | (None, _) => link_bad ip
            | (Some dp, name) =>
                on_inodes (ilock dp) ;;;
                dx <- gets (λ s, the_inode dp (fl_fs (ss_files s))) ;;
                x <- gets (λ s, the_inode ip (fl_fs (ss_files s))) ;;
                l <- (if negb (i_dev dx =? i_dev x) then ret (-1)
                      else on_inodes (dirlink devsw_read devsw_write dp name (i_inum x))) ;;
                if l <? 0 then on_inodes (iunlockput dp) ;;; link_bad ip
                else
                  on_inodes (iunlockput dp) ;;;
                  on_inodes (iput ip) ;;;
                  end_tx ;;;
                  ret 0
            end
      end
  | _, _ => ret (-1)
  end.

Fixpoint isdirempty_loop (fuel : nat) (dp : nat) (off : Z) : M (fstate B) bool :=
  size <- gets (λ s, i_size (the_inode dp s)) ;;
  if off <? size then
    match fuel with
    | O => nofuel
    | S fuel' =>
        r <- readi devsw_read dp (λ _, 0) 0 off 16 ;;
        if negb (r.1 =? 16) then panic "isdirempty: readi"
        else if negb (de_inum r.2 0 =? 0) then ret false
        else isdirempty_loop fuel' dp (off + 16)
    end
  else ret true.

Definition isdirempty (dp : nat) : M (fstate B) bool :=
  size <- gets (λ s, i_size (the_inode dp s)) ;;
  isdirempty_loop (Z.to_nat (size / 16 + 1)) dp 32.

(** The label [bad] of [sys_unlink]. *)
Definition unlink_bad (dp : nat) : M (sstate B) Z :=
  on_inodes (iunlockput dp) ;;;
  fail_tx.

Definition sys_unlink : M (sstate B) Z :=
  a <- get_str 0 ;;
  match a with
  | None => ret (-1)
  | Some path =>
      begin_tx ;;;
      wd <- gets cwd ;;
      d <- on_inodes (nameiparent devsw_read wd path (replicate 14 0)) ;;
      match d with
      | (None, _) => fail_tx
      | (Some dp, name) =>
          on_inodes (ilock dp) ;;;
          if (namecmp name (codes ".") =? 0) || (namecmp name (codes "..") =? 0) then unlink_bad dp
          else
            r <- on_inodes (dirlookup devsw_read dp name) ;;
            match r with
            | None => unlink_bad dp
            | Some (ip, off) =>
                on_inodes (ilock ip) ;;;
                x <- gets (λ s, the_inode ip (fl_fs (ss_files s))) ;;
                if i_nlink x <? 1 then panic "unlink: nlink < 1"
                else
                  full <- (if i_type x =? T_DIR then e <- on_inodes (isdirempty ip) ;; ret (negb e) else ret false) ;;
                  if full : bool then on_inodes (iunlockput ip) ;;; unlink_bad dp
                  else
                    w <- on_inodes (writei devsw_write dp (λ _, 0) 0 off 16) ;;
                    if negb (w =? 16) then panic "unlink: writei"
                    else
                      when (i_type x =? T_DIR) (
                        on_inodes (upd_inode dp (λ x, set_i_nlink (s16 (i_nlink x - 1)) x)) ;;;
                        on_inodes (iupdate dp)) ;;;
                      on_inodes (iunlockput dp) ;;;
                      on_inodes (upd_inode ip (λ x, set_i_nlink (s16 (i_nlink x - 1)) x)) ;;;
                      on_inodes (iupdate ip) ;;;
                      on_inodes (iunlockput ip) ;;;
                      end_tx ;;;
                      ret 0
            end
      end
  end.
(** ** Creating *)

(** The entries "." and ".." of a new directory. *)
Definition create_dots (dp ip : nat) : M (fstate B) unit :=
  upd_inode dp (λ x, set_i_nlink (s16 (i_nlink x + 1)) x) ;;;
  iupdate dp ;;;
  inum <- gets (λ s, i_inum (the_inode ip s)) ;;
  a <- dirlink devsw_read devsw_write ip (codes ".") inum ;;
  if a <? 0 then panic "create dots"
  else
    dnum <- gets (λ s, i_inum (the_inode dp s)) ;;
    b <- dirlink devsw_read devsw_write ip (codes "..") dnum ;;
    when (b <? 0) (panic "create dots").

Definition create (wd : nat) (path : list Z) (type major minor : Z) : M (fstate B) (option nat) :=
  d <- nameiparent devsw_read wd path (replicate 14 0) ;;
  match d with
  | (None, _) => ret None
  | (Some dp, name) =>
      ilock dp ;;;
      r <- dirlookup devsw_read dp name ;;
      match r with
      | Some (ip, _) =>
          iunlockput dp ;;;
          ilock ip ;;;
          x <- gets (the_inode ip) ;;
          if (type =? T_FILE) && (i_type x =? T_FILE) then ret (Some ip)
          else iunlockput ip ;;; ret None
      | None =>
          dev <- gets (λ s, i_dev (the_inode dp s)) ;;
          ip <- ialloc dev type ;;
          ilock ip ;;;
          upd_inode ip (λ x, set_i_nlink 1 (set_i_minor minor (set_i_major major x))) ;;;
          iupdate ip ;;;
          when (type =? T_DIR) (create_dots dp ip) ;;;
          inum <- gets (λ s, i_inum (the_inode ip s)) ;;
          l <- dirlink devsw_read devsw_write dp name inum ;;
          if l <? 0 then panic "create: dirlink"
          else iunlockput dp ;;; ret (Some ip)
      end
  end.

(** The inode [sys_open] opens, locked. *)
Definition open_inode (path : list Z) (omode : Z) : M (sstate B) (option nat) :=
  wd <- gets cwd ;;
  if negb (Z.land omode O_CREATE =? 0) then on_inodes (create wd path T_FILE 0 0)
  else
    r <- on_inodes (namei devsw_read wd path) ;;
    match r with
    | None => ret None
    | Some ip =>
        on_inodes (ilock ip) ;;;
        x <- gets (λ s, the_inode ip (fl_fs (ss_files s))) ;;
        if (i_type x =? T_DIR) && negb (omode =? O_RDONLY) then on_inodes (iunlockput ip) ;;; ret None
        else ret (Some ip)
    end.

Definition open_file (ip : nat) (omode : Z) (f : file) : file :=
  File FD_INODE (f_ref f) (Z.land omode O_WRONLY =? 0)
       (negb (Z.land omode O_WRONLY =? 0) || negb (Z.land omode O_RDWR =? 0)) (f_pipe f) ip 0.

Definition sys_open : M (sstate B) Z :=
  a <- get_str 0 ;;
  b <- get_int 1 ;;
  match a, b with
  | Some path, Some omode =>
      begin_tx ;;;
      r <- open_inode path omode ;;
      match r with
      | None => fail_tx
      | Some ip =>
          f <- on_files filealloc ;;
          match f with
          | None => on_inodes (iunlockput ip) ;;; fail_tx
          | Some f =>
              d <- fdalloc f ;;
              match d with
              | None =>
                  on_files (fileclose kend f) ;;;
                  on_inodes (iunlockput ip) ;;;
                  fail_tx
              | Some fd =>
                  on_inodes (iunlock ip) ;;;
                  end_tx ;;;
                  on_files (upd_file f (open_file ip omode)) ;;;
                  ret (Z.of_nat fd)
              end
          end
      end
  | _, _ => ret (-1)
  end.

Definition sys_mkdir : M (sstate B) Z :=
  begin_tx ;;;
  a <- get_str 0 ;;
  match a with
  | None => fail_tx
  | Some path =>
      wd <- gets cwd ;;
      r <- on_inodes (create wd path T_DIR 0 0) ;;
      match r with
      | None => fail_tx
      | Some ip => on_inodes (iunlockput ip) ;;; end_tx ;;; ret 0
      end
  end.

Definition sys_mknod : M (sstate B) Z :=
  begin_tx ;;;
  a <- get_str 0 ;;
  b <- get_int 1 ;;
  c <- get_int 2 ;;
  match a, b, c with
  | Some path, Some major, Some minor =>
      wd <- gets cwd ;;
      r <- on_inodes (create wd path T_DEV (s16 major) (s16 minor)) ;;
      match r with
      | None => fail_tx
      | Some ip => on_inodes (iunlockput ip) ;;; end_tx ;;; ret 0
      end
  | _, _, _ => fail_tx
  end.

Definition sys_chdir : M (sstate B) Z :=
  begin_tx ;;;
  a <- get_str 0 ;;
  match a with
  | None => fail_tx
  | Some path =>
      wd <- gets cwd ;;
      r <- on_inodes (namei devsw_read wd path) ;;
      match r with
      | None => fail_tx
      | Some ip =>
          on_inodes (ilock ip) ;;;
          x <- gets (λ s, the_inode ip (fl_fs (ss_files s))) ;;
          if negb (i_type x =? T_DIR) then on_inodes (iunlockput ip) ;;; fail_tx
          else
            on_inodes (iunlock ip) ;;;
            on_inodes (iput wd) ;;;
            end_tx ;;;
            modify (ss_set_cwd ip) ;;;
            ret 0
      end
  end.

(** [fileclose(rf); fileclose(wf); return -1] of [sys_pipe]. *)
Definition pipe_fail (rf wf : nat) : M (sstate B) Z :=
  on_files (fileclose kend rf) ;;;
  on_files (fileclose kend wf) ;;;
  ret (-1).

Definition sys_pipe : M (sstate B) Z :=
  a <- get_ptr 0 8 ;;
  match a with
  | None => ret (-1)
  | Some fd =>
      r <- on_files (pipealloc kend) ;;
      match r with
      | None => ret (-1)
      | Some (rf, wf) =>
          a0 <- fdalloc rf ;;
          match a0 with
          | None => pipe_fail rf wf
          | Some fd0 =>
              a1 <- fdalloc wf ;;
              match a1 with
              | None =>
                  modify (λ s, ss_set_ofile (<[fd0 := None]> (ofile s)) s) ;;;
                  pipe_fail rf wf
              | Some fd1 =>
                  on_files (modify (λ s, set_umem (store32 (store32 (umem (fl_p s)) fd (Z.of_nat fd0)) (fd + 4) (Z.of_nat fd1)) s)) ;;;
                  ret 0
              end
          end
      end
  end.
End sysfile.
