(* ===== verification/Exec.v ===== *)
(** * Replacing the program of a process (exec.c, sys_exec of sysfile.c)

    [exec] runs on the state of the kernel with the operations of fs.c and log.c
    it calls behind the interface [ExecOps].  Addresses below KERNBASE in [ram]
    are the memory of the running process as its page table shows it; the code
    of exec only reads them.  The local array [ustack] is on the kernel stack at
    the address [ustack]; the headers read from the file are local too and are
    read into a memory of their own.  The bytes of the path are taken once.  The
    label [bad] is a definition. *)

From Stdlib Require Import ZArith Lia String.
From stdpp Require Import base numbers list gmap strings.
From S2P Require Import Prelude Mem Str Mmu Kalloc Vm Spinlock Blocks Fs Proc File Syscall Sysfile.

(** ** elf.h *)

Definition ELF_MAGIC : Z := 0x464C457F.
Definition ELF_PROG_LOAD : Z := 1.

Record elfhdr : Type := Elfhdr {
  e_magic : Z;
  e_elf : list Z;
  e_type : Z;
  e_machine : Z;
  e_version : Z;
  e_entry : Z;
  e_phoff : Z;
  e_shoff : Z;
  e_flags : Z;
  e_ehsize : Z;
  e_phentsize : Z;
  e_phnum : Z;
  e_shentsize : Z;
  e_shnum : Z;
  e_shstrndx : Z
}.

Definition elfhdr_at (m : mem) : elfhdr :=
  Elfhdr (load32 m 0) (bytes_at m 4 12) (load16 m 16) (load16 m 18) (load32 m 20) (load32 m 24)
         (load32 m 28) (load32 m 32) (load32 m 36) (load16 m 40) (load16 m 42) (load16 m 44)
         (load16 m 46) (load16 m 48) (load16 m 50).

Record proghdr : Type := Proghdr {
  ph_type : Z;
  ph_off : Z;
  ph_vaddr : Z;
  ph_paddr : Z;
  ph_filesz : Z;
  ph_memsz : Z;
  ph_flags : Z;
  ph_align : Z
}.

Definition proghdr_at (m : mem) : proghdr :=
  Proghdr (load32 m 0) (load32 m 4) (load32 m 8) (load32 m 12)
          (load32 m 16) (load32 m 20) (load32 m 24) (load32 m 28).

(** ** What exec calls of fs.c and log.c *)

Class ExecOps (F : Type) : Type := {
  eo_begin_op : M F unit;
  eo_end_op : M F unit;
  eo_namei : option nat → list Z → M F (option nat);
  eo_ilock : nat → M F unit;
  eo_iunlockput : nat → M F unit;
  eo_readi : nat → mem → Z → Z → Z → M F (Z * mem)
}.

(** The operations of Fs.v and of the log.  A process without current directory
    can not look up a name. *)
#[export] Instance fs_exec {B : Type} `{!BlockOps B} `{!TxOps B}
    (devsw_read : Z → option (devfn B)) : ExecOps (fstate B) := {|
  eo_begin_op := on_bs tx_begin;
  eo_end_op := on_bs tx_end;
  eo_namei cwd path := match cwd with Some c => namei devsw_read c path | None => fault end;
  eo_ilock := ilock;
  eo_iunlockput := iunlockput;
  eo_readi := readi devsw_read
|}.

Section exec.
Context {F : Type} `{!ExecOps F}.
(** [kend] and [kdata] are linker symbols. *)
Context (kend kdata ustack : Z).

(** [strlen] on the memory of the machine, with a bound on the length. *)
Definition get_strlen (fuel : nat) (a : Z) : M (kstate F) Z :=
  m <- gets (λ s, ram (k_m s)) ;;
  match strlen fuel m a with Some n => ret n | None => nofuel end.

(** [readi] into a local structure and into a page. *)
Definition read_local (ip : nat) (off n : Z) : M (kstate F) (Z * mem) :=
  on_fs (eo_readi ip (λ _, 0) 0 off n).
Definition read_page (ip : nat) (dst off n : Z) : M (kstate F) Z :=
  m <- gets (λ s, ram (k_m s)) ;;
  r <- on_fs (eo_readi ip m dst off n) ;;
  on_m (modify (set_ram r.2)) ;;;
  ret r.1.

(** The label [bad]. *)
Definition exec_bad (pgdir : Z) (ip : option nat) : M (kstate F) Z :=
  (if pgdir =? 0 then ret tt else on_m (freevm kend pgdir)) ;;;
  match ip with
  | Some ip => on_fs (eo_iunlockput ip) ;;; on_fs eo_end_op
  | None => ret tt
  end ;;;
  ret (-1).

(** One segment of the program: the new size, or [None] for [goto bad]. *)
Definition load_segment (ip : nat) (pgdir : Z) (ph : proghdr) (sz : Z) : M (kstate F) (option Z) :=
  if ph_memsz ph <? ph_filesz ph then ret None
  else if u32 (ph_vaddr ph + ph_memsz ph) <? ph_vaddr ph then ret None
  else
    sz <- on_m (allocuvm kend pgdir sz (u32 (ph_vaddr ph + ph_memsz ph))) ;;
    if sz =? 0 then ret None
    else if negb (ph_vaddr ph mod PGSIZE =? 0) then ret None
    else
      r <- loaduvm k_m set_k_m (read_page ip) pgdir (ph_vaddr ph) (ph_off ph) (ph_filesz ph) ;;
      if r <? 0 then ret None else ret (Some sz).

(** The loop over the [n] program headers left. *)
Fixpoint load_segments (ip : nat) (pgdir : Z) (n : nat) (off sz : Z) : M (kstate F) (option Z) :=
  match n with
  | O => ret (Some sz)
  | S n' =>
      r <- read_local ip off 32 ;;
      if negb (r.1 =? 32) then ret None
      else
        let ph := proghdr_at r.2 in
        if negb (ph_type ph =? ELF_PROG_LOAD) then load_segments ip pgdir n' (u32 (off + 32)) sz
        else
          r <- load_segment ip pgdir ph sz ;;
          match r with
          | None => ret None
          | Some sz => load_segments ip pgdir n' (u32 (off + 32)) sz
          end
  end.

(** The loop that pushes the argument strings; the final [argc] and [sp]. *)
Fixpoint push_args (fuel : nat) (pgdir : Z) (argv : list Z) (argc sp : Z) : M (kstate F) (option (Z * Z)) :=
  match argv with
  | [] => ret (Some (argc, sp))
  | a :: argv' =>
      if argc >=? Z.of_nat MAXARG then ret None
      else
        n <- get_strlen fuel a ;;
        let sp := Z.land (u32 (sp - (n + 1))) 0xFFFFFFFC in
        r <- on_m (copyout pgdir sp a (n + 1)) ;;
        if r <? 0 then ret None
        else
          on_m (st32 (ustack + 4 * (3 + argc)) sp) ;;;
          push_args fuel pgdir argv' (argc + 1) sp
  end.

(** The loop that finds the last element of the path: its position. *)
Fixpoint last_elem (path : list Z) (i last : nat) : nat :=
  match path with
  | [] => last
  | c :: path' => last_elem path' (S i) (if c =? 47 then S i else last)
  end.

(** The name, and the commit to the user image. *)
Definition exec_commit (i : nat) (path : list Z) (elf : elfhdr) (pgdir sz sp : Z) : M (kstate F) Z :=
  upd i (set_name (take 15 (drop (last_elem path 0 0) path))) ;;;
  p <- gets (λ s, get_proc i (procs s)) ;;
  let oldpgdir := pr_pgdir p in
  upd i (set_pgdir pgdir) ;;;
  upd i (set_sz sz) ;;;
  on_m (st32 (pr_tf p + 56) (e_entry elf)) ;;;
  on_m (st32 (pr_tf p + 68) sp) ;;;
  switchuvm i ;;;
  on_m (freevm kend oldpgdir) ;;;
  ret 0.

(** The words above the strings. *)
Definition exec_frame (i : nat) (path : list Z) (elf : elfhdr) (pgdir sz argc sp : Z) : M (kstate F) Z :=
  on_m (st32 (ustack + 4 * (3 + argc)) 0) ;;;
  on_m (st32 ustack 0xFFFFFFFF) ;;;
  on_m (st32 (ustack + 4) argc) ;;;
  on_m (st32 (ustack + 8) (u32 (sp - (argc + 1) * 4))) ;;;
  let sp := u32 (sp - (3 + argc + 1) * 4) in
  r <- on_m (copyout pgdir sp ustack ((3 + argc + 1) * 4)) ;;
  if r <? 0 then exec_bad pgdir None
  else exec_commit i path elf pgdir sz sp.

(** The file is read: from the stack on. *)
Definition exec_stack (fuel i : nat) (path : list Z) (argv : list Z) (elf : elfhdr) (pgdir sz : Z) : M (kstate F) Z :=
  let sz := PGROUNDUP sz in
  sz <- on_m (allocuvm kend pgdir sz (u32 (sz + 2 * PGSIZE))) ;;
  if sz =? 0 then exec_bad pgdir None
  else
    on_m (clearpteu pgdir (u32 (sz - 2 * PGSIZE))) ;;;
    r <- push_args fuel pgdir argv 0 sz ;;
    match r with
    | None => exec_bad pgdir None
    | Some (argc, sp) => exec_frame i path elf pgdir sz argc sp
    end.

(** From the check of the header on, with the file locked. *)
Definition exec_file (fuel i ip : nat) (path argv : list Z) : M (kstate F) Z :=
  r <- read_local ip 0 52 ;;
  let elf := elfhdr_at r.2 in
  if negb (r.1 =? 52) then exec_bad 0 (Some ip)
  else if negb (e_magic elf =? ELF_MAGIC) then exec_bad 0 (Some ip)
  else
    pgdir <- on_m (setupkvm kend kdata) ;;
    if pgdir =? 0 then exec_bad 0 (Some ip)
    else
      r <- load_segments ip pgdir (Z.to_nat (e_phnum elf)) (e_phoff elf) 0 ;;
      match r with
      | None => exec_bad pgdir (Some ip)
      | Some sz =>
          on_fs (eo_iunlockput ip) ;;;
          on_fs eo_end_op ;;;
          exec_stack fuel i path argv elf pgdir sz
      end.

Definition exec (fuel : nat) (path : Z) (argv : list Z) : M (kstate F) Z :=
  i <- curproc ;;
  on_fs eo_begin_op ;;;
  n <- get_strlen fuel path ;;
  bs <- gets (λ s, bytes_at (ram (k_m s)) path (Z.to_nat n)) ;;
  cwd <- gets (λ s, pr_cwd (get_proc i (procs s))) ;;
  ip <- on_fs (eo_namei cwd bs) ;;
  match ip with
  | None => on_fs eo_end_op ;;; on_m (cprintf "exec: fail") ;;; ret (-1)
  | Some ip =>
      on_fs (eo_ilock ip) ;;;
      exec_file fuel i ip bs argv
  end.

(** ** sys_exec *)

(** The loop over the argument pointers; [None] for an error. *)
Fixpoint fetch_args (n : nat) (m : mem) (sz uargv i : Z) : option (list Z) :=
  match n with
  | O => None
  | S n' =>
      match fetchint m sz (u32 (uargv + 4 * i)) with
      | None => None
      | Some uarg =>
          if u32 uarg =? 0 then Some []
          else match fetchstr m sz (u32 uarg) with
               | None => None
               | Some _ => cons (u32 uarg) <$> fetch_args n' m sz uargv (i + 1)
               end
      end
  end.

Definition sys_exec : M (kstate F) Z :=
  i <- curproc ;;
  m <- gets (λ s, ram (k_m s)) ;;
  p <- gets (λ s, get_proc i (procs s)) ;;
  let sz := pr_sz p in
  let esp := load32 m (pr_tf p + 68) in
  match argstr m sz esp 0, argint m sz esp 1 with
  | Some (path, _), Some uargv =>
      match fetch_args MAXARG m sz (u32 uargv) 0 with
      | None => ret (-1)
      | Some argv => exec (Z.to_nat sz) path argv
      end
  | _, _ => ret (-1)
  end.
End exec.
