(* ===== verification/Trap.v ===== *)
(** * Traps and the system calls of processes (trap.c, syscall.c, sysproc.c)

    A trap is handled by the kernel on behalf of the current process: a system
    call, an interrupt, or a fault.  The handling may give up the CPU; it is then
    cut at the context switch, and [trap_resume] is the rest, from the place in
    the code ([tpoint]) where the process was switched away.  The clock of trap.c
    is a part of the state below the process table, beside the files.  The
    system calls on files and the interrupt handlers of the devices are used
    through the classes [FileCalls] and [TrapDevs]. *)

From Stdlib Require Import ZArith Lia String.
From stdpp Require Import base numbers list strings relations.
From S2P Require Import Prelude Mem Mmu Kalloc Vm Spinlock Proc ProcFacts ProcClaims Syscall Fs Sysfile Exec.

Definition T_SYSCALL : Z := 64.
Definition T_IRQ0 : Z := 32.
Definition IRQ_TIMER : Z := 0.
Definition IRQ_KBD : Z := 1.
Definition IRQ_COM1 : Z := 4.
Definition IRQ_IDE : Z := 14.
Definition IRQ_SPURIOUS : Z := 31.

(** ** The interrupt descriptor table *)

Definition SEG_KCODE : Z := 1.
Definition STS_IG32 : Z := 0xE.
Definition STS_TG32 : Z := 0xF.

Record gatedesc : Type := Gatedesc {
  g_off_15_0 : Z;
  g_cs : Z;
  g_args : Z;
  g_rsv1 : Z;
  g_type : Z;
  g_s : Z;
  g_dpl : Z;
  g_p : Z;
  g_off_31_16 : Z
}.

(** Assignment to a bit field keeps its low bits. *)
Definition SETGATE (istrap : bool) (sel off d : Z) : gatedesc :=
  Gatedesc (Z.land (u32 off) 0xffff) (sel mod 2 ^ 16) 0 0 (if istrap then STS_TG32 else STS_IG32) 0 (d mod 2 ^ 2) 1 (Z.shiftr (u32 off) 16).

(** The loop of [tvinit] from [i] on, and the gate of the system calls. *)
Fixpoint tvinit_loop (n : nat) (i : nat) (vectors : nat → Z) : list gatedesc :=
  match n with
  | O => []
  | S n' => SETGATE false (Z.shiftl SEG_KCODE 3) (vectors i) 0 :: tvinit_loop n' (S i) vectors
  end.
Definition tvinit (vectors : nat → Z) : list gatedesc :=
  <[Z.to_nat T_SYSCALL := SETGATE true (Z.shiftl SEG_KCODE 3) (vectors (Z.to_nat T_SYSCALL)) DPL_USER]> (tvinit_loop 256 0 vectors).

(** The two words of a gate as the processor reads them. *)
Definition gate_words (g : gatedesc) : Z * Z :=
  (g_off_15_0 g + Z.shiftl (g_cs g) 16,
   g_args g + Z.shiftl (g_rsv1 g) 5 + Z.shiftl (g_type g) 8 + Z.shiftl (g_s g) 12 + Z.shiftl (g_dpl g) 13 + Z.shiftl (g_p g) 15 + Z.shiftl (g_off_31_16 g) 16).

(** ** Segments (SEG of mmu.h, seginit of vm/vm.c) *)

Definition SEG_KDATA : Z := 2.
Definition NSEGS : nat := 6.
Definition STA_X : Z := 0x8.
Definition STA_W : Z := 0x2.
Definition STA_R : Z := 0x2.

Record segdesc : Type := Segdesc {
  sd_lim_15_0 : Z;
  sd_base_15_0 : Z;
  sd_base_23_16 : Z;
  sd_type : Z;
  sd_s : Z;
  sd_dpl : Z;
  sd_p : Z;
  sd_lim_19_16 : Z;
  sd_avl : Z;
  sd_rsv1 : Z;
  sd_db : Z;
  sd_g : Z;
  sd_base_31_24 : Z
}.

Definition SEG (type base lim dpl : Z) : segdesc :=
  Segdesc (Z.land (Z.shiftr lim 12) 0xffff) (Z.land (u32 base) 0xffff) (Z.land (Z.shiftr (u32 base) 16) 0xff) type 1 dpl 1
          (Z.shiftr (u32 lim) 28) 0 0 1 1 (Z.shiftr (u32 base) 24).

(** The table of this CPU before and after. *)
Definition seginit (gdt : list segdesc) : list segdesc :=
  <[Z.to_nat SEG_UDATA := SEG STA_W 0 0xffffffff DPL_USER]>
  (<[Z.to_nat SEG_UCODE := SEG (Z.lor STA_X STA_R) 0 0xffffffff DPL_USER]>
  (<[Z.to_nat SEG_KDATA := SEG STA_W 0 0xffffffff 0]>
  (<[Z.to_nat SEG_KCODE := SEG (Z.lor STA_X STA_R) 0 0xffffffff 0]> gdt))).

(** The two words of a descriptor as the processor reads them. *)
Definition seg_words (d : segdesc) : Z * Z :=
  (sd_lim_15_0 d + Z.shiftl (sd_base_15_0 d) 16,
   sd_base_23_16 d + Z.shiftl (sd_type d) 8 + Z.shiftl (sd_s d) 12 + Z.shiftl (sd_dpl d) 13 + Z.shiftl (sd_p d) 15 + Z.shiftl (sd_lim_19_16 d) 16 +
   Z.shiftl (sd_avl d) 20 + Z.shiftl (sd_rsv1 d) 21 + Z.shiftl (sd_db d) 22 + Z.shiftl (sd_g d) 23 + Z.shiftl (sd_base_31_24 d) 24).

(** ** The clock *)

Record clock {F : Type} : Type := Clock {
  ticks : Z;
  tk_lock : bool;
  ck_fs : F
}.
#[global] Arguments clock F : clear implicits.
#[global] Arguments Clock {F}.

Definition set_ticks {F} t (c : clock F) : clock F := Clock t (tk_lock c) (ck_fs c).
Definition set_tk_lock {F} b (c : clock F) : clock F := Clock (ticks c) b (ck_fs c).
Definition set_ck_fs {F} f (c : clock F) : clock F := Clock (ticks c) (tk_lock c) f.

Definition below_clock {F A} (m : M F A) : M (clock F) A := lift ck_fs set_ck_fs m.

#[export] Instance clock_files {F} `{!FileOps F} : FileOps (clock F) := {|
  fo_filedup f := below_clock (fo_filedup f);
  fo_fileclose f := below_clock (fo_fileclose f);
  fo_idup i := below_clock (fo_idup i);
  fo_iput i := below_clock (fo_iput i);
  fo_begin_op := below_clock fo_begin_op;
  fo_end_op := below_clock fo_end_op;
  fo_namei_root := below_clock fo_namei_root;
  fo_init := below_clock fo_init
|}.

#[export] Instance clock_exec {F} `{!ExecOps F} : ExecOps (clock F) := {|
  eo_begin_op := below_clock eo_begin_op;
  eo_end_op := below_clock eo_end_op;
  eo_namei cwd path := below_clock (eo_namei cwd path);
  eo_ilock i := below_clock (eo_ilock i);
  eo_iunlockput i := below_clock (eo_iunlockput i);
  eo_readi i m a o n := below_clock (eo_readi i m a o n)
|}.

(** ** Interfaces *)

Inductive filecall : Type :=
  | C_pipe | C_read | C_fstat | C_chdir | C_dup | C_open | C_write | C_mknod | C_unlink | C_link | C_mkdir | C_close.

(** The system calls of sysfile.c: a result, or the place where the process was
    switched away. *)
Class FileCalls (F : Type) : Type := {
  fc_point : Type;
  fc_call : filecall → M (kstate (clock F)) (Z + fc_point);
  fc_resume : fc_point → M (kstate (clock F)) (Z + fc_point)
}.

(** The handlers of ide.c, kbd.c and uart.c and the acknowledgement of lapic.c. *)
Class TrapDevs (F : Type) : Type := {
  td_ideintr : M (kstate (clock F)) unit;
  td_kbdintr : M (kstate (clock F)) unit;
  td_uartintr : M (kstate (clock F)) unit;
  td_lapiceoi : M (kstate (clock F)) unit
}.

(** The places where a process can be switched away in a system call. *)
Inductive cpoint {P : Type} : Type :=
  | InWait (saved : bool)
  | InSleep (ticks0 n : Z) (saved : bool)
  | InFile (p : P).
#[global] Arguments cpoint P : clear implicits.

(** What becomes of a system call: a result, the exit of the process, or a
    switch to another process. *)
Inductive sysret {P : Type} : Type :=
  | Value (v : Z)
  | Gone
  | Asleep (p : cpoint P).
#[global] Arguments sysret P : clear implicits.

Section trap.
Context {F : Type} `{!FileOps F} `{!ExecOps F} `{!FileCalls F} `{!TrapDevs F}.
(** Addresses of the kernel and of its variables, the APIC ids of the CPUs that
    mp.c found, and the id of this one. *)
Context (kend kdata ustack ptable_proc forkret_addr trapret_addr ticks_addr : Z) (apicids : list Z) (lapicid : Z).

Notation K := (kstate (clock F)).
Notation pt := (cpoint fc_point).

(** ** This CPU *)

(** The index of the first CPU with this id, from [i] on. *)
Fixpoint find_cpu (i : nat) (ids : list Z) (apicid : Z) : option nat :=
  match ids with
  | [] => None
  | a :: ids' => if a =? apicid then Some i else find_cpu (S i) ids' apicid
  end.

Definition mycpu : M K nat :=
  c <- gets k_cpu ;;
  if eflags_if c then panic "mycpu called with interrupts enabled"
  else match find_cpu 0 apicids lapicid with
       | Some i => ret i
       | None => panic "unknown apicid"
       end.
Definition cpuid : M K nat := mycpu.

(** ** sysproc.c *)

(** The argument [n] of the current system call. *)
Definition proc_arg (n : Z) : M K (option Z) :=
  i <- curproc ;;
  m <- gets (λ s, ram (k_m s)) ;;
  p <- gets (λ s, get_proc i (procs s)) ;;
  ret (argint m (pr_sz p) (load32 m (pr_tf p + 68)) n).

Definition sys_fork : M K (sysret fc_point) :=
  v <- fork kend kdata forkret_addr trapret_addr ;;
  ret (Value v).

Definition sys_exit : M K (sysret fc_point) :=
  exit ptable_proc ;;;
  ret Gone.

(** [wait], and the [intena] that its [sched] saved. *)
Definition waited (r : option Z) : M K (sysret fc_point) :=
  match r with
  | Some v => ret (Value v)
  | None => c <- gets k_cpu ;; ret (Asleep (InWait (intena c)))
  end.
Definition sys_wait : M K (sysret fc_point) :=
  r <- wait kend ptable_proc ;;
  waited r.

Definition sys_kill : M K (sysret fc_point) :=
  a <- proc_arg 0 ;;
  match a with
  | None => ret (Value (-1))
  | Some pid => v <- kill pid ;; ret (Value v)
  end.

Definition sys_getpid : M K (sysret fc_point) :=
  i <- curproc ;;
  p <- gets (λ s, get_proc i (procs s)) ;;
  ret (Value (pr_pid p)).

Definition sys_sbrk : M K (sysret fc_point) :=
  a <- proc_arg 0 ;;
  match a with
  | None => ret (Value (-1))
  | Some n =>
      i <- curproc ;;
      p <- gets (λ s, get_proc i (procs s)) ;;
      let addr := s32 (pr_sz p) in
      r <- growproc kend n ;;
      if r <? 0 then ret (Value (-1)) else ret (Value addr)
  end.

(** [acquire(&tickslock)] and [release(&tickslock)]. *)
Definition tk_acquire : M K unit :=
  on_c pushcli ;;;
  on_fs (acquire tk_lock set_tk_lock).
Definition tk_release : M K unit :=
  on_fs (release tk_lock set_tk_lock) ;;;
  on_c popcli.

(** The loop of [sys_sleep] from its test on, up to a call of [sleep].  The
    comparison is one of unsigned numbers. *)
Definition sleep_test (ticks0 n : Z) : M K (sysret fc_point) :=
  t <- gets (λ s, ticks (k_fs s)) ;;
  if u32 (t - ticks0) <? u32 n then
    i <- curproc ;;
    p <- gets (λ s, get_proc i (procs s)) ;;
    if pr_killed p then tk_release ;;; ret (Value (-1))
    else
      saved <- sleep_enter ticks_addr (Some tk_release) ;;
      ret (Asleep (InSleep ticks0 n saved))
  else
    tk_release ;;;
    ret (Value 0).

Definition sys_sleep : M K (sysret fc_point) :=
  a <- proc_arg 0 ;;
  match a with
  | None => ret (Value (-1))
  | Some n =>
      tk_acquire ;;;
      ticks0 <- gets (λ s, ticks (k_fs s)) ;;
      sleep_test ticks0 n
  end.

Definition sys_uptime : M K (sysret fc_point) :=
  tk_acquire ;;;
  xticks <- gets (λ s, ticks (k_fs s)) ;;
  tk_release ;;;
  ret (Value (s32 xticks)).

(** ** syscall *)

Definition filed_call (r : Z + fc_point) : M K (sysret fc_point) :=
  ret match r with inl v => Value v | inr p => Asleep (InFile p) end.
Definition file_call (c : filecall) : M K (sysret fc_point) :=
  r <- fc_call c ;;
  filed_call r.

Definition syscalls (num : Z) : option (M K (sysret fc_point)) :=
  match num with
  | 1 => Some sys_fork
  | 2 => Some sys_exit
  | 3 => Some sys_wait
  | 4 => Some (file_call C_pipe)
  | 5 => Some (file_call C_read)
  | 6 => Some sys_kill
  | 7 => Some (v <- sys_exec kend kdata ustack ;; ret (Value v))
  | 8 => Some (file_call C_fstat)
  | 9 => Some (file_call C_chdir)
  | 10 => Some (file_call C_dup)
  | 11 => Some sys_getpid
  | 12 => Some sys_sbrk
  | 13 => Some sys_sleep
  | 14 => Some sys_uptime
  | 15 => Some (file_call C_open)
  | 16 => Some (file_call C_write)
  | 17 => Some (file_call C_mknod)
  | 18 => Some (file_call C_unlink)
  | 19 => Some (file_call C_link)
  | 20 => Some (file_call C_mkdir)
  | 21 => Some (file_call C_close)
  | _ => None
  end.

(** [curproc->tf->eax = v]. *)
Definition set_eax (v : Z) : M K unit :=
  i <- curproc ;;
  p <- gets (λ s, get_proc i (procs s)) ;;
  on_m (st32 (pr_tf p + 28) (u32 v)).

Definition syscall_end (r : sysret fc_point) : M K (sysret fc_point) :=
  match r with
  | Value v => set_eax v ;;; ret r
  | _ => ret r
  end.

Definition syscall : M K (sysret fc_point) :=
  i <- curproc ;;
  p <- gets (λ s, get_proc i (procs s)) ;;
  eax <- on_m (ld32 (pr_tf p + 28)) ;;
  let num := s32 eax in
  match (if (num >? 0) && (num <? 22) then syscalls num else None) with
  | Some f => r <- f ;; syscall_end r
  | None => on_m (cprintf "unknown sys call") ;;; syscall_end (Value (-1))
  end.

(** The rest of a system call when its process runs again. *)
Definition call_resume (p : pt) : M K (sysret fc_point) :=
  r <- match p with
       | InWait saved => r <- wait_resume kend ptable_proc saved ;; waited r
       | InSleep ticks0 n saved => sleep_resume saved (Some tk_acquire) ;;; sleep_test ticks0 n
       | InFile q => r <- fc_resume q ;; filed_call r
       end ;;
  syscall_end r.

(** ** trap *)

Inductive tpoint : Type :=
  | PCall (p : pt)
  | PYield (saved : bool).

Inductive status : Type :=
  | Returned
  | Exited
  | Switched (p : tpoint).

(** [myproc()->killed]. *)
Definition killed : M K bool :=
  i <- curproc ;;
  p <- gets (λ s, get_proc i (procs s)) ;;
  ret (pr_killed p).

(** [if(myproc()->killed) exit(); return;] *)
Definition trap_call_end (r : sysret fc_point) : M K status :=
  match r with
  | Value _ =>
      k <- killed ;;
      if (k : bool) then exit ptable_proc ;;; ret Exited else ret Returned
  | Gone => ret Exited
  | Asleep p => ret (Switched (PCall p))
  end.

(** The clock goes on; CPU 0 does it. *)
Definition tick : M K unit :=
  tk_acquire ;;;
  on_fs (modify (λ c, set_ticks (u32 (ticks c + 1)) c)) ;;;
  wakeup ticks_addr ;;;
  tk_release.
Definition timer : M K unit :=
  c <- cpuid ;;
  when (Nat.eqb c 0) tick ;;;
  td_lapiceoi.

(** [tf->cs & 3]. *)
Definition ring (tf : Z) : M K Z :=
  cs <- on_m (ld32 (tf + 60)) ;;
  ret (Z.land (u16 cs) 3).

Definition trap_switch (tf trapno : Z) : M K unit :=
  if trapno =? T_IRQ0 + IRQ_TIMER then timer
  else if trapno =? T_IRQ0 + IRQ_IDE then td_ideintr ;;; td_lapiceoi
  else if trapno =? T_IRQ0 + IRQ_IDE + 1 then ret tt
  else if trapno =? T_IRQ0 + IRQ_KBD then td_kbdintr ;;; td_lapiceoi
  else if trapno =? T_IRQ0 + IRQ_COM1 then td_uartintr ;;; td_lapiceoi
  else if (trapno =? T_IRQ0 + 7) || (trapno =? T_IRQ0 + IRQ_SPURIOUS) then
    cpuid ;;;
    on_m (cprintf "spurious interrupt") ;;;
    td_lapiceoi
  else
    p <- myproc ;;
    r <- ring tf ;;
    match p with
    | Some i =>
        if r =? 0 then cpuid ;;; on_m (cprintf "unexpected trap") ;;; panic "trap"
        else cpuid ;;; on_m (cprintf "kill proc") ;;; upd i (set_killed true)
    | None => cpuid ;;; on_m (cprintf "unexpected trap") ;;; panic "trap"
    end.

(** [if(myproc() && myproc()->killed && (tf->cs&3) == DPL_USER) exit();] *)
Definition killed_in_user (tf : Z) : M K bool :=
  p <- myproc ;;
  match p with
  | None => ret false
  | Some _ =>
      k <- killed ;;
      if (k : bool) then r <- ring tf ;; ret (r =? DPL_USER) else ret false
  end.

Definition trap_last (tf : Z) : M K status :=
  k <- killed_in_user tf ;;
  if (k : bool) then exit ptable_proc ;;; ret Exited else ret Returned.

Definition trap (tf : Z) : M K status :=
  trapno <- on_m (ld32 (tf + 48)) ;;
  if trapno =? T_SYSCALL then
    k <- killed ;;
    if (k : bool) then exit ptable_proc ;;; ret Exited
    else
      i <- curproc ;;
      upd i (set_tf tf) ;;;
      r <- syscall ;;
      trap_call_end r
  else
    trap_switch tf trapno ;;;
    k <- killed_in_user tf ;;
    if (k : bool) then exit ptable_proc ;;; ret Exited
    else
      p <- myproc ;;
      l <- gets procs ;;
      if match p with Some i => bool_decide (pr_state (get_proc i l) = RUNNING) | None => false end && (trapno =? T_IRQ0 + IRQ_TIMER)
      then saved <- yield_enter ;; ret (Switched (PYield saved))
      else trap_last tf.

(** The rest of [trap] with frame [tf], when the process runs again. *)
Definition trap_resume (tf : Z) (p : tpoint) : M K status :=
  match p with
  | PCall c => r <- call_resume c ;; trap_call_end r
  | PYield saved => yield_resume saved ;;; trap_last tf
  end.
End trap.
