(* ===== verification/TrapClaims.v ===== *)
(** * Theorems about traps (trap.c, syscall.c, sysproc.c)

    The interrupt table, the return to user mode, and the system call sleep under
    any interleaving of ticks, kills, wakeups and the other processes. *)

From Stdlib Require Import ZArith Lia String.
From stdpp Require Import base numbers list strings relations.
From S2P Require Import Prelude Mem Mmu Kalloc Vm Spinlock Proc ProcFacts ProcClaims Syscall Fs Sysfile Exec Trap.

(** ** The interrupt table *)

Lemma tvinit_loop_lookup vectors n : ∀ i k, (k < n)%nat →
  tvinit_loop n i vectors !! k = Some (SETGATE false (Z.shiftl SEG_KCODE 3) (vectors (i + k)%nat) 0).
Proof.
  induction n as [|n IH]; intros i k Hk; [lia|]. destruct k as [|k]; cbn [tvinit_loop lookup list_lookup]; [by rewrite Nat.add_0_r|].
  rewrite IH by lia. do 2 f_equal. f_equal. lia.
Qed.

Lemma tvinit_loop_length vectors n : ∀ i, length (tvinit_loop n i vectors) = n.
Proof. induction n as [|n IH]; intros i; cbn; [done|by rewrite IH]. Qed.

(** The processor's reading of a gate: the handler's address and segment, the
    least privileged ring that may call it, and whether it leaves interrupts on. *)
Record gate_is (w : Z * Z) (off sel dpl : Z) (trap_gate : bool) : Prop := {
  gi_words : is_u32 w.1 ∧ is_u32 w.2;
  gi_off : w.2 / 65536 * 65536 + w.1 mod 65536 = off;
  gi_sel : w.1 / 65536 = sel;
  gi_present : Z.testbit w.2 15 = true;
  gi_dpl : w.2 / 8192 mod 4 = dpl;
  gi_type : w.2 / 256 mod 32 = if trap_gate then 15 else 14;
  gi_zero : w.2 mod 256 = 0
}.

Lemma gate_reads istrap off d : is_u32 off → 0 <= d < 4 → gate_is (gate_words (SETGATE istrap (Z.shiftl SEG_KCODE 3) off d)) off 8 d istrap.
Proof.
  unfold is_u32. intros Ho Hd. unfold gate_words, SETGATE. cbn [g_off_15_0 g_cs g_args g_rsv1 g_type g_s g_dpl g_p g_off_31_16].
  rewrite (u32_small off) by lia. change (Z.land off 0xffff) with (Z.land off (Z.ones 16)). rewrite Z.land_ones, !Z.shiftl_mul_pow2, Z.shiftr_div_pow2 by lia.
  change (SEG_KCODE * 2 ^ 3) with 8. change (8 mod 2 ^ 16) with 8. change (2 ^ 2) with 4. rewrite (Z.mod_small d 4) by lia.
  change (2 ^ 16) with 65536. change (2 ^ 5) with 32. change (2 ^ 8) with 256. change (2 ^ 12) with 4096. change (2 ^ 13) with 8192. change (2 ^ 15) with 32768.
  set (t := if istrap then STS_TG32 else STS_IG32). assert (Ht : t = if istrap then 15 else 14) by (by destruct istrap).
  assert (Hhi : 0 <= off / 65536 < 65536) by zlia.
  split; cbn [fst snd]; unfold is_u32.
  - destruct istrap; rewrite Ht; zlia.
  - destruct istrap; rewrite Ht; zlia.
  - zlia.
  - rewrite Z.testbit_eqb by lia. change (2 ^ 15) with 32768. apply Z.eqb_eq. destruct istrap; rewrite Ht; zlia.
  - destruct istrap; rewrite Ht; zlia.
  - destruct istrap; rewrite Ht; zlia.
  - destruct istrap; rewrite Ht; zlia.
Qed.

(** The processor's reading of a segment: base, size in bytes less one, ring, and
    whether it holds code. *)
Record seg_is (w : Z * Z) (base limit dpl : Z) (code : bool) : Prop := {
  si_words : is_u32 w.1 ∧ is_u32 w.2;
  si_base : w.2 / 16777216 * 16777216 + w.2 mod 256 * 65536 + w.1 / 65536 = base;
  si_limit : (w.2 / 65536 mod 16 * 65536 + w.1 mod 65536) * 4096 + 4095 = limit;
  si_scaled : Z.testbit w.2 23 = true ∧ Z.testbit w.2 22 = true;
  si_present : Z.testbit w.2 15 = true;
  si_dpl : w.2 / 8192 mod 4 = dpl;
  si_type : w.2 / 256 mod 32 = if code then 0x1A else 0x12
}.

Lemma seg_reads (code : bool) d : d = 0 ∨ d = 3 → seg_is (seg_words (SEG (if code then Z.lor STA_X STA_R else STA_W) 0 0xffffffff d)) 0 4294967295 d code.
Proof. intros [-> | ->]; destruct code; split; vm_compute; try done; split_and!; done. Qed.

(** C30 The descriptor tables are well formed: each of the 256 entries of the
    interrupt table is a present gate to its own vector, in a segment that is code
    of ring 0 and covers all addresses.  Only the gate of the system calls may be
    called from user mode and leaves interrupts on.  The segments of user
    programs are code and data of ring 3. *)
Theorem descriptors_well_formed vectors gdt :
  (∀ i, (i < 256)%nat → is_u32 (vectors i)) → length gdt = NSEGS →
  length (tvinit vectors) = 256%nat ∧
  (∀ i, (i < 256)%nat → ∃ g, tvinit vectors !! i = Some g ∧
    gate_is (gate_words g) (vectors i) (8 * SEG_KCODE) (if decide (i = 64%nat) then 3 else 0) (bool_decide (i = 64%nat))) ∧
  ∀ k dpl code, (k, dpl, code) ∈ [(SEG_KCODE, 0, true); (SEG_KDATA, 0, false); (SEG_UCODE, 3, true); (SEG_UDATA, 3, false)] →
    ∃ d, seginit gdt !! Z.to_nat k = Some d ∧ seg_is (seg_words d) 0 4294967295 dpl code.
Proof.
  intros Hv Hg. unfold tvinit. split; [by rewrite length_insert, tvinit_loop_length|]. split.
  - intros i Hi. change (Z.to_nat T_SYSCALL) with 64%nat. destruct (decide (i = 64%nat)) as [->|Hne].
    + eexists. split; [apply list_lookup_insert_eq; rewrite tvinit_loop_length; lia|]. rewrite bool_decide_eq_true_2 by done. apply gate_reads; [by apply Hv|done].
    + eexists. split; [rewrite list_lookup_insert_ne by done; by apply tvinit_loop_lookup|]. rewrite bool_decide_eq_false_2 by done. apply gate_reads; [by apply Hv|done].
  - intros k dpl code Hk. do 6 (destruct gdt as [|? gdt]; [done|]). rewrite !elem_of_cons, elem_of_nil in Hk.
    destruct Hk as [E|[E|[E|[E|[]]]]]; injection E as -> -> ->; eexists; (split; [reflexivity|]);
      [apply (seg_reads true)|apply (seg_reads false)|apply (seg_reads true)|apply (seg_reads false)]; auto.
Qed.

Lemma descriptors_well_formed_witness :
  (∃ g, tvinit (λ i, 0x80105000 + 10 * Z.of_nat i) !! 64%nat = Some g ∧ gate_is (gate_words g) 0x80105280 8 3 true) ∧
  ∃ d, seginit (replicate 6 (SEG 0 0 0 0)) !! 3%nat = Some d ∧ seg_is (seg_words d) 0 4294967295 3 true.
Proof.
  destruct (descriptors_well_formed (λ i, 0x80105000 + 10 * Z.of_nat i) (replicate 6 (SEG 0 0 0 0))) as (_ & Hg & Hs); [intros i Hi; unfold is_u32; lia|reflexivity|].
  split.
  - destruct (Hg 64%nat ltac:(lia)) as (g & Hgg & Hi). exists g. split; [exact Hgg|exact Hi].
  - apply (Hs SEG_UCODE 3 true). right. right. left.
Defined.

(** ** Return to user mode *)

Section ends.
Context {F : Type} `{!FileOps F} `{!ExecOps F} `{!FileCalls F} `{!TrapDevs F}.
Context (kend kdata ustack ptable_proc forkret_addr trapret_addr ticks_addr : Z) (apicids : list Z) (lapicid : Z).
Notation K := (kstate (clock F)).
Notation trap := (trap kend kdata ustack ptable_proc forkret_addr trapret_addr ticks_addr apicids lapicid).
Notation trap_resume := (trap_resume kend ptable_proc ticks_addr).
Implicit Types s : K.

(** The tests that lead to a panic failed. *)
Ltac no_panic H := repeat match type of H with
  | (if ?b then _ else _) _ = _ => destruct b; [discriminate H|]
  | (if ?b then _ else _) = _ => destruct b; [discriminate H|]
  end.

Lemma on_c_Done {A} (m : M cpu A) s a s' : on_c m s = Done a s' → ∃ c, s' = set_k_cpu c s.
Proof using. unfold on_c, lift. destruct (m (k_cpu s)); intros [= <- <-]. eauto. Qed.

Lemma on_fs_Done {A} (m : M (clock F) A) s a s' : on_fs m s = Done a s' → ∃ f, s' = set_k_fs f s.
Proof using. unfold on_fs, lift. destruct (m (k_fs s)); intros [= <- <-]. eauto. Qed.

Lemma myproc_Done s p s' : myproc s = Done p s' → p = cproc s ∧ ∃ c, s' = set_k_cpu c s.
Proof using.
  intros H. unfold myproc in H. minv H. injection H as <- <-. destruct (on_c_Done _ _ _ _ H0) as [c1 ->], (on_c_Done _ _ _ _ H1) as [c2 ->]. eauto.
Qed.

Lemma curproc_Done s i s' : curproc s = Done i s' → cproc s = Some i ∧ ∃ c, s' = set_k_cpu c s.
Proof using.
  intros H. unfold curproc in H. minv H. apply myproc_Done in H0 as (-> & c & ->). destruct (cproc s) as [j|]; [|done]. injection H as <- <-. eauto.
Qed.

Lemma killed_Done s b s' : killed s = Done b s' → ∃ i c, cproc s = Some i ∧ b = pr_killed (get_proc i (procs s)) ∧ s' = set_k_cpu c s.
Proof using. intros H. unfold killed in H. minv H. apply curproc_Done in H0 as (Hi & c & ->). injection H as <- <-. eauto. Qed.

(** What an operation of [exit] before its last part keeps. *)
Definition kept_table s s' : Prop := cproc s' = cproc s ∧ length (procs s') = length (procs s).

Lemma exit_files_kept n i : ∀ fd s u s', exit_files n fd i s = Done u s' → kept_table s s'.
Proof using.
  induction n as [|n IH]; intros fd s u s' H; [injection H as <- <-; by split|]. cbn [exit_files] in H. minv H.
  apply IH in H as [Hc Hl]. destruct (default None _) as [x|]; [|by injection H0 as <- <-].
  minv H0. apply on_fs_Done in H as [f ->]. injection H0 as <- <-. unfold kept_table. rewrite Hc, Hl. cbn. by rewrite length_upd.
Qed.

Lemma sched_Done s b s' : sched s = Done b s' → ∃ c, s' = set_k_cpu c s.
Proof using.
  intros H. unfold sched in H. minv H. apply curproc_Done in H0 as (_ & c & ->).
  no_panic H. injection H as <- <-. eauto.
Qed.

Lemma pt_acquire_Done s u s' : pt_acquire s = Done u s' → ∃ c, s' = set_pt_lock true (set_k_cpu c s).
Proof using.
  intros H. unfold pt_acquire in H. minv H. apply on_c_Done in H0 as [c ->]. unfold acquire in H. no_panic H. injection H as <- <-. eauto.
Qed.

Lemma exit_Done s b s' : exit ptable_proc s = Done b s' →
  ∃ i, cproc s' = Some i ∧ ((i < length (procs s'))%nat → st (procs s') i = ZOMBIE).
Proof using.
  intros H. unfold exit in H. minv H. apply curproc_Done in H0 as (Hi & c & ->). no_panic H. minv H.
  apply exit_files_kept in H0 as [Hc1 Hl1]. apply on_fs_Done in H1 as [f1 ->].
  assert (∃ f, s2 = set_k_fs f (set_k_fs f1 s0)) as [f2 ->] by (destruct (pr_cwd _); [by eapply on_fs_Done|done]).
  apply on_fs_Done in H3 as [f3 ->]. injection H4 as <- <-. apply pt_acquire_Done in H5 as [c2 ->]. apply sched_Done in H as [c3 ->].
  cbn in *. exists a. split; [by rewrite Hc1|]. unfold exit_locked. rewrite length_upd. intros Hlt. rewrite st_upd by done. by rewrite decide_True.
Qed.

(** The trap frame [tf] is one of user mode. *)
Definition in_user (tf : Z) s : Prop := Z.land (u16 (load32 (ram (k_m s)) (tf + 60))) 3 = DPL_USER.

(** The current process after a trap: alive if it goes back to user mode. *)
Definition trap_outcome (tf : Z) (r : status) s' : Prop :=
  match r with
  | Returned => in_user tf s' → ∀ i, cproc s' = Some i → pr_killed (get_proc i (procs s')) = false
  | Exited => ∃ i, cproc s' = Some i ∧ ((i < length (procs s'))%nat → st (procs s') i = ZOMBIE)
  | Switched _ => True
  end.

Lemma ring_Done tf s r s' : ring tf s = Done r s' → r = Z.land (u16 (load32 (ram (k_m s)) (tf + 60))) 3 ∧ s' = s.
Proof using. intros [= <- <-]. split; [done|by destruct s]. Qed.

Lemma killed_in_user_Done tf s b s' : killed_in_user tf s = Done b s' →
  (∃ c, s' = set_k_cpu c s) ∧ (b = false → in_user tf s → ∀ i, cproc s = Some i → pr_killed (get_proc i (procs s)) = false).
Proof using.
  intros H. unfold killed_in_user in H. minv H. apply myproc_Done in H0 as (-> & c & ->).
  destruct (cproc s) as [j|] eqn:Ej; [|injection H as <- <-; split; [eauto|done]]. minv H.
  apply killed_Done in H0 as (i & c' & Hi & -> & ->). cbn [set_k_cpu cproc procs] in *. rewrite Ej in Hi. injection Hi as <-.
  destruct (pr_killed _) eqn:Ek; [|injection H as <- <-; split; [by exists c'|]; intros _ _ i [= <-]; done].
  minv H. injection H as <- <-. apply ring_Done in H0 as [-> ->]. split; [by exists c'|]. intros Hb Hu. unfold in_user in Hu. cbn in Hb. by rewrite Hu in Hb.
Qed.

Lemma trap_last_outcome tf s r s' : trap_last ptable_proc tf s = Done r s' → trap_outcome tf r s'.
Proof using.
  intros H. unfold trap_last in H. minv H. apply killed_in_user_Done in H0 as [[c ->] Hk]. destruct a.
  - minv H. injection H as <- <-. by eapply exit_Done.
  - injection H as <- <-. exact (Hk eq_refl).
Qed.

Lemma trap_call_outcome tf c s r s' : trap_call_end ptable_proc c s = Done r s' → c ≠ Gone → trap_outcome tf r s'.
Proof using.
  intros H Hc. destruct c as [v| |p]; cbn [trap_call_end] in H; [|done|by injection H as <- <-]. minv H.
  apply killed_Done in H0 as (i & c & Hi & -> & ->). destruct (pr_killed _) eqn:Ek.
  - minv H. injection H as <- <-. by eapply exit_Done.
  - injection H as <- <-. intros _ j Hj. cbn in *. by simplify_eq.
Qed.

(** ** Only exit ends a process in a system call *)

Definition never_gone (m : M K (sysret fc_point)) : Prop := ∀ s s', m s ≠ Done Gone s'.

Lemma never_gone_bind {A} (m : M K A) k : (∀ a, never_gone (k a)) → never_gone (bind m k).
Proof using. intros Hk s s' H. apply bind_Done in H as (a & s1 & _ & H). by eapply Hk. Qed.
Lemma never_gone_ret r : r ≠ Gone → never_gone (ret r).
Proof using. intros Hr s s' H. by injection H. Qed.

Ltac never_gone := repeat first
  [ apply never_gone_bind; intros ? | apply never_gone_ret; discriminate | case_if | case_match ].

Lemma sleep_test_never_gone t n : never_gone (sleep_test ticks_addr t n).
Proof using. unfold sleep_test. never_gone. Qed.

Lemma call_resume_never_gone p : never_gone (call_resume kend ptable_proc ticks_addr p).
Proof using.
  intros s s' H. unfold call_resume in H. minv H. destruct a; cbn in H; [minv H; discriminate H| |discriminate H]. revert H0. 
  destruct p; [|apply never_gone_bind; intros; apply sleep_test_never_gone|]; apply never_gone_bind; intros; unfold waited, filed_call; never_gone.
Qed.

Lemma syscalls_gone num f s s' : syscalls kend kdata ustack ptable_proc forkret_addr trapret_addr ticks_addr num = Some f → f s = Done Gone s' →
  ∃ b, exit ptable_proc s = Done b s'.
Proof using.
  intros Hf H. destruct (decide (num = 2)) as [->|Hne].
  - injection Hf as <-. unfold sys_exit in H. minv H. injection H as <-. eauto.
  - exfalso. revert s s' H. change (never_gone f). unfold syscalls in Hf.
    repeat (case_match; simplify_eq); unfold sys_fork, sys_wait, sys_kill, sys_getpid, sys_sbrk, sys_sleep, sys_uptime, file_call, filed_call, waited;
      never_gone; apply sleep_test_never_gone.
Qed.

Lemma syscall_gone s s' : syscall kend kdata ustack ptable_proc forkret_addr trapret_addr ticks_addr s = Done Gone s' →
  ∃ s1 b, exit ptable_proc s1 = Done b s'.
Proof using.
  intros H. unfold syscall in H. minv H.
  match type of H with match ?x with _ => _ end _ = _ => destruct x as [f|] eqn:Ef end.
  - minv H. destruct (_ && _) in Ef; [|done]. destruct a1; cbn in H; [minv H; discriminate H| |discriminate H].
    injection H as <-. destruct (syscalls_gone _ _ _ _ Ef H2) as [b Hb]. eauto.
  - minv H. cbn [syscall_end] in H. minv H. discriminate H.
Qed.

(** C13 Whatever happens in a trap, and however often its handling is switched
    away and resumed, a process that has been killed does not return to user
    mode; and where the trap ends the process, it is a zombie. *)
Theorem killed_never_returns tf s r s' :
  trap tf s = Done r s' ∨ (∃ p, trap_resume tf p s = Done r s') → trap_outcome tf r s'.
Proof using.
  intros [H|[p H]].
  - unfold Trap.trap in H. minv H. destruct (a =? T_SYSCALL).
    + minv H. apply killed_Done in H1 as (i & c & Hi & -> & ->). destruct (pr_killed _); minv H.
      * injection H as <- <-. by eapply exit_Done.
      * destruct a2 eqn:Ea; [by eapply trap_call_outcome| |by eapply trap_call_outcome]. injection H as <- <-.
        apply syscall_gone in H3 as (s4 & b & Hb). by eapply exit_Done.
    + minv H. destruct a1; minv H; [injection H as <- <-; by eapply exit_Done|].
      destruct (_ && _); minv H; [by injection H as <- <-|]. by eapply trap_last_outcome.
  - destruct p as [c|saved]; cbn [Trap.trap_resume] in H; minv H; [|by eapply trap_last_outcome].
    eapply trap_call_outcome; [exact H|]. intros ->. by eapply call_resume_never_gone.
Qed.
End ends.

(** ** The system call sleep *)

Section sleep.
Context {F : Type} `{!FileOps F} `{!ExecOps F} `{!FileCalls F} `{!TrapDevs F}.
Context (kend ptable_proc ticks_addr : Z).
Notation K := (kstate (clock F)).
Notation call_resume := (call_resume kend ptable_proc ticks_addr).
Implicit Types s : K.

(** The CPU is [d] levels deep with interrupts off, over the flag [f]; the locks,
    the current process, the table and the clock. *)
Record at_state (f : bool) (d : Z) (ptl tkl : bool) (cp : option nat) (l : list proc) (t : Z) s : Prop := {
  as_cpu : cli_state f d (k_cpu s);
  as_pt : pt_lock s = ptl;
  as_tk : tk_lock (k_fs s) = tkl;
  as_cp : cproc s = cp;
  as_procs : procs s = l;
  as_ticks : ticks (k_fs s) = t
}.

(** [m] runs from states [P] to states [Q] of its result. *)
Definition runs {A} (P : K → Prop) (m : M K A) (Q : A → K → Prop) : Prop := ∀ s, P s → ∃ a s', m s = Done a s' ∧ Q a s'.

Lemma runs_bind {A B} P (m : M K A) Q (k : A → M K B) R : runs P m Q → (∀ a, runs (Q a) (k a) R) → runs P (bind m k) R.
Proof using. intros Hm Hk s Hs. destruct (Hm s Hs) as (a & s1 & H1 & HQ). destruct (Hk a s1 HQ) as (b & s2 & H2 & HR). exists b, s2. split; [by rewrite (bind_run _ _ _ _ _ H1)|done]. Qed.
Lemma runs_ret {A} P (a : A) (Q : A → K → Prop) : (∀ s, P s → Q a s) → runs P (ret a) Q.
Proof using. intros H s Hs. exists a, s. eauto. Qed.
Lemma runs_gets {A} P (g : K → A) a : (∀ s, P s → g s = a) → runs P (gets g) (λ b s, b = a ∧ P s).
Proof using. intros H s Hs. exists (g s), s. split; [done|]. eauto. Qed.

Lemma runs_pure {A} (φ : Prop) P (m : M K A) Q : (φ → runs P m Q) → runs (λ s, φ ∧ P s) m Q.
Proof using. intros H s [Hφ Hs]. by apply H. Qed.

Lemma tk_acquire_at f d ptl cp l t : runs (at_state f d ptl false cp l t) tk_acquire (λ _, at_state f (d + 1) ptl true cp l t).
Proof using.
  intros s [H1 H2 H3 H4 H5 H6]. destruct (pushcli_state f d (k_cpu s) H1) as (c & Hc & Hc'). unfold tk_acquire. mcall (on_c_run pushcli s _ _ Hc).
  eexists tt, _. split; [apply on_fs_run; apply acquire_run; done|]. by split.
Qed.

Lemma tk_release_at f d ptl cp l t : 0 <= d → runs (at_state f (d + 1) ptl true cp l t) tk_release (λ _, at_state f d ptl false cp l t).
Proof using.
  intros Hd s [H1 H2 H3 H4 H5 H6]. unfold tk_release. mcall (on_fs_run (release tk_lock set_tk_lock) s _ _ (release_run tk_lock set_tk_lock (k_fs s) H3)).
  destruct (popcli_state f (d + 1) (k_cpu s) H1) as (c & Hc & Hc'); [lia|]. replace (d + 1 - 1) with d in Hc' by lia.
  eexists tt, _. split; [apply on_c_run; exact Hc|]. by split.
Qed.

Lemma pt_acquire_at f d tkl cp l t : runs (at_state f d false tkl cp l t) pt_acquire (λ _, at_state f (d + 1) true tkl cp l t).
Proof using. intros s [H1 H2 H3 H4 H5 H6]. destruct (pt_acquire_run f d s H1 H2) as (c & Hr & Hc). eexists _, _. split; [exact Hr|]. by split. Qed.

Lemma pt_release_at f d tkl cp l t : 0 <= d → runs (at_state f (d + 1) true tkl cp l t) pt_release (λ _, at_state f d false tkl cp l t).
Proof using. intros Hd s [H1 H2 H3 H4 H5 H6]. destruct (pt_release_run f d s H1 Hd H2) as (c & Hr & Hc). eexists _, _. split; [exact Hr|]. by split. Qed.

Lemma curproc_at f d ptl tkl i l t : runs (at_state f d ptl tkl (Some i) l t) curproc (λ j s, j = i ∧ at_state f d ptl tkl (Some i) l t s).
Proof using. intros s [H1 H2 H3 H4 H5 H6]. destruct (curproc_run f d s i H1 H4) as (c & Hr & Hc). eexists _, _. split; [exact Hr|]. split; [done|]. by split. Qed.

Lemma myproc_at f d ptl tkl cp l t : runs (at_state f d ptl tkl cp l t) myproc (λ q s, q = cp ∧ at_state f d ptl tkl cp l t s).
Proof using.
  intros s [H1 H2 H3 H4 H5 H6]. destruct (pushcli_state f d (k_cpu s) H1) as (c1 & Hr1 & Hc1).
  destruct (popcli_state f (d + 1) c1 Hc1) as (c2 & Hr2 & Hc2); [destruct H1; lia|]. replace (d + 1 - 1) with d in Hc2 by lia.
  unfold myproc. mcall (on_c_run pushcli s _ _ Hr1). mcall (on_c_run popcli (set_k_cpu c1 s) _ _ Hr2). eexists _, _. split; [done|]. split; [done|]. by split.
Qed.

Lemma upd_at f d ptl tkl cp l t i g : runs (at_state f d ptl tkl cp l t) (upd i g) (λ _, at_state f d ptl tkl cp (upd_proc i g l) t).
Proof using. intros s [H1 H2 H3 H4 H5 H6]. eexists _, _. split; [done|]. split; cbn; by rewrite ?H5. Qed.

Lemma sched_at f tkl i l t : pr_state (get_proc i l) ≠ RUNNING →
  runs (at_state f 1 true tkl (Some i) l t) sched (λ saved s, saved = f ∧ at_state f 1 true tkl (Some i) l t s).
Proof using.
  intros Hst s Hs. destruct (curproc_at _ _ _ _ _ _ _ s Hs) as (j & s1 & Hr & -> & Hs1). unfold sched. mcall Hr.
  destruct Hs1 as [H1 H2 H3 H4 H5 H6]. rewrite H2, H5. cbn [negb]. destruct H1 as (_ & Hn & He & Hi). rewrite Hn, Z.eqb_refl. cbn [negb].
  rewrite bool_decide_eq_false_2 by done. rewrite He. eexists _, s1. split; [done|]. split; try done.
Qed.

(** The table when process [i] sleeps on the clock. *)
Definition slept (i : nat) (l : list proc) : list proc := upd_proc i (set_state SLEEPING) (upd_proc i (set_chan ticks_addr) l).

Lemma sleep_enter_at f i l t : (i < length l)%nat →
  runs (at_state f 1 false true (Some i) l t) (sleep_enter ticks_addr (Some tk_release)) (λ saved s, saved = f ∧ at_state f 1 true false (Some i) (slept i l) t s).
Proof using.
  intros Hi. unfold sleep_enter. eapply runs_bind; [apply myproc_at|]. intros q. apply runs_pure. intros ->.
  eapply runs_bind; [eapply runs_bind; [apply pt_acquire_at|intros []; apply (tk_release_at f 1); lia]|intros []].
  eapply runs_bind; [apply upd_at|intros []]. eapply runs_bind; [apply upd_at|intros []]. apply sched_at.
  unfold slept. rewrite !get_upd by (by rewrite ?length_upd). by rewrite decide_True.
Qed.

(** The process of slot [p] has been killed in [l]. *)
Definition dead (p : nat) (l : list proc) : bool := pr_killed (get_proc p l).

Lemma sleep_test_at f i l t t0 n : (i < length l)%nat →
  runs (at_state f 1 false true (Some i) l t) (sleep_test ticks_addr t0 n) (λ r s,
    if u32 (t - t0) <? u32 n then
      if dead i l then r = Value (-1) ∧ at_state f 0 false false (Some i) l t s
      else r = Asleep (InSleep t0 n f) ∧ at_state f 1 true false (Some i) (slept i l) t s
    else r = Value 0 ∧ at_state f 0 false false (Some i) l t s).
Proof using.
  intros Hi. unfold sleep_test. eapply runs_bind; [apply (runs_gets _ _ t); by intros s []|]. intros t'. apply runs_pure. intros ->.
  destruct (u32 (t - t0) <? u32 n).
  - eapply runs_bind; [apply curproc_at|]. intros j. apply runs_pure. intros ->.
    eapply runs_bind; [apply (runs_gets _ _ (get_proc i l)); by intros s [? ? ? ? -> ?]|]. intros q. apply runs_pure. intros ->. unfold dead.
    destruct (pr_killed (get_proc i l)).
    + eapply runs_bind; [apply (tk_release_at f 0); lia|intros []]. by apply runs_ret.
    + eapply runs_bind; [by apply sleep_enter_at|]. intros b. apply runs_pure. intros ->. by apply runs_ret.
  - eapply runs_bind; [apply (tk_release_at f 0); lia|intros []]. by apply runs_ret.
Qed.

Lemma sleep_resume_at f g i l t : runs (at_state g 1 true false (Some i) l t) (sleep_resume f (Some tk_acquire))
  (λ _, at_state f 1 false true (Some i) (upd_proc i (set_chan 0) l) t).
Proof using.
  unfold sleep_resume. eapply (runs_bind _ _ (λ _, at_state f 1 true false (Some i) l t)).
  { intros s [(H0 & H1 & H1' & _) H2 H3 H4 H5 H6]. eexists tt, _. split; [by apply on_c_run|]. split; try done. }
  intros []. eapply runs_bind; [apply curproc_at|]. intros j. apply runs_pure. intros ->. eapply runs_bind; [apply upd_at|intros []].
  eapply runs_bind; [apply (pt_release_at f 0); lia|intros []]. apply (tk_acquire_at f 0).
Qed.

Lemma on_m_at {A} f d ptl tkl cp l t (m : M machine A) : (∀ k, ∃ a k', m k = Done a k') →
  runs (at_state f d ptl tkl cp l t) (on_m m) (λ _, at_state f d ptl tkl cp l t).
Proof using. intros Hm s [H1 H2 H3 H4 H5 H6]. destruct (Hm (k_m s)) as (a & k' & Hr). eexists _, _. split; [by apply on_m_run|]. by split. Qed.

Lemma switchuvm_at f d ptl tkl cp l t i : pr_kstack (get_proc i l) ≠ 0 → pr_pgdir (get_proc i l) ≠ 0 →
  runs (at_state f d ptl tkl cp l t) (switchuvm i) (λ _, at_state f d ptl tkl cp l t).
Proof using.
  intros Hk Hp s Hs. unfold switchuvm. mrun. rewrite (as_procs _ _ _ _ _ _ _ _ Hs). ztest (pr_kstack (get_proc i l) =? 0) is false. ztest (pr_pgdir (get_proc i l) =? 0) is false.
  destruct Hs as [H1 H2 H3 H4 H5 H6]. destruct (pushcli_state f d (k_cpu s) H1) as (c1 & Hr1 & Hc1). mcall (on_c_run pushcli s _ _ Hr1).
  destruct (popcli_state f (d + 1) c1 Hc1) as (c2 & Hr2 & Hc2); [destruct H1; lia|]. replace (d + 1 - 1) with d in Hc2 by lia.
  eexists tt, _. split; [by apply on_c_run|]. by split.
Qed.

Lemma schedule_at f i tkl cp l t : st l i = RUNNABLE → pr_kstack (get_proc i l) ≠ 0 → pr_pgdir (get_proc i l) ≠ 0 →
  runs (at_state f 1 true tkl cp l t) (schedule i) (λ b s, b = true ∧ at_state f 1 true tkl (Some i) (upd_proc i (set_state RUNNING) l) t s).
Proof using.
  intros Hst Hk Hp. unfold schedule. eapply runs_bind; [apply (runs_gets _ _ (get_proc i l)); by intros s [? ? ? ? -> ?]|]. intros q. apply runs_pure. intros ->.
  rewrite bool_decide_eq_true_2 by done. cbn [negb]. eapply (runs_bind _ _ (λ _, at_state f 1 true tkl (Some i) l t)).
  { intros s [H1 H2 H3 H4 H5 H6]. eexists tt, _. split; [done|]. by split. }
  intros []. eapply runs_bind; [by apply switchuvm_at|intros []]. eapply runs_bind; [apply upd_at|intros []]. by apply runs_ret.
Qed.

Lemma schedule_resume_at f d ptl tkl cp l t : runs (at_state f d ptl tkl cp l t) schedule_resume (λ _, at_state f d ptl tkl None l t).
Proof using.
  unfold schedule_resume. eapply runs_bind; [apply on_m_at; intros k; unfold switchkvm; eexists _, _; reflexivity|]. intros [].
  intros s [H1 H2 H3 H4 H5 H6]. eexists tt, _. split; [done|]. by split.
Qed.

Lemma wakeup_at f d tkl cp l t chan : 0 <= d → runs (at_state f d false tkl cp l t) (wakeup chan) (λ _, at_state f d false tkl cp (wakeup1 chan l) t).
Proof using.
  intros Hd. unfold wakeup. eapply runs_bind; [apply pt_acquire_at|intros []]. eapply (runs_bind _ _ (λ _, at_state f (d + 1) true tkl cp (wakeup1 chan l) t)).
  { intros s [H1 H2 H3 H4 H5 H6]. eexists tt, _. split; [done|]. split; cbn; by rewrite ?H5. }
  intros []. by apply pt_release_at.
Qed.

(** What [kill] makes of the table. *)
Definition slain (pid : Z) (l : list proc) : list proc :=
  match find_proc (λ p, pr_pid p =? pid) 0 l with Some i => upd_proc i kill1 l | None => l end.

Lemma kill_at f d tkl cp l t pid : 0 <= d → runs (at_state f d false tkl cp l t) (kill pid) (λ _, at_state f d false tkl cp (slain pid l) t).
Proof using.
  intros Hd. unfold kill, slain. eapply runs_bind; [apply pt_acquire_at|intros []].
  eapply runs_bind; [apply (runs_gets _ _ l); by intros s []|]. intros q. apply runs_pure. intros ->. destruct (find_proc _ 0 l) as [i|].
  - eapply runs_bind; [apply upd_at|intros []]. eapply runs_bind; [by apply pt_release_at|intros []]. by apply runs_ret.
  - eapply runs_bind; [by apply pt_release_at|intros []]. by apply runs_ret.
Qed.

(** An interrupt: the processor turns interrupts off on entry, and the return
    restores the flag. *)
Definition irq (m : M K unit) : M K unit :=
  c <- gets k_cpu ;;
  on_c (modify (λ c', Cpu (ncli c') (intena c') false)) ;;;
  m ;;;
  on_c (modify (λ c', Cpu (ncli c') (intena c') (eflags_if c))).

Lemma tick_at f d cp l t : 0 <= d → runs (at_state f d false false cp l t) (tick ticks_addr) (λ _, at_state f d false false cp (wakeup1 ticks_addr l) (u32 (t + 1))).
Proof using.
  intros Hd. unfold tick. eapply runs_bind; [apply tk_acquire_at|intros []]. eapply (runs_bind _ _ (λ _, at_state f (d + 1) false true cp l (u32 (t + 1)))).
  { intros s [H1 H2 H3 H4 H5 H6]. eexists tt, _. split; [by apply on_fs_run|]. split; cbn; by rewrite ?H6. }
  intros []. eapply runs_bind; [apply wakeup_at; lia|intros []]. by apply tk_release_at.
Qed.

Lemma irq_tick_at f cp l t : runs (at_state f 0 false false cp l t) (irq (tick ticks_addr)) (λ _, at_state f 0 false false cp (wakeup1 ticks_addr l) (u32 (t + 1))).
Proof using.
  intros s [H1 H2 H3 H4 H5 H6]. unfold irq. mrun. set (c := k_cpu s). mcall (on_c_run (modify (λ c', Cpu (ncli c') (intena c') false)) s _ _ eq_refl).
  destruct H1 as (_ & Hn & He). cbn in He. set (s1 := set_k_cpu _ s).
  assert (Hs1 : at_state false 0 false false cp l t s1) by (split; cbn; try done; split_and!; done).
  destruct (tick_at false 0 cp l t ltac:(lia) s1 Hs1) as ([] & s2 & Hr & [(_ & Hn2 & He2) ? ? ? ? ?]). mcall Hr.
  eexists tt, _. split; [by apply on_c_run|]. split; cbn; try done.
Qed.

(** The argument of sleep is compared as an unsigned number: a process that
    calls sleep(-1) sleeps on until 2^32 - 1 ticks have passed. *)
Lemma sleep_negative f i l t t0 : (i < length l)%nat → dead i l = false → u32 (t - t0) < 4294967295 →
  runs (at_state f 1 false true (Some i) l t) (sleep_test ticks_addr t0 (-1)) (λ r _, r = Asleep (InSleep t0 (-1) f)).
Proof using.
  intros Hi Hd Ht s Hs. destruct (sleep_test_at f i l t t0 (-1) Hi s Hs) as (r & s' & Hr & Hq). exists r, s'. split; [done|].
  change (u32 (-1)) with 4294967295 in Hq. rewrite Hd in Hq. revert Hq. ztest (u32 (t - t0) <? 4294967295) is true. by intros [-> _].
Qed.

(** ** A sleeping process and the rest of the system *)

(** The loop body of the scheduler for a process in [sys_sleep]. *)
Definition run_sleeper (p : nat) (t0 n : Z) (saved : bool) : M K (sysret fc_point) :=
  pt_acquire ;;;
  b <- schedule p ;;
  if (b : bool) then
    r <- call_resume (InSleep t0 n saved) ;;
    match r with
    | Asleep _ => schedule_resume ;;; pt_release ;;; ret r
    | _ => ret r
    end
  else pt_release ;;; ret (Asleep (InSleep t0 n saved)).

(** What other processes do: they leave the process, the clock and its lock. *)
Definition others (p : nat) (s s' : K) : Prop :=
  k_cpu s' = k_cpu s ∧ pt_lock s' = pt_lock s ∧ tk_lock (k_fs s') = tk_lock (k_fs s) ∧ ticks (k_fs s') = ticks (k_fs s) ∧
  cproc s' = cproc s ∧ length (procs s') = length (procs s) ∧ get_proc p (procs s') = get_proc p (procs s).

(** The state between the turns of process [p], with the number of ticks since
    the call and the outcome of its last turn. *)
Inductive sleep_step (p : nat) : K * nat * sysret fc_point → K * nat * sysret fc_point → Prop :=
  | sl_tick s e q s' : irq (tick ticks_addr) s = Done tt s' → sleep_step p (s, e, Asleep q) (s', S e, Asleep q)
  | sl_kill s e q pid v s' : kill pid s = Done v s' → sleep_step p (s, e, Asleep q) (s', e, Asleep q)
  | sl_wakeup s e q chan s' : wakeup chan s = Done tt s' → sleep_step p (s, e, Asleep q) (s', e, Asleep q)
  | sl_others s e q s' : others p s s' → sleep_step p (s, e, Asleep q) (s', e, Asleep q)
  | sl_run s e t0 n saved r s' : run_sleeper p t0 n saved s = Done r s' → sleep_step p (s, e, Asleep (InSleep t0 n saved)) (s', e, r).

Lemma set_eax_at f d ptl tkl i l t v : runs (at_state f d ptl tkl (Some i) l t) (set_eax v) (λ _, at_state f d ptl tkl (Some i) l t).
Proof using.
  unfold set_eax. eapply runs_bind; [apply curproc_at|]. intros q. apply runs_pure. intros ->.
  eapply runs_bind; [apply (runs_gets _ _ (get_proc i l)); by intros s [? ? ? ? -> ?]|]. intros q. apply runs_pure. intros ->.
  apply on_m_at. intros k. eexists _, _. reflexivity.
Qed.

Lemma runs_post {A} P (m : M K A) (Q Q' : A → K → Prop) : runs P m Q → (∀ a s, Q a s → Q' a s) → runs P m Q'.
Proof using. intros H HQ s Hs. destruct (H s Hs) as (a & s' & ? & ?). eauto 10. Qed.

(** The table when process [p] has been scheduled and has left [sleep]. *)
Definition roused (p : nat) (l : list proc) : list proc := upd_proc p (set_chan 0) (upd_proc p (set_state RUNNING) l).

Lemma call_resume_at f p l t t0 n : (p < length l)%nat →
  runs (at_state f 1 true false (Some p) (upd_proc p (set_state RUNNING) l) t) (call_resume (InSleep t0 n f)) (λ r s,
    if u32 (t - t0) <? u32 n then
      if dead p (roused p l) then r = Value (-1) ∧ at_state f 0 false false (Some p) (roused p l) t s
      else r = Asleep (InSleep t0 n f) ∧ at_state f 1 true false (Some p) (slept p (roused p l)) t s
    else r = Value 0 ∧ at_state f 0 false false (Some p) (roused p l) t s).
Proof using.
  intros Hp. unfold Trap.call_resume. eapply runs_bind.
  { eapply runs_bind; [apply sleep_resume_at|intros []]. apply sleep_test_at. by rewrite !length_upd. }
  intros r. fold (roused p l). destruct (u32 (t - t0) <? u32 n); [destruct (dead p (roused p l))|]; apply runs_pure; intros ->; cbn [syscall_end].
  - eapply runs_bind; [apply set_eax_at|intros []]. by apply runs_ret.
  - by apply runs_ret.
  - eapply runs_bind; [apply set_eax_at|intros []]. by apply runs_ret.
Qed.

Lemma run_sleeper_at f p l t t0 n : (p < length l)%nat → st l p = RUNNABLE → pr_kstack (get_proc p l) ≠ 0 → pr_pgdir (get_proc p l) ≠ 0 →
  runs (at_state f 0 false false None l t) (run_sleeper p t0 n f) (λ r s,
    if u32 (t - t0) <? u32 n then
      if dead p (roused p l) then r = Value (-1) ∧ at_state f 0 false false (Some p) (roused p l) t s
      else r = Asleep (InSleep t0 n f) ∧ at_state f 0 false false None (slept p (roused p l)) t s
    else r = Value 0 ∧ at_state f 0 false false (Some p) (roused p l) t s).
Proof using.
  intros Hp Hst Hk Hd. unfold run_sleeper. eapply runs_bind; [apply pt_acquire_at|intros []]. eapply runs_bind; [by apply schedule_at|].
  intros b. apply runs_pure. intros ->. eapply runs_bind; [by apply call_resume_at|]. intros r.
  destruct (u32 (t - t0) <? u32 n); [destruct (dead p (roused p l))|]; apply runs_pure; intros ->.
  - by apply runs_ret.
  - eapply runs_bind; [apply schedule_resume_at|intros []]. eapply runs_bind; [by apply (pt_release_at f 0)|intros []]. by apply runs_ret.
  - by apply runs_ret.
Qed.

Lemma run_asleep_at f p l t t0 n : st l p ≠ RUNNABLE →
  runs (at_state f 0 false false None l t) (run_sleeper p t0 n f) (λ r s, r = Asleep (InSleep t0 n f) ∧ at_state f 0 false false None l t s).
Proof using.
  intros Hst. unfold run_sleeper. eapply runs_bind; [apply pt_acquire_at|intros []].
  eapply (runs_bind _ _ (λ b s, b = false ∧ at_state f 1 true false None l t s)).
  { unfold schedule. eapply runs_bind; [apply (runs_gets _ _ (get_proc p l)); by intros s [? ? ? ? -> ?]|]. intros q. apply runs_pure. intros ->.
    rewrite bool_decide_eq_false_2 by done. by apply runs_ret. }
  intros b. apply runs_pure. intros ->. eapply runs_bind; [by apply (pt_release_at f 0)|intros []]. by apply runs_ret.
Qed.

(** ** The invariant of a sleeping process *)

(** [e] ticks as the unsigned difference of the clock. *)
Definition elapsed (e : nat) : Z := u32 (Z.of_nat e).

Record sleeping (f : bool) (p : nat) (t0 n : Z) (e : nat) (l : list proc) s : Prop := {
  sg_at : at_state f 0 false false None l (u32 (t0 + Z.of_nat e)) s;
  sg_range : (p < length l)%nat;
  sg_stack : pr_kstack (get_proc p l) ≠ 0 ∧ pr_pgdir (get_proc p l) ≠ 0;
  sg_state : st l p = SLEEPING ∧ pr_chan (get_proc p l) = ticks_addr ∧ elapsed e < u32 n ∨ st l p = RUNNABLE
}.

Definition sleep_inv (f : bool) (p : nat) (t0 n : Z) (w : K * nat * sysret fc_point) : Prop :=
  let '(s, e, r) := w in
  match r with
  | Asleep q => q = InSleep t0 n f ∧ ∃ l, sleeping f p t0 n e l s
  | Value v => v = 0 ∧ u32 n <= elapsed e ∨ v = -1 ∧ dead p (procs s) = true
  | Gone => False
  end.

Lemma elapsed_eq t0 e : u32 (u32 (t0 + Z.of_nat e) - t0) = elapsed e.
Proof using. unfold elapsed, u32. rewrite Zminus_mod_idemp_l. f_equal. lia. Qed.

(** What a change of the table keeps of the process. *)
Lemma sleeping_keep f p t0 n e l s l' s' : sleeping f p t0 n e l s →
  at_state f 0 false false None l' (u32 (t0 + Z.of_nat e)) s' → length l' = length l →
  pr_kstack (get_proc p l') = pr_kstack (get_proc p l) → pr_pgdir (get_proc p l') = pr_pgdir (get_proc p l) →
  (st l' p = st l p ∧ pr_chan (get_proc p l') = pr_chan (get_proc p l) ∨ st l p = SLEEPING ∧ st l' p = RUNNABLE) → sleeping f p t0 n e l' s'.
Proof using.
  intros [H1 H2 [H3 H3'] H4] Hs' Hl Hk Hd Hst. split; [done|by rewrite Hl|by rewrite Hk, Hd|].
  destruct Hst as [[E1 E2]|[_ E]]; [|by right]. rewrite E1, E2. done.
Qed.

Lemma wake_keep chan l p : let l' := wakeup1 chan l in
  pr_kstack (get_proc p l') = pr_kstack (get_proc p l) ∧ pr_pgdir (get_proc p l') = pr_pgdir (get_proc p l) ∧
  (st l' p = st l p ∧ pr_chan (get_proc p l') = pr_chan (get_proc p l) ∨ st l p = SLEEPING ∧ st l' p = RUNNABLE).
Proof using. cbn zeta. unfold st. rewrite get_wakeup1. unfold wake. case_bool_decide; cbn [andb]; [case_if|]; auto. Qed.

Lemma slain_keep pid l p : (p < length l)%nat → let l' := slain pid l in length l' = length l ∧
  pr_kstack (get_proc p l') = pr_kstack (get_proc p l) ∧ pr_pgdir (get_proc p l') = pr_pgdir (get_proc p l) ∧
  (st l' p = st l p ∧ pr_chan (get_proc p l') = pr_chan (get_proc p l) ∨ st l p = SLEEPING ∧ st l' p = RUNNABLE).
Proof using.
  intros Hp. cbn zeta. unfold slain. destruct (find_proc _ 0 l) as [i|] eqn:E; [|auto 10]. rewrite length_upd. apply find_proc_spec in E as [Hi _].
  unfold st. rewrite get_upd by lia. case_decide; [subst i|auto 10]. unfold kill1. case_bool_decide as Hs; cbn in *; auto 10.
Qed.

Lemma tick_inv f p t0 n e l s s' : sleeping f p t0 n e l s → irq (tick ticks_addr) s = Done tt s' → sleeping f p t0 n (S e) (wakeup1 ticks_addr l) s'.
Proof using.
  intros [H1 H2 H3 H4] Hr. destruct (irq_tick_at _ _ _ _ s H1) as (u & s1 & Hr' & Hs1). rewrite Hr in Hr'. injection Hr' as <- <-.
  replace (u32 (u32 (t0 + Z.of_nat e) + 1)) with (u32 (t0 + Z.of_nat (S e))) in Hs1 by (unfold u32; rewrite Zplus_mod_idemp_l; f_equal; lia).
  destruct (wake_keep ticks_addr l p) as (K1 & K2 & _). split; [done|by rewrite length_wakeup1|by rewrite K1, K2|]. right.
  unfold st. rewrite get_wakeup1. unfold wake. destruct H4 as [(H4 & H5 & _)|H4]; unfold st in H4; rewrite H4.
  - rewrite bool_decide_eq_true_2 by done. by rewrite H5, Z.eqb_refl.
  - by rewrite bool_decide_eq_false_2.
Qed.

Lemma run_inv f p t0 n e l s r s' : sleeping f p t0 n e l s → run_sleeper p t0 n f s = Done r s' → sleep_inv f p t0 n (s', e, r).
Proof using.
  intros Hs Hr. pose proof Hs as [H1 H2 [H3 H3'] H4]. destruct (decide (st l p = RUNNABLE)) as [Hst|Hst].
  - destruct (run_sleeper_at f p l _ t0 n H2 Hst H3 H3' s H1) as (r' & s1 & Hr' & Hq). rewrite Hr in Hr'. injection Hr' as <- <-.
    rewrite elapsed_eq in Hq. destruct (Z.ltb_spec (elapsed e) (u32 n)); [destruct (dead p (roused p l)) eqn:Ed|]; destruct Hq as [-> Hq]; cbn.
    + right. split; [done|]. by rewrite (as_procs _ _ _ _ _ _ _ _ Hq).
    + split; [done|]. exists (slept p (roused p l)). unfold slept, roused, st in *. split; [done|by rewrite !length_upd| |].
      * rewrite !get_upd by (by rewrite ?length_upd). by rewrite !decide_True.
      * left. unfold st. rewrite !get_upd by (by rewrite ?length_upd). by rewrite !decide_True.
    + by left.
  - destruct (run_asleep_at f p l _ t0 n Hst s H1) as (r' & s1 & Hr' & -> & Hq). rewrite Hr in Hr'. injection Hr' as -> <-.
    split; [done|]. exists l. by split.
Qed.

Lemma sleep_step_inv f p t0 n w w' : sleep_inv f p t0 n w → sleep_step p w w' → sleep_inv f p t0 n w'.
Proof using.
  intros Hi Hst. destruct Hst as [s e q s' Hr|s e q pid v s' Hr|s e q chan s' Hr|s e q s' Ho|s e t1 n1 saved r s' Hr]; destruct Hi as [Hq (l & Hs)].
  - split; [done|]. eexists. by eapply tick_inv.
  - split; [done|]. exists (slain pid l). destruct (kill_at f 0 false None l _ pid ltac:(lia) s (sg_at _ _ _ _ _ _ _ Hs)) as (v' & s1 & Hr' & Hs1).
    rewrite Hr in Hr'. injection Hr' as <- <-. destruct (slain_keep pid l p (sg_range _ _ _ _ _ _ _ Hs)) as (? & ? & ? & ?). by eapply sleeping_keep.
  - split; [done|]. exists (wakeup1 chan l). destruct (wakeup_at f 0 false None l _ chan ltac:(lia) s (sg_at _ _ _ _ _ _ _ Hs)) as (v' & s1 & Hr' & Hs1).
    rewrite Hr in Hr'. injection Hr' as <- <-. destruct (wake_keep chan l p) as (? & ? & ?). eapply sleeping_keep; try done. apply length_wakeup1.
  - split; [done|]. exists (procs s'). destruct Ho as (O1 & O2 & O3 & O4 & O5 & O6 & O7). pose proof (sg_at _ _ _ _ _ _ _ Hs) as [A1 A2 A3 A4 A5 A6]. subst l.
    eapply sleeping_keep; try done; unfold st; rewrite ?O7; [|auto|done|by left]. by split; congruence.
  - injection Hq as -> -> ->. by eapply run_inv.
Qed.

(** [sys_sleep] of the current process, and the switch to the scheduler when it
    has to wait. *)
Definition enter_sleep : M K (sysret fc_point) :=
  r <- sys_sleep ticks_addr ;;
  match r with
  | Asleep _ => schedule_resume ;;; pt_release ;;; ret r
  | _ => ret r
  end.

Lemma proc_arg_at f d ptl tkl i l t n s a : at_state f d ptl tkl (Some i) l t s →
  argint (ram (k_m s)) (pr_sz (get_proc i l)) (load32 (ram (k_m s)) (pr_tf (get_proc i l) + 68)) n = a →
  ∃ s', proc_arg n s = Done a s' ∧ at_state f d ptl tkl (Some i) l t s'.
Proof using.
  intros [H1 H2 H3 H4 H5 H6] Ha. destruct (curproc_run f d s i H1 H4) as (c & Hr & Hc). unfold proc_arg. mcall Hr. eexists. cbn [set_k_cpu k_m procs]. rewrite H5, Ha.
  split; [done|]. by split.
Qed.

Lemma enter_sleep_inv f p l t n s0 :
  at_state f 0 false false (Some p) l t s0 → (p < length l)%nat → pr_kstack (get_proc p l) ≠ 0 → pr_pgdir (get_proc p l) ≠ 0 → is_u32 t →
  argint (ram (k_m s0)) (pr_sz (get_proc p l)) (load32 (ram (k_m s0)) (pr_tf (get_proc p l) + 68)) 0 = Some n →
  ∃ r s1, enter_sleep s0 = Done r s1 ∧ sleep_inv f p t n (s1, 0%nat, r).
Proof using.
  intros Hs Hp Hk Hd Ht Ha. destruct (proc_arg_at _ _ _ _ _ _ _ 0 s0 _ Hs Ha) as (s1 & Hr1 & Hs1). unfold enter_sleep, sys_sleep. mcall Hr1.
  destruct (tk_acquire_at _ _ _ _ _ _ s1 Hs1) as ([] & s2 & Hr2 & Hs2). mcall Hr2. rewrite (as_ticks _ _ _ _ _ _ _ _ Hs2).
  destruct (sleep_test_at f p l t t n Hp s2 Hs2) as (r & s3 & Hr3 & Hs3). mcall Hr3. rewrite Z.sub_diag in Hs3. change (u32 0) with 0 in Hs3.
  destruct (Z.ltb_spec 0 (u32 n)); [destruct (dead p l) eqn:Ed|]; destruct Hs3 as [-> Hs3].
  - eexists _, s3. split; [done|]. right. split; [done|]. by rewrite (as_procs _ _ _ _ _ _ _ _ Hs3).
  - destruct (schedule_resume_at _ _ _ _ _ _ _ s3 Hs3) as ([] & s4 & Hr4 & Hs4). mcall Hr4.
    destruct (pt_release_at f 0 _ _ _ _ ltac:(lia) s4 Hs4) as ([] & s5 & Hr5 & Hs5). mcall Hr5. eexists _, s5. split; [done|]. split; [done|].
    exists (slept p l). unfold slept in *. split; [replace (u32 (t + Z.of_nat 0)) with t by (unfold is_u32 in Ht; rewrite u32_small by lia; lia); done|by rewrite !length_upd| |].
    + rewrite !get_upd by (by rewrite ?length_upd). by rewrite !decide_True.
    + left. unfold st. rewrite !get_upd by (by rewrite ?length_upd). by rewrite !decide_True.
  - eexists _, s3. split; [done|]. left. split; [done|]. unfold elapsed. change (u32 (Z.of_nat 0)) with 0. lia.
Qed.

(** C12 A process that calls sleep(n) waits for at least n ticks of the clock.
    Whatever the clock, kill, wakeup, the scheduler and the other processes do
    meanwhile, it returns 0 only when n ticks have passed, and -1 only when it
    has been killed; it is never left asleep when the time is up, and once it is
    runnable it returns at its next turn if the time is up. *)
Theorem sleep_timing f p l t n s0 :
  at_state f 0 false false (Some p) l t s0 → (p < length l)%nat → pr_kstack (get_proc p l) ≠ 0 → pr_pgdir (get_proc p l) ≠ 0 → is_u32 t →
  argint (ram (k_m s0)) (pr_sz (get_proc p l)) (load32 (ram (k_m s0)) (pr_tf (get_proc p l) + 68)) 0 = Some n →
  ∃ r0 s1, enter_sleep s0 = Done r0 s1 ∧ ∀ s e r, rtc (sleep_step p) (s1, 0%nat, r0) (s, e, r) →
    match r with
    | Value v => v = 0 ∧ u32 n <= Z.of_nat e ∨ v = -1 ∧ dead p (procs s) = true
    | Asleep q => q = InSleep t n f ∧
        (st (procs s) p = SLEEPING ∧ elapsed e < u32 n ∨
         st (procs s) p = RUNNABLE ∧ ∃ r' s', run_sleeper p t n f s = Done r' s' ∧ (u32 n <= elapsed e → r' = Value 0))
    | Gone => False
    end.
Proof using.
  intros Hs Hp Hk Hd Ht Ha. destruct (enter_sleep_inv f p l t n s0) as (r0 & s1 & Hr & Hi); try done. exists r0, s1. split; [done|]. intros s e r Hst.
  assert (Hinv : sleep_inv f p t n (s, e, r)).
  { revert Hi. induction Hst as [w|w w1 w2 Hst _ IH]; intros Hi; [done|]. apply IH. by eapply sleep_step_inv. }
  destruct r as [v| |q]; [|done|].
  - destruct Hinv as [[-> Hn]|Hk']; [left|by right]. split; [done|]. unfold elapsed, u32 in *. zlia.
  - destruct Hinv as [-> (l' & [H1 H2 [H3 H3'] H4])]. split; [done|]. rewrite (as_procs _ _ _ _ _ _ _ _ H1). destruct H4 as [(H4 & _ & H5)|H4]; [by left|right].
    split; [done|]. destruct (run_sleeper_at f p l' _ t n H2 H4 H3 H3' s H1) as (r' & s' & Hr' & Hq). exists r', s'. split; [done|]. intros Hn.
    rewrite elapsed_eq in Hq. revert Hq. ztest (elapsed e <? u32 n) is false. by intros [-> _].
Qed.
End sleep.

(** ** Examples *)

(** A system without files and devices. *)
#[local] Instance no_exec : ExecOps unit := {|
  eo_begin_op := ret tt; eo_end_op := ret tt; eo_namei _ _ := ret None; eo_ilock _ := ret tt; eo_iunlockput _ := ret tt; eo_readi _ m _ _ _ := ret (-1, m)
|}.
#[local] Instance no_calls : FileCalls unit := {|
  fc_point := unit; fc_call _ := ret (inl (-1)); fc_resume _ := ret (inl (-1))
|}.
#[local] Instance no_devs : TrapDevs unit := {|
  td_ideintr := ret tt; td_kbdintr := ret tt; td_uartintr := ret tt; td_lapiceoi := ret tt
|}.

(** Process 1 in user mode, after a page fault; the word at its stack pointer 100
    is the return address and the next one the argument 3. *)
Definition trapped : kstate (clock unit) :=
  let tf := 0x80407000 - 76 in
  let m := λ a, if a =? tf + 48 then 14 else if a =? tf + 60 then 27 else if a =? tf + 68 then 100 else if a =? 104 then 3 else 0 in
  let p := Proc 4096 0x80405000 0x80406000 RUNNING 7 (Some 0%nat) tf 0 0 false (replicate NOFILE None) (Some 0%nat) [] in
  KState (Machine m false true 0 0x803ff000 0 []) (Cpu 0 false true) (Some 1%nat) 0 false (demo_proc :: p :: replicate 62 proc0) 8 (Some 0%nat) false (Clock 20 false tt).

Lemma killed_never_returns_witness :
  ∃ s', trap 0 0 0 0x80110000 0 0 0 [0] 0 (0x80407000 - 76) (set_k_cpu (Cpu 0 false false) trapped) = Done Exited s' ∧ trap_outcome (0x80407000 - 76) Exited s'.
Proof.
  assert (Hr : match trap 0 0 0 0x80110000 0 0 0 [0] 0 (0x80407000 - 76) (set_k_cpu (Cpu 0 false false) trapped) with Done Exited _ => True | _ => False end) by (vm_compute; exact I).
  destruct (trap _ _ _ _ _ _ _ _ _ _ _) as [[| |q] s'| | | |] eqn:E; try (exfalso; exact Hr). exists s'. split; [reflexivity|].
  apply (killed_never_returns 0 0 0 0x80110000 0 0 0 [0] 0 _ (set_k_cpu (Cpu 0 false false) trapped)). left. exact E.
Defined.

Lemma sleep_timing_witness :
  ∃ s1, enter_sleep 0x80110F00 trapped = Done (Asleep (InSleep 20 3 true)) s1 ∧ (st (procs s1) 1 = SLEEPING ∨ st (procs s1) 1 = RUNNABLE).
Proof.
  destruct (sleep_timing 0 0 0x80110F00 true 1 (procs trapped) 20 3 trapped) as (r & s1 & Hr & H).
  - by split.
  - cbn. lia.
  - done.
  - done.
  - by vm_compute.
  - vm_compute. reflexivity.
  - assert (Hv : match enter_sleep 0x80110F00 trapped with Done r' _ => r' = Asleep (InSleep 20 3 true) | _ => False end) by (vm_compute; reflexivity).
    rewrite Hr in Hv. subst r. exists s1. split; [exact Hr|]. destruct (H s1 0%nat _ (rtc_refl _ _)) as [_ [[Hst _]|[Hst _]]]; [left|right]; exact Hst.
Defined.
