(* ===== verification/Apic.v ===== *)
(** * Interrupt controllers and the clock chip (lapic.c, ioapic.c, picirq.c)

    The devices are hardware: [lread] is what a register of the local APIC reads
    after some writes, [rtc] what a register of the clock chip reads at a time.
    The state records what the code writes: the registers of the local APIC and
    the ports in order, and the memory for the warm reset vector.  Every read of
    a device takes one unit of time. *)

From Stdlib Require Import ZArith Lia.
From stdpp Require Import base numbers list strings.
From S2P Require Import Prelude Mem Mmu Proc ProcFacts ProcClaims Fs Trap.

(** ** The local APIC *)

Definition ID : Z := 0x0020 / 4.
Definition VER : Z := 0x0030 / 4.
Definition TPR : Z := 0x0080 / 4.
Definition EOI : Z := 0x00B0 / 4.
Definition SVR : Z := 0x00F0 / 4.
Definition ENABLE : Z := 0x00000100.
Definition ESR : Z := 0x0280 / 4.
Definition ICRLO : Z := 0x0300 / 4.
Definition INIT : Z := 0x00000500.
Definition STARTUP : Z := 0x00000600.
Definition DELIVS : Z := 0x00001000.
Definition ASSERT : Z := 0x00004000.
Definition LEVEL : Z := 0x00008000.
Definition BCAST : Z := 0x00080000.
Definition ICRHI : Z := 0x0310 / 4.
Definition TIMER : Z := 0x0320 / 4.
Definition X1 : Z := 0x0000000B.
Definition PERIODIC : Z := 0x00020000.
Definition PCINT : Z := 0x0340 / 4.
Definition LINT0 : Z := 0x0350 / 4.
Definition LINT1 : Z := 0x0360 / 4.
Definition ERROR : Z := 0x0370 / 4.
Definition MASKED : Z := 0x00010000.
Definition TICR : Z := 0x0380 / 4.
Definition TDCR : Z := 0x03E0 / 4.
Definition IRQ_ERROR : Z := 19.

Definition CMOS_PORT : Z := 0x70.
Definition CMOS_STATA : Z := 0x0a.
Definition CMOS_STATB : Z := 0x0b.
Definition CMOS_UIP : Z := Z.shiftl 1 7.
Definition SECS : Z := 0x00.
Definition MINS : Z := 0x02.
Definition HOURS : Z := 0x04.
Definition DAY : Z := 0x07.
Definition MONTH : Z := 0x08.
Definition YEAR : Z := 0x09.

(** [lapic] is the address that mp.c found, or 0. *)
Record lapst : Type := LapSt {
  lapic : Z;
  l_writes : list (Z * Z);
  l_ports : list (Z * Z);
  l_mem : mem;
  l_time : nat
}.

Record rtcdate : Type := Rtcdate {
  second : Z;
  minute : Z;
  hour : Z;
  day : Z;
  month : Z;
  year : Z
}.

#[export] Instance rtcdate_eq_dec : EqDecision rtcdate.
Proof. solve_decision. Defined.

Section lapic.
Context (lread : list (Z * Z) → nat → Z → Z) (rtc : nat → Z → Z).

Definition pass : M lapst unit := modify (λ s, LapSt (lapic s) (l_writes s) (l_ports s) (l_mem s) (S (l_time s))).
Definition lap_outb (port v : Z) : M lapst unit :=
  modify (λ s, LapSt (lapic s) (l_writes s) (l_ports s ++ [(port, u8 v)]) (l_mem s) (l_time s)).

(** [lapic[index]]. *)
Definition lapicr (index : Z) : M lapst Z :=
  v <- gets (λ s, lread (l_writes s) (l_time s) index) ;;
  pass ;;;
  ret v.

Definition lapicw (index value : Z) : M lapst unit :=
  modify (λ s, LapSt (lapic s) (l_writes s ++ [(index, value)]) (l_ports s) (l_mem s) (l_time s)) ;;;
  lapicr ID ;;;
  ret tt.

(** [while(lapic[ICRLO] & DELIVS);] *)
Fixpoint lapic_wait (fuel : nat) : M lapst unit :=
  match fuel with
  | O => nofuel
  | S fuel' =>
      v <- lapicr ICRLO ;;
      if negb (Z.land v DELIVS =? 0) then lapic_wait fuel' else ret tt
  end.

Definition lapicinit (fuel : nat) : M lapst unit :=
  p <- gets lapic ;;
  if p =? 0 then ret tt
  else
    lapicw SVR (Z.lor ENABLE (T_IRQ0 + IRQ_SPURIOUS)) ;;;
    lapicw TDCR X1 ;;;
    lapicw TIMER (Z.lor PERIODIC (T_IRQ0 + IRQ_TIMER)) ;;;
    lapicw TICR 10000000 ;;;
    lapicw LINT0 MASKED ;;;
    lapicw LINT1 MASKED ;;;
    v <- lapicr VER ;;
    when (Z.land (Z.shiftr v 16) 0xFF >=? 4) (lapicw PCINT MASKED) ;;;
    lapicw ERROR (T_IRQ0 + IRQ_ERROR) ;;;
    lapicw ESR 0 ;;;
    lapicw ESR 0 ;;;
    lapicw EOI 0 ;;;
    lapicw ICRHI 0 ;;;
    lapicw ICRLO (Z.lor (Z.lor BCAST INIT) LEVEL) ;;;
    lapic_wait fuel ;;;
    lapicw TPR 0.

Definition lapicid : M lapst Z :=
  p <- gets lapic ;;
  if p =? 0 then ret 0
  else
    v <- lapicr ID ;;
    ret (Z.shiftr v 24).

Definition lapiceoi : M lapst unit :=
  p <- gets lapic ;;
  when (negb (p =? 0)) (lapicw EOI 0).

(** The loop that sends the startup interrupt. *)
Fixpoint startap_loop (n : nat) (apicid addr : Z) : M lapst unit :=
  match n with
  | O => ret tt
  | S n' =>
      lapicw ICRHI (u32 (Z.shiftl apicid 24)) ;;;
      lapicw ICRLO (Z.lor STARTUP (Z.shiftr addr 12)) ;;;
      startap_loop n' apicid addr
  end.

(** [wrv[0] = 0; wrv[1] = addr >> 4;] *)
Definition warm_reset (addr : Z) : M lapst unit :=
  let wrv := P2V (Z.lor (Z.shiftl 0x40 4) 0x67) in
  modify (λ s, LapSt (lapic s) (l_writes s) (l_ports s) (store16 (store16 (l_mem s) wrv 0) (wrv + 2) (Z.shiftr addr 4)) (l_time s)).

Definition lapicstartap (apicid addr : Z) : M lapst unit :=
  lap_outb CMOS_PORT 0xF ;;;
  lap_outb (CMOS_PORT + 1) 0x0A ;;;
  warm_reset addr ;;;
  lapicw ICRHI (u32 (Z.shiftl apicid 24)) ;;;
  lapicw ICRLO (Z.lor (Z.lor INIT LEVEL) ASSERT) ;;;
  lapicw ICRLO (Z.lor INIT LEVEL) ;;;
  startap_loop 2 apicid addr.

(** ** The date *)

Definition cmos_read (reg : Z) : M lapst Z :=
  lap_outb CMOS_PORT reg ;;;
  v <- gets (λ s, rtc (l_time s) reg) ;;
  pass ;;;
  ret (u8 v).

Definition fill_rtcdate : M lapst rtcdate :=
  s <- cmos_read SECS ;;
  m <- cmos_read MINS ;;
  h <- cmos_read HOURS ;;
  d <- cmos_read DAY ;;
  mo <- cmos_read MONTH ;;
  y <- cmos_read YEAR ;;
  ret (Rtcdate s m h d mo y).

Fixpoint cmos_loop (fuel : nat) : M lapst rtcdate :=
  match fuel with
  | O => nofuel
  | S fuel' =>
      t1 <- fill_rtcdate ;;
      a <- cmos_read CMOS_STATA ;;
      if negb (Z.land a CMOS_UIP =? 0) then cmos_loop fuel'
      else
        t2 <- fill_rtcdate ;;
        if bool_decide (t1 = t2) then ret t1 else cmos_loop fuel'
  end.

Definition CONV (x : Z) : Z := u32 (Z.shiftr x 4 * 10 + Z.land x 0xf).

Definition cmostime (fuel : nat) : M lapst rtcdate :=
  sb <- cmos_read CMOS_STATB ;;
  let bcd := Z.land sb (Z.shiftl 1 2) =? 0 in
  t1 <- cmos_loop fuel ;;
  let t1 := if bcd then Rtcdate (CONV (second t1)) (CONV (minute t1)) (CONV (hour t1)) (CONV (day t1)) (CONV (month t1)) (CONV (year t1)) else t1 in
  ret (Rtcdate (second t1) (minute t1) (hour t1) (day t1) (month t1) (u32 (year t1 + 2000))).
End lapic.

(** ** The date is one that the clock showed *)

Section date.
Context (rtc : nat → Z → Z) (shows : nat → rtcdate) (binary : bool).

(** The chip keeps its numbers in binary or as two decimal digits. *)
Definition enc (x : Z) : Z := if binary then x else 16 * (x / 10) + x mod 10.
Definition fields (d : rtcdate) : list Z := [second d; minute d; hour d; day d; month d; year d].

(** The clock chip: its registers hold the date it shows, bit 2 of status B tells
    the format, and the date changes at most once in 13 reads. *)
Record rtc_ok : Prop := {
  rk_regs : ∀ t, [rtc t SECS; rtc t MINS; rtc t HOURS; rtc t DAY; rtc t MONTH; rtc t YEAR] = enc <$> fields (shows t);
  rk_format : ∀ t, Z.land (u8 (rtc t CMOS_STATB)) 4 = if binary then 4 else 0;
  rk_fields : ∀ t, Forall (λ x, 0 <= x < 100) (fields (shows t));
  rk_once : ∀ t, ∃ c, (∀ u, (t <= u < c)%nat → (u <= t + 12)%nat → shows u = shows t) ∧ (∀ u, (c <= u <= t + 12)%nat → shows u = shows (t + 12)%nat)
}.
(** From [T] on no update happens for 26 reads. *)
Definition calm (T : nat) : Prop := ∀ u, (T <= u < T + 26)%nat → shows u = shows T ∧ Z.land (u8 (rtc u CMOS_STATA)) CMOS_UIP = 0.

Context (Hrtc : rtc_ok).

Lemma cmos_read_run reg s : ∃ s', cmos_read rtc reg s = Done (u8 (rtc (l_time s) reg)) s' ∧ l_time s' = S (l_time s).
Proof using. eexists. split; [reflexivity|done]. Qed.

Definition encode (d : rtcdate) : rtcdate := Rtcdate (enc (second d)) (enc (minute d)) (enc (hour d)) (enc (day d)) (enc (month d)) (enc (year d)).

Lemma enc_u8 x : 0 <= x < 100 → u8 (enc x) = enc x.
Proof using. clear. intros Hx. unfold enc, u8. destruct binary; zlia. Qed.

Lemma fields_range t : (0 <= second (shows t) < 100) ∧ (0 <= minute (shows t) < 100) ∧ (0 <= hour (shows t) < 100) ∧
  (0 <= day (shows t) < 100) ∧ (0 <= month (shows t) < 100) ∧ (0 <= year (shows t) < 100).
Proof using Hrtc. pose proof (rk_fields Hrtc t) as H. unfold fields in H. rewrite !Forall_cons in H. tauto. Qed.

(** A date read register by register from time [t] on. *)
Definition mixed (t : nat) : rtcdate :=
  Rtcdate (enc (second (shows t))) (enc (minute (shows (t + 1)%nat))) (enc (hour (shows (t + 2)%nat)))
          (enc (day (shows (t + 3)%nat))) (enc (month (shows (t + 4)%nat))) (enc (year (shows (t + 5)%nat))).

Lemma fill_run s : ∃ s', fill_rtcdate rtc s = Done (mixed (l_time s)) s' ∧ l_time s' = (l_time s + 6)%nat.
Proof using Hrtc.
  unfold fill_rtcdate. set (t := l_time s).
  destruct (cmos_read_run SECS s) as (s1 & H1 & T1). mcall H1. destruct (cmos_read_run MINS s1) as (s2 & H2 & T2). mcall H2.
  destruct (cmos_read_run HOURS s2) as (s3 & H3 & T3). mcall H3. destruct (cmos_read_run DAY s3) as (s4 & H4 & T4). mcall H4.
  destruct (cmos_read_run MONTH s4) as (s5 & H5 & T5). mcall H5. destruct (cmos_read_run YEAR s5) as (s6 & H6 & T6). mcall H6.
  assert (Hr : ∀ u, rtc u SECS = enc (second (shows u)) ∧ rtc u MINS = enc (minute (shows u)) ∧ rtc u HOURS = enc (hour (shows u)) ∧
    rtc u DAY = enc (day (shows u)) ∧ rtc u MONTH = enc (month (shows u)) ∧ rtc u YEAR = enc (year (shows u))).
  { intros u. pose proof (rk_regs Hrtc u) as H. cbn in H. by injection H as -> -> -> -> -> ->. }
  exists s6. split; [|lia]. f_equal. unfold mixed. fold t.
  replace (t + 1)%nat with (l_time s1) by lia. replace (t + 2)%nat with (l_time s2) by lia. replace (t + 3)%nat with (l_time s3) by lia.
  replace (t + 4)%nat with (l_time s4) by lia. replace (t + 5)%nat with (l_time s5) by lia. fold t in H1.
  destruct (Hr t) as (-> & _), (Hr (l_time s1)) as (_ & -> & _), (Hr (l_time s2)) as (_ & _ & -> & _), (Hr (l_time s3)) as (_ & _ & _ & -> & _),
    (Hr (l_time s4)) as (_ & _ & _ & _ & -> & _), (Hr (l_time s5)) as (_ & _ & _ & _ & _ & ->).
  f_equal; apply enc_u8; apply fields_range.
Qed.

(** Two equal readings show one date of the clock. *)
Lemma mixed_twice t : mixed t = mixed (t + 7) → ∃ u, (t <= u)%nat ∧ mixed t = encode (shows u).
Proof using Hrtc.
  intros E. destruct (rk_once Hrtc t) as (c & Hb & Ha). destruct (decide (c <= t + 7)%nat) as [Hc|Hc].
  - exists (t + 12)%nat. split; [lia|]. rewrite E. unfold mixed, encode. by rewrite (Ha (t + 7)%nat), !(Ha (t + 7 + _)%nat) by lia.
  - exists t. split; [lia|]. unfold mixed, encode. by rewrite !(Hb (t + _)%nat) by lia.
Qed.

Lemma calm_mixed T t : calm T → (T <= t <= T + 13)%nat → mixed (t + 7) = mixed t.
Proof using.
  intros Hc Ht. assert (H : ∀ u, (T <= u < T + 26)%nat → shows u = shows T) by (intros; by apply Hc).
  unfold mixed. by rewrite (H t), (H (t + 7)%nat), !(H (t + 7 + _)%nat), !(H (t + _)%nat) by lia. Qed.

Lemma cmos_loop_run T fuel : ∀ s, calm T → (l_time s <= T + 13)%nat → (T - l_time s < fuel)%nat →
  ∃ u s', cmos_loop rtc fuel s = Done (encode (shows u)) s' ∧ (l_time s <= u)%nat.
Proof using Hrtc.
  induction fuel as [|fuel IH]; intros s Hc Ht Hf; [lia|]. cbn [cmos_loop]. destruct (fill_run s) as (s1 & H1 & T1). mcall H1.
  destruct (cmos_read_run CMOS_STATA s1) as (s2 & H2 & T2). mcall H2. destruct (decide (T <= l_time s)%nat) as [Hin|Hout].
  - destruct (Hc (l_time s1)) as [_ Hu]; [lia|]. rewrite Hu. cbn [Z.eqb negb]. destruct (fill_run s2) as (s3 & H3 & T3). mcall H3.
    replace (l_time s2) with (l_time s + 7)%nat by lia. pose proof (calm_mixed T (l_time s) Hc ltac:(lia)) as Em. rewrite bool_decide_eq_true_2 by done.
    destruct (mixed_twice (l_time s)) as (u & Hu' & E); [done|]. exists u, s3. split; [by rewrite E|done].
  - destruct (negb _).
    + destruct (IH s2 Hc) as (u & s' & Hr & Hu); [lia|lia|]. exists u, s'. split; [done|lia].
    + destruct (fill_run s2) as (s3 & H3 & T3). mcall H3. replace (l_time s2) with (l_time s + 7)%nat by lia. case_bool_decide as Em.
      * destruct (mixed_twice (l_time s)) as (u & Hu' & E); [done|]. exists u, s3. split; [by rewrite E|done].
      * destruct (IH s3 Hc) as (u & s' & Hr & Hu); [lia|lia|]. exists u, s'. split; [done|lia].
Qed.

Lemma conv_digits x : 0 <= x < 100 → CONV (16 * (x / 10) + x mod 10) = x.
Proof using.
  clear. intros Hx. unfold CONV. rewrite Z.shiftr_div_pow2 by lia. change 0xf with (Z.ones 4). rewrite Z.land_ones by lia. change (2 ^ 4) with 16. rewrite u32_small; zlia.
Qed.
End date.


(** A clock at 23:59:59 on the last day of a year, which goes on at time 9. *)
Definition new_year (t : nat) : rtcdate := if decide (t < 9)%nat then Rtcdate 59 59 23 31 12 25 else Rtcdate 0 0 0 1 1 26.
Definition demo_rtc (t : nat) (reg : Z) : Z :=
  if reg =? CMOS_STATA then (if decide (t = 8)%nat then 0x80 else 0)
  else if reg =? CMOS_STATB then 2
  else let d := new_year t in
    enc false (if reg =? SECS then second d else if reg =? MINS then minute d else if reg =? HOURS then hour d else if reg =? DAY then day d else if reg =? MONTH then month d else year d).


(** ** The I/O APIC *)

Definition IOAPIC : Z := 0xFEC00000.
Definition REG_ID : Z := 0x00.
Definition REG_VER : Z := 0x01.
Definition REG_TABLE : Z := 0x10.
Definition INT_DISABLED : Z := 0x00010000.

(** The register selected, the registers, whether the address is known, and what
    was printed. *)
Record iost : Type := IoSt {
  ioapic : Z;
  io_reg : Z;
  io_regs : Z → Z;
  io_console : list string
}.

Definition ioapicread (reg : Z) : M iost Z :=
  modify (λ s, IoSt (ioapic s) reg (io_regs s) (io_console s)) ;;;
  gets (λ s, io_regs s (io_reg s)).

Definition ioapicwrite (reg data : Z) : M iost unit :=
  modify (λ s, IoSt (ioapic s) reg (io_regs s) (io_console s)) ;;;
  modify (λ s, IoSt (ioapic s) (io_reg s) (λ r, if r =? io_reg s then data else io_regs s r) (io_console s)).

(** The loop of [ioapicinit], [n] entries from [i] on. *)
Fixpoint ioapic_loop (n : nat) (i : Z) : M iost unit :=
  match n with
  | O => ret tt
  | S n' =>
      ioapicwrite (REG_TABLE + 2 * i) (Z.lor INT_DISABLED (T_IRQ0 + i)) ;;;
      ioapicwrite (REG_TABLE + 2 * i + 1) 0 ;;;
      ioapic_loop n' (i + 1)
  end.

(** [ioapicid] is the variable that mp.c sets. *)
Definition ioapicinit (ioapicid : Z) : M iost unit :=
  modify (λ s, IoSt IOAPIC (io_reg s) (io_regs s) (io_console s)) ;;;
  ver <- ioapicread REG_VER ;;
  let maxintr := Z.land (Z.shiftr ver 16) 0xFF in
  r <- ioapicread REG_ID ;;
  let id := Z.shiftr r 24 in
  when (negb (id =? ioapicid)) (modify (λ s, IoSt (ioapic s) (io_reg s) (io_regs s) (io_console s ++ ["ioapicinit: id isn't equal to ioapicid; not a MP"%string]))) ;;;
  ioapic_loop (Z.to_nat (maxintr + 1)) 0.

Definition ioapicenable (irq cpunum : Z) : M iost unit :=
  ioapicwrite (REG_TABLE + 2 * irq) (T_IRQ0 + irq) ;;;
  ioapicwrite (REG_TABLE + 2 * irq + 1) (u32 (Z.shiftl cpunum 24)).

(** The entry of the redirection table for an interrupt. *)
Definition redirection (s : iost) (i : Z) : Z * Z := (io_regs s (REG_TABLE + 2 * i), io_regs s (REG_TABLE + 2 * i + 1)).

Lemma ioapicread_run reg s : ioapicread reg s = Done (io_regs s reg) (IoSt (ioapic s) reg (io_regs s) (io_console s)).
Proof. done. Qed.

Lemma ioapicwrite_run reg data s : ioapicwrite reg data s = Done tt (IoSt (ioapic s) reg (λ r, if r =? reg then data else io_regs s r) (io_console s)).
Proof. done. Qed.

Lemma ioapic_loop_run n : ∀ i s, 0 <= i → ∃ s', ioapic_loop n i s = Done tt s' ∧
  (∀ j, i <= j < i + Z.of_nat n → redirection s' j = (Z.lor INT_DISABLED (T_IRQ0 + j), 0)) ∧ ∀ j, 0 <= j < i → redirection s' j = redirection s j.
Proof.
  unfold redirection, REG_TABLE. induction n as [|n IH]; intros i s Hi; cbn [ioapic_loop]; [exists s; split_and!; [done|lia|done]|].
  unfold REG_TABLE. mcall (ioapicwrite_run (0x10 + 2 * i) (Z.lor INT_DISABLED (T_IRQ0 + i)) s). set (s1 := IoSt _ _ _ _).
  mcall (ioapicwrite_run (0x10 + 2 * i + 1) 0 s1). set (s2 := IoSt _ _ _ _). destruct (IH (i + 1) s2) as (s' & Hr & Hin & Hout); [lia|].
  exists s'. split; [done|]. split.
  - intros j Hj. destruct (decide (j = i)) as [->|]; [|apply Hin; lia]. rewrite Hout by lia. cbn [s2 s1 io_regs].
    ztest (0x10 + 2 * i =? 0x10 + 2 * i + 1) is false. by rewrite !Z.eqb_refl.
  - intros j Hj. rewrite Hout by lia. cbn [s2 s1 io_regs]. ztest (0x10 + 2 * j =? 0x10 + 2 * i + 1) is false. ztest (0x10 + 2 * j =? 0x10 + 2 * i) is false.
    ztest (0x10 + 2 * j + 1 =? 0x10 + 2 * i + 1) is false. by ztest (0x10 + 2 * j + 1 =? 0x10 + 2 * i) is false.
Qed.

(** After [ioapicinit] all interrupts are masked and sent to no CPU, with the
    vectors that trap.c expects; [ioapicenable] unmasks one of them for a CPU and
    leaves the others alone. *)
Lemma ioapic_routes ioapicid s irq cpu :
  let maxintr := Z.land (Z.shiftr (io_regs s REG_VER) 16) 0xFF in
  0 <= irq <= maxintr →
  ∃ s1 s2, ioapicinit ioapicid s = Done tt s1 ∧ ioapicenable irq cpu s1 = Done tt s2 ∧
    ∀ j, 0 <= j <= maxintr → redirection s1 j = (Z.lor INT_DISABLED (T_IRQ0 + j), 0) ∧
      redirection s2 j = if j =? irq then (T_IRQ0 + irq, u32 (Z.shiftl cpu 24)) else redirection s1 j.
Proof.
  cbn zeta. intros Hirq. set (max := Z.land _ _) in *.
  assert (∃ s0, ioapicinit ioapicid s = ioapic_loop (Z.to_nat (max + 1)) 0 s0) as [s0 E].
  { unfold ioapicinit. mrun. set (sa := IoSt IOAPIC _ _ _). mcall (ioapicread_run REG_VER sa). mcall (ioapicread_run REG_ID (IoSt IOAPIC REG_VER (io_regs s) (io_console s))).
    unfold when. case_match; eexists; reflexivity. }
  rewrite E. destruct (ioapic_loop_run (Z.to_nat (max + 1)) 0 s0) as (s1 & Hr & Hin & _); [lia|].
  exists s1. eexists. split; [done|]. split; [unfold ioapicenable; by mcall (ioapicwrite_run (REG_TABLE + 2 * irq) (T_IRQ0 + irq) s1)|].
  intros j Hj. split; [apply Hin; lia|]. unfold redirection. cbn [io_regs io_reg]. unfold REG_TABLE. destruct (Z.eqb_spec j irq) as [->|].
  - ztest (0x10 + 2 * irq =? 0x10 + 2 * irq + 1) is false. by rewrite !Z.eqb_refl.
  - ztest (0x10 + 2 * j =? 0x10 + 2 * irq + 1) is false. ztest (0x10 + 2 * j =? 0x10 + 2 * irq) is false.
    ztest (0x10 + 2 * j + 1 =? 0x10 + 2 * irq + 1) is false. by ztest (0x10 + 2 * j + 1 =? 0x10 + 2 * irq) is false.
Qed.

(** ** The interrupt controllers that are not used *)

Definition IO_PIC1 : Z := 0x20.
Definition IO_PIC2 : Z := 0xA0.

(** The ports written. *)
Definition picinit : M (list (Z * Z)) unit :=
  modify (λ l, l ++ [(IO_PIC1 + 1, 0xFF)]) ;;;
  modify (λ l, l ++ [(IO_PIC2 + 1, 0xFF)]).
