(* ===== verification/Boot.v ===== *)
(** * The boot loader (bootmain.c)

    The state is the memory, the registers of the disk controller and the number
    of times its status was read.  The hardware is given by [status], what the
    status port reads at each time, and [disk], the sectors of its drives; [insl]
    copies the sector that the registers name (Ide.v). *)

From Stdlib Require Import ZArith Lia.
From stdpp Require Import base numbers list strings.
From S2P Require Import Prelude Mem Str Bio Ide Fs Exec.

Definition SECTSIZE : Z := 512.

Record bootst : Type := BootSt {
  b_mem : mem;
  b_regs : Z → Z;
  b_polls : nat
}.

Section boot.
Context (status : nat → Z) (disk : Z → Z → blk).

Definition port_out (port v : Z) : M bootst unit :=
  modify (λ s, BootSt (b_mem s) (λ p, if p =? port then u8 v else b_regs s p) (b_polls s)).

Fixpoint waitdisk (fuel : nat) : M bootst unit :=
  match fuel with
  | O => nofuel
  | S fuel' =>
      n <- gets b_polls ;;
      modify (λ s, BootSt (b_mem s) (b_regs s) (S n)) ;;;
      if negb (Z.land (status n) 0xC0 =? 0x40) then waitdisk fuel' else ret tt
  end.

(** [insl(0x1F0, dst, SECTSIZE/4)]. *)
Definition insl (dst : Z) : M bootst unit :=
  modify (λ s,
    let d := disk (drive (b_regs s)) (lba (b_regs s)) in
    BootSt (λ x, if (dst <=? x) && (x <? dst + SECTSIZE) then d (x - dst) else b_mem s x) (b_regs s) (b_polls s)).

(** [w] bounds the time the disk is busy. *)
Definition readsect (w : nat) (dst offset : Z) : M bootst unit :=
  waitdisk w ;;;
  port_out 0x1F2 1 ;;;
  port_out 0x1F3 offset ;;;
  port_out 0x1F4 (Z.shiftr offset 8) ;;;
  port_out 0x1F5 (Z.shiftr offset 16) ;;;
  port_out 0x1F6 (Z.lor (Z.shiftr offset 24) 0xE0) ;;;
  port_out 0x1F7 0x20 ;;;
  waitdisk w ;;;
  insl dst.

Fixpoint readseg_loop (fuel w : nat) (pa epa offset : Z) : M bootst unit :=
  match fuel with
  | O => nofuel
  | S fuel' =>
      if pa <? epa then
        readsect w pa offset ;;;
        readseg_loop fuel' w (u32 (pa + SECTSIZE)) epa (u32 (offset + 1))
      else ret tt
  end.

Definition readseg (w : nat) (pa count offset : Z) : M bootst unit :=
  let epa := u32 (pa + count) in
  let pa' := u32 (pa - offset mod SECTSIZE) in
  readseg_loop (Z.to_nat count + 2) w pa' epa (u32 (offset / SECTSIZE + 1)).

(** The structures at an address. *)
Definition here (m : mem) (a : Z) : mem := λ x, m (a + x).

(** The loop over the program headers from [ph] on. *)
Fixpoint boot_segments (fuel w : nat) (ph eph : Z) : M bootst unit :=
  match fuel with
  | O => nofuel
  | S fuel' =>
      if ph <? eph then
        m <- gets b_mem ;;
        let p := proghdr_at (here m ph) in
        let pa := ph_paddr p in
        readseg w pa (ph_filesz p) (ph_off p) ;;;
        when (ph_memsz p >? ph_filesz p)
          (modify (λ s, BootSt (stosb (b_mem s) (u32 (pa + ph_filesz p)) 0 (Z.to_nat (ph_memsz p - ph_filesz p))) (b_regs s) (b_polls s))) ;;;
        boot_segments fuel' w (u32 (ph + 32)) eph
      else ret tt
  end.

(** The address that is called in the end; [None] for the return to bootasm.S. *)
Definition bootmain (w : nat) : M bootst (option Z) :=
  let elf := 0x10000 in
  readseg w elf 4096 0 ;;;
  m <- gets b_mem ;;
  let hdr := elfhdr_at (here m elf) in
  if negb (e_magic hdr =? ELF_MAGIC) then ret None
  else
    let ph := u32 (elf + e_phoff hdr) in
    let eph := u32 (ph + 32 * e_phnum hdr) in
    boot_segments (S (Z.to_nat (e_phnum hdr))) w ph eph ;;;
    m <- gets b_mem ;;
    ret (Some (e_entry (elfhdr_at (here m elf)))).
End boot.

(** ** Reading sectors *)

Section facts.
Context (status : nat → Z) (disk : Z → Z → blk) (d : nat).
(** The disk is never busy for more than [d] reads of its status. *)
Hypothesis Hready : ∀ k, ∃ j, (j <= d)%nat ∧ Z.land (status (k + j)) 0xC0 = 0x40.
Notation w := (S d).

Lemma waitdisk_run s : ∃ n, waitdisk status w s = Done tt (BootSt (b_mem s) (b_regs s) n).
Proof using Hready.
  destruct (Hready (b_polls s)) as (j & Hj & Hs). assert (Hw : (j < w)%nat) by lia. clear Hj Hready. revert s Hs. generalize w Hw. clear.
  induction j as [|j IH]; intros [|f] Hf s Hs; try lia; cbn [waitdisk]; mrun.
  - rewrite Nat.add_0_r in Hs. rewrite Hs. cbn. eauto.
  - destruct (Z.land (status (b_polls s)) 0xC0 =? 0x40); cbn [negb]; [eauto|]. apply (IH f ltac:(lia) (BootSt _ _ (S (b_polls s)))). cbn. by replace (S (b_polls s + j)) with (b_polls s + S j)%nat by lia.
Qed.

(** The registers name the sector. *)
Lemma lba_regs offset r : 0 <= offset < 2 ^ 28 →
  r 0x1F3 = u8 offset → r 0x1F4 = u8 (Z.shiftr offset 8) → r 0x1F5 = u8 (Z.shiftr offset 16) → r 0x1F6 = u8 (Z.lor (Z.shiftr offset 24) 0xE0) →
  lba r = offset ∧ drive r = 0.
Proof using.
  clear. intros Ho H3 H4 H5 H6. unfold lba, drive. rewrite H3, H4, H5, H6, !Z.shiftr_div_pow2 by lia.
  change (2 ^ 8) with 256. change (2 ^ 16) with 65536. change (2 ^ 24) with 16777216. change (2 ^ 28) with 268435456 in Ho.
  set (a := offset / 16777216). assert (Ha : 0 <= a < 16) by (unfold a; zlia).
  assert (Z.land (u8 (Z.lor a 0xE0)) 0x0f = a ∧ Z.land (u8 (Z.lor a 0xE0) / 2 ^ 4) 1 = 0) as [E1 E2].
  { assert (∀ k, (k < 16)%nat → Z.land (u8 (Z.lor (Z.of_nat k) 0xE0)) 0x0f = Z.of_nat k ∧ Z.land (u8 (Z.lor (Z.of_nat k) 0xE0) / 2 ^ 4) 1 = 0) as H.
    { intros k Hk. do 16 (destruct k as [|k]; [done|]). lia. }
    specialize (H (Z.to_nat a) ltac:(lia)). by rewrite Z2Nat.id in H by lia. }
  rewrite E1, E2. split; [|done]. unfold a, u8. zlia.
Qed.

Lemma readsect_run dst offset s : 0 <= offset < 2 ^ 28 →
  ∃ r n, readsect status disk w dst offset s =
    Done tt (BootSt (λ x, if (dst <=? x) && (x <? dst + 512) then disk 0 offset (x - dst) else b_mem s x) r n).
Proof using Hready.
  intros Ho. unfold readsect. destruct (waitdisk_run s) as [n1 H1]. mcall H1. unfold port_out. mrun. 
  match goal with |- context [bind (waitdisk status w) _ ?s1] => destruct (waitdisk_run s1) as [n2 H2]; set (s2 := s1) in * end.
  mcall H2. unfold insl, modify. eexists _, n2. cbn [b_mem b_regs b_polls].
  destruct (lba_regs offset (b_regs s2) Ho) as [E1 E2]; [done..|]. rewrite E1, E2. reflexivity.
Qed.

(** The bytes of the kernel's file, which starts at sector 1. *)
Definition kfile (x : Z) : Z := disk 0 (x / 512 + 1) (x mod 512).

(** Reading [512 n] bytes from a sector boundary of the file. *)
Lemma readseg_loop_run n : ∀ fuel pa epa x s, (n < fuel)%nat → 0 <= pa → pa + 512 * Z.of_nat n < 4294967296 → 0 <= x → x mod 512 = 0 → x / 512 + 1 + Z.of_nat n < 2 ^ 28 →
  (n = 0%nat ∧ epa <= pa ∨ pa + 512 * (Z.of_nat n - 1) < epa <= pa + 512 * Z.of_nat n) →
  ∃ m r k, readseg_loop status disk fuel w pa epa (x / 512 + 1) s = Done tt (BootSt m r k) ∧
    ∀ y, m y = if (pa <=? y) && (y <? pa + 512 * Z.of_nat n) then kfile (x + (y - pa)) else b_mem s y.
Proof using Hready.
  change (2 ^ 28) with 268435456. induction n as [|n IH]; intros [|fuel] pa epa x s Hf Hpa Hend Hx Hm Hb He; try lia; cbn [readseg_loop].
  - ztest (pa <? epa) is false. eexists (b_mem s), (b_regs s), (b_polls s). split; [by destruct s|]. intros y. by destruct (Z.leb_spec pa y), (Z.ltb_spec y (pa + 512 * Z.of_nat 0)); try lia.
  - ztest (pa <? epa) is true. destruct (readsect_run pa (x / 512 + 1) s) as (r1 & k1 & H1); [change (2 ^ 28) with 268435456; zlia|]. mcall H1. set (s1 := BootSt _ r1 k1).
    change SECTSIZE with 512. rewrite (u32_small (pa + 512)) by lia. rewrite (u32_small (x / 512 + 1 + 1)) by zlia.
    replace (x / 512 + 1 + 1) with ((x + 512) / 512 + 1) by zlia.
    destruct (IH fuel (pa + 512) epa (x + 512) s1) as (m & r & k & Hr & Hy); try lia; try zlia. exists m, r, k. split; [done|]. intros y. rewrite Hy. cbn [s1 b_mem].
    destruct (Z.leb_spec (pa + 512) y), (Z.ltb_spec y (pa + 512 + 512 * Z.of_nat n)), (Z.leb_spec pa y), (Z.ltb_spec y (pa + 512 * Z.of_nat (S n))), (Z.ltb_spec y (pa + 512)); cbn [andb]; try lia; try done.
    + f_equal. lia.
    + unfold kfile. f_equal; [f_equal; zlia|zlia].
Qed.

(** [readseg] copies the sectors of the file around the bytes asked for. *)
Lemma readseg_run pa count offset s :
  0 <= offset < 4294967296 → 0 <= count → 512 <= pa → pa + count + 512 < 4294967296 →
  ∃ hi m r k, readseg status disk w pa count offset s = Done tt (BootSt m r k) ∧ pa + count <= hi ∧
    ∀ y, m y = if (pa - offset mod 512 <=? y) && (y <? hi) then kfile (offset + (y - pa)) else b_mem s y.
Proof using Hready.
  intros Ho Hc Hpa He. set (lo := pa - offset mod 512). set (n := Z.to_nat ((count + offset mod 512 + 511) / 512)).
  assert (Hn : Z.of_nat n = (count + offset mod 512 + 511) / 512) by (unfold n; zlia).
  unfold readseg. change SECTSIZE with 512. fold lo. rewrite (u32_small (pa + count)) by lia. rewrite (u32_small lo) by (unfold lo; zlia). rewrite (u32_small (_ + 1)) by zlia.
  set (x := 512 * (offset / 512)). replace (offset / 512 + 1) with (x / 512 + 1) by (unfold x; zlia).
  destruct (readseg_loop_run n (Z.to_nat count + 2) lo (pa + count) x s) as (m & r & k & Hr & Hy); unfold lo, x in *; change (2 ^ 28) with 268435456; try zlia.
  exists (pa - offset mod 512 + 512 * Z.of_nat n), m, r, k. split; [done|]. split; [zlia|]. intros y. rewrite Hy. destruct (_ && _); [|done]. f_equal. zlia.
Qed.

(** ** The kernel in the file *)

Definition khdr : elfhdr := elfhdr_at kfile.
Definition kseg (k : Z) : proghdr := proghdr_at (here kfile (e_phoff khdr + 32 * k)).

(** The program headers are in the first page; the segments lie in increasing
    order above the page that is used for the headers, and no segment shares a
    sector of its start with the one before. *)
Record kernel_ok : Prop := {
  ko_bytes : ∀ a b x, 0 <= disk a b x < 256;
  ko_magic : e_magic khdr = ELF_MAGIC;
  ko_headers : e_phoff khdr + 32 * e_phnum khdr <= 4096;
  ko_low : ∀ k, 0 <= k < e_phnum khdr → 0x11000 + 512 <= ph_paddr (kseg k);
  ko_high : ∀ k, 0 <= k < e_phnum khdr → ph_filesz (kseg k) <= ph_memsz (kseg k) ∧ ph_paddr (kseg k) + ph_memsz (kseg k) + 512 < 4294967296;
  ko_order : ∀ j k, 0 <= j < k → k < e_phnum khdr → ph_paddr (kseg j) + ph_memsz (kseg j) <= ph_paddr (kseg k) - ph_off (kseg k) mod 512
}.

(** Segment [k] of the kernel is in the memory: its bytes of the file, then zeros. *)
Definition in_memory (m : mem) (k : Z) : Prop :=
  ∀ x, 0 <= x < ph_memsz (kseg k) → m (ph_paddr (kseg k) + x) = if x <? ph_filesz (kseg k) then kfile (ph_off (kseg k) + x) else 0.

Definition headers_in (m : mem) : Prop := ∀ x, 0 <= x < 4096 → m (0x10000 + x) = kfile x.

Lemma proghdr_ext f g : (∀ x, 0 <= x < 32 → f x = g x) → proghdr_at f = proghdr_at g.
Proof using. clear. intros H. unfold proghdr_at. f_equal; apply load32_ext; intros i Hi; apply H; lia. Qed.

Lemma elfhdr_ext f g : (∀ x, 0 <= x < 52 → f x = g x) → elfhdr_at f = elfhdr_at g.
Proof using.
  clear. intros H. unfold elfhdr_at. f_equal; try (apply load32_ext; intros i Hi; apply H; lia); try (unfold load16; by rewrite !H by lia).
  unfold bytes_at. apply list_fmap_ext. intros i k Hk. apply lookup_seq in Hk as [-> Hk]. apply H. lia.
Qed.

Context (Hk : kernel_ok).

Lemma kfile_byte x : 0 <= kfile x < 256.
Proof using Hk. apply (ko_bytes Hk). Qed.

Lemma kseg_range k : 0 <= ph_off (kseg k) < 4294967296 ∧ 0 <= ph_filesz (kseg k) ∧ 0 <= ph_memsz (kseg k).
Proof using Hk. assert (Hm : mem_ok (here kfile (e_phoff khdr + 32 * k))) by (intros x; apply kfile_byte). unfold kseg, proghdr_at. cbn [ph_off ph_filesz ph_memsz]. split_and!; by apply load32_range. Qed.

Lemma khdr_range : 0 <= e_phoff khdr < 4294967296 ∧ 0 <= e_phnum khdr < 65536.
Proof using Hk.
  unfold khdr, elfhdr_at. cbn [e_phoff e_phnum]. split; [apply load32_range; intros x; apply kfile_byte|]. unfold load16. pose proof (kfile_byte 44). pose proof (kfile_byte (44 + 1)). lia.
Qed.

(** One round of the loop. *)
Lemma boot_segment_step m k r n (m' : mem) hi :
  let p := kseg k in
  0 <= k < e_phnum khdr → headers_in m → (∀ j, 0 <= j < k → in_memory m j) → ph_paddr p + ph_filesz p <= hi →
  (∀ y, m' y = if (ph_paddr p - ph_off p mod 512 <=? y) && (y <? hi) then kfile (ph_off p + (y - ph_paddr p)) else m y) →
  let s' := when (ph_memsz p >? ph_filesz p)
    (modify (λ s, BootSt (stosb (b_mem s) (u32 (ph_paddr p + ph_filesz p)) 0 (Z.to_nat (ph_memsz p - ph_filesz p))) (b_regs s) (b_polls s))) (BootSt m' r n) in
  ∃ m2, s' = Done tt (BootSt m2 r n) ∧ headers_in m2 ∧ ∀ j, 0 <= j < k + 1 → in_memory m2 j.
Proof using Hk.
  cbn zeta. intros Hkr Hh Hin Hhi Hm'. destruct (kseg_range k) as (Ro & Rf & Rm). pose proof (ko_low Hk k Hkr) as Hlow. destruct (ko_high Hk k Hkr) as [Hfm Hhigh].
  set (p := kseg k) in *. set (z := λ y, (ph_paddr p + ph_filesz p <=? y) && (y <? ph_paddr p + ph_memsz p)).
  assert (∃ m2, when (ph_memsz p >? ph_filesz p) (modify (λ s, BootSt (stosb (b_mem s) (u32 (ph_paddr p + ph_filesz p)) 0 (Z.to_nat (ph_memsz p - ph_filesz p))) (b_regs s) (b_polls s))) (BootSt m' r n)
      = Done tt (BootSt m2 r n) ∧ ∀ y, m2 y = if z y then 0 else m' y) as (m2 & E & Hm2).
  { unfold when. rewrite Z.gtb_ltb. destruct (Z.ltb_spec (ph_filesz p) (ph_memsz p)).
    - eexists. split; [reflexivity|]. intros y. cbn [b_mem]. rewrite u32_small by lia. rewrite stosb_spec by lia. unfold fill, z. rewrite Z2Nat.id by lia.
      replace (ph_paddr p + ph_filesz p + (ph_memsz p - ph_filesz p)) with (ph_paddr p + ph_memsz p) by lia. done.
    - exists m'. split; [done|]. intros y. unfold z.
      destruct (Z.leb_spec (ph_paddr p + ph_filesz p) y), (Z.ltb_spec y (ph_paddr p + ph_memsz p)); cbn [andb]; (done || lia). }
  exists m2. split; [done|]. pose proof (Z.mod_pos_bound (ph_off p) 512 ltac:(lia)) as Hmod.
  assert (Hbelow : ∀ y, y < ph_paddr p - ph_off p mod 512 → m2 y = m y).
  { intros y Hy. rewrite Hm2, Hm'. unfold z. ztest (ph_paddr p + ph_filesz p <=? y) is false. cbn [andb]. by ztest (ph_paddr p - ph_off p mod 512 <=? y) is false. }
  split.
  - intros x Hx. rewrite Hbelow by zlia. by apply Hh.
  - intros j Hj. destruct (decide (j = k)) as [->|Hne]; intros x Hx.
    + fold p in Hx |- *. rewrite Hm2, Hm'. unfold z. ztest (ph_paddr p + x <? ph_paddr p + ph_memsz p) is true. rewrite andb_true_r. destruct (Z.ltb_spec x (ph_filesz p)).
      * ztest (ph_paddr p + ph_filesz p <=? ph_paddr p + x) is false. ztest (ph_paddr p - ph_off p mod 512 <=? ph_paddr p + x) is true. ztest (ph_paddr p + x <? hi) is true. cbn [andb]. f_equal. lia.
      * by ztest (ph_paddr p + ph_filesz p <=? ph_paddr p + x) is true.
    + rewrite Hbelow; [apply Hin; [lia|done]|]. pose proof (ko_order Hk j k ltac:(lia) ltac:(lia)). fold p in H. lia.
Qed.

Lemma boot_segments_run n : ∀ k s, Z.of_nat n = e_phnum khdr - k → 0 <= k → headers_in (b_mem s) → (∀ j, 0 <= j < k → in_memory (b_mem s) j) →
  ∃ m r q, boot_segments status disk (S n) w (0x10000 + e_phoff khdr + 32 * k) (0x10000 + e_phoff khdr + 32 * e_phnum khdr) s = Done tt (BootSt m r q) ∧
    headers_in m ∧ ∀ j, 0 <= j < e_phnum khdr → in_memory m j.
Proof using Hready Hk.
  pose proof khdr_range as [R1 R2]. pose proof (ko_headers Hk) as Hh4. induction n as [|n IH]; intros k s Hn H0 Hh Hin; cbn [boot_segments].
  - ztest (0x10000 + e_phoff khdr + 32 * k <? 0x10000 + e_phoff khdr + 32 * e_phnum khdr) is false.
    exists (b_mem s), (b_regs s), (b_polls s). split; [by destruct s|]. split; [done|]. intros j Hj. apply Hin. lia.
  - ztest (0x10000 + e_phoff khdr + 32 * k <? 0x10000 + e_phoff khdr + 32 * e_phnum khdr) is true. mrun.
    assert (Hp : proghdr_at (here (b_mem s) (0x10000 + e_phoff khdr + 32 * k)) = kseg k).
    { apply proghdr_ext. intros x Hx. unfold here. rewrite <- Hh by lia. f_equal. lia. }
    rewrite Hp. destruct (kseg_range k) as (Ro & Rf & Rm). pose proof (ko_low Hk k ltac:(lia)) as Hlow. destruct (ko_high Hk k ltac:(lia)) as [Hfm Hhigh].
    destruct (readseg_run (ph_paddr (kseg k)) (ph_filesz (kseg k)) (ph_off (kseg k)) s) as (hi & m1 & r1 & q1 & Hr1 & Hhi & Hm1); try lia. mcall Hr1.
    destruct (boot_segment_step (b_mem s) k r1 q1 m1 hi) as (m2 & Hr2 & Hh2 & Hin2); try done; [lia|]. mcall Hr2.
    rewrite u32_small by lia. replace (0x10000 + e_phoff khdr + 32 * k + 32) with (0x10000 + e_phoff khdr + 32 * (k + 1)) by lia.
    apply (IH (k + 1) (BootSt m2 r1 q1)); (done || lia).
Qed.

Lemma boot_header_run s : (∀ a b x, 0 <= disk a b x < 256) → ∃ m r q, readseg status disk w 0x10000 4096 0 s = Done tt (BootSt m r q) ∧ headers_in m.
Proof using Hready.
  intros Hb. destruct (readseg_run 0x10000 4096 0 s) as (hi & m & r & q & Hr & Hhi & Hm); try lia. exists m, r, q. split; [done|].
  intros x Hx. rewrite Hm. change (0 mod 512) with 0. ztest (0x10000 - 0 <=? 0x10000 + x) is true. ztest (0x10000 + x <? hi) is true. cbn [andb]. f_equal. lia.
Qed.

Lemma headers_elf m : headers_in m → elfhdr_at (here m 0x10000) = khdr.
Proof using. intros Hh. apply elfhdr_ext. intros x Hx. apply Hh. lia. Qed.
End facts.

(** C31 The boot loader loads the kernel: when the file on the disk is an ELF file
    whose segments are in order and apart, bootmain ends at the entry point of the
    kernel with every segment in memory, its bytes from the file and the rest
    zero; a disk that is ready again after some time is waited for. *)
Theorem boot_loads_kernel status disk d s :
  (∀ k, ∃ j, (j <= d)%nat ∧ Z.land (status (k + j)%nat) 0xC0 = 0x40) → kernel_ok disk →
  ∃ s', bootmain status disk (S d) s = Done (Some (e_entry (khdr disk))) s' ∧ ∀ k, 0 <= k < e_phnum (khdr disk) → in_memory disk (b_mem s') k.
Proof.
  intros Hready Hk. unfold bootmain. destruct (boot_header_run status disk d Hready s (ko_bytes _ Hk)) as (m1 & r1 & q1 & Hr1 & Hh1). mcall Hr1. cbn [b_mem].
  rewrite (headers_elf disk m1 Hh1), (ko_magic _ Hk). cbn [negb Z.eqb]. destruct (khdr_range disk Hk) as [R1 R2]. pose proof (ko_headers _ Hk) as Hh4.
  change (ELF_MAGIC =? ELF_MAGIC) with true. cbn [negb]. rewrite (u32_small (0x10000 + _)) by lia. rewrite u32_small by lia.
  destruct (boot_segments_run status disk d Hready Hk (Z.to_nat (e_phnum (khdr disk))) 0 (BootSt m1 r1 q1)) as (m2 & r2 & q2 & Hr2 & Hh2 & Hin); try done; try lia.
  rewrite Z.mul_0_r, Z.add_0_r in Hr2. mcall Hr2. cbn [b_mem]. rewrite (headers_elf disk m2 Hh2). eexists. split; [done|]. done.
Qed.

(** ** Examples *)

(** A kernel of one segment with 300 bytes of the file at 0x100000, followed by
    100 zeros; the bytes of the file are in the list, the others are 7. *)
Definition word (x : Z) : list Z := [x mod 256; x / 256 mod 256; x / 65536 mod 256; x / 16777216 mod 256].
Definition demo_header (segs : list (list Z)) : list Z :=
  word ELF_MAGIC ++ replicate 20 0 ++ word 0x10000C ++ word 52 ++ replicate 12 0 ++ [Z.of_nat (length segs); 0] ++ replicate 6 0 ++ concat ((λ ws, concat (word <$> ws)) <$> segs).
Definition demo_disk (l : list Z) : Z → Z → blk := λ dr sec x, nth (Z.to_nat (512 * (sec - 1) + x)) (if (dr =? 0) && (1 <=? sec) then l else []) 7.
Definition one_segment : list Z := demo_header [[1; 4096; 0x80100000; 0x100000; 300; 400; 5; 4096]].

Lemma demo_disk_byte l a b x : Forall (λ y, 0 <= y < 256) l → 0 <= demo_disk l a b x < 256.
Proof.
  intros Hl. unfold demo_disk. rewrite nth_lookup. destruct (_ !! _) as [y|] eqn:E; cbn; [|lia]. destruct (_ && _) in E; [|done].
  rewrite Forall_lookup in Hl. by apply (Hl _ _ E).
Qed.

Lemma boot_loads_kernel_witness :
  ∃ s', bootmain (λ n, if Nat.even n then 0x80 else 0x40) (demo_disk one_segment) 2 (BootSt (λ _, 0) (λ _, 0) 0) = Done (Some 0x10000C) s' ∧
    in_memory (demo_disk one_segment) (b_mem s') 0.
Proof.
  destruct (boot_loads_kernel (λ n, if Nat.even n then 0x80 else 0x40) (demo_disk one_segment) 1 (BootSt (λ _, 0) (λ _, 0) 0)) as (s' & Hr & Hin).
  - intros k. destruct (Nat.even k) eqn:E.
    + exists 1%nat. split; [lia|]. by rewrite Nat.even_add, E.
    + exists 0%nat. split; [lia|]. by rewrite Nat.add_0_r, E.
  - assert (Hs : ∀ k, 0 <= k < e_phnum (khdr (demo_disk one_segment)) → k = 0) by (intros k; change (e_phnum (khdr (demo_disk one_segment))) with 1; lia).
    split.
    + intros a b x. apply demo_disk_byte. apply (bool_decide_unpack _). vm_compute. exact I.
    + reflexivity.
    + vm_compute. discriminate.
    + intros k Hk. rewrite (Hs k Hk). vm_compute. discriminate.
    + intros k Hk. rewrite (Hs k Hk). vm_compute. split; [discriminate|reflexivity].
    + intros j k Hj Hk. specialize (Hs k). lia.
  - exists s'. split; [exact Hr|]. apply Hin. vm_compute. split; [discriminate|reflexivity].
Defined.

(** Two segments that lie next to each other, the first with zeros at its end:
    the sector that readseg reads for the start of the second also holds the
    bytes of the file before it, and overwrites the zeros. *)
Definition two_segments : list Z := demo_header [[1; 4096; 0x80100000; 0x100000; 16; 64; 5; 4096]; [1; 4160; 0x80100040; 0x100040; 16; 16; 6; 4096]].

Lemma boot_rounding_overwrites :
  let D := demo_disk two_segments in
  ph_filesz (kseg D 0) <= 32 < ph_memsz (kseg D 0) ∧
  match bootmain (λ _, 0x40) D 1 (BootSt (λ _, 0) (λ _, 0) 0) with
  | Done (Some _) s' => b_mem s' (ph_paddr (kseg D 0) + 32)
  | _ => 0
  end = 7.
Proof. split; [vm_compute; split; [discriminate|reflexivity]|vm_compute; reflexivity]. Qed.
