(* ===== verification/ExecPlan.v ===== *)
(** * What exec is to build (exec.c)

    The contract of the files exec reads ([ExecStore]), and the memory image, the
    size, the stack pointer and the entry point that the contents of a program
    file and the arguments ask for ([plan]), without page tables or errors of
    memory. *)

From Stdlib Require Import ZArith Lia.
From stdpp Require Import base numbers list gmap strings.
From S2P Require Import Prelude Mem Mmu Kalloc VmUser VmWrite Fs Proc Sysfile Exec.

(** The byte of a file at an offset. *)
Definition file_at (c : list Z) (i : Z) : Z := default 0 (c !! Z.to_nat i).

(** What a read of [n] bytes returns: a count, or -1 for an offset after the end. *)
Definition read_count (c : list Z) (off n : Z) : Z :=
  let len := Z.of_nat (length c) in
  if (len <? off) || (u32 (off + n) <? off) then -1 else Z.min n (len - off).

Definition read_into (c : list Z) (m : mem) (dst off n : Z) : mem :=
  put m dst (λ i, file_at c (off + i)) (read_count c off n).

(** The contract of the operations exec calls.  [est_file] is the contents of the
    file a path names; [est_op] holds inside a transaction, [est_ref] with a
    reference to a file in addition, [est_locked] with the file locked. *)
Class ExecStore (F : Type) `{!ExecOps F} : Type := {
  est_file : F → option nat → list Z → option (list Z);
  est_idle : F → Prop;
  est_op : F → Prop;
  est_ref : nat → list Z → F → Prop;
  est_locked : nat → list Z → F → Prop;
  est_begin f : est_idle f → ∃ f', eo_begin_op f = Done tt f' ∧ est_op f' ∧
    ∀ cwd p, est_file f' cwd p = est_file f cwd p;
  est_namei f cwd p : est_op f → ∃ f',
    match est_file f cwd p with
    | None => eo_namei cwd p f = Done None f' ∧ est_op f'
    | Some c => ∃ ip, eo_namei cwd p f = Done (Some ip) f' ∧ est_ref ip c f'
    end;
  est_ilock f ip c : est_ref ip c f → ∃ f', eo_ilock ip f = Done tt f' ∧ est_locked ip c f';
  est_bytes f ip c : est_locked ip c f →
    Forall (λ b, 0 <= b < 256) c ∧ Z.of_nat (length c) < 4294967296;
  est_readi f ip c m dst off n : est_locked ip c f → 0 <= off < 4294967296 → 0 <= n < 4294967296 →
    ∃ f', eo_readi ip m dst off n f = Done (read_count c off n, read_into c m dst off n) f' ∧
      est_locked ip c f';
  est_iunlockput f ip c : est_locked ip c f → ∃ f', eo_iunlockput ip f = Done tt f' ∧ est_op f';
  est_end f : est_op f → ∃ f', eo_end_op f = Done tt f' ∧ est_idle f'
}.

(** ** The image *)

(** A program header at an offset of the file. *)
Definition proghdr_of (c : list Z) (off : Z) : proghdr := proghdr_at (λ x, file_at c (off + x)).
Definition elfhdr_of (c : list Z) : elfhdr := elfhdr_at (file_at c).

(** A segment of a program that has size [sz] and contents [img] so far. *)
Definition plan_segment (c : list Z) (ph : proghdr) (sz : Z) (img : Z → Z) : option (Z * (Z → Z)) :=
  let top := ph_vaddr ph + ph_memsz ph in
  if (ph_memsz ph <? ph_filesz ph) || (KERNBASE <=? top) || (Z.max sz top =? 0)
     || negb (ph_vaddr ph mod 4096 =? 0)
     || (0 <? ph_filesz ph) && (Z.of_nat (length c) <? ph_off ph + ph_filesz ph) then None
  else Some (Z.max sz top, put img (ph_vaddr ph) (λ i, file_at c (ph_off ph + i)) (ph_filesz ph)).

(** The segments of the [n] headers from [off] on. *)
Fixpoint plan_segments (c : list Z) (n : nat) (off sz : Z) (img : Z → Z) : option (Z * (Z → Z)) :=
  match n with
  | O => Some (sz, img)
  | S n' =>
      if Z.of_nat (length c) <? off + 32 then None
      else
        let ph := proghdr_of c off in
        if negb (ph_type ph =? ELF_PROG_LOAD) then plan_segments c n' (off + 32) sz img
        else
          r ← plan_segment c ph sz img;
          plan_segments c n' (off + 32) r.1 r.2
  end.

(** A string with its NUL. *)
Definition str_byte (w : list Z) (i : Z) : Z := default 0 (w !! Z.to_nat i).

(** The argument strings, each at a multiple of 4 below the one before, in the
    stack page that starts at [base]. *)
Fixpoint plan_args (base : Z) (args : list (list Z)) (sp : Z) (img : Z → Z) : option (list Z * Z * (Z → Z)) :=
  match args with
  | [] => Some ([], sp, img)
  | w :: args' =>
      let n := Z.of_nat (length w) + 1 in
      let a := (sp - n) / 4 * 4 in
      if a <? base then None
      else
        r ← plan_args base args' a (put img a (str_byte w) n);
        let '(ptrs, sp', img') := r in Some (a :: ptrs, sp', img')
  end.

(** Words in memory. *)
Definition word_byte (ws : list Z) (i : Z) : Z :=
  (default 0 (ws !! Z.to_nat (i / 4)) / 256 ^ (i mod 4)) mod 256.

Record image : Type := Image {
  im_size : Z;
  im_entry : Z;
  im_sp : Z;
  im_mem : Z → Z
}.

(** What the stack holds at the entry of main: a return address, argc, argv and
    the array of pointers. *)
Definition main_frame (sp : Z) (ptrs : list Z) : list Z :=
  0xFFFFFFFF :: Z.of_nat (length ptrs) :: (sp + 12) :: ptrs ++ [0].

Definition plan_frame (c : list Z) (top sp : Z) (ptrs : list Z) (img : Z → Z) : option image :=
  let n := 4 * (4 + Z.of_nat (length ptrs)) in
  if sp - n <? top - 4096 then None
  else Some (Image top (e_entry (elfhdr_of c)) (sp - n)
                   (put img (sp - n) (word_byte (main_frame (sp - n) ptrs)) n)).

Definition plan_stack (c : list Z) (args : list (list Z)) (sz : Z) (img : Z → Z) : option image :=
  let top := 4096 * npg sz + 8192 in
  if (KERNBASE <=? top) || (Z.of_nat MAXARG <? Z.of_nat (length args)) then None
  else
    r ← plan_args (top - 4096) args top img;
    let '(ptrs, sp, img) := r in
    plan_frame c top sp ptrs img.

Definition plan (c : list Z) (args : list (list Z)) : option image :=
  if (Z.of_nat (length c) <? 52) || negb (e_magic (elfhdr_of c) =? ELF_MAGIC) then None
  else
    r ← plan_segments c (Z.to_nat (e_phnum (elfhdr_of c))) (e_phoff (elfhdr_of c)) 0 (λ _, 0);
    plan_stack c args r.1 r.2.

Lemma plan_stack_Some c args sz img im :
  let top := 4096 * npg sz + 8192 in
  plan_stack c args sz img = Some im ↔
  ∃ ptrs sp img', top < KERNBASE ∧ (length args <= 32)%nat ∧
    plan_args (top - 4096) args top img = Some (ptrs, sp, img') ∧
    let n := 4 * (4 + Z.of_nat (length ptrs)) in
    top - 4096 <= sp - n ∧
    im = Image top (e_entry (elfhdr_of c)) (sp - n) (put img' (sp - n) (word_byte (main_frame (sp - n) ptrs)) n).
Proof.
  intros top. unfold plan_stack, plan_frame, MAXARG. fold top. split.
  - match goal with |- context [if ?b then _ else _] => destruct b eqn:E; [done|] end.
    intros ([[ptrs sp] img'] & Hp & Hi)%bind_Some.
    destruct (Z.ltb_spec (sp - 4 * (4 + Z.of_nat (length ptrs))) (top - 4096)); [done|].
    injection Hi as <-. exists ptrs, sp, img'. cbn zeta. change (Z.of_nat 32) with 32 in E. split_and!; done || lia.
  - intros (ptrs & sp & img' & Ht & Ha & Hp & Hn & ->).
    change (Z.of_nat 32) with 32. replace ((KERNBASE <=? top) || _) with false by lia. rewrite Hp. cbn [mbind option_bind].
    by rewrite (proj2 (Z.ltb_ge _ _) Hn).
Qed.

Lemma plan_bad c args :
  Z.of_nat (length c) < 52 ∨ e_magic (elfhdr_of c) ≠ ELF_MAGIC → plan c args = None.
Proof.
  intros H. unfold plan. match goal with |- context [if ?b then _ else _] => destruct b eqn:E; [done|] end. lia.
Qed.

Lemma plan_good c args :
  52 <= Z.of_nat (length c) → e_magic (elfhdr_of c) = ELF_MAGIC →
  plan c args = r ← plan_segments c (Z.to_nat (e_phnum (elfhdr_of c))) (e_phoff (elfhdr_of c)) 0 (λ _, 0); plan_stack c args r.1 r.2.
Proof.
  intros Hl Hm. unfold plan. match goal with |- context [if ?b then _ else _] => destruct b eqn:E; [lia|done] end.
Qed.
