(* ===== verification/ExecFacts.v ===== *)
(** * Building a program (exec.c)

    [built] is the address space exec fills, beside the one the process still
    runs in: everything that was no free page when exec began is as it was, the
    local array of exec apart.  Each phase of exec keeps it and brings the pages
    closer to the [plan]. *)

From Stdlib Require Import ZArith Lia.
From stdpp Require Import base numbers list gmap strings.
From S2P Require Import Prelude Mem Str Mmu Kalloc Vm VmFacts VmUser VmSpace VmCopy VmWrite Fs Proc ProcClaims Sysfile Exec ExecPlan.

(** Addresses of no free page. *)
Definition clear (l : list Z) (x : Z) : Prop := ∀ q, q ∈ l → ¬ in_page q x.

(** Exactly the pages of the first [sz] bytes are mapped, for the user. *)
Definition full (d : Z → option (Z * Z)) (sz : Z) : Prop :=
  (∀ q, 0 <= q < npg sz → ∃ u, d q = Some (u, 7)) ∧ ∀ q, ¬ (0 <= q < npg sz) → d q = None.

Lemma full_length d sz : 0 <= sz <= KERNBASE → (∀ q, npg sz <= q → d q = None) → Z.of_nat (length (dpages d)) <= npg sz.
Proof.
  intros Hsz Hn. assert (0 <= npg sz <= user_pages) by (unfold npg, user_pages, KERNBASE in *; zlia).
  apply dpages_length; [lia|]. intros q Hq. apply Hn. lia.
Qed.

Lemma npg_mono a b : a <= b → npg a <= npg b.
Proof. unfold npg. zlia. Qed.

Section build.
Context (kend : Z) (kend_pos : KERNBASE < kend).
Context (kdata : Z) (kdata_ok : kdata mod 4096 = 0 ∧ KERNLINK < kdata ∧ kdata <= kend)
        (kend_top : kend < KERNBASE + PHYSTOP).
(** The bytes of the local array [ustack]. *)
Context (ustack : Z).
Definition scratch (x : Z) : Prop := ustack <= x < ustack + 144.

(** [m0] and [l0] are the machine and its free pages when exec began. *)
Record built (m0 : machine) (l0 : list Z) (m : machine) (c : Z) (t : Z → option Z)
    (d : Z → option (Z * Z)) (l : list Z) : Prop := {
  bu_inv : uvm_inv kend m c t d l;
  bu_kern : ∀ va, KERNBASE <= va < 4294967296 → pte_of (ram m) t va = kvm_pte kdata va;
  bu_pages : c :: tables t ++ dpages d ++ l ≡ₚ l0;
  bu_out : ∀ x, clear l0 x → uoutside c t d l x ∧ (¬ scratch x → ram m x = ram m0 x);
  bu_misc : kpgdir m = kpgdir m0 ∧ cr3 m = cr3 m0
}.

Lemma built_step m0 l0 m c t d l m' t' d' l' :
  built m0 l0 m c t d l → space_step kend c m t d l m' t' d' l' → built m0 l0 m' c t' d' l'.
Proof.
  intros [I K P O [M N]] [I' P' K' O' [M' N']]. split.
  - done.
  - intros va Hva. kconst. rewrite K' by lia. by apply K.
  - by rewrite P', P.
  - intros x Hx. destruct (O x Hx) as [Ho E]. destruct (O' x Ho) as [Ho' E']. split; [done|].
    intros Hs. rewrite E'. by apply E.
  - split; congruence.
Qed.

(** A store into the local array. *)
Lemma built_local m0 l0 m c t d l a v :
  built m0 l0 m c t d l → (∀ x, scratch x → clear l0 x) → ustack <= a → a + 4 <= ustack + 144 →
  built m0 l0 (set_ram (store32 (ram m) a v) m) c t d l ∧
  ∀ va, uread (store32 (ram m) a v) d va = uread (ram m) d va.
Proof.
  intros [I K P O M] Hs Ha Hb.
  assert (Hx : ∀ x, ¬ scratch x → store32 (ram m) a v x = ram m x)
    by (intros x Hx; apply store32_out; unfold scratch in Hx; lia).
  destruct (outside_write kend m c t d l (store32 (ram m) a v) I) as (I' & Hp & Hu).
  { apply mem_ok_store32. apply (ki_mem _ _ _ (pi_alloc _ _ _ _ _ (ui_pt _ _ _ _ _ _ I))). }
  { intros x Hno. apply Hx. intros Hsc. by apply Hno, O, Hs. }
  split; [|done]. split; try done.
  - intros va Hva. cbn [ram set_ram]. rewrite Hp. by apply K.
  - intros x Hc. destruct (O x Hc) as [Ho E]. split; [done|]. intros Hns. cbn. rewrite Hx by done. by apply E.
Qed.

(** The address space is thrown away: the free pages are those of before. *)
Lemma built_freed m0 l0 m c t d l :
  built m0 l0 m c t d l →
  ∃ m' l', freevm kend c m = Done tt m' ∧ kalloc_inv kend m' l' ∧ l' ≡ₚ l0 ∧
    (∀ x, clear l0 x → ¬ scratch x → ram m' x = ram m0 x) ∧ kpgdir m' = kpgdir m0 ∧ cr3 m' = cr3 m0.
Proof using kend_pos.
  intros [I K P O [M N]].
  destruct (freevm_spec kend kend_pos m c t d l I) as (m' & l' & Hr & Ha & Hl & Hk & Hc & _ & Hx).
  exists m', l'. split_and!; try done; try congruence.
  - by rewrite Hl, P.
  - intros x Hcx Hs. destruct (O x Hcx) as [Ho E]. rewrite Hx by done. by apply E.
Qed.

(** The first page tables. *)
Lemma setupkvm_built m0 l0 :
  kalloc_inv kend m0 l0 →
  (∃ m l, setupkvm kend kdata m0 = Done 0 m ∧ kalloc_inv kend m l ∧ l ≡ₚ l0 ∧
     (∀ x, clear l0 x → ram m x = ram m0 x) ∧ kpgdir m = kpgdir m0 ∧ cr3 m = cr3 m0 ∧ (length l0 <= 1025)%nat) ∨
  (∃ c m t l, setupkvm kend kdata m0 = Done c m ∧ c ≠ 0 ∧ built m0 l0 m c t (λ _, None) l).
Proof using kend_pos kdata_ok kend_top.
  intros Ha. destruct (setupkvm_spec kend kend_pos kdata kdata_ok kend_top m0 l0 Ha)
    as [(m & l & Hr & Hi & Hl & Hx & Hk & Hc & _ & Hlen)|(c & m & t & l & Hr & Hc0 & Hi & Hk & Hl & Hx & Hkp & Hc & _)].
  - left. exists m, l. by split_and!.
  - right. exists c, m, t, l. split_and!; [done..|]. split.
    + done.
    + intros va Hva. apply Hk. kconst. lia.
    + by rewrite dpages_none.
    + intros x Hcx. destruct (Hx x Hcx). split; [done|]. by intros _.
    + done.
Qed.

(** Growing the address space. *)
Lemma built_grow m0 l0 m c t d l sz new :
  built m0 l0 m c t d l → full d sz → 0 <= sz <= KERNBASE → 0 <= new →
  ∃ r m' t' d' l', allocuvm kend c sz new m = Done r m' ∧ built m0 l0 m' c t' d' l' ∧
    (new < KERNBASE ∧ r = Z.max sz new ∧ full d' r ∧ (∀ va, uread (ram m') d' va = uread (ram m) d va) ∨
     r = 0 ∧ (KERNBASE <= new ∨ Z.of_nat (length l0) <= 1026 + npg new)).
Proof using kend_pos.
  intros Hb [Hf1 Hf2] Hsz Hnew.
  destruct (allocuvm_spec kend kend_pos m c t d l sz new (bu_inv _ _ _ _ _ _ _ Hb))
    as (r & m' & t' & d' & l' & Hr & Hst & Hres); [lia|done| |].
  { intros q Hq. apply Hf2. lia. }
  pose proof (uvm_space_step _ _ _ _ _ _ _ _ _ _ Hst) as Hsp.
  exists r, m', t', d', l'. split_and!; [done|by eapply built_step|].
  destruct Hres as [(-> & Hn & Hnew' & Hold)|[(-> & Hd & Hsh)|(-> & Hlt & -> & -> & -> & ->)]].
  - left. assert (0 <= npg sz <= npg new) by (unfold npg; zlia).
    replace (Z.max sz new) with new by lia. split_and!; [lia|done| |].
    + split; intros q Hq.
      * destruct (decide (npg sz <= q)) as [Hq'|Hq']; [destruct (Hnew' q) as (u & Hu & _); [lia|by exists u]|].
        rewrite Hold by lia. apply Hf1. lia.
      * rewrite Hold by lia. apply Hf2. lia.
    + intros va. unfold uread. destruct (decide (npg sz <= va / 4096 < npg new)) as [Hq|Hq].
      * rewrite (Hf2 (va / 4096)) by lia. destruct (Hnew' _ Hq) as (u & -> & Hz). apply Hz. unfold in_page. zlia.
      * rewrite (Hold _ Hq). destruct (d (va / 4096)) as [[u f]|] eqn:E; [|done].
        eapply (us_user _ _ _ _ _ _ _ _ _ _ Hst); [done|by rewrite Hold|]. unfold in_page. zlia.
  - right. split; [done|]. destruct Hsh as [?|Hsh]; [by left|right].
    pose proof (Permutation_length (bu_pages _ _ _ _ _ _ _ Hb)) as Hlen. cbn [length] in Hlen. rewrite !length_app in Hlen.
    assert (Z.of_nat (length (dpages d)) <= npg sz) by (apply full_length; [lia|intros q Hq; apply Hf2; lia]).
    unfold short in Hsh. lia.
  - left. kconst. split_and!; [lia|lia| |done]. by replace (Z.max sz new) with sz by lia.
Qed.
End build.

(** ** The segments *)

Section load.
Context {F : Type} `{!ExecOps F} `{!ExecStore F}.
Context (kend : Z) (kend_pos : KERNBASE < kend).
Implicit Types s : kstate F.

(** The parts of the kernel that loading a program leaves alone. *)
Definition others s := (k_cpu s, cproc s, esp0 s, pt_lock s, procs s, nextpid s, initproc s, first s).

Lemma others_m m s : others (set_k_m m s) = others s.
Proof. done. Qed.

Lemma others_fs f s : others (set_k_fs f s) = others s.
Proof. done. Qed.

Lemma file_at_range c i : Forall (λ b, 0 <= b < 256) c → 0 <= file_at c i < 256.
Proof.
  intros Hc. unfold file_at. destruct (c !! Z.to_nat i) as [b|] eqn:E; cbn; [|lia].
  by eapply Forall_lookup_1 in Hc.
Qed.

(** A read that returns all it was asked for. *)
Lemma read_count_all c off n :
  0 <= off → 0 < n < 4294967296 → Z.of_nat (length c) < 4294967296 →
  read_count c off n = n ↔ off + n <= Z.of_nat (length c).
Proof.
  intros Ho Hn Hc. unfold read_count. destruct (decide (off + n < 4294967296)) as [Hs|Hs].
  - rewrite (u32_small (off + n)) by lia. case_if; lia.
  - case_if; lia.
Qed.

Lemma read_count_le c off n : 0 <= n → 0 <= off → read_count c off n <= n.
Proof. intros. unfold read_count. case_if; lia. Qed.

Lemma mem_ok_read_into c m dst off n : Forall (λ b, 0 <= b < 256) c → mem_ok m → mem_ok (read_into c m dst off n).
Proof. intros Hc Hm x. unfold read_into, put. case_if; [by apply file_at_range|apply Hm..]. Qed.

Lemma read_local_run ip c off n s :
  est_locked ip c (k_fs s) → 0 <= off < 4294967296 → 0 <= n < 4294967296 →
  ∃ f', read_local ip off n s = Done (read_count c off n, read_into c (λ _, 0) 0 off n) (set_k_fs f' s) ∧
    est_locked ip c f'.
Proof.
  intros Hl Ho Hn. destruct (est_readi (k_fs s) ip c (λ _, 0) 0 off n Hl Ho Hn) as (f' & Hr & Hl').
  exists f'. split; [|done]. unfold read_local. by apply on_fs_run.
Qed.

Lemma read_page_run ip c dst off n s :
  est_locked ip c (k_fs s) → 0 <= off < 4294967296 → 0 <= n < 4294967296 →
  ∃ f', read_page ip dst off n s =
    Done (read_count c off n) (set_k_m (set_ram (read_into c (ram (k_m s)) dst off n) (k_m s)) (set_k_fs f' s)) ∧
    est_locked ip c f'.
Proof.
  intros Hl Ho Hn. destruct (est_readi (k_fs s) ip c (ram (k_m s)) dst off n Hl Ho Hn) as (f' & Hr & Hl').
  exists f'. split; [|done]. unfold read_page. mrun. by mcall (on_fs_run _ s _ _ Hr).
Qed.

Lemma lift_m_same {A} (m : M machine A) s a : m (k_m s) = Done a (k_m s) → lift k_m set_k_m m s = Done a s.
Proof. unfold lift. intros ->. by destruct s. Qed.

(** The loop of [loaduvm] over mapped pages. *)
Lemma loaduvm_loop_run ip c fuel : ∀ s pgdir t d l addr off sz i,
  uvm_inv kend (k_m s) pgdir t d l → est_locked ip c (k_fs s) →
  addr mod 4096 = 0 → i mod 4096 = 0 → 0 <= addr → 0 <= i → 0 <= sz → addr + sz <= 2147483648 →
  0 <= off < 4294967296 → (i < sz → off + i < 4294967296) → npg sz - i / 4096 <= Z.of_nat fuel →
  (∀ q, addr / 4096 <= q < npg (addr + sz) → is_Some (d q)) →
  ∃ r s', loaduvm_loop k_m set_k_m fuel (read_page ip) pgdir addr off sz i s = Done r s' ∧
    others s' = others s ∧ est_locked ip c (k_fs s') ∧
    space_step kend pgdir (k_m s) t d l (k_m s') t d l ∧
    (r = 0 ∧ (i < sz → off + sz <= Z.of_nat (length c)) ∧
       (∀ va, uread (ram (k_m s')) d va =
          put (uread (ram (k_m s)) d) (addr + i) (λ j, file_at c (off + i + j)) (sz - i) va) ∨
     r = -1 ∧ i < sz ∧ Z.of_nat (length c) < off + sz).
Proof using kend_pos.
  induction fuel as [|fuel IH]; intros s pgdir t d l addr off sz i Hinv Hlk Ha Hi Ha0 Hi0 Hs0 Htop Hoff Hoi Hf Hmap;
    (destruct (decide (i < sz)) as [Hlt|Hge]; [|
      exists 0, s; split_and!; [cbn [loaduvm_loop]; by ztest (i <? sz) is false|done|done|by apply space_step_refl|];
      left; split_and!; [done|lia|]; intros va; by rewrite put_out by lia]).
  { unfold npg in Hf. zlia. }
  assert (∃ q, addr + i = 4096 * q) as [q Hqa] by (exists ((addr + i) / 4096); zlia).
  destruct (Hmap q) as [[u f] Hq]; [unfold npg; zlia|].
  destruct (user_walk kend kend_pos _ _ _ _ _ _ _ _ Hinv Hq) as (tb & _ & _ & Ht0 & Hw & Hld).
  destruct (ui_some _ _ _ _ _ _ Hinv _ _ _ Hq) as (_ & Hfl & Hpf & _).
  destruct (ui_own _ _ _ _ _ _ Hinv _ _ _ Hq) as (Hvu & _).
  destruct (user_entry kend kend_pos u f Hvu Hfl Hpf) as (_ & Haddr & _ & _ & Hback & _ & _).
  cbn [loaduvm_loop]. ztest (i <? sz) is true. rewrite (u32_small (addr + i)), Hqa by lia.
  mcall (lift_m_same _ s _ Hw). ztest (tb + 4 * PTX (4096 * q) =? 0) is false.
  mcall (lift_m_same (ld32 (tb + 4 * PTX (4096 * q))) s _ eq_refl).
  rewrite Hld, Haddr, Hback, (u32_small (sz - i)), (u32_small (off + i)) by lia.
  set (n := if sz - i <? PGSIZE then sz - i else PGSIZE).
  assert (Hn : 0 < n <= 4096 ∧ n <= sz - i ∧ (n = sz - i ∨ n = 4096)) by (unfold n, PGSIZE; case_if; lia).
  destruct (est_bytes _ _ _ Hlk) as [Hby Hlen].
  destruct (read_page_run ip c u (off + i) n s Hlk) as (f' & Hrd & Hlk'); [lia..|]. mcall Hrd.
  set (m1 := set_ram _ (k_m s)). set (s1 := set_k_m m1 (set_k_fs f' s)).
  pose proof (read_count_le c (off + i) n ltac:(lia) ltac:(lia)) as Hle.
  assert (Hst : space_step kend pgdir (k_m s) t d l m1 t d l).
  { apply space_write; [done| |].
    - apply mem_ok_read_into; [done|]. apply (ki_mem _ _ _ (pi_alloc _ _ _ _ _ (ui_pt _ _ _ _ _ _ Hinv))).
    - intros x Hx. apply put_out. specialize (Hx _ _ _ Hq). unfold in_page in Hx. lia. }
  pose proof (read_count_all c (off + i) n ltac:(lia) ltac:(lia) Hlen) as Hall.
  destruct (decide (read_count c (off + i) n = n)) as [E|Hne]; cycle 1.
  { ztest (read_count c (off + i) n =? n) is false. cbn [negb]. exists (-1), s1. split_and!; [done..|].
    right. split_and!; [done..|]. apply not_iff_compat in Hall. lia. }
  ztest (read_count c (off + i) n =? n) is true. cbn [negb]. unfold PGSIZE. rewrite (u32_small (i + 4096)) by lia.
  assert (Hin : off + i + n <= Z.of_nat (length c)) by (by apply Hall).
  destruct (IH s1 pgdir t d l addr off sz (i + 4096))
    as (r & s' & Hr & Hoth & Hlk2 & Hst2 & Hres); try done || lia; [apply Hst|zlia|zlia|].
  exists r, s'. split_and!; [done..|by eapply space_step_trans|].
  destruct Hres as [(-> & Hend & Hread)|(-> & ? & ?)]; [left|right; split_and!; done || lia].
  split_and!; [done| |].
  - intros _. destruct (decide (i + 4096 < sz)); [by apply Hend|lia].
  - intros va. rewrite Hread. unfold put at 1. rewrite (uread_put kend (k_m s) pgdir t d l q u f 0 n _ (λ j, file_at c (off + i + j))); try done || lia.
    + rewrite Z.add_0_r, <- Hqa. unfold put. repeat case_if; try lia; try done. f_equal. lia.
    + intros j Hj. cbn. unfold read_into. rewrite put_in by lia. f_equal. lia.
    + intros x Hx. cbn. unfold read_into. apply put_out. lia.
Qed.

Lemma read_into_at c m off n x :
  read_count c off n = n → 0 <= x < n → read_into c m 0 off n x = file_at c (off + x).
Proof. intros E Hx. unfold read_into. rewrite E, put_in by lia. f_equal. lia. Qed.

Lemma proghdr_read c off : read_count c off 32 = 32 → proghdr_at (read_into c (λ _, 0) 0 off 32) = proghdr_of c off.
Proof. intros E. unfold proghdr_of, proghdr_at, load32. rewrite !(read_into_at c _ off 32) by (done || lia). done. Qed.

Lemma elfhdr_read c : read_count c 0 52 = 52 → elfhdr_at (read_into c (λ _, 0) 0 0 52) = elfhdr_of c.
Proof.
  intros E. unfold elfhdr_of, elfhdr_at, load32, load16, bytes_at. rewrite !(read_into_at c _ 0 52) by (done || lia).
  cbn [Z.add]. f_equal. apply map_ext_in. intros i Hi. apply in_seq in Hi. rewrite (read_into_at c _ 0 52) by (done || lia). f_equal.
Qed.

Lemma proghdr_range c off :
  Forall (λ b, 0 <= b < 256) c →
  0 <= ph_off (proghdr_of c off) < 4294967296 ∧ 0 <= ph_vaddr (proghdr_of c off) < 4294967296 ∧
  0 <= ph_filesz (proghdr_of c off) < 4294967296 ∧ 0 <= ph_memsz (proghdr_of c off) < 4294967296.
Proof.
  intros Hc. assert (mem_ok (λ x, file_at c (off + x))) by (intros x; by apply file_at_range).
  cbn. split_and!; by apply load32_range.
Qed.

Lemma plan_segment_Some c ph sz img sz' img' :
  plan_segment c ph sz img = Some (sz', img') ↔
  (ph_filesz ph <= ph_memsz ph ∧ ph_vaddr ph + ph_memsz ph < KERNBASE ∧ sz' ≠ 0 ∧ ph_vaddr ph mod 4096 = 0 ∧
   (0 < ph_filesz ph → ph_off ph + ph_filesz ph <= Z.of_nat (length c))) ∧
  sz' = Z.max sz (ph_vaddr ph + ph_memsz ph) ∧
  img' = put img (ph_vaddr ph) (λ i, file_at c (ph_off ph + i)) (ph_filesz ph).
Proof.
  unfold plan_segment. match goal with |- context [if ?b then _ else _] => destruct b eqn:Hc end.
  - split; [done|]. intros ((H1 & H2 & H3 & H4 & H5) & -> & _).
    destruct (decide (0 < ph_filesz ph)) as [Hp|Hp]; [specialize (H5 Hp)|]; lia.
  - split; [intros [= <- <-]|by intros (_ & -> & ->)]. split_and!; try done || lia.
Qed.

Lemma plan_segments_mono c n : ∀ off sz img sz' img',
  plan_segments c n off sz img = Some (sz', img') → sz <= sz'.
Proof.
  induction n as [|n IH]; intros off sz img sz' img' H; cbn [plan_segments] in H; [simplify_eq; lia|].
  repeat case_match; try done; [by eapply IH|]. apply bind_Some in H as ([sz1 img1] & Hs & H).
  apply plan_segment_Some in Hs as (_ & -> & _). apply IH in H. cbn in H. lia.
Qed.

Context (kdata ustack : Z).

Lemma load_segment_run ip c ph s m0 l0 pgdir t d l sz img :
  built kend kdata ustack m0 l0 (k_m s) pgdir t d l → full d sz → (∀ va, uread (ram (k_m s)) d va = img va) →
  est_locked ip c (k_fs s) → 0 <= sz < KERNBASE →
  0 <= ph_off ph < 4294967296 → 0 <= ph_vaddr ph < 4294967296 →
  0 <= ph_filesz ph < 4294967296 → 0 <= ph_memsz ph < 4294967296 →
  ∃ r s' t' d' l', load_segment kend ip pgdir ph sz s = Done r s' ∧ others s' = others s ∧
    est_locked ip c (k_fs s') ∧ built kend kdata ustack m0 l0 (k_m s') pgdir t' d' l' ∧
    match r with
    | Some sz' => ∃ img', plan_segment c ph sz img = Some (sz', img') ∧ 0 <= sz' < KERNBASE ∧ full d' sz' ∧
        ∀ va, uread (ram (k_m s')) d' va = img' va
    | None => ∀ sz' img', plan_segment c ph sz img = Some (sz', img') → Z.of_nat (length l0) <= 1026 + npg sz'
    end.
Proof using kend_pos.
  intros Hb Hfull Himg Hlk Hsz Hpo Hpv Hpf Hpm. unfold load_segment.
  set (top := ph_vaddr ph + ph_memsz ph).
  destruct (Z.ltb_spec (ph_memsz ph) (ph_filesz ph)) as [?|Hmf].
  { exists None, s, t, d, l. split_and!; [done..|]. intros sz' img' ((? & _) & _)%plan_segment_Some. lia. }
  destruct (Z.ltb_spec (u32 top) (ph_vaddr ph)) as [Hov|Hov].
  { exists None, s, t, d, l. split_and!; [done..|]. intros sz' img' ((_ & Ht & _) & _)%plan_segment_Some.
    fold top in Ht. kconst. rewrite u32_small in Hov; lia. }
  assert (Ht32 : top < 4294967296) by (unfold top, u32 in *; zlia). rewrite u32_small by lia.
  destruct (built_grow kend kend_pos kdata ustack m0 l0 (k_m s) pgdir t d l sz top Hb Hfull)
    as (r & m1 & t1 & d1 & l1 & Hr & Hb1 & Hres); [lia..|].
  mcall (on_m_run _ s _ _ Hr). destruct (Z.eqb_spec r 0) as [->|Hr0].
  { eexists None, _, t1, d1, l1. split_and!; [done..|]. intros sz' img' ((_ & Ht & Hz & _) & -> & _)%plan_segment_Some.
    fold top in Ht, Hz |- *. destruct Hres as [(_ & ? & _)|(_ & [?|?])]; [lia..|].
    pose proof (npg_mono top (Z.max sz top) ltac:(lia)). lia. }
  destruct Hres as [(Htk & -> & Hf1 & Hu1)|(-> & _)]; [|done].
  destruct (Z.eqb_spec (ph_vaddr ph mod PGSIZE) 0) as [Hal|Hal]; cbn [negb]; cycle 1.
  { eexists None, _, t1, d1, l1. split_and!; [done..|]. by intros sz' img' ((_ & _ & _ & ? & _) & _)%plan_segment_Some. }
  destruct (loaduvm_loop_run ip c npages (set_k_m m1 s) pgdir t1 d1 l1 (ph_vaddr ph) (ph_off ph) (ph_filesz ph) 0)
    as (r & s' & Hrun & Hoth & Hlk' & Hst & Hcase); try done || lia.
  { apply Hb1. }
  { unfold top in *. kconst. lia. }
  { pose proof (npg_fuel (ph_filesz ph)). unfold top in *. kconst. change (0 / 4096) with 0. lia. }
  { intros q Hq. destruct Hf1 as [Hf1 _]. destruct (Hf1 q) as [u Hu]; [|by eexists].
    pose proof (npg_mono (ph_vaddr ph + ph_filesz ph) (Z.max sz top) ltac:(unfold top; lia)). zlia. }
  unfold loaduvm. unfold PGSIZE in *. rewrite Hal. cbn [Z.eqb negb]. mcall Hrun.
  assert (Hb' : built kend kdata ustack m0 l0 (k_m s') pgdir t1 d1 l1) by (by eapply built_step).
  destruct Hcase as [(-> & Hend & Hread)|(-> & Hpos & Hshort)]; cbn [Z.ltb Z.compare].
  - exists (Some (Z.max sz top)), s', t1, d1, l1. split_and!; [done..|].
    eexists. split; [by apply plan_segment_Some|]. split; [lia|]. split; [done|].
    intros va. rewrite Hread, Z.add_0_r, Z.sub_0_r. unfold put. rewrite Z.add_0_r. cbn [k_m set_k_m]. by rewrite Hu1, Himg.
  - exists None, s', t1, d1, l1. split_and!; [done..|]. intros sz' img' ((_ & _ & _ & _ & Hl) & _)%plan_segment_Some. specialize (Hl Hpos). lia.
Qed.

Lemma load_segments_run ip c n : ∀ s m0 l0 pgdir t d l off sz img,
  built kend kdata ustack m0 l0 (k_m s) pgdir t d l → full d sz → (∀ va, uread (ram (k_m s)) d va = img va) →
  est_locked ip c (k_fs s) → 0 <= sz < KERNBASE → 0 <= off < 4294967296 →
  ∃ r s' t' d' l', load_segments kend ip pgdir n off sz s = Done r s' ∧ others s' = others s ∧
    est_locked ip c (k_fs s') ∧ built kend kdata ustack m0 l0 (k_m s') pgdir t' d' l' ∧
    match r with
    | Some sz' => ∃ img', plan_segments c n off sz img = Some (sz', img') ∧ 0 <= sz' < KERNBASE ∧ full d' sz' ∧
        ∀ va, uread (ram (k_m s')) d' va = img' va
    | None => ∀ sz' img', plan_segments c n off sz img = Some (sz', img') → Z.of_nat (length l0) <= 1026 + npg sz'
    end.
Proof using kend_pos.
  induction n as [|n IH]; intros s m0 l0 pgdir t d l off sz img Hb Hfull Himg Hlk Hsz Hoff.
  { exists (Some sz), s, t, d, l. split_and!; [done..|]. by exists img. }
  destruct (est_bytes _ _ _ Hlk) as [Hby Hlen].
  destruct (read_local_run ip c off 32 s Hlk) as (f1 & Hrd & Hlk1); [lia..|].
  pose proof (read_count_all c off 32 ltac:(lia) ltac:(lia) Hlen) as Hall.
  cbn [load_segments plan_segments]. mcall Hrd. cbn [fst snd].
  destruct (decide (read_count c off 32 = 32)) as [E|Hne]; cycle 1.
  { ztest (read_count c off 32 =? 32) is false. cbn [negb].
    exists None, (set_k_fs f1 s), t, d, l. split_and!; [done..|]. apply not_iff_compat in Hall.
    ztest (Z.of_nat (length c) <? off + 32) is true. done. }
  rewrite E, (proghdr_read c off E). cbn [Z.eqb Pos.eqb negb].
  assert (Hin : off + 32 <= Z.of_nat (length c)) by (by apply Hall).
  ztest (Z.of_nat (length c) <? off + 32) is false. rewrite (u32_small (off + 32)) by lia.
  destruct (proghdr_range c off Hby) as (Hpo & Hpv & Hpf & Hpm). set (ph := proghdr_of c off) in *.
  set (s1 := set_k_fs f1 s).
  destruct (Z.eqb_spec (ph_type ph) ELF_PROG_LOAD) as [_|_]; cbn [negb]; cycle 1.
  { destruct (IH s1 m0 l0 pgdir t d l (off + 32) sz img) as (r & s' & t' & d' & l' & H); try done || lia.
    by exists r, s', t', d', l'. }
  destruct (load_segment_run ip c ph s1 m0 l0 pgdir t d l sz img)
    as (r & s2 & t2 & d2 & l2 & Hr & Hoth & Hlk2 & Hb2 & Hres); [done..|].
  mcall Hr. destruct r as [sz2|].
  - destruct Hres as (img2 & -> & Hsz2 & Hf2 & Hi2). cbn [mbind option_bind fst snd].
    destruct (IH s2 m0 l0 pgdir t2 d2 l2 (off + 32) sz2 img2) as (r & s' & t' & d' & l' & H1 & H2 & H3); try done || lia.
    exists r, s', t', d', l'. split_and!; [done|etrans; [exact H2|exact Hoth]|apply H3..].
  - exists None, s2, t2, d2, l2. split_and!; [done..|]. intros sz' img' ([sz3 img3] & H1 & H2)%bind_Some.
    apply Hres in H1. apply plan_segments_mono in H2. pose proof (npg_mono _ _ H2). cbn in *. lia.
Qed.
End load.
