(* ===== verification/ExecRun.v ===== *)
(** * The stack of a new program and the end of exec (exec.c)

    Pushing the argument strings and the frame of main, as the [plan] has it;
    what main receives; the switch to the new address space. *)

From Stdlib Require Import ZArith Lia.
From stdpp Require Import base numbers list gmap strings.
From S2P Require Import Prelude Mem Str Mmu Kalloc Vm VmFacts VmUser VmSpace VmCopy VmWrite Spinlock Proc ProcClaims Fs Sysfile Exec ExecPlan ExecFacts.

Lemma land_fc x : 0 <= x < 4294967296 → Z.land x 0xFFFFFFFC = x / 4 * 4.
Proof.
  intros Hx. change 0xFFFFFFFC with (Z.ldiff (Z.ones 32) (Z.ones 2)).
  apply Z.bits_inj'. intros n Hn. rewrite Z.land_spec, Z.ldiff_spec.
  change 4 with (2 ^ 2). rewrite <- Z.shiftr_div_pow2, <- Z.shiftl_mul_pow2 by lia.
  destruct (decide (n < 2)) as [Hlt|Hge].
  - rewrite (Z.ones_spec_low 2), Z.shiftl_spec_low by lia. by rewrite andb_false_r, andb_false_r.
  - rewrite (Z.ones_spec_high 2), Z.shiftl_spec, Z.shiftr_spec by lia. replace (n - 2 + 2) with n by lia.
    destruct (decide (n < 32)) as [Hl|Hh].
    + rewrite Z.ones_spec_low by lia. by rewrite andb_true_r.
    + rewrite Z.ones_spec_high by lia. rewrite andb_false_l, andb_false_r.
      destruct (decide (x = 0)) as [->|]; [by rewrite Z.bits_0|].
      symmetry. apply Z.bits_above_log2; [lia|]. apply Z.log2_lt_pow2; [lia|].
      eapply Z.lt_le_trans; [apply Hx|]. change 4294967296 with (2 ^ 32). apply Z.pow_le_mono_r; lia.
Qed.

(** The string [w] at [a], with its NUL. *)
Definition str_at (m : mem) (a : Z) (w : list Z) : Prop :=
  0 <= a ∧ a + Z.of_nat (length w) + 1 < 4294967296 ∧ Forall (λ b, b ≠ 0) w ∧
  ∀ i, 0 <= i <= Z.of_nat (length w) → m (a + i) = str_byte w i.

Lemma str_at_ext m m' a w :
  str_at m a w → (∀ i, 0 <= i <= Z.of_nat (length w) → m' (a + i) = m (a + i)) → str_at m' a w.
Proof. intros (? & ? & ? & H) Hx. split_and!; try done. intros i Hi. rewrite Hx by done. by apply H. Qed.

Lemma str_at_strlen m a w fuel :
  str_at m a w → Z.of_nat (length w) < 2147483648 → (length w < fuel)%nat →
  strlen fuel m a = Some (Z.of_nat (length w)).
Proof.
  intros (H0 & H1 & Hnz & Hb) Hl Hf. apply strlen_length; try done || lia.
  - intros i Hi. rewrite Hb by lia. unfold str_byte.
    destruct (lookup_lt_is_Some_2 w (Z.to_nat i)) as [b Hbi]; [lia|]. rewrite Hbi. cbn.
    by eapply Forall_lookup_1 in Hnz.
  - rewrite Hb by lia. unfold str_byte. rewrite Nat2Z.id. by rewrite lookup_ge_None_2.
Qed.

Lemma str_at_bytes m a w : str_at m a w → bytes_at m a (length w) = w.
Proof.
  intros (_ & _ & _ & Hb). apply list_eq. intros i. destruct (decide (i < length w)%nat) as [Hi|Hi].
  - rewrite bytes_at_lookup by done. rewrite Hb by lia. unfold str_byte. rewrite Nat2Z.id.
    by destruct (lookup_lt_is_Some_2 w i Hi) as [b ->].
  - rewrite !lookup_ge_None_2; rewrite ?bytes_at_length; done || lia.
Qed.

(** The pages below [top] are mapped; all but the one below the stack are for
    the user. *)
Definition stacked (d : Z → option (Z * Z)) (top : Z) : Prop :=
  (∀ q, 0 <= q < top / 4096 → ∃ u f, d q = Some (u, f) ∧ user_ok f = negb (q =? top / 4096 - 2)) ∧
  ∀ q, ¬ (0 <= q < top / 4096) → d q = None.

(** The guard page is taken away from the user. *)
Lemma full_stacked d top u :
  full d top → top mod 4096 = 0 → 8192 <= top → d (top / 4096 - 2) = Some (u, 7) →
  stacked (dm_set (top / 4096 - 2) (u, 3) d) top.
Proof.
  intros [H1 H2] Hm Ht Hu. assert (Hn : npg top = top / 4096) by (unfold npg; zlia). rewrite Hn in *.
  split; intros q Hq; unfold dm_set.
  - destruct (Z.eqb_spec q (top / 4096 - 2)) as [->|Hne]; [by exists u, 3|].
    destruct (H1 q Hq) as [v Hv]. by exists v, 7.
  - destruct (Z.eqb_spec q (top / 4096 - 2)) as [->|Hne]; [zlia|by apply H2].
Qed.

Lemma full_roundup d sz : full d sz → full d (4096 * npg sz).
Proof. unfold full. replace (npg (4096 * npg sz)) with (npg sz) by (unfold npg; zlia). done. Qed.

Section stack.
Context (kend : Z) (kend_pos : KERNBASE < kend).
Context (kdata : Z) (kdata_ok : kdata mod 4096 = 0 ∧ KERNLINK < kdata ∧ kdata <= kend)
        (kend_top : kend < KERNBASE + PHYSTOP).
Context (ustack : Z).

(** At a device address [copyout] finds a page that is not the user's. *)
Lemma copyout_kernel fuel m0 l0 m c t d l va buf len :
  built kend kdata ustack m0 l0 m c t d l → DEVSPACE <= va < 4294967296 → 0 < len →
  copyout_loop (S fuel) c va buf len m = Done (-1) m.
Proof using kend_pos kdata_ok kend_top.
  intros Hb Hva Hlen. cbn [copyout_loop]. rewrite Z.gtb_ltb. ztest (0 <? len) is true.
  set (va0 := PGROUNDDOWN va).
  assert (Hv0 : DEVSPACE <= va0 < 4294967296 ∧ va0 mod 4096 = 0)
    by (unfold va0; rewrite PGROUNDDOWN_eq by (unfold DEVSPACE in *; lia); unfold DEVSPACE in *; zlia).
  assert (Hpte : pte_of (ram m) t va0 = va0 + 3).
  { rewrite (bu_kern _ _ _ _ _ _ _ _ _ _ Hb) by (kconst; lia). unfold kvm_pte. kconst. repeat case_if; lia. }
  mcall (uva2ka_kernel kend kend_pos m c t d l va0 (bu_inv _ _ _ _ _ _ _ _ _ _ Hb)
           ltac:(rewrite Hpte, present_mod; zlia) ltac:(rewrite Hpte, user_ok_mod; zlia)).
  done.
Qed.

(** [copyout] into the new address space, at a range that ends below [top]. *)
Lemma copyout_stack m0 l0 m c t d l top a buf n :
  built kend kdata ustack m0 l0 m c t d l → stacked d top → top mod 4096 = 0 → 8192 <= top < KERNBASE →
  0 <= a → 0 < n → top - 4096 - 4 < a + n <= top → 0 <= buf → buf + n < 4294967296 →
  (∀ i, 0 <= i < n → clear l0 (buf + i)) →
  ∃ r m', copyout c a buf n m = Done r m' ∧ space_step kend c m t d l m' t d l ∧
    (r = 0 ∧ top - 4096 <= a ∧
       (∀ va, uread (ram m') d va = put (uread (ram m) d) a (λ i, ram m (buf + i)) n va) ∨
     r = -1 ∧ a < top - 4096).
Proof using kend_pos.
  intros Hb [Hs1 Hs2] Htm Htop Ha Hn Hend Hb0 Hbe Hcl. kconst.
  destruct (copyout_loop_spec kend kend_pos (S npages) m c t d l a buf n (bu_inv _ _ _ _ _ _ _ _ _ _ Hb))
    as (r & m' & Hr & Hst & Hc); try lia.
  - intros i Hi. by apply (bu_out _ _ _ _ _ _ _ _ _ _ Hb), Hcl.
  - unfold npages. rewrite Nat2Z.inj_succ, Z2Nat.id by lia. zlia.
  - intros q Hq. destruct (Hs1 q) as (u & f & -> & _); [zlia|by eexists].
  - exists r, m'. split_and!; [done..|]. destruct Hc as [(-> & Hall & Hread)|(-> & q & Hq & Hnu)].
    + left. split_and!; [done| |done]. destruct (decide (top - 4096 <= a)) as [|Hlt]; [done|exfalso].
      destruct (Hall (top / 4096 - 2)) as (u & f & Hu & Hok); [zlia|].
      destruct (Hs1 (top / 4096 - 2)) as (u' & f' & Hu' & Hok'); [zlia|]. simplify_eq.
      rewrite Hok, Z.eqb_refl in Hok'. done.
    + right. split; [done|]. destruct (decide (top - 4096 <= a)) as [Hge|]; [exfalso|lia].
      destruct (Hs1 q) as (u & f & Hu & Hok); [zlia|]. apply Hnu. exists u, f. split; [done|].
      rewrite Hok. by rewrite (proj2 (Z.eqb_neq q (top / 4096 - 2))) by zlia.
Qed.

(** An argument: its string is no free page's and not in the local array, and it
    is shorter than the device area. *)
Definition arg_ok (fuel : nat) (m0 : machine) (l0 : list Z) (a : Z) (w : list Z) : Prop :=
  str_at (ram m0) a w ∧ (∀ i, 0 <= i <= Z.of_nat (length w) → clear l0 (a + i) ∧ ¬ scratch ustack (a + i)) ∧
  Z.of_nat (length w) + 8 <= 0x2000000 ∧ (length w < fuel)%nat.

Lemma arg_ok_now fuel m0 l0 m c t d l a w :
  built kend kdata ustack m0 l0 m c t d l → arg_ok fuel m0 l0 a w → str_at (ram m) a w.
Proof.
  intros Hb (Hs & Hc & _). eapply str_at_ext; [done|]. intros i Hi. destruct (Hc i Hi).
  by apply (bu_out _ _ _ _ _ _ _ _ _ _ Hb).
Qed.

(** One argument. *)
Lemma push_arg fuel m0 l0 m c t d l top sp a w img :
  built kend kdata ustack m0 l0 m c t d l → stacked d top → top mod 4096 = 0 → 8192 <= top < KERNBASE →
  arg_ok fuel m0 l0 a w → top - 4096 <= sp <= top → (∀ va, uread (ram m) d va = img va) →
  let n := Z.of_nat (length w) + 1 in
  let a' := (sp - n) / 4 * 4 in
  ∃ r m', copyout c (Z.land (u32 (sp - n)) 0xFFFFFFFC) a n m = Done r m' ∧
    space_step kend c m t d l m' t d l ∧
    (r = 0 ∧ top - 4096 <= a' ∧ Z.land (u32 (sp - n)) 0xFFFFFFFC = a' ∧
       (∀ va, uread (ram m') d va = put img a' (str_byte w) n va) ∨
     r = -1 ∧ a' < top - 4096).
Proof using kend_pos kdata_ok kend_top.
  intros Hb Hst Htm Htop Harg Hsp Himg n a'. pose proof (arg_ok_now _ _ _ _ _ _ _ _ _ _ Hb Harg) as (Ha0 & Ha1 & _ & Hbytes).
  destruct Harg as (_ & Hcl & Hlen & _). kconst.
  rewrite land_fc by (unfold u32; zlia). destruct (decide (0 <= sp - n)) as [Hp|Hp].
  - rewrite (u32_small (sp - n)) by lia. fold a'.
    destruct (copyout_stack m0 l0 m c t d l top a' a n Hb Hst Htm)
      as (r & m' & Hr & Hstep & Hc); kconst; try (unfold a', n in *; zlia).
    { intros i Hi. apply Hcl. lia. }
    exists r, m'. split_and!; [done..|]. destruct Hc as [(-> & Hge & Hread)|(-> & ?)]; [left|by right].
    split_and!; [done..|]. intros va. rewrite Hread. unfold put. case_if; [|apply Himg..]. apply Hbytes. lia.
  - assert (Hw : u32 (sp - n) = sp - n + 4294967296).
    { unfold u32. symmetry. apply (Z.mod_unique _ _ (-1)); unfold n in *; lia. }
    exists (-1), m. split_and!.
    + apply (copyout_kernel npages m0 l0 m c t d l); [done| |lia]. rewrite Hw. kconst. unfold n in *. zlia.
    + apply space_step_refl. by apply (bu_inv _ _ _ _ _ _ _ _ _ _ Hb).
    + right. split; [done|]. unfold a'. zlia.
Qed.
End stack.

Section push.
Context {F : Type} `{!ExecOps F}.
Context (kend : Z) (kend_pos : KERNBASE < kend).
Context (kdata : Z) (kdata_ok : kdata mod 4096 = 0 ∧ KERNLINK < kdata ∧ kdata <= kend)
        (kend_top : kend < KERNBASE + PHYSTOP).
Context (ustack : Z) (ustack_ok : 0 <= ustack ∧ ustack + 144 < 4294967296).
Implicit Types s : kstate F.

Lemma get_strlen_run fuel s a w :
  str_at (ram (k_m s)) a w → Z.of_nat (length w) < 2147483648 → (length w < fuel)%nat →
  get_strlen fuel a s = Done (Z.of_nat (length w)) s.
Proof. intros Hs Hl Hf. unfold get_strlen. mrun. by rewrite (str_at_strlen _ _ _ _ Hs Hl Hf). Qed.

(** The pointers in the local array. *)
Definition words_at (m : mem) (a : Z) (ws : list Z) : Prop :=
  ∀ k w, ws !! k = Some w → load32 m (a + 4 * Z.of_nat k) = w.

Lemma words_at_store m a ws k v :
  words_at m a ws → k = Z.of_nat (length ws) → 0 <= v < 4294967296 → words_at (store32 m (a + 4 * k) v) a (ws ++ [v]).
Proof.
  intros Hw -> Hv j w [Hj|[Hj Hs]]%lookup_app_Some.
  - apply lookup_lt_Some in Hj as Hlt. rewrite load32_store32_ne by lia. by apply Hw.
  - apply list_lookup_singleton_Some in Hs as [E ->]. replace j with (length ws) by lia.
    by apply load32_store32_eq.
Qed.

Lemma words_at_ext m m' a ws :
  words_at m a ws → (∀ x, a <= x < a + 4 * Z.of_nat (length ws) → m' x = m x) → words_at m' a ws.
Proof.
  intros Hw Hx k w Hk. apply lookup_lt_Some in Hk as Hlt. rewrite <- (Hw k w Hk). apply load32_ext. intros x Hxx. apply Hx. lia.
Qed.

Lemma plan_args_length base args : ∀ sp img ptrs sp' img',
  plan_args base args sp img = Some (ptrs, sp', img') → length ptrs = length args.
Proof.
  induction args as [|w args IH]; intros sp img ptrs sp' img' H; cbn in H; [by simplify_eq|].
  case_match; [done|]. apply bind_Some in H as ([[p1 s1] i1] & Hr & H). simplify_eq. cbn. f_equal. by eapply IH.
Qed.

Context (m0 : machine) (l0 : list Z) (scratch_clear : ∀ x, scratch ustack x → clear l0 x).

(** The words of the local array from the fourth on: [ptrs] is pushed. *)
Definition pushed (m : mem) (ptrs : list Z) : Prop := words_at m (ustack + 12) ptrs.

Lemma pushed_kept m c t d l m' t' d' l' ptrs :
  built kend kdata ustack m0 l0 m c t d l → space_step kend c m t d l m' t' d' l' → (length ptrs <= 33)%nat →
  pushed (ram m) ptrs → pushed (ram m') ptrs.
Proof using scratch_clear.
  intros Hb Hst Hl Hw. eapply words_at_ext; [done|]. intros x Hx.
  apply (sp_out _ _ _ _ _ _ _ _ _ _ Hst), (bu_out _ _ _ _ _ _ _ _ _ _ Hb), scratch_clear. unfold scratch. lia.
Qed.

Lemma push_args_run fuel c t d l top args : ∀ argv s sp ptrs img,
  Forall2 (arg_ok ustack fuel m0 l0) argv args →
  built kend kdata ustack m0 l0 (k_m s) c t d l → stacked d top → top mod 4096 = 0 → 8192 <= top < KERNBASE →
  top - 4096 <= sp <= top → sp mod 4 = 0 → (∀ va, uread (ram (k_m s)) d va = img va) →
  pushed (ram (k_m s)) ptrs → (length ptrs <= 32)%nat →
  ∃ r s', push_args ustack fuel c argv (Z.of_nat (length ptrs)) sp s = Done r s' ∧
    others s' = others s ∧ k_fs s' = k_fs s ∧ built kend kdata ustack m0 l0 (k_m s') c t d l ∧
    match r with
    | Some (argc, sp') => ∃ new img', plan_args (top - 4096) args sp img = Some (new, sp', img') ∧
        argc = Z.of_nat (length (ptrs ++ new)) ∧ (length (ptrs ++ new) <= 32)%nat ∧
        top - 4096 <= sp' <= top ∧ sp' mod 4 = 0 ∧ (∀ va, uread (ram (k_m s')) d va = img' va) ∧
        pushed (ram (k_m s')) (ptrs ++ new)
    | None => (32 < length ptrs + length args)%nat ∨ plan_args (top - 4096) args sp img = None
    end.
Proof using kend_pos kdata_ok kend_top ustack_ok scratch_clear.
  induction args as [|w args IH]; intros argv s sp ptrs img Hargs Hb Hst Htm Htop Hsp Hs4 Himg Hpt Hlen.
  { apply Forall2_nil_inv_r in Hargs as ->. exists (Some (Z.of_nat (length ptrs), sp)), s. split_and!; [done..|].
    exists [], img. rewrite app_nil_r. split_and!; done || lia. }
  apply Forall2_cons_inv_r in Hargs as (a & argv' & Ha & Hargs & ->). cbn [push_args plan_args].
  rewrite Z.geb_leb. destruct (Z.leb_spec (Z.of_nat MAXARG) (Z.of_nat (length ptrs))) as [Hmax|Hmax].
  { exists None, s. split_and!; [done..|]. left. unfold MAXARG in Hmax. cbn [length]. lia. }
  pose proof (arg_ok_now _ _ _ _ _ _ _ _ _ _ _ _ _ Hb Ha) as Hnow. pose proof Ha as (_ & _ & Hw & Hf).
  mcall (get_strlen_run fuel s a w Hnow ltac:(lia) Hf).
  destruct (push_arg kend kend_pos kdata kdata_ok kend_top ustack fuel m0 l0 (k_m s) c t d l top sp a w img Hb Hst Htm Htop Ha Hsp Himg)
    as (r & m1 & Hr & Hstep & Hc).
  mcall (on_m_run _ s _ _ Hr). pose proof (built_step _ _ _ _ _ _ _ _ _ _ _ _ _ _ Hb Hstep) as Hb1.
  set (a' := (sp - (Z.of_nat (length w) + 1)) / 4 * 4) in *.
  destruct Hc as [(-> & Hge & -> & Hu)|(-> & Hlt)]; cbn [Z.ltb Z.compare]; cycle 1.
  { exists None, (set_k_m m1 s). split_and!; [done..|]. right. by ztest (a' <? top - 4096) is true. }
  ztest (a' <? top - 4096) is false. unfold MAXARG in Hmax.
  replace (ustack + 4 * (3 + Z.of_nat (length ptrs))) with (ustack + 12 + 4 * Z.of_nat (length ptrs)) by lia.
  destruct (built_local kend kdata ustack m0 l0 m1 c t d l (ustack + 12 + 4 * Z.of_nat (length ptrs)) a' Hb1 scratch_clear)
    as [Hb2 Hu2]; [lia..|].
  mcall (on_m_run (st32 (ustack + 12 + 4 * Z.of_nat (length ptrs)) a') (set_k_m m1 s) tt _ eq_refl). cbn [k_m set_k_m].
  set (s2 := set_k_m _ (set_k_m m1 s)).
  assert (Ha' : a' <= sp ∧ a' mod 4 = 0) by (unfold a'; zlia).
  destruct (IH argv' s2 a' (ptrs ++ [a']) (put img a' (str_byte w) (Z.of_nat (length w) + 1)))
    as (r & s' & Hrun & Hoth & Hfs & Hb' & Hres); try done || lia.
  { intros va. unfold s2. cbn [k_m set_k_m ram set_ram]. rewrite Hu2. apply Hu. }
  { apply words_at_store; [|done|kconst; lia]. apply (pushed_kept _ _ _ _ _ _ _ _ _ _ Hb Hstep); [lia|done]. }
  { rewrite length_app. cbn. lia. }
  rewrite length_app, Nat2Z.inj_add in Hrun. change (Z.of_nat (length [a'])) with 1 in Hrun. rewrite Hrun. exists r, s'. split_and!; [done..|].
  destruct r as [[argc sp']|].
  - destruct Hres as (new & img' & -> & Hrest). exists (a' :: new), img'. cbn [mbind option_bind].
    rewrite <- (assoc_L (++)) in Hrest. by split.
  - destruct Hres as [Hres| ->]; [left|by right]. rewrite length_app in Hres. cbn in *. lia.
Qed.
End push.

(** ** What main receives (exec.c)

    The stack of a planned image: the argument count, the array of pointers and
    the strings they point to. *)


(** Each string is between the final and the initial stack pointer, later ones
    below earlier ones. *)
Lemma plan_args_strings base args : ∀ sp img ptrs sp' img',
  plan_args base args sp img = Some (ptrs, sp', img') → base <= sp →
  base <= sp' <= sp ∧ (∀ va, sp <= va → img' va = img va) ∧
  ∀ k a w, ptrs !! k = Some a → args !! k = Some w →
    sp' <= a ∧ a + Z.of_nat (length w) + 1 <= sp ∧ ∀ i, 0 <= i <= Z.of_nat (length w) → img' (a + i) = str_byte w i.
Proof.
  induction args as [|w args IH]; intros sp img ptrs sp' img' H Hb; cbn [plan_args] in H.
  { simplify_eq. split_and!; done || lia. }
  set (a := (sp - (Z.of_nat (length w) + 1)) / 4 * 4) in *.
  assert (Ha : a + Z.of_nat (length w) + 1 <= sp) by (unfold a; zlia).
  destruct (Z.ltb_spec a base) as [|Hab]; [done|]. apply bind_Some in H as ([[ptrs1 sp1] img1] & H & [= <- <- <-]).
  destruct (IH _ _ _ _ _ H Hab) as (Hsp & Hkeep & Hstr). split_and!; [lia|lia| |].
  - intros va Hva. rewrite Hkeep, put_out by lia. done.
  - intros [|k] a' w' Ha' Hw'; cbn in Ha', Hw'.
    + simplify_eq. split_and!; [lia|lia|]. intros i Hi. rewrite Hkeep, put_in by lia. f_equal. lia.
    + destruct (Hstr k a' w' Ha' Hw') as (H1 & H2 & H3). split_and!; [lia|lia|done].
Qed.

Lemma word_byte_load m a ws k w :
  (∀ i, 0 <= i < 4 * Z.of_nat (length ws) → m (a + i) = word_byte ws i) → ws !! k = Some w → 0 <= w < 4294967296 →
  load32 m (a + 4 * Z.of_nat k) = w.
Proof.
  intros Hm Hk Hw. pose proof (lookup_lt_Some _ _ _ Hk) as Hlt.
  assert (Hb : ∀ j, 0 <= j < 4 → m (a + 4 * Z.of_nat k + j) = (w / 256 ^ j) mod 256).
  { intros j Hj. rewrite <- (Z.add_assoc a), Hm by lia. unfold word_byte.
    replace ((4 * Z.of_nat k + j) / 4) with (Z.of_nat k) by zlia.
    replace ((4 * Z.of_nat k + j) mod 4) with j by zlia. by rewrite Nat2Z.id, Hk. }
  unfold load32. pose proof (Hb 0 ltac:(lia)) as H0. rewrite Z.add_0_r in H0. rewrite H0, (Hb 1), (Hb 2), (Hb 3) by lia.
  change (256 ^ 0) with 1. change (256 ^ 1) with 256. change (256 ^ 2) with 65536. change (256 ^ 3) with 16777216. zlia.
Qed.

(** The arguments of main in memory [m], for the stack pointer [sp]. *)
Definition main_args (m : mem) (sp : Z) (args : list (list Z)) : Prop :=
  let argv := load32 m (sp + 8) in
  load32 m (sp + 4) = Z.of_nat (length args) ∧
  (∀ k w, args !! k = Some w → ∀ i, 0 <= i <= Z.of_nat (length w) →
     m (load32 m (argv + 4 * Z.of_nat k) + i) = str_byte w i) ∧
  load32 m (argv + 4 * Z.of_nat (length args)) = 0.

Lemma main_args_ext m m' sp args : (∀ x, m' x = m x) → main_args m sp args → main_args m' sp args.
Proof.
  intros Hx. assert (Hl : ∀ a, load32 m' a = load32 m a) by (intros a; apply load32_ext; intros x _; apply Hx).
  unfold main_args. rewrite !Hl. intros (H1 & H2 & H3). split_and!; [done| |done].
  intros k w Hw i Hi. rewrite Hx, Hl. by apply H2.
Qed.

Lemma plan_main_args c args im : plan c args = Some im → main_args (im_mem im) (im_sp im) args.
Proof.
  unfold plan. match goal with |- context [if ?b then _ else _] => destruct b; [done|] end.
  intros ([sz img] & Hs & Hp)%bind_Some. apply plan_segments_mono in Hs. cbn [fst snd] in Hp.
  apply plan_stack_Some in Hp as (ptrs & sp & img' & Ht & _ & Ha & Hge & ->). cbn [im_mem im_sp].
  set (top := 4096 * npg sz + 8192) in *. assert (8192 <= top) by (unfold top, npg; zlia).
  pose proof (plan_args_length _ _ _ _ _ _ _ Ha) as Hlen.
  destruct (plan_args_strings _ _ _ _ _ _ _ Ha) as (Hsp & _ & Hstr); [lia|].
  set (n := 4 * (4 + Z.of_nat (length ptrs))) in *. set (sp2 := sp - n) in *.
  set (ws := main_frame sp2 ptrs). set (m := put img' sp2 (word_byte ws) n). kconst.
  assert (Hptr : ∀ k a, ptrs !! k = Some a → sp <= a < 2147483648).
  { intros k a Hk. destruct (lookup_lt_is_Some_2 args k) as [w Hw]; [rewrite <- Hlen; by eapply lookup_lt_Some|].
    destruct (Hstr k a w Hk Hw). lia. }
  assert (Hws : ∀ i, 0 <= i < 4 * Z.of_nat (length ws) → m (sp2 + i) = word_byte ws i).
  { intros i Hi. unfold m. rewrite put_in; [f_equal; lia|].
    unfold ws, main_frame, n in *. cbn [length] in Hi. rewrite length_app in Hi. cbn [length] in Hi. lia. }
  assert (Hword : ∀ k w, ws !! k = Some w → 0 <= w < 4294967296 → load32 m (sp2 + 4 * Z.of_nat k) = w)
    by (intros k w; by apply word_byte_load).
  assert (Hargv : load32 m (sp2 + 8) = sp2 + 12) by (apply (Hword 2%nat); [done|unfold sp2 in *; lia]).
  assert (Hn : 16 <= n) by (unfold n; lia). unfold main_args. rewrite Hargv. split_and!.
  - rewrite <- Hlen. apply (Hword 1%nat); [done|unfold n, sp2 in *; lia].
  - intros k w Hw i Hi. destruct (lookup_lt_is_Some_2 ptrs k) as [a Hk]; [rewrite Hlen; by eapply lookup_lt_Some|].
    destruct (Hstr k a w Hk Hw) as (H1 & H2 & H3). pose proof (Hptr k a Hk).
    assert (load32 m (sp2 + 12 + 4 * Z.of_nat k) = a) as ->.
    { replace (sp2 + 12 + 4 * Z.of_nat k) with (sp2 + 4 * Z.of_nat (3 + k)) by lia. apply Hword; [|unfold sp2 in *; lia].
      unfold ws, main_frame. cbn. by apply lookup_app_l_Some. }
    unfold m. rewrite put_out by (unfold sp2; lia). by apply H3.
  - rewrite <- Hlen. replace (sp2 + 12 + 4 * Z.of_nat (length ptrs)) with (sp2 + 4 * Z.of_nat (3 + length ptrs)) by lia.
    apply Hword; [|lia]. change ((ptrs ++ [0]) !! length ptrs = Some 0). by rewrite lookup_app_r, Nat.sub_diag by lia.
Qed.

(** ** The end of exec (exec.c)

    The frame of main is copied out, the process gets its new address space and
    the old one is freed; or the new one is thrown away. *)


Lemma load32_byte m a j : mem_ok m → 0 <= j < 4 → m (a + j) = (load32 m a / 256 ^ j) mod 256.
Proof.
  intros Hm Hj. unfold load32. pose proof (Hm a). pose proof (Hm (a + 1)). pose proof (Hm (a + 2)). pose proof (Hm (a + 3)).
  assert (j = 0 ∨ j = 1 ∨ j = 2 ∨ j = 3) as [-> |[-> |[-> | ->]]] by lia; rewrite ?Z.add_0_r.
  - change (256 ^ 0) with 1. zlia.
  - change (256 ^ 1) with 256. zlia.
  - change (256 ^ 2) with 65536. zlia.
  - change (256 ^ 3) with 16777216. zlia.
Qed.

Lemma words_at_byte m a ws i :
  mem_ok m → words_at m a ws → 0 <= i < 4 * Z.of_nat (length ws) → m (a + i) = word_byte ws i.
Proof.
  intros Hm Hw Hi. unfold word_byte. destruct (lookup_lt_is_Some_2 ws (Z.to_nat (i / 4))) as [w E]; [zlia|].
  rewrite E. cbn [default from_option id]. rewrite <- (Hw _ _ E), Z2Nat.id by zlia.
  rewrite <- load32_byte by (done || zlia). f_equal. zlia.
Qed.

Lemma words_at_cons m a w ws : load32 m a = w → words_at m (a + 4) ws → words_at m a (w :: ws).
Proof.
  intros Hw Hws [|k] v Hk; cbn in Hk; [simplify_eq; by rewrite Z.add_0_r|].
  rewrite <- (Hws _ _ Hk). f_equal. lia.
Qed.

Lemma pages_swap (c p : Z) (tc dc tp dp l : list Z) :
  c :: tc ++ dc ++ (p :: tp ++ dp ++ l) ≡ₚ p :: tp ++ dp ++ (c :: tc ++ dc ++ l).
Proof.
  pose proof (Permutation_app_swap_app (c :: tc ++ dc) (p :: tp ++ dp) l) as H.
  by rewrite <- !app_comm_cons, <- !(assoc_L (++)) in H.
Qed.

Section commit.
Context (kend : Z) (kend_pos : KERNBASE < kend).
Context (kdata ustack : Z).
(** The machine when exec began, its free pages, and the address space the
    process runs in. *)
Context (m0 : machine) (l0 : list Z) (p : Z) (tp : Z → option Z) (dp : Z → option (Z * Z)).
Context (old_ok : uvm_inv kend m0 p tp dp l0).
Context (scratch_free : ∀ x, owned p tp dp x → ¬ scratch ustack x).

Lemma old_clear x : owned p tp dp x → clear l0 x.
Proof using old_ok. intros Hx q. by eapply owned_apart. Qed.

(** The address space of the process survives what keeps clear of it. *)
Lemma old_kept m l :
  kalloc_inv kend m l → l ⊆ l0 → (∀ x, clear l0 x → ¬ scratch ustack x → ram m x = ram m0 x) →
  uvm_inv kend m p tp dp l.
Proof using old_ok scratch_free.
  intros Ha Hl Hx. eapply uvm_inv_keep; [done..| |].
  - intros x Ho. apply Hx; [by apply old_clear|by apply scratch_free].
  - intros q Hq Ho. apply (old_clear q Ho q (Hl q Hq)). unfold in_page. lia.
Qed.

Lemma uvm_inv_cr3 m c t d l v : uvm_inv kend m c t d l → uvm_inv kend (set_cr3 v m) c t d l.
Proof. intros [[[C1 C2 C3 C4 C5] P1 P2 P3 P4 P5] U1 U2 U3 U4]. split; [split; [by split|done..]|done..]. Qed.

Context (tf : Z) (tf_range : 0 <= tf)
  (tf_ok : ∀ x, tf <= x < tf + 76 → clear l0 x ∧ ¬ owned p tp dp x ∧ ¬ scratch ustack x).

Lemma not_owned_outside m l x :
  uvm_inv kend m p tp dp l → ¬ owned p tp dp x → (∀ q, q ∈ l → ¬ in_page q x) → uoutside p tp dp l x.
Proof.
  intros _ Ho Hl. split_and!; [split_and!|].
  - intros H. apply Ho. by left.
  - intros i t Ht H. apply Ho. right. left. by exists i, t.
  - done.
  - intros pn u f Hu H. apply Ho. right. right. by exists pn, u, f.
Qed.

Lemma commit m c t d l e sp v :
  built kend kdata ustack m0 l0 m c t d l → 0 <= e < 4294967296 → 0 <= sp < 4294967296 →
  ∃ m' l', freevm kend p (set_cr3 v (set_ram (store32 (store32 (ram m) (tf + 56) e) (tf + 68) sp) m)) = Done tt m' ∧
    uvm_inv kend m' c t d l' ∧
    c :: tables t ++ dpages d ++ l' ≡ₚ p :: tables tp ++ dpages dp ++ l0 ∧
    (∀ va, uread (ram m') d va = uread (ram m) d va) ∧
    (∀ va, KERNBASE <= va < 4294967296 → pte_of (ram m') t va = kvm_pte kdata va) ∧
    cr3 m' = v ∧ load32 (ram m') (tf + 56) = e ∧ load32 (ram m') (tf + 68) = sp ∧
    (∀ x, clear l0 x → ¬ owned p tp dp x → ¬ scratch ustack x → ¬ (tf <= x < tf + 76) → ram m' x = ram m0 x).
Proof using kend_pos old_ok scratch_free tf_ok.
  intros Hb He Hsp. destruct Hb as [I K P O [M N]].
  set (r := store32 (store32 (ram m) (tf + 56) e) (tf + 68) sp).
  assert (Hr : ∀ x, ¬ (tf <= x < tf + 76) → r x = ram m x) by (intros x Hx; unfold r; rewrite !store32_out by lia; done).
  assert (Hok : mem_ok r) by (apply mem_ok_store32, mem_ok_store32, (ki_mem _ _ _ (pi_alloc _ _ _ _ _ (ui_pt _ _ _ _ _ _ I)))).
  assert (Hsub : l ⊆ l0) by (intros q Hq; rewrite <- P; right; rewrite !elem_of_app; by right; right).
  assert (Hold : uvm_inv kend m p tp dp l).
  { apply old_kept; [apply I|done|]. intros x Hc Hs. by apply O. }
  destruct (outside_write kend m c t d l r I Hok) as (In & Hpn & Hun).
  { intros x Hx. apply Hr. intros Ht. apply Hx, O. by apply tf_ok. }
  assert (Htf : ∀ x, tf <= x < tf + 76 → uoutside p tp dp l x).
  { intros x Hx. destruct (tf_ok x Hx) as (Hc & Ho & _). apply (not_owned_outside m); [done..|]. intros q Hq. apply Hc, Hsub, Hq. }
  destruct (outside_write kend m p tp dp l r Hold Hok) as (Io & _).
  { intros x Hx. apply Hr. intros Ht. by apply Hx, Htf. }
  set (m1 := set_cr3 v (set_ram r m)). apply (uvm_inv_cr3 _ _ _ _ _ v) in In, Io. fold m1 in In, Io.
  destruct (freevm_spec kend kend_pos m1 p tp dp l Io) as (m' & l' & Hf & Ha & Hl & _ & Hc3 & _ & Hx).
  assert (Hap : ∀ x, owned c t d x → uoutside p tp dp l x).
  { intros x Hx'. apply (not_owned_outside m); [done| |by eapply owned_apart; [exact I|]]. intros Ho.
    destruct (O x (old_clear x Ho)) as (((H1 & H2 & _) & H4) & _).
    destruct Hx' as [?|[(i & u & Hu & ?)|(pn & u & f & Hu & ?)]]; [done|by eapply H2|by eapply H4]. }
  exists m', l'. split_and!; [done|..].
  - eapply uvm_inv_keep; [exact In|done| |].
    + intros x Ho. by apply Hx, Hap.
    + intros q Hq Ho. pose proof (Hap q Ho) as Hq2. rewrite Hl in Hq.
      destruct (uoutside_detached _ _ _ _ _ Hq2) as (H1 & H2 & H3 & H4).
      apply elem_of_cons in Hq as [->|Hq]; [done|]. rewrite !elem_of_app in Hq.
      destruct Hq as [(j & _ & Hj)%tables_elem|[Hq|Hq]]; [by eapply H2| |done].
      apply dpages_elem in Hq as (pn & f & Hpn'). by eapply H4.
  - rewrite Hl, <- P. apply pages_swap.
  - intros va. rewrite <- Hun. unfold uread. destruct (d (va / 4096)) as [[u f]|] eqn:E; [|done].
    apply Hx, Hap. right. right. exists (va / 4096), u, f. split; [done|]. unfold in_page. zlia.
  - intros va Hva. rewrite <- (K va Hva), <- Hpn. apply (pte_of_frame m1 m'). intros j u x Hu Hxu. apply Hx, Hap.
    right. left. by exists j, u.
  - by rewrite Hc3.
  - rewrite (load32_ext r (ram m')) by (intros x Hxx; apply Hx, Htf; lia). unfold r.
    rewrite load32_store32_ne by lia. by apply load32_store32_eq.
  - rewrite (load32_ext r (ram m')) by (intros x Hxx; apply Hx, Htf; lia). by apply load32_store32_eq.
  - intros x Hc Ho Hs Ht. rewrite Hx.
    + cbn. rewrite Hr by done. by apply O.
    + apply (not_owned_outside m); [done..|]. intros q Hq. apply Hc, Hsub, Hq.
Qed.
End commit.
