(* ===== verification/ExecClaims.v ===== *)
(** * Properties of exec (exec.c) *)

From Stdlib Require Import ZArith Lia.
From stdpp Require Import base numbers list gmap strings.
From S2P Require Import Prelude Mem Str Mmu Kalloc Vm VmFacts VmUser VmSpace VmCopy VmWrite VmClaims Spinlock Proc ProcFacts ProcClaims Fs Syscall Sysfile Exec ExecPlan ExecFacts ExecRun.

Section whole.
Context {F : Type} `{!ExecOps F} `{!ExecStore F}.
Context (kend : Z) (kend_pos : KERNBASE < kend).
Context (kdata : Z) (kdata_ok : kdata mod 4096 = 0 ∧ KERNLINK < kdata ∧ kdata <= kend)
        (kend_top : kend < KERNBASE + PHYSTOP).
Context (ustack : Z).
Implicit Types s : kstate F.

(** The free pages and everything else are as when exec began. *)
Definition restored (m0 : machine) (l0 : list Z) (m : machine) : Prop :=
  ∃ l, kalloc_inv kend m l ∧ l ≡ₚ l0 ∧ (∀ x, clear l0 x → ¬ scratch ustack x → ram m x = ram m0 x) ∧ cr3 m = cr3 m0.

(** The file as [bad] finds it. *)
Definition at_bad (ip : option nat) (f : F) : Prop :=
  match ip with Some ip => ∃ c, est_locked ip c f | None => est_idle f end.

Lemma bad_file ip s : at_bad ip (k_fs s) →
  ∃ s', (match ip with Some ip => on_fs (eo_iunlockput ip) ;;; on_fs eo_end_op | None => ret tt end ;;; ret (-1)) s = Done (-1) s' ∧
    others s' = others s ∧ k_m s' = k_m s ∧ est_idle (k_fs s').
Proof.
  destruct ip as [ip|]; [intros [c Hl]|intros Hi; by exists s].
  destruct (est_iunlockput _ _ _ Hl) as (f1 & H1 & Ho). destruct (est_end _ Ho) as (f2 & H2 & Hi).
  exists (set_k_fs f2 (set_k_fs f1 s)). split; [|done].
  unfold bind at 1. mcall (on_fs_run _ s _ _ H1). by rewrite (on_fs_run _ (set_k_fs f1 s) _ _ H2).
Qed.

Lemma exec_bad_run m0 l0 s c t d l ip :
  built kend kdata ustack m0 l0 (k_m s) c t d l → at_bad ip (k_fs s) →
  ∃ s', exec_bad kend c ip s = Done (-1) s' ∧ others s' = others s ∧ est_idle (k_fs s') ∧ restored m0 l0 (k_m s').
Proof using kend_pos.
  intros Hb Hat. destruct (built_freed kend kend_pos kdata ustack m0 l0 (k_m s) c t d l Hb) as (m' & l' & Hf & Ha & Hl & Hx & _ & Hc).
  pose proof (pi_dir _ _ _ _ _ (ui_pt _ _ _ _ _ _ (bu_inv _ _ _ _ _ _ _ _ _ _ Hb))) as Hv.
  apply valid_page_u32 in Hv; [|lia]. unfold exec_bad. ztest (c =? 0) is false.
  mcall (on_m_run _ s _ _ Hf). destruct (bad_file ip (set_k_m m' s) Hat) as (s' & -> & Ho & Hm & Hi).
  exists s'. split_and!; [done..|]. rewrite Hm. exists l'. by split_and!.
Qed.

Lemma exec_bad_early s ip : at_bad (Some ip) (k_fs s) →
  ∃ s', exec_bad kend 0 (Some ip) s = Done (-1) s' ∧ others s' = others s ∧ k_m s' = k_m s ∧ est_idle (k_fs s').
Proof. apply (bad_file (Some ip) s). Qed.

(** ** From the stack on *)

(** Four words of the frame are stored, the pointers are there. *)
Lemma frame_stored m0 l0 m c t d l sp ptrs :
  built kend kdata ustack m0 l0 m c t d l → (∀ x, scratch ustack x → clear l0 x) →
  pushed ustack (ram m) ptrs → (length ptrs <= 32)%nat → 0 <= sp < 4294967296 - 12 →
  let m' := set_ram (store32 (store32 (store32 (store32 (ram m) (ustack + 4 * (3 + Z.of_nat (length ptrs))) 0)
    ustack 0xFFFFFFFF) (ustack + 4) (Z.of_nat (length ptrs))) (ustack + 8) (sp + 12)) m in
  built kend kdata ustack m0 l0 m' c t d l ∧ (∀ va, uread (ram m') d va = uread (ram m) d va) ∧
  words_at (ram m') ustack (main_frame sp ptrs).
Proof using Type.
  intros Hb Hs Hp Hl Hsp m'.
  destruct (built_local kend kdata ustack m0 l0 m c t d l (ustack + 4 * (3 + Z.of_nat (length ptrs))) 0 Hb Hs) as [B1 U1]; [lia..|].
  destruct (built_local kend kdata ustack m0 l0 _ c t d l ustack 0xFFFFFFFF B1 Hs) as [B2 U2]; [lia..|].
  destruct (built_local kend kdata ustack m0 l0 _ c t d l (ustack + 4) (Z.of_nat (length ptrs)) B2 Hs) as [B3 U3]; [lia..|].
  destruct (built_local kend kdata ustack m0 l0 _ c t d l (ustack + 8) (sp + 12) B3 Hs) as [B4 U4]; [lia..|].
  split; [exact B4|]. unfold m'. cbn [ram set_ram] in *. split.
  - intros va. by rewrite U4, U3, U2, U1.
  - repeat apply words_at_cons.
    + rewrite !load32_store32_ne by lia. by apply load32_store32_eq.
    + rewrite load32_store32_ne by lia. apply load32_store32_eq. lia.
    + replace (ustack + 4 + 4) with (ustack + 8) by lia. apply load32_store32_eq. lia.
    + replace (ustack + 4 + 4 + 4) with (ustack + 12) by lia.
      eapply words_at_ext; [apply (words_at_store (ram m) (ustack + 12) ptrs (Z.of_nat (length ptrs)) 0); [done..|lia]|].
      intros x Hx. rewrite length_app in Hx. cbn [length] in Hx.
      replace (ustack + 12 + 4 * Z.of_nat (length ptrs)) with (ustack + 4 * (3 + Z.of_nat (length ptrs))) by lia.
      by do 3 rewrite (store32_out _ _ _ x) by lia.
Qed.

Lemma upd_proc_twice i (g h : proc → proc) l : upd_proc i g (upd_proc i h l) = upd_proc i (λ p, g (h p)) l.
Proof using Type. unfold upd_proc. revert i. induction l as [|p l IH]; intros [|i]; cbn; try done. f_equal. apply IH. Qed.

(** [switchuvm] of a process with an address space. *)
Lemma switchuvm_run f dpt s i p :
  quiet f dpt s → procs s !! i = Some p → pr_kstack p ≠ 0 → pr_pgdir p ≠ 0 →
  ∃ s', switchuvm i s = Done tt s' ∧ quiet f dpt s' ∧ procs s' = procs s ∧ k_fs s' = k_fs s ∧
    k_m s' = set_cr3 (V2P (pr_pgdir p)) (k_m s).
Proof using Type.
  intros Hq Hp Hk Hd. destruct (pushcli_state f dpt (k_cpu s) Hq) as (c1 & H1 & Hc1).
  destruct (popcli_state f (dpt + 1) c1 Hc1) as (c2 & H2 & Hc2); [destruct Hq; lia|].
  replace (dpt + 1 - 1) with dpt in Hc2 by lia.
  unfold switchuvm. mrun. unfold get_proc. rewrite Hp. cbn [default from_option id].
  ztest (pr_kstack p =? 0) is false. ztest (pr_pgdir p =? 0) is false.
  mcall (on_c_run pushcli s _ _ H1). mrun.
  eexists. split; [apply (on_c_run popcli), H2|]. by split_and!.
Qed.

(** ** The process *)

Section process.
(** The machine when exec began, its free pages; the process, the address space
    it runs in; the depth of interrupt disabling. *)
Context (m0 : machine) (l0 : list Z) (i : nat) (p : proc) (tp : Z → option Z) (dp : Z → option (Z * Z)) (f : bool) (dpt : Z).
Context (old_ok : uvm_inv kend m0 (pr_pgdir p) tp dp l0) (kstack_ok : pr_kstack p ≠ 0).
Context (ustack_ok : 0 <= ustack ∧ ustack + 144 < 4294967296)
        (scratch_ok : ∀ x, scratch ustack x → clear l0 x ∧ ¬ owned (pr_pgdir p) tp dp x)
        (tf_ok : ∀ x, pr_tf p <= x < pr_tf p + 76 →
           clear l0 x ∧ ¬ owned (pr_pgdir p) tp dp x ∧ ¬ scratch ustack x).

(** The process runs the image: it has a new name, size and address space, in
    which it sees the memory of the image with a guard page below the stack; its
    registers are set for the entry of the program; the pages of the old address
    space are free. *)
Definition exec_done (name : list Z) (im : image) (ps : list proc) s' : Prop :=
  ∃ c t d l',
    procs s' = upd_proc i (λ q, set_sz (im_size im) (set_pgdir c (set_name name q))) ps ∧
    uvm_inv kend (k_m s') c t d l' ∧ stacked d (im_size im) ∧
    (∀ va, uread (ram (k_m s')) d va = im_mem im va) ∧
    (∀ va, KERNBASE <= va < 4294967296 → pte_of (ram (k_m s')) t va = kvm_pte kdata va) ∧
    c :: tables t ++ dpages d ++ l' ≡ₚ pr_pgdir p :: tables tp ++ dpages dp ++ l0 ∧
    cr3 (k_m s') = V2P c ∧
    load32 (ram (k_m s')) (pr_tf p + 56) = im_entry im ∧ load32 (ram (k_m s')) (pr_tf p + 68) = im_sp im ∧
    (∀ x, clear l0 x → ¬ owned (pr_pgdir p) tp dp x → ¬ scratch ustack x →
       ¬ (pr_tf p <= x < pr_tf p + 76) → ram (k_m s') x = ram m0 x).

Definition name_of (path : list Z) : list Z := take 15 (drop (last_elem path 0 0) path).

Lemma exec_commit_run s path elf c t d l im :
  built kend kdata ustack m0 l0 (k_m s) c t d l → procs s !! i = Some p → quiet f dpt s → est_idle (k_fs s) →
  stacked d (im_size im) → (∀ va, uread (ram (k_m s)) d va = im_mem im va) →
  im_entry im = e_entry elf → 0 <= e_entry elf < 4294967296 → 0 <= im_sp im < 4294967296 →
  ∃ s', exec_commit kend i path elf c (im_size im) (im_sp im) s = Done 0 s' ∧ est_idle (k_fs s') ∧ quiet f dpt s' ∧
    exec_done (name_of path) im (procs s) s'.
Proof using kend_pos old_ok kstack_ok scratch_ok tf_ok.
  intros Hb Hp Hq Hi Hst Hu He He32 Hsp.
  pose proof (pi_dir _ _ _ _ _ (ui_pt _ _ _ _ _ _ (bu_inv _ _ _ _ _ _ _ _ _ _ Hb))) as Hv.
  apply valid_page_u32 in Hv; [|lia].
  assert (Hg1 : get_proc i (upd_proc i (set_name (name_of path)) (procs s)) = set_name (name_of path) p).
  { unfold get_proc, upd_proc. by rewrite list_lookup_alter_eq, Hp. }
  unfold exec_commit, upd. mrun. fold (name_of path). cbn [procs set_procs]. rewrite Hg1.
  cbn [pr_tf pr_pgdir set_name]. rewrite !upd_proc_twice.
  set (ps := upd_proc i _ (procs s)). set (s1 := set_procs ps _).
  mcall (on_m_run (st32 (pr_tf p + 56) (e_entry elf)) s1 tt _ eq_refl). set (s1' := set_k_m _ s1).
  mcall (on_m_run (st32 (pr_tf p + 68) (im_sp im)) s1' tt _ eq_refl). set (s2 := set_k_m _ s1').
  destruct (switchuvm_run f dpt s2 i (set_sz (im_size im) (set_pgdir c (set_name (name_of path) p))))
    as (s3 & Hsw & Hq3 & Hps3 & Hfs3 & Hm3); [done| |done|cbn; lia|].
  { change (procs s2) with ps. unfold ps, upd_proc. by rewrite list_lookup_alter_eq, Hp. }
  mcall Hsw. cbn [pr_pgdir set_sz set_pgdir] in Hm3.
  destruct (commit kend kend_pos kdata ustack m0 l0 (pr_pgdir p) tp dp old_ok
              ltac:(intros x Hx Hs; by apply scratch_ok in Hs as [_ ?]) (pr_tf p) tf_ok
              (k_m s) c t d l (e_entry elf) (im_sp im) (V2P c) Hb He32 Hsp)
    as (m' & l' & Hf & Hinv & Hpg & Hur & Hk & Hc3 & He' & Hs' & Hx).
  assert (Hf3 : freevm kend (pr_pgdir p) (k_m s3) = Done tt m') by (rewrite Hm3; exact Hf).
  mcall (on_m_run _ s3 _ _ Hf3). eexists. split; [reflexivity|]. split_and!; [by cbn; rewrite Hfs3|done|].
  exists c, t, d, l'. split; [exact Hps3|]. split; [done|]. split; [done|].
  split; [intros va; by etrans; [apply Hur|]|]. by rewrite He.
Qed.

(** What the end of exec gives: the image of the plan, or an error with the
    process as it was, for which the plan or the memory is the reason. *)
Definition exec_outcome (path : list Z) (pl : option image) s (r : Z) s' : Prop :=
  r = 0 ∧ (∃ im, pl = Some im ∧ exec_done (name_of path) im (procs s) s') ∨
  r = -1 ∧ procs s' = procs s ∧ restored m0 l0 (k_m s') ∧
    ∀ im, pl = Some im → Z.of_nat (length l0) <= 1026 + npg (im_size im).

Lemma outcome_bad path pl s s1 c t d l ip :
  built kend kdata ustack m0 l0 (k_m s1) c t d l → at_bad ip (k_fs s1) → quiet f dpt s → others s1 = others s →
  (∀ im, pl = Some im → Z.of_nat (length l0) <= 1026 + npg (im_size im)) →
  ∃ r s', exec_bad kend c ip s1 = Done r s' ∧ est_idle (k_fs s') ∧ quiet f dpt s' ∧ exec_outcome path pl s r s'.
Proof using kend_pos.
  intros Hb Hat Hq Ho Hpl. destruct (exec_bad_run m0 l0 s1 c t d l ip Hb Hat) as (s' & Hr & Ho' & Hi & Hres).
  exists (-1), s'. rewrite Ho in Ho'. injection Ho' as Hcpu _ _ _ Hps _ _ _.
  split_and!; [done..|by unfold quiet; rewrite Hcpu|]. right. by split_and!.
Qed.

Lemma exec_frame_run s s3 path cont c t d l top sp ptrs img :
  built kend kdata ustack m0 l0 (k_m s3) c t d l → others s3 = others s → procs s !! i = Some p → quiet f dpt s →
  est_idle (k_fs s3) → stacked d top → (∀ va, uread (ram (k_m s3)) d va = img va) →
  top mod 4096 = 0 → 8192 <= top < KERNBASE → top - 4096 <= sp <= top → pushed ustack (ram (k_m s3)) ptrs →
  (length ptrs <= 32)%nat → 0 <= e_entry (elfhdr_of cont) < 4294967296 →
  ∃ r s', exec_frame kend ustack i path (elfhdr_of cont) c top (Z.of_nat (length ptrs)) sp s3 = Done r s' ∧
    est_idle (k_fs s') ∧ quiet f dpt s' ∧ exec_outcome path (plan_frame cont top sp ptrs img) s r s'.
Proof using kend_pos kdata_ok kend_top old_ok kstack_ok ustack_ok scratch_ok tf_ok.
  intros Hb3 Ho3 Hp Hq Hfs3 Hstk Hu3 Htm Htop Hsp Hpush3 Hl He. unfold exec_frame.
  assert (Hsc : ∀ x, scratch ustack x → clear l0 x) by (intros x Hx; by apply scratch_ok).
  set (n := 4 * (4 + Z.of_nat (length ptrs))). set (sp2 := sp - n).
  assert (Hsp2 : 0 <= sp2 < 2147483648 ∧ 16 <= n <= 144) by (unfold sp2, n; kconst; lia).
  destruct (frame_stored m0 l0 (k_m s3) c t d l sp2 ptrs Hb3 Hsc Hpush3 Hl ltac:(lia)) as (Hb4 & Hu4 & Hw4).
  replace (u32 (sp - (Z.of_nat (length ptrs) + 1) * 4)) with (sp2 + 12) by (rewrite u32_small; unfold sp2, n in *; lia).
  replace (u32 (sp - (3 + Z.of_nat (length ptrs) + 1) * 4)) with sp2 by (rewrite u32_small; unfold sp2, n in *; lia).
  replace ((3 + Z.of_nat (length ptrs) + 1) * 4) with n by (unfold n; lia).
  mcall (on_m_run (st32 (ustack + 4 * (3 + Z.of_nat (length ptrs))) 0) s3 tt _ eq_refl). set (s4 := set_k_m _ s3).
  mcall (on_m_run (st32 ustack 0xFFFFFFFF) s4 tt _ eq_refl). set (s5 := set_k_m _ s4).
  mcall (on_m_run (st32 (ustack + 4) (Z.of_nat (length ptrs))) s5 tt _ eq_refl). set (s6 := set_k_m _ s5).
  mcall (on_m_run (st32 (ustack + 8) (sp2 + 12)) s6 tt _ eq_refl). set (s7 := set_k_m _ s6).
  change (set_ram _ (k_m s3)) with (k_m s7) in Hb4, Hu4, Hw4.
  destruct (copyout_stack kend kend_pos kdata ustack m0 l0 (k_m s7) c t d l top sp2 ustack n Hb4 Hstk)
    as (r & m8 & Hcp & Hst8 & Hres); [lia|lia|lia|lia|unfold sp2; lia|lia|lia|intros j Hj; apply Hsc; unfold scratch; lia|].
  mcall (on_m_run _ s7 _ _ Hcp). pose proof (built_step _ _ _ _ _ _ _ _ _ _ _ _ _ _ Hb4 Hst8) as Hb8.
  unfold plan_frame. fold n. fold sp2. assert (Ho7 : others s7 = others s) by exact Ho3.
  pose proof Ho7 as Ho8. injection Ho8 as Hcpu _ _ _ Hps _ _ _.
  destruct Hres as [(-> & Hge & Hread)|(-> & Hlt)]; cbn [Z.ltb Z.compare].
  - rewrite (proj2 (Z.ltb_ge _ _) Hge).
    set (im := Image top (e_entry (elfhdr_of cont)) sp2 (put img sp2 (word_byte (main_frame sp2 ptrs)) n)).
    destruct (exec_commit_run (set_k_m m8 s7) path (elfhdr_of cont) c t d l im)
      as (s' & Hr' & Hi' & Hq' & Hdone); try done.
    + cbn. by rewrite Hps.
    + unfold quiet. cbn. by rewrite Hcpu.
    + intros va. cbn [k_m set_k_m]. rewrite Hread. cbn [im im_mem]. unfold put. rewrite Hu4, Hu3. case_if; [|done..].
      apply words_at_byte; [|done|].
      * apply (ki_mem _ _ _ (pi_alloc _ _ _ _ _ (ui_pt _ _ _ _ _ _ (bu_inv _ _ _ _ _ _ _ _ _ _ Hb4)))).
      * unfold main_frame. cbn [length]. rewrite length_app. cbn [length]. unfold n in *. lia.
    + cbn. lia.
    + exists 0, s'. split_and!; [done..|]. left. split; [done|]. exists im. split; [done|].
      change (procs (set_k_m m8 s7)) with (procs s3) in Hdone. by rewrite Hps in Hdone.
  - apply (outcome_bad path _ s (set_k_m m8 s7) c t d l None); try done.
    by rewrite (proj2 (Z.ltb_lt _ _) Hlt).
Qed.

Lemma exec_stack_run fuel s path cont argv args c t d l sz img :
  built kend kdata ustack m0 l0 (k_m s) c t d l → procs s !! i = Some p → quiet f dpt s → est_idle (k_fs s) →
  full d sz → (∀ va, uread (ram (k_m s)) d va = img va) → 0 <= sz < KERNBASE →
  0 <= e_entry (elfhdr_of cont) < 4294967296 → Forall2 (arg_ok ustack fuel m0 l0) argv args →
  ∃ r s', exec_stack kend ustack fuel i path argv (elfhdr_of cont) c sz s = Done r s' ∧
    est_idle (k_fs s') ∧ quiet f dpt s' ∧ exec_outcome path (plan_stack cont args sz img) s r s'.
Proof using kend_pos kdata_ok kend_top old_ok kstack_ok ustack_ok scratch_ok tf_ok.
  intros Hb Hp Hq Hi Hfull Hu Hsz He Hargs. assert (Hsc : ∀ x, scratch ustack x → clear l0 x) by (intros x Hx; by apply scratch_ok).
  assert (Hrd : PGROUNDUP sz = 4096 * npg sz) by (apply PGROUNDUP_npg; kconst; lia).
  unfold exec_stack. rewrite Hrd. set (top := 4096 * npg sz + 8192).
  assert (Htop : 8192 <= top ∧ top mod 4096 = 0 ∧ top <= 2147483648 + 8192) by (unfold top, npg; kconst; zlia).
  unfold PGSIZE. change (2 * 4096) with 8192. rewrite (u32_small (_ + 8192)) by lia. fold top.
  destruct (built_grow kend kend_pos kdata ustack m0 l0 (k_m s) c t d l (4096 * npg sz) top Hb (full_roundup d sz Hfull))
    as (r & m1 & t1 & d1 & l1 & Hr & Hb1 & Hres); [unfold npg; kconst; zlia|lia|].
  mcall (on_m_run _ s _ _ Hr).
  destruct Hres as [(Htk & -> & Hf1 & Hu1)|(-> & Hsh)]; cycle 1.
  { cbn [Z.eqb]. apply (outcome_bad path _ s (set_k_m m1 s) c t1 d1 l1 None); try done. intros im Him.
    apply plan_stack_Some in Him as (ptrs & sp & img' & Ht & _ & _ & _ & ->). cbn [im_size]. fold top in Ht |- *.
    destruct Hsh; lia. }
  replace (Z.max (4096 * npg sz) top) with top in * by lia. ztest (top =? 0) is false.
  assert (Hq2 : top - 8192 = 4096 * (top / 4096 - 2)) by zlia. rewrite (u32_small (top - 8192)), Hq2 by lia.
  destruct (proj1 Hf1 (top / 4096 - 2)) as [u Hgu]; [unfold npg; zlia|].
  destruct (clearpteu_spec kend kend_pos m1 c t1 d1 l1 (top / 4096 - 2) u (bu_inv _ _ _ _ _ _ _ _ _ _ Hb1) Hgu) as (m2 & Hcl & Hst2 & Hu2).
  mcall (on_m_run _ (set_k_m m1 s) _ _ Hcl).
  pose proof (built_step _ _ _ _ _ _ _ _ _ _ _ _ _ _ Hb1 Hst2) as Hb2.
  pose proof (full_stacked d1 top u Hf1 ltac:(lia) ltac:(lia) Hgu) as Hstk.
  set (d2 := dm_set (top / 4096 - 2) (u, 3) d1) in *. set (s2 := set_k_m m2 _).
  destruct (push_args_run kend kend_pos kdata kdata_ok kend_top ustack ustack_ok m0 l0 Hsc fuel c t1 d2 l1 top args argv s2 top [] img)
    as (r & s3 & Hpush & Ho3 & Hfs3 & Hb3 & Hres); [done|done|done|lia|lia|lia|zlia| |done|cbn; lia|].
  { intros va. unfold s2. cbn [k_m set_k_m]. by rewrite Hu2, Hu1. }
  mcall Hpush. destruct r as [[argc sp]|]; cycle 1.
  { apply (outcome_bad path _ s s3 c t1 d2 l1 None); try done; [by rewrite Hfs3|].
    intros im (ptrs & sp & img' & _ & Hl & Hpa & _)%plan_stack_Some. fold top in Hpa.
    destruct Hres as [Hres|Hres]; [cbn in Hres; lia|congruence]. }
  destruct Hres as (ptrs & img' & Hpa & -> & Hl & Hsp & Hs4 & Hu3 & Hpush3). cbn [app] in *.
  assert (Hplan : plan_stack cont args sz img = plan_frame cont top sp ptrs img').
  { unfold plan_stack, MAXARG. fold top. pose proof (plan_args_length _ _ _ _ _ _ _ Hpa) as Hla.
    change (Z.of_nat 32) with 32. replace ((KERNBASE <=? top) || _) with false by lia. by rewrite Hpa. }
  rewrite Hplan. apply (exec_frame_run s s3 path cont c t1 d2 l1 top sp ptrs img'); try done || lia. by rewrite Hfs3.
Qed.

Lemma outcome_restored path pl s s' :
  procs s' = procs s → restored m0 l0 (k_m s') →
  (∀ im, pl = Some im → Z.of_nat (length l0) <= 1026 + npg (im_size im)) → exec_outcome path pl s (-1) s'.
Proof using Type. intros. right. by split_and!. Qed.

Lemma restored_same m : ram m = ram m0 → freelist m = freelist m0 → kmem_lock m = kmem_lock m0 → cr3 m = cr3 m0 → restored m0 l0 m.
Proof using old_ok.
  intros Hr Hf Hl Hc. exists l0. destruct (pi_alloc _ _ _ _ _ (ui_pt _ _ _ _ _ _ old_ok)) as [C1 C2 C3 C4 C5].
  split_and!; [|done|by intros; rewrite Hr|done]. split; rewrite ?Hr, ?Hf, ?Hl; done.
Qed.

(** The file is open and locked. *)
Lemma exec_file_run fuel s ip cont path argv args :
  k_m s = m0 → procs s !! i = Some p → quiet f dpt s → est_locked ip cont (k_fs s) →
  Forall2 (arg_ok ustack fuel m0 l0) argv args →
  ∃ r s', exec_file kend kdata ustack fuel i ip path argv s = Done r s' ∧
    est_idle (k_fs s') ∧ quiet f dpt s' ∧ exec_outcome path (plan cont args) s r s'.
Proof using kend_pos kdata_ok kend_top old_ok kstack_ok ustack_ok scratch_ok tf_ok.
  intros Hm Hp Hq Hlk Hargs. destruct (est_bytes _ _ _ Hlk) as [Hby Hlen].
  destruct (read_local_run ip cont 0 52 s Hlk) as (f1 & Hrd & Hlk1); [lia..|].
  pose proof (read_count_all cont 0 52 ltac:(lia) ltac:(lia) Hlen) as Hall.
  unfold exec_file. mcall Hrd. cbn [fst snd]. set (s1 := set_k_fs f1 s).
  assert (Hearly : plan cont args = None → ∃ r s', exec_bad kend 0 (Some ip) s1 = Done r s' ∧
    est_idle (k_fs s') ∧ quiet f dpt s' ∧ exec_outcome path (plan cont args) s r s').
  { intros ->. destruct (exec_bad_early s1 ip ltac:(by exists cont)) as (s' & Hr & Ho & Hm' & Hi).
    exists (-1), s'. injection Ho as Hcpu _ _ _ Hps _ _ _. split_and!; [done..|by unfold quiet; rewrite Hcpu|].
    apply outcome_restored; [done| |done]. apply restored_same; rewrite Hm'; cbn; by rewrite Hm. }
  destruct (decide (read_count cont 0 52 = 52)) as [E|Hne]; cycle 1.
  { ztest (read_count cont 0 52 =? 52) is false. apply Hearly, plan_bad. apply not_iff_compat in Hall. lia. }
  rewrite E, (elfhdr_read cont E). cbn [Z.eqb Pos.eqb negb].
  assert (H52 : 52 <= Z.of_nat (length cont)) by (by apply Hall).
  destruct (Z.eqb_spec (e_magic (elfhdr_of cont)) ELF_MAGIC) as [Hmg|Hmg]; cbn [negb]; cycle 1.
  { apply Hearly, plan_bad. by right. }
  clear Hearly. assert (mem_ok (file_at cont)) as Hok by (intros x; by apply file_at_range).
  assert (He : 0 <= e_entry (elfhdr_of cont) < 4294967296 ∧ 0 <= e_phoff (elfhdr_of cont) < 4294967296)
    by (split; by apply load32_range).
  pose proof (pi_alloc _ _ _ _ _ (ui_pt _ _ _ _ _ _ old_ok)) as Ha. rewrite (plan_good cont args H52 Hmg).
  destruct (setupkvm_built kend kend_pos kdata kdata_ok kend_top ustack m0 l0 Ha)
    as [(m & l & Hr & Hal & Hl & Hx & _ & Hc & Hsh)|(c & m & t & l & Hr & Hc0 & Hb)];
    rewrite <- Hm in Hr; mcall (on_m_run _ s1 _ _ Hr).
  { cbn [Z.eqb]. destruct (exec_bad_early (set_k_m m s1) ip ltac:(by exists cont)) as (s' & Hbr & Ho & Hm' & Hi).
    exists (-1), s'. injection Ho as Hcpu _ _ _ Hps _ _ _. split_and!; [done..|by unfold quiet; rewrite Hcpu|].
    apply outcome_restored; [done|rewrite Hm'; exists l; split_and!; try done; by intros; apply Hx|].
    intros im ([sz img] & Hs & Him)%bind_Some. apply plan_stack_Some in Him as (ptrs & sp & img' & _ & _ & _ & _ & ->).
    apply plan_segments_mono in Hs. cbn in *. unfold npg. zlia. }
  ztest (c =? 0) is false. set (s2 := set_k_m m s1).
  destruct (load_segments_run kend kend_pos kdata ustack ip cont (Z.to_nat (e_phnum (elfhdr_of cont))) s2 m0 l0 c t (λ _, None) l
              (e_phoff (elfhdr_of cont)) 0 (λ _, 0)) as (r & s3 & t3 & d3 & l3 & Hrun & Ho3 & Hlk3 & Hb3 & Hres);
    [done|split; [intros q Hz; change (npg 0) with 0 in Hz; lia|done]|done|done|kconst; lia|lia|].
  mcall Hrun. destruct r as [sz|]; cycle 1.
  { apply (outcome_bad path _ s s3 c t3 d3 l3 (Some ip)); try done; [by exists cont|].
    intros im ([sz img] & Hs & Him)%bind_Some. apply Hres in Hs.
    apply plan_stack_Some in Him as (ptrs & sp & img' & _ & _ & _ & _ & ->). cbn in *. unfold npg in *. zlia. }
  destruct Hres as (img & Hs & Hsz & Hf3 & Hu3). rewrite Hs. cbn [mbind option_bind fst snd].
  destruct (est_iunlockput _ _ _ Hlk3) as (f4 & H4 & Hop). destruct (est_end _ Hop) as (f5 & H5 & Hi5).
  mcall (on_fs_run _ s3 _ _ H4). mcall (on_fs_run _ (set_k_fs f4 s3) _ _ H5). set (s5 := set_k_fs f5 _).
  assert (Ho5 : others s5 = others s) by exact Ho3. injection Ho5 as Hcpu _ _ _ Hps _ _ _.
  destruct (exec_stack_run fuel s5 path cont argv args c t3 d3 l3 sz img)
    as (r & s' & Hr' & Hi' & Hq' & Hout); try done; [cbn; by rewrite Hps|by unfold quiet; cbn; rewrite Hcpu|lia|].
  exists r, s'. split_and!; [done..|]. unfold exec_outcome in *. change (procs s5) with (procs s3) in Hout. by rewrite Hps in Hout.
Qed.

(** exec, called by the running process. *)
Lemma exec_run fuel s path pbytes argv args :
  k_m s = m0 → procs s !! i = Some p → cproc s = Some i → quiet f dpt s → est_idle (k_fs s) →
  str_at (ram m0) path pbytes → Z.of_nat (length pbytes) < 2147483648 → (length pbytes < fuel)%nat →
  Forall2 (arg_ok ustack fuel m0 l0) argv args →
  ∃ r s', exec kend kdata ustack fuel path argv s = Done r s' ∧ est_idle (k_fs s') ∧ quiet f dpt s' ∧
    exec_outcome pbytes (cont ← est_file (k_fs s) (pr_cwd p) pbytes; plan cont args) s r s'.
Proof using kend_pos kdata_ok kend_top old_ok kstack_ok ustack_ok scratch_ok tf_ok.
  intros Hm Hp Hcur Hq Hi Hpath Hpl Hpf Hargs.
  destruct (curproc_run f dpt s i Hq Hcur) as (cp & Hc & Hq1). unfold exec. mcall Hc. set (s1 := set_k_cpu cp s).
  destruct (est_begin _ Hi) as (f1 & Hb & Hop & Hsame). mcall (on_fs_run eo_begin_op s1 _ _ Hb). set (s2 := set_k_fs f1 s1).
  assert (Hm2 : k_m s2 = m0) by exact Hm.
  mcall (get_strlen_run fuel s2 path pbytes ltac:(rewrite Hm2; exact Hpath) Hpl Hpf).
  rewrite Nat2Z.id, Hm2, (str_at_bytes _ _ _ Hpath).
  assert (get_proc i (procs s2) = p) as -> by (unfold get_proc; change (procs s2) with (procs s); by rewrite Hp).
  destruct (est_namei f1 (pr_cwd p) pbytes Hop) as (f3 & Hn). rewrite Hsame in Hn.
  destruct (est_file (k_fs s) (pr_cwd p) pbytes) as [cont|]; cycle 1.
  - destruct Hn as [Hn Hop3]. mcall (on_fs_run _ s2 _ _ Hn). destruct (est_end _ Hop3) as (f4 & He & Hi4).
    mcall (on_fs_run eo_end_op (set_k_fs f3 s2) _ _ He). set (s4 := set_k_fs f4 _).
    mcall (on_m_run (cprintf "exec: fail") s4 tt _ eq_refl).
    eexists (-1), _. split; [reflexivity|]. split_and!; [done..|]. apply outcome_restored; [done| |done].
    apply restored_same; cbn; by rewrite Hm.
  - destruct Hn as (ip & Hn & Hrf). mcall (on_fs_run _ s2 _ _ Hn).
    destruct (est_ilock _ _ _ Hrf) as (f4 & Hlk & Hl4). mcall (on_fs_run _ (set_k_fs f3 s2) _ _ Hlk).
    apply (exec_file_run fuel (set_k_fs f4 (set_k_fs f3 s2)) ip cont pbytes argv args); done.
Qed.
End process.

(** The state in which a process calls exec: it runs in its address space, its
    trap frame and the local variables of exec are on its kernel stack, apart
    from the address space and the free pages [l], and no transaction is open. *)
Record exec_ready (f : bool) (dpt : Z) s (i : nat) (p : proc) (tp : Z → option Z) (dp : Z → option (Z * Z)) (l : list Z) : Prop := {
  er_cur : cproc s = Some i;
  er_proc : procs s !! i = Some p;
  er_quiet : quiet f dpt s;
  er_idle : est_idle (k_fs s);
  er_space : uvm_inv kend (k_m s) (pr_pgdir p) tp dp l;
  er_kstack : pr_kstack p ≠ 0;
  er_ustack : 0 <= ustack ∧ ustack + 144 < 4294967296;
  er_scratch : ∀ x, scratch ustack x → clear l x ∧ ¬ owned (pr_pgdir p) tp dp x;
  er_tf : ∀ x, pr_tf p <= x < pr_tf p + 76 →
    clear l x ∧ ¬ owned (pr_pgdir p) tp dp x ∧ ¬ scratch ustack x
}.


(** C8 When [exec] returns 0, main finds its arguments: at the stack pointer the
    registers hold there are the number of arguments and an array of as many
    pointers and a null pointer, and each pointer leads to the string of the
    caller, in the memory the process sees through its new page table. *)
Theorem exec_passes_arguments f dpt s i p tp dp l fuel path pbytes argv args s' :
  exec_ready f dpt s i p tp dp l → str_at (ram (k_m s)) path pbytes →
  Z.of_nat (length pbytes) < 2147483648 → (length pbytes < fuel)%nat →
  Forall2 (arg_ok ustack fuel (k_m s) l) argv args →
  exec kend kdata ustack fuel path argv s = Done 0 s' →
  ∃ q t d l', procs s' !! i = Some q ∧ uvm_inv kend (k_m s') (pr_pgdir q) t d l' ∧ pr_tf q = pr_tf p ∧
    main_args (uread (ram (k_m s')) d) (load32 (ram (k_m s')) (pr_tf q + 68)) args.
Proof using kend_pos kdata_ok kend_top.
  intros [Hcur Hp Hq Hi Hsp Hk Hu Hsc Htf] Hpath Hpl Hpf Hargs Hrun.
  destruct (exec_run (k_m s) l i p tp dp f dpt Hsp Hk Hu Hsc Htf fuel s path pbytes argv args)
    as (r & s1 & Hr & _ & _ & Hout); try done.
  rewrite Hr in Hrun. injection Hrun as -> ->. destruct Hout as [(_ & im & Hpl' & Hd)|(? & _)]; [|done].
  apply bind_Some in Hpl' as (cont & _ & Hplan).
  destruct Hd as (c & t & d & l' & Hps & Hinv & _ & Hread & _ & _ & _ & _ & Hesp & _).
  exists (set_sz (im_size im) (set_pgdir c (set_name (name_of pbytes) p))), t, d, l'.
  split_and!; [|done|done|].
  - rewrite Hps. unfold upd_proc. by rewrite list_lookup_alter_eq, Hp.
  - cbn [pr_tf set_sz set_pgdir set_name]. rewrite Hesp. eapply main_args_ext; [|by eapply plan_main_args]. intros x. by rewrite Hread.
Qed.

(** ** sys_exec *)

(** A string that [fetchstr] accepts. *)
Lemma fetchstr_str m sz a n :
  fetchstr m sz a = Some n → 0 <= a → sz <= 2147483648 → mem_ok m →
  ∃ w, Z.of_nat (length w) = n ∧ a + n < sz ∧ str_at m a w.
Proof using Type.
  unfold fetchstr. intros H Ha Hsz Hm. rewrite Z.geb_leb in H. destruct (Z.leb_spec sz a); [done|].
  pose proof (fetchstr_loop_spec m sz a (Z.to_nat (sz - a)) 0 ltac:(intros; lia) ltac:(lia) ltac:(lia)) as Hs.
  rewrite H in Hs. destruct Hs as (Hn & Hlt & Hz & Hnz).
  exists (bytes_at m a (Z.to_nat n)). rewrite bytes_at_length, Z2Nat.id by lia. split_and!; [done|done|].
  assert (Hb : ∀ i, 0 <= i < n → bytes_at m a (Z.to_nat n) !! Z.to_nat i = Some (m (a + i))).
  { intros i Hi. rewrite bytes_at_lookup by lia. by rewrite Z2Nat.id by lia. }
  unfold str_at. rewrite bytes_at_length, Z2Nat.id by lia. split_and!; [done|lia| |].
  - apply Forall_lookup. intros k b Hk. pose proof (lookup_lt_Some _ _ _ Hk) as Hl. rewrite bytes_at_length in Hl.
    specialize (Hb (Z.of_nat k) ltac:(lia)). rewrite Nat2Z.id, Hk in Hb. injection Hb as ->. apply Hnz. lia.
  - intros i Hi. unfold str_byte. destruct (decide (i = n)) as [->|Hne]; [|by rewrite Hb by lia].
    by rewrite lookup_ge_None_2 by (rewrite bytes_at_length; lia).
Qed.

(** The addresses of a process are in no page of the kernel. *)
Lemma user_clear m l x : kalloc_inv kend m l → x < KERNBASE → clear l x.
Proof using kend_pos.
  intros Ha Hx q Hq Hin. pose proof (proj1 (Forall_forall _ _) (ki_valid _ _ _ Ha) q Hq) as (_ & Hk & _).
  unfold in_page in Hin. lia.
Qed.

Lemma fetch_args_ok m l sz uargv n : ∀ i argv,
  kalloc_inv kend m l → KERNBASE <= ustack → 0 <= sz <= 0x1FFFFF8 →
  fetch_args n (ram m) sz uargv i = Some argv → ∃ args, Forall2 (arg_ok ustack (Z.to_nat sz) m l) argv args.
Proof using kend_pos.
  induction n as [|n IH]; intros i argv Ha Hu Hsz H; cbn [fetch_args] in H; [done|].
  destruct (fetchint _ _ _) as [uarg|]; [|done]. destruct (Z.eqb_spec (u32 uarg) 0) as [_|_]; [simplify_eq; by exists []|].
  destruct (fetchstr _ _ _) as [k|] eqn:E; [|done]. apply fmap_Some in H as (argv' & H & ->).
  destruct (IH _ _ Ha Hu Hsz H) as [args Hargs].
  pose proof (u32_range uarg).
  destruct (fetchstr_str _ _ _ _ E) as (w & <- & Hlt & Hstr); [lia|lia|apply (ki_mem _ _ _ Ha)|].
  exists (w :: args). constructor; [|done]. split_and!; [done| |lia|lia].
  intros j Hj. split; [apply (user_clear m); [done|kconst; lia]|unfold scratch; kconst; lia].
Qed.

(** The path and the arguments a process asks for: its first argument points to
    the path, its second to an array of pointers to the strings. *)
Definition exec_request (m : mem) (p : proc) (pbytes : list Z) (args : list (list Z)) : Prop :=
  ∃ path n uargv argv,
    argstr m (pr_sz p) (load32 m (pr_tf p + 68)) 0 = Some (path, n) ∧ str_at m path pbytes ∧
    argint m (pr_sz p) (load32 m (pr_tf p + 68)) 1 = Some uargv ∧
    fetch_args MAXARG m (pr_sz p) (u32 uargv) 0 = Some argv ∧ Forall2 (str_at m) argv args.

End whole.

(** ** A program that is executed

    One file, in whose life the calls come in the right order; any other order
    panics. *)

Inductive demo_phase : Type := Idle | InOp | Held | Locked.

Definition demo_move (a b : demo_phase) : M demo_phase unit := λ f,
  match a, f with
  | Idle, Idle | InOp, InOp | Held, Held | Locked, Locked => Done tt b
  | _, _ => Panic "order"
  end.

(** A header, one program header and the four bytes of its segment, which is
    eight bytes long in memory. *)
Definition demo_elf : list Z :=
  [0x7F; 0x45; 0x4C; 0x46] ++ replicate 20 0 ++ [0; 0; 0; 0; 52; 0; 0; 0] ++ replicate 12 0 ++ [1; 0] ++ replicate 6 0 ++
  [1; 0; 0; 0; 84; 0; 0; 0; 0; 0; 0; 0; 0; 0; 0; 0; 4; 0; 0; 0; 8; 0; 0; 0] ++ replicate 8 0 ++ [1; 2; 3; 4].

#[export] Instance demo_exec_ops : ExecOps demo_phase := {|
  eo_begin_op := demo_move Idle InOp;
  eo_end_op := demo_move InOp Idle;
  eo_namei _ _ := demo_move InOp Held ;;; ret (Some 1%nat);
  eo_ilock _ := demo_move Held Locked;
  eo_iunlockput _ := demo_move Locked InOp;
  eo_readi _ m dst off n := demo_move Locked Locked ;;; ret (read_count demo_elf off n, read_into demo_elf m dst off n)
|}.

#[export] Program Instance demo_exec_store : ExecStore demo_phase := {|
  est_file _ _ _ := Some demo_elf;
  est_idle f := f = Idle;
  est_op f := f = InOp;
  est_ref _ c f := c = demo_elf ∧ f = Held;
  est_locked _ c f := c = demo_elf ∧ f = Locked
|}.
Next Obligation. intros f ->. by exists InOp. Qed.
Next Obligation. intros f cwd p ->. exists Held. by exists 1%nat. Qed.
Next Obligation. intros f ip c [-> ->]. by exists Locked. Qed.
Next Obligation. intros f ip c [-> ->]. split; [vmdec|by vm_compute]. Qed.
Next Obligation. intros f ip c m dst off n [-> ->] _ _. by exists Locked. Qed.
Next Obligation. intros f ip c [-> ->]. by exists InOp. Qed.
Next Obligation. intros f ->. by exists Idle. Qed.

(** The address space of [demo_space] and 1100 free pages from 0x80600000 on,
    each with the address of the next. *)
Definition demo_free : list Z := page_seq 0x80600000 1100.
Definition demo_link (x : Z) : Z :=
  if x / 4096 =? 0x80600 + 1099 then 0 else (x / 4096 + 1) * 4096.
Definition exec_machine : machine :=
  Machine (λ x, if (0x80600000 <=? x) && (x <? 0x80600000 + 4096 * 1100)
                then if x mod 4096 <? 4 then (demo_link x / 256 ^ (x mod 4096)) mod 256 else 0
                else ram demo_space x)
          false true 0x80600000 0 0 [].

Lemma exec_machine_link k : 0 <= k < 1100 →
  load32 (ram exec_machine) (0x80600000 + 4096 * k) = if k =? 1099 then 0 else 0x80600000 + 4096 * (k + 1).
Proof.
  intros Hk. assert (Hb : ∀ j, 0 <= j < 4 → ram exec_machine (0x80600000 + 4096 * k + j) =
    ((if k =? 1099 then 0 else 0x80600000 + 4096 * (k + 1)) / 256 ^ j) mod 256).
  { intros j Hj. unfold exec_machine. cbn [ram]. replace ((_ <=? _) && _) with true by lia.
    replace ((0x80600000 + 4096 * k + j) mod 4096) with j by zlia. replace (j <? 4) with true by lia.
    unfold demo_link. replace ((0x80600000 + 4096 * k + j) / 4096) with (0x80600 + k) by zlia.
    do 2 f_equal. repeat case_if; lia. }
  unfold load32. pose proof (Hb 0 ltac:(lia)) as H0. rewrite Z.add_0_r in H0. rewrite H0, (Hb 1), (Hb 2), (Hb 3) by lia.
  change (256 ^ 0) with 1. change (256 ^ 1) with 256. change (256 ^ 2) with 65536. change (256 ^ 3) with 16777216.
  case_if; [done|zlia].
Qed.

Lemma exec_machine_chain n : ∀ k, k + Z.of_nat n = 1100 → 0 <= k →
  free_chain (ram exec_machine) (if k =? 1100 then 0 else 0x80600000 + 4096 * k) (page_seq (0x80600000 + 4096 * k) n).
Proof.
  induction n as [|n IH]; intros k Hk H0; cbn [page_seq free_chain].
  - by replace k with 1100 by lia.
  - rewrite (proj2 (Z.eqb_neq k 1100)) by lia. split; [done|]. rewrite exec_machine_link by lia.
    pose proof (IH (k + 1) ltac:(lia) ltac:(lia)) as Hc. replace (0x80600000 + 4096 * (k + 1)) with (0x80600000 + 4096 * k + 4096) in * by lia.
    destruct (Z.eqb_spec k 1099) as [->|]; [exact Hc|]. by rewrite (proj2 (Z.eqb_neq (k + 1) 1100)) in Hc by lia.
Qed.

Lemma demo_free_elem q : q ∈ demo_free → ∃ k, 0 <= k < 1100 ∧ q = 0x80600000 + 4096 * k.
Proof. intros (j & Hj & ->)%page_seq_elem. exists (Z.of_nat j). lia. Qed.

Lemma exec_machine_alloc : kalloc_inv demo_kend exec_machine demo_free.
Proof.
  split.
  - exact (exec_machine_chain 1100 0 eq_refl ltac:(lia)).
  - apply page_seq_nodup.
  - apply Forall_forall. intros q (k & Hk & ->)%demo_free_elem. apply demo_page; [zlia|].
    unfold demo_kend. kconst. lia.
  - done.
  - intros x. unfold exec_machine. cbn [ram]. repeat case_if; try lia; try zlia;
      apply (ki_mem _ _ _ (pi_alloc _ _ _ _ _ demo_pt)).
Qed.

Lemma demo_owned x : owned 0x80400000 demo_tab demo_dm x → 0x80400000 <= x < 0x80403000.
Proof.
  unfold owned, in_page. intros [?|[(i & t & [_ ->]%demo_tab_Some & ?)|(pn & u & g & (_ & -> & _)%demo_dm_Some & ?)]]; lia.
Qed.

Lemma demo_clear x : x < 0x80600000 → clear demo_free x.
Proof. intros Hx q (k & Hk & ->)%demo_free_elem. unfold in_page. lia. Qed.

Lemma exec_machine_space : uvm_inv demo_kend exec_machine 0x80400000 demo_tab demo_dm demo_free.
Proof.
  eapply uvm_inv_keep; [exact demo_uvm|exact exec_machine_alloc| |].
  - intros x Hx%demo_owned. unfold exec_machine. cbn [ram]. by replace ((_ <=? _) && _) with false by lia.
  - intros q (k & Hk & ->)%demo_free_elem Ho%demo_owned. lia.
Qed.

Definition exec_proc : proc :=
  Proc 4096 0x80400000 0x80403000 RUNNING 1 None 0x80403fb4 0x80403f9c 0 false (replicate NOFILE None) (Some 0%nat) [].
Definition exec_kstate : kstate demo_phase :=
  KState exec_machine (Cpu 0 false true) (Some 0%nat) 0 false [exec_proc] 2 (Some 0%nat) false Idle.

Lemma exec_kstate_ready : exec_ready demo_kend 0x80403100 true 0 exec_kstate 0 exec_proc demo_tab demo_dm demo_free.
Proof.
  split; [done..|exact exec_machine_space|done|lia| |].
  - intros x Hx. unfold scratch in Hx. split; [apply demo_clear; lia|]. intros Ho%demo_owned. lia.
  - cbn [pr_tf exec_proc pr_pgdir]. intros x Hx. unfold scratch. split_and!; [apply demo_clear; lia| |lia].
    intros Ho%demo_owned. lia.
Qed.

(** The empty string, at address 0. *)
Lemma demo_empty : str_at (ram exec_machine) 0 [].
Proof. split_and!; try done. intros i Hi. cbn in Hi. by replace i with 0 by lia. Qed.

Lemma demo_arg : Forall2 (arg_ok 0x80403100 1 (k_m exec_kstate) demo_free) [0] [[]].
Proof.
  apply Forall2_cons. split; [|apply Forall2_nil; done]. split; [exact demo_empty|].
  split; [|split; cbn; lia]. intros i Hi. cbn in Hi. split; [apply demo_clear; lia|unfold scratch; lia].
Qed.

(** There are pages enough for it. *)
Lemma demo_enough : (∀ im, plan demo_elf [[]] = Some im → Z.of_nat (length demo_free) <= 1026 + npg (im_size im)) → False.
Proof.
  intros Hm. assert (Hsz : im_size <$> plan demo_elf [[]] = Some 12288) by (vm_compute; reflexivity).
  assert (Hl : Z.of_nat (length demo_free) = 1100) by (vm_compute; reflexivity).
  destruct (plan demo_elf [[]]) as [im|]; [|discriminate Hsz]. injection Hsz as Hsz.
  specialize (Hm im eq_refl). rewrite Hl, Hsz in Hm. change (npg 12288) with 3 in Hm. lia.
Qed.

Lemma exec_kstate_run : ∃ s', exec demo_kend demo_data 0x80403100 1 0 [0] exec_kstate = Done 0 s'.
Proof.
  destruct exec_kstate_ready as [Hcur Hp Hq Hi Hsp Hk Hu Hsc Htf].
  destruct (exec_run demo_kend demo_kend_pos demo_data demo_kdata_ok demo_kend_top 0x80403100 exec_machine demo_free 0
              exec_proc demo_tab demo_dm true 0 Hsp Hk Hu Hsc Htf 1 exec_kstate 0 [] [0] [[]])
    as (r & s' & Hr & _ & _ & Hout); [done|exact Hp|exact Hcur|exact Hq|exact Hi|exact demo_empty|cbn; lia|cbn; lia|exact demo_arg|].
  destruct Hout as [(-> & _)|(_ & _ & _ & Hm)]; [by exists s'|]. by destruct (demo_enough Hm).
Qed.


Lemma exec_passes_arguments_witness :
  ∃ s' q d, exec demo_kend demo_data 0x80403100 1 0 [0] exec_kstate = Done 0 s' ∧ procs s' !! 0%nat = Some q ∧
    main_args (uread (ram (k_m s')) d) (load32 (ram (k_m s')) (pr_tf q + 68)) [[]].
Proof.
  destruct exec_kstate_run as [s' Hs].
  destruct (exec_passes_arguments demo_kend demo_kend_pos demo_data demo_kdata_ok demo_kend_top 0x80403100
              true 0 exec_kstate 0 exec_proc demo_tab demo_dm demo_free 1 0 [] [0] [[]] s' exec_kstate_ready demo_empty)
    as (q & t & d & l' & H1 & _ & _ & H2); [cbn; lia|cbn; lia|exact demo_arg|exact Hs|].
  exists s', q, d. split; [exact Hs|]. split; [exact H1|exact H2].
Defined.

