(* ===== verification/Sh.v ===== *)
(** * The shell (sh.c): the parser

    The line is a NUL-terminated string in memory; [ps], [es], [q] and [eq] are
    addresses in it.  The structures that the constructors allocate are the
    elements of [sh_nodes], a pointer to one is its index: [parseexec] fills in
    the arguments of a node that redirections may already point to.  [panic]
    ends the process, here the outcome [Panic]. *)

From Stdlib Require Import ZArith Lia String Ascii.
From stdpp Require Import base numbers list strings.
From S2P Require Import Prelude Mem Str Sysfile.

Definition MAXARGS : nat := 10.

(** [struct cmd] and its variants; [argv] and [eargv] are arrays of MAXARGS
    pointers, 0 for none. *)
Inductive node : Type :=
| EXEC (argv eargv : list Z)
| REDIR (cmd : nat) (file efile : Z) (mode fd : Z)
| PIPE (left right : nat)
| LIST (left right : nat)
| BACK (cmd : nat).

Record shell : Type := Shell { sh_mem : mem; sh_nodes : list node }.
Definition set_sh_mem (m : mem) (s : shell) : shell := Shell m (sh_nodes s).
Definition set_sh_nodes (l : list node) (s : shell) : shell := Shell (sh_mem s) l.

Definition new_node (n : node) : M shell nat :=
  l <- gets sh_nodes ;;
  modify (set_sh_nodes (l ++ [n])) ;;;
  ret (length l).

Definition execcmd : M shell nat := new_node (EXEC (replicate MAXARGS 0) (replicate MAXARGS 0)).
Definition redircmd (subcmd : nat) (file efile mode fd : Z) : M shell nat := new_node (REDIR subcmd file efile mode fd).
Definition pipecmd (left right : nat) : M shell nat := new_node (PIPE left right).
Definition listcmd (left right : nat) : M shell nat := new_node (LIST left right).
Definition backcmd (subcmd : nat) : M shell nat := new_node (BACK subcmd).

(** The characters of a string constant; [strchr] on it finds no NUL. *)
Definition chr (c : ascii) : Z := Z.of_nat (nat_of_ascii c).
Definition chars (s : string) : list Z := chr <$> String.list_ascii_of_string s.
Definition whitespace : list Z := [32; 9; 13; 10; 11].
Definition symbols : list Z := chars "<|>&;()".
Definition is_in (l : list Z) (c : Z) : bool := existsb (Z.eqb c) l.

(** [while(s < es && strchr(whitespace, *s)) s++]; [k] is [es - s]. *)
Fixpoint skip_space (m : mem) (k : nat) (s : Z) : Z :=
  match k with
  | O => s
  | S k' => if is_in whitespace (m s) then skip_space m k' (s + 1) else s
  end.

(** The characters of a word. *)
Fixpoint skip_word (m : mem) (k : nat) (s : Z) : Z :=
  match k with
  | O => s
  | S k' => if negb (is_in whitespace (m s)) && negb (is_in symbols (m s)) then skip_word m k' (s + 1) else s
  end.

Definition TOK_WORD : Z := 97.
Definition TOK_APPEND : Z := 43.

(** The token, [*q], [*eq] and the new [*ps]. *)
Definition gettoken (ps es : Z) : M shell (Z * Z * Z * Z) :=
  m <- gets sh_mem ;;
  let q := skip_space m (Z.to_nat (es - ps)) ps in
  let c := m q in
  let '(tok, eq) :=
    if c =? 0 then (c, q)
    else if is_in (chars "|();&<") c then (c, q + 1)
    else if c =? 62 then if m (q + 1) =? 62 then (TOK_APPEND, q + 2) else (c, q + 1)
    else (TOK_WORD, skip_word m (Z.to_nat (es - q)) q) in
  ret (tok, q, eq, skip_space m (Z.to_nat (es - eq)) eq).

(** The result of the test and the new [*ps]. *)
Definition peek (ps es : Z) (toks : string) : M shell (bool * Z) :=
  m <- gets sh_mem ;;
  let s := skip_space m (Z.to_nat (es - ps)) ps in
  ret (negb (m s =? 0) && is_in (chars toks) (m s), s).

(** The parsing functions return the command and the new [*ps]. *)
Fixpoint parseredirs (fuel : nat) (cmd : nat) (ps es : Z) : M shell (nat * Z) :=
  match fuel with
  | O => nofuel
  | S fuel' =>
      p <- peek ps es "<>" ;;
      let '(more, ps) := p in
      if negb more then ret (cmd, ps)
      else
        t <- gettoken ps es ;;
        let '(tok, _, _, ps) := t in
        t <- gettoken ps es ;;
        let '(tok2, q, eq, ps) := t in
        if negb (tok2 =? TOK_WORD) then panic "missing file for redirection"
        else
          cmd <- (if tok =? 60 then redircmd cmd q eq O_RDONLY 0
                  else if tok =? 62 then redircmd cmd q eq (Z.lor O_WRONLY O_CREATE) 1
                  else if tok =? TOK_APPEND then redircmd cmd q eq (Z.lor O_WRONLY O_CREATE) 1
                  else ret cmd) ;;
          parseredirs fuel' cmd ps es
  end.

(** [cmd->argv[argc] = q; cmd->eargv[argc] = eq] on the node of an [execcmd]. *)
Definition set_arg (cmd argc : nat) (q eq : Z) : M shell unit :=
  modify (λ s, set_sh_nodes (alter (λ n, match n with
    | EXEC a e => EXEC (<[argc := q]> a) (<[argc := eq]> e)
    | _ => n end) cmd (sh_nodes s)) s).

(** The loop over the arguments; [cmd] is the exec node, [ret] what is built
    around it. *)
Fixpoint parseargs (fuel : nat) (cmd ret_ argc : nat) (ps es : Z) : M shell (nat * Z) :=
  match fuel with
  | O => nofuel
  | S fuel' =>
      p <- peek ps es "|)&;" ;;
      let '(stop, ps) := p in
      if stop then set_arg cmd argc 0 0 ;;; ret (ret_, ps)
      else
        t <- gettoken ps es ;;
        let '(tok, q, eq, ps) := t in
        if tok =? 0 then set_arg cmd argc 0 0 ;;; ret (ret_, ps)
        else if negb (tok =? TOK_WORD) then panic "syntax"
        else
          set_arg cmd argc q eq ;;;
          let argc := S argc in
          if (MAXARGS <=? argc)%nat then panic "too many args"
          else
            r <- parseredirs fuel' ret_ ps es ;;
            let '(ret_, ps) := r in
            parseargs fuel' cmd ret_ argc ps es
  end.

(** [while(peek(ps, es, "&"))] of [parseline]. *)
Fixpoint parseback (fuel : nat) (cmd : nat) (ps es : Z) : M shell (nat * Z) :=
  match fuel with
  | O => nofuel
  | S fuel' =>
      p <- peek ps es "&" ;;
      let '(more, ps) := p in
      if negb more then ret (cmd, ps)
      else
        t <- gettoken ps es ;;
        let '(_, _, _, ps) := t in
        cmd <- backcmd cmd ;;
        parseback fuel' cmd ps es
  end.

Fixpoint parseline (fuel : nat) (ps es : Z) : M shell (nat * Z) :=
  match fuel with
  | O => nofuel
  | S fuel' =>
      r <- parsepipe fuel' ps es ;;
      let '(cmd, ps) := r in
      r <- parseback fuel' cmd ps es ;;
      let '(cmd, ps) := r in
      p <- peek ps es ";" ;;
      let '(more, ps) := p in
      if more then
        t <- gettoken ps es ;;
        let '(_, _, _, ps) := t in
        r <- parseline fuel' ps es ;;
        let '(rcmd, ps) := r in
        cmd <- listcmd cmd rcmd ;;
        ret (cmd, ps)
      else ret (cmd, ps)
  end
with parsepipe (fuel : nat) (ps es : Z) : M shell (nat * Z) :=
  match fuel with
  | O => nofuel
  | S fuel' =>
      r <- parseexec fuel' ps es ;;
      let '(cmd, ps) := r in
      p <- peek ps es "|" ;;
      let '(more, ps) := p in
      if more then
        t <- gettoken ps es ;;
        let '(_, _, _, ps) := t in
        r <- parsepipe fuel' ps es ;;
        let '(rcmd, ps) := r in
        cmd <- pipecmd cmd rcmd ;;
        ret (cmd, ps)
      else ret (cmd, ps)
  end
with parseexec (fuel : nat) (ps es : Z) : M shell (nat * Z) :=
  match fuel with
  | O => nofuel
  | S fuel' =>
      p <- peek ps es "(" ;;
      let '(block, ps) := p in
      if block then parseblock fuel' ps es
      else
        cmd <- execcmd ;;
        r <- parseredirs fuel' cmd ps es ;;
        let '(ret_, ps) := r in
        parseargs fuel' cmd ret_ 0 ps es
  end
with parseblock (fuel : nat) (ps es : Z) : M shell (nat * Z) :=
  match fuel with
  | O => nofuel
  | S fuel' =>
      p <- peek ps es "(" ;;
      let '(open, ps) := p in
      if negb open then panic "parseblock"
      else
        t <- gettoken ps es ;;
        let '(_, _, _, ps) := t in
        r <- parseline fuel' ps es ;;
        let '(cmd, ps) := r in
        p <- peek ps es ")" ;;
        let '(close, ps) := p in
        if negb close then panic "syntax - missing )"
        else
          t <- gettoken ps es ;;
          let '(_, _, _, ps) := t in
          parseredirs fuel' cmd ps es
  end.

(** [for(i=0; ecmd->argv[i]; i++) *ecmd->eargv[i] = 0]. *)
Fixpoint terminate_args (m : mem) (argv eargv : list Z) : mem :=
  match argv, eargv with
  | a :: argv', e :: eargv' => if a =? 0 then m else terminate_args (store8 m e 0) argv' eargv'
  | _, _ => m
  end.

Definition write0 (a : Z) : M shell unit := modify (λ s, set_sh_mem (store8 (sh_mem s) a 0) s).

(** [fuel] bounds the height of the tree. *)
Fixpoint nulterminate (fuel : nat) (cmd : nat) : M shell unit :=
  match fuel with
  | O => nofuel
  | S fuel' =>
      l <- gets sh_nodes ;;
      match l !! cmd with
      | None => fault
      | Some (EXEC argv eargv) => modify (λ s, set_sh_mem (terminate_args (sh_mem s) argv eargv) s)
      | Some (REDIR c _ efile _ _) => nulterminate fuel' c ;;; write0 efile
      | Some (PIPE l1 l2) => nulterminate fuel' l1 ;;; nulterminate fuel' l2
      | Some (LIST l1 l2) => nulterminate fuel' l1 ;;; nulterminate fuel' l2
      | Some (BACK c) => nulterminate fuel' c
      end
  end.

Definition parsecmd (fuel : nat) (s : Z) : M shell nat :=
  m <- gets sh_mem ;;
  match strlen fuel m s with
  | None => nofuel
  | Some n =>
      let es := s + n in
      r <- parseline fuel s es ;;
      let '(cmd, s) := r in
      p <- peek s es "" ;;
      let '(_, s) := p in
      if negb (s =? es) then panic "syntax"
      else nulterminate fuel cmd ;;; ret cmd
  end.
