(* ===== verification/ShLex.v ===== *)
(** * Tokens and the shell's lexer ([peek] and [gettoken] of sh.c)

    A line spells a list of tokens, with any white space between them. *)

From Stdlib Require Import ZArith Lia String.
From stdpp Require Import base numbers list strings.
From S2P Require Import Prelude Mem Str Sysfile Sh.

(** The text [txt] is in memory from [ps] to its terminator at [es]. *)
Fixpoint input (m : mem) (ps es : Z) (txt : list Z) : Prop :=
  match txt with
  | [] => ps = es ∧ m ps = 0
  | c :: txt' => m ps = c ∧ c ≠ 0 ∧ input m (ps + 1) es txt'
  end.

Lemma sh_input_length m ps es txt : input m ps es txt → es = ps + Z.of_nat (length txt).
Proof. revert ps. induction txt as [|c t IH]; intros ps; cbn; [intros [-> _]; lia|]. intros (_ & _ & H%IH). lia. Qed.

Lemma input_app m ps es l1 l2 : input m ps es (l1 ++ l2) → input m (ps + Z.of_nat (length l1)) es l2.
Proof.
  revert ps. induction l1 as [|c l1 IH]; intros ps; cbn [app length]; [by rewrite Z.add_0_r|]. intros (_ & _ & H%IH).
  by replace (ps + Z.of_nat (S (length l1))) with (ps + 1 + Z.of_nat (length l1)) by lia.
Qed.

Lemma input_first m ps es txt : input m ps es txt → m ps = match txt with [] => 0 | c :: _ => c end.
Proof. destruct txt; cbn; tauto. Qed.

(** ** Words, tokens and their spelling *)

Definition space (c : Z) : bool := is_in whitespace c.
Definition word_char (c : Z) : bool := negb (c =? 0) && negb (space c) && negb (is_in symbols c).

Inductive token : Type := TWord (w : list Z) | TSym (c : Z) | TAppend.

Definition tok_ok (t : token) : Prop :=
  match t with
  | TWord w => w ≠ [] ∧ Forall (λ c, word_char c = true) w
  | TSym c => is_in symbols c = true
  | TAppend => True
  end.

Definition tok_bytes (t : token) : list Z :=
  match t with TWord w => w | TSym c => [c] | TAppend => [62; 62] end.

(** What must not follow a token directly. *)
Definition tok_sep (t : token) (rest : list Z) : Prop :=
  match rest with
  | [] => True
  | c :: _ => match t with TWord _ => word_char c = false | TSym d => d = 62 → c ≠ 62 | TAppend => True end
  end.

Inductive spells : list token → list Z → Prop :=
| spells_nil sp : Forall (λ c, space c = true) sp → spells [] sp
| spells_cons sp t ts rest : Forall (λ c, space c = true) sp → tok_ok t → tok_sep t rest → spells ts rest →
    spells (t :: ts) (sp ++ tok_bytes t ++ rest).

Definition tok_code (t : token) : Z := match t with TWord _ => TOK_WORD | TSym c => c | TAppend => TOK_APPEND end.
(** The character that [peek] sees. *)
Definition tok_first (t : token) : Z := match t with TWord w => default 0 (head w) | TSym c => c | TAppend => 62 end.

(** ** Skipping white space *)

Definition starts_space (txt : list Z) : bool := match txt with [] => false | c :: _ => space c end.

Lemma skip_space_spec m es sp txt ps k :
  Forall (λ c, space c = true) sp → starts_space txt = false → input m ps es (sp ++ txt) → (length (sp ++ txt) <= k)%nat →
  skip_space m k ps = ps + Z.of_nat (length sp).
Proof.
  revert ps k. induction sp as [|c sp IH]; intros ps k Hsp Ht Hi Hk; cbn [app length] in *.
  - rewrite Z.add_0_r. pose proof (input_first _ _ _ _ Hi) as Hf. destruct k as [|k]; [done|]. cbn [skip_space]. rewrite Hf. destruct txt as [|c txt]; [done|]. unfold starts_space, space in Ht. by rewrite Ht.
  - destruct k as [|k]; [lia|]. destruct Hi as (Hc & Hc0 & Hi). apply Forall_cons in Hsp as [Hs Hsp]. cbn [skip_space]. rewrite Hc. unfold space in Hs. rewrite Hs.
    rewrite (IH (ps + 1)) by (done || lia). lia.
Qed.

Lemma skip_word_spec m es w txt ps k :
  Forall (λ c, word_char c = true) w → match txt with [] => True | c :: _ => word_char c = false end →
  input m ps es (w ++ txt) → k = length (w ++ txt) → skip_word m k ps = ps + Z.of_nat (length w).
Proof.
  revert ps k. induction w as [|c w IH]; intros ps k Hw Ht Hi Hk; cbn [app length] in *; subst k.
  - rewrite Z.add_0_r. destruct txt as [|c txt]; [done|]. destruct Hi as (Hm & Hc & _). cbn [length skip_word]. rewrite Hm. unfold word_char, space in Ht.
    replace (c =? 0) with false in Ht by (symmetry; by apply Z.eqb_neq). cbn [negb andb] in Ht. by rewrite Ht.
  - destruct Hi as (Hc & Hc0 & Hi). apply Forall_cons in Hw as [Hs Hw]. cbn [skip_word]. rewrite Hc. unfold word_char, space in Hs.
    replace (c =? 0) with false in Hs by (symmetry; by apply Z.eqb_neq). cbn [negb andb] in Hs. rewrite Hs. rewrite (IH (ps + 1)) by done. lia.
Qed.

Lemma tok_bytes_first t rest : tok_ok t → ∃ l, tok_bytes t ++ rest = tok_first t :: l ∧ space (tok_first t) = false ∧ tok_first t ≠ 0.
Proof.
  destruct t as [[|c w]|c|]; cbn; [by intros [? _]| | |intros _; exists (62 :: rest); split_and!; done].
  - intros (_ & [Hc _]%Forall_cons). exists (w ++ rest). unfold word_char in Hc. zb. split_and!; done.
  - intros Hc. exists rest. split; [done|]. unfold symbols, chars, chr in Hc. cbn in Hc. unfold space, whitespace. cbn. zb; subst; done.
Qed.

(** ** [peek] and [gettoken] *)

(** A word in memory, delimited by [q] and [eq]. *)
Definition word_at (m : mem) (q eq : Z) (w : list Z) : Prop :=
  eq = q + Z.of_nat (length w) ∧ Forall (λ c, word_char c = true) w ∧ (∀ i c, w !! i = Some c → m (q + Z.of_nat i) = c) ∧
  word_char (m eq) = false.

Lemma input_bytes m ps es l txt i c : input m ps es (l ++ txt) → l !! i = Some c → m (ps + Z.of_nat i) = c.
Proof.
  revert ps i. induction l as [|d l IH]; intros ps [|i] Hi Hl; cbn in Hl; try done.
  - injection Hl as ->. destruct Hi as (H & _). by rewrite Z.add_0_r.
  - destruct Hi as (_ & _ & Hi). replace (ps + Z.of_nat (S i)) with (ps + 1 + Z.of_nat i) by lia. by apply IH.
Qed.

Definition peeks (toks : string) (ts : list token) : bool :=
  match ts with [] => false | t :: _ => is_in (chars toks) (tok_first t) end.

(** The rest of a line that spells [ts], without leading white space. *)
Definition rest_of (ts : list token) (txt : list Z) : Prop := spells ts txt ∧ starts_space txt = false.

Lemma spells_split ts txt : spells ts txt → ∃ sp txt', txt = sp ++ txt' ∧ Forall (λ c, space c = true) sp ∧ rest_of ts txt'.
Proof.
  destruct 1 as [sp Hsp|sp t ts rest Hsp Ht Hsep Hs].
  - exists sp, []. rewrite app_nil_r. split_and!; [done|done|]. by split; [constructor|].
  - exists sp, (tok_bytes t ++ rest). split_and!; [done|done|]. destruct (tok_bytes_first t rest Ht) as (l & E & Hf & _). split.
    + by apply (spells_cons []).
    + by rewrite E.
Qed.

Lemma skip_rest m ps es ts txt :
  spells ts txt → input m ps es txt →
  ∃ ps' txt', skip_space m (Z.to_nat (es - ps)) ps = ps' ∧ input m ps' es txt' ∧ rest_of ts txt' ∧ ps <= ps'.
Proof.
  intros (sp & txt' & -> & Hsp & Hr)%spells_split Hi. exists (ps + Z.of_nat (length sp)), txt'.
  pose proof (sh_input_length _ _ _ _ Hi) as Hl. split_and!; [|by apply input_app|done|lia].
  apply (skip_space_spec m es sp txt'); [done|by destruct Hr|done|lia].
Qed.

Lemma peek_run m s ps es toks ts txt :
  sh_mem s = m → spells ts txt → input m ps es txt →
  ∃ ps' txt', peek ps es toks s = Done (peeks toks ts, ps') s ∧ input m ps' es txt' ∧ rest_of ts txt' ∧ ps <= ps'.
Proof.
  intros <- Hs Hi. destruct (skip_rest _ _ _ _ _ Hs Hi) as (ps' & txt' & E & Hi' & Hr & Hle). exists ps', txt'. split_and!; [|done|done|done].
  unfold peek. rewrite (bind_run _ _ s (sh_mem s) s) by done. rewrite E. unfold ret. do 2 f_equal.
  rewrite (input_first _ _ _ _ Hi'). destruct Hr as [Hs' Hsp']. destruct Hs' as [sp Hsp|sp t ts rest Hsp Ht Hsep Hs'].
  - destruct sp as [|c sp]; [done|]. apply Forall_cons in Hsp as [Hc _]. cbn [app starts_space] in Hsp'. congruence.
  - destruct (tok_bytes_first t rest Ht) as (l & El & _ & H0). destruct sp as [|c sp].
    + cbn [app]. rewrite El. cbn [peeks]. by ztest (tok_first t =? 0) is false.
    + apply Forall_cons in Hsp as [Hc _]. cbn [app starts_space] in Hsp'. congruence.
Qed.

(** At the end of the line there is no token. *)
Lemma gettoken_end m s ps es txt :
  sh_mem s = m → spells [] txt → input m ps es txt → ∃ q ps', gettoken ps es s = Done (0, q, q, ps') s ∧ input m ps' es [] ∧ ps <= ps'.
Proof.
  intros <- Hs Hi. destruct (skip_rest _ _ _ _ _ Hs Hi) as (q & txt' & E & Hi' & [Hs' Hsp'] & Hle).
  inversion Hs' as [sp Hsp E1 E2|]. subst sp. destruct txt' as [|c t]; [|apply Forall_cons in Hsp as [Hc _]; cbn [app starts_space] in Hsp'; congruence].
  destruct Hi' as [-> H0]. exists es, es. unfold gettoken. rewrite (bind_run _ _ s (sh_mem s) s) by done. cbv zeta. rewrite E, H0. cbn [Z.eqb].
  rewrite Z.sub_diag. done.
Qed.

(** The [switch] of [gettoken]. *)
Lemma scan_token m q es t rest :
  input m q es (tok_bytes t ++ rest) → tok_ok t → tok_sep t rest →
  (if m q =? 0 then (m q, q)
   else if is_in (chars "|();&<") (m q) then (m q, q + 1)
   else if m q =? 62 then if m (q + 1) =? 62 then (TOK_APPEND, q + 2) else (m q, q + 1)
   else (TOK_WORD, skip_word m (Z.to_nat (es - q)) q)) = (tok_code t, q + Z.of_nat (length (tok_bytes t))).
Proof.
  intros Hi Ht Hsep. pose proof (sh_input_length _ _ _ _ Hi) as Hes. destruct t as [w|c|]; cbn [tok_bytes tok_code length] in *.
  - destruct w as [|c w]; [by destruct Ht|]. pose proof Hi as (Hc & Hc0 & _). destruct Ht as (_ & Hw). pose proof Hw as [Hwc _]%Forall_cons.
    rewrite (skip_word_spec m es (c :: w) rest q) by first [done | lia]. rewrite Hc.
    unfold word_char, symbols, is_in in Hwc. cbn in Hwc. ztest (c =? 0) is false. unfold is_in. cbn.
    zb. repeat (rewrite (proj2 (Z.eqb_neq _ _)) by done). done.
  - destruct Hi as (Hc & Hc0 & Hi). rewrite Hc. ztest (c =? 0) is false. assert (Hq1 : c = 62 → m (q + 1) ≠ 62).
    { intros ->. rewrite (input_first _ _ _ _ Hi). destruct rest as [|d rest]; [done|]. by apply Hsep. }
    unfold is_in, symbols in Ht. cbn in Ht. clear Hc Hes. zb; try discriminate; match goal with H : c = chr _ |- _ => vm_compute in H; subst c end; try done. cbn. rewrite (proj2 (Z.eqb_neq _ 62)) by (by apply Hq1). done.
  - destruct Hi as (Hc & _ & Hc2 & _). rewrite Hc. cbn. by rewrite Hc2.
Qed.

Lemma gettoken_run m s ps es t ts txt :
  sh_mem s = m → spells (t :: ts) txt → input m ps es txt →
  ∃ q eq ps' txt', gettoken ps es s = Done (tok_code t, q, eq, ps') s ∧ input m ps' es txt' ∧ rest_of ts txt' ∧ ps <= q ∧ q <= ps' ∧
    match t with TWord w => word_at m q eq w | _ => True end.
Proof.
  intros <- Hs Hi. destruct (skip_rest _ _ _ _ _ Hs Hi) as (q & txt1 & E & Hi1 & [Hs1 Hsp1] & Hle). clear Hs Hi txt.
  inversion Hs1 as [|sp t' ts' rest Hsp Ht Hsep Hrest E1 E2]. subst t' ts' txt1. destruct (tok_bytes_first t rest Ht) as (l & El & Hns & H0).
  destruct sp as [|c sp]; [|apply Forall_cons in Hsp as [Hc _]; cbn [app starts_space] in Hsp1; congruence]. cbn [app] in *.
  pose proof (input_first _ _ _ _ Hi1) as Hq. rewrite El in Hq. pose proof (input_app _ _ _ _ _ Hi1) as Hi2.
  destruct (skip_rest _ _ _ _ _ Hrest Hi2) as (ps' & txt' & E' & Hi' & Hr' & Hle').
  exists q, (q + Z.of_nat (length (tok_bytes t))), ps', txt'. split_and!; [|done|done|lia|lia|].
  - unfold gettoken. rewrite (bind_run _ _ s (sh_mem s) s) by done. cbv zeta. rewrite E.
    by rewrite (scan_token _ _ _ _ _ Hi1 Ht Hsep), E'.
  - destruct t as [w| |]; [|done..]. destruct Ht as [_ Hw]. cbn in *. split_and!; [done|done| |].
    + intros i c Hc. by apply (input_bytes _ _ _ _ _ _ _ Hi1).
    + rewrite (input_first _ _ _ _ Hi2). destruct rest; [done|exact Hsep].
Qed.
