(* ===== verification/ShParse.v ===== *)
(** * The shell's parser and its grammar (sh.c)

    A line is a sequence of pipelines, a pipeline a sequence of commands, a
    command a list of words and redirections or a block in parentheses.
    [parsecmd] builds the tree of the line whatever the white space, and
    terminates its words in place. *)

From Stdlib Require Import ZArith Lia String.
From stdpp Require Import base numbers list strings.
From S2P Require Import Prelude Mem Str Sysfile Sh ShLex.

(** ** The grammar *)

Inductive rop : Type := RIn | ROut | RAppend.
Record gredir : Type := GRedir { gr_op : rop; gr_file : list Z }.

Inductive gexec : Type :=
| GSimple (rs : list gredir) (args : list (list Z * list gredir))
| GBlock (l : gline) (rs : list gredir)
with gpipe : Type :=
| GOne (e : gexec)
| GPipe (e : gexec) (p : gpipe)
with gline : Type :=
| GLine (p : gpipe) (amps : nat)
| GSeq (p : gpipe) (amps : nat) (l : gline).

Scheme gexec_mut := Induction for gexec Sort Prop
with gpipe_mut := Induction for gpipe Sort Prop
with gline_mut := Induction for gline Sort Prop.
Combined Scheme grammar_ind from gexec_mut, gpipe_mut, gline_mut.

Definition rop_tok (o : rop) : token := match o with RIn => TSym 60 | ROut => TSym 62 | RAppend => TAppend end.
Definition redir_toks (r : gredir) : list token := [rop_tok (gr_op r); TWord (gr_file r)].
Definition redirs_toks (rs : list gredir) : list token := rs ≫= redir_toks.
Definition arg_toks (a : list Z * list gredir) : list token := TWord a.1 :: redirs_toks a.2.

Fixpoint exec_toks (e : gexec) : list token :=
  match e with
  | GSimple rs args => redirs_toks rs ++ (args ≫= arg_toks)
  | GBlock l rs => TSym 40 :: line_toks l ++ TSym 41 :: redirs_toks rs
  end
with pipe_toks (p : gpipe) : list token :=
  match p with
  | GOne e => exec_toks e
  | GPipe e p => exec_toks e ++ TSym 124 :: pipe_toks p
  end
with line_toks (l : gline) : list token :=
  match l with
  | GLine p n => pipe_toks p ++ replicate n (TSym 38)
  | GSeq p n l => pipe_toks p ++ replicate n (TSym 38) ++ TSym 59 :: line_toks l
  end.

(** At most nine arguments. *)
Fixpoint exec_ok (e : gexec) : Prop :=
  match e with
  | GSimple rs args => (length args < MAXARGS)%nat
  | GBlock l rs => line_ok l
  end
with pipe_ok (p : gpipe) : Prop :=
  match p with
  | GOne e => exec_ok e
  | GPipe e p => exec_ok e ∧ pipe_ok p
  end
with line_ok (l : gline) : Prop :=
  match l with
  | GLine p n => pipe_ok p
  | GSeq p n l => pipe_ok p ∧ line_ok l
  end.

(** ** The commands *)

Inductive cmd : Type :=
| CExec (args : list (list Z))
| CRedir (c : cmd) (file : list Z) (mode fd : Z)
| CPipe (l r : cmd)
| CList (l r : cmd)
| CBack (c : cmd).

Definition rop_mode (o : rop) : Z := match o with RIn => O_RDONLY | _ => Z.lor O_WRONLY O_CREATE end.
Definition rop_fd (o : rop) : Z := match o with RIn => 0 | _ => 1 end.
Definition wrap (c : cmd) (rs : list gredir) : cmd :=
  foldl (λ c r, CRedir c (gr_file r) (rop_mode (gr_op r)) (rop_fd (gr_op r))) c rs.

Fixpoint sem_exec (e : gexec) : cmd :=
  match e with
  | GSimple rs args => wrap (CExec args.*1) (rs ++ (args.*2 ≫= id))
  | GBlock l rs => wrap (sem_line l) rs
  end
with sem_pipe (p : gpipe) : cmd :=
  match p with
  | GOne e => sem_exec e
  | GPipe e p => CPipe (sem_exec e) (sem_pipe p)
  end
with sem_line (l : gline) : cmd :=
  match l with
  | GLine p n => Nat.iter n CBack (sem_pipe p)
  | GSeq p n l => CList (Nat.iter n CBack (sem_pipe p)) (sem_line l)
  end.

(** ** The tree in the nodes *)

(** The first arguments of an exec node are the words [ws]. *)
Record args_at (m : mem) (argv eargv : list Z) (ws : list (list Z)) : Prop := {
  aa_argv : length argv = MAXARGS;
  aa_eargv : length eargv = MAXARGS;
  aa_words : ∀ i w, ws !! i = Some w → ∃ q e, argv !! i = Some q ∧ eargv !! i = Some e ∧ q ≠ 0 ∧ word_at m q e w
}.

Fixpoint built (m : mem) (N : list node) (p : nat) (c : cmd) : Prop :=
  match c with
  | CExec args => ∃ argv eargv, N !! p = Some (EXEC argv eargv) ∧ args_at m argv eargv args ∧ argv !! length args = Some 0
  | CRedir c file mode fd => ∃ p' q e, N !! p = Some (REDIR p' q e mode fd) ∧ word_at m q e file ∧ built m N p' c
  | CPipe l r => ∃ p1 p2, N !! p = Some (PIPE p1 p2) ∧ built m N p1 l ∧ built m N p2 r
  | CList l r => ∃ p1 p2, N !! p = Some (LIST p1 p2) ∧ built m N p1 l ∧ built m N p2 r
  | CBack c => ∃ p', N !! p = Some (BACK p') ∧ built m N p' c
  end.

(** Redirections built around the node [bot]; the outermost is [top]. *)
Fixpoint chained (m : mem) (N : list node) (bot : nat) (rs : list gredir) (top : nat) : Prop :=
  match rs with
  | [] => top = bot
  | r :: rs' => ∃ n q e, N !! n = Some (REDIR bot q e (rop_mode (gr_op r)) (rop_fd (gr_op r))) ∧ word_at m q e (gr_file r) ∧
      chained m N n rs' top
  end.

Definition extends (N N' : list node) : Prop := ∀ n x, N !! n = Some x → N' !! n = Some x.

Lemma built_extends m N N' p c : extends N N' → built m N p c → built m N' p c.
Proof.
  intros He. revert p. induction c as [args|c IH file mode fd|l IHl r IHr|l IHl r IHr|c IH]; intros p; cbn.
  - intros (a & e & H & H'). exists a, e. auto.
  - intros (p' & q & e & H & Hw & Hb). exists p', q, e. auto.
  - intros (p1 & p2 & H & H1 & H2). exists p1, p2. auto.
  - intros (p1 & p2 & H & H1 & H2). exists p1, p2. auto.
  - intros (p' & H & Hb). exists p'. auto.
Qed.

Lemma chained_mono m N N' bot rs top :
  (∀ n p q e mode fd, N !! n = Some (REDIR p q e mode fd) → N' !! n = Some (REDIR p q e mode fd)) →
  chained m N bot rs top → chained m N' bot rs top.
Proof.
  intros He. revert bot. induction rs as [|r rs IH]; intros bot; cbn; [done|]. intros (n & q & e & H & Hw & Hc). exists n, q, e. auto.
Qed.

Lemma chained_app m N bot rs1 rs2 mid top :
  chained m N bot rs1 mid → chained m N mid rs2 top → chained m N bot (rs1 ++ rs2) top.
Proof.
  revert bot. induction rs1 as [|r rs IH]; intros bot; cbn; [by intros ->|]. intros (n & q & e & H & Hw & Hc) H2. exists n, q, e. auto.
Qed.

Lemma chained_built m N bot rs top c : built m N bot c → chained m N bot rs top → built m N top (wrap c rs).
Proof.
  revert bot c. induction rs as [|r rs IH]; intros bot c Hb; cbn; [by intros ->|]. intros (n & q & e & H & Hw & Hc).
  apply (IH n); [|done]. cbn. eauto 10.
Qed.

(** ** The parsing functions *)

Section parse.
Context (m : mem) (es : Z).
Implicit Types s : shell.

(** The rest of the line, from [ps], spells [ts]. *)
Definition ready (ps : Z) (ts : list token) : Prop := 0 < ps ∧ ∃ txt, input m ps es txt ∧ spells ts txt.

Lemma peek_ready s ps toks ts :
  sh_mem s = m → ready ps ts → ∃ ps', peek ps es toks s = Done (peeks toks ts, ps') s ∧ ready ps' ts.
Proof.
  intros Hm (H0 & txt & Hi & Hs). destruct (peek_run m s ps es toks ts txt Hm Hs Hi) as (ps' & txt' & R & Hi' & [Hs' _] & Hle).
  exists ps'. split; [done|]. split; [lia|]. by exists txt'.
Qed.

Lemma gettoken_ready s ps t ts :
  sh_mem s = m → ready ps (t :: ts) →
  ∃ q eq ps', gettoken ps es s = Done (tok_code t, q, eq, ps') s ∧ ready ps' ts ∧ q ≠ 0 ∧
    match t with TWord w => word_at m q eq w | _ => True end.
Proof.
  intros Hm (H0 & txt & Hi & Hs). destruct (gettoken_run m s ps es t ts txt Hm Hs Hi) as (q & eq & ps' & txt' & R & Hi' & [Hs' _] & Hle & Hle' & Hw).
  exists q, eq, ps'. split_and!; [done| |lia|done]. split; [lia|]. by exists txt'.
Qed.

Lemma gettoken_none s ps : sh_mem s = m → ready ps [] → ∃ q ps', gettoken ps es s = Done (0, q, q, ps') s ∧ ready ps' [].
Proof.
  intros Hm (H0 & txt & Hi & Hs). destruct (gettoken_end m s ps es txt Hm Hs Hi) as (q & ps' & R & Hi' & Hle). exists q, ps'. split; [done|].
  split; [lia|]. exists []. split; [done|by constructor].
Qed.

(** What a parsing function does: it adds nodes and moves on to the tokens [k]. *)
Definition parsed s (r : nat * Z) s' (k : list token) (Q : list node → nat → Prop) : Prop :=
  sh_mem s' = m ∧ extends (sh_nodes s) (sh_nodes s') ∧ ready r.2 k ∧ Q (sh_nodes s') r.1.

Lemma new_node_run s n :
  ∃ s', new_node n s = Done (length (sh_nodes s)) s' ∧ sh_mem s' = sh_mem s ∧ sh_nodes s' = sh_nodes s ++ [n].
Proof. eexists. split; [done|]. done. Qed.

Lemma extends_app N l : extends N (N ++ l).
Proof. intros n x Hn. by apply lookup_app_l_Some. Qed.

Lemma extends_trans N1 N2 N3 : extends N1 N2 → extends N2 N3 → extends N1 N3.
Proof. intros H1 H2 n x Hn. auto. Qed.

Lemma parseredirs_run rs : ∀ s c ps k,
  sh_mem s = m → ready ps (redirs_toks rs ++ k) → peeks "<>" k = false →
  ∃ r s', returns (λ f, parseredirs f c ps es) s r s' ∧ parsed s r s' k (λ N c', chained m N c rs c').
Proof.
  induction rs as [|[o file] rs IH]; intros s c ps k Hm Hr Hk.
  - destruct (peek_ready s ps "<>" k Hm Hr) as (ps' & R & Hr'). exists (c, ps'), s. split; [|split_and!; [done|by intros ? ?|done|done]].
    exists 1%nat. intros [|f] Hf; [lia|]. cbn [parseredirs]. rewrite (bind_run _ _ _ _ _ R), Hk. done.
  - change (redirs_toks (GRedir o file :: rs) ++ k) with (rop_tok o :: TWord file :: (redirs_toks rs ++ k)) in Hr.
    destruct (peek_ready s ps "<>" _ Hm Hr) as (ps1 & R1 & Hr1). destruct (gettoken_ready s ps1 _ _ Hm Hr1) as (q0 & e0 & ps2 & R2 & Hr2 & _).
    destruct (gettoken_ready s ps2 _ _ Hm Hr2) as (q & e & ps3 & R3 & Hr3 & _ & Hw).
    destruct (new_node_run s (REDIR c q e (rop_mode o) (rop_fd o))) as (s1 & R4 & Hm1 & Hn1).
    destruct (IH s1 (length (sh_nodes s)) ps3 k) as (r & s' & (F & HF) & Hm' & He & Hrk & Hc); [congruence|done|done|].
    exists r, s'. split.
    + exists (S F). intros [|f] Hf; [lia|]. cbn [parseredirs]. rewrite (bind_run _ _ _ _ _ R1).
      replace (peeks "<>" (rop_tok o :: TWord file :: redirs_toks rs ++ k)) with true by (by destruct o). cbn [negb].
      rewrite (bind_run _ _ _ _ _ R2), (bind_run _ _ _ _ _ R3). cbn [tok_code].
      assert (Hn : (if tok_code (rop_tok o) =? 60 then redircmd c q e O_RDONLY 0
                  else if tok_code (rop_tok o) =? 62 then redircmd c q e (Z.lor O_WRONLY O_CREATE) 1
                  else if tok_code (rop_tok o) =? TOK_APPEND then redircmd c q e (Z.lor O_WRONLY O_CREATE) 1
                  else ret c) = new_node (REDIR c q e (rop_mode o) (rop_fd o))) by (by destruct o).
      rewrite Hn. change (TOK_WORD =? TOK_WORD) with true. cbn [negb]. rewrite (bind_run _ _ _ _ _ R4). apply HF. lia.
    + rewrite Hn1 in He. split_and!; [done|eapply extends_trans; [apply extends_app|done]|done|].
      exists (length (sh_nodes s)), q, e. split_and!; [|done|done]. apply He. by rewrite list_lookup_middle.
Qed.

(** ** The arguments of a command *)

Lemma ready_toks ps ts : ready ps ts → Forall tok_ok ts.
Proof. intros (_ & txt & _ & Hs). induction Hs; by constructor. Qed.

Lemma word_peeks toks ts w :
  tok_ok (TWord w) → (∀ c, is_in (chars toks) c = true → is_in symbols c = true) → peeks toks (TWord w :: ts) = false.
Proof.
  intros [Hne Hw] Hsub. destruct w as [|c w]; [done|].
  apply Forall_cons in Hw as [Hc _]. cbn [peeks tok_first head default]. destruct (is_in (chars toks) c) eqn:E; [|done].
  apply Hsub in E. unfold word_char in Hc. rewrite E in Hc. by destruct (c =? 0), (space c).
Qed.

Lemma subset_symbols toks : forallb (is_in symbols) (chars toks) = true → ∀ c, is_in (chars toks) c = true → is_in symbols c = true.
Proof.
  intros Hf c Hc. apply existsb_exists in Hc as (d & Hd & E%Z.eqb_eq). subst d. rewrite forallb_forall in Hf. by apply Hf.
Qed.

(** A token list that ends a simple command. *)
Definition follows (toks : string) (k : list token) : Prop := k = [] ∨ peeks toks k = true.

Lemma follows_not toks toks' k : follows toks k → forallb (λ c, negb (is_in (chars toks') c)) (chars toks) = true → peeks toks' k = false.
Proof.
  intros [->|Hp] Hf; [done|]. destruct k as [|t k]; [done|]. cbn in *. apply existsb_exists in Hp as (d & Hd & E%Z.eqb_eq). subst d.
  rewrite forallb_forall in Hf. apply negb_true_iff. by apply Hf.
Qed.

Lemma set_arg_run s x n q e argv eargv N0 :
  sh_nodes s !! x = Some (EXEC argv eargv) → extends N0 (sh_nodes s) → N0 !! x = None →
  ∃ s', set_arg x n q e s = Done tt s' ∧ sh_mem s' = sh_mem s ∧ sh_nodes s' !! x = Some (EXEC (<[n:=q]> argv) (<[n:=e]> eargv)) ∧
    extends N0 (sh_nodes s') ∧ (∀ bot rs top, chained m (sh_nodes s) bot rs top → chained m (sh_nodes s') bot rs top).
Proof.
  intros Hx He Hn. eexists. split; [done|]. cbn [sh_mem sh_nodes set_sh_nodes]. split_and!.
  - done.
  - rewrite list_lookup_alter_eq, Hx. done.
  - intros i v Hi. rewrite list_lookup_alter_ne; [auto|]. intros ->. congruence.
  - intros bot rs top. apply chained_mono. intros i p q' e' mode fd Hi. rewrite list_lookup_alter_ne; [done|]. intros ->. congruence.
Qed.

Lemma args_at_end argv eargv ws q e :
  args_at m argv eargv ws → args_at m (<[length ws:=q]> argv) (<[length ws:=e]> eargv) ws.
Proof.
  intros [H1 H2 H3]. split; [by rewrite length_insert|by rewrite length_insert|]. intros i w Hi.
  rewrite !list_lookup_insert_ne by (apply lookup_lt_Some in Hi; lia). by apply H3.
Qed.

Lemma args_at_snoc argv eargv ws q e w :
  args_at m argv eargv ws → (length ws < MAXARGS)%nat → q ≠ 0 → word_at m q e w →
  args_at m (<[length ws:=q]> argv) (<[length ws:=e]> eargv) (ws ++ [w]).
Proof.
  intros H Hl Hq Hw. destruct (args_at_end argv eargv ws q e H) as [H1 H2 H3]. split; [done|done|].
  intros i v [Hi|[Hle Hi]]%lookup_app_Some; [by apply H3|]. apply list_lookup_singleton_Some in Hi as [Hi <-].
  assert (i = length ws) as -> by lia. exists q, e. destruct H. rewrite !list_lookup_insert_eq by lia. done.
Qed.

(** The end of the arguments: [argv[argc]] is 0. *)
Lemma parseargs_end s x top ws rs N0 ps k argv eargv :
  sh_mem s = m → extends N0 (sh_nodes s) → N0 !! x = None → sh_nodes s !! x = Some (EXEC argv eargv) → args_at m argv eargv ws →
  chained m (sh_nodes s) x rs top → (length ws < MAXARGS)%nat → ready ps k → follows "|)&;" k →
  ∃ r s', returns (λ f, parseargs f x top (length ws) ps es) s r s' ∧ sh_mem s' = m ∧ extends N0 (sh_nodes s') ∧ ready r.2 k ∧
    built m (sh_nodes s') r.1 (wrap (CExec ws) rs).
Proof.
  intros Hm He Hn Hx Ha Hc Hl Hr Hk. destruct (peek_ready s ps "|)&;" k Hm Hr) as (ps1 & R1 & Hr1).
  destruct (set_arg_run s x (length ws) 0 0 argv eargv N0 Hx He Hn) as (s' & R2 & Hm' & Hx' & He' & Hc').
  assert (Hb : built m (sh_nodes s') top (wrap (CExec ws) rs)).
  { eapply chained_built; [|by apply Hc']. eexists _, _. split_and!; [exact Hx'|by apply args_at_end|].
    rewrite list_lookup_insert_eq; [done|]. destruct Ha. lia. }
  assert (Hpeek : ∃ ps', ready ps' k ∧ returns (λ f, parseargs f x top (length ws) ps es) s (top, ps') s').
  { destruct Hk as [->|Hk].
    - destruct (gettoken_none s ps1 Hm Hr1) as (q & ps2 & R3 & Hr2). exists ps2. split; [done|]. exists 1%nat. intros [|f] Hf; [lia|].
      cbn [parseargs]. rewrite (bind_run _ _ _ _ _ R1). cbn [peeks]. rewrite (bind_run _ _ _ _ _ R3). cbn [Z.eqb]. by rewrite (bind_run _ _ _ _ _ R2).
    - exists ps1. split; [done|]. exists 1%nat. intros [|f] Hf; [lia|].
      cbn [parseargs]. rewrite (bind_run _ _ _ _ _ R1), Hk. by rewrite (bind_run _ _ _ _ _ R2). }
  destruct Hpeek as (ps' & Hr' & R). exists (top, ps'), s'. split_and!; [done|congruence|done|done|done].
Qed.

Lemma parseargs_run al : ∀ s x top ws rs N0 ps k argv eargv,
  sh_mem s = m → extends N0 (sh_nodes s) → N0 !! x = None → sh_nodes s !! x = Some (EXEC argv eargv) → args_at m argv eargv ws →
  chained m (sh_nodes s) x rs top → (length ws + length al < MAXARGS)%nat → ready ps ((al ≫= arg_toks) ++ k) → follows "|)&;" k →
  ∃ r s', returns (λ f, parseargs f x top (length ws) ps es) s r s' ∧ sh_mem s' = m ∧ extends N0 (sh_nodes s') ∧ ready r.2 k ∧
    built m (sh_nodes s') r.1 (wrap (CExec (ws ++ al.*1)) (rs ++ (al.*2 ≫= id))).
Proof.
  induction al as [|[w rs'] al IH]; intros s x top ws rs N0 ps k argv eargv Hm He Hn Hx Ha Hc Hl Hr Hk; cbn [length] in Hl.
  { cbn [fmap list_fmap mbind list_bind]. rewrite !app_nil_r. eapply parseargs_end; try done. lia. }
  assert (Et : (((w, rs') :: al) ≫= arg_toks) ++ k = TWord w :: redirs_toks rs' ++ ((al ≫= arg_toks) ++ k))
    by (cbn; unfold redirs_toks; by rewrite <- !app_assoc).
  rewrite Et in Hr. destruct (peek_ready s ps "|)&;" _ Hm Hr) as (ps1 & R1 & Hr1). destruct (gettoken_ready s ps1 _ _ Hm Hr1) as (q & e & ps2 & R2 & Hr2 & Hq & Hw).
  assert (Hp : peeks "|)&;" (TWord w :: redirs_toks rs' ++ (al ≫= arg_toks) ++ k) = false) by (apply word_peeks; [by apply ready_toks, Forall_cons in Hr as [? _]|by apply subset_symbols]).
  destruct (set_arg_run s x (length ws) q e argv eargv N0 Hx He Hn) as (s1 & R3 & Hm1 & Hx1 & He1 & Hc1).
  assert (Hk' : peeks "<>" ((al ≫= arg_toks) ++ k) = false).
  { destruct al as [|[w2 rs2] al]; [by eapply follows_not|]. apply ready_toks in Hr2. rewrite !Forall_app in Hr2. destruct Hr2 as (_ & Hr2 & _).
    apply word_peeks; [by apply Forall_cons in Hr2 as [? _]|by apply subset_symbols]. }
  destruct (parseredirs_run rs' s1 top ps2 ((al ≫= arg_toks) ++ k)) as ([top2 ps3] & s2 & (F1 & R4) & Hm2 & He2 & Hr3 & Hc2); [congruence|done|done|].
  cbn [fst snd] in *. destruct (IH s2 x top2 (ws ++ [w]) (rs ++ rs') N0 ps3 k (<[length ws:=q]> argv) (<[length ws:=e]> eargv)) as (r & s' & (F2 & R5) & G); try done.
  { by eapply extends_trans. }
  { by apply He2. }
  { by apply args_at_snoc; [|lia|..]. }
  { eapply chained_app; [|exact Hc2]. eapply chained_mono; [|by apply Hc1]. intros. by apply He2. }
  { rewrite length_app. cbn. lia. }
  exists r, s'. split.
  - exists (S (F1 + F2)). intros [|f] Hf; [lia|]. cbn [parseargs]. rewrite (bind_run _ _ _ _ _ R1), Hp, (bind_run _ _ _ _ _ R2). cbn [tok_code].
    change (TOK_WORD =? 0) with false. change (TOK_WORD =? TOK_WORD) with true. cbn [negb]. rewrite (bind_run _ _ _ _ _ R3).
    replace (MAXARGS <=? S (length ws))%nat with false by (symmetry; apply Nat.leb_gt; lia).
    rewrite (bind_run _ _ _ _ _ (R4 f ltac:(lia))). rewrite length_app in R5. cbn [length] in R5. rewrite Nat.add_1_r in R5. apply R5. lia.
  - cbn [fmap list_fmap mbind list_bind]. rewrite <- !app_assoc in G. exact G.
Qed.

(** ** Commands, pipelines and lines *)

Lemma parseback_run n : ∀ s p c ps k,
  sh_mem s = m → built m (sh_nodes s) p c → ready ps (replicate n (TSym 38) ++ k) → peeks "&" k = false →
  ∃ r s', returns (λ f, parseback f p ps es) s r s' ∧ parsed s r s' k (λ N p', built m N p' (Nat.iter n CBack c)).
Proof.
  induction n as [|n IH]; intros s p c ps k Hm Hb Hr Hk.
  - destruct (peek_ready s ps "&" k Hm Hr) as (ps' & R & Hr'). exists (p, ps'), s. split; [|split_and!; [done|by intros ? ?|done|done]].
    exists 1%nat. intros [|f] Hf; [lia|]. cbn [parseback]. rewrite (bind_run _ _ _ _ _ R), Hk. done.
  - cbn [replicate app] in Hr. destruct (peek_ready s ps "&" _ Hm Hr) as (ps1 & R1 & Hr1). destruct (gettoken_ready s ps1 _ _ Hm Hr1) as (q & e & ps2 & R2 & Hr2 & _).
    destruct (new_node_run s (BACK p)) as (s1 & R3 & Hm1 & Hn1).
    destruct (IH s1 (length (sh_nodes s)) (CBack c) ps2 k) as (r & s' & (F & HF) & Hp); [congruence| |done|done|].
    { exists p. rewrite Hn1. split; [by rewrite list_lookup_middle|]. eapply built_extends; [apply extends_app|done]. }
    exists r, s'. split.
    + exists (S F). intros [|f] Hf; [lia|]. cbn [parseback]. rewrite (bind_run _ _ _ _ _ R1). cbn [peeks tok_first]. change (negb (is_in (chars "&") 38)) with false.
      cbn iota. rewrite (bind_run _ _ _ _ _ R2). unfold backcmd. rewrite (bind_run _ _ _ _ _ R3). apply HF. lia.
    + destruct Hp as (H1 & H2 & H3 & H4). rewrite Hn1 in H2. split_and!; [done|eapply extends_trans; [apply extends_app|done]|done|].
      by rewrite Nat.iter_swap in H4.
Qed.

Lemma simple_no_block rs args k ps :
  ready ps (exec_toks (GSimple rs args) ++ k) → follows "|)&;" k → peeks "(" (exec_toks (GSimple rs args) ++ k) = false.
Proof.
  intros Hr Hk. destruct rs as [|[[] f] rs]; [|done..]. cbn in *. destruct args as [|[w rs'] args]; [by eapply follows_not|].
  apply ready_toks in Hr. cbn in Hr. apply Forall_cons in Hr as [Hw _]. apply word_peeks; [done|by apply subset_symbols].
Qed.

Definition parses {G : Type} (parse : nat → Z → Z → M shell (nat * Z)) (ok : G → Prop) (toks : G → list token) (sem : G → cmd) (fol : string) (g : G) : Prop :=
  ∀ s ps k, sh_mem s = m → ok g → ready ps (toks g ++ k) → follows fol k →
  ∃ r s', returns (λ f, parse f ps es) s r s' ∧ parsed s r s' k (λ N p, built m N p (sem g)).

Lemma parse_simple rs args : parses parseexec exec_ok exec_toks sem_exec "|)&;" (GSimple rs args).
Proof.
  intros s ps k Hm Hok Hr Hk. pose proof (simple_no_block rs args k ps Hr Hk) as Hp.
  destruct (peek_ready s ps "(" _ Hm Hr) as (ps1 & R1 & Hr1). rewrite Hp in R1.
  destruct (new_node_run s (EXEC (replicate MAXARGS 0) (replicate MAXARGS 0))) as (s1 & R2 & Hm1 & Hn1). set (x := length (sh_nodes s)) in *.
  assert (Hx1 : sh_nodes s1 !! x = Some (EXEC (replicate MAXARGS 0) (replicate MAXARGS 0))) by (rewrite Hn1; by apply list_lookup_middle).
  cbn [exec_toks] in Hr1. rewrite <- app_assoc in Hr1.
  destruct (parseredirs_run rs s1 x ps1 ((args ≫= arg_toks) ++ k)) as ([top ps2] & s2 & (F1 & R3) & Hm2 & He2 & Hr2 & Hc2); [congruence|done| |].
  { destruct args as [|[w rs'] args]; [by eapply follows_not|]. apply ready_toks in Hr1. rewrite !Forall_app in Hr1. destruct Hr1 as (_ & Hr1 & _).
    apply word_peeks; [by apply Forall_cons in Hr1 as [? _]|by apply subset_symbols]. }
  cbn [fst snd] in *.
  destruct (parseargs_run args s2 x top [] rs (sh_nodes s) ps2 k (replicate MAXARGS 0) (replicate MAXARGS 0)) as (r & s' & (F2 & R4) & G); try done.
  { eapply extends_trans; [|exact He2]. rewrite Hn1. apply extends_app. }
  { by apply lookup_ge_None_2. }
  { by apply He2. }
  exists r, s'. split; [|exact G]. exists (S (F1 + F2)). intros [|f] Hf; [lia|]. cbn [parseexec]. rewrite (bind_run _ _ _ _ _ R1).
  unfold execcmd. rewrite (bind_run _ _ _ _ _ R2), (bind_run _ _ _ _ _ (R3 f ltac:(lia))). apply R4. lia.
Qed.

Lemma follows_weaken toks toks' k : follows toks k → forallb (is_in (chars toks')) (chars toks) = true → follows toks' k.
Proof.
  intros [->|Hp] Hf; [by left|right]. destruct k as [|t k]; [done|]. cbn in *. apply existsb_exists in Hp as (d & Hd & E%Z.eqb_eq). subst d.
  rewrite forallb_forall in Hf. by apply Hf.
Qed.

(** A token that is expected: [peek] sees it, [gettoken] takes it. *)
Lemma expect s ps toks c k :
  sh_mem s = m → ready ps (TSym c :: k) → is_in (chars toks) c = true →
  ∃ ps1 q e ps2, peek ps es toks s = Done (true, ps1) s ∧ gettoken ps1 es s = Done (c, q, e, ps2) s ∧ ready ps2 k.
Proof.
  intros Hm Hr Hc. destruct (peek_ready s ps toks _ Hm Hr) as (ps1 & R1 & Hr1). cbn [peeks tok_first] in R1. rewrite Hc in R1.
  destruct (gettoken_ready s ps1 _ _ Hm Hr1) as (q & e & ps2 & R2 & Hr2 & _). by exists ps1, q, e, ps2.
Qed.

Lemma parse_block l rs : parses parseline line_ok line_toks sem_line ")" l → parses parseexec exec_ok exec_toks sem_exec "|)&;" (GBlock l rs).
Proof.
  intros IH s ps k Hm Hok Hr Hk. cbn [exec_toks app] in Hr. rewrite <- app_assoc in Hr. cbn [app] in Hr.
  destruct (peek_ready s ps "(" _ Hm Hr) as (ps0 & R0 & Hr0). destruct (expect s ps0 "(" 40 _ Hm Hr0 eq_refl) as (ps1 & q & e & ps2 & R1 & R2 & Hr2).
  destruct (IH s ps2 (TSym 41 :: redirs_toks rs ++ k) Hm Hok Hr2) as ([p ps3] & s1 & (F1 & R3) & Hm1 & He1 & Hr3 & Hb1); [by right|]. cbn [fst snd] in *.
  destruct (expect s1 ps3 ")" 41 _ Hm1 Hr3 eq_refl) as (ps4 & q' & e' & ps5 & R4 & R5 & Hr5).
  destruct (parseredirs_run rs s1 p ps5 k Hm1 Hr5) as (r & s' & (F2 & R6) & Hm' & He' & Hr' & Hc'); [by eapply follows_not|].
  exists r, s'. split.
  - exists (S (S (F1 + F2))). intros [|[|f]] Hf; [lia|lia|]. cbn [parseexec]. rewrite (bind_run _ _ _ _ _ R0). cbn [peeks tok_first].
    change (is_in (chars "(") 40) with true. cbn iota. cbn [parseblock]. rewrite (bind_run _ _ _ _ _ R1). cbn [negb]. rewrite (bind_run _ _ _ _ _ R2).
    rewrite (bind_run _ _ _ _ _ (R3 f ltac:(lia))), (bind_run _ _ _ _ _ R4). cbn [negb]. rewrite (bind_run _ _ _ _ _ R5). apply R6. lia.
  - split_and!; [done|by eapply extends_trans|done|]. cbn [sem_exec]. eapply chained_built; [|exact Hc']. by eapply built_extends.
Qed.

Lemma parse_one e : parses parseexec exec_ok exec_toks sem_exec "|)&;" e → parses parsepipe pipe_ok pipe_toks sem_pipe ")&;" (GOne e).
Proof.
  intros IH s ps k Hm Hok Hr Hk. destruct (IH s ps k Hm Hok Hr) as ([p ps1] & s1 & (F1 & R1) & Hm1 & He1 & Hr1 & Hb1); [by eapply follows_weaken|]. cbn [fst snd] in *.
  destruct (peek_ready s1 ps1 "|" k Hm1 Hr1) as (ps2 & R2 & Hr2). rewrite (follows_not _ "|" _ Hk eq_refl) in R2.
  exists (p, ps2), s1. split; [|done]. exists (S F1). intros [|f] Hf; [lia|]. cbn [parsepipe]. by rewrite (bind_run _ _ _ _ _ (R1 f ltac:(lia))), (bind_run _ _ _ _ _ R2).
Qed.

Lemma parse_pipe e p :
  parses parseexec exec_ok exec_toks sem_exec "|)&;" e → parses parsepipe pipe_ok pipe_toks sem_pipe ")&;" p →
  parses parsepipe pipe_ok pipe_toks sem_pipe ")&;" (GPipe e p).
Proof.
  intros IHe IHp s ps k Hm [Hoe Hop] Hr Hk. cbn [pipe_toks] in Hr. rewrite <- app_assoc in Hr. cbn [app] in Hr.
  destruct (IHe s ps _ Hm Hoe Hr) as ([p1 ps1] & s1 & (F1 & R1) & Hm1 & He1 & Hr1 & Hb1); [by right|]. cbn [fst snd] in *.
  destruct (expect s1 ps1 "|" 124 _ Hm1 Hr1 eq_refl) as (ps2 & q & e' & ps3 & R2 & R3 & Hr3).
  destruct (IHp s1 ps3 k Hm1 Hop Hr3 Hk) as ([p2 ps4] & s2 & (F2 & R4) & Hm2 & He2 & Hr4 & Hb2). cbn [fst snd] in *.
  destruct (new_node_run s2 (PIPE p1 p2)) as (s3 & R5 & Hm3 & Hn3). exists (length (sh_nodes s2), ps4), s3. split.
  - exists (S (F1 + F2)). intros [|f] Hf; [lia|]. cbn [parsepipe]. rewrite (bind_run _ _ _ _ _ (R1 f ltac:(lia))), (bind_run _ _ _ _ _ R2), (bind_run _ _ _ _ _ R3).
    rewrite (bind_run _ _ _ _ _ (R4 f ltac:(lia))). unfold pipecmd. by rewrite (bind_run _ _ _ _ _ R5).
  - split_and!; [congruence| |done|]; cbn [fst]; rewrite Hn3.
    + eapply extends_trans; [|apply extends_app]. by eapply extends_trans.
    + exists p1, p2. split_and!; [by apply list_lookup_middle|eapply built_extends; [apply extends_app|]..]; [by eapply built_extends|done].
Qed.

(** The pipeline of a line with its ampersands. *)
Lemma parse_front p n s ps k :
  parses parsepipe pipe_ok pipe_toks sem_pipe ")&;" p → sh_mem s = m → pipe_ok p →
  ready ps (pipe_toks p ++ replicate n (TSym 38) ++ k) → follows ");" k →
  ∃ r1 s1 r s', returns (λ f, parsepipe f ps es) s r1 s1 ∧ returns (λ f, parseback f r1.1 r1.2 es) s1 r s' ∧
    parsed s r s' k (λ N p', built m N p' (Nat.iter n CBack (sem_pipe p))).
Proof.
  intros IH Hm Hok Hr Hk. destruct (IH s ps _ Hm Hok Hr) as ([p1 ps1] & s1 & R1 & Hm1 & He1 & Hr1 & Hb1).
  { destruct n; [by eapply follows_weaken|by right]. }
  cbn [fst snd] in *. destruct (parseback_run n s1 p1 _ ps1 k Hm1 Hb1 Hr1) as (r & s' & R2 & Hm2 & He2 & Hr2 & Hb2); [by eapply follows_not|].
  exists (p1, ps1), s1, r, s'. split_and!; [done|done|]. split_and!; [done|by eapply extends_trans|done|done].
Qed.

Lemma parse_line p n : parses parsepipe pipe_ok pipe_toks sem_pipe ")&;" p → parses parseline line_ok line_toks sem_line ")" (GLine p n).
Proof.
  intros IH s ps k Hm Hok Hr Hk. cbn [line_toks] in Hr. rewrite <- app_assoc in Hr.
  destruct (parse_front p n s ps k IH Hm Hok Hr) as ([p1 ps1] & s1 & [p2 ps2] & s' & (F1 & R1) & (F2 & R2) & Hm' & He & Hr' & Hb); [by eapply follows_weaken|]. cbn [fst snd] in *.
  destruct (peek_ready s' ps2 ";" k Hm' Hr') as (ps3 & R3 & Hr3). rewrite (follows_not _ ";" _ Hk eq_refl) in R3.
  exists (p2, ps3), s'. split; [|done]. exists (S (F1 + F2)). intros [|f] Hf; [lia|]. cbn [parseline].
  by rewrite (bind_run _ _ _ _ _ (R1 f ltac:(lia))), (bind_run _ _ _ _ _ (R2 f ltac:(lia))), (bind_run _ _ _ _ _ R3).
Qed.

Lemma parse_seq p n l :
  parses parsepipe pipe_ok pipe_toks sem_pipe ")&;" p → parses parseline line_ok line_toks sem_line ")" l →
  parses parseline line_ok line_toks sem_line ")" (GSeq p n l).
Proof.
  intros IH IHl s ps k Hm [Hop Hol] Hr Hk. cbn [line_toks] in Hr. rewrite <- !app_assoc in Hr. cbn [app] in Hr.
  destruct (parse_front p n s ps _ IH Hm Hop Hr) as ([p1 ps1] & s1 & [p2 ps2] & s2 & (F1 & R1) & (F2 & R2) & Hm2 & He2 & Hr2 & Hb2); [by right|]. cbn [fst snd] in *.
  destruct (expect s2 ps2 ";" 59 _ Hm2 Hr2 eq_refl) as (ps3 & q & e & ps4 & R3 & R4 & Hr4).
  destruct (IHl s2 ps4 k Hm2 Hol Hr4 Hk) as ([p3 ps5] & s3 & (F3 & R5) & Hm3 & He3 & Hr5 & Hb3). cbn [fst snd] in *.
  destruct (new_node_run s3 (LIST p2 p3)) as (s' & R6 & Hm' & Hn'). exists (length (sh_nodes s3), ps5), s'. split.
  - exists (S (F1 + F2 + F3)). intros [|f] Hf; [lia|]. cbn [parseline].
    rewrite (bind_run _ _ _ _ _ (R1 f ltac:(lia))), (bind_run _ _ _ _ _ (R2 f ltac:(lia))), (bind_run _ _ _ _ _ R3), (bind_run _ _ _ _ _ R4).
    rewrite (bind_run _ _ _ _ _ (R5 f ltac:(lia))). unfold listcmd. by rewrite (bind_run _ _ _ _ _ R6).
  - split_and!; [congruence| |done|]; cbn [fst]; rewrite Hn'.
    + eapply extends_trans; [|apply extends_app]. by eapply extends_trans.
    + exists p2, p3. split_and!; [by apply list_lookup_middle|eapply built_extends; [apply extends_app|]..]; [by eapply built_extends|done].
Qed.

Lemma parser_complete :
  (∀ e, parses parseexec exec_ok exec_toks sem_exec "|)&;" e) ∧
  (∀ p, parses parsepipe pipe_ok pipe_toks sem_pipe ")&;" p) ∧
  (∀ l, parses parseline line_ok line_toks sem_line ")" l).
Proof. apply grammar_ind; auto using parse_simple, parse_block, parse_one, parse_pipe, parse_line, parse_seq. Qed.
End parse.

(** ** Terminating the words *)

(** The string of a word. *)
Definition word_str (m : mem) (q : Z) (w : list Z) : Prop :=
  Forall (λ c, word_char c = true) w ∧ (∀ i c, w !! i = Some c → m (q + Z.of_nat i) = c) ∧ m (q + Z.of_nat (length w)) = 0.

(** The command [c], as [runcmd] will find it: a tree of nodes with strings. *)
Fixpoint command (m : mem) (N : list node) (p : nat) (c : cmd) : Prop :=
  match c with
  | CExec args => ∃ argv eargv, N !! p = Some (EXEC argv eargv) ∧
      (∀ i w, args !! i = Some w → ∃ q, argv !! i = Some q ∧ q ≠ 0 ∧ word_str m q w) ∧ argv !! length args = Some 0
  | CRedir c file mode fd => ∃ p' q e, N !! p = Some (REDIR p' q e mode fd) ∧ word_str m q file ∧ command m N p' c
  | CPipe l r => ∃ p1 p2, N !! p = Some (PIPE p1 p2) ∧ command m N p1 l ∧ command m N p2 r
  | CList l r => ∃ p1 p2, N !! p = Some (LIST p1 p2) ∧ command m N p1 l ∧ command m N p2 r
  | CBack c => ∃ p', N !! p = Some (BACK p') ∧ command m N p' c
  end.

(** [m'] is [m] with some characters between words cut out. *)
Definition cut (m m' : mem) : Prop := ∀ y, m' y = m y ∨ m' y = 0 ∧ word_char (m y) = false.

Lemma word_char_0 : word_char 0 = false.
Proof. done. Qed.

Lemma cut_str m m' q e w : word_at m q e w → cut m m' → m' e = 0 → word_str m' q w.
Proof.
  intros (-> & Hw & Hb & _) Hc H0. split_and!; [done| |done]. intros i c Hi. specialize (Hb i c Hi).
  destruct (Hc (q + Z.of_nat i)) as [->|[_ Hn]]; [done|]. rewrite Forall_lookup in Hw. rewrite Hb, (Hw i c Hi) in Hn. done.
Qed.

Lemma cut_store m m' e : cut m m' → word_char (m e) = false → cut m (store8 m' e 0).
Proof.
  intros Hc He y. destruct (Z.eq_dec y e) as [->|Hne]; [right|]; [by rewrite store8_eq|]. rewrite store8_ne by done. apply Hc.
Qed.

(** Later cuts leave the strings alone. *)
Definition cuts_more (m m1 m2 : mem) : Prop := cut m m1 ∧ cut m m2 ∧ ∀ y, m1 y = 0 → m2 y = 0.

Lemma str_more m m1 m2 q w : cuts_more m m1 m2 → word_str m1 q w → word_str m2 q w.
Proof.
  intros (H1 & H2 & H0) (Hw & Hb & He). split_and!; [done| |auto]. intros i c Hi. pose proof (Hb i c Hi) as Hm.
  rewrite Forall_lookup in Hw. pose proof (Hw i c Hi) as Hwc.
  assert (Em : m (q + Z.of_nat i) = c).
  { destruct (H1 (q + Z.of_nat i)) as [E|[E _]]; [congruence|]. rewrite E in Hm. rewrite <- Hm, word_char_0 in Hwc. done. }
  destruct (H2 (q + Z.of_nat i)) as [->|[_ Hn]]; [done|]. rewrite Em in Hn. congruence.
Qed.

Lemma command_more m m1 m2 N p c : cuts_more m m1 m2 → command m1 N p c → command m2 N p c.
Proof.
  intros Hm. revert p. induction c as [args|c IH file mode fd|l IHl r IHr|l IHl r IHr|c IH]; intros p; cbn.
  - intros (a & e & H & Hw & H0). exists a, e. split_and!; [done| |done]. intros i w Hi. destruct (Hw i w Hi) as (q & ? & ? & ?). eauto using str_more.
  - intros (p' & q & e & H & Hw & Hb). exists p', q, e. eauto using str_more.
  - intros (p1 & p2 & H & H1 & H2). exists p1, p2. auto.
  - intros (p1 & p2 & H & H1 & H2). exists p1, p2. auto.
  - intros (p' & H & Hb). exists p'. auto.
Qed.

Lemma terminate_args_spec m ws : ∀ m1 argv eargv,
  (∀ i w, ws !! i = Some w → ∃ q e, argv !! i = Some q ∧ eargv !! i = Some e ∧ q ≠ 0 ∧ word_at m q e w) →
  argv !! length ws = Some 0 → cut m m1 →
  cuts_more m m1 (terminate_args m1 argv eargv) ∧
  ∀ i w, ws !! i = Some w → ∃ q, argv !! i = Some q ∧ q ≠ 0 ∧ word_str (terminate_args m1 argv eargv) q w.
Proof.
  induction ws as [|w ws IH]; intros m1 argv eargv Hw H0 Hc.
  - destruct argv as [|a argv]; [done|]. cbn in H0. injection H0 as ->. assert (E : terminate_args m1 (0 :: argv) eargv = m1) by (by destruct eargv).
    rewrite E. split; [done|]. intros i w Hi. by rewrite lookup_nil in Hi.
  - destruct (Hw 0%nat w eq_refl) as (q & e & Ha & He & Hq & Hat). destruct argv as [|a argv], eargv as [|e' eargv]; try done. cbn in Ha, He. injection Ha as ->. injection He as ->.
    cbn [terminate_args]. ztest (q =? 0) is false. pose proof Hat as (_ & _ & _ & Hend).
    destruct (IH (store8 m1 e 0) argv eargv) as [(C1 & C2 & C3) Hs]; [intros i v Hi; by apply (Hw (S i))|done|by apply cut_store|].
    split.
    + split_and!; [done|done|]. intros y Hy. apply C3. destruct (Z.eq_dec y e) as [->|Hne]; [by rewrite store8_eq|by rewrite store8_ne].
    + intros [|i] v Hi; [|by apply (Hs i)]. injection Hi as ->. exists q. split_and!; [done|done|].
      eapply cut_str; [done|done|]. apply C3. by rewrite store8_eq.
Qed.
