(* ===== verification/ShSound.v ===== *)
(** * The shell's parser accepts only lines of its grammar (sh.c) *)

From Stdlib Require Import ZArith Lia String.
From stdpp Require Import base numbers list strings.
From S2P Require Import Prelude Mem Str Sysfile Sh ShLex ShParse.

(** ** Every line spells some tokens *)

Lemma word_prefix l : ∃ w rest, l = w ++ rest ∧ Forall (λ c, word_char c = true) w ∧ match rest with [] => True | c :: _ => word_char c = false end.
Proof.
  induction l as [|c l (w & rest & -> & Hw & Hr)]; [by exists [], []|]. destruct (word_char c) eqn:E.
  - exists (c :: w), rest. split_and!; [done|by constructor|done].
  - exists [], (c :: w ++ rest). done.
Qed.

Lemma spells_space c ts txt : space c = true → spells ts txt → spells ts (c :: txt).
Proof.
  intros Hc [sp Hsp|sp t ts' rest Hsp Ht Hsep Hs]; [constructor; by constructor|].
  apply (spells_cons (c :: sp)); [by constructor|done|done|done].
Qed.

Lemma tokenize n : ∀ txt, (length txt <= n)%nat → Forall (λ c, c ≠ 0) txt → ∃ ts, spells ts txt.
Proof.
  induction n as [|n IH]; intros txt Hn H0.
  { destruct txt; [|cbn in Hn; lia]. exists []. by constructor. }
  destruct txt as [|c txt]; [exists []; by constructor|]. cbn in Hn. apply Forall_cons in H0 as [Hc0 H0].
  destruct (space c) eqn:Hsp; [destruct (IH txt) as [ts Hts]; [lia|done|]; exists ts; by apply spells_space|].
  destruct (is_in symbols c) eqn:Hsy.
  - destruct (Z.eq_dec c 62) as [->|Hc].
    + destruct txt as [|d txt]; [exists [TSym 62]; apply (spells_cons [] (TSym 62) [] []); [done|done|done|by constructor]|]. cbn in Hn.
      pose proof H0 as H0'. apply Forall_cons in H0' as [Hd H1]. destruct (Z.eq_dec d 62) as [->|Hd'].
      * destruct (IH txt) as [ts Hts]; [lia|done|]. exists (TAppend :: ts). apply (spells_cons [] TAppend ts txt); [done|done|by destruct txt|done].
      * destruct (IH (d :: txt)) as [ts Hts]; [cbn; lia|done|]. exists (TSym 62 :: ts). apply (spells_cons [] (TSym 62) ts (d :: txt)); [done|done|by intros _|done].
    + destruct (IH txt) as [ts Hts]; [lia|done|]. exists (TSym c :: ts). apply (spells_cons [] (TSym c) ts txt); [done|done| |done]. destruct txt; [done|]. by intros ?.
  - destruct (word_prefix (c :: txt)) as (w & rest & E & Hw & Hr). destruct w as [|d w].
    { exfalso. cbn in E. subst rest. unfold word_char in Hr. rewrite Hsp, Hsy in Hr. replace (c =? 0) with false in Hr by (symmetry; by apply Z.eqb_neq). done. }
    injection E as -> ->. rewrite Forall_app in H0. destruct H0 as [_ H1]. rewrite length_app in Hn.
    destruct (IH rest) as [ts Hts]; [lia|done|]. exists (TWord (d :: w) :: ts). apply (spells_cons [] (TWord (d :: w)) ts rest); [done|done| |done].
    by destruct rest.
Qed.

Lemma input_nonzero m s es txt : input m s es txt → Forall (λ c, c ≠ 0) txt.
Proof. revert s. induction txt as [|c t IH]; intros s Hi; [done|]. destruct Hi as (_ & H0 & Hi). constructor; eauto. Qed.

(** ** The tokens of what is parsed *)

Section sound.
Context (m : mem) (es : Z).
Implicit Types s : shell.

(** What [peek] and [gettoken] say about the tokens. *)
Lemma peeks_sym toks t ts : tok_ok t → peeks toks (t :: ts) = true → forallb (is_in symbols) (chars toks) = true → forallb (λ c, negb (c =? 62)) (chars toks) = true →
  ∃ c, t = TSym c ∧ is_in (chars toks) c = true.
Proof.
  intros Ht Hp Hf Hn. destruct t as [w|c|]; [|by exists c|].
  - rewrite word_peeks in Hp; [done|done|by apply subset_symbols].
  - cbn in Hp. apply existsb_exists in Hp as (d & Hd & E%Z.eqb_eq). subst d. rewrite forallb_forall in Hn. by specialize (Hn 62 Hd).
Qed.

Lemma peeks_one toks c t ts : tok_ok t → peeks toks (t :: ts) = true → chars toks = [c] → is_in symbols c = true → c ≠ 62 → t = TSym c.
Proof.
  intros Ht Hp E Hc Hn. destruct (peeks_sym toks t ts Ht Hp) as (d & -> & Hd); rewrite ?E; cbn [forallb]; [by rewrite Hc|by rewrite (proj2 (Z.eqb_neq _ _))|].
  rewrite E in Hd. cbn in Hd. apply orb_true_iff in Hd as [->%Z.eqb_eq|?]; done.
Qed.

Lemma code_word t : tok_ok t → tok_code t = TOK_WORD → ∃ w, t = TWord w.
Proof.
  destruct t as [w|c|]; [by exists w| |done]. cbn. intros Hc ->. by vm_compute in Hc.
Qed.

Lemma code_nonzero t : tok_ok t → tok_code t ≠ 0.
Proof. destruct t as [w|c|]; [done| |done]. cbn. intros Hc ->. by vm_compute in Hc. Qed.

(** [gettoken] on any rest of a line. *)
Lemma gettoken_any s ps ts :
  sh_mem s = m → ready m es ps ts →
  ∃ q eq ps', gettoken ps es s = Done (match ts with [] => 0 | t :: _ => tok_code t end, q, eq, ps') s ∧ ready m es ps' (tail ts).
Proof.
  intros Hm Hr. destruct ts as [|t ts].
  - destruct (gettoken_none m es s ps Hm Hr) as (q & ps' & R & Hr'). by exists q, q, ps'.
  - destruct (gettoken_ready m es s ps t ts Hm Hr) as (q & e & ps' & R & Hr' & _). by exists q, e, ps'.
Qed.

Lemma new_node_mem n s p s' : new_node n s = Done p s' → sh_mem s' = sh_mem s.
Proof. intros H. by injection H as _ <-. Qed.

Lemma parseredirs_sound fuel : ∀ s c ps ts r s',
  sh_mem s = m → ready m es ps ts → parseredirs fuel c ps es s = Done r s' →
  sh_mem s' = m ∧ ∃ rs k, ts = redirs_toks rs ++ k ∧ ready m es r.2 k.
Proof.
  induction fuel as [|fuel IH]; intros s c ps ts r s' Hm Hr H; [done|]. cbn [parseredirs] in H.
  destruct (peek_ready m es s ps "<>" ts Hm Hr) as (ps1 & R1 & Hr1). rewrite (bind_run _ _ _ _ _ R1) in H.
  destruct (peeks "<>" ts) eqn:Hp; cbn [negb] in H; [|injection H as <- <-; split; [done|]; by exists [], ts].
  destruct ts as [|t ts]; [done|]. pose proof (ready_toks _ _ _ _ Hr) as [Ht Hts]%Forall_cons.
  destruct (gettoken_any s ps1 _ Hm Hr1) as (q1 & e1 & ps2 & R2 & Hr2). rewrite (bind_run _ _ _ _ _ R2) in H.
  destruct (gettoken_any s ps2 _ Hm Hr2) as (q2 & e2 & ps3 & R3 & Hr3). rewrite (bind_run _ _ _ _ _ R3) in H. cbn [tail] in *.
  destruct ts as [|t2 ts]; [done|]. apply Forall_cons in Hts as [Ht2 _]. destruct (Z.eqb_spec (tok_code t2) TOK_WORD) as [E|]; [|done].
  apply code_word in E as [w ->]; [|done]. cbn [negb] in H. apply bind_Done in H as (c' & s1 & Hn & H).
  assert (Hop : ∃ o, t = rop_tok o).
  { destruct t as [w'|d|]; [rewrite word_peeks in Hp; [done|done|by apply subset_symbols]| |by exists RAppend].
    cbn in Hp. zb; try done; subst d; [by exists RIn|by exists ROut]. }
  destruct Hop as [o ->]. assert (Hm1 : sh_mem s1 = m).
  { destruct o; cbn in Hn; apply new_node_mem in Hn; congruence. }
  destruct (IH s1 c' ps3 ts r s' Hm1 Hr3 H) as (Hm' & rs & k & -> & Hk). split; [done|]. by exists (GRedir o w :: rs), k.
Qed.

Lemma set_arg_mem x n q e s u s' : set_arg x n q e s = Done u s' → sh_mem s' = sh_mem s.
Proof. intros H. by injection H as _ <-. Qed.

Lemma parseargs_sound fuel : ∀ s x top argc ps ts r s',
  sh_mem s = m → ready m es ps ts → (argc < MAXARGS)%nat → parseargs fuel x top argc ps es s = Done r s' →
  sh_mem s' = m ∧ ∃ al k, ts = (al ≫= arg_toks) ++ k ∧ ready m es r.2 k ∧ (argc + length al < MAXARGS)%nat.
Proof.
  induction fuel as [|fuel IH]; intros s x top argc ps ts r s' Hm Hr Hl H; [done|]. cbn [parseargs] in H.
  destruct (peek_ready m es s ps "|)&;" ts Hm Hr) as (ps1 & R1 & Hr1). rewrite (bind_run _ _ _ _ _ R1) in H.
  destruct (peeks "|)&;" ts) eqn:Hp.
  { apply bind_Done in H as (u & s1 & Hs%set_arg_mem & [= <- <-]). split; [congruence|]. exists [], ts. split_and!; [done|done|cbn; lia]. }
  destruct (gettoken_any s ps1 _ Hm Hr1) as (q1 & e1 & ps2 & R2 & Hr2). rewrite (bind_run _ _ _ _ _ R2) in H.
  destruct ts as [|t ts]; cbn [tail] in *.
  { cbn [Z.eqb] in H. apply bind_Done in H as (u & s1 & Hs%set_arg_mem & [= <- <-]). split; [congruence|]. exists [], []. split_and!; [done|done|cbn; lia]. }
  pose proof (ready_toks _ _ _ _ Hr) as [Ht _]%Forall_cons. pose proof (code_nonzero t Ht) as H0. ztest (tok_code t =? 0) is false.
  replace (tok_code t =? 0) with false in H by (symmetry; by apply Z.eqb_neq).
  destruct (Z.eqb_spec (tok_code t) TOK_WORD) as [E|]; [|done]. apply code_word in E as [w ->]; [|done]. cbn [negb] in H.
  apply bind_Done in H as (u & s1 & Hs%set_arg_mem & H). destruct (Nat.leb_spec MAXARGS (S argc)) as [|Hl']; [done|].
  apply bind_Done in H as ([top2 ps3] & s2 & Hred & H). destruct (parseredirs_sound fuel s1 top ps2 ts _ _ ltac:(congruence) Hr2 Hred) as (Hm2 & rs & k1 & -> & Hk1).
  destruct (IH s2 x top2 (S argc) ps3 k1 r s' Hm2 Hk1 Hl' H) as (Hm' & al & k & -> & Hk & Hal). split; [done|].
  exists ((w, rs) :: al), k. split_and!; [|done|cbn; lia]. cbn. unfold redirs_toks. by rewrite <- !app_assoc.
Qed.

Lemma parseback_sound fuel : ∀ s p ps ts r s',
  sh_mem s = m → ready m es ps ts → parseback fuel p ps es s = Done r s' →
  sh_mem s' = m ∧ ∃ n k, ts = replicate n (TSym 38) ++ k ∧ ready m es r.2 k.
Proof.
  induction fuel as [|fuel IH]; intros s p ps ts r s' Hm Hr H; [done|]. cbn [parseback] in H.
  destruct (peek_ready m es s ps "&" ts Hm Hr) as (ps1 & R1 & Hr1). rewrite (bind_run _ _ _ _ _ R1) in H.
  destruct (peeks "&" ts) eqn:Hp; cbn [negb] in H; [|injection H as <- <-; split; [done|]; by exists O, ts].
  destruct ts as [|t ts]; [done|]. pose proof (ready_toks _ _ _ _ Hr) as [Ht _]%Forall_cons. apply (peeks_one _ 38) in Hp as ->; [|done..].
  destruct (gettoken_any s ps1 _ Hm Hr1) as (q1 & e1 & ps2 & R2 & Hr2). rewrite (bind_run _ _ _ _ _ R2) in H. cbn [tail] in *.
  apply bind_Done in H as (p1 & s1 & Hn%new_node_mem & H). destruct (IH s1 p1 ps2 ts r s' ltac:(congruence) Hr2 H) as (Hm' & n & k & -> & Hk).
  split; [done|]. by exists (S n), k.
Qed.

(** A symbol that was tested for and taken. *)
Lemma took toks c s ps ts :
  chars toks = [c] → is_in symbols c = true → c ≠ 62 → sh_mem s = m → ready m es ps ts →
  ∃ ps1, ready m es ps1 ts ∧ peek ps es toks s = Done (peeks toks ts, ps1) s ∧
    (peeks toks ts = true → ∃ ts' q e ps2, ts = TSym c :: ts' ∧ gettoken ps1 es s = Done (c, q, e, ps2) s ∧ ready m es ps2 ts').
Proof.
  intros Ec Hc Hn Hm Hr. destruct (peek_ready m es s ps toks ts Hm Hr) as (ps1 & R1 & Hr1). exists ps1. split_and!; [done|done|]. intros Hp.
  destruct ts as [|t ts]; [done|]. pose proof (ready_toks _ _ _ _ Hr) as [Ht _]%Forall_cons. apply (peeks_one _ c) in Hp as ->; [|done..].
  destruct (gettoken_any s ps1 _ Hm Hr1) as (q & e & ps2 & R2 & Hr2). by exists ts, q, e, ps2.
Qed.

Definition sound_at (fuel : nat) : Prop :=
  (∀ s ps ts r s', sh_mem s = m → ready m es ps ts → parseline fuel ps es s = Done r s' →
    sh_mem s' = m ∧ ∃ g k, line_ok g ∧ ts = line_toks g ++ k ∧ ready m es r.2 k) ∧
  (∀ s ps ts r s', sh_mem s = m → ready m es ps ts → parsepipe fuel ps es s = Done r s' →
    sh_mem s' = m ∧ ∃ g k, pipe_ok g ∧ ts = pipe_toks g ++ k ∧ ready m es r.2 k) ∧
  (∀ s ps ts r s', sh_mem s = m → ready m es ps ts → parseexec fuel ps es s = Done r s' →
    sh_mem s' = m ∧ ∃ g k, exec_ok g ∧ ts = exec_toks g ++ k ∧ ready m es r.2 k) ∧
  (∀ s ps ts r s', sh_mem s = m → ready m es ps ts → parseblock fuel ps es s = Done r s' →
    sh_mem s' = m ∧ ∃ g k, exec_ok g ∧ ts = exec_toks g ++ k ∧ ready m es r.2 k).

Lemma parser_sound fuel : sound_at fuel.
Proof.
  induction fuel as [|fuel (IHl & IHp & IHe & IHb)]; [by split_and!|]. split_and!; intros s ps ts r s' Hm Hr H.
  - cbn [parseline] in H. apply bind_Done in H as ([p1 ps1] & s1 & H1 & H). destruct (IHp s ps ts _ s1 Hm Hr H1) as (Hm1 & g & k1 & Hg & -> & Hk1).
    apply bind_Done in H as ([p2 ps2] & s2 & H2 & H). destruct (parseback_sound fuel s1 p1 ps1 k1 _ s2 Hm1 Hk1 H2) as (Hm2 & n & k2 & -> & Hk2).
    destruct (took ";" 59 s2 ps2 k2) as (ps3 & Hr3 & R3 & Htake); [done..|]. rewrite (bind_run _ _ _ _ _ R3) in H.
    destruct (peeks ";" k2); [|injection H as <- <-; split; [done|]; exists (GLine g n), k2; split_and!; [done|by cbn; rewrite app_assoc|done]].
    destruct (Htake eq_refl) as (k3 & q & e & ps4 & -> & R4 & Hr4). rewrite (bind_run _ _ _ _ _ R4) in H.
    apply bind_Done in H as ([p3 ps5] & s3 & H3 & H). destruct (IHl s2 ps4 k3 _ s3 Hm2 Hr4 H3) as (Hm3 & l & k & Hl & -> & Hk).
    apply bind_Done in H as (p4 & s4 & Hn%new_node_mem & [= <- <-]). split; [congruence|]. exists (GSeq g n l), k. split; [by split|]. split; [|done].
    cbn. by rewrite <- !app_assoc.
  - cbn [parsepipe] in H. apply bind_Done in H as ([p1 ps1] & s1 & H1 & H). destruct (IHe s ps ts _ s1 Hm Hr H1) as (Hm1 & g & k1 & Hg & -> & Hk1).
    destruct (took "|" 124 s1 ps1 k1) as (ps2 & Hr2 & R2 & Htake); [done..|]. rewrite (bind_run _ _ _ _ _ R2) in H.
    destruct (peeks "|" k1); [|injection H as <- <-; split; [done|]; by exists (GOne g), k1].
    destruct (Htake eq_refl) as (k2 & q & e & ps3 & -> & R3 & Hr3). rewrite (bind_run _ _ _ _ _ R3) in H.
    apply bind_Done in H as ([p2 ps4] & s2 & H2 & H). destruct (IHp s1 ps3 k2 _ s2 Hm1 Hr3 H2) as (Hm2 & p & k & Hp & -> & Hk).
    apply bind_Done in H as (p4 & s4 & Hn%new_node_mem & [= <- <-]). split; [congruence|]. exists (GPipe g p), k. split; [by split|]. split; [|done].
    cbn. by rewrite <- !app_assoc.
  - cbn [parseexec] in H. destruct (peek_ready m es s ps "(" ts Hm Hr) as (ps1 & R1 & Hr1). rewrite (bind_run _ _ _ _ _ R1) in H.
    destruct (peeks "(" ts); [by apply (IHb s ps1)|]. apply bind_Done in H as (x & s1 & Hn%new_node_mem & H).
    apply bind_Done in H as ([top ps2] & s2 & H2 & H). destruct (parseredirs_sound fuel s1 x ps1 ts _ s2 ltac:(congruence) Hr1 H2) as (Hm2 & rs & k1 & -> & Hk1).
    destruct (parseargs_sound fuel s2 x top 0 ps2 k1 r s' Hm2 Hk1 ltac:(unfold MAXARGS; lia) H) as (Hm' & al & k & -> & Hk & Hl). split; [done|].
    exists (GSimple rs al), k. split_and!; [exact Hl|by cbn; rewrite app_assoc|done].
  - cbn [parseblock] in H. destruct (took "(" 40 s ps ts) as (ps1 & Hr1 & R1 & Htake); [done..|]. rewrite (bind_run _ _ _ _ _ R1) in H.
    destruct (peeks "(" ts); [|done]. destruct (Htake eq_refl) as (k1 & q & e & ps2 & -> & R2 & Hr2). cbn [negb] in H. rewrite (bind_run _ _ _ _ _ R2) in H.
    apply bind_Done in H as ([p1 ps3] & s1 & H1 & H). destruct (IHl s ps2 k1 _ s1 Hm Hr2 H1) as (Hm1 & l & k2 & Hl & -> & Hk2).
    destruct (took ")" 41 s1 ps3 k2) as (ps4 & Hr4 & R4 & Htake'); [done..|]. rewrite (bind_run _ _ _ _ _ R4) in H.
    destruct (peeks ")" k2); [|done]. destruct (Htake' eq_refl) as (k3 & q' & e' & ps5 & -> & R5 & Hr5). cbn [negb] in H. rewrite (bind_run _ _ _ _ _ R5) in H.
    destruct (parseredirs_sound fuel s1 p1 ps5 k3 r s' Hm1 Hr5 H) as (Hm' & rs & k & -> & Hk). split; [done|].
    exists (GBlock l rs), k. split_and!; [done| |done]. cbn. by rewrite <- app_assoc.
Qed.
End sound.
