(* ===== verification/ShRun.v ===== *)
(** * Running commands (runcmd and main of sh.c)

    [runcmd] is the sequence of system calls a process makes, a [prog]; a fork
    continues with 0 in the child and with another number in the parent.  What
    the calls do to descriptors is the kernel's ([Sysfile.v]); [run] has what
    the shell relies on: descriptors are numbers into a table, open, dup and
    pipe take the lowest free ones.  At the end of the file: the loop of main. *)

From Stdlib Require Import ZArith Lia String.
From stdpp Require Import base numbers list strings.
From S2P Require Import Prelude Mem Str Sysfile Sh ShLex ShParse.

Inductive prog : Type :=
| Exit
| Exec (path : Z) (argv : list Z) (k : prog)
| Print (fmt : string) (arg : Z) (k : prog)
| Close (fd : Z) (k : prog)
| Open (file mode : Z) (k : Z → prog)
| Pipe (k : Z → Z → Z → prog)
| Dup (fd : Z) (k : prog)
| Fork (k : Z → prog)
| Wait (k : prog)
| Loop.

(** [panic] of the shell. *)
Definition sh_panic (msg : string) : prog := Print msg 0 Exit.

Definition fork1 (k : Z → prog) : prog := Fork (λ pid, if pid =? -1 then sh_panic "fork" else k pid).

Fixpoint runcmd (fuel : nat) (N : list node) (cmd : nat) : prog :=
  match fuel with
  | O => Loop
  | S fuel' =>
      match N !! cmd with
      | None => Exit
      | Some (EXEC argv eargv) =>
          let path := default 0 (argv !! 0%nat) in
          if path =? 0 then Exit else Exec path argv (Print "exec %s failed" path Exit)
      | Some (REDIR c file efile mode fd) =>
          Close fd (Open file mode (λ r, if r <? 0 then Print "open %s failed" file Exit else runcmd fuel' N c))
      | Some (LIST l1 l2) =>
          fork1 (λ pid, if pid =? 0 then runcmd fuel' N l1 else Wait (runcmd fuel' N l2))
      | Some (PIPE l1 l2) =>
          Pipe (λ r p0 p1,
            if r <? 0 then sh_panic "pipe"
            else
              fork1 (λ pid,
                if pid =? 0 then Close 1 (Dup p1 (Close p0 (Close p1 (runcmd fuel' N l1))))
                else
                  fork1 (λ pid,
                    if pid =? 0 then Close 0 (Dup p0 (Close p0 (Close p1 (runcmd fuel' N l2))))
                    else Close p0 (Close p1 (Wait (Wait Exit))))))
      | Some (BACK c) =>
          fork1 (λ pid, if pid =? 0 then runcmd fuel' N c else Exit)
      end
  end.

(** ** Descriptors *)

(** What a descriptor refers to: a file opened by name, an end of a pipe, or
    what the shell was started with. *)
Inductive obj (F : Type) : Type :=
| OFile (file : F) (mode : Z)
| OPipeR (n : nat)
| OPipeW (n : nat)
| OOther (x : nat).
#[global] Arguments OFile {F}.
#[global] Arguments OPipeR {F}.
#[global] Arguments OPipeW {F}.
#[global] Arguments OOther {F}.

Fixpoint lowest {A : Type} (t : list (option A)) : option nat :=
  match t with
  | [] => None
  | None :: _ => Some O
  | Some _ :: t' => S <$> lowest t'
  end.

Definition fd_close {A : Type} (fd : Z) (t : list (option A)) : list (option A) := <[Z.to_nat fd := None]> t.
Definition fd_get {A : Type} (fd : Z) (t : list (option A)) : option A := mjoin (t !! Z.to_nat fd).

(** A program started by exec: its arguments and its descriptors. *)
Definition event (F : Type) : Type := list F * list (option (obj F)).

(** The programs that a process and its children start.  [n] numbers the pipes.
    Calls of exec and fork succeed. *)
Fixpoint run (p : prog) (t : list (option (obj Z))) (n : nat) : option (list (event Z) * nat) :=
  match p with
  | Exit => Some ([], n)
  | Exec _ argv _ => Some ([(argv, t)], n)
  | Print _ _ k => run k t n
  | Close fd k => run k (fd_close fd t) n
  | Open file mode k =>
      match lowest t with
      | Some i => run (k (Z.of_nat i)) (<[i := Some (OFile file mode)]> t) n
      | None => run (k (-1)) t n
      end
  | Pipe k =>
      match lowest t with
      | Some i =>
          let t1 := <[i := Some (OPipeR n)]> t in
          match lowest t1 with
          | Some j => run (k 0 (Z.of_nat i) (Z.of_nat j)) (<[j := Some (OPipeW n)]> t1) (S n)
          | None => run (k (-1) 0 0) t n
          end
      | None => run (k (-1) 0 0) t n
      end
  | Dup fd k =>
      match fd_get fd t, lowest t with
      | Some o, Some i => run k (<[i := Some o]> t) n
      | _, _ => run k t n
      end
  | Fork k =>
      match run (k 0) t n with
      | Some (ev1, n1) =>
          match run (k 1) t n1 with
          | Some (ev2, n2) => Some (ev1 ++ ev2, n2)
          | None => None
          end
      | None => None
      end
  | Wait k => run k t n
  | Loop => None
  end.

(** ** What the command asks for *)

Fixpoint plan (c : cmd) (t : list (option (obj (list Z)))) (n : nat) : list (event (list Z)) * nat :=
  match c with
  | CExec args => (match args with [] => [] | _ => [(args, t)] end, n)
  | CRedir c file mode fd => plan c (<[Z.to_nat fd := Some (OFile file mode)]> t) n
  | CPipe l r =>
      let (ev1, n1) := plan l (<[1%nat := Some (OPipeW n)]> t) (S n) in
      let (ev2, n2) := plan r (<[0%nat := Some (OPipeR n)]> t) n1 in
      (ev1 ++ ev2, n2)
  | CList l r =>
      let (ev1, n1) := plan l t n in
      let (ev2, n2) := plan r t n1 in
      (ev1 ++ ev2, n2)
  | CBack c => plan c t n
  end.

(** ** The tables *)

(** Descriptors 0 and 1 are open; [i] and [j] are the lowest free ones. *)
Record usable {A : Type} (t : list (option A)) (i j : nat) : Prop := {
  us_i : (2 <= i)%nat;
  us_ij : (i < j)%nat;
  us_free_i : t !! i = Some None;
  us_free_j : t !! j = Some None;
  us_open k : (k < j)%nat → k ≠ i → ∃ x, t !! k = Some (Some x)
}.

Lemma lowest_at {A : Type} (t : list (option A)) i :
  t !! i = Some None → (∀ k, (k < i)%nat → ∃ x, t !! k = Some (Some x)) → lowest t = Some i.
Proof.
  revert i. induction t as [|o t IH]; intros i Hi Hk; [done|]. destruct i as [|i]; cbn in Hi.
  - by injection Hi as ->.
  - destruct (Hk O ltac:(lia)) as [x Hx]. cbn in Hx. injection Hx as ->. cbn. rewrite (IH i); [done|done|].
    intros k Hlt. apply (Hk (S k)). lia.
Qed.

Section tables.
Context {A : Type}.
Implicit Types t : list (option A).

Lemma usable_insert t i j k x : usable t i j → (k < 2)%nat → usable (<[k := Some x]> t) i j.
Proof.
  intros [H1 H2 H3 H4 H5] Hk. split; [done|done|by rewrite list_lookup_insert_ne by lia|by rewrite list_lookup_insert_ne by lia|].
  intros l Hl Hne. destruct (decide (l = k)) as [->|]; [|rewrite list_lookup_insert_ne by done; by apply H5].
  exists x. apply list_lookup_insert_eq. apply lookup_lt_Some in H4. lia.
Qed.

Lemma usable_lowest t i j : usable t i j → lowest t = Some i.
Proof. intros [H1 H2 H3 H4 H5]. apply lowest_at; [done|]. intros k Hk. apply H5; lia. Qed.

Lemma usable_lowest2 t i j x : usable t i j → lowest (<[i := Some x]> t) = Some j.
Proof.
  intros [H1 H2 H3 H4 H5]. apply lowest_at; [by rewrite list_lookup_insert_ne by lia|]. intros k Hk.
  destruct (decide (k = i)) as [->|]; [exists x; apply list_lookup_insert_eq; apply lookup_lt_Some in H3; lia|].
  rewrite list_lookup_insert_ne by done. apply H5; lia.
Qed.

(** Closing descriptor 0 or 1 makes it the lowest free one. *)
Lemma close_lowest t i j k : usable t i j → (k < 2)%nat → lowest (<[k := None]> t) = Some k.
Proof.
  intros [H1 H2 H3 H4 H5] Hk. apply lookup_lt_Some in H4 as Hl. apply lowest_at; [apply list_lookup_insert_eq; lia|].
  intros l Hlk. rewrite list_lookup_insert_ne by lia. apply H5; lia.
Qed.

(** A child of a pipeline: one end becomes descriptor [k], both ends are closed. *)
Lemma plumb t i j k x y z :
  usable t i j → (k < 2)%nat →
  <[j := None]> (<[i := None]> (<[k := Some x]> (<[k := None]> (<[j := Some y]> (<[i := Some z]> t))))) = <[k := Some x]> t.
Proof.
  intros [H1 H2 H3 H4 H5] Hk. apply list_eq. intros l. apply lookup_lt_Some in H4 as Hl.
  destruct (decide (l = j)) as [->|Hj]; [rewrite list_lookup_insert_eq by (rewrite !length_insert; lia); by rewrite list_lookup_insert_ne by lia|].
  rewrite (list_lookup_insert_ne _ j) by done.
  destruct (decide (l = i)) as [->|Hi]; [rewrite list_lookup_insert_eq by (rewrite !length_insert; lia); by rewrite list_lookup_insert_ne by lia|].
  rewrite (list_lookup_insert_ne _ i) by done.
  destruct (decide (l = k)) as [->|Hlk]; [by rewrite !list_lookup_insert_eq by (rewrite ?length_insert; lia)|].
  by rewrite !list_lookup_insert_ne by done.
Qed.

Lemma plumb_get t i j k y z :
  usable t i j → (k < 2)%nat →
  <[k := None]> (<[j := Some y]> (<[i := Some z]> t)) !! j = Some (Some y) ∧ <[k := None]> (<[j := Some y]> (<[i := Some z]> t)) !! i = Some (Some z) ∧
  lowest (<[k := None]> (<[j := Some y]> (<[i := Some z]> t))) = Some k.
Proof.
  intros [H1 H2 H3 H4 H5] Hk. apply lookup_lt_Some in H4 as Hl. split_and!.
  - rewrite list_lookup_insert_ne by lia. apply list_lookup_insert_eq. rewrite length_insert. lia.
  - rewrite !list_lookup_insert_ne by lia. apply list_lookup_insert_eq. lia.
  - apply lowest_at; [apply list_lookup_insert_eq; rewrite !length_insert; lia|]. intros l Hlk. rewrite !list_lookup_insert_ne by lia. apply H5; lia.
Qed.
End tables.

(** ** The programs that are started *)

Definition omatch (m : mem) (o : obj Z) (o' : obj (list Z)) : Prop :=
  match o, o' with
  | OFile q mode, OFile w mode' => word_str m q w ∧ mode = mode'
  | OPipeR n, OPipeR n' | OPipeW n, OPipeW n' | OOther n, OOther n' => n = n'
  | _, _ => False
  end.
Definition tmatch (m : mem) : list (option (obj Z)) → list (option (obj (list Z))) → Prop := Forall2 (option_Forall2 (omatch m)).

(** The arguments of exec are strings, ended by a null pointer. *)
Definition ematch (m : mem) (e : event Z) (e' : event (list Z)) : Prop :=
  (∀ i w, e'.1 !! i = Some w → ∃ q, e.1 !! i = Some q ∧ q ≠ 0 ∧ word_str m q w) ∧ e.1 !! length e'.1 = Some 0 ∧ tmatch m e.2 e'.2.

(** Redirections are of descriptors 0 and 1, as the parser makes them. *)
Fixpoint std_fds (c : cmd) : Prop :=
  match c with
  | CExec _ => True
  | CRedir c _ _ fd => 0 <= fd < 2 ∧ std_fds c
  | CPipe l r | CList l r => std_fds l ∧ std_fds r
  | CBack c => std_fds c
  end.

Lemma tmatch_insert m t t' k o o' : tmatch m t t' → omatch m o o' → tmatch m (<[k := Some o]> t) (<[k := Some o']> t').
Proof. intros Ht Ho. apply Forall2_insert; [done|by constructor]. Qed.

(** What [runcmd] does on the command [c]. *)
Definition runs (m : mem) (N : list node) (p : nat) (c : cmd) : Prop :=
  ∀ t t' i j n, tmatch m t t' → usable t i j → ∃ F, ∀ fuel, (F <= fuel)%nat → ∃ ev,
    run (runcmd fuel N p) t n = Some (ev, (plan c t' n).2) ∧ Forall2 (ematch m) ev (plan c t' n).1.

Lemma runs_exec m N p args : command m N p (CExec args) → runs m N p (CExec args).
Proof.
  intros (argv & eargv & Hp & Hw & H0) t t' i j n Ht Hu. exists 1%nat. intros [|fuel] Hf; [lia|]. cbn [runcmd]. rewrite Hp.
  destruct args as [|w args].
  - change (argv !! 0%nat = Some 0) in H0. rewrite H0. cbn. by exists [].
  - destruct (Hw O w eq_refl) as (q & Hq & Hq0 & _). rewrite Hq. cbn [default]. unfold id. ztest (q =? 0) is false.
    exists [(argv, t)]. split; [done|]. constructor; [|done]. split_and!; [done|done|done].
Qed.

Lemma runs_redir m N p p' c q e file mode fd :
  N !! p = Some (REDIR p' q e mode fd) → word_str m q file → 0 <= fd < 2 → runs m N p' c → runs m N p (CRedir c file mode fd).
Proof.
  intros Hp Hq Hfd IH t t' i j n Ht Hu. set (k := Z.to_nat fd). assert (Hk : (k < 2)%nat) by lia.
  destruct (IH (<[k := Some (OFile q mode)]> t) (<[k := Some (OFile file mode)]> t') i j n) as (F & HF); [by apply tmatch_insert|by apply usable_insert|].
  exists (S F). intros [|fuel] Hf; [lia|]. destruct (HF fuel ltac:(lia)) as (ev & R & Hev). exists ev. split; [|done].
  cbn [runcmd]. rewrite Hp. cbn [run]. unfold fd_close. fold k. rewrite (close_lowest t i j k Hu Hk).
  ztest (Z.of_nat k <? 0) is false. rewrite list_insert_insert_eq. exact R.
Qed.

Lemma runs_list m N p p1 p2 l r :
  N !! p = Some (LIST p1 p2) → runs m N p1 l → runs m N p2 r → runs m N p (CList l r).
Proof.
  intros Hp IH1 IH2 t t' i j n Ht Hu. destruct (IH1 t t' i j n Ht Hu) as (F1 & H1). destruct (IH2 t t' i j (plan l t' n).2 Ht Hu) as (F2 & H2).
  exists (S (F1 + F2)). intros [|fuel] Hf; [lia|]. destruct (H1 fuel ltac:(lia)) as (ev1 & R1 & E1). destruct (H2 fuel ltac:(lia)) as (ev2 & R2 & E2).
  exists (ev1 ++ ev2). cbn [runcmd plan]. rewrite Hp. cbn [run fork1]. cbn [Z.eqb]. rewrite R1. cbn [run]. rewrite R2.
  destruct (plan l t' n) as [e1 n1]. cbn [fst snd] in *. destruct (plan r t' n1) as [e2 n2]. split; [done|]. by apply Forall2_app.
Qed.

Lemma runs_back m N p p' c : N !! p = Some (BACK p') → runs m N p' c → runs m N p (CBack c).
Proof.
  intros Hp IH t t' i j n Ht Hu. destruct (IH t t' i j n Ht Hu) as (F & HF). exists (S F). intros [|fuel] Hf; [lia|].
  destruct (HF fuel ltac:(lia)) as (ev & R & E). exists ev. split; [|done]. cbn [runcmd plan]. rewrite Hp. cbn [run fork1]. cbn [Z.eqb]. rewrite R.
  cbn. by rewrite app_nil_r.
Qed.

Lemma runs_pipe m N p p1 p2 l r :
  N !! p = Some (PIPE p1 p2) → runs m N p1 l → runs m N p2 r → runs m N p (CPipe l r).
Proof.
  intros Hp IH1 IH2 t t' i j n Ht Hu.
  destruct (IH1 (<[1%nat := Some (OPipeW n)]> t) (<[1%nat := Some (OPipeW n)]> t') i j (S n)) as (F1 & H1); [by apply tmatch_insert|by apply usable_insert; [|lia]|].
  destruct (IH2 (<[0%nat := Some (OPipeR n)]> t) (<[0%nat := Some (OPipeR n)]> t') i j (plan l (<[1%nat := Some (OPipeW n)]> t') (S n)).2) as (F2 & H2);
    [by apply tmatch_insert|by apply usable_insert; [|lia]|].
  exists (S (F1 + F2)). intros [|fuel] Hf; [lia|]. destruct (H1 fuel ltac:(lia)) as (ev1 & R1 & E1). destruct (H2 fuel ltac:(lia)) as (ev2 & R2 & E2).
  exists (ev1 ++ ev2). cbn [runcmd plan]. rewrite Hp. cbn [run].
  rewrite (usable_lowest t i j Hu), (usable_lowest2 t i j _ Hu). change (0 <? 0) with false. cbn iota. unfold fork1. cbn [run]. change (0 =? -1) with false.
  change (0 =? 0) with true. cbn iota. cbn [run]. unfold fd_close, fd_get. rewrite !Nat2Z.id.
  change (Z.to_nat 1) with 1%nat. change (Z.to_nat 0) with 0%nat.
  destruct (plumb_get t i j 1 (OPipeW n) (OPipeR n) Hu ltac:(lia)) as (G1 & _ & L1). rewrite G1, L1. cbn [mjoin option_join].
  rewrite (plumb t i j 1 (OPipeW n) (OPipeW n) (OPipeR n) Hu) by lia. rewrite R1.
  change (1 =? -1) with false. change (1 =? 0) with false. cbn iota. cbn [run]. change (0 =? -1) with false. change (0 =? 0) with true. cbn iota. cbn [run].
  unfold fd_close, fd_get. rewrite !Nat2Z.id. change (Z.to_nat 0) with 0%nat.
  destruct (plumb_get t i j 0 (OPipeW n) (OPipeR n) Hu ltac:(lia)) as (_ & G2 & L2). rewrite G2, L2. cbn [mjoin option_join].
  rewrite (plumb t i j 0 (OPipeR n) (OPipeW n) (OPipeR n) Hu) by lia. rewrite R2. cbn.
  destruct (plan l _ (S n)) as [e1 n1]. cbn [fst snd] in *. destruct (plan r _ n1) as [e2 n2]. rewrite !app_nil_r. split; [done|]. by apply Forall2_app.
Qed.

Lemma runcmd_runs m N c : ∀ p, command m N p c → std_fds c → runs m N p c.
Proof.
  induction c as [args|c IH file mode fd|l IHl r IHr|l IHl r IHr|c IH]; intros p Hc Hs.
  - by apply runs_exec.
  - destruct Hc as (p' & q & e & Hp & Hq & Hc). destruct Hs as [Hfd Hs]. eauto using runs_redir.
  - destruct Hc as (p1 & p2 & Hp & H1 & H2). destruct Hs. eauto using runs_pipe.
  - destruct Hc as (p1 & p2 & Hp & H1 & H2). destruct Hs. eauto using runs_list.
  - destruct Hc as (p' & Hp & H1). eauto using runs_back.
Qed.

Lemma wrap_std c rs : std_fds c → std_fds (wrap c rs).
Proof. revert c. induction rs as [|[[] f] rs IH]; intros c Hc; [done|..]; apply IH; cbn; (split; [lia|done]). Qed.

Lemma back_std n c : std_fds c → std_fds (Nat.iter n CBack c).
Proof. intros Hc. by induction n. Qed.

Lemma sem_std : (∀ e, std_fds (sem_exec e)) ∧ (∀ p, std_fds (sem_pipe p)) ∧ (∀ l, std_fds (sem_line l)).
Proof. apply grammar_ind; intros; cbn; repeat (apply wrap_std || split || apply back_std); done. Qed.

(** ** The loop of main

    Standard input is the bytes still to be read; a read of one byte returns 0 at
    the end.  [buf] is the array after memset and gets: what was read, then zeros. *)

(** gets of ulib.c with room for [room] more characters: what it stores, and the
    input left. *)
Fixpoint gets_loop (room : nat) (inp : list Z) : list Z * list Z :=
  match room with
  | O => ([], inp)
  | S room' =>
      match inp with
      | [] => ([], [])
      | c :: inp' =>
          if (c =? 10) || (c =? 13) then ([c], inp')
          else let r := gets_loop room' inp' in (c :: r.1, r.2)
      end
  end.
Definition gets_line (max : nat) (inp : list Z) : list Z * list Z := gets_loop (max - 1) inp.

(** The string in the buffer: up to the first 0. *)
Fixpoint c_string (buf : list Z) : list Z :=
  match buf with [] => [] | c :: buf' => if c =? 0 then [] else c :: c_string buf' end.

Inductive sh_event : Type :=
| Prompt
| Chdir (path : list Z)
| CannotCd (path : list Z)
| Child (line : list Z)  (** a child that runs [runcmd(parsecmd(buf))] *)
| Waited
| ForkFailed.

(** [getcmd]: the line, or [None] for -1, and the input left. *)
Definition getcmd (nbuf : nat) (inp : list Z) : option (list Z) * list Z :=
  let '(buf, rest) := gets_line nbuf inp in
  (if nth 0 buf 0 =? 0 then None else Some (c_string buf), rest).

Definition is_cd (line : list Z) : bool := (nth 0 line 0 =? 99) && (nth 1 line 0 =? 100) && (nth 2 line 0 =? 32).
(** [buf+3] after [buf[strlen(buf)-1] = 0]. *)
Definition cd_path (line : list Z) : list Z := drop 3 (take (length line - 1) line).

Section main.
(** Whether a chdir and the k-th fork fail. *)
Context (chdir_fails : list Z → bool) (fork_fails : nat → bool).

(** The loop that reads and runs commands, from the k-th fork on; what the shell
    does until it exits. *)
Fixpoint sh_loop (fuel k : nat) (inp : list Z) : option (list sh_event) :=
  match fuel with
  | O => None
  | S fuel' =>
      match getcmd 100 inp with
      | (None, _) => Some [Prompt]
      | (Some line, rest) =>
          if is_cd line then
            let path := cd_path line in
            (λ ev, Prompt :: Chdir path :: (if chdir_fails path then [CannotCd path] else []) ++ ev) <$> sh_loop fuel' k rest
          else if fork_fails k then Some [Prompt; ForkFailed]
          else (λ ev, Prompt :: Child line :: Waited :: ev) <$> sh_loop fuel' (S k) rest
      end
  end.
End main.

(** [while((fd = open("console", O_RDWR)) >= 0)]: opening the console until three
    descriptors are in use. *)
Fixpoint open_console {F : Type} (fuel : nat) (console : obj F) (t : list (option (obj F))) : option (list (option (obj F))) :=
  match fuel with
  | O => None
  | S fuel' =>
      match lowest t with
      | None => Some t
      | Some fd =>
          let t1 := <[fd := Some console]> t in
          if (3 <=? Z.of_nat fd) then Some (fd_close (Z.of_nat fd) t1) else open_console fuel' console t1
      end
  end.

(** What a terminal sends: a line without control characters, and a newline. *)
Definition typed (line : list Z) : Prop := Forall (λ c, c ≠ 0 ∧ c ≠ 10 ∧ c ≠ 13) line.

Lemma gets_typed line rest : ∀ room, typed line → (length line < room)%nat → gets_loop room (line ++ 10 :: rest) = (line ++ [10], rest).
Proof.
  induction line as [|c line IH]; intros [|room] Ht Hl; cbn [length] in Hl; try lia; [done|]. inversion Ht as [|? ? (H0 & H1 & H2) Ht']; subst.
  cbn [gets_loop app]. ztest (c =? 10) is false. ztest (c =? 13) is false. cbn [orb]. rewrite IH by (done || lia). done.
Qed.

Lemma c_string_typed line : typed line → c_string (line ++ [10]) = line ++ [10].
Proof. induction 1 as [|c line (H0 & _ & _) Ht IH]; [done|]. cbn [app c_string]. ztest (c =? 0) is false. by rewrite IH. Qed.

Lemma getcmd_typed line rest : typed line → (length line < 99)%nat → getcmd 100 (line ++ 10 :: rest) = (Some (line ++ [10]), rest).
Proof.
  intros Ht Hl. unfold getcmd, gets_line. rewrite (gets_typed line rest (100 - 1)) by (done || lia). rewrite c_string_typed by done.
  destruct Ht as [|c line (H0 & _ & _) Ht]; [done|]. cbn [app nth]. by ztest (c =? 0) is false.
Qed.

(** What the shell does for one line. *)
Definition line_events (chdir_fails : list Z → bool) (line : list Z) : list sh_event :=
  Prompt :: if is_cd line then Chdir (drop 3 line) :: (if chdir_fails (drop 3 line) then [CannotCd (drop 3 line)] else []) else [Child (line ++ [10]); Waited].

Lemma is_cd_newline line : typed line → is_cd (line ++ [10]) = is_cd line.
Proof. intros Ht. destruct line as [|a [|b [|c line]]]; [done|..|done]; cbn; by rewrite ?andb_false_r. Qed.

(** The shell runs the lines typed, in order: lines that start with "cd " change
    its own directory, the others are run by a child that it waits for; at the
    end of the input it exits. *)
Lemma sh_loop_lines chdir_fails lines : ∀ fuel k, Forall (λ l, typed l ∧ (length l < 99)%nat) lines → (length lines < fuel)%nat →
  sh_loop chdir_fails (λ _, false) fuel k (concat ((λ l, l ++ [10]) <$> lines)) = Some (concat (line_events chdir_fails <$> lines) ++ [Prompt]).
Proof.
  induction lines as [|l lines IH]; intros [|fuel] k Hl Hf; cbn [length] in Hf; try lia; [done|].
  inversion Hl as [|? ? [Ht Hn] Hl']; subst. cbn [fmap list_fmap concat sh_loop]. rewrite <- app_assoc. cbn [app]. rewrite getcmd_typed by done.
  rewrite is_cd_newline by done. unfold line_events at 1. assert (E : cd_path (l ++ [10]) = drop 3 l).
  { unfold cd_path. rewrite length_app. cbn [length]. rewrite Nat.add_sub. by rewrite take_app_length. }
  destruct (is_cd l); [rewrite E|]; rewrite IH by (done || lia); cbn; [|done]. by rewrite <- !app_assoc.
Qed.

(** The last line of an input that does not end in a newline: the character that
    is cut off is one of the path. *)
Lemma cd_cuts_last_character chdir_fails : ∃ ev, sh_loop chdir_fails (λ _, false) 2 0 [99; 100; 32; 98; 105; 110] = Some (Prompt :: Chdir [98; 105] :: ev).
Proof. eexists. reflexivity. Qed.

(** A line of 100 characters or more is run in pieces. *)
Lemma long_line_splits : sh_loop (λ _, false) (λ _, false) 3 0 (replicate 120 97 ++ [10]) =
  Some [Prompt; Child (replicate 99 97); Waited; Prompt; Child (replicate 21 97 ++ [10]); Waited; Prompt].
Proof. vm_compute. reflexivity. Qed.

Lemma lowest_free {A} (t : list (option A)) : ∀ fd, lowest t = Some fd → t !! fd = Some None.
Proof.
  induction t as [|[x|] t IH]; intros fd H; cbn in H; [done| |by injection H as <-]. destruct (lowest t) as [k|]; [|done]. injection H as <-. by apply IH.
Qed.

Lemma close_opened {A} (x : A) t fd : lowest t = Some fd → fd_close (Z.of_nat fd) (<[fd := Some x]> t) = t.
Proof. intros H%lowest_free. unfold fd_close. rewrite Nat2Z.id, list_insert_insert_eq. by apply list_insert_id. Qed.

(** The shell starts with descriptors 0, 1 and 2 open, and no others touched. *)
Lemma open_console_opens {F} (console : obj F) t : (4 <= length t)%nat → is_Some (lowest (drop 3 t)) →
  ∃ t', open_console 4 console t = Some t' ∧ (∀ fd, (fd < 3)%nat → is_Some (mjoin (t' !! fd))) ∧ drop 3 t' = drop 3 t.
Proof.
  intros Hl [fd Hlow]. destruct t as [|a [|b [|c t]]]; cbn [length] in Hl; try lia. change (drop 3 (a :: b :: c :: t)) with t in *.
  assert (Hfull : ∀ n x y z, open_console (S n) console (Some x :: Some y :: Some z :: t) = Some (Some x :: Some y :: Some z :: t)).
  { intros n x y z. cbn [open_console]. assert (E : lowest (Some x :: Some y :: Some z :: t) = Some (S (S (S fd)))) by (cbn; by rewrite Hlow). rewrite E.
    ztest (3 <=? Z.of_nat (S (S (S fd)))) is true. f_equal. by apply close_opened. }
  set (some := λ o : option (obj F), Some (default console o)). exists (some a :: some b :: some c :: t). split_and!; [|intros [|[|[|k]]] Hk; cbn; (done || lia)|done].
  unfold some. destruct a, b, c; cbn [default];
    repeat first [by apply Hfull | cbn [open_console lowest fmap option_fmap option_map insert list_insert]; change (3 <=? _) with false; cbn iota].
Qed.
