(* ===== verification/ShClaims.v ===== *)
(** * What the shell makes of a line (sh.c)

    From the text of a line to the programs that are started for it. *)

From Stdlib Require Import ZArith Lia String.
From stdpp Require Import base numbers list strings.
From S2P Require Import Prelude Mem Str Sysfile Sh ShLex ShParse ShSound ShRun.

Lemma cuts_more_trans m m1 m2 m3 : cuts_more m m1 m2 → cuts_more m m2 m3 → cuts_more m m1 m3.
Proof. intros (H1 & _ & H0) (_ & H2 & H0'). split_and!; auto. Qed.

(** The state after [nulterminate]: the same nodes, the words of [c] cut out. *)
Definition terminated (m : mem) (s s' : shell) (p : nat) (c : cmd) : Prop :=
  sh_nodes s' = sh_nodes s ∧ cuts_more m (sh_mem s) (sh_mem s') ∧ command (sh_mem s') (sh_nodes s') p c.

Lemma nulterminate_two m s p1 p2 l r :
  (∀ s p, built m (sh_nodes s) p l → cut m (sh_mem s) → ∃ s', returns (λ f, nulterminate f p) s tt s' ∧ terminated m s s' p l) →
  (∀ s p, built m (sh_nodes s) p r → cut m (sh_mem s) → ∃ s', returns (λ f, nulterminate f p) s tt s' ∧ terminated m s s' p r) →
  built m (sh_nodes s) p1 l → built m (sh_nodes s) p2 r → cut m (sh_mem s) →
  ∃ s', returns (λ f, nulterminate f p1 ;;; nulterminate f p2) s tt s' ∧ sh_nodes s' = sh_nodes s ∧ cuts_more m (sh_mem s) (sh_mem s') ∧
    command (sh_mem s') (sh_nodes s') p1 l ∧ command (sh_mem s') (sh_nodes s') p2 r.
Proof.
  intros IHl IHr Hb1 Hb2 Hc. destruct (IHl s p1 Hb1 Hc) as (s1 & R1 & E1 & M1 & C1). rewrite <- E1 in Hb2.
  destruct (IHr s1 p2 Hb2) as (s' & R2 & E2 & M2 & C2); [apply M1|]. exists s'. split_and!.
  - eapply returns_bind; [exact R1|exact R2].
  - congruence.
  - by eapply cuts_more_trans.
  - rewrite E2. by eapply command_more.
  - done.
Qed.

Lemma returns_S {S A : Type} (f g : nat → M S A) s a s' :
  (∀ n, f (Datatypes.S n) s = g n s) → returns g s a s' → returns f s a s'.
Proof. intros He (F & HF). exists (Datatypes.S F). intros [|n] Hn; [lia|]. rewrite He. apply HF. lia. Qed.

Lemma nulterminate_run m c : ∀ s p,
  built m (sh_nodes s) p c → cut m (sh_mem s) → ∃ s', returns (λ f, nulterminate f p) s tt s' ∧ terminated m s s' p c.
Proof.
  induction c as [args|c IH file mode fd|l IHl r IHr|l IHl r IHr|c IH]; intros s p Hb Hc.
  - destruct Hb as (argv & eargv & Hp & [Ha1 Ha2 Hw] & H0). destruct (terminate_args_spec m args (sh_mem s) argv eargv Hw H0 Hc) as [Hm Hs].
    exists (set_sh_mem (terminate_args (sh_mem s) argv eargv) s). split.
    + apply (returns_S _ (λ _, modify (λ s, set_sh_mem (terminate_args (sh_mem s) argv eargv) s))).
      { intros n. cbn [nulterminate]. rewrite (bind_run _ _ s (sh_nodes s) s) by done. by rewrite Hp. }
      exists O. done.
    + split_and!; [done|done|]. exists argv, eargv. done.
  - destruct Hb as (p' & q & e & Hp & Hw & Hb). destruct (IH s p' Hb Hc) as (s1 & R1 & E1 & M1 & C1).
    set (s' := set_sh_mem (store8 (sh_mem s1) e 0) s1). pose proof Hw as (_ & _ & _ & He).
    assert (M2 : cuts_more m (sh_mem s1) (sh_mem s')).
    { split_and!; [apply M1|apply cut_store; [apply M1|done]|]. intros y Hy. cbn. destruct (Z.eq_dec y e) as [->|]; [by rewrite store8_eq|by rewrite store8_ne]. }
    exists s'. split.
    + apply (returns_S _ (λ n, nulterminate n p' ;;; write0 e)).
      { intros n. cbn [nulterminate]. rewrite (bind_run _ _ s (sh_nodes s) s) by done. by rewrite Hp. }
      eapply returns_bind; [exact R1|]. exists O. done.
    + split_and!; [done|by eapply cuts_more_trans|]. exists p', q, e. cbn [sh_nodes s' set_sh_mem]. rewrite E1. split_and!; [done| |].
      * eapply cut_str; [done|apply M2|]. cbn. by rewrite store8_eq.
      * rewrite <- E1. by eapply command_more.
  - destruct Hb as (p1 & p2 & Hp & Hb1 & Hb2). destruct (nulterminate_two m s p1 p2 l r IHl IHr Hb1 Hb2 Hc) as (s' & R & E & M & C1 & C2).
    exists s'. split; [|split_and!; [done|done|]; exists p1, p2; by rewrite E in *].
    eapply returns_S; [|exact R]. intros n. cbn [nulterminate]. rewrite (bind_run _ _ s (sh_nodes s) s) by done. by rewrite Hp.
  - destruct Hb as (p1 & p2 & Hp & Hb1 & Hb2). destruct (nulterminate_two m s p1 p2 l r IHl IHr Hb1 Hb2 Hc) as (s' & R & E & M & C1 & C2).
    exists s'. split; [|split_and!; [done|done|]; exists p1, p2; by rewrite E in *].
    eapply returns_S; [|exact R]. intros n. cbn [nulterminate]. rewrite (bind_run _ _ s (sh_nodes s) s) by done. by rewrite Hp.
  - destruct Hb as (p' & Hp & Hb). destruct (IH s p' Hb Hc) as (s' & R & E & M & C). exists s'. split; [|split_and!; [done|done|]; exists p'; by rewrite E in *].
    eapply returns_S; [|exact R]. intros n. cbn [nulterminate]. rewrite (bind_run _ _ s (sh_nodes s) s) by done. by rewrite Hp.
Qed.

Lemma input_strlen m s es txt fuel :
  input m s es txt → 0 <= s → Z.of_nat (length txt) < 2147483648 → es < 4294967296 → (length txt < fuel)%nat →
  strlen fuel m s = Some (es - s).
Proof.
  intros Hi Hs Hl He Hf. pose proof (sh_input_length _ _ _ _ Hi) as E. rewrite (strlen_length m s (length txt)); try lia; [f_equal; lia| |].
  - intros i Hi'. destruct (lookup_lt_is_Some_2 txt (Z.to_nat i)) as [c Hc]; [lia|].
    pose proof (input_bytes m s es txt [] (Z.to_nat i) c) as Hb. rewrite app_nil_r in Hb. specialize (Hb Hi Hc). rewrite Z2Nat.id in Hb by lia. rewrite Hb.
    clear -Hi Hc. revert s Hi Hc. generalize (Z.to_nat i) as j. induction txt as [|d t IH]; intros [|j] s Hi Hc; try done; cbn in Hc.
    + injection Hc as ->. by destruct Hi as (_ & ? & _).
    + destruct Hi as (_ & _ & Hi). by eapply IH.
  - pose proof (input_app m s es txt []) as Ha. rewrite app_nil_r in Ha. by destruct (Ha Hi).
Qed.

Lemma parsecmd_complete m N s g txt :
  line_ok g → spells (line_toks g) txt → input m s (s + Z.of_nat (length txt)) txt →
  0 < s → s + Z.of_nat (length txt) < 4294967296 → Z.of_nat (length txt) < 2147483648 →
  ∃ p s', returns (λ f, parsecmd f s) (Shell m N) p s' ∧ command (sh_mem s') (sh_nodes s') p (sem_line g).
Proof.
  intros Hg Hsp Hi Hs He Hl. set (es := s + Z.of_nat (length txt)) in *.
  destruct (parser_complete m es) as (_ & _ & Hpar).
  destruct (Hpar g (Shell m N) s []) as ([p ps] & s1 & (F1 & R1) & Hm1 & _ & Hr1 & Hb1); [done|done| |by left|].
  { rewrite app_nil_r. split; [done|]. by exists txt. }
  cbn [fst snd] in *. destruct Hr1 as (_ & txt1 & Hi1 & Hs1).
  destruct (peek_run m s1 ps es "" [] txt1 Hm1 Hs1 Hi1) as (ps2 & txt2 & R2 & Hi2 & [Hs2 Hn2] & _).
  assert (Ees : ps2 = es).
  { inversion Hs2 as [sp Hsp' E0 E|]. subst sp. destruct txt2 as [|c t]; [by destruct Hi2|]. apply Forall_cons in Hsp' as [Hc _]. cbn [starts_space] in Hn2. congruence. }
  destruct (nulterminate_run m (sem_line g) s1 p Hb1) as (s' & (F2 & R3) & _ & _ & Hcmd); [rewrite Hm1; by left|].
  exists p, s'. split; [|done]. exists (S (length txt) + F1 + F2)%nat. intros f Hf. unfold parsecmd.
  rewrite (bind_run _ _ (Shell m N) m (Shell m N)) by done. rewrite (input_strlen m s es txt f Hi) by lia.
  replace (s + (es - s)) with es by lia. rewrite (bind_run _ _ _ _ _ (R1 f ltac:(lia))), (bind_run _ _ _ _ _ R2), Ees, Z.eqb_refl. cbn [negb].
  by rewrite (bind_run _ _ _ _ _ (R3 f ltac:(lia))).
Qed.

Lemma parsecmd_sound m N s txt f p s' :
  input m s (s + Z.of_nat (length txt)) txt → 0 < s → s + Z.of_nat (length txt) < 4294967296 → Z.of_nat (length txt) < 2147483648 →
  (length txt < f)%nat → parsecmd f s (Shell m N) = Done p s' → ∃ g, line_ok g ∧ spells (line_toks g) txt.
Proof.
  intros Hi Hs He Hl Hf H. set (es := s + Z.of_nat (length txt)) in *. destruct (tokenize (length txt) txt) as [ts Hts]; [done|by eapply input_nonzero|].
  unfold parsecmd in H. rewrite (bind_run _ _ (Shell m N) m (Shell m N)) in H by done. rewrite (input_strlen m s es txt f Hi) in H by lia.
  replace (s + (es - s)) with es in H by lia. apply bind_Done in H as ([p1 ps1] & s1 & H1 & H).
  destruct (proj1 (parser_sound m es f) (Shell m N) s ts (p1, ps1) s1) as (Hm1 & g & k & Hg & -> & Hk); [done|split; [done|by exists txt]|done|]. cbn [snd] in Hk.
  destruct Hk as (_ & txt1 & Hi1 & Hs1). destruct (peek_run m s1 ps1 es "" k txt1 Hm1 Hs1 Hi1) as (ps2 & txt2 & R2 & Hi2 & [Hs2 Hn2] & _).
  rewrite (bind_run _ _ _ _ _ R2) in H. destruct (Z.eqb_spec ps2 es) as [E|]; [|done].
  assert (txt2 = []) as -> by (apply sh_input_length in Hi2; destruct txt2; [done|cbn in Hi2; lia]).
  exists g. split; [done|]. assert (k = []) as ->; [|by rewrite app_nil_r in Hts].
  inversion Hs2 as [|sp t ts' rest _ Ht _ _ E1 E2]; [done|]. destruct (tok_bytes_first t rest Ht) as (l & El & _). rewrite El in E2. by destruct sp.
Qed.

(** C21 The parser of the shell accepts exactly the lines of its grammar, and gives
    them their meaning: with any white space between the tokens, [parsecmd]
    returns a tree of exec, redirection, pipe, list and background nodes whose
    words and file names are terminated strings in the line; if it returns, the
    line is a line of the grammar. *)
Theorem parsecmd_parses m N s txt :
  input m s (s + Z.of_nat (length txt)) txt → 0 < s → s + Z.of_nat (length txt) < 4294967296 → Z.of_nat (length txt) < 2147483648 →
  (∀ g, line_ok g → spells (line_toks g) txt →
    ∃ p s', returns (λ f, parsecmd f s) (Shell m N) p s' ∧ command (sh_mem s') (sh_nodes s') p (sem_line g)) ∧
  (∀ p s', returns (λ f, parsecmd f s) (Shell m N) p s' →
    ∃ g, line_ok g ∧ spells (line_toks g) txt ∧ command (sh_mem s') (sh_nodes s') p (sem_line g)).
Proof.
  intros Hi Hs He Hl. split; [intros g Hg Hsp; by apply (parsecmd_complete m N s g txt)|]. intros p s' R. pose proof R as (F & HF).
  destruct (parsecmd_sound m N s txt (S (length txt) + F) p s' Hi Hs He Hl) as (g & Hg & Hsp); [lia|apply HF; lia|].
  destruct (parsecmd_complete m N s g txt Hg Hsp Hi Hs He Hl) as (p2 & s2 & R2 & Hc). destruct (returns_det _ _ _ _ _ _ R R2) as [-> ->]. by exists g.
Qed.

(** [ls | wc >out] and a newline. *)
Definition demo_line : gline := GLine (GPipe (GSimple [] [(chars "ls", [])]) (GOne (GSimple [] [(chars "wc", [GRedir ROut (chars "out")])]))) 0.
Definition demo_text : list Z := chars "ls | wc >out" ++ [10].
Definition demo_mem : mem := λ a, default 0 (demo_text !! Z.to_nat (a - 4096)).

Lemma demo_spells : spells (line_toks demo_line) demo_text.
Proof.
  apply (spells_cons [] (TWord (chars "ls")) _ (chars " | wc >out" ++ [10])); [done|split; [done|repeat constructor]|done|].
  apply (spells_cons [32] (TSym 124) _ (chars " wc >out" ++ [10])); [repeat constructor|done|done|].
  apply (spells_cons [32] (TWord (chars "wc")) _ (chars " >out" ++ [10])); [repeat constructor|split; [done|repeat constructor]|done|].
  apply (spells_cons [32] (TSym 62) _ (chars "out" ++ [10])); [repeat constructor|done|done|].
  apply (spells_cons [] (TWord (chars "out")) _ [10]); [done|split; [done|repeat constructor]|done|].
  constructor. repeat constructor.
Qed.

Lemma parsecmd_parses_witness :
  ∃ p s', returns (λ f, parsecmd f 4096) (Shell demo_mem []) p s' ∧
    command (sh_mem s') (sh_nodes s') p (CPipe (CExec [chars "ls"]) (CRedir (CExec [chars "wc"]) (chars "out") 513 1)).
Proof.
  apply (proj1 (parsecmd_parses demo_mem [] 4096 demo_text ltac:(vm_compute; repeat (split; [first [reflexivity | discriminate]|]); reflexivity)
    ltac:(lia) ltac:(vm_compute; reflexivity) ltac:(vm_compute; reflexivity)) demo_line); [cbn; unfold MAXARGS; lia|exact demo_spells].
Defined.


(** The descriptors of the shell: the console, three times. *)
Definition console_fds (F : Type) : list (option (obj F)) := replicate 3 (Some (OOther 0)) ++ replicate 13 None.

