(* ===== verification/SysfileFacts.v ===== *)
(** * The references to open files

    The reference count of a file is the number of descriptors and other holders
    that refer to it, before and after every system call on files.  While a call
    runs, the references it holds itself are part of the account. *)

From Stdlib Require Import ZArith Lia.
From stdpp Require Import base numbers list gmap strings relations.
From S2P Require Import Prelude Mem Kalloc Pipe Bio Blocks Fs Proc File Syscall Sysfile.

(** The descriptors of a table that refer to file [i]. *)
Definition fd_count (i : nat) (t : list (option nat)) : Z :=
  Z.of_nat (length (List.filter (λ o, bool_decide (o = Some i)) t)).

Lemma fd_count_insert i fd (o o' : option nat) t :
  t !! fd = Some o →
  fd_count i (<[fd := o']> t) =
    fd_count i t - (if bool_decide (o = Some i) then 1 else 0) + (if bool_decide (o' = Some i) then 1 else 0).
Proof.
  intros Hfd. unfold fd_count. rewrite <- (take_drop_middle t fd o Hfd) at 2.
  rewrite insert_take_drop by (by eapply lookup_lt_Some). rewrite !List.filter_app, !length_app. cbn [List.filter].
  destruct (bool_decide (o = Some i)), (bool_decide (o' = Some i)); cbn [length]; lia.
Qed.

Lemma fd_count_nonneg i t : 0 <= fd_count i t.
Proof. unfold fd_count. lia. Qed.

Lemma fd_count_pos i fd t : t !! fd = Some (Some i) → 0 < fd_count i t.
Proof.
  intros Hfd. pose proof (fd_count_insert i fd _ None t Hfd) as H. rewrite bool_decide_true, bool_decide_false in H by done.
  pose proof (fd_count_nonneg i (<[fd := None]> t)). lia.
Qed.

Lemma find_fd_spec t : ∀ k fd, find_fd k t = Some fd → (k <= fd)%nat ∧ t !! (fd - k)%nat = Some None.
Proof.
  induction t as [|[f|] t IH]; intros k fd; cbn; [done| |].
  - intros H. destruct (IH _ _ H) as [Hle Hl]. split; [lia|]. by replace (fd - k)%nat with (S (fd - S k)) by lia.
  - intros [= <-]. split; [lia|]. by rewrite Nat.sub_diag.
Qed.

Lemma find_file_spec l : ∀ k i, find_file k l = Some i → (k <= i)%nat ∧ ∃ f, l !! (i - k)%nat = Some f ∧ f_ref f = 0.
Proof.
  induction l as [|f l IH]; intros k i; cbn [find_file]; [done|]. destruct (Z.eqb_spec (f_ref f) 0).
  - intros [= <-]. split; [lia|]. exists f. by rewrite Nat.sub_diag.
  - intros H. destruct (IH _ _ H) as [Hle Hl]. split; [lia|]. by replace (i - k)%nat with (S (i - S k)) by lia.
Qed.

(** One more, or with [n = -1] one fewer, reference to file [i]. *)
Definition bump (i : nat) (n : Z) (X : nat → Z) : nat → Z := λ j, if (j =? i)%nat then X j + n else X j.

Section refs.
Context {B : Type} `{!BlockOps B} `{!TxOps B}.
Context (devsw_read devsw_write : Z → option (devfn B)) (kend : Z).
Implicit Types (s : sstate B) (fs : files B).

(** The account: besides the descriptors, file [i] has [X i] references. *)
Record account (X : nat → Z) s : Prop := {
  ac_lock : ft_lock (ss_files s) = false;
  ac_refs : ∀ i f, ftable (ss_files s) !! i = Some f → f_ref f = fd_count i (ofile s) + X i;
  ac_open : ∀ fd i, ofile s !! fd = Some (Some i) → (i < NFILE)%nat;
  ac_size : length (ftable (ss_files s)) = NFILE
}.

Definition triple {S A} (P : S → Prop) (m : M S A) (Q : A → S → Prop) : Prop := ∀ (s : S) a (s' : S), P s → m s = Done a s' → Q a s'.

Lemma triple_bind {S A C} P (m : M S A) Q (k : A → M S C) R :
  triple P m Q → (∀ a, triple (Q a) (k a) R) → triple P (bind m k) R.
Proof. intros Hm Hk s c s' HP H. apply bind_Done in H as (a & s1 & H1 & H2). eapply Hk; [by eapply Hm|done]. Qed.

Lemma triple_ret {S A} (P : S → Prop) (a : A) (Q : A → S → Prop) : (∀ s : S, P s → Q a s) → triple P (ret a) Q.
Proof. intros H s x s' HP [= <- <-]. auto. Qed.

(** A call that ends with the account it started with. *)
Definition balanced {A} (X : nat → Z) (m : M (sstate B) A) : Prop := triple (account X) m (λ _, account X).

Lemma balanced_bind {A C} X (m : M (sstate B) A) (k : A → M (sstate B) C) :
  balanced X m → (∀ a, balanced X (k a)) → balanced X (bind m k).
Proof. apply triple_bind. Qed.

Lemma balanced_ret {A} X (a : A) : balanced X (ret a).
Proof. by apply triple_ret. Qed.

Lemma balanced_gets {A} X (f : sstate B → A) : balanced X (gets f).
Proof. intros s x s' HP [= <- <-]. done. Qed.

Lemma balanced_panic {A} X msg : balanced X (panic msg : M (sstate B) A).
Proof. by intros s x s' _. Qed.

Lemma balanced_when X b (m : M (sstate B) unit) : balanced X m → balanced X (when b m).
Proof. destruct b; [done|intros _; apply balanced_ret]. Qed.

Lemma balanced_if {A} X (b : bool) (m n : M (sstate B) A) : balanced X m → balanced X n → balanced X (if b then m else n).
Proof. by destruct b. Qed.

(** Operations on files that leave the table's counts and lock alone. *)
Definition quiet {A} (m : M (files B) A) : Prop :=
  ∀ fs a fs', m fs = Done a fs' → ft_lock fs' = ft_lock fs ∧ f_ref <$> ftable fs' = f_ref <$> ftable fs.

Lemma quiet_balanced {A} X (m : M (files B) A) : quiet m → balanced X (on_files m).
Proof.
  intros Hm s a s' [Hl Hr Ho Hz]. unfold on_files, lift. destruct (m (ss_files s)) as [x fs'| | | |] eqn:E; try done.
  intros [= <- <-]. destruct (Hm _ _ _ E) as [E1 E2]. split; cbn; [congruence| |done|].
  - intros i f Hi. assert (Hi' : (f_ref <$> ftable fs') !! i = Some (f_ref f)) by (by rewrite list_lookup_fmap, Hi).
    rewrite E2, list_lookup_fmap in Hi'. destruct (ftable (ss_files s) !! i) as [g|] eqn:Eg; [|done]. injection Hi' as <-. by apply Hr.
  - by rewrite <- (length_fmap f_ref), E2, length_fmap.
Qed.

Lemma quiet_bind {A C} (m : M (files B) A) (k : A → M (files B) C) : quiet m → (∀ a, quiet (k a)) → quiet (bind m k).
Proof.
  intros Hm Hk s c s' H. apply bind_Done in H as (a & s1 & H1 & H2).
  destruct (Hm _ _ _ H1), (Hk a _ _ _ H2). split; congruence.
Qed.

Lemma quiet_ret {A} (a : A) : quiet (ret a).
Proof. by intros s x s' [= <- <-]. Qed.

Lemma quiet_gets {A} (f : files B → A) : quiet (gets f).
Proof. by intros s x s' [= <- <-]. Qed.

Lemma quiet_panic {A} msg : quiet (panic msg : M (files B) A).
Proof. by intros s x s'. Qed.

Lemma quiet_nofuel {A} : quiet (nofuel : M (files B) A).
Proof. by intros s x s'. Qed.

Lemma quiet_when b (m : M (files B) unit) : quiet m → quiet (when b m).
Proof. destruct b; [done|intros _; apply quiet_ret]. Qed.

Lemma quiet_if {A} (b : bool) (m n : M (files B) A) : quiet m → quiet n → quiet (if b then m else n).
Proof. by destruct b. Qed.

Lemma quiet_fs {A} (m : M (fstate B) A) : quiet (in_fs m).
Proof. intros s a s'. unfold in_fs, lift. destruct (m (fl_fs s)); try done. by intros [= <- <-]. Qed.

Lemma quiet_pipe {A} (m : M pstate A) : quiet (in_pipe m : M (files B) A).
Proof. intros s a s'. unfold in_pipe, lift. destruct (m (fl_p s)); try done. by intros [= <- <-]. Qed.

Lemma quiet_umem (g : files B → mem) : quiet (modify (λ x : files B, set_umem (g x) x)).
Proof. by intros s a s' [= <- <-]. Qed.

Lemma quiet_upd i g : (∀ f, f_ref (g f) = f_ref f) → quiet (upd_file i g : M (files B) unit).
Proof.
  intros Hg s a s' [= _ <-]. split; [done|]. cbn. apply list_eq. intros j. rewrite !list_lookup_fmap.
  destruct (decide (j = i)) as [->|]; [|by rewrite list_lookup_alter_ne by congruence].
  rewrite list_lookup_alter_eq. destruct (ftable s !! i); cbn; [by rewrite Hg|done].
Qed.
End refs.

Create HintDb quiet discriminated.
#[export] Hint Resolve quiet_bind quiet_ret quiet_gets quiet_panic quiet_nofuel quiet_when quiet_if quiet_fs quiet_pipe quiet_umem : quiet.
#[export] Hint Extern 2 (quiet (upd_file _ _)) => (apply quiet_upd; intros; reflexivity) : quiet.
#[export] Hint Extern 2 (quiet (modify (set_umem _))) => (apply quiet_umem) : quiet.
#[export] Hint Resolve balanced_bind balanced_ret balanced_gets balanced_panic balanced_when balanced_if : quiet.
#[export] Hint Extern 3 (balanced _ (on_files _)) => (apply quiet_balanced) : quiet.

Section ops.
Context {B : Type} `{!BlockOps B} `{!TxOps B}.
Context (devsw_read devsw_write : Z → option (devfn B)) (kend : Z).
Implicit Types s : sstate B.

Lemma quiet_fileread i addr n : quiet (fileread devsw_read i addr n).
Proof. unfold fileread. apply quiet_bind; [eauto with quiet|]. intros f. destruct (f_type f); eauto 30 with quiet. Qed.

Lemma quiet_filestat i st : quiet (filestat i st : M (files B) Z).
Proof. unfold filestat. apply quiet_bind; [eauto with quiet|]. intros f. destruct (f_type f); eauto 30 with quiet. Qed.

Lemma quiet_filewrite_loop fuel i addr : ∀ n k, quiet (filewrite_loop devsw_write fuel i addr n k).
Proof. unfold op_begin, op_end. induction fuel as [|fuel IH]; intros n k; cbn [filewrite_loop]; unfold op_begin, op_end; eauto 40 with quiet. Qed.

Lemma quiet_filewrite i addr n : quiet (filewrite devsw_write i addr n).
Proof.
  unfold filewrite. apply quiet_bind; [eauto with quiet|]. intros f. pose proof quiet_filewrite_loop.
  destruct (f_type f); eauto 30 with quiet.
Qed.

(** ** What each operation on the table does to the account *)

Lemma account_ext X Y s : (∀ i, X i = Y i) → account X s → account Y s.
Proof. intros He [H1 H2 H3 H4]. split; [done| |done|done]. intros i f Hi. rewrite (H2 i f Hi). by rewrite He. Qed.

Lemma bump_eq i n X : bump i n X i = X i + n.
Proof. unfold bump. by rewrite Nat.eqb_refl. Qed.

Lemma bump_back i n X j : bump i (- n) (bump i n X) j = X j.
Proof. unfold bump. destruct (j =? i)%nat; lia. Qed.

(** The count of an open file changes. *)
Lemma account_ref X s i f n fs' :
  account X s → ftable (ss_files s) !! i = Some f → ft_lock fs' = false →
  f_ref <$> ftable fs' = <[i := f_ref f + n]> (f_ref <$> ftable (ss_files s)) →
  account (bump i n X) (set_ss_files fs' s).
Proof.
  intros [Hl Hr Ho Hz] Hi Hl' Ht. split; cbn; [done| |done|].
  - intros j g Hj. assert (Hj' : (f_ref <$> ftable fs') !! j = Some (f_ref g)) by (by rewrite list_lookup_fmap, Hj).
    rewrite Ht in Hj'. unfold bump. destruct (Nat.eqb_spec j i) as [->|Hij].
    + rewrite list_lookup_insert_eq in Hj' by (rewrite length_fmap; by eapply lookup_lt_Some). injection Hj' as <-. rewrite (Hr i f Hi). lia.
    + rewrite list_lookup_insert_ne, list_lookup_fmap in Hj' by congruence.
      destruct (ftable (ss_files s) !! j) as [h|] eqn:E; [|done]. injection Hj' as <-. by apply Hr.
  - by rewrite <- (length_fmap f_ref), Ht, length_insert, length_fmap.
Qed.

Lemma refs_alter (l : list file) (i : nat) f n : l !! i = Some f → f_ref <$> alter (set_f_ref n) i l = <[i := n]> (f_ref <$> l).
Proof. intros Hi. rewrite (Bio.alter_insert (set_f_ref n) l i f Hi). by rewrite list_fmap_insert. Qed.

Lemma filealloc_account X : triple (account X) (on_files filealloc : M (sstate B) (option nat)) (λ r s,
  match r with Some i => account (bump i 1 X) s ∧ (i < NFILE)%nat | None => account X s end).
Proof.
  intros s r s' Hac. pose proof Hac as [Hl Hr Ho Hz]. unfold on_files, lift, filealloc.
  rewrite (bind_run _ _ _ _ _ (acquire_run ft_lock set_ft_lock (ss_files s) Hl)). cbn.
  destruct (find_file 0 (ftable (ss_files s))) as [i|] eqn:E; cbn.
  - intros [= <- <-]. apply find_file_spec in E as (_ & f & Hi & H0). rewrite Nat.sub_0_r in Hi. split.
    + eapply account_ref; [done|exact Hi|done|]. cbn. by rewrite (refs_alter _ _ _ _ Hi), H0.
    + rewrite <- Hz. by eapply lookup_lt_Some.
  - intros [= <- <-]. by split.
Qed.

Lemma filedup_account X i : triple (λ s, account X s ∧ (i < NFILE)%nat)
  (on_files (filedup i) : M (sstate B) unit) (λ _, account (bump i 1 X)).
Proof.
  intros s r s' [Hac Hlt]. pose proof Hac as [Hl Hr Ho Hz]. unfold on_files, lift, filedup.
  rewrite (bind_run _ _ _ _ _ (acquire_run ft_lock set_ft_lock (ss_files s) Hl)). cbn.
  rewrite <- Hz in Hlt. destruct (lookup_lt_is_Some_2 _ _ Hlt) as [f Hi]. change (the_file i (set_ft_lock true (ss_files s))) with (the_file i (ss_files s)).
  unfold the_file. rewrite Hi. cbn. destruct (f_ref f <? 1); [done|]. cbn. intros [= <- <-].
  eapply account_ref; [done|exact Hi|done|]. cbn. by apply refs_alter with f.
Qed.

(** After the last reference is gone, the rest of [fileclose] works on the pipe
    or the inode. *)
Lemma fileclose_account X i : triple (λ s, account X s ∧ (i < NFILE)%nat)
  (on_files (fileclose kend i) : M (sstate B) unit) (λ _, account (bump i (-1) X)).
Proof.
  intros s r s' [Hac Hlt]. pose proof Hac as [Hl Hr Ho Hz]. unfold on_files, lift, fileclose.
  rewrite (bind_run _ _ _ _ _ (acquire_run ft_lock set_ft_lock (ss_files s) Hl)).
  rewrite <- Hz in Hlt. destruct (lookup_lt_is_Some_2 _ _ Hlt) as [f Hi].
  assert (Hf : the_file i (set_ft_lock true (ss_files s)) = f) by (unfold the_file; cbn; by rewrite Hi).
  rewrite (bind_run (gets (the_file i)) _ _ _ _ eq_refl), Hf. destruct (Z.ltb_spec (f_ref f) 1) as [|H1]; [done|].
  rewrite (bind_run (upd_file i _) _ _ _ _ eq_refl). set (t1 := alter _ i _). rewrite Z.gtb_ltb.
  assert (Ht1 : f_ref <$> t1 = <[i := f_ref f + -1]> (f_ref <$> ftable (ss_files s))) by (by apply refs_alter with f).
  destruct (Z.ltb_spec 0 (f_ref f - 1)) as [|H2].
  { cbn. intros [= <- <-]. by eapply account_ref. }
  set (fs1 := set_ftable t1 _). rewrite (bind_run (gets (the_file i)) _ _ _ _ eq_refl).
  rewrite (bind_run (upd_file i _) _ _ _ _ eq_refl), (bind_run (upd_file i _) _ _ _ _ eq_refl).
  erewrite (bind_run (release ft_lock set_ft_lock)) by (apply release_run; reflexivity). set (fs2 := set_ft_lock false _). 
  lazymatch goal with |- match ?m fs2 with _ => _ end = _ → _ => set (rest := m) end.
  assert (Hq : quiet rest) by (unfold rest, op_begin, op_end; destruct (f_type _); eauto 20 with quiet).
  destruct (rest fs2) as [u fs3| | | |] eqn:E; try done. intros [= <- <-]. destruct (Hq _ _ _ E) as [E1 E2].
  eapply account_ref; [done|exact Hi|by rewrite E1|]. rewrite E2. cbn [ftable fs2 set_ft_lock set_ftable].
  destruct (quiet_upd i (set_f_type FD_NONE) (λ _, eq_refl) (set_ftable (alter (set_f_ref 0) i t1) fs1) _ _ eq_refl) as [_ E3].
  etrans; [exact E3|]. cbn. assert (Hi1 : t1 !! i = Some (set_f_ref (f_ref f - 1) f)) by (unfold t1; rewrite list_lookup_alter_eq; cbn; by rewrite Hi).
  rewrite (refs_alter _ _ _ _ Hi1), Ht1, list_insert_insert_eq. f_equal. lia.
Qed.

Lemma bump_cancel i n m X s : n + m = 0 → account (bump i n (bump i m X)) s → account X s.
Proof. intros Hz. apply account_ext. intros j. unfold bump. destruct (j =? i)%nat; lia. Qed.

Lemma argfd_spec n s r s' : argfd n s = Done r s' →
  s' = s ∧ match r with Some (fd, f) => ofile s !! fd = Some (Some f) | None => True end.
Proof.
  unfold argfd, get_int. intros H. apply bind_Done in H as (a & s1 & [= <- <-] & H).
  destruct (argint _ _ _ _) as [fd|]; [|by injection H as <- <-]. destruct ((fd <? 0) || (fd >=? Z.of_nat NOFILE)); [by injection H as <- <-|].
  apply bind_Done in H as (t & s1 & [= <- <-] & H). destruct (ofile s !! Z.to_nat fd) as [[f|]|] eqn:E; injection H as <- <-; done.
Qed.

Lemma fdalloc_account X f s r s' :
  account X s → (f < NFILE)%nat → fdalloc f s = Done r s' →
  match r with Some fd => account (bump f (-1) X) s' ∧ ofile s' !! fd = Some (Some f) | None => account X s' end.
Proof.
  intros [Hl Hr Ho Hz] Hf. unfold fdalloc. cbn. destruct (find_fd 0 (ofile s)) as [fd|] eqn:E; cbn; intros [= <- <-]; [|done].
  apply find_fd_spec in E as [_ E]. rewrite Nat.sub_0_r in E. pose proof (lookup_lt_Some _ _ _ E) as Hlt. split; [split; cbn|].
  - done.
  - intros i g Hi. rewrite (fd_count_insert i fd _ (Some f) _ E), bool_decide_false by done. rewrite (Hr i g Hi). unfold bump.
    destruct (Nat.eqb_spec i f) as [->|Hn]; [rewrite bool_decide_true by done|rewrite bool_decide_false by congruence]; lia.
  - intros fd' i Hi. destruct (decide (fd' = fd)) as [->|Hn]; [|rewrite list_lookup_insert_ne in Hi by congruence; by eapply Ho].
    rewrite list_lookup_insert_eq in Hi by done. by injection Hi as <-.
  - done.
  - cbn. by apply list_lookup_insert_eq.
Qed.

(** Clearing a descriptor leaves its reference in the hands of the call. *)
Lemma clear_account X fd f s :
  account X s → ofile s !! fd = Some (Some f) → account (bump f 1 X) (ss_set_ofile (<[fd := None]> (ofile s)) s).
Proof.
  intros [Hl Hr Ho Hz] Hfd. pose proof (lookup_lt_Some _ _ _ Hfd) as Hlt. split; cbn; [done| | |done].
  - intros i g Hi. rewrite (fd_count_insert i fd _ None _ Hfd), (Hr i g Hi). rewrite (bool_decide_false (None = _)) by done. unfold bump.
    destruct (Nat.eqb_spec i f) as [->|Hn]; [rewrite bool_decide_true by done|rewrite bool_decide_false by congruence]; lia.
  - intros fd' i Hi. destruct (decide (fd' = fd)) as [->|Hn]; [by rewrite list_lookup_insert_eq in Hi by done|].
    rewrite list_lookup_insert_ne in Hi by congruence. by eapply Ho.
Qed.

Lemma balanced_set_cwd X wd : balanced X (modify (ss_set_cwd wd) : M (sstate B) unit).
Proof. intros s a s' [H1 H2 H3 H4] [= <- <-]. by split. Qed.
End ops.

#[export] Hint Resolve balanced_set_cwd quiet_fileread quiet_filestat quiet_filewrite : quiet.
#[export] Hint Unfold on_inodes begin_tx end_tx op_begin op_end fail_tx : quiet.

(** Case analysis on the options, pairs and Booleans a call branches on. *)
Ltac balance :=
  unfold get_int, get_str, get_ptr, on_inodes, begin_tx, end_tx, fail_tx, op_begin, op_end in *;
  repeat (first
    [ apply balanced_bind; [|intros ?]
    | apply balanced_when | apply balanced_if | apply balanced_ret | apply balanced_gets | apply balanced_panic
    | apply balanced_set_cwd
    | (apply quiet_balanced; solve [eauto 10 with quiet])
    | match goal with
      | |- balanced _ (match ?x with _ => _ end) => destruct x
      end ]).

Section calls.
Context {B : Type} `{!BlockOps B} `{!TxOps B}.
Context (devsw_read devsw_write : Z → option (devfn B)) (kend : Z).
Implicit Types s : sstate B.

Lemma balanced_argfd X n : balanced X (argfd n : M (sstate B) _).
Proof. intros s r s' Hac H. by apply argfd_spec in H as [-> _]. Qed.

Lemma balanced_read X : balanced X (sys_read devsw_read).
Proof. unfold sys_read. apply balanced_bind; [apply balanced_argfd|intros ?]. balance. Qed.

Lemma balanced_write X : balanced X (sys_write devsw_write).
Proof. unfold sys_write. apply balanced_bind; [apply balanced_argfd|intros ?]. balance. Qed.

Lemma balanced_fstat X : balanced X (sys_fstat : M (sstate B) Z).
Proof. unfold sys_fstat. apply balanced_bind; [apply balanced_argfd|intros ?]. balance. Qed.

Lemma balanced_link X : balanced X (sys_link devsw_read devsw_write).
Proof. unfold sys_link, link_bad. balance. Qed.

Lemma balanced_unlink X : balanced X (sys_unlink devsw_read devsw_write).
Proof. unfold sys_unlink, unlink_bad. balance. Qed.

Lemma balanced_mkdir X : balanced X (sys_mkdir devsw_read devsw_write).
Proof. unfold sys_mkdir. balance. Qed.

Lemma balanced_mknod X : balanced X (sys_mknod devsw_read devsw_write).
Proof. unfold sys_mknod. balance. Qed.

Lemma balanced_chdir X : balanced X (sys_chdir devsw_read).
Proof. unfold sys_chdir. balance. Qed.

Lemma balanced_dup X : balanced X (sys_dup : M (sstate B) Z).
Proof.
  intros s a s' Hac H. apply bind_Done in H as (r & s1 & H1 & H). apply argfd_spec in H1 as [-> Hr].
  destruct r as [[fd f]|]; [|by injection H as <- <-]. pose proof (ac_open _ _ Hac _ _ Hr) as Hlt.
  apply bind_Done in H as (r & s1 & H1 & H). pose proof (fdalloc_account X f s r s1 Hac Hlt H1) as Hfd.
  destruct r as [fd'|]; [|by injection H as <- <-]. destruct Hfd as [Hfd _].
  apply bind_Done in H as (u & s2 & H2 & H). injection H as <- <-.
  apply (bump_cancel f 1 (-1)); [done|]. by eapply filedup_account.
Qed.

Lemma balanced_close X : balanced X (sys_close kend : M (sstate B) Z).
Proof.
  intros s a s' Hac H. apply bind_Done in H as (r & s1 & H1 & H). apply argfd_spec in H1 as [-> Hr].
  destruct r as [[fd f]|]; [|by injection H as <- <-]. pose proof (ac_open _ _ Hac _ _ Hr) as Hlt.
  apply bind_Done in H as (u & s1 & [= _ <-] & H). pose proof (clear_account X fd f s Hac Hr) as Hc.
  apply bind_Done in H as (u' & s2 & H2 & H). injection H as <- <-.
  apply (bump_cancel f (-1) 1); [done|]. by eapply fileclose_account.
Qed.

Lemma balanced_open X : balanced X (sys_open devsw_read devsw_write kend).
Proof.
  unfold sys_open. apply balanced_bind; [balance|intros [path|]]; (apply balanced_bind; [balance|intros [omode|]]); try apply balanced_ret.
  apply balanced_bind; [balance|intros _]. apply balanced_bind; [unfold open_inode; balance|intros [ip|]]; [|balance].
  eapply triple_bind; [apply filealloc_account|]. intros [f|]; cbn beta iota; [|change (balanced X (on_inodes (B := B) (iunlockput ip) ;;; fail_tx)); balance].
  intros s a s' [Hac Hf] H. apply bind_Done in H as (r & s1 & H1 & H). pose proof (fdalloc_account _ f s r s1 Hac Hf H1) as Hfd.
  destruct r as [fd|].
  - destruct Hfd as [Hfd _]. apply (bump_cancel f (-1) 1) in Hfd; [|done].
    assert (Hb : balanced X (on_inodes (B := B) (iunlock ip) ;;; end_tx ;;; on_files (upd_file f (open_file ip omode)) ;;; ret (Z.of_nat fd))) by balance.
    exact (Hb _ _ _ Hfd H).
  - apply bind_Done in H as (u & s2 & H2 & H). pose proof (fileclose_account kend _ f s1 u s2 (conj Hfd Hf) H2) as Hc.
    apply (bump_cancel f (-1) 1) in Hc; [|done]. assert (Hb : balanced X (on_inodes (B := B) (iunlockput ip) ;;; fail_tx)) by balance.
    exact (Hb _ _ _ Hc H).
Qed.

(** A file that a call allocated and gives up. *)
Lemma close_alloc X f (s s' : sstate B) u :
  account (bump f 1 X) s → (f < NFILE)%nat → on_files (fileclose kend f) s = Done u s' → account X s'.
Proof. intros Hac Hf H. apply (bump_cancel f (-1) 1); [done|]. by eapply fileclose_account. Qed.

Lemma bump_swap i j n m X s : account (bump i n (bump j m X)) s → account (bump j m (bump i n X)) s.
Proof. apply account_ext. intros k. unfold bump. destruct (k =? i)%nat, (k =? j)%nat; lia. Qed.

Lemma on_files_bind {A C} (m : M (files B) A) (k : A → M (files B) C) s :
  on_files (bind m k) s = bind (on_files m) (λ a, on_files (k a)) s.
Proof.
  unfold on_files, lift, bind. destruct (m (ss_files s)) as [a t| | | |]; done.
Qed.

Lemma pipealloc_bad_account X (s s' : sstate B) f0 f1 r :
  account (match f1 with Some f => bump f 1 | None => id end (match f0 with Some f => bump f 1 X | None => X end)) s →
  (match f0 with Some f => (f < NFILE)%nat | None => True end) → (match f1 with Some f => (f < NFILE)%nat | None => True end) →
  on_files (pipealloc_bad kend f0 f1) s = Done r s' → account X s' ∧ r = None.
Proof.
  intros Hac H0 H1 H. unfold pipealloc_bad in H. rewrite on_files_bind in H. apply bind_Done in H as (u & s1 & Hc0 & H).
  rewrite on_files_bind in H. apply bind_Done in H as (u1 & s2 & Hc1 & H). injection H as <- <-. cbn. split; [|done].
  assert (Hac1 : account (match f1 with Some f => bump f 1 X | None => X end) s1).
  { destruct f0 as [f0|], f1 as [f1|]; try (injection Hc0 as _ <-; by destruct s).
    - apply (close_alloc _ f0 s s1 u); [by apply bump_swap|done|done].
    - by apply (close_alloc _ f0 s s1 u). }
  assert (Hac2 : account X s2) by (destruct f1 as [f1|]; [by apply (close_alloc _ f1 s1 s2 u1)|injection Hc1 as _ <-; by destruct s1]).
  by destruct s2.
Qed.

Lemma pipealloc_account X (s s' : sstate B) r :
  account X s → on_files (pipealloc kend) s = Done r s' →
  match r with
  | Some (f0, f1) => account (bump f1 1 (bump f0 1 X)) s' ∧ (f0 < NFILE)%nat ∧ (f1 < NFILE)%nat
  | None => account X s'
  end.
Proof.
  intros Hac H. unfold pipealloc in H. rewrite on_files_bind in H. apply bind_Done in H as (f0 & s1 & A0 & H).
  pose proof (filealloc_account X s f0 s1 Hac A0) as Hac0. destruct f0 as [f0|].
  2:{ by apply (pipealloc_bad_account X s1 s' None None) in H as [? ->]. }
  destruct Hac0 as [Hac0 Hf0]. rewrite on_files_bind in H. apply bind_Done in H as (f1 & s2 & A1 & H).
  pose proof (filealloc_account _ s1 f1 s2 Hac0 A1) as Hac1. destruct f1 as [f1|].
  2:{ by apply (pipealloc_bad_account X s2 s' (Some f0) None) in H as [? ->]. }
  destruct Hac1 as [Hac1 Hf1]. rewrite on_files_bind in H. apply bind_Done in H as (p & s3 & A2 & H).
  apply (quiet_balanced (bump f1 1 (bump f0 1 X))) in A2; [|apply quiet_pipe|done]. destruct (p =? 0).
  { by apply (pipealloc_bad_account X s3 s' (Some f0) (Some f1)) in H as [? ->]. }
  lazymatch type of H with on_files ?m s3 = _ =>
    assert (Hb : balanced (bump f1 1 (bump f0 1 X)) (on_files m)) by (apply quiet_balanced; eauto 10 with quiet) end.
  pose proof (Hb _ _ _ A2 H) as Hac3. unfold on_files, lift in H. cbn in H. injection H as <- <-. done.
Qed.

Lemma balanced_pipe X : balanced X (sys_pipe kend : M (sstate B) Z).
Proof.
  unfold sys_pipe. apply balanced_bind; [balance|intros [fd|]]; [|apply balanced_ret].
  intros s a s' Hac H. apply bind_Done in H as (r & s1 & H1 & H). apply (pipealloc_account X) in H1; [|done].
  destruct r as [[f0 f1]|]; [|by injection H as <- <-]. destruct H1 as (Hac1 & Hf0 & Hf1).
  assert (Hfail : ∀ s a s', account (bump f1 1 (bump f0 1 X)) s → pipe_fail kend f0 f1 s = Done a s' → account X s').
  { intros q b q' Hq Hp. apply bind_Done in Hp as (u & q1 & P1 & Hp). apply bind_Done in Hp as (u1 & q2 & P2 & Hp). injection Hp as <- <-.
    apply (close_alloc X f1 q1 q2 u1); [|done|done]. apply (close_alloc _ f0 q q1 u); [by apply bump_swap|done|done]. }
  apply bind_Done in H as (r & s2 & H2 & H). pose proof (fdalloc_account _ f0 s1 r s2 Hac1 Hf0 H2) as Hac2.
  destruct r as [fd0|]; [|by eapply Hfail]. destruct Hac2 as [Hac2 Hfd0].
  apply bind_Done in H as (r & s3 & H3 & H). pose proof (fdalloc_account _ f1 s2 r s3 Hac2 Hf1 H3) as Hac3.
  destruct r as [fd1|].
  - destruct Hac3 as [Hac3 _]. assert (Hac4 : account X s3).
    { revert Hac3. apply account_ext. intros j. unfold bump. destruct (j =? f0)%nat, (j =? f1)%nat; lia. }
    apply bind_Done in H as (u & s4 & H4 & H). injection H as <- <-. eapply quiet_balanced; [|exact Hac4|exact H4].
    apply quiet_umem.
  - apply bind_Done in H as (u & s4 & [= _ <-] & H). eapply Hfail; [|exact H].
    assert (Hs : ofile s3 !! fd0 = Some (Some f0)).
    { unfold fdalloc in H3. cbn in H3. destruct (find_fd 0 (ofile s2)); [done|]. by injection H3 as <-. }
    pose proof (clear_account _ fd0 f0 s3 Hac3 Hs) as Hc. revert Hc. apply account_ext. intros j. unfold bump.
    destruct (j =? f0)%nat, (j =? f1)%nat; lia.
Qed.
End calls.
