(* ===== verification/LogStore.v ===== *)
(** * The log and the buffer cache as a block store (log.c, bio.c)

    What [Blocks.v] asks of the blocks holds of a transaction that runs on the
    buffer cache: [bread], [log_write] and [brelse] of an operation between
    [begin_op] and [end_op]. *)

From Stdlib Require Import ZArith Lia.
From stdpp Require Import base numbers list gmap strings.
From S2P Require Import Prelude Mem Sleeplock Bio BioFacts Log LogFacts LogClaims Blocks Fs.

Section store.
Context (iderw : nat → M bstate unit) `{Hdrv : !BlockDriver iderw}.

#[export] Instance log_ops : BlockOps lstate := {|
  bo_bread dev b := on_bio (bread iderw dev b);
  bo_data h s := b_data (the_buf h (l_bio s));
  bo_set_data h d s := LState (upd_buf h (set_data d) (l_bio s)) (l_log s);
  bo_log_write := log_write;
  bo_brelse h := on_bio (brelse h)
|}.

(** The largest transaction: two buffers must remain for the blocks in use, and
    the log has one block less than [log.size]. *)
Definition store_cap : nat := 28.

(** [s0] gives the disk. *)
Context (s0 : bstate).

Record store_ok (H : list (nat * Z)) (T : gset Z) (s : lstate) : Prop := {
  so_bio : bio_inv H.*1 (l_bio s);
  so_env : same_env s0 (l_bio s);
  so_held : ∀ h b, (h, b) ∈ H → ∃ f d, bufs (l_bio s) !! h = Some (held_buf (l_bio s) f ROOTDEV b d) ∧
    (f = 6 ∨ d = disk (l_bio s) ROOTDEV b);
  so_pinned : ∀ dv bn, pinned (l_bio s) dv bn ↔ dv = ROOTDEV ∧ bn ∈ T;
  so_lock : l_lock (l_log s) = false;
  so_dev : 1 <= l_outstanding (l_log s);
  so_size : LOGSIZE <= l_size (l_log s);
  so_logged : NoDup (logged (l_log s)) ∧ (∀ b, b ∈ logged (l_log s) ↔ b ∈ T) ∧ lh_n (l_log s) = Z.of_nat (length (logged (l_log s)));
  so_block : length (lh_block (l_log s)) = Z.to_nat LOGSIZE;
  so_cap : (size T <= store_cap)%nat
}.

Lemma so_length H T s : store_ok H T s → length (logged (l_log s)) = size T.
Proof.
  intros Hs. destruct (so_logged _ _ _ Hs) as (Hn & Hin & _).
  rewrite <- (size_list_to_set (C := gset Z) (logged (l_log s))) by done.
  apply set_size_proper. intros b. by rewrite elem_of_list_to_set.
Qed.

(** A block that nobody holds and that is not pinned is as on the disk. *)
Lemma cview_idle H s dev b :
  bio_inv H s → dev ≠ 0 → (∀ h bf, h ∈ H → bufs s !! h = Some bf → ¬ is_block dev b bf) → ¬ pinned s dev b →
  cview s dev b = disk s dev b.
Proof.
  intros Hinv Hd Hh Hnp. destruct (find_cached (lru s) dev b s) as [j|] eqn:E.
  - pose proof (find_cached_spec (lru s) dev b s) as Hc. rewrite E in Hc. destruct Hc as [Hj Hm].
    apply (bi_in_lru Hinv) in Hj as [bj Hj]. rewrite (the_buf_lookup _ _ _ Hj) in Hm.
    rewrite (cview_cached Hinv dev b j bj) by done.
    destruct (bi_idle _ _ Hinv j bj Hj) as (_ & _ & F); [intros HjH; by apply (Hh j bj)|].
    destruct Hm as [M1 M2]. unfold valid. destruct F as [-> |[F|[-> Hdd]]]; [done| |].
    + destruct Hnp. exists j, bj. split_and!; try done. unfold dirty. by rewrite F.
    + cbn. by rewrite Hdd, M1, M2.
  - rewrite (find_cached_absent Hinv) in E. by apply (cview_absent Hinv).
Qed.

Lemma store_bread H T s b :
  store_ok H T s → drv_good s0 ROOTDEV b = true → (b ∉ H.*2) → (length H < 2)%nat →
  ∃ h s', bo_bread ROOTDEV b s = Done h s' ∧ store_ok ((h, b) :: H) T s' ∧
    ∀ b', cview (l_bio s') ROOTDEV b' = cview (l_bio s) ROOTDEV b'.
Proof using Hdrv.
  intros Hs Hg Hb Hl. pose proof Hs as [S1 S2 S3 S4 S5 S6 S7 S8 S9 S10]. destruct s as [bi lg]. cbn [l_bio l_log] in *.
  assert (Hnh : ∀ i bf, i ∈ H.*1 → bufs bi !! i = Some bf → ¬ is_block ROOTDEV b bf).
  { intros i bf ([h b'] & -> & Hin)%list_elem_of_fmap Hbf [_ Hbb]. destruct (S3 h b' Hin) as (f & d & E & _).
    cbn in Hbf. rewrite E in Hbf. injection Hbf as <-. cbn in Hbb. subst b'. apply Hb, list_elem_of_fmap. by exists (h, b). }
  assert (Hav : available H.*1 bi).
  { eapply (available_count _ _ ROOTDEV (logged lg)); [done|done| |].
    - intros dv bn [-> Hbn]%S4. split; [done|]. by apply S8.
    - pose proof (so_length _ _ _ Hs) as Hsl. cbn in Hsl. rewrite Hsl, length_fmap. unfold store_cap in S10. unfold NBUF. lia. }
  destruct (bread_step H.*1 bi ROOTDEV b S1) as (h & f & b1 & R1 & I1 & X1 & V1 & D1 & W1 & P1 & F1 & J1 & E1);
    [done|rewrite (drv_frame s0); [done|apply S2..]|done|by right|].
  exists h, (LState b1 lg). cbn [bo_bread log_ops]. split_and!; [by apply on_bio_at| |intros b'; by apply V1].
  assert (Hh : h ∉ H.*1). { destruct (bi_H _ _ I1) as [Hnd _]. by apply NoDup_cons in Hnd as [? _]. }
  split; cbn [l_bio l_log]; try done.
  - by eapply same_env_trans.
  - intros h' b' Hin. apply elem_of_cons in Hin as [[= -> ->]|Hin].
    + exists f, (cview bi ROOTDEV b). split; [done|]. destruct (Z.eq_dec f 6) as [->|Hf6]; [by left|right].
      rewrite D1. eapply cview_idle; [done|done|done|]. by rewrite <- F1.
    + destruct (S3 h' b' Hin) as (f' & d' & E & Hd). exists f', d'. rewrite J1 by (apply list_elem_of_fmap; by exists (h', b')).
      rewrite E, D1. split; [|done]. unfold held_buf. by rewrite (proj1 E1).
  - intros dv bn. by rewrite P1.
Qed.

Lemma store_data H T s h b : store_ok H T s → (h, b) ∈ H → bo_data h s = cview (l_bio s) ROOTDEV b.
Proof.
  intros [S1 S2 S3 S4 S5 S6 S7 S8 S9 S10] Hin. destruct (S3 h b Hin) as (f & d & E & _). cbn [bo_data log_ops].
  rewrite (the_buf_lookup _ _ _ E). rewrite (cview_cached S1 ROOTDEV b h _ ltac:(done) E) by (by split).
  destruct (bi_held _ _ S1 h _ E) as (_ & _ & F); [apply list_elem_of_fmap; by exists (h, b)|]. cbn in F. unfold valid. cbn.
  by destruct F as [-> | ->].
Qed.

Lemma store_log_write H T s h b d :
  store_ok H T s → (h, b) ∈ H → (size ({[b]} ∪ T : gset Z) <= store_cap)%nat →
  ∃ s', bo_log_write h (bo_set_data h d s) = Done tt s' ∧ store_ok H ({[b]} ∪ T) s' ∧
    ∀ b', cview (l_bio s') ROOTDEV b' = if b' =? b then d else cview (l_bio s) ROOTDEV b'.
Proof.
  intros Hs Hin Hr. pose proof Hs as [S1 S2 S3 S4 S5 S6 S7 S8 S9 S10]. pose proof (so_length _ _ _ Hs) as Hsl.
  destruct s as [bi lg]. cbn [l_bio l_log] in *. destruct (S3 h b Hin) as (f & d0 & E & _).
  assert (HhH : h ∈ H.*1) by (apply list_elem_of_fmap; by exists (h, b)).
  destruct (bi_held _ _ S1 h _ E HhH) as (_ & _ & F). cbn in F.
  assert (Hlen : lh_n lg <= 28) by (destruct S8 as (_ & _ & ->); unfold store_cap in S10; lia).
  assert (Hn0 : 0 <= lh_n lg) by (destruct S8 as (_ & _ & ->); lia).
  destruct (put_step H.*1 bi h f ROOTDEV b d0 6 d S1 HhH E ltac:(done) ltac:(by right)) as (I1 & B1 & V1 & D1 & W1 & P1 & J1 & E1).
  set (b1 := put_buf h (held_buf bi 6 ROOTDEV b d) bi) in *.
  assert (Hrun : log_write h (LState (upd_buf h (set_data d) bi) lg) = Done tt (LState b1 (lh_add b lg))).
  { rewrite (upd_buf_put h _ bi _ E). change LOGSIZE with 30 in *.
    rewrite (log_write_run _ lg h (held_buf bi f ROOTDEV b d)); [|by eapply put_lookup|done|change LOGSIZE with 30; lia|lia|lia].
    rewrite put_put. unfold b1. do 3 f_equal. unfold set_flags, held_buf. cbn. by destruct F as [-> | ->]. }
  exists (LState b1 (lh_add b lg)). split_and!; [exact Hrun| |].
  - split; cbn [l_bio l_log]; try done.
    + intros h' b' Hin'. destruct (S3 h' b' Hin') as (f' & d' & E' & Hd'). destruct (decide (h' = h)) as [->|Hne].
      * rewrite E in E'. injection E' as <- <- <-. exists 6, d. split; [done|by left].
      * exists f', d'. rewrite J1 by done. by rewrite E', D1.
    + intros dv bn. rewrite P1. destruct ((dv =? ROOTDEV) && (bn =? b)) eqn:Eq.
      * zb. subst. set_solver.
      * rewrite S4. apply andb_false_iff in Eq as [Eq|Eq]; apply Z.eqb_neq in Eq; set_solver.
    + destruct S8 as (Hnd & Hmem & Hlh).
      destruct (lh_add_spec b lg) as [(Hx & Hl & Hc)|(Hx & Hl & Hc)]; [change LOGSIZE with 30; lia|done| |]; rewrite Hl, Hc.
      * split_and!; [done| |done]. intros x. rewrite elem_of_union, elem_of_singleton, <- Hmem. split; [by right|]. by intros [->|].
      * split_and!.
        -- apply NoDup_app. split_and!; [done| |apply NoDup_singleton]. intros x Hx' ->%list_elem_of_singleton. done.
        -- intros x. rewrite elem_of_app, list_elem_of_singleton, elem_of_union, elem_of_singleton, Hmem. tauto.
        -- rewrite length_app. cbn. lia.
    + unfold lh_add. cbn [lh_block]. by rewrite length_insert.
  - intros b'. cbn [l_bio]. rewrite V1 by done. unfold set_view. by rewrite Z.eqb_refl.
Qed.

Lemma store_brelse H T s h b :
  store_ok ((h, b) :: H) T s →
  ∃ s', bo_brelse h s = Done tt s' ∧ store_ok H T s' ∧ ∀ b', cview (l_bio s') ROOTDEV b' = cview (l_bio s) ROOTDEV b'.
Proof.
  intros Hs. pose proof Hs as [S1 S2 S3 S4 S5 S6 S7 S8 S9 S10]. destruct s as [bi lg]. cbn [l_bio l_log] in *.
  destruct (S3 h b ltac:(left)) as (f & d & E & Hd).
  destruct (brelse_step ((h, b) :: H).*1 H.*1 bi h f ROOTDEV b d S1 ltac:(done) E ltac:(done) Hd) as (b1 & R & I1 & V1 & D1 & W1 & P1 & J1 & E1).
  exists (LState b1 lg). split_and!; [by apply on_bio_at| |intros b'; by apply V1].
  assert (Hh : h ∉ H.*1). { destruct (bi_H _ _ S1) as [Hnd _]. by apply NoDup_cons in Hnd as [? _]. }
  split; cbn [l_bio l_log]; try done.
  - by eapply same_env_trans.
  - intros h' b' Hin. destruct (S3 h' b' ltac:(by right)) as (f' & d' & E' & Hd'). exists f', d'.
    assert (h' ≠ h) by (intros ->; apply Hh, list_elem_of_fmap; by exists (h, b')).
    rewrite J1, E', D1 by done. split; [|done]. unfold held_buf. by rewrite (proj1 E1).
  - intros dv bn. by rewrite P1.
Qed.

#[export] Instance log_store : BlockStore lstate ROOTDEV.
Proof using Hdrv s0.
  refine {| bs_ok := store_ok; bs_view := λ s b, cview (l_bio s) ROOTDEV b; bs_good := λ b, drv_good s0 ROOTDEV b = true; bs_cap := store_cap |}.
  - apply store_bread.
  - apply store_data.
  - apply store_log_write.
  - apply store_brelse.
Defined.
End store.
