(* ===== verification/FsClaims.v ===== *)
(** * Files as the system calls see them (fs.c)

    What [writei] stores, [readi] returns, and no other file changes; what they
    refuse; how many blocks a write can log.  The theorems hold over any block
    store; the witnesses run them on the log and the buffer cache over a small
    disk image. *)

From Stdlib Require Import ZArith Lia.
From stdpp Require Import base numbers list gmap strings relations.
From S2P Require Import Prelude Mem Sleeplock Bio BioFacts Memide Log LogFacts LogClaims Blocks Fs FsBlocks FsFile FsData FsInode FsDir FsFree FsCache LogStore.

Section claims.
Context {B : Type} `{!BlockOps B} `{!BlockStore B ROOTDEV}.
Context (sb : superblock).
Implicit Types s : fstate B.

(** Two runs of [readi] that deliver the same bytes. *)
Lemma readi_same dr j jp T T' s s' mi dst o k :
  layout sb → good_disk sb → live sb j jp T s → live sb j jp T' s' → i_type jp ≠ T_DEV →
  (∀ o, 0 <= o < MAXFILE * BSIZE → file_byte (fview s') (i_addrs jp) o = file_byte (fview s) (i_addrs jp) o) →
  0 <= o <= i_size jp → 0 <= k → o + k < 4294967296 →
  ∃ m1 s1 m2 s2, readi dr j mi dst o k s = Done (Z.min k (i_size jp - o), m1) s1 ∧
    readi dr j mi dst o k s' = Done (Z.min k (i_size jp - o), m2) s2 ∧ ∀ x, m2 x = m1 x.
Proof.
  intros Hlay Hgood L L' Hty Hby Ho Hk Hok. pose proof (lv_backed _ _ _ _ _ L) as [Hsz _].
  assert (Hsz' : i_size jp <= 71680) by (change MAXFILE with 140 in Hsz; change BSIZE with 512 in Hsz; lia).
  assert (Hc : read_count jp o k = Z.min k (i_size jp - o)) by (unfold read_count; lia).
  assert (Hnb : ((o >? i_size jp) || (o + k >=? 4294967296)) = false).
  { apply orb_false_iff. rewrite Z.gtb_ltb, Z.geb_leb. split; [apply Z.ltb_ge|apply Z.leb_gt]; lia. }
  pose proof (readi_run sb Hlay Hgood dr j jp T s mi dst o k (lv_file _ _ _ _ _ L) (lv_backed _ _ _ _ _ L) Hty ltac:(lia) ltac:(lia)) as R.
  pose proof (readi_run sb Hlay Hgood dr j jp T' s' mi dst o k (lv_file _ _ _ _ _ L') (lv_backed _ _ _ _ _ L') Hty ltac:(lia) ltac:(lia)) as R'.
  rewrite Hnb, Hc in R, R'. destruct R as (m1 & bs1 & R & _ & _ & M), R' as (m2 & bs2 & R' & _ & _ & M').
  exists m1, (set_f_bs bs1 s), m2, (set_f_bs bs2 s'). split_and!; [done|done|]. intros x. rewrite M, M'.
  destruct (Z.leb_spec dst x), (Z.ltb_spec x (dst + Z.min k (i_size jp - o))); cbn [andb]; try done.
  apply Hby. change MAXFILE with 140. change BSIZE with 512. lia.
Qed.

(** C2 A file behaves as an array of bytes.  When [writei] is given bytes for a
    place up to the end of the file, with room in the transaction and on the
    disk, it returns their number; afterwards [readi] delivers, for any part of
    the file up to its new size, the new bytes where they were written and the
    old ones elsewhere, and any other file reads as before. *)
Theorem write_then_read dr dw K i ip j jp T G s m src off n :
  layout sb → good_disk sb → live sb i ip T s → live sb j jp T s → i ≠ j → apart (fview s) ip jp →
  i_type ip ≠ T_DEV → i_type jp ≠ T_DEV → mem_ok m → 0 <= off <= i_size ip → 0 <= n → off + n <= MAXFILE * BSIZE →
  off mod BSIZE + n <= BSIZE * Z.of_nat K → budget sb i s T G (K + 1) →
  ∃ s' T', writei dw i m src off n s = Done n s' ∧ live sb i (the_inode i s') T' s' ∧ live sb j jp T' s' ∧
    i_size (the_inode i s') = Z.max (i_size ip) (off + n) ∧
    (∀ mi dst o k, 0 <= o <= i_size (the_inode i s') → 0 <= k → o + k < 4294967296 →
       ∃ m1 s1, readi dr i mi dst o k s' = Done (Z.min k (i_size (the_inode i s') - o), m1) s1 ∧
         ∀ x, 0 <= x < Z.min k (i_size (the_inode i s') - o) →
           m1 (dst + x) = if (off <=? o + x) && (o + x <? off + n) then m (src + (o + x - off))
                          else file_byte (fview s) (i_addrs ip) (o + x)) ∧
    (∀ mi dst o k, 0 <= o <= i_size jp → 0 <= k → o + k < 4294967296 →
       ∃ m1 s1 m2 s2, readi dr j mi dst o k s = Done (Z.min k (i_size jp - o), m1) s1 ∧
         readi dr j mi dst o k s' = Done (Z.min k (i_size jp - o), m2) s2 ∧ ∀ x, m2 x = m1 x).
Proof.
  intros Hlay Hgood Li Lj Hij Hap Hti Htj Hm Hoff Hn Hmax HK Hbu.
  assert (Hmx : MAXFILE * BSIZE = 71680) by done.
  pose proof (writei_run sb Hlay Hgood dw K i ip T G s m src off n Li Hti Hm ltac:(lia) ltac:(lia)) as W.
  replace ((off >? i_size ip) || (off + n >? MAXFILE * BSIZE)) with false in W
    by (symmetry; apply orb_false_iff; rewrite !Z.gtb_ltb; split; apply Z.ltb_ge; lia).
  destruct (W HK Hbu) as (s' & T' & R & X). clear W.
  destruct (write_other sb Hlay Hgood i ip j jp T G s m src off n T' s' X Li Lj Hij Hap) as (Lj' & Hbj & _).
  pose proof (wx_live _ _ _ _ _ _ _ _ _ _ _ X) as Li'. pose proof (wx_ip _ _ _ _ _ _ _ _ _ _ _ X) as Eip.
  assert (Esz : i_size (the_inode i s') = Z.max (i_size ip) (off + n)) by (by rewrite Eip).
  exists s', T'. split_and!; try done.
  - intros mi dst o k Ho Hk Hok. pose proof (lv_backed _ _ _ _ _ Li') as [Hsz _].
    pose proof (readi_run sb Hlay Hgood dr i (the_inode i s') T' s' mi dst o k (lv_file _ _ _ _ _ Li') (lv_backed _ _ _ _ _ Li')
      ltac:(by rewrite Eip) ltac:(lia) ltac:(lia)) as Rd.
    replace ((o >? i_size (the_inode i s')) || (o + k >=? 4294967296)) with false in Rd
      by (symmetry; apply orb_false_iff; rewrite Z.gtb_ltb, Z.geb_leb; split; [apply Z.ltb_ge|apply Z.leb_gt]; lia).
    assert (Hc : read_count (the_inode i s') o k = Z.min k (i_size (the_inode i s') - o)) by (unfold read_count; lia).
    rewrite Hc in Rd. destruct Rd as (m1 & bs & Rd & _ & _ & M). exists m1, (set_f_bs bs s'). split; [done|].
    intros x Hx. rewrite M. ztest (dst <=? dst + x) is true. ztest (dst + x <? dst + Z.min k (i_size (the_inode i s') - o)) is true.
    cbn [andb]. replace (dst + x - dst) with x by lia. apply (wx_byte _ _ _ _ _ _ _ _ _ _ _ X). lia.
  - intros mi dst o k Ho Hk Hok. by eapply readi_same.
Qed.

(** [readi] and [writei] refuse a place beyond the end of the file and a
    range that wraps around; [writei] also refuses to exceed the largest file.
    They return -1 and leave the state and the buffer alone. *)
Theorem rw_rejects dr dw i ip T s m a off n :
  layout sb → good_disk sb → live sb i ip T s → i_type ip ≠ T_DEV → mem_ok m → 0 <= off < 4294967296 → 0 <= n < 4294967296 →
  (off > i_size ip ∨ off + n >= 4294967296 →
     readi dr i m a off n s = Done (-1, m) s ∧ writei dw i m a off n s = Done (-1) s) ∧
  (off + n > MAXFILE * BSIZE → writei dw i m a off n s = Done (-1) s).
Proof.
  intros Hlay Hgood L Hty Hm Ho Hn. assert (Hmx : MAXFILE * BSIZE = 71680) by done.
  pose proof (readi_run sb Hlay Hgood dr i ip T s m a off n (lv_file _ _ _ _ _ L) (lv_backed _ _ _ _ _ L) Hty Ho Hn) as R.
  pose proof (writei_run sb Hlay Hgood dw 0 i ip T ∅ s m a off n L Hty Hm Ho Hn) as W. rewrite Hmx in *.
  rewrite Z.gtb_ltb, Z.geb_leb in R. rewrite !Z.gtb_ltb in W.
  destruct (Z.ltb_spec (i_size ip) off), (Z.ltb_spec 71680 (off + n)), (Z.leb_spec 4294967296 (off + n)); cbn [orb] in R, W;
    (split; [intros [?|?]|intros ?]); try lia; try (split; done); done.
Qed.

Lemma size_list_bound (f : Z → Z) lo (k : nat) (X Y : gset Z) :
  (∀ b, b ∈ X → b ∈ Y ∨ ∃ q, lo <= q < lo + Z.of_nat k ∧ b = f q) → (size X <= size Y + k)%nat.
Proof.
  intros H. set (L := list_to_set (f <$> seqZ lo (Z.of_nat k)) : gset Z).
  assert (Hs : X ⊆ Y ∪ L).
  { intros b [?|(q & Hq & ->)]%H; [set_solver|]. apply elem_of_union_r, elem_of_list_to_set, list_elem_of_fmap.
    exists q. split; [done|]. by apply elem_of_seqZ. }
  apply subseteq_size in Hs. rewrite size_union_alt in Hs. pose proof (subseteq_size (L ∖ Y) L ltac:(set_solver)) as HL.
  assert (size L <= k)%nat; [|lia]. clear. unfold L. 
  assert (Hl : ∀ l : list Z, (size (list_to_set l : gset Z) <= length l)%nat).
  { induction l as [|x l IH]; [by rewrite list_to_set_nil, size_empty|]. rewrite list_to_set_cons. cbn [length]. pose proof (size_union_1 x (list_to_set l)). lia. }
  etrans; [apply Hl|]. rewrite length_fmap, length_seqZ. lia.
Qed.

(** C26 The share of the log that [begin_op] reserves suffices for a write: the at
    most three blocks of bytes that [filewrite] passes to [writei] at a time log
    at most seven blocks (four of data, the inode, the bitmap and the indirect
    block), so never more than MAXOPBLOCKS. *)
Theorem write_logs_few dw i ip T s m src off n :
  layout sb → good_disk sb → live sb i ip T s → i_type ip ≠ T_DEV → mem_ok m →
  0 <= off <= i_size ip → 0 <= n <= 3 * BSIZE → off + n <= MAXFILE * BSIZE →
  (size T + Z.to_nat MAXOPBLOCKS <= bs_cap)%nat → (6 <= nfree sb (fview s))%nat →
  ∃ s' T', writei dw i m src off n s = Done n s' ∧ live sb i (the_inode i s') T' s' ∧
    (size T' <= size T + 7)%nat ∧ (size T' <= size T + Z.to_nat MAXOPBLOCKS)%nat.
Proof.
  intros Hlay Hgood L Hty Hm Hoff Hn Hmax Hcap Hfree. assert (Hmx : MAXFILE * BSIZE = 71680) by done.
  change (Z.to_nat MAXOPBLOCKS) with 10%nat in *. pose proof (fa_lookup _ _ _ _ _ (lv_file _ _ _ _ _ L)) as Hi.
  assert (Hind : indirect i s = nth 12 (i_addrs ip) 0) by (unfold indirect; by rewrite (the_inode_lookup i s ip Hi)).
  set (ind := nth 12 (i_addrs ip) 0) in *.
  set (G := {[bm sb]} ∪ ((if decide (ind = 0) then ∅ else {[ind]}) ∪ T) : gset Z).
  assert (HindG : ind ≠ 0 → ind ∈ G) by (intros Hn0; unfold G; case_decide; [done|set_solver]).
  assert (HG : (size G + (if decide (ind = 0%Z) then 1 else 0) <= size T + 2)%nat).
  { unfold G. pose proof (size_union_1 (bm sb) ((if decide (ind = 0) then ∅ else {[ind]}) ∪ T)).
    pose proof (size_union_1 ind T). case_decide; [rewrite union_empty_l_L in *|]; lia. }
  pose proof (writei_run sb Hlay Hgood dw 4 i ip T G s m src off n L Hty Hm ltac:(lia) ltac:(change BSIZE with 512 in Hn; lia)) as W.
  rewrite !Z.gtb_ltb in W. replace (i_size ip <? off) with false in W by (symmetry; apply Z.ltb_ge; lia).
  replace (MAXFILE * BSIZE <? off + n) with false in W by (symmetry; apply Z.ltb_ge; lia). cbn [orb] in W.
  destruct W as (s' & T' & R & X).
  - change BSIZE with 512 in *. pose proof (Z.mod_pos_bound off 512 ltac:(lia)). lia.
  - split; [unfold G; set_solver|unfold G; set_solver| | |]; rewrite Hind.
    + done.
    + lia.
    + case_decide; lia.
  - assert (Hb : (size T' <= size T + 7)%nat); [|exists s', T'; split_and!; [done|apply X|done|lia]].
    set (Y := {[IBLOCK (i_inum ip) sb]} ∪ ((if decide (ind = 0) then {[indirect i s']} else ∅) ∪ G) : gset Z).
    assert (HY : (size Y <= size T + 3)%nat).
    { unfold Y. pose proof (size_union_1 (IBLOCK (i_inum ip) sb) ((if decide (ind = 0) then {[indirect i s']} else ∅) ∪ G)).
      pose proof (size_union_1 (indirect i s') G). case_decide; [|rewrite union_empty_l_L in *]; lia. }
    assert (Hb : (size T' <= size Y + 4)%nat); [|lia].
    apply (size_list_bound (file_map (fview s') (i_addrs (the_inode i s'))) (off / BSIZE)).
    intros b [Hb|[-> |[[-> Hb]|(bn & (H1 & H2 & H3) & ->)]]]%(wx_log _ _ _ _ _ _ _ _ _ _ _ X); [left; unfold Y; set_solver..|left|right].
    + unfold Y. case_decide as Hz; [set_solver|]. pose proof (wx_ind _ _ _ _ _ _ _ _ _ _ _ X Hz) as ->.
      specialize (HindG Hz). clear -HindG. set_solver.
    + exists bn. split; [|done]. change BSIZE with 512 in *.
      pose proof (Z.div_mod off 512 ltac:(lia)). pose proof (Z.mod_pos_bound off 512 ltac:(lia)). lia.
Qed.

(** [balloc] returns the lowest free block, filled with zeros and marked in
    use, and touches no other block; freeing it restores the set of free blocks.
    It panics exactly when no block is free, and freeing a free block panics. *)
Theorem balloc_allocates T s :
  layout sb → good_disk sb → bs_ok [] T (f_bs s) → f_sb s = sb → image_ok sb (fview s) → (size T + 2 <= bs_cap)%nat →
  match balloc ROOTDEV s with
  | Done b s1 => free_block sb (fview s) b ∧ (∀ y, free_block sb (fview s) y → b <= y) ∧
      (∀ x, 0 <= x < BSIZE → fview s1 b x = 0) ∧ (∀ y, bitmap sb (fview s1) y = (y =? b) || bitmap sb (fview s) y) ∧
      (∀ y, y ≠ b → y ≠ sb_bmapstart sb → fview s1 y = fview s y) ∧
      ∃ s2, bfree ROOTDEV b s1 = Done tt s2 ∧ (∀ y, bitmap sb (fview s2) y = bitmap sb (fview s) y) ∧
        bfree ROOTDEV b s2 = Panic "freeing free block"
  | Panic msg => msg = "balloc: out of blocks"%string ∧ ∀ b, ¬ free_block sb (fview s) b
  | _ => False
  end.
Proof.
  intros Hlay Hgood Hok Hsb Him Hr. pose proof (bmap_block_pos sb Hlay) as Hbp.
  pose proof (size_union_1 (sb_bmapstart sb) T) as Hs1.
  pose proof (balloc_run sb Hlay Hgood [] T s Hok Hsb Him ltac:(cbn; lia) (λ b Hb, False_ind _ (not_elem_of_nil b Hb)) ltac:(lia)) as Hb.
  destruct (balloc ROOTDEV s) as [b s1|msg| | |]; try done. destruct Hb as (bs & -> & O1 & [[Hd1 Hd2] Hf] & Hlow & V1).
  assert (Hbit1 : ∀ y, bitmap sb (bs_view bs) y = (y =? b) || bitmap sb (fview s) y).
  { intros y. rewrite <- bitmap_alloc by lia. unfold bitmap. by rewrite V1. }
  assert (HT : {[sb_bmapstart sb]} ∪ ({[b; sb_bmapstart sb]} ∪ T) = {[b]} ∪ ({[sb_bmapstart sb]} ∪ T)) by (clear; set_solver).
  assert (HT2 : {[sb_bmapstart sb]} ∪ ({[sb_bmapstart sb]} ∪ ({[b; sb_bmapstart sb]} ∪ T)) = {[b]} ∪ ({[sb_bmapstart sb]} ∪ T)) by (clear; set_solver).
  pose proof (size_union_1 b ({[sb_bmapstart sb]} ∪ T)) as Hs2.
  pose proof (bfree_run sb Hlay Hgood [] _ (set_f_bs bs s) b O1 Hsb ltac:(cbn; lia) (not_elem_of_nil _) ltac:(lia) ltac:(rewrite HT; lia)) as Hfr.
  change (fview (set_f_bs bs s)) with (bs_view bs) in *. rewrite Hbit1, Z.eqb_refl in Hfr. cbn [orb] in Hfr.
  destruct Hfr as (bs2 & R2 & O2 & V2).
  assert (Hbit2 : ∀ y, bitmap sb (bs_view bs2) y = bitmap sb (fview s) y).
  { intros y. transitivity (bitmap sb (free_view sb b (bs_view bs)) y); [unfold bitmap; by rewrite V2|].
    rewrite bitmap_free, Hbit1. destruct (Z.eqb_spec y b) as [->|]; [by rewrite Hf|done]. }
  split_and!; [by split|done| |done| |].
  - intros x Hx. rewrite V1. by apply alloc_view_new.
  - intros y Hy Hyb. rewrite V1. unfold alloc_view. ztest (y =? b) is false. by ztest (y =? sb_bmapstart sb) is false.
  - exists (set_f_bs bs2 (set_f_bs bs s)). split_and!; [done|done|].
    pose proof (bfree_run sb Hlay Hgood [] _ (set_f_bs bs2 (set_f_bs bs s)) b O2 Hsb ltac:(cbn; lia) (not_elem_of_nil _) ltac:(lia)
      ltac:(rewrite HT2; lia)) as Hfr2.
    change (fview (set_f_bs bs2 (set_f_bs bs s))) with (bs_view bs2) in Hfr2. by rewrite Hbit2, Hf in Hfr2.
Qed.
End claims.

(** ** A small disk *)

(** The layout [mkfs] gives to a disk of FSSIZE blocks; inode 2 is a file of 100
    bytes in block 60, inode 3 a directory with two free entries in block 61. *)
Definition demo_sb : superblock := Superblock 1000 941 200 30 2 32 58.
Definition demo_ip (k : Z) : inode :=
  Inode ROOTDEV k 1 (SleepLock true false 1) true (if k =? 3 then T_DIR else T_FILE) 0 0 (if k =? 3 then 1 else 0) (if k =? 3 then 32 else 100)
    ((58 + k) :: replicate 12 0).
Definition demo_bitmap : blk := λ x, if x <? 0 then 0 else if x <? 7 then 255 else if x =? 7 then 63 else 0.
Definition demo_dinodes : blk := dinode_store (demo_ip 2) 128 (dinode_store (demo_ip 3) 192 (λ _, 0)).
Definition demo_disk (dev b : Z) : blk := if b =? 58 then demo_bitmap else if b =? 32 then demo_dinodes else λ _, 0.
Definition fs_bio : bstate :=
  BState false (replicate 30 buf0) (seq 0 30) 1 [] false [] false 1000 demo_disk [].
Definition fs_log : log := Log false 2 30 1 false 1 0 (replicate 30 0).
Definition demo_fs : fstate lstate :=
  FState (LState fs_bio fs_log) demo_sb false (demo_ip 2 :: demo_ip 3 :: replicate 48 inode0) 1 [] [].

#[local] Existing Instance log_ops.
#[local] Instance demo_ops : BlockOps lstate := log_ops memide_rw.
#[local] Instance demo_store : BlockStore lstate ROOTDEV := log_store memide_rw fs_bio.

Lemma demo_bufs0 i b : bufs fs_bio !! i = Some b → b = buf0.
Proof. intros H. change (replicate 30 buf0 !! i = Some b) in H. by apply lookup_replicate_1 in H as [-> _]. Qed.

Lemma demo_store_ok : bs_ok [] ∅ (f_bs demo_fs).
Proof.
  split; try done.
  - split; try done.
    + split; [constructor|]. by intros i ?%elem_of_nil.
    + by intros i b _ ?%elem_of_nil.
    + intros i b ->%demo_bufs0 _. cbn. tauto.
    + intros i j bi bj ->%demo_bufs0 ->%demo_bufs0. done.
  - by intros h b ?%elem_of_nil.
  - intros dv bn. split; [|set_solver]. by intros (i & b & ->%demo_bufs0 & Hd & _).
  - split_and!; [constructor| |done]. intros b. cbn. split; [by intros ?%elem_of_nil|set_solver].
  - rewrite size_empty. unfold store_cap. lia.
Qed.

Lemma demo_view b : fview demo_fs b = demo_disk ROOTDEV b.
Proof. reflexivity. Qed.

Lemma demo_layout : layout demo_sb.
Proof. split; vm_compute; intuition discriminate. Qed.

Lemma demo_good : good_disk demo_sb.
Proof. intros b Hb. cbn in *. apply Z.ltb_lt. lia. Qed.

Lemma demo_bitmap_spec b : 0 <= b < 62 → bit_set demo_bitmap b = true.
Proof.
  intros Hb. assert (Hf : forallb (bit_set demo_bitmap) (seqZ 0 62) = true) by (vm_compute; reflexivity).
  rewrite forallb_forall in Hf. apply Hf, list_elem_of_In, elem_of_seqZ. lia.
Qed.

Lemma demo_image : image_ok demo_sb (fview demo_fs).
Proof.
  split.
  - intros b. rewrite demo_view. unfold demo_disk. case_if; [|case_if].
    + intros x. unfold demo_bitmap. repeat case_if; lia.
    + by do 2 apply mem_ok_dinode_store.
    + done.
  - intros b Hb. apply demo_bitmap_spec. cbn in Hb. lia.
Qed.

Lemma demo_map k bn : 0 <= bn → file_map (fview demo_fs) (i_addrs (demo_ip k)) bn = if bn =? 0 then 58 + k else 0.
Proof.
  intros Hbn. unfold file_map. change NDIRECT with 12. change (nth 12 (i_addrs (demo_ip k)) 0) with 0. rewrite Z.eqb_refl.
  destruct (Z.ltb_spec bn 12), (Z.eqb_spec bn 0) as [->|]; try lia; try done. change (i_addrs (demo_ip k)) with ((58 + k) :: replicate 12 0).
  destruct (Z.to_nat bn) as [|q] eqn:E; [lia|]. cbn [nth]. by rewrite nth_lookup, lookup_replicate_2 by lia.
Qed.

Lemma demo_owns k b : owns (fview demo_fs) (i_addrs (demo_ip k)) b → b = 58 + k.
Proof.
  intros [Hb [Hi|(bn & Hbn & Hm)]]; [by cbn in Hi|]. rewrite demo_map in Hm by lia. destruct (Z.eqb_spec bn 0); lia.
Qed.

Lemma demo_live i k : k = 2 ∨ k = 3 → inodes demo_fs !! i = Some (demo_ip k) → live demo_sb i (demo_ip k) ∅ demo_fs.
Proof.
  intros Hk Hi. assert (Hsz : 0 <= i_size (demo_ip k) <= 100) by (by destruct Hk as [-> | ->]). split.
  - split; [exact demo_store_ok|done|done|done|exact demo_image|]. split; [done| | |].
    + intros b ->%demo_owns. split; [split; cbn; lia|]. apply demo_bitmap_spec. lia.
    + intros bn bn' Hbn Hbn'. rewrite !demo_map by lia. case_if; case_if; lia.
    + intros bn Hbn. rewrite demo_map by lia. cbn. case_if; lia.
  - split; [change MAXFILE with 140; change BSIZE with 512; lia|]. intros bn Hbn Hlt. rewrite demo_map by lia.
    change BSIZE with 512 in Hlt. ztest (bn =? 0) is true. lia.
  - split; [destruct Hk as [-> | ->]; vm_compute; intuition discriminate..|]. split; [done|]. constructor; [unfold is_u32; lia|by repeat constructor].
  - cbn. lia.
  - destruct Hk as [-> | ->]; vm_compute; reflexivity.
Qed.

Definition demo_text : mem := λ x, u8 x.

Lemma write_then_read_witness :
  ∃ s', writei (λ _, None) 0 demo_text 7 90 20 demo_fs = Done 20 s' ∧ i_size (the_inode 0 s') = 110.
Proof.
  destruct (write_then_read demo_sb (λ _, None) (λ _, None) 1 0 (demo_ip 2) 1 (demo_ip 3) ∅ {[58]} demo_fs demo_text 7 90 20)
    as (s' & T' & R & _ & _ & Hs & _).
  - exact demo_layout.
  - exact demo_good.
  - by apply demo_live; [left|].
  - by apply demo_live; [right|].
  - done.
  - split; [done|]. intros b ->%demo_owns. by intros ?%demo_owns.
  - done.
  - done.
  - intros x. apply u8_range.
  - cbn. lia.
  - lia.
  - change MAXFILE with 140. change BSIZE with 512. lia.
  - by vm_compute.
  - split; [set_solver|cbn; set_solver|done| |].
    + apply Nat.leb_le. vm_compute. reflexivity.
    + apply Nat.leb_le. vm_compute. reflexivity.
  - exists s'. split; [exact R|exact Hs].
Defined.

(** The unlinked file of inode 2 is closed. *)
Definition demo_closed : fstate lstate := put_inode 0 (set_i_lock (SleepLock false false 0) (demo_ip 2)) demo_fs.

Lemma iput_discards_witness :
  ∃ s', iput 0 demo_closed = Done tt s' ∧ discarded demo_sb (demo_ip 2) (fview demo_fs) (fview s') ∧ i_ref (the_inode 0 s') = 0.
Proof.
  destruct (iput_discards demo_sb 0 (set_i_lock (SleepLock false false 0) (demo_ip 2)) ∅ demo_closed)
    as (s' & T' & R & _ & _ & [D1 D2 D3 D4 D5] & _ & Hi & _).
  - exact demo_layout.
  - exact demo_good.
  - apply live_lock. by apply demo_live; [left|].
  - done.
  - done.
  - done.
  - done.
  - done.
  - apply Nat.leb_le. vm_compute. reflexivity.
  - exists s'. split_and!; [exact R| |].
    + split; [exact D1|exact D2|exact D3|exact D4|]. exact (f_equal (set_i_lock (i_lock (demo_ip 2))) D5).
    + unfold the_inode. by rewrite Hi.
Defined.

(** An empty cache; an inode is looked up, the reference duplicated and one of
    the two given up. *)
Definition empty_cache : fstate lstate := set_inodes (replicate 50 inode0) demo_fs.
Definition after_get : fstate lstate := state_after demo_fs (iget ROOTDEV 5 empty_cache).
Definition after_dup : fstate lstate := state_after demo_fs (idup 0 after_get).
Definition after_put : fstate lstate := state_after demo_fs (iput 0 after_dup).

Lemma icache_references_witness :
  (∀ i ip, inodes after_put !! i = Some ip → i_ref ip = Z.of_nat (refs i [(0%nat, (ROOTDEV, 5))])) ∧ i_inum (the_inode 0 after_put) = 5.
Proof.
  destruct (icache_references empty_cache after_put [(0%nat, (ROOTDEV, 5))]) as (H1 & H2 & _).
  - reflexivity.
  - intros i ip Hi. change (replicate 50 inode0 !! i = Some ip) in Hi. by apply lookup_replicate_1 in Hi as [-> _].
  - eapply (rtc_l _ _ (after_get, _)); [apply (step_iget _ _ _ ROOTDEV 5 0); apply state_after_Done; vm_compute; reflexivity|].
    eapply (rtc_l _ _ (after_dup, _)); [apply (step_idup _ _ _ 0 (ROOTDEV, 5) 0); [left|apply state_after_Done; vm_compute; reflexivity]|].
    apply rtc_once. apply (step_iput _ _ [] _ 0 (ROOTDEV, 5)). apply state_after_Done. vm_compute. reflexivity.
  - split; [exact H1|]. by apply (H2 0%nat ROOTDEV 5); left.
Defined.

Lemma rw_rejects_witness : writei (λ _, None) 0 demo_text 7 101 20 demo_fs = Done (-1) demo_fs.
Proof.
  destruct (rw_rejects demo_sb (λ _, None) (λ _, None) 0 (demo_ip 2) ∅ demo_fs demo_text 7 101 20 demo_layout demo_good) as [H _].
  - by apply demo_live; [left|].
  - done.
  - intros x. apply u8_range.
  - lia.
  - lia.
  - apply H. left. cbn. lia.
Defined.

Lemma write_logs_few_witness : ∃ s', writei (λ _, None) 0 demo_text 7 90 1500 demo_fs = Done 1500 s'.
Proof.
  destruct (write_logs_few demo_sb (λ _, None) 0 (demo_ip 2) ∅ demo_fs demo_text 7 90 1500 demo_layout demo_good) as (s' & T' & R & _).
  - by apply demo_live; [left|].
  - done.
  - intros x. apply u8_range.
  - cbn. lia.
  - change BSIZE with 512. lia.
  - change MAXFILE with 140. change BSIZE with 512. lia.
  - apply Nat.leb_le. vm_compute. reflexivity.
  - apply Nat.leb_le. vm_compute. reflexivity.
  - exists s'. exact R.
Defined.

Lemma balloc_allocates_witness : ∃ s1, balloc ROOTDEV demo_fs = Done 62 s1 ∧ bitmap demo_sb (fview s1) 62 = true.
Proof.
  pose proof (balloc_allocates demo_sb ∅ demo_fs demo_layout demo_good demo_store_ok eq_refl demo_image
    ltac:(apply Nat.leb_le; vm_compute; reflexivity)) as H.
  assert (E : match balloc ROOTDEV demo_fs with Done b _ => b | _ => 0 end = 62) by (vm_compute; reflexivity).
  destruct (balloc ROOTDEV demo_fs) as [b s1| | | |]; [|done..]. subst b. exists s1. split; [done|].
  destruct H as (_ & _ & _ & Hbit & _). by rewrite Hbit.
Defined.

Lemma dirlink_adds_witness : ∃ s', dirlink (λ _, None) (λ _, None) 1 [97; 98] 2 demo_fs = Done 0 s'.
Proof.
  destruct (dirlink_adds demo_sb (λ _, None) (λ _, None) 1 (demo_ip 3) 2 ∅ {[58]} demo_fs [97; 98] 2 demo_layout demo_good)
    as (s' & T' & off & cnt & R & _).
  - split; [by apply demo_live; [right|]|done|done].
  - repeat constructor; unfold is_u8; lia.
  - lia.
  - vm_compute. reflexivity.
  - change MAXFILE with 140. change BSIZE with 512. lia.
  - split; [set_solver|cbn; set_solver|done| |]; apply Nat.leb_le; vm_compute; reflexivity.
  - exists s'. exact R.
Defined.
