(* ===== verification/SysClaims.v ===== *)
(** * The system calls on files keep the references in order

    The claim about all the calls of sysfile.c and its witness. *)

From Stdlib Require Import ZArith Lia.
From stdpp Require Import base numbers list gmap strings relations.
From S2P Require Import Prelude Mem Kalloc Pipe Bio Memide Log Blocks Fs Proc File Syscall Sysfile SysfileFacts LogStore FsClaims.

Section claim.
Context {B : Type} `{!BlockOps B} `{!TxOps B}.
Context (devsw_read devsw_write : Z → option (devfn B)) (kend : Z).
Implicit Types s : sstate B.

(** One system call of a process that returns (or sleeps in a pipe), or the
    process itself changing its memory and stack pointer. *)
Inductive file_call : sstate B → sstate B → Prop :=
| call_dup s r s' : sys_dup s = Done r s' → file_call s s'
| call_read s r s' : sys_read devsw_read s = Done r s' → file_call s s'
| call_write s r s' : sys_write devsw_write s = Done r s' → file_call s s'
| call_close s r s' : sys_close kend s = Done r s' → file_call s s'
| call_fstat s r s' : sys_fstat s = Done r s' → file_call s s'
| call_link s r s' : sys_link devsw_read devsw_write s = Done r s' → file_call s s'
| call_unlink s r s' : sys_unlink devsw_read devsw_write s = Done r s' → file_call s s'
| call_open s r s' : sys_open devsw_read devsw_write kend s = Done r s' → file_call s s'
| call_mkdir s r s' : sys_mkdir devsw_read devsw_write s = Done r s' → file_call s s'
| call_mknod s r s' : sys_mknod devsw_read devsw_write s = Done r s' → file_call s s'
| call_chdir s r s' : sys_chdir devsw_read s = Done r s' → file_call s s'
| call_pipe s r s' : sys_pipe kend s = Done r s' → file_call s s'
| user_step s m esp : file_call s (SState (set_umem m (ss_files s)) (ss_sz s) esp (ofile s) (cwd s)).

Lemma file_call_account X s s' : account X s → file_call s s' → account X s'.
Proof.
  intros Hac Hc. destruct Hc.
  - by eapply balanced_dup.
  - by eapply balanced_read.
  - by eapply balanced_write.
  - by eapply balanced_close.
  - by eapply balanced_fstat.
  - by eapply balanced_link.
  - by eapply balanced_unlink.
  - by eapply balanced_open.
  - by eapply balanced_mkdir.
  - by eapply balanced_mknod.
  - by eapply balanced_chdir.
  - by eapply balanced_pipe.
  - by destruct Hac.
Qed.

(** [sys_dup] returns on an account without debts. *)
Lemma dup_returns X s : (∀ i, 0 <= X i) → account X s → ∃ r s', sys_dup s = Done r s'.
Proof.
  intros HX [Hl Hr Ho Hz]. unfold sys_dup. destruct (argfd 0 s) as [r s1| | | |] eqn:E.
  2-5: exfalso; revert E; unfold argfd, get_int; cbn; repeat (case_match; cbn; try done).
  pose proof (argfd_spec _ _ _ _ E) as [-> Hfd]. mcall E. destruct r as [[fd f]|]; [|eauto].
  destruct (fdalloc f s) as [r s1| | | |] eqn:Ef.
  2-5: exfalso; revert Ef; unfold fdalloc; cbn; repeat (case_match; cbn; try done).
  mcall Ef. destruct r as [fd'|]; [|eauto].
  assert (Hs : ss_files s1 = ss_files s) by (revert Ef; unfold fdalloc; cbn; case_match; cbn; [by intros [= _ <-]|done]).
  assert (Hd : ∃ fs', filedup f (ss_files s) = Done tt fs').
  { destruct (lookup_lt_is_Some_2 (ftable (ss_files s)) f) as [g Hg]; [rewrite Hz; by eapply Ho|].
    assert (Ht : the_file f (set_ft_lock true (ss_files s)) = g) by (unfold the_file; cbn; by rewrite Hg).
    unfold filedup. mcall (acquire_run ft_lock set_ft_lock (ss_files s) Hl). rewrite Ht.
    pose proof (Hr f g Hg). pose proof (fd_count_pos f fd _ Hfd). specialize (HX f). ztest (f_ref g <? 1) is false. cbn. eauto. }
  destruct Hd as [fs' Hd]. unfold bind, on_files, lift. rewrite Hs, Hd. eauto.
Qed.

(** C18 The reference count of every open file is the number of descriptors of
    the process that name it plus the references [X] that others hold, whatever
    sequence of calls of sysfile.c the process makes and however they fail.  So
    a file that a descriptor names is never handed out again by [filealloc],
    and [sys_dup] never runs into the panic of [filedup]. *)
Theorem descriptor_references X s s' :
  account X s → (∀ i, 0 <= X i) → rtc file_call s s' →
  (∀ i f, ftable (ss_files s') !! i = Some f → f_ref f = fd_count i (ofile s') + X i) ∧
  (∀ fd i k, ofile s' !! fd = Some (Some i) → find_file 0 (ftable (ss_files s')) = Some k → k ≠ i) ∧
  (∃ r s'', sys_dup s' = Done r s'').
Proof.
  intros Hac HX Hr. assert (Hac' : account X s') by (revert Hac; induction Hr; eauto using file_call_account).
  split_and!; [apply (ac_refs _ _ Hac')| |by eapply dup_returns].
  intros fd i k Hfd Hk ->. apply find_file_spec in Hk as (_ & f & Hf & Hz). rewrite Nat.sub_0_r in Hf.
  pose proof (ac_refs _ _ Hac' i f Hf). pose proof (fd_count_pos i fd _ Hfd). specialize (HX i). lia.
Qed.
End claim.

(** Descriptor 0 names file 3; the process duplicates and closes it. *)
#[local] Instance claim_ops : BlockOps lstate := log_ops memide_rw.
#[local] Instance claim_tx : TxOps lstate := log_tx memide_rw.
Definition open_files : list file := <[3%nat := File FD_INODE 1 true false 0 0 0]> (replicate NFILE file0).
Definition demo_p : pstate := PState ∅ (Machine (λ _, 0) false false 0 0 0 []) (λ _, 0) false [].
Definition demo_sys : sstate lstate := SState (Files demo_fs false open_files demo_p) 4096 100 (Some 3%nat :: replicate 15 None) 0.
Definition sys_dupped : sstate lstate := state_after demo_sys (sys_dup demo_sys).
Definition sys_closed : sstate lstate := state_after demo_sys (sys_close 0 sys_dupped).

Lemma demo_account : account (λ _, 0) demo_sys.
Proof.
  split; [done| |by intros [|fd] i; cbn; [intros [= <-]; unfold NFILE; lia|intros H; apply (lookup_replicate_1 15 None) in H as [? _]]|done].
  intros i f Hi. change (open_files !! i = Some f) in Hi. unfold open_files in Hi.
  destruct (decide (i = 3%nat)) as [->|Hn]; [by injection Hi as <-|].
  rewrite list_lookup_insert_ne in Hi by congruence. apply lookup_replicate_1 in Hi as [-> _].
  unfold fd_count. cbn. by rewrite bool_decide_false by congruence.
Qed.

Lemma descriptor_references_witness :
  f_ref (the_file 3 (ss_files sys_closed)) = 1 ∧ ∃ r s, sys_dup sys_closed = Done r s.
Proof.
  destruct (descriptor_references (λ _, None) (λ _, None) 0 (λ _, 0) demo_sys sys_closed) as (_ & _ & H3).
  - exact demo_account.
  - done.
  - eapply (rtc_l _ _ sys_dupped); [eapply (call_dup _ _ _ _ 1); apply state_after_Done; vm_compute; reflexivity|].
    apply rtc_once. eapply (call_close _ _ _ _ 0). apply state_after_Done. vm_compute. reflexivity.
  - split; [vm_compute; reflexivity|exact H3].
Defined.
